(* ===== verification/_CoqProject ===== *)
-Q . S2P
Prelude.v
Monad.v
FsmBtree.v
FsmBtreeInv.v
FsmBtreeInsert.v
FsmBtreeDelete.v
FsmAlloc.v
Fsm.v
FsmProofs.v
FsmMount.v
FsmTheorems.v
Data.v
Snapshot.v
SnapshotProofs.v
SnapshotTheorems.v
Transaction.v
Blocks.v
BnodeBytes.v
BnodeRepr.v
BnodeTheorems.v
BnodePool.v
BnodePoolProofs.v
BnodePoolTheorems.v
Btree.v
BtreeInv.v
BtreeFind.v
BtreeInsert.v
BtreeShrink.v
BtreeUpdateKey.v
BtreeRemove.v
BtreeSpec.v
BtreeTheorems.v
Exttree.v
ExttreeProofs.v
ExttreeTheorems.v
Fork.v
ForkProofs.v
ForkTheorems.v
InodeIds.v
InodeIdsTheorems.v
Truncate.v
TruncateTheorems.v
Cattree.v
CattreeProofs.v
CattreeTheorems.v
Vfs.v
VfsProofs.v
VfsExample.v
Namei.v
NameiLocks.v
NameiTheorems.v
NameiCreate.v
NameiUnlink.v
NameiReaddir.v
Super.v
SuperProofs.v
SuperTheorems.v
SuperSync.v
Options.v
Mount.v
MountTheorems.v
Writeback.v
WritebackProofs.v
WritebackTheorems.v
