(* ===== verification/Prelude.v ===== *)
(** * A verification of eMMCFS

    eMMCFS is a file system of the Linux kernel for eMMC chips.  A volume holds
    a bitmap of its blocks, two B-trees of nodes stored in files of the volume
    (the catalog of names and the overflow tree of extents), files with the
    bitmaps of the inode numbers and of the hard links, and a small area for the
    journal of the metadata pages.  This library models the code that keeps
    these structures and proves what it promises, from the bytes of a B-tree
    node up to the names of a directory, the blocks of a file and the mount.

    ** The parts and where they are modelled

    The blocks of the volume.
    - [FsmBtree] is src/fsm_btree.c: the B-tree in memory that indexes the free
      extents.  Nodes are inductive trees; arrays are their live prefixes.
      [FsmBtreeInv], [FsmBtreeInsert], [FsmBtreeDelete] and [FsmAlloc] prove the
      operations, every failed allocation included.
    - [Fsm] is src/fsm.c: the bitmap, the allocation and release of blocks, the
      preallocation, and the scan of the bitmap at mount time.  It sees the
      tree through the class [FreeTree] and the journal through [Journal].
      [FsmProofs] has the invariant [fsm_inv] (the extents of the tree are the
      clear bits of the bitmap), [FsmMount] the scan against a reference
      definition that reads bit by bit, [FsmTheorems] the instance of
      [FreeTree] and the properties.
    - [Blocks] is what files rely on: the class [BlockAlloc], a set of blocks in
      use from which chunks are taken and to which they are given back, and what
      it means that a request is refused; the free-space manager is its
      instance.

    The journal.
    - [Data] is the transfer of pages in src/data.c, in requests whose size the
      kernel limits; the device is a map from addresses to bytes.
    - [Snapshot] is src/snapshot.c: the copies of the metadata pages, the commit
      of the head, the restoration after a crash.  [SnapshotProofs] and
      [SnapshotTheorems] prove that a crash between the commit and the end of
      the writes is undone.
    - [Transaction] is the concurrent part of src/snapshot.c and src/inode.c: the
      nested transactions of the tasks against the two flushes of the journal,
      [flash_snapshot] and [update_metadata], as a step relation with
      reachability.

    The B-trees on the volume.
    - [BnodeBytes] has the functions of src/btree.c on the bytes of one node;
      [BnodeRepr] the node as a list of records and the relation [repr] between
      the two; [BnodeTheorems] the refinement, function by function.
    - [BnodePool] is src/bnode.c: the nodes by number, the bitmap of those in
      use, the cache, and the answers of the kernel to the calls that can fail.
      [BnodePoolProofs] and [BnodePoolTheorems] have the invariant and the
      behaviour on every branch.
    - [Btree] is the rest of src/btree.c, over the nodes as lists of records.
      [BtreeInv] has the invariant [tree_ok] for any order of the keys (the
      class [KeyOrder]) and the number of ids in use that are no nodes of the tree
      ([account], which insertion and removal keep, so no id is lost), [BtreeFind] the search, [BtreeInsert] the insertion,
      [BtreeShrink], [BtreeUpdateKey] and [BtreeRemove] the removal,
      [BtreeSpec] the rules that the clients use, [BtreeTheorems] the
      properties.  A removal is correct in trees that are [removable]: the source
      stops the kernel in others, and [BtreeTheorems] shows two of them.

    The clients of the B-trees.
    - [Exttree] is src/extents.c and the records of src/orphan.c, with
      [ExttreeProofs] (the order is an instance of [KeyOrder]) and
      [ExttreeTheorems].
    - [Fork] is the fork of a file in src/inode.c and src/emmcfs.h: layout,
      translation of blocks and expansion, [emmcfs_get_block]; [ForkProofs] and
      [ForkTheorems] have the invariant that ties the blocks of a file to the
      extents tree and to the blocks in use.
    - [Truncate] is src/file.c and the processing of orphans in src/orphan.c;
      [TruncateTheorems] has the truncation in the fork and the removal.
    - [Cattree] is src/cattree.c; [CattreeProofs] has the order of the names and
      the catalog as a map, [CattreeTheorems] search and insertion as lookup and
      insertion of that map, and where the order fails.
    - [InodeIds] are the numbers of inodes and of hard links in src/inode.c,
      with [InodeIdsTheorems].

    Inodes and directories.
    - [Vfs] is the inode in memory, its record in the catalog and the way
      between the two in src/inode.c, and the lock of the catalog
      (src/mutex_on_sem.h).  Its state [fs] joins the catalog, the extents tree,
      the numbers, the inodes in memory and the volume.  [VfsProofs] has the
      round trip, [VfsExample] a small volume on which witnesses run.
    - [Namei] are the operations of src/inode.c on names: search, listing,
      creation, removal, renaming, links and attributes, with every call that
      can fail.
    - [NameiLocks] shows which calls give the lock of the catalog back,
      [NameiTheorems] the search and the writing of an inode, [NameiCreate]
      the creation, [NameiUnlink] the removal of a name, and [NameiReaddir] that
      the calls of [readdir] list a directory once and completely, however small
      the buffer.

    The volume as a whole.
    - [Super] is the reading, repair and writing of the super blocks in
      src/super.c, over the bytes of the device.  [SuperProofs] has the places of
      the blocks, [SuperTheorems] the reading with every combination of damaged
      blocks, [SuperSync] the writing, of which the state keeps the requests in
      their order, so that the states of the device after an interruption come
      from the requests of the code: what the next mount finds after it, after
      a power failure in it, and after a transaction that was rolled back.
    - [Options] is src/options.c.
    - [Mount] are the steps of [emmcfs_fill_super] with its labels and of
      [emmcfs_put_super] in src/super.c, and the sizes of the journal from
      src/snapshot.c.  [MountTheorems] shows what a mount, a failed mount and an
      unmount leave in memory, and that the count of the levels ends.
    - [Writeback] is the writing of dirty pages: the requests that
      [emmcfs_mpage_writepages] in src/data.c gathers them in, and the metadata
      between the commit of the journal and its clearing ([update_metadata] in
      src/inode.c).  [WritebackProofs] shows that a pending request can be sent
      early or late; [WritebackTheorems] that the batches write what a page at a
      time would, and that the journal is cleared only after the five special
      files.

    ** Conventions

    Machine integers are [Z]; the source's conversions are written out with
    [uwrap] and [swrap] ([u32], [s8], ...) where a value can leave its range.  A
    call answers [Ok], [Err e] (a negative error code or an error pointer) or
    [Bug] (a [BUG_ON], or a use of memory that the C standard leaves
    undefined).  [Monad] threads a state through such calls and has a
    weakest-precondition calculus.  What the kernel decides (whether memory is
    there, whether a page can be read or put in the journal) is a list of
    answers in the state, successes past its end; a state is [calm] or
    [plenty] when no answer is a failure.  Theorems cover all answers and say
    more for the calm ones.

    Recursion follows the structure of the data where the code does.  The other
    loops carry fuel: the loops of [expand_file] take one turn per halving of
    the request ([expand_fuel]), the walk of [fsm_btree_free] and the scan of a
    word take at most as many turns as there are levels or bits; the theorems
    say that the result is reached, so no theorem holds because fuel ran out.

    ** What is not modelled

    Locks, except the transactions' in [Transaction] and the catalog's in
    [Namei]: the operations of a tree or of the free-space manager run one at a
    time.  The page cache and the mapping of pages are the kernel's: the walk
    over dirty pages and the generic reading and writing (block_write_full_page,
    mpage_writepages, mpage_readpages) are arguments of [Writeback] or left out,
    with the wrappers around them in src/file.c and src/inode.c.  References to
    inodes are counted in [Mount] only.  The blocks that the file of the extents tree takes
    when the tree grows are not taken from the volume of the same state: [grow]
    stands for them.
    [emmcfs_write_inode_to_bnode] is a parameter of [Fork], which does not have
    the catalog in its state.  The functions of the kernel ([tolower],
    [crc32], [match_token], the allocators, [BUG]) are parameters or answers.
    [Mount] is given the results of the steps that other files model, since
    their states differ; [Super] and [Options] run inside it.  Creation and
    removal are proved in the root, and in directories whose hint names a node of
    the catalog or no node in use ([hint_lasts]); the removal of the last name for
    files whose blocks are all in the fork.  Of the truncation the fork and the
    last extent of the tree are proved.  The CRC of nodes, CONFIG_EMMCFS_PROC_INFO and the check of
    EMMCFS_VERSION are configuration options that are off.  The reports of
    src/procfs.c, the initialisation of the module, freezing and eviction, which
    only call the kernel, are not modelled; src/debug.c prints. *)

From stdpp Require Export base list numbers gmap sets.
From stdpp Require Export sorting.
From Stdlib Require Export ZArith Lia.

Open Scope Z_scope.

(** ** Error numbers (linux/errno-base.h), used negated as in the source *)
Definition EPERM : Z := 1.
Definition ENOENT : Z := 2.
Definition EIO : Z := 5.
Definition ENOMEM : Z := 12.
Definition EFAULT : Z := 14.
Definition EEXIST : Z := 17.
Definition EINVAL : Z := 22.
Definition ENOSPC : Z := 28.

(** ** Machine integers: the value of a [w]-bit C integer holding [x] *)
Definition uwrap (w x : Z) : Z := x mod 2 ^ w.
Definition swrap (w x : Z) : Z := (x + 2 ^ (w - 1)) mod 2 ^ w - 2 ^ (w - 1).
Abbreviation u8 := (uwrap 8).
Abbreviation u16 := (uwrap 16).
Abbreviation u32 := (uwrap 32).
Abbreviation u64 := (uwrap 64).
Abbreviation s8 := (swrap 8).
Abbreviation s32 := (swrap 32).
Abbreviation s64 := (swrap 64).

Lemma uwrap_small w x : 0 <= x < 2 ^ w -> uwrap w x = x.
Proof. intros. unfold uwrap. by apply Z.mod_small. Qed.

Lemma uwrap_bound w x : 0 <= w -> 0 <= uwrap w x < 2 ^ w.
Proof. intros. unfold uwrap. apply Z.mod_pos_bound. lia. Qed.

Lemma swrap_small w x : 0 < w -> - 2 ^ (w - 1) <= x < 2 ^ (w - 1) -> swrap w x = x.
Proof.
  intros Hw Hx. unfold swrap.
  assert (2 ^ w = 2 * 2 ^ (w - 1)) as E.
  { replace w with (1 + (w - 1)) at 1 by lia. rewrite Z.pow_add_r by lia. lia. }
  rewrite Z.mod_small; lia.
Qed.

(** ** The kernel's memory allocator

    [kmem_cache_alloc] and [kmalloc] are code of the kernel, not of the file
    system.  The only thing the source relies on is that a call either gives
    fresh memory or fails.  An oracle is the list of the answers of the coming
    calls; past its end every allocation succeeds. *)
Abbreviation oracle := (list bool) (only parsing).

Definition alloc (o : oracle) : bool * oracle :=
  match o with
  | [] => (true, [])
  | b :: o' => (b, o')
  end.

(** An oracle whose every answer is a success. *)
Definition plenty (o : oracle) : Prop := Forall (fun b => b = true) o.

Lemma plenty_alloc o : plenty o -> exists o', alloc o = (true, o') /\ plenty o'.
Proof.
  intros H. destruct o as [|b o]; simpl; [by eauto|].
  inversion H; subst. eauto.
Qed.

Lemma plenty_nil : plenty [].
Proof. constructor. Qed.

(** ** Lists split at an index

    The models describe an array update by [<[i:=x]>], [take] and [drop]; the
    proofs work on an array split at that index. *)
Section list_mid.
Context {A : Type}.
Implicit Types (l : list A) (x y : A) (i : nat).

Lemma mid_lookup i l1 x l2 : i = length l1 -> (l1 ++ x :: l2) !! i = Some x.
Proof. intros ->. by apply list_lookup_middle. Qed.

Lemma mid_lookup_S i l1 x y l2 :
  i = length l1 -> (l1 ++ x :: y :: l2) !! S i = Some y.
Proof.
  intros ->. change (x :: y :: l2) with ([x] ++ y :: l2). rewrite app_assoc.
  apply list_lookup_middle. rewrite length_app. simpl. lia.
Qed.

Lemma mid_lookup_end i l : i = length l -> l !! i = None.
Proof. intros ->. by apply lookup_ge_None. Qed.

Lemma mid_insert i l1 x y l2 :
  i = length l1 -> <[i := y]> (l1 ++ x :: l2) = l1 ++ y :: l2.
Proof. intros ->. rewrite insert_app_r_alt by lia. by rewrite Nat.sub_diag. Qed.

Lemma mid_insert_S i l1 x y z l2 :
  i = length l1 -> <[S i := z]> (l1 ++ x :: y :: l2) = l1 ++ x :: z :: l2.
Proof.
  intros ->. rewrite insert_app_r_alt by lia.
  by replace (S (length l1) - length l1)%nat with 1%nat by lia.
Qed.

Lemma mid_take i l1 l2 : i = length l1 -> take i (l1 ++ l2) = l1.
Proof. intros ->. by apply take_app_length'. Qed.

Lemma mid_drop i l1 l2 : i = length l1 -> drop i (l1 ++ l2) = l2.
Proof. intros ->. by apply drop_app_length'. Qed.

Lemma mid_drop_S i l1 x l2 : i = length l1 -> drop (S i) (l1 ++ x :: l2) = l2.
Proof.
  intros ->. rewrite drop_app_ge by lia.
  by replace (S (length l1) - length l1)%nat with 1%nat by lia.
Qed.

Lemma mid_drop_2 i l1 x y l2 : i = length l1 -> drop (i + 2) (l1 ++ x :: y :: l2) = l2.
Proof.
  intros ->. rewrite drop_app_ge by lia.
  by replace (length l1 + 2 - length l1)%nat with 2%nat by lia.
Qed.

Lemma mid_delete i l1 x l2 : i = length l1 -> delete i (l1 ++ x :: l2) = l1 ++ l2.
Proof. intros ->. by rewrite delete_middle. Qed.

(** Every list splits at any index. *)
Lemma list_split_at i l :
  (i <= length l)%nat -> exists l1 l2, l = l1 ++ l2 /\ length l1 = i.
Proof.
  intros H. exists (take i l), (drop i l). split; [by rewrite take_drop|].
  rewrite length_take. lia.
Qed.

Lemma list_split_mid i l :
  (i < length l)%nat -> exists l1 x l2, l = l1 ++ x :: l2 /\ length l1 = i.
Proof.
  intros H. destruct (list_split_at i l) as (l1 & l2 & -> & Hl); [lia|].
  rewrite length_app in H. destruct l2 as [|x l2]; simpl in H; [lia|]. eauto.
Qed.
End list_mid.

#[export] Hint Rewrite @length_app @length_take @length_drop @length_insert
  @length_map @length_cons @length_nil : len.

(** Solves an equation between lengths of concatenations. *)
Ltac len := simpl in *; autorewrite with len in *; simpl in *; lia.

(** Rewrites array accesses at the split point. *)
Ltac mid :=
  repeat first
    [ rewrite mid_lookup by len | rewrite mid_lookup_S by len
    | rewrite mid_insert by len | rewrite mid_insert_S by len
    | rewrite mid_take by len | rewrite mid_drop by len
    | rewrite mid_drop_S by len | rewrite mid_drop_2 by len
    | rewrite mid_delete by len ].

(** ** Strongly sorted lists *)
Section sorted.
Context {A : Type} (R : A -> A -> Prop).

Lemma SSorted_app l1 l2 :
  StronglySorted R (l1 ++ l2) <->
  StronglySorted R l1 /\ StronglySorted R l2 /\
  Forall (fun x => Forall (R x) l2) l1.
Proof.
  induction l1 as [|x l1 IH]; simpl.
  - split; [intros; repeat split; try done; constructor | by intros (_ & ? & _)].
  - split.
    + intros [H1 H2]%StronglySorted_inv. apply IH in H1 as (?&?&?).
      apply Forall_app in H2 as [??]. repeat split; try constructor; auto.
    + intros (H1 & H2 & H3). apply StronglySorted_inv in H1 as [??].
      inversion H3; subst. constructor; [apply IH; auto|]. by apply Forall_app.
Qed.

Lemma SSorted_cons x l :
  StronglySorted R (x :: l) <-> StronglySorted R l /\ Forall (R x) l.
Proof. split; [apply StronglySorted_inv | intros [??]; by constructor]. Qed.
End sorted.

(** ** Filters of lists *)
Section filter.
Context {A : Type} (P Q : A -> Prop) {HP : forall x, Decision (P x)} {HQ : forall x, Decision (Q x)}.

Lemma filter_ext_in (l : list A) :
  (forall x, x ∈ l -> P x <-> Q x) -> filter P l = filter Q l.
Proof.
  induction l as [|x l IH]; intros H; [done|].
  assert (filter P l = filter Q l) as E by (apply IH; set_solver).
  destruct (decide (P x)) as [Hx|Hx]; pose proof (H x ltac:(set_solver)).
  - rewrite !filter_cons_True by tauto. by rewrite E.
  - rewrite !filter_cons_False by tauto. done.
Qed.

Lemma filter_all_in (l : list A) : (forall x, x ∈ l -> P x) -> filter P l = l.
Proof.
  induction l as [|x l IH]; intros H; [done|].
  rewrite filter_cons_True by set_solver. rewrite IH by set_solver. done.
Qed.

Lemma filter_none_in (l : list A) : (forall x, x ∈ l -> ~ P x) -> filter P l = [].
Proof.
  induction l as [|x l IH]; intros H; [done|].
  rewrite filter_cons_False by set_solver. apply IH. set_solver.
Qed.
End filter.

(** Two functions mapped over ranges of the same length. *)
Lemma map_seqZ_ext {A} (f g : Z -> A) a b n :
  (forall j, 0 <= j < n -> f (a + j) = g (b + j)) ->
  map f (seqZ a n) = map g (seqZ b n).
Proof.
  intros H. destruct (Z.le_gt_cases n 0) as [Hn|Hn]; [by rewrite !seqZ_nil by done|].
  assert (exists m, n = Z.of_nat m) as [m ->] by (exists (Z.to_nat n); lia).
  clear Hn. revert a b H. induction m as [|m IH]; intros a b H; [done|].
  rewrite (seqZ_cons a), (seqZ_cons b) by lia. simpl. f_equal.
  - specialize (H 0). rewrite !Z.add_0_r in H. apply H. lia.
  - replace (Z.pred (Z.of_nat (S m))) with (Z.of_nat m) by lia. apply IH.
    intros j Hj. rewrite !Z.add_succ_comm. apply H. lia.
Qed.

(** ** Little-endian integers *)
Fixpoint le_split (n : nat) (x : Z) : list Z :=
  match n with
  | O => []
  | S n => x mod 256 :: le_split n (x / 256)
  end.

Fixpoint le_combine (l : list Z) : Z :=
  match l with
  | [] => 0
  | b :: l => b + 256 * le_combine l
  end.

Lemma length_le_split n x : length (le_split n x) = n.
Proof. revert x. induction n as [|n IH]; intros x; simpl; [done|]. by rewrite IH. Qed.

Lemma le_combine_split n x : le_combine (le_split n x) = x mod 256 ^ Z.of_nat n.
Proof.
  revert x. induction n as [|n IH]; intros x; [by rewrite Z.mod_1_r|].
  simpl le_split. simpl le_combine. rewrite IH, Nat2Z.inj_succ, Z.pow_succ_r by lia.
  rewrite Z.rem_mul_r; [done|lia|]. apply Z.pow_pos_nonneg; lia.
Qed.

Lemma le_combine_split_small n x :
  0 <= x < 256 ^ Z.of_nat n -> le_combine (le_split n x) = x.
Proof. intros. rewrite le_combine_split. by apply Z.mod_small. Qed.

(** A field of [n] bytes behind [pre]. *)
Lemma le_field n x k l pre post : l = pre ++ le_split n x ++ post -> length pre = k -> 0 <= x < 256 ^ Z.of_nat n ->
  le_combine (take n (drop k l)) = x.
Proof.
  intros -> <- Hx. rewrite drop_app_length, take_app_length' by (by rewrite length_le_split).
  by apply le_combine_split_small.
Qed.

(** ** Calls that can fail

    [Err e] is a returned error code (or [ERR_PTR(e)]), [Bug] a [BUG()] that
    stops the kernel. *)
Inductive outcome (A : Type) := Ok (a : A) | Err (e : Z) | Bug.
Arguments Ok {A}.
Arguments Err {A}.
Arguments Bug {A}.

Definition obind {A B} (x : outcome A) (f : A -> outcome B) : outcome B :=
  match x with
  | Ok a => f a
  | Err e => Err e
  | Bug => Bug
  end.

Declare Scope emmcfs_scope.
Delimit Scope emmcfs_scope with emmcfs.
Notation "'let!' x := e 'in' f" := (obind e (fun x => f))
  (at level 200, x name, e at level 100, f at level 200, right associativity) : emmcfs_scope.
Open Scope emmcfs_scope.

(** [BUG_ON(c)] *)
Definition bug_on {A} (c : bool) (x : outcome A) : outcome A := if c then Bug else x.
