(* ===== verification/Monad.v ===== *)
(** * Computations on a state

    The source threads a state through calls that return error codes and stop
    at a [BUG()].  [St S A] is a computation on states [S] with an answer in
    [A]; a call that fails keeps what it has done.  The second half is a
    weakest-precondition calculus for such computations, and the lifting of
    computations on a part of the state to the whole of it. *)

From S2P Require Import Prelude.
Open Scope Z_scope.

Definition St (S A : Type) : Type := S -> outcome A * S.

Section computations.
Context {S : Type}.

Definition ret {A} (a : A) : St S A := fun t => (Ok a, t).
Definition fail {A} (e : Z) : St S A := fun t => (Err e, t).
Definition bug {A} : St S A := fun t => (Bug, t).
Definition bind {A B} (x : St S A) (f : A -> St S B) : St S B := fun t =>
  match x t with
  | (Ok a, t) => f a t
  | (Err e, t) => (Err e, t)
  | (Bug, t) => (Bug, t)
  end.

(** The result of a call, error or not, as a value. *)
Definition try {A} (x : St S A) : St S (outcome A) := fun t =>
  match x t with
  | (Bug, t) => (Bug, t)
  | (r, t) => (Ok r, t)
  end.
Definition gets {A} (f : S -> A) : St S A := fun t => (Ok (f t), t).
Definition modify (f : S -> S) : St S unit := fun t => (Ok tt, f t).
Definition BUG_ON (c : bool) : St S unit := if c then bug else ret tt.
End computations.

Notation "'do' x <- e ; f" := (bind e (fun x => f))
  (at level 200, x name, e at level 100, f at level 200, right associativity) : emmcfs_scope.
Notation "'do' ' x <- e ; f" := (bind e (fun x => f))
  (at level 200, x strict pattern, e at level 100, f at level 200, right associativity) : emmcfs_scope.
Notation "'do_' e ; f" := (bind e (fun _ => f))
  (at level 200, e at level 100, f at level 200, right associativity) : emmcfs_scope.

(** An error pointer that is used, or checked by a [BUG_ON]. *)
Definition or_bug {S A} (x : St S A) : St S A :=
  do r <- try x; match r with Ok a => ret a | _ => bug end.

Lemma bind_ext {S A B} (x y : St S A) (f g : A -> St S B) t :
  x t = y t -> (forall a t', f a t' = g a t') -> bind x f t = bind y g t.
Proof. intros E Ef. unfold bind. rewrite E. by destruct (y t) as [[a|e|] t']. Qed.

(** A computation on the part [get s] of the state. *)
Definition zoom {S T A} (get : S -> T) (set : T -> S -> S) (x : St T A) : St S A := fun s =>
  let '(r, t) := x (get s) in (r, set t s).

(** ** Weakest preconditions *)
Definition wp {S A} (x : St S A) (t : S) (Q : outcome A -> S -> Prop) : Prop :=
  Q (fst (x t)) (snd (x t)).

(** A postcondition on the states after a success. *)
Definition ok {S A} (Q : A -> S -> Prop) (r : outcome A) (t : S) : Prop :=
  match r with Ok a => Q a t | _ => False end.

Section wp.
Context {S A B : Type}.
Implicit Types (t : S).

Lemma wp_ret (a : A) t Q : Q (Ok a) t -> wp (ret a) t Q.
Proof. done. Qed.

Lemma wp_fail e t (Q : outcome A -> S -> Prop) : Q (Err e) t -> wp (fail e) t Q.
Proof. done. Qed.

Lemma wp_bind (x : St S A) (f : A -> St S B) t Q :
  wp x t (fun r t' => match r with Ok a => wp (f a) t' Q | Err e => Q (Err e) t' | Bug => Q Bug t' end) ->
  wp (bind x f) t Q.
Proof. unfold wp, bind. by destruct (x t) as [[a|e|] t']. Qed.

Lemma wp_gets (g : S -> A) (f : A -> St S B) t Q : wp (f (g t)) t Q -> wp (bind (gets g) f) t Q.
Proof. done. Qed.

Lemma wp_modify g (f : unit -> St S B) t Q : wp (f tt) (g t) Q -> wp (bind (modify g) f) t Q.
Proof. done. Qed.

Lemma wp_mono (x : St S A) t (P Q : outcome A -> S -> Prop) :
  wp x t P -> (forall r t', P r t' -> Q r t') -> wp x t Q.
Proof. unfold wp. auto. Qed.

Lemma wp_bind_ok (x : St S A) (f : A -> St S B) t Q :
  wp x t (ok (fun a t' => wp (f a) t' Q)) -> wp (bind x f) t Q.
Proof. intros H. apply wp_bind. eapply wp_mono; [exact H|]. by intros [a|e|] t'. Qed.

Lemma wp_BUG_ON c (f : unit -> St S B) t Q : c = false -> wp (f tt) t Q -> wp (bind (BUG_ON c) f) t Q.
Proof. by intros ->. Qed.

Lemma wp_try (x : St S A) (f : outcome A -> St S B) t Q :
  wp x t (fun r t' => match r with Bug => Q Bug t' | _ => wp (f r) t' Q end) ->
  wp (bind (try x) f) t Q.
Proof. unfold wp, bind, try. by destruct (x t) as [[a|e|] t']. Qed.

Lemma wp_try_last (x : St S A) t (Q : outcome (outcome A) -> S -> Prop) :
  wp x t (fun r t' => match r with Bug => Q Bug t' | _ => Q (Ok r) t' end) -> wp (try x) t Q.
Proof. unfold wp, try. by destruct (x t) as [[a|e|] t']. Qed.

Lemma wp_seq (x : St S A) (f : A -> St S B) t (P : A -> S -> Prop) Q :
  wp x t (ok P) -> (forall a t', P a t' -> wp (f a) t' Q) -> wp (bind x f) t Q.
Proof.
  intros H1 H2. apply wp_bind_ok. eapply wp_mono; [exact H1|]. intros [a|e|] t'; simpl; auto.
Qed.

Lemma wp_ok_mono (x : St S A) t (P Q : A -> S -> Prop) :
  wp x t (ok P) -> (forall a t', P a t' -> Q a t') -> wp x t (ok Q).
Proof. intros H1 H2. eapply wp_mono; [exact H1|]. intros [a|e|] t'; simpl; auto. Qed.

Lemma wp_ok_all (x : St S A) t (Q : outcome A -> S -> Prop) : wp x t (ok (fun a => Q (Ok a))) -> wp x t Q.
Proof. intros H. eapply wp_mono; [exact H|]. by intros [a|e|] t'. Qed.

(** A computation that may fail or stop, where it does not. *)
Lemma wp_try_ok (x : St S A) (f : outcome A -> St S B) t (P : A -> S -> Prop) Q :
  wp x t (ok P) -> (forall a t', P a t' -> wp (f (Ok a)) t' Q) -> wp (bind (try x) f) t Q.
Proof.
  intros H1 H2. apply wp_try. eapply wp_mono; [exact H1|]. intros [a|e|] t'; simpl; [apply H2|done|done].
Qed.

Lemma wp_zoom {T} (get : S -> T) set (x : St T A) t (Q : outcome A -> S -> Prop) :
  wp x (get t) (fun r u => Q r (set u t)) -> wp (zoom get set x) t Q.
Proof. unfold wp, zoom. by destruct (x (get t)). Qed.
End wp.

Lemma wp_or_bug {S A} (x : St S A) t (P : A -> S -> Prop) : wp x t (ok P) -> wp (or_bug x) t (ok P).
Proof. intros H. unfold or_bug. eapply wp_try_ok; [exact H|]. intros a t' HP. by apply wp_ret. Qed.
