(* ===== verification/FsmBtree.v ===== *)
(** * The free-space B-tree of fsm_btree.c: data and operations

    The in-memory B-tree that indexes the free extents of the volume.  A node
    is an inductive tree: the arrays [key_vals] and [children] are represented
    by their live prefixes, so [nr_active] is the length of [key_vals].  A read
    beyond a live prefix, a write beyond the capacity of an array and the use
    of a freed node are undefined behaviour and give [None]; theorems of
    FsmBtreeInsert.v and FsmBtreeDelete.v show that they do not happen.  The
    dead [children] entries of a leaf are not represented.

    The functions that loop by [goto] towards a leaf recurse on a fuel, for
    which [depth] of the tree is enough. *)

From S2P Require Import Prelude.
Open Scope Z_scope.

(** [struct fsm_btree_key] *)
Record fsm_btree_key := FKey { block_offset : Z; key_length : Z }.

#[export] Instance fsm_btree_key_eq_dec : EqDecision fsm_btree_key.
Proof. solve_decision. Defined.

(** [enum fsm_btree_node_type] *)
Inductive fsm_btree_node_type := FSM_INDEX_NODE | FSM_LEAF_NODE.

#[export] Instance fsm_btree_node_type_eq_dec : EqDecision fsm_btree_node_type.
Proof. solve_decision. Defined.

(** [enum position_t] *)
Inductive position_t := LEFT | RIGHT.

(** [struct emmcfs_fsm_btree_node] *)
Inductive fnode := FNode (type : fsm_btree_node_type) (level : Z)
  (key_vals : list fsm_btree_key) (children : list fnode).

Definition ntype (n : fnode) := let 'FNode t _ _ _ := n in t.
Definition nlevel (n : fnode) := let 'FNode _ l _ _ := n in l.
Definition key_vals (n : fnode) := let 'FNode _ _ ks _ := n in ks.
Definition children (n : fnode) := let 'FNode _ _ _ cs := n in cs.
Definition nr_active (n : fnode) : nat := length (key_vals n).

Fixpoint depth (n : fnode) : nat :=
  let 'FNode _ _ _ cs := n in S (foldr (fun c m => Nat.max (depth c) m) 0%nat cs).

Fixpoint node_count (n : fnode) : nat :=
  let 'FNode _ _ _ cs := n in S (foldr (fun c m => (node_count c + m)%nat) 0%nat cs).

(** [btree->root]: the source stores a null pointer, the error pointer of a
    failed allocation, or a node. *)
Inductive froot := RootNull | RootErr | RootNode (n : fnode).

Definition EMMCFS_FSM_BTREE_ORDER : nat := 32.

(** [fsm_btree_cmp_fn] *)
Definition fsm_btree_cmp_fn (key1 key2 : fsm_btree_key) : Z :=
  if block_offset key1 <? block_offset key2 then -1
  else if block_offset key1 >? block_offset key2 then 1
  else if key_length key1 <? key_length key2 then -1
  else if key_length key1 >? key_length key2 then 1
  else 0.

(** [allocate_btree_node]: a new leaf without keys. *)
Definition allocate_btree_node (o : oracle) : option fnode * oracle :=
  let '(ok, o) := alloc o in
  ((if ok then Some (FNode FSM_LEAF_NODE 0 [] []) else None), o).

Section operations.
(** [btree->order] *)
Variable order : nat.

(** Capacity of [key_vals]; [children] has one more entry. *)
Definition max_keys : nat := (2 * order - 1)%nat.

(** [btree_split_child]: the return code, the parent and the oracle. *)
Definition btree_split_child (parent : fnode) (index : nat) (o : oracle)
    : option (Z * fnode * oracle) :=
  let 'FNode pt pl pks pcs := parent in
  match pcs !! index with
  | None => None
  | Some (FNode ct cl cks ccs) =>
    let '(new_child, o) := allocate_btree_node o in
    match new_child with
    | None => Some (- ENOMEM, parent, o)
    | Some _ =>
      if (length cks <? max_keys)%nat || (max_keys <=? length pks)%nat then None
      else match cks !! (order - 1)%nat with
      | None => None
      | Some mid =>
        let leaf := bool_decide (ct = FSM_LEAF_NODE) in
        let new_child := FNode ct cl (take (order - 1) (drop order cks))
                           (if leaf then [] else take order (drop order ccs)) in
        let child := FNode ct cl (take (order - 1) cks)
                       (if leaf then [] else take order ccs) in
        Some (0, FNode pt pl (take index pks ++ mid :: drop index pks)
                   (take index pcs ++ child :: new_child :: drop (S index) pcs), o)
      end
    end
  end.

(** The binary search of a leaf: [inl tt] when the key is found,
    [inr imax] at the end of the loop. *)
Fixpoint leaf_search (fuel : nat) (key : fsm_btree_key)
    (ks : list fsm_btree_key) (imin imax : Z) : option (unit + Z) :=
  match fuel with
  | O => None
  | S fuel =>
    if imax >=? imin then
      let imid := (imin + imax) ÷ 2 in
      match ks !! Z.to_nat imid with
      | None => None
      | Some km =>
        let cmp_result := fsm_btree_cmp_fn key km in
        if cmp_result >? 0 then leaf_search fuel key ks (imid + 1) imax
        else if cmp_result <? 0 then leaf_search fuel key ks imin (imid - 1)
        else Some (inl tt)
      end
    else Some (inr imax)
  end.

(** The scan of an index node from the right, from entry [n - 1]:
    [inl tt] when the key is found, else the child to descend to. *)
Fixpoint index_search (key : fsm_btree_key) (ks : list fsm_btree_key) (n : nat)
    : option (unit + nat) :=
  match n with
  | O => Some (inr O)
  | S i =>
    match ks !! i with
    | None => None
    | Some ki =>
      let cmp_result := fsm_btree_cmp_fn key ki in
      if cmp_result =? 0 then Some (inl tt)
      else if cmp_result >? 0 then Some (inr n)
      else index_search key ks i
    end
  end.

(** The duplicate check in a full child, before it is split. *)
Fixpoint dup_in_full (key : fsm_btree_key) (ks : list fsm_btree_key) : bool :=
  match ks with
  | [] => false
  | k :: ks' =>
    let cmp_result := fsm_btree_cmp_fn key k in
    if cmp_result =? 0 then true
    else if cmp_result <? 0 then false
    else dup_in_full key ks'
  end.

(** [node = node->children[i]; goto insert], the child being updated in its
    place. *)
Definition insert_child (insert : fnode -> oracle -> option (Z * fnode * oracle))
    (node : fnode) (i : nat) (o : oracle) : option (Z * fnode * oracle) :=
  let 'FNode ty lv ks cs := node in
  match cs !! i with
  | None => None
  | Some c =>
    match insert c o with
    | None => None
    | Some (err, c', o) => Some (err, FNode ty lv ks (<[i:=c']> cs), o)
    end
  end.

(** [btree_insert_nonfull], the label [insert]. *)
Fixpoint btree_insert_nonfull (fuel : nat) (node : fnode) (key_val : fsm_btree_key)
    (o : oracle) : option (Z * fnode * oracle) :=
  match fuel with
  | O => None
  | S fuel =>
    let 'FNode ty lv ks cs := node in
    let i := Z.of_nat (length ks) - 1 in
    if bool_decide (ty = FSM_LEAF_NODE) then
      match leaf_search (S (length ks)) key_val ks 0 i with
      | None => None
      | Some (inl _) => Some (- EEXIST, node, o)
      | Some (inr imax) =>
        let p := Z.to_nat (imax + 1) in
        if (max_keys <=? length ks)%nat then None
        else Some (0, FNode ty lv (take p ks ++ key_val :: drop p ks) cs, o)
      end
    else
      match index_search key_val ks (length ks) with
      | None => None
      | Some (inl _) => Some (- EEXIST, node, o)
      | Some (inr i) =>
        match cs !! i with
        | None => None
        | Some child =>
          let descend :=
            insert_child (fun c o => btree_insert_nonfull fuel c key_val o) in
          if (nr_active child =? max_keys)%nat then
            if dup_in_full key_val (key_vals child) then Some (- EEXIST, node, o)
            else
              match btree_split_child node i o with
              | None => None
              | Some (err, node, o) =>
                if negb (err =? 0) then Some (err, node, o)
                else match key_vals node !! i with
                | None => None
                | Some ki =>
                  descend node (if fsm_btree_cmp_fn key_val ki >? 0 then S i else i) o
                end
              end
          else descend node i o
        end
      end
  end.

(** [fsm_btree_insert] *)
Definition fsm_btree_insert (root : froot) (key_val : fsm_btree_key) (o : oracle)
    : option (Z * froot * oracle) :=
  let '(root, o) :=
    match root with
    | RootNull =>
      let '(n, o) := allocate_btree_node o in
      (match n with Some n => RootNode n | None => RootErr end, o)
    | _ => (root, o)
    end in
  match root with
  | RootNull | RootErr => Some (- ENOMEM, root, o)
  | RootNode old_root =>
    if (nr_active old_root =? max_keys)%nat then
      let '(new_root, o) := allocate_btree_node o in
      match new_root with
      | None => None                      (* the error pointer is dereferenced *)
      | Some _ =>
        let new_root := FNode FSM_INDEX_NODE (nlevel old_root + 1) [] [old_root] in
        match btree_split_child new_root 0 o with
        | None => None
        | Some (ret, new_root, o) =>
          if negb (ret =? 0) then Some (ret, RootNode new_root, o)
          else match btree_insert_nonfull (depth new_root) new_root key_val o with
          | None => None
          | Some (ret, new_root, o) => Some (ret, RootNode new_root, o)
          end
        end
      end
    else match btree_insert_nonfull (depth old_root) old_root key_val o with
    | None => None
    | Some (ret, old_root, o) => Some (ret, RootNode old_root, o)
    end
  end.

(** [get_max_key_pos], [get_min_key_pos]: the last (first) key of the last
    (first) leaf of a subtree. *)
Fixpoint max_key (fuel : nat) (n : fnode) : option fsm_btree_key :=
  match fuel with
  | O => None
  | S fuel =>
    let 'FNode ty _ ks cs := n in
    if bool_decide (ty = FSM_LEAF_NODE) then last ks
    else match cs !! length ks with None => None | Some c => max_key fuel c end
  end.

Fixpoint min_key (fuel : nat) (n : fnode) : option fsm_btree_key :=
  match fuel with
  | O => None
  | S fuel =>
    let 'FNode ty _ ks cs := n in
    if bool_decide (ty = FSM_LEAF_NODE) then head ks
    else match cs !! O with None => None | Some c => min_key fuel c end
  end.

(** The store of [fsm_btree_delete] into the entry found by
    [get_max_key_pos] ([get_min_key_pos]). *)
Fixpoint set_max_key (fuel : nat) (n : fnode) (k : fsm_btree_key) : option fnode :=
  match fuel with
  | O => None
  | S fuel =>
    let 'FNode ty lv ks cs := n in
    if bool_decide (ty = FSM_LEAF_NODE) then
      match ks with
      | [] => None
      | _ => Some (FNode ty lv (<[(length ks - 1)%nat := k]> ks) cs)
      end
    else match cs !! length ks with
    | None => None
    | Some c =>
      match set_max_key fuel c k with
      | None => None
      | Some c' => Some (FNode ty lv ks (<[length ks := c']> cs))
      end
    end
  end.

Fixpoint set_min_key (fuel : nat) (n : fnode) (k : fsm_btree_key) : option fnode :=
  match fuel with
  | O => None
  | S fuel =>
    let 'FNode ty lv ks cs := n in
    if bool_decide (ty = FSM_LEAF_NODE) then
      match ks with
      | [] => None
      | _ => Some (FNode ty lv (<[O := k]> ks) cs)
      end
    else match cs !! O with
    | None => None
    | Some c =>
      match set_min_key fuel c k with
      | None => None
      | Some c' => Some (FNode ty lv ks (<[O := c']> cs))
      end
    end
  end.

(** The entries [i] and [i + 1] of an array become one, [x]. *)
Definition join_at {A} (i : nat) (x : A) (l : list A) : list A :=
  take i l ++ x :: drop (i + 2) l.

(** [merge_siblings]: the index of the merged node and the parent, or the
    error of the allocation.  The source copies exactly [order - 1] keys of
    both nodes.  The caller replaces the root when the parent has no key
    left; [fix_root_type] is the type it then gives the new root. *)
Definition merge_siblings (parent : fnode) (index : nat) (pos : position_t)
    (o : oracle) : option ((Z + nat) * fnode * oracle) :=
  let 'FNode pt pl pks pcs := parent in
  let index := if (index =? length pks)%nat then (index - 1)%nat else index in
  match pcs !! index, pcs !! S index, pks !! index with
  | Some (FNode t1 l1 ks1 cs1), Some (FNode _ _ ks2 cs2), Some k =>
    let '(new_node, o) := allocate_btree_node o in
    match new_node with
    | None => Some (inl (- ENOMEM), parent, o)
    | Some _ =>
      if (length ks1 =? order - 1)%nat && (length ks2 =? order - 1)%nat then
        let new_node := FNode t1 l1 (ks1 ++ k :: ks2) (cs1 ++ cs2) in
        Some (inr index,
              FNode pt pl (delete index pks) (join_at index new_node pcs), o)
      else None
    end
  | _, _, _ => None
  end.

Definition fix_root_type (n : fnode) : fnode :=
  let 'FNode _ lv ks cs := n in
  FNode (if lv =? 0 then FSM_LEAF_NODE else FSM_INDEX_NODE) lv ks cs.

Definition retype_child (parent : fnode) (i : nat) : fnode :=
  let 'FNode ty lv ks cs := parent in FNode ty lv ks (alter fix_root_type i cs).

(** [move_key] *)
Definition move_key (node : fnode) (index : nat) (pos : position_t) : option fnode :=
  let 'FNode ty lv ks cs := node in
  let index := match pos with RIGHT => (index - 1)%nat | LEFT => index end in
  match cs !! index, cs !! S index, ks !! index with
  | Some (FNode tl ll lks lcs), Some (FNode tr lr rks rcs), Some k =>
    match pos with
    | LEFT =>
      match rks with
      | [] => None
      | rk :: rks' =>
        if (max_keys <=? length lks)%nat then None else
        let lchild := FNode tl ll (lks ++ [k]) (lcs ++ take 1 rcs) in
        let rchild := FNode tr lr rks' (drop 1 rcs) in
        Some (FNode ty lv (<[index := rk]> ks)
                (<[S index := rchild]> (<[index := lchild]> cs)))
      end
    | RIGHT =>
      match last lks with
      | None => None
      | Some lk =>
        if (max_keys <=? length rks)%nat then None else
        let n := length lks in
        let rchild := FNode tr lr (k :: rks) (drop n lcs ++ rcs) in
        let lchild := FNode tl ll (take (n - 1) lks) (take n lcs) in
        Some (FNode ty lv (<[index := lk]> ks)
                (<[S index := rchild]> (<[index := lchild]> cs)))
      end
    end
  | _, _, _ => None
  end.

(** [merge_nodes] *)
Definition merge_nodes (n1 : fnode) (kv : fsm_btree_key) (n2 : fnode) (o : oracle)
    : option fnode * oracle :=
  let '(new_node, o) := allocate_btree_node o in
  match new_node with
  | None => (None, o)
  | Some _ =>
    let 'FNode t1 l1 ks1 cs1 := n1 in
    let 'FNode _ _ ks2 cs2 := n2 in
    (Some (FNode t1 l1 (ks1 ++ kv :: ks2) (cs1 ++ cs2)), o)
  end.

(** [remove_key_from_leaf]; [Some None] stands for the root becoming null.
    A node other than the root that loses its last key is freed while its
    parent points to it. *)
Definition remove_key_from_leaf (is_root : bool) (node : fnode) (pos : nat)
    : option (Z * option fnode) :=
  let 'FNode ty lv ks cs := node in
  if bool_decide (ty = FSM_INDEX_NODE) then Some (-1, Some node)
  else match ks with
  | [] => None
  | [_] => if is_root then Some (0, None) else None
  | _ => Some (0, Some (FNode ty lv (delete pos ks) cs))
  end.

(** The index of the first key not less than [key]. *)
Fixpoint key_index (key : fsm_btree_key) (ks : list fsm_btree_key) : nat :=
  match ks with
  | [] => O
  | k :: ks' => if fsm_btree_cmp_fn key k >? 0 then S (key_index key ks') else O
  end.

(** The siblings of the child [index] in the descent of [fsm_btree_delete]. *)
Definition siblings (parent : fnode) (index : nat) : option fnode * option fnode :=
  let 'FNode _ _ ks cs := parent in
  if (index =? length ks)%nat then (cs !! (length ks - 1)%nat, None)
  else if (index =? 0)%nat then (None, cs !! 1%nat)
  else (cs !! (index - 1)%nat, cs !! S index).

Definition has_more (s : option fnode) : bool :=
  match s with Some s => (order - 1 <? nr_active s)%nat | None => false end.
Definition has_least (s : option fnode) : bool :=
  match s with Some s => (nr_active s =? order - 1)%nat | None => false end.

(** The preparation of the child [index] before the descent: the error of an
    allocation or the index to descend to, and the parent. *)
Definition refill_child (parent : fnode) (index : nat) (o : oracle)
    : option ((Z + nat) * fnode * oracle) :=
  match children parent !! index with
  | None => None
  | Some node =>
    let '(lsibling, rsibling) := siblings parent index in
    if (nr_active node =? order - 1)%nat then
      if has_more rsibling then
        match move_key parent index LEFT with
        | None => None | Some p => Some (inr index, p, o) end
      else if has_more lsibling then
        match move_key parent index RIGHT with
        | None => None | Some p => Some (inr index, p, o) end
      else if has_least lsibling then merge_siblings parent index LEFT o
      else if has_least rsibling then merge_siblings parent index RIGHT o
      else Some (inr index, parent, o)
    else Some (inr index, parent, o)
  end.

(** [node = children[i]; goto del_loop]: the loop goes on with the child [i]
    of [parent].  A root left without keys is freed and its child takes its
    place. *)
Definition delete_child
    (del : bool -> fnode -> oracle -> option (Z * option fnode * oracle))
    (is_root : bool) (parent : fnode) (i : nat) (o : oracle)
    : option (Z * option fnode * oracle) :=
  let 'FNode ty lv ks cs := parent in
  match cs !! i with
  | None => None
  | Some c =>
    if is_root && (length ks =? 0)%nat then del true c o
    else match del false c o with
    | Some (ret, Some c', o) => Some (ret, Some (FNode ty lv ks (<[i:=c']> cs)), o)
    | _ => None
    end
  end.

(** [fsm_btree_delete], the label [del_loop]: the return code, the subtree
    that takes the place of [node], and the oracle. *)
Fixpoint del_loop (fuel : nat) (is_root : bool) (node : fnode) (key : fsm_btree_key)
    (o : oracle) : option (Z * option fnode * oracle) :=
  match fuel with
  | O => None
  | S fuel =>
    let descend :=
      delete_child (fun is_root c o => del_loop fuel is_root c key o) is_root in
    let 'FNode ty lv ks cs := node in
    if (length ks =? 0)%nat then Some (0, Some node, o)
    else
      let index := key_index key ks in
      let found := match ks !! index with
                   | Some k => fsm_btree_cmp_fn key k =? 0 | None => false end in
      if negb found then
        if bool_decide (ty = FSM_LEAF_NODE) then Some (0, Some node, o)
        else match refill_child node index o with
        | None => None
        | Some (inl err, node, o) => Some (err, Some node, o)
        | Some (inr i, node, o) =>
          descend (if is_root && (nr_active node =? 0)%nat
                   then retype_child node i else node) i o
        end
      else if bool_decide (ty = FSM_LEAF_NODE) then
        if (order - 1 <? length ks)%nat || is_root then
          match remove_key_from_leaf is_root node index with
          | None => None
          | Some (ret, n) => Some (ret, n, o)
          end
        else Some (0, Some node, o)
      else
        match ks !! index, cs !! index, cs !! S index with
        | Some to_remove_kv, Some l, Some r =>
          if (order - 1 <? nr_active l)%nat then
            match max_key (depth l) l with
            | None => None
            | Some km =>
              match set_max_key (depth l) l to_remove_kv with
              | None => None
              | Some l' =>
                descend (FNode ty lv (<[index:=km]> ks) (<[index:=l']> cs)) index o
              end
            end
          else if (order - 1 <? nr_active r)%nat then
            match min_key (depth r) r with
            | None => None
            | Some km =>
              match set_min_key (depth r) r to_remove_kv with
              | None => None
              | Some r' =>
                descend (FNode ty lv (<[index:=km]> ks) (<[S index:=r']> cs)) (S index) o
              end
            end
          else if (nr_active l =? order - 1)%nat && (nr_active r =? order - 1)%nat then
            match merge_nodes l to_remove_kv r o with
            | (None, o) => Some (- ENOMEM, Some node, o)
            | (Some comb_node, o) =>
              descend (FNode ty lv (delete index ks) (join_at index comb_node cs)) index o
            end
          else Some (0, Some node, o)
        | _, _, _ => None
        end
  end.

(** [fsm_btree_delete] *)
Definition fsm_btree_delete (root : froot) (key : fsm_btree_key) (o : oracle)
    : option (Z * froot * oracle) :=
  match root with
  | RootNull => Some (0, RootNull, o)
  | RootErr => Some (- ENOMEM, RootErr, o)
  | RootNode node =>
    match del_loop (depth node) true node key o with
    | None => None
    | Some (ret, Some n, o) => Some (ret, RootNode n, o)
    | Some (ret, None, o) => Some (ret, RootNull, o)
    end
  end.

(** ** [fsm_btree_free]

    The walk looks for an extent that ends where the freed one begins
    ([inl]) or begins where it ends ([inr]).  In every node it inspects all
    the keys and then goes on to the last child. *)
Fixpoint free_scan (off len : Z) (ks : list fsm_btree_key) (i : nat)
    : option (nat * (fsm_btree_key + fsm_btree_key)) :=
  match ks with
  | [] => None
  | k :: ks' =>
    if off =? u64 (block_offset k + key_length k) then Some (i, inl k)
    else if u64 (off + len) =? block_offset k then Some (i, inr k)
    else free_scan off len ks' (S i)
  end.

(** What remains to do after the walk: delete the extent that the left
    neighbour has absorbed, replace the right neighbour, or insert. *)
Inductive free_act :=
| FreeLeft (absorbed : option fsm_btree_key)
| FreeRight (k : fsm_btree_key)
| FreeNone.

Fixpoint free_walk (fuel : nat) (off len : Z) (node : fnode)
    : option (fnode * free_act) :=
  match fuel with
  | O => None
  | S fuel =>
    let 'FNode ty lv ks cs := node in
    match free_scan off len ks 0 with
    | Some (i, inl k) =>
      let k1 := FKey (block_offset k) (u64 (key_length k + len)) in
      match ks !! S i with
      | Some kn =>
        if block_offset kn =? u64 (block_offset k1 + key_length k1) then
          let k2 := FKey (block_offset k1) (u64 (key_length k1 + key_length kn)) in
          Some (FNode ty lv (<[i:=k2]> ks) cs, FreeLeft (Some kn))
        else Some (FNode ty lv (<[i:=k1]> ks) cs, FreeLeft None)
      | None => Some (FNode ty lv (<[i:=k1]> ks) cs, FreeLeft None)
      end
    | Some (_, inr k) => Some (node, FreeRight k)
    | None =>
      if bool_decide (ty = FSM_LEAF_NODE) then Some (node, FreeNone)
      else match cs !! length ks with
      | None => None
      | Some c =>
        match free_walk fuel off len c with
        | None => None
        | Some (c', act) => Some (FNode ty lv ks (<[length ks:=c']> cs), act)
        end
      end
    end
  end.

Definition fsm_btree_free (root : froot) (off len : Z) (o : oracle)
    : option (Z * froot * oracle) :=
  match root with
  | RootNull => fsm_btree_insert root (FKey off len) o
  | RootErr => None
  | RootNode node =>
    match free_walk (depth node) off len node with
    | None => None
    | Some (node, FreeLeft None) => Some (0, RootNode node, o)
    | Some (node, FreeLeft (Some kn)) => fsm_btree_delete (RootNode node) kn o
    | Some (node, FreeRight k) =>
      match fsm_btree_delete (RootNode node) k o with
      | None => None
      | Some (_, root, o) =>
        match fsm_btree_insert root (FKey off (u64 (len + key_length k))) o with
        | None => None
        | Some (_, root, o) => Some (0, root, o)
        end
      end
    | Some (node, FreeNone) =>
      match fsm_btree_insert (RootNode node) (FKey off len) o with
      | None => None
      | Some (_, root, o) => Some (0, root, o)
      end
    end
  end.

(** ** [fsm_btree_lookup] *)

(** The number of leading keys with an offset below [off]. *)
Fixpoint offset_index (off : Z) (ks : list fsm_btree_key) : nat :=
  match ks with
  | [] => O
  | k :: ks' => if off >? block_offset k then S (offset_index off ks') else O
  end.

(** The search for an extent at the requested place. *)
Fixpoint lookup_walk (fuel : nat) (off len : Z) (node : fnode)
    : option (option fsm_btree_key) :=
  match fuel with
  | O => None
  | S fuel =>
    let 'FNode ty _ ks cs := node in
    let i := offset_index off ks in
    let next (_ : unit) :=
      if bool_decide (ty = FSM_LEAF_NODE) then Some None
      else match cs !! i with
      | None => None | Some c => lookup_walk fuel off len c end in
    match ks !! i with
    | Some k =>
      if (off =? block_offset k) && (len <=? key_length k) then Some (Some k)
      else next tt
    | None => next tt
    end
  end.

(** The first extent of a node that is long enough. *)
Fixpoint first_fit (len : Z) (ks : list fsm_btree_key) : option fsm_btree_key :=
  match ks with
  | [] => None
  | k :: ks' =>
    if len =? key_length k then Some k
    else if len <? key_length k then Some k
    else first_fit len ks'
  end.

(** The search of the whole tree in level order; the queue is the list
    linked by the [next] fields. *)
Fixpoint lookup_level (fuel : nat) (len : Z) (queue : list fnode)
    : option (option fsm_btree_key) :=
  match fuel, queue with
  | _, [] => Some None
  | O, _ => None
  | S fuel, FNode ty _ ks cs :: queue =>
    match first_fit len ks with
    | Some k => Some (Some k)
    | None =>
      if bool_decide (ty = FSM_INDEX_NODE) then
        if (length cs =? length ks + 1)%nat then lookup_level fuel len (queue ++ cs)
        else None
      else lookup_level fuel len queue
    end
  end.

(** The remainder of an extent after its first [len] blocks are taken. *)
Definition take_front (k : fsm_btree_key) (len : Z) : fsm_btree_key :=
  FKey (u64 (block_offset k + len)) (u64 (key_length k - len)).

Definition fsm_btree_lookup (root : froot) (off len : Z) (o : oracle)
    : option (Z * froot * oracle) :=
  match root with
  | RootNull => Some (0, root, o)
  | RootErr => None
  | RootNode node =>
    match lookup_walk (depth node) off len node with
    | None => None
    | Some (Some k) =>
      match fsm_btree_delete root k o with
      | None => None
      | Some (ret, root, o) =>
        if negb (ret =? 0) then Some (0, root, o)
        else if len <? key_length k then
          match fsm_btree_insert root (take_front k len) o with
          | None => None
          | Some (ret, root, o) =>
            if negb (ret =? 0) then Some (0, root, o) else Some (off, root, o)
          end
        else Some (off, root, o)
      end
    | Some None =>
      match lookup_level (node_count node) len [node] with
      | None => None
      | Some None => Some (0, root, o)
      | Some (Some k) =>
        match fsm_btree_delete root k o with
        | None => None
        | Some (_, root, o) =>
          if len =? key_length k then Some (block_offset k, root, o)
          else match fsm_btree_insert root (take_front k len) o with
          | None => None
          | Some (_, root, o) => Some (block_offset k, root, o)
          end
        end
      end
    end
  end.

(** [fsm_btree_destroy]: the nodes in the order in which they are freed. *)
Fixpoint destroy_level (fuel : nat) (queue : list fnode) : option (list fnode) :=
  match fuel, queue with
  | _, [] => Some []
  | O, _ => None
  | S fuel, FNode ty lv ks cs :: queue =>
    let rest :=
      if bool_decide (ty = FSM_INDEX_NODE) then
        if (length cs =? length ks + 1)%nat then destroy_level fuel (queue ++ cs)
        else None
      else destroy_level fuel queue in
    match rest with
    | None => None
    | Some ns => Some (FNode ty lv ks cs :: ns)
    end
  end.

Definition fsm_btree_destroy (root : froot) : option (list fnode) :=
  match root with
  | RootNull => Some []
  | RootErr => None
  | RootNode node => destroy_level (node_count node) [node]
  end.
End operations.

(** ** Elements, order and well-formed trees *)

(** The keys in order. *)
Fixpoint interleave (es : list (list fsm_btree_key)) (ks : list fsm_btree_key)
    : list fsm_btree_key :=
  match es, ks with
  | [], _ => ks
  | e :: es', [] => e ++ interleave es' []
  | e :: es', k :: ks' => e ++ k :: interleave es' ks'
  end.

Fixpoint elems (n : fnode) : list fsm_btree_key :=
  let 'FNode _ _ ks cs := n in interleave (map elems cs) ks.

Definition root_elems (r : froot) : list fsm_btree_key :=
  match r with RootNode n => elems n | _ => [] end.

(** The order of [fsm_btree_cmp_fn]. *)
Definition klt (a b : fsm_btree_key) : Prop :=
  block_offset a < block_offset b \/
  block_offset a = block_offset b /\ key_length a < key_length b.

Section invariant.
Variable order : nat.

(** A subtree of height [h]: types and levels agree with the height, index
    nodes have one child more than keys, and every node below the root of
    the subtree has between [order - 1] and [2 * order - 1] keys. *)
Fixpoint wf (h : nat) (n : fnode) : Prop :=
  let 'FNode ty lv ks cs := n in
  lv = Z.of_nat h /\
  match h with
  | O => ty = FSM_LEAF_NODE /\ cs = []
  | S h' =>
    ty = FSM_INDEX_NODE /\ length cs = S (length ks) /\
    Forall (fun c => (order - 1 <= nr_active c <= max_keys order)%nat /\ wf h' c) cs
  end.

Definition wf_root (r : froot) : Prop :=
  match r with
  | RootNull => True
  | RootErr => False
  | RootNode n =>
    (exists h, wf h n) /\ (1 <= nr_active n <= max_keys order)%nat /\
    StronglySorted klt (elems n)
  end.
End invariant.
