(* ===== verification/FsmBtreeInv.v ===== *)
(** * The free-space B-tree: comparison, order, and the shape of nodes

    Facts shared by insertion and deletion: the comparison function decides the
    order [klt], the in-order keys of a node split at a child or at two
    neighbouring children, and well-formed trees. *)

From S2P Require Import Prelude FsmBtree.
Open Scope Z_scope.

(** ** The comparison function *)
Section comparison.
Implicit Types a b c : fsm_btree_key.

Lemma klt_irrefl a : ~ klt a a.
Proof. unfold klt. lia. Qed.

Lemma klt_trans a b c : klt a b -> klt b c -> klt a c.
Proof. unfold klt. lia. Qed.

Lemma cmp_cases a b :
  fsm_btree_cmp_fn a b = 0 /\ a = b \/
  fsm_btree_cmp_fn a b = 1 /\ klt b a \/
  fsm_btree_cmp_fn a b = -1 /\ klt a b.
Proof.
  destruct a as [oa la], b as [ob lb]. unfold fsm_btree_cmp_fn, klt; simpl.
  destruct (Z.ltb_spec oa ob); [right; right; split; [done|lia]|].
  rewrite Z.gtb_ltb. destruct (Z.ltb_spec ob oa); [right; left; split; [done|lia]|].
  destruct (Z.ltb_spec la lb); [right; right; split; [done|lia]|].
  rewrite Z.gtb_ltb. destruct (Z.ltb_spec lb la); [right; left; split; [done|lia]|].
  left. split; [done|]. f_equal; lia.
Qed.

Lemma cmp_refl a : fsm_btree_cmp_fn a a = 0.
Proof.
  destruct (cmp_cases a a) as [[? _]|[[_ H]|[_ H]]]; [done|..]; by apply klt_irrefl in H.
Qed.
End comparison.

#[export] Instance klt_strict : StrictOrder klt.
Proof. split; [intros a; apply klt_irrefl | intros a b c; apply klt_trans]. Qed.

(** Case analysis on a call of the comparison function. *)
Ltac cmp_case a b :=
  let E := fresh "E" in let L := fresh "L" in
  destruct (cmp_cases a b) as [[E L]|[[E L]|[E L]]]; rewrite ?E in *; clear E;
  cbn [Z.gtb Z.ltb Z.eqb Z.compare negb] in *;
  match type of L with ?x = ?y => first [subst x | subst y | idtac] | _ => idtac end.

(** ** Interleaving *)
Lemma interleave_app es1 es2 ks1 ks2 :
  length es1 = length ks1 ->
  interleave (es1 ++ es2) (ks1 ++ ks2) = interleave es1 ks1 ++ interleave es2 ks2.
Proof.
  revert ks1. induction es1 as [|e es1 IH]; intros [|k ks1]; simpl; try done.
  intros [= H]. rewrite IH by done. by rewrite <- app_assoc.
Qed.

Lemma interleave_mid es1 es2 ks1 k ks2 :
  length es1 = S (length ks1) ->
  interleave (es1 ++ es2) (ks1 ++ k :: ks2) = interleave es1 ks1 ++ k :: interleave es2 ks2.
Proof.
  revert ks1. induction es1 as [|e es1 IH]; intros [|k1 ks1] H; simpl in *; try lia.
  - destruct es1; simpl in *; [|lia]. by rewrite app_nil_r.
  - rewrite IH by lia. by rewrite <- app_assoc.
Qed.

(** What follows the first of a row of children. *)
Definition right_part (ks : list fsm_btree_key) (cs : list fnode) : list fsm_btree_key :=
  match ks with
  | [] => interleave (map elems cs) []
  | k :: ks' => k :: interleave (map elems cs) ks'
  end.

(** The keys before the child at the split. *)
Definition left_part (cs : list fnode) (ks : list fsm_btree_key) : list fsm_btree_key :=
  interleave (map elems cs) ks.

Lemma elems_child ty lv ks1 ks2 cs1 c cs2 :
  length cs1 = length ks1 ->
  elems (FNode ty lv (ks1 ++ ks2) (cs1 ++ c :: cs2)) =
  left_part cs1 ks1 ++ elems c ++ right_part ks2 cs2.
Proof.
  intros H. simpl. rewrite map_app, interleave_app by (by rewrite length_map).
  unfold left_part. f_equal. simpl. by destruct ks2.
Qed.

Lemma right_part_cons k ks c cs :
  right_part (k :: ks) (c :: cs) = k :: elems c ++ right_part ks cs.
Proof. simpl. f_equal. by destruct ks. Qed.

Lemma elems_two ty lv ks1 k ks2 cs1 l r cs2 :
  length cs1 = length ks1 ->
  elems (FNode ty lv (ks1 ++ k :: ks2) (cs1 ++ l :: r :: cs2)) =
  left_part cs1 ks1 ++ (elems l ++ k :: elems r) ++ right_part ks2 cs2.
Proof.
  intros H. rewrite elems_child by done. rewrite right_part_cons.
  by rewrite <- (app_assoc (elems l)).
Qed.

(** Two nodes of the same kind joined around a key. *)
Lemma elems_join t l ks1 k ks2 cs1 cs2 t1 l1 t2 l2 :
  (cs1 = [] /\ cs2 = []) \/ length cs1 = S (length ks1) ->
  elems (FNode t l (ks1 ++ k :: ks2) (cs1 ++ cs2)) =
  elems (FNode t1 l1 ks1 cs1) ++ k :: elems (FNode t2 l2 ks2 cs2).
Proof.
  simpl. intros [[-> ->]|H]; simpl; [done|].
  rewrite map_app. by apply interleave_mid; rewrite length_map.
Qed.

Lemma left_part_snoc cs ks c k :
  length cs = length ks ->
  left_part (cs ++ [c]) (ks ++ [k]) = left_part cs ks ++ elems c ++ [k].
Proof.
  intros H. unfold left_part. rewrite map_app, interleave_app by (by rewrite length_map).
  done.
Qed.

(** ** Well-formed trees *)
Section wf.
Variable order : nat.
Abbreviation wf := (wf order).
Abbreviation max_keys := (max_keys order).

(** A node below the root. *)
Definition wfc (h : nat) (c : fnode) : Prop :=
  (order - 1 <= nr_active c <= max_keys)%nat /\ wf h c.

Lemma wf_leaf ty lv ks cs :
  wf 0 (FNode ty lv ks cs) <-> lv = 0 /\ ty = FSM_LEAF_NODE /\ cs = [].
Proof. done. Qed.

Lemma wf_index h ty lv ks cs :
  wf (S h) (FNode ty lv ks cs) <->
  lv = Z.of_nat (S h) /\ ty = FSM_INDEX_NODE /\ length cs = S (length ks) /\
  Forall (wfc h) cs.
Proof. done. Qed.

Lemma wf_shape h ty lv ks cs :
  wf h (FNode ty lv ks cs) ->
  h = 0%nat /\ ty = FSM_LEAF_NODE /\ cs = [] \/
  (0 < h)%nat /\ ty = FSM_INDEX_NODE /\ length cs = S (length ks).
Proof.
  destruct h; [intros (_ & H2 & H3)%wf_leaf | intros (_ & H2 & H3 & _)%wf_index];
    [left|right]; repeat split; auto; lia.
Qed.

(** The parent around the child [i]. *)
Lemma wf_split_child h ty lv ks cs i :
  wf (S h) (FNode ty lv ks cs) -> (i <= length ks)%nat ->
  exists ks1 ks2 cs1 c cs2,
    ks = ks1 ++ ks2 /\ cs = cs1 ++ c :: cs2 /\
    length ks1 = i /\ length cs1 = i /\ length cs2 = length ks2.
Proof.
  intros (_ & _ & Hl & _)%wf_index Hi.
  destruct (list_split_at i ks) as (ks1 & ks2 & -> & H1); [done|].
  destruct (list_split_mid i cs) as (cs1 & c & cs2 & -> & H2); [len|].
  exists ks1, ks2, cs1, c, cs2. repeat split; try done. len.
Qed.

(** The parent around the children [i] and [i + 1]. *)
Lemma wf_split_two h ty lv ks cs i :
  wf (S h) (FNode ty lv ks cs) -> (i < length ks)%nat ->
  exists ks1 k ks2 cs1 l r cs2,
    ks = ks1 ++ k :: ks2 /\ cs = cs1 ++ l :: r :: cs2 /\
    length ks1 = i /\ length cs1 = i /\ length cs2 = length ks2.
Proof.
  intros Hwf Hi. destruct (wf_split_child h ty lv ks cs i Hwf)
    as (ks1 & ks2 & cs1 & l & cs2 & -> & -> & H1 & H2 & H3); [lia|].
  destruct ks2 as [|k ks2]; [len|]. destruct cs2 as [|r cs2]; [len|].
  exists ks1, k, ks2, cs1, l, r, cs2. repeat split; try done. len.
Qed.

Lemma wf_depth h n : wf h n -> (h < depth n)%nat.
Proof.
  revert n. induction h as [|h IH]; intros [ty lv ks cs] Hwf; [simpl; lia|].
  apply wf_index in Hwf as (_ & _ & Hl & Hc). destruct cs as [|c cs]; [simpl in Hl; lia|].
  inversion Hc as [|?? [_ H1] _]; subst. apply IH in H1. simpl. lia.
Qed.

Lemma wf_key_vals_nil h n : wf h n -> nr_active n = 0%nat -> h = 0%nat -> elems n = [].
Proof. destruct n as [ty lv [|] cs]; intros H ? ->; [|done]. by destruct H as (_ & _ & ->). Qed.
End wf.

(** ** Keys around the place of a search *)
Section search_place.
Implicit Types k : fsm_btree_key.

Lemma Forall_klt_trans_l k k' l : klt k k' -> Forall (fun x => klt x k) l ->
  Forall (fun x => klt x k') l.
Proof. intros H Hl. eapply Forall_impl; [exact Hl|]. simpl; intros x Hx. eapply klt_trans; eauto. Qed.

Lemma Forall_klt_trans_r k k' l : klt k' k -> Forall (klt k) l -> Forall (klt k') l.
Proof. intros H Hl. eapply Forall_impl; [exact Hl|]. simpl; intros x Hx. eapply klt_trans; eauto. Qed.

(** In a sorted tree everything left of a key is less than it. *)
Lemma left_part_lt cs1 ks1 rest k :
  StronglySorted klt (left_part cs1 ks1 ++ rest) ->
  length cs1 = length ks1 ->
  Forall (fun x => klt x k) ks1 ->
  Forall (fun x => klt x k) (left_part cs1 ks1).
Proof.
  intros Hs Hl Hk. destruct ks1 as [|k1 ks1 _] using rev_ind.
  { destruct cs1; [constructor|simpl in *; lia]. }
  destruct cs1 as [|c cs1 _] using rev_ind; [len|].
  rewrite left_part_snoc in * by len.
  apply Forall_app in Hk as [_ Hk]. inversion Hk as [|?? Hk1 _]; subst.
  apply SSorted_app in Hs as (Hs & _ & _).
  rewrite app_assoc in Hs |- *. apply SSorted_app in Hs as (_ & _ & Hs).
  apply Forall_app. split; [|by apply Forall_singleton].
  eapply Forall_impl; [exact Hs|]. simpl. intros x Hx.
  inversion Hx; subst. eapply klt_trans; eauto.
Qed.

Lemma right_part_gt ks2 cs2 k :
  StronglySorted klt (right_part ks2 cs2) ->
  length cs2 = length ks2 ->
  match ks2 with [] => True | k2 :: _ => klt k k2 end ->
  Forall (klt k) (right_part ks2 cs2).
Proof.
  destruct ks2 as [|k2 ks2]; intros Hs Hl Hk.
  { destruct cs2; [constructor|simpl in *; lia]. }
  simpl in *. apply SSorted_cons in Hs as [_ Hs].
  constructor; [done|]. by eapply Forall_klt_trans_r.
Qed.
End search_place.

(** The keys of a node are a sublist of the keys of its subtree. *)
Lemma interleave_sublist es ks : sublist ks (interleave es ks).
Proof.
  revert ks. induction es as [|e es IH]; intros [|k ks]; simpl; try done.
  - apply sublist_nil_l.
  - apply sublist_inserts_l. by apply sublist_skip.
Qed.

Lemma sublist_sorted (l l' : list fsm_btree_key) :
  sublist l l' -> StronglySorted klt l' -> StronglySorted klt l.
Proof.
  induction 1 as [|x l l' H IH|x l l' H IH]; intros Hs; [done|..];
    apply SSorted_cons in Hs as [Hs Hx]; auto.
  apply SSorted_cons. split; [auto|]. 
  rewrite Forall_forall in Hx |- *. intros y Hy. apply Hx. by eapply elem_of_sublist.
Qed.

Lemma keys_sorted ty lv ks cs :
  StronglySorted klt (elems (FNode ty lv ks cs)) -> StronglySorted klt ks.
Proof. apply sublist_sorted, interleave_sublist. Qed.

Lemma key_in_elems ty lv ks cs k : k ∈ ks -> k ∈ elems (FNode ty lv ks cs).
Proof. intros H. eapply elem_of_sublist; [done | apply interleave_sublist]. Qed.

Lemma sorted_NoDup l : StronglySorted klt l -> NoDup l.
Proof.
  induction l as [|k l IH]; intros Hs; [constructor|].
  apply SSorted_cons in Hs as [Hs Hk]. constructor; [|auto].
  rewrite Forall_forall in Hk. intros Hin. by apply Hk, klt_irrefl in Hin.
Qed.
