(* ===== verification/FsmBtreeInsert.v ===== *)
(** * The free-space B-tree: insertion

    [fsm_btree_insert] on a well-formed tree never leaves the defined
    behaviours except on the failed allocation of a new root, keeps the tree
    well formed, and inserts the key in order, reports a duplicate, or fails
    for lack of memory with the keys unchanged. *)

From S2P Require Import Prelude FsmBtree FsmBtreeInv.
Open Scope Z_scope.

(** ** Searches *)
Section search.
Implicit Types (key : fsm_btree_key) (ks : list fsm_btree_key).

Lemma sorted_lookup_lt ks i j x y :
  StronglySorted klt ks -> ks !! i = Some x -> ks !! j = Some y -> (i < j)%nat -> klt x y.
Proof.
  revert i j. induction ks as [|k ks IH]; intros i j Hs Hi Hj Hij; [done|].
  apply SSorted_cons in Hs as [Hs Hk]. destruct j as [|j]; [lia|]. simpl in Hj.
  destruct i as [|i]; simpl in Hi.
  - injection Hi as <-. rewrite Forall_forall in Hk. apply Hk.
    by eapply list_elem_of_lookup_2.
  - apply (IH i j); try done. lia.
Qed.

(** What the binary search of a leaf has found. *)
Definition place_ok key ks (p : nat) : Prop :=
  Forall (fun x => klt x key) (take p ks) /\ Forall (klt key) (drop p ks).

Lemma place_ok_intro key ks p :
  (forall j x, ks !! j = Some x -> (j < p)%nat -> klt x key) ->
  (forall j x, ks !! j = Some x -> (p <= j)%nat -> klt key x) ->
  place_ok key ks p.
Proof.
  intros H1 H2. split; apply Forall_lookup; intros j x Hj.
  - apply lookup_take_Some in Hj as [??]. eauto.
  - rewrite lookup_drop in Hj. eapply H2; [done|lia].
Qed.

Lemma leaf_search_spec fuel key ks imin imax :
  StronglySorted klt ks ->
  0 <= imin -> imin <= imax + 1 -> imax < Z.of_nat (length ks) ->
  imax - imin + 1 < Z.of_nat fuel ->
  (forall j x, ks !! j = Some x -> Z.of_nat j < imin -> klt x key) ->
  (forall j x, ks !! j = Some x -> imax < Z.of_nat j -> klt key x) ->
  leaf_search fuel key ks imin imax = Some (inl tt) /\ key ∈ ks \/
  exists p, leaf_search fuel key ks imin imax = Some (inr (Z.of_nat p - 1)) /\
    (p <= length ks)%nat /\ place_ok key ks p.
Proof.
  intros Hs. revert imin imax.
  induction fuel as [|fuel IH]; intros imin imax H0 H1 H2 H3 HL HR; [lia|].
  simpl. rewrite Z.geb_leb. destruct (Z.leb_spec imin imax) as [Hle|Hgt].
  - rewrite Z.quot_div_nonneg by lia.
    assert (imin <= (imin + imax) / 2 <= imax) as Hmid
      by (split; [apply Z.div_le_lower_bound | apply Z.div_le_upper_bound]; lia).
    set (imid := (imin + imax) / 2) in *.
    destruct (lookup_lt_is_Some_2 ks (Z.to_nat imid)) as [km Hkm]; [lia|].
    rewrite Hkm. cmp_case key km.
    + left. split; [done|]. by eapply list_elem_of_lookup_2.
    + apply IH; try lia.
      * intros j x Hj Hlt. destruct (decide (j = Z.to_nat imid)) as [->|];
          [congruence|]. apply (klt_trans _ km); [|done].
        apply (sorted_lookup_lt ks j (Z.to_nat imid)); try done. lia.
      * intros j x Hj Hlt. eapply HR; eauto.
    + apply IH; try lia.
      * intros j x Hj Hlt. eapply HL; eauto.
      * intros j x Hj Hlt. destruct (decide (j = Z.to_nat imid)) as [->|];
          [congruence|]. apply (klt_trans _ km); [done|].
        apply (sorted_lookup_lt ks (Z.to_nat imid) j); try done. lia.
  - right. exists (Z.to_nat (imax + 1)). split; [do 2 f_equal; lia|]. split; [lia|].
    apply place_ok_intro; intros j x Hj Hlt; [eapply HL|eapply HR]; eauto; lia.
Qed.

Lemma index_search_spec key ks n :
  StronglySorted klt ks -> (n <= length ks)%nat ->
  (forall j x, ks !! j = Some x -> (n <= j)%nat -> klt key x) ->
  index_search key ks n = Some (inl tt) /\ key ∈ ks \/
  exists p, index_search key ks n = Some (inr p) /\
    (p <= length ks)%nat /\ place_ok key ks p.
Proof.
  intros Hs. induction n as [|n IH]; intros Hn HR; simpl.
  - right. exists O. split; [done|]. split; [lia|].
    apply place_ok_intro; [lia|]. eauto.
  - destruct (lookup_lt_is_Some_2 ks n) as [kn Hkn]; [lia|]. rewrite Hkn.
    cmp_case key kn.
    + left. split; [done|]. by eapply list_elem_of_lookup_2.
    + right. exists (S n). split; [done|]. split; [done|].
      apply place_ok_intro; [|eauto]. intros j x Hj Hlt.
      destruct (decide (j = n)) as [->|]; [congruence|].
      apply (klt_trans _ kn); [|done].
      apply (sorted_lookup_lt ks j n); try done. lia.
    + apply IH; [lia|]. intros j x Hj Hlt.
      destruct (decide (j = n)) as [->|]; [congruence|]. apply (HR j x Hj). lia.
Qed.

Lemma dup_in_full_spec key ks : dup_in_full key ks = true -> key ∈ ks.
Proof.
  induction ks as [|k ks IH]; simpl; [done|].
  cmp_case key k; intros H; try done; set_solver.
Qed.

Lemma dup_in_full_complete key ks :
  StronglySorted klt ks -> key ∈ ks -> dup_in_full key ks = true.
Proof.
  induction ks as [|k ks IH]; intros Hs Hin; [by apply elem_of_nil in Hin|].
  apply SSorted_cons in Hs as [Hs Hk]. rewrite Forall_forall in Hk. simpl.
  cmp_case key k; [done|..]; apply elem_of_cons in Hin as [->|Hin];
    try (by apply klt_irrefl in L); [by apply IH|].
  apply Hk in Hin. exfalso. by apply (klt_irrefl k), (klt_trans _ key).
Qed.
End search.

(** ** Insertion into a sorted list *)
Definition inserted (k : fsm_btree_key) (l l' : list fsm_btree_key) : Prop :=
  exists l1 l2, l = l1 ++ l2 /\ l' = l1 ++ k :: l2 /\
    Forall (fun x => klt x k) l1 /\ Forall (klt k) l2.

Lemma inserted_context k l l' a b :
  Forall (fun x => klt x k) a -> Forall (klt k) b ->
  inserted k l l' -> inserted k (a ++ l ++ b) (a ++ l' ++ b).
Proof.
  intros Ha Hb (l1 & l2 & -> & -> & H1 & H2). exists (a ++ l1), (l2 ++ b).
  rewrite <- !app_assoc. split_and!; [done..| |]; by apply Forall_app.
Qed.

Lemma inserted_perm k l l' : inserted k l l' -> l' ≡ₚ k :: l.
Proof. intros (l1 & l2 & -> & -> & _). by rewrite Permutation_middle. Qed.

Lemma inserted_sorted k l l' :
  inserted k l l' -> StronglySorted klt l -> StronglySorted klt l'.
Proof.
  intros (l1 & l2 & -> & -> & H1 & H2) (Hs1 & Hs2 & H12)%SSorted_app.
  apply SSorted_app. split_and!; [done|by apply SSorted_cons|].
  rewrite Forall_forall in H12, H1 |- *. intros x Hx. constructor; auto.
Qed.

Lemma inserted_fresh k l l' : inserted k l l' -> k ∉ l.
Proof.
  intros (l1 & l2 & -> & _ & H1 & H2). rewrite Forall_forall in H1, H2.
  intros [Hin|Hin]%elem_of_app; [apply H1 in Hin|apply H2 in Hin];
    by apply klt_irrefl in Hin.
Qed.

Section insert.
Variable order : nat.
Hypothesis order_ge : (2 <= order)%nat.
Abbreviation wf := (wf order).
Abbreviation wfc := (wfc order).
Abbreviation max_keys := (max_keys order).

(** A full node is two least nodes around its middle key. *)
Lemma full_node_halves h ct cl cks ccs :
  wf h (FNode ct cl cks ccs) -> length cks = max_keys ->
  exists ka mid kb ca cb,
    cks = ka ++ mid :: kb /\ ccs = ca ++ cb /\
    length ka = (order - 1)%nat /\ length kb = (order - 1)%nat /\
    (ct = FSM_LEAF_NODE /\ ca = [] /\ cb = [] \/
     ct = FSM_INDEX_NODE /\ length ca = order /\ length cb = order) /\
    wf h (FNode ct cl ka ca) /\ wf h (FNode ct cl kb cb).
Proof.
  unfold FsmBtree.max_keys. intros Hwf Hl.
  destruct (list_split_mid (order - 1) cks) as (ka & mid & kb & -> & Hka); [len|].
  destruct h as [|h].
  - apply wf_leaf in Hwf as (-> & -> & ->).
    exists ka, mid, kb, [], []. split_and!; try done; [len|by left].
  - apply wf_index in Hwf as (-> & -> & Hlc & Hc).
    destruct (list_split_at order ccs) as (ca & cb & -> & Hca); [len|].
    apply Forall_app in Hc as [??].
    exists ka, mid, kb, ca, cb. split_and!; try done; [len|right; split_and!; try done; len|..];
      apply wf_index; split_and!; try done; len.
Qed.

Lemma split_child_spec h ty lv ks1 ks2 cs1 c cs2 o :
  wf h c -> nr_active c = max_keys ->
  length cs1 = length ks1 -> (length (ks1 ++ ks2) < max_keys)%nat ->
  let node := FNode ty lv (ks1 ++ ks2) (cs1 ++ c :: cs2) in
  let '(ok, o') := alloc o in
  if ok then
    exists mid c1 c2,
      btree_split_child order node (length ks1) o =
        Some (0, FNode ty lv (ks1 ++ mid :: ks2) (cs1 ++ c1 :: c2 :: cs2), o') /\
      elems c = elems c1 ++ mid :: elems c2 /\ mid ∈ key_vals c /\
      wf h c1 /\ wf h c2 /\ nr_active c1 = (order - 1)%nat /\
      nr_active c2 = (order - 1)%nat
  else btree_split_child order node (length ks1) o = Some (- ENOMEM, node, o').
Proof.
  destruct c as [ct cl cks ccs]. unfold nr_active; simpl key_vals.
  intros Hwf Hn Hl Hlt. simpl. mid. unfold allocate_btree_node.
  destruct (alloc o) as [[] o']; [|done].
  destruct (full_node_halves h ct cl cks ccs Hwf Hn)
    as (ka & mid & kb & ca & cb & -> & -> & Hka & Hkb & Hcc & H1 & H2).
  exists mid, (FNode ct cl ka ca), (FNode ct cl kb cb).
  rewrite Hn, Nat.ltb_irrefl. rewrite (proj2 (Nat.leb_gt _ _) Hlt). simpl.
  mid. split_and!; try done.
  - repeat f_equal.
    + destruct Hcc as [(-> & -> & ->)|(-> & ? & ?)]; [done|].
      rewrite bool_decide_eq_false_2 by done. by mid.
    + replace (drop order (ka ++ mid :: kb)) with kb
        by (replace order with (S (order - 1)) by lia; by mid).
      rewrite take_ge; [done|lia].
    + destruct Hcc as [(-> & -> & ->)|(-> & ? & ?)]; [done|].
      rewrite bool_decide_eq_false_2 by done. mid. apply take_ge. lia.
  - apply (elems_join ct cl ka mid kb ca cb ct cl ct cl). destruct Hcc as [(-> & -> & ->)|(-> & ? & ?)]; [by left|right; lia].
  - simpl. set_solver.
Qed.

(** What an insertion promises: the keys, the shape, and the oracle. *)
Definition insert_post (key : fsm_btree_key) (o o' : oracle)
    (l l' : list fsm_btree_key) (err : Z) : Prop :=
  (plenty o -> plenty o') /\
  (err = 0 /\ inserted key l l' \/
   err = - EEXIST /\ key ∈ l /\ l' = l \/
   err = - ENOMEM /\ ~ plenty o /\ l' = l).

Lemma insert_post_context key o o' l l' err a b :
  Forall (fun x => klt x key) a -> Forall (klt key) b ->
  insert_post key o o' l l' err ->
  insert_post key o o' (a ++ l ++ b) (a ++ l' ++ b) err.
Proof.
  intros Ha Hb [Hp [[-> H]|[(-> & H & ->)|(-> & H & ->)]]]; (split; [done|]).
  - left. split; [done|]. by apply inserted_context.
  - right; left. split_and!; try done. set_solver.
  - right; right. done.
Qed.

Lemma place_split key ks1 ks2 : place_ok key (ks1 ++ ks2) (length ks1) ->
  Forall (fun x => klt x key) ks1 /\ Forall (klt key) ks2.
Proof. unfold place_ok. by mid. Qed.

(** The keys around a child reached by the search lie on the right sides. *)
Lemma around_child ty lv ks1 ks2 cs1 c cs2 key :
  StronglySorted klt (elems (FNode ty lv (ks1 ++ ks2) (cs1 ++ c :: cs2))) ->
  length cs1 = length ks1 -> length cs2 = length ks2 ->
  Forall (fun x => klt x key) ks1 ->
  match ks2 with [] => True | k2 :: _ => klt key k2 end ->
  Forall (fun x => klt x key) (left_part cs1 ks1) /\
  Forall (klt key) (right_part ks2 cs2) /\ StronglySorted klt (elems c).
Proof.
  intros Hs H1 H2 Hl Hr. rewrite elems_child in Hs by done. split_and!.
  - eapply left_part_lt; eauto.
  - apply SSorted_app in Hs as (_ & Hs & _). apply SSorted_app in Hs as (_ & Hs & _).
    by apply right_part_gt.
  - apply SSorted_app in Hs as (_ & Hs & _). by apply SSorted_app in Hs as (Hs & _).
Qed.

Lemma insert_in_child h ty lv ks1 ks2 cs1 c c' cs2 key o o' err :
  let node x := FNode ty lv (ks1 ++ ks2) (cs1 ++ x :: cs2) in
  wf (S h) (node c) -> StronglySorted klt (elems (node c)) ->
  length cs1 = length ks1 -> length cs2 = length ks2 ->
  Forall (fun x => klt x key) ks1 ->
  match ks2 with [] => True | k2 :: _ => klt key k2 end ->
  wfc h c' -> insert_post key o o' (elems c) (elems c') err ->
  wf (S h) (node c') /\
  insert_post key o o' (elems (node c)) (elems (node c')) err.
Proof.
  intros node Hwf Hs H1 H2 Hl Hr Hc' Hp.
  destruct (around_child ty lv ks1 ks2 cs1 c cs2 key) as (Ha & Hb & _); try done.
  split.
  - apply wf_index in Hwf as (? & ? & ? & Hc). apply Forall_app in Hc as [Hc1 Hc2].
    inversion Hc2; subst. apply wf_index. split_and!; try done; [len|].
    apply Forall_app. split; [done|]. by constructor.
  - unfold node. rewrite !elems_child by done. by apply insert_post_context.
Qed.

Lemma insert_child_eq f ty lv ks cs1 c cs2 i o err c' o' :
  i = length cs1 -> f c o = Some (err, c', o') ->
  insert_child f (FNode ty lv ks (cs1 ++ c :: cs2)) i o =
    Some (err, FNode ty lv ks (cs1 ++ c' :: cs2), o').
Proof. intros Hi Hf. simpl. mid. rewrite Hf. by mid. Qed.

Lemma head_klt key (ks2 : list fsm_btree_key) : Forall (klt key) ks2 ->
  match ks2 with [] => True | k2 :: _ => klt key k2 end.
Proof. intros [|???]; done. Qed.

Lemma cons_app_mid {A} (l1 : list A) x l2 : l1 ++ x :: l2 = (l1 ++ [x]) ++ l2.
Proof. by rewrite <- app_assoc. Qed.

(** The middle key of a full child is one of those compared before it is
    split. *)
Lemma full_dup h c mid :
  wf h c -> StronglySorted klt (elems c) -> mid ∈ key_vals c ->
  dup_in_full mid (key_vals c) = true.
Proof.
  destruct c as [ty lv ks cs]. intros _ Hs Hin. apply dup_in_full_complete; [|done].
  by eapply keys_sorted.
Qed.

(** The full child is split and the insertion goes on in one half. *)
Lemma insert_split (ins : fnode -> oracle -> option (Z * fnode * oracle))
    h lv ks1 ks2 cs1 c cs2 key o :
  let node := FNode FSM_INDEX_NODE lv (ks1 ++ ks2) (cs1 ++ c :: cs2) in
  wf (S h) node -> (length (ks1 ++ ks2) < max_keys)%nat ->
  StronglySorted klt (elems node) ->
  length cs1 = length ks1 -> length cs2 = length ks2 ->
  Forall (fun x => klt x key) ks1 -> Forall (klt key) ks2 ->
  nr_active c = max_keys -> dup_in_full key (key_vals c) = false ->
  (forall c o, wf h c -> (nr_active c < max_keys)%nat -> StronglySorted klt (elems c) ->
    exists err c' o', ins c o = Some (err, c', o') /\ wf h c' /\
      (nr_active c <= nr_active c' <= S (nr_active c))%nat /\
      insert_post key o o' (elems c) (elems c') err) ->
  exists err n' o',
    match btree_split_child order node (length ks1) o with
    | None => None
    | Some (err, node, o) =>
      if negb (err =? 0) then Some (err, node, o)
      else match key_vals node !! length ks1 with
      | None => None
      | Some ki =>
        insert_child ins node
          (if fsm_btree_cmp_fn key ki >? 0 then S (length ks1) else length ks1) o
      end
    end = Some (err, n', o') /\ wf (S h) n' /\
    (nr_active node <= nr_active n' <= S (nr_active node))%nat /\
    insert_post key o o' (elems node) (elems n') err.
Proof.
  intros node Hwf Hn Hs H1 H2 Hpl Hpr Hfull Hdup IH.
  pose proof Hwf as (? & ? & Hlc & Hc)%wf_index.
  apply Forall_app in Hc as [Hc1 [[Hcn Hcw] Hc2]%Forall_cons].
  pose proof (split_child_spec h FSM_INDEX_NODE lv ks1 ks2 cs1 c cs2 o
                Hcw Hfull H1 Hn) as Hsplit. cbv zeta in Hsplit. fold node in Hsplit.
  pose proof (plenty_alloc o) as Hplenty.
  destruct (alloc o) as [[] o1]; [|].
  2:{ rewrite Hsplit. simpl. eexists _, _, _. split; [done|]. split; [done|].
      split; [lia|]. split; [intros (? & [=] & _)%Hplenty|].
      right; right. split_and!; try done. by intros (? & [=] & _)%Hplenty. }
  destruct Hsplit as (mid & c1 & c2 & -> & He & Hmid & Hw1 & Hw2 & Hn1 & Hn2).
  cbn [negb Z.eqb key_vals]. rewrite mid_lookup by done.
  set (P := FNode FSM_INDEX_NODE lv (ks1 ++ mid :: ks2) (cs1 ++ c1 :: c2 :: cs2)).
  assert (elems P = elems node) as HeP
    by (unfold P, node; rewrite elems_two, elems_child, He by done; done).
  assert (max_keys = 2 * order - 1)%nat as Hmax by done.
  assert (wf (S h) P) as HwP.
  { apply wf_index. split_and!; try done; [len|].
    apply Forall_app. split; [done|]. repeat constructor; try done; lia. }
  destruct (around_child _ _ _ _ _ _ _ key Hs H1 H2 Hpl (head_klt _ _ Hpr))
    as (_ & _ & Hsc).
  pose proof Hsc as Hsc'. rewrite He in Hsc'. apply SSorted_app in Hsc' as (Hs1 & [Hs2 _]%SSorted_cons & _).
  rewrite <- HeP in *.
  assert (plenty o -> plenty o1) as Ho1 by (by intros (? & [= ->] & ?)%Hplenty).
  assert (forall o' l err, insert_post key o1 o' (elems P) l err ->
          insert_post key o o' (elems P) l err) as Hweak.
  { intros o' l err [Ho Hp]. split; [by auto|]. naive_solver. }
  unfold nr_active; simpl key_vals.
  assert (wfc h c1 /\ wfc h c2) as [? ?] by (split; (split; [lia|done])).
  cmp_case key mid.
  - exfalso. by rewrite (full_dup h c _ Hcw Hsc Hmid) in Hdup.
  - destruct (IH c2 o1) as (err & c' & o' & Hi & Hw & Hn' & Hp'); [done|lia|done|].
    eexists _, _, _. split.
    { unfold P. rewrite (cons_app_mid ks1), (cons_app_mid cs1).
      apply insert_child_eq; [len|exact Hi]. }
    destruct (insert_in_child h FSM_INDEX_NODE lv (ks1 ++ [mid]) ks2 (cs1 ++ [c1]) c2 c' cs2
      key o1 o' err) as [Hw' Hp'']; try (by rewrite <- !cons_app_mid); try done; [len|..].
    { apply Forall_app. by rewrite Forall_singleton. }
    { by apply head_klt. }
    { split; [lia|done]. }
    rewrite <- (cons_app_mid cs1 c1 (c2 :: cs2)), <- (cons_app_mid ks1) in Hp''.
    rewrite <- (cons_app_mid ks1) in Hw' |- *.
    split; [exact Hw'|]. split; [subst node; unfold nr_active; len|]. apply Hweak. exact Hp''.
  - destruct (IH c1 o1) as (err & c' & o' & Hi & Hw & Hn' & Hp'); [done|lia|done|].
    eexists _, _, _. split; [by apply insert_child_eq|].
    destruct (insert_in_child h FSM_INDEX_NODE lv ks1 (mid :: ks2) cs1 c1 c' (c2 :: cs2)
      key o1 o' err) as [Hw' Hp'']; try done; [len|split; [lia|done]|].
    split; [exact Hw'|]. split; [subst node; unfold nr_active; len|]. apply Hweak. exact Hp''.
Qed.

Lemma insert_nonfull_spec fuel : forall h n key o,
  wf h n -> (nr_active n < max_keys)%nat -> (h < fuel)%nat ->
  StronglySorted klt (elems n) ->
  exists err n' o',
    btree_insert_nonfull order fuel n key o = Some (err, n', o') /\
    wf h n' /\ (nr_active n <= nr_active n' <= S (nr_active n))%nat /\
    insert_post key o o' (elems n) (elems n') err.
Proof.
  induction fuel as [|fuel IH]; intros h n key o Hwf Hn Hf Hs; [lia|].
  destruct n as [ty lv ks cs]. unfold nr_active in Hn; simpl in Hn.
  destruct (wf_shape _ _ _ _ _ _ Hwf) as [(-> & -> & ->)|(Hh & -> & _)].
  - (* a leaf *)
    cbn [btree_insert_nonfull]. rewrite bool_decide_eq_true_2 by done.
    destruct (leaf_search_spec (S (length ks)) key ks 0 (Z.of_nat (length ks) - 1))
      as [[-> Hin]|(p & -> & Hp & Hpl)]; try lia; [done| | |].
    { intros j x Hj%lookup_lt_Some. lia. }
    + exists (- EEXIST), (FNode FSM_LEAF_NODE lv ks []), o. split_and!; try done; [lia..|].
      split; [done|]. right; left. split_and!; done.
    + rewrite (proj2 (Nat.leb_gt _ _) Hn).
      replace (Z.to_nat (Z.of_nat p - 1 + 1)) with p by lia.
      eexists _, _, _. split; [done|]. split; [done|].
      split. { unfold nr_active; simpl. len. }
      split; [done|]. left. split; [done|]. exists (take p ks), (drop p ks).
      destruct Hpl. simpl. by rewrite take_drop.
  - (* an index node *)
    destruct h as [|h]; [lia|].
    cbn [btree_insert_nonfull]. rewrite bool_decide_eq_false_2 by done.
    destruct (index_search_spec key ks (length ks)) as [[-> Hin]|(p & -> & Hp & Hpl)].
    { by eapply keys_sorted. }
    { done. }
    { intros j x Hj%lookup_lt_Some. lia. }
    { exists (- EEXIST), (FNode FSM_INDEX_NODE lv ks cs), o.
      split_and!; try done; [unfold nr_active; simpl; lia..|].
      split; [done|]. right; left. split_and!; try done. by apply key_in_elems. }
    destruct (wf_split_child _ _ _ _ _ _ _ Hwf Hp)
      as (ks1 & ks2 & cs1 & c & cs2 & -> & -> & <- & H1 & H2).
    apply place_split in Hpl as [Hpl Hpr].
    pose proof Hwf as (_ & _ & _ & Hc)%wf_index.
    apply Forall_app in Hc as [Hc1 [[Hcn Hcw] Hc2]%Forall_cons].
    rewrite mid_lookup by done.
    destruct (Nat.eqb_spec (nr_active c) max_keys) as [Hfull|Hnf].
    + destruct (dup_in_full key (key_vals c)) eqn:Hdup.
      { apply dup_in_full_spec in Hdup.
        eexists _, _, _. split; [done|]. split; [done|]. split; [lia|].
        split; [done|]. right; left. split_and!; try done.
        rewrite elems_child by done. destruct c as [? ? kc cc]. simpl in Hdup.
        apply (key_in_elems type level kc cc) in Hdup. set_solver. }
      apply insert_split; try done.
      intros c1 o1 Hw Hn' Hs'. apply IH; try done. lia.
    + assert (nr_active c < max_keys)%nat as Hnc by lia.
      destruct (around_child _ _ _ _ _ _ _ key Hs H1 H2 Hpl (head_klt _ _ Hpr))
        as (_ & _ & Hsc).
      destruct (IH h c key o Hcw Hnc ltac:(lia) Hsc) as (err & c' & o' & He & Hw & Hn' & Hp').
      exists err, (FNode FSM_INDEX_NODE lv (ks1 ++ ks2) (cs1 ++ c' :: cs2)), o'.
      split; [by apply insert_child_eq|].
      destruct (insert_in_child h FSM_INDEX_NODE lv ks1 ks2 cs1 c c' cs2 key o o' err)
        as [??]; try done; [by apply head_klt|split; [lia|done]|].
      split_and!; try done; unfold nr_active; simpl; lia.
Qed.

(** A new root above a full one, split at once. *)
Lemma split_root h n o : wf h n -> nr_active n = max_keys -> StronglySorted klt (elems n) ->
  let root := FNode FSM_INDEX_NODE (nlevel n + 1) [] [n] in
  let '(ok, o') := alloc o in
  if ok then exists P, btree_split_child order root 0 o = Some (0, P, o') /\ wf (S h) P /\ nr_active P = 1%nat /\ elems P = elems n
  else btree_split_child order root 0 o = Some (- ENOMEM, root, o').
Proof.
  intros Hwf Hn Hs. assert (max_keys = 2 * order - 1)%nat as Hmax by done.
  pose proof (split_child_spec h FSM_INDEX_NODE (nlevel n + 1) [] [] [] n [] o
                Hwf Hn eq_refl) as H. cbv zeta in *. cbn [app length] in H.
  destruct (alloc o) as [[] o']; [|apply H; simpl; lia].
  destruct H as (mid & c1 & c2 & -> & He & ? & Hw1 & Hw2 & Hn1 & Hn2); [simpl; lia|].
  eexists. split; [done|]. split; [|split].
  - apply wf_index. split_and!; try done.
    + destruct n as [ty lv ks cs]. destruct h; destruct Hwf as [-> _]; simpl; lia.
    + repeat constructor; try done; lia.
  - done.
  - simpl. by rewrite app_nil_r, He.
Qed.

(** The insertion below a root that is not full. *)
Lemma insert_below h n key o : wf h n -> (1 <= nr_active n < max_keys)%nat -> StronglySorted klt (elems n) ->
  exists err n' o', btree_insert_nonfull order (depth n) n key o = Some (err, n', o') /\
    insert_post key o o' (elems n) (elems n') err /\ wf_root order (RootNode n').
Proof.
  intros Hwf Hn Hs. destruct (insert_nonfull_spec (depth n) h n key o) as (err & n' & o' & E & Hw & Hn' & Hp);
    [done|lia|by eapply wf_depth|done|].
  exists err, n', o'. split; [done|]. split; [done|]. split; [eauto|]. split; [lia|]. destruct Hp as [_ Hp].
  destruct Hp as [(-> & Hk)|[(-> & _ & ->)|(-> & _ & ->)]]; [|done|done]. by eapply inserted_sorted.
Qed.

(** The first key. *)
Lemma insert_first key o :
  btree_insert_nonfull order (depth (FNode FSM_LEAF_NODE 0 [] [])) (FNode FSM_LEAF_NODE 0 [] []) key o =
    Some (0, FNode FSM_LEAF_NODE 0 [key] [], o).
Proof.
  cbn -[FsmBtree.max_keys Nat.leb]. rewrite (proj2 (Nat.leb_gt _ _)) by (unfold FsmBtree.max_keys; lia). done.
Qed.

(** Every answer of the allocator.  A root is lost when the allocation of the
    first node fails; one without keys is left behind when the second one of a
    new root fails; the source uses the error pointer when the first one of a
    new root fails. *)
Definition insert_result (r : froot) (key : fsm_btree_key) (o : oracle)
    (res : option (Z * froot * oracle)) : Prop :=
  match res with
  | Some (err, r', o') => (plenty o -> plenty o') /\
    (err = 0 /\ inserted key (root_elems r) (root_elems r') /\ wf_root order r' \/
     err = - EEXIST /\ key ∈ root_elems r /\ root_elems r' = root_elems r /\ wf_root order r' \/
     err = - ENOMEM /\ ~ plenty o /\ root_elems r' = root_elems r /\
       (wf_root order r' \/ r = RootNull /\ r' = RootErr \/
        exists n, r = RootNode n /\ nr_active n = max_keys /\ r' = RootNode (FNode FSM_INDEX_NODE (nlevel n + 1) [] [n])))
  | None => fst (alloc o) = false /\ exists n, r = RootNode n /\ nr_active n = max_keys
  end.

Lemma fsm_btree_insert_all r key o : wf_root order r -> insert_result r key o (fsm_btree_insert order r key o).
Proof.
  assert (max_keys = 2 * order - 1)%nat as Hmax by done.
  intros Hr. unfold fsm_btree_insert, allocate_btree_node. pose proof (plenty_alloc o) as Hplenty.
  destruct r as [| |n]; [|done|].
  - destruct (alloc o) as [[] o1].
    2: { split; [intros (? & [=] & _)%Hplenty|]. right; right. split; [done|]. split; [by intros (? & [=] & _)%Hplenty|]. auto. }
    assert (plenty o -> plenty o1) as Ho1 by (by intros (? & [= <-] & ?)%Hplenty).
    change (nr_active (FNode FSM_LEAF_NODE 0 [] [])) with O. rewrite (proj2 (Nat.eqb_neq 0 max_keys)) by lia.
    rewrite insert_first. split; [done|]. left. split; [done|]. split; [by exists [], []|].
    split; [by exists 0%nat|]. split; [unfold nr_active; simpl; lia|]. repeat constructor.
  - destruct Hr as ((h & Hwf) & Hn & Hs). destruct (Nat.eqb_spec (nr_active n) max_keys) as [Hfull|Hnf].
    + destruct (alloc o) as [[] o1] eqn:E1; [|split; [by rewrite E1|by exists n]].
      assert (plenty o -> plenty o1) as Ho1 by (by intros (? & [= <-] & ?)%Hplenty).
      pose proof (split_root h n o1 Hwf Hfull Hs) as Hsplit. pose proof (plenty_alloc o1) as Hplenty1.
      destruct (alloc o1) as [[] o2].
      * destruct Hsplit as (P & -> & HwP & HnP & HeP). cbn [negb Z.eqb].
        assert (plenty o -> plenty o2) as Ho2 by (intros H; by destruct (Hplenty1 (Ho1 H)) as (? & [= <-] & ?)).
        destruct (insert_below (S h) P key o2) as (err & n' & o' & -> & (Hp & Hk) & Hw); [done|lia|by rewrite HeP|].
        rewrite HeP in Hk. split; [auto|].
        destruct Hk as [(-> & Hk)|[(-> & Hk & He)|(-> & Hk & He)]]; [by left|right; left|right; right]; split_and!; auto.
      * rewrite Hsplit. cbn [negb Z.eqb]. assert (~ plenty o) as Hno by (intros H; by destruct (Hplenty1 (Ho1 H)) as (? & [=] & _)).
        split; [done|]. right; right. split_and!; [done|done|simpl; by rewrite app_nil_r|]. right; right. by exists n.
    + destruct (insert_below h n key o) as (err & n' & o' & -> & (Hp & Hk) & Hw); [done|lia|done|].
      split; [done|].
      destruct Hk as [(-> & Hk)|[(-> & Hk & He)|(-> & Hk & He)]]; [by left|right; left|right; right]; split_and!; auto.
Qed.

Lemma fsm_btree_insert_plenty r key o :
  wf_root order r -> plenty o ->
  exists err r' o',
    fsm_btree_insert order r key o = Some (err, r', o') /\ plenty o' /\ wf_root order r' /\
    (err = 0 /\ inserted key (root_elems r) (root_elems r') \/
     err = - EEXIST /\ key ∈ root_elems r /\ root_elems r' = root_elems r).
Proof.
  intros Hr Ho. pose proof (fsm_btree_insert_all r key o Hr) as H.
  destruct (fsm_btree_insert order r key o) as [[[err r'] o']|].
  - destruct H as [Hp H]. exists err, r', o'. split; [done|]. split; [auto|].
    destruct H as [(-> & H1 & H2)|[(-> & H1 & H2 & H3)|(_ & H1 & _)]]; [..|done]; (split; [done|]); [by left|by right].
  - destruct H as [H _]. destruct (plenty_alloc o Ho) as (? & E & _). by rewrite E in H.
Qed.
End insert.
