(* ===== verification/FsmBtreeDelete.v ===== *)
(** * The free-space B-tree: deletion

    [fsm_btree_delete] on a well-formed tree stays defined, keeps the tree well
    formed and removes exactly the key it is given; when an allocation fails on
    the way it returns [-ENOMEM] and no key is lost. *)

From S2P Require Import Prelude FsmBtree FsmBtreeInv.
Open Scope Z_scope.

#[local] Opaque FsmBtree.wf.

(** ** Removal from a list of keys *)
Definition without (k : fsm_btree_key) (l : list fsm_btree_key) : list fsm_btree_key :=
  filter (fun x => x <> k) l.

Section without.
Implicit Types (k : fsm_btree_key) (l : list fsm_btree_key).

Lemma without_app k l1 l2 : without k (l1 ++ l2) = without k l1 ++ without k l2.
Proof. apply filter_app. Qed.

Lemma without_notin k l : k ∉ l -> without k l = l.
Proof.
  induction l as [|x l IH]; intros H; [done|]. apply not_elem_of_cons in H as [??].
  unfold without. rewrite filter_cons_True by done. f_equal. by apply IH.
Qed.

Lemma without_cons_eq k l : without k (k :: l) = without k l.
Proof. unfold without. by rewrite filter_cons_False by (intros ?; done). Qed.

Lemma without_cons_ne k x l : x <> k -> without k (x :: l) = x :: without k l.
Proof. intros. unfold without. by rewrite filter_cons_True. Qed.

#[export] Instance without_proper k : Proper (Permutation ==> Permutation) (without k).
Proof. intros l l' E. unfold without. by rewrite E. Qed.

Lemma without_mid k l1 l2 : k ∉ l1 -> k ∉ l2 -> without k (l1 ++ k :: l2) = l1 ++ l2.
Proof. intros. by rewrite without_app, without_cons_eq, !without_notin. Qed.

Lemma without_in k x l : x ∈ without k l <-> x ∈ l /\ x <> k.
Proof. unfold without. rewrite list_elem_of_filter. naive_solver. Qed.

Lemma without_sorted k l : StronglySorted klt l -> StronglySorted klt (without k l).
Proof. apply sublist_sorted. unfold without. apply sublist_filter. Qed.

Lemma Forall_lt_notin k l : Forall (fun x => klt x k) l -> k ∉ l.
Proof. rewrite Forall_forall. intros H Hin%H. by apply klt_irrefl in Hin. Qed.

Lemma Forall_gt_notin k l : Forall (klt k) l -> k ∉ l.
Proof. rewrite Forall_forall. intros H Hin%H. by apply klt_irrefl in Hin. Qed.

(** A sorted list around one of its elements. *)
Lemma sorted_mid k l1 l2 : StronglySorted klt (l1 ++ k :: l2) ->
  Forall (fun x => klt x k) l1 /\ Forall (klt k) l2.
Proof.
  intros (_ & [_ H2]%SSorted_cons & H3)%SSorted_app. split; [|done].
  eapply Forall_impl; [exact H3|]. simpl. intros x Hx. by inversion Hx.
Qed.

Lemma sorted_replace_last k km l : StronglySorted klt (l ++ [km]) -> klt km k ->
  StronglySorted klt (l ++ [k]).
Proof.
  intros Hs Hk. pose proof (sorted_mid _ _ _ Hs) as [Hl _].
  apply SSorted_app in Hs as (Hs & _ & _). apply SSorted_app. split; [done|].
  split; [by repeat constructor|].
  eapply Forall_impl; [exact Hl|]. simpl. intros x Hx. constructor; [|done].
  by apply (klt_trans _ km).
Qed.

Lemma sorted_replace_first k km l : StronglySorted klt (km :: l) -> klt k km ->
  StronglySorted klt (k :: l).
Proof.
  intros [Hs Hl]%SSorted_cons Hk. apply SSorted_cons. split; [done|].
  by apply (Forall_klt_trans_r km).
Qed.
End without.

Lemma Forall_app_cons_cons {A} (P : A -> Prop) l1 x y l2 :
  Forall P (l1 ++ x :: y :: l2) -> Forall P l1 /\ P x /\ P y /\ Forall P l2.
Proof.
  intros [H1 [H2 [H3 H4]%Forall_cons]%Forall_cons]%Forall_app. done.
Qed.

Lemma Forall_snoc_inv {A} (P : A -> Prop) l x : Forall P (l ++ [x]) -> Forall P l /\ P x.
Proof. intros [H1 [H2 _]%Forall_cons]%Forall_app. done. Qed.

Lemma cons_app_assoc {A} (l1 : list A) x l2 : l1 ++ x :: l2 = (l1 ++ [x]) ++ l2.
Proof. by rewrite <- app_assoc. Qed.

(** ** Place of a key *)
Lemma key_index_spec key ks :
  StronglySorted klt ks ->
  exists ks1 ks2, ks = ks1 ++ ks2 /\ key_index key ks = length ks1 /\
    Forall (fun x => klt x key) ks1 /\
    match ks2 with [] => True | k2 :: _ => key = k2 \/ klt key k2 end.
Proof.
  induction ks as [|k ks IH]; intros Hs; simpl; [by exists [], []|].
  apply SSorted_cons in Hs as [Hs Hk]. destruct (IH Hs) as (ks1 & ks2 & -> & -> & H1 & H2).
  cmp_case key k.
  - exists [], (k :: ks1 ++ ks2). split_and!; auto.
  - exists (k :: ks1), ks2. split_and!; auto.
  - exists [], (k :: ks1 ++ ks2). split_and!; auto.
Qed.

Section delete.
Variable order : nat.
Hypothesis order_ge : (2 <= order)%nat.
Abbreviation wf := (wf order).
Abbreviation wfc := (wfc order).
Abbreviation max_keys := (max_keys order).

Lemma max_keys_eq : max_keys = (2 * order - 1)%nat.
Proof. done. Qed.

(** ** The largest and the smallest key of a subtree *)
Lemma max_key_spec fuel : forall h n,
  wf h n -> (1 <= nr_active n)%nat -> (h < fuel)%nat ->
  exists init km, max_key fuel n = Some km /\ elems n = init ++ [km] /\
    forall k, exists n', set_max_key fuel n k = Some n' /\
      elems n' = init ++ [k] /\ wf h n' /\ nr_active n' = nr_active n.
Proof.
  induction fuel as [|fuel IH]; intros h [ty lv ks cs] Hwf Hn Hf; [lia|].
  unfold nr_active in Hn; simpl key_vals in Hn. cbn [max_key set_max_key].
  destruct (wf_shape _ _ _ _ _ _ Hwf) as [(-> & -> & ->)|(Hh & -> & _)].
  - rewrite bool_decide_eq_true_2 by done.
    destruct ks as [|km init _] using rev_ind; [simpl in Hn; lia|].
    exists init, km. rewrite last_snoc. split_and!; try done. intros k.
    destruct (init ++ [km]) eqn:E; [by destruct init|]. rewrite <- E.
    eexists. split; [done|]. rewrite mid_insert by len. unfold nr_active; simpl.
    split_and!; [done| |len]. by apply wf_leaf; apply wf_leaf in Hwf.
  - destruct h as [|h]; [lia|]. rewrite bool_decide_eq_false_2 by done.
    destruct (wf_split_child _ _ _ _ _ _ (length ks) Hwf)
      as (ks1 & ks2 & cs1 & c & cs2 & -> & -> & H1 & H2 & H3); [lia|].
    destruct ks2; [|len]. destruct cs2; [|len]. rewrite app_nil_r in *. rewrite mid_lookup by done.
    pose proof Hwf as (? & ? & Hl & Hc)%wf_index.
    apply Forall_app in Hc as [Hc1 [[Hcn Hcw] _]%Forall_cons].
    destruct (IH h c Hcw) as (init & km & -> & He & Hset); [lia..|].
    assert (forall x, elems (FNode FSM_INDEX_NODE lv ks1 (cs1 ++ [x])) =
                 left_part cs1 ks1 ++ elems x) as Hex.
    { intros x. rewrite <- (app_nil_r ks1) at 1. rewrite elems_child by len.
      simpl. by rewrite app_nil_r. }
    exists (left_part cs1 ks1 ++ init), km. split; [done|].
    split; [by rewrite Hex, He, app_assoc|]. intros k.
    destruct (Hset k) as (c' & -> & He' & Hw' & Hn'). eexists. split; [done|].
    rewrite mid_insert by done. split; [by rewrite Hex, He', app_assoc|].
    split; [|done]. apply wf_index. split_and!; try done; [len|].
    apply Forall_app. split; [done|]. constructor; [|done]. split; [lia|done].
Qed.

Lemma min_key_spec fuel : forall h n,
  wf h n -> (1 <= nr_active n)%nat -> (h < fuel)%nat ->
  exists km tl, min_key fuel n = Some km /\ elems n = km :: tl /\
    forall k, exists n', set_min_key fuel n k = Some n' /\
      elems n' = k :: tl /\ wf h n' /\ nr_active n' = nr_active n.
Proof.
  induction fuel as [|fuel IH]; intros h [ty lv ks cs] Hwf Hn Hf; [lia|].
  unfold nr_active in Hn; simpl key_vals in Hn. cbn [min_key set_min_key].
  destruct (wf_shape _ _ _ _ _ _ Hwf) as [(-> & -> & ->)|(Hh & -> & Hl)].
  - rewrite bool_decide_eq_true_2 by done. destruct ks as [|km tl]; [simpl in Hn; lia|].
    exists km, tl. split_and!; try done. intros k. eexists. split; [done|].
    split_and!; try done.
  - destruct h as [|h]; [lia|]. rewrite bool_decide_eq_false_2 by done.
    destruct cs as [|c cs]; [simpl in Hl; lia|]. simpl lookup.
    pose proof Hwf as (? & ? & _ & [[Hcn Hcw] Hc]%Forall_cons)%wf_index.
    destruct (IH h c Hcw) as (km & tl & -> & He & Hset); [lia..|].
    assert (forall x, elems (FNode FSM_INDEX_NODE lv ks (x :: cs)) =
                 elems x ++ right_part ks cs) as Hex
      by (intros x; apply (elems_child _ _ [] ks [] x cs); done).
    exists km, (tl ++ right_part ks cs). split; [done|].
    split; [by rewrite Hex, He|]. intros k.
    destruct (Hset k) as (c' & -> & He' & Hw' & Hn'). eexists. split; [done|].
    change (<[0%nat:=c']> (c :: cs)) with (c' :: cs). split; [by rewrite Hex, He'|].
    split; [|done]. apply wf_index. split_and!; try done.
    constructor; [|done]. split; [lia|done].
Qed.

(** ** Rearrangements of two neighbouring children *)

(** A node as its first key and child and the rest: for [move_key LEFT]. *)
Lemma uncons_node h t l ks cs :
  wf h (FNode t l ks cs) -> (1 <= length ks)%nat ->
  exists k ks' c0,
    ks = k :: ks' /\ cs = c0 ++ drop 1 cs /\ take 1 cs = c0 /\
    wf h (FNode t l ks' (drop 1 cs)) /\
    elems (FNode t l ks cs) =
      interleave (map elems c0) [] ++ k :: elems (FNode t l ks' (drop 1 cs)) /\
    (h = 0%nat /\ c0 = [] \/ exists h' c, h = S h' /\ c0 = [c] /\ wfc h' c).
Proof.
  intros Hwf Hl. destruct ks as [|k ks']; [simpl in Hl; lia|].
  destruct h as [|h].
  - apply wf_leaf in Hwf as (-> & -> & ->). exists k, ks', []. split_and!; try done. by left.
  - apply wf_index in Hwf as (-> & -> & Hlc & Hc). destruct cs as [|c cs]; [simpl in Hlc; lia|].
    apply Forall_cons in Hc as [Hc Hcs]. exists k, ks', [c]. simpl drop. rewrite drop_0.
    split_and!; try done.
    + apply wf_index. split_and!; try done. len.
    + simpl. by rewrite app_nil_r.
    + right. eauto.
Qed.

(** The same at the other end: for [move_key RIGHT]. *)
Lemma unsnoc_node h t l ks cs :
  wf h (FNode t l ks cs) -> (1 <= length ks)%nat ->
  let n := length ks in
  exists k ks' c0,
    ks = ks' ++ [k] /\ cs = take n cs ++ c0 /\ drop n cs = c0 /\
    wf h (FNode t l ks' (take n cs)) /\
    elems (FNode t l ks cs) =
      elems (FNode t l ks' (take n cs)) ++ k :: interleave (map elems c0) [] /\
    (h = 0%nat /\ c0 = [] \/ exists h' c, h = S h' /\ c0 = [c] /\ wfc h' c).
Proof.
  intros Hwf Hl n. destruct ks as [|k ks' _] using rev_ind; [simpl in Hl; lia|].
  destruct h as [|h].
  - apply wf_leaf in Hwf as (-> & -> & ->). exists k, ks', [].
    rewrite take_nil, drop_nil. split_and!; try done. by left.
  - apply wf_index in Hwf as (-> & -> & Hlc & Hc).
    destruct cs as [|c cs _] using rev_ind; [simpl in Hlc; lia|].
    apply Forall_app in Hc as [Hcs Hc]. inversion Hc as [|?? Hc' _]; subst.
    assert (n = length cs) as En by (subst n; len).
    exists k, ks', [c]. rewrite mid_take, mid_drop by done. split_and!; try done.
    + apply wf_index. split_and!; try done. len.
    + simpl. rewrite map_app. rewrite <- (app_nil_r (ks' ++ [k])), <- app_assoc.
      apply interleave_mid. len.
    + right. eauto.
Qed.

(** Adding a key and a child at an end. *)
Lemma wf_snoc h t l ks k cs c0 :
  wf h (FNode t l ks cs) ->
  (h = 0%nat /\ c0 = [] \/ exists h' c, h = S h' /\ c0 = [c] /\ wfc h' c) ->
  wf h (FNode t l (ks ++ [k]) (cs ++ c0)) /\
  elems (FNode t l (ks ++ [k]) (cs ++ c0)) =
    elems (FNode t l ks cs) ++ k :: interleave (map elems c0) [].
Proof.
  intros Hwf [(-> & ->)|(h' & c & -> & -> & Hc)].
  - rewrite app_nil_r. apply wf_leaf in Hwf as (-> & -> & ->). done.
  - apply wf_index in Hwf as (-> & -> & Hlc & Hcs). split.
    + apply wf_index. split_and!; try done; [len|]. apply Forall_app. split; [done|].
      by constructor.
    + simpl. rewrite map_app. apply interleave_mid. len.
Qed.

Lemma wf_cons h t l k ks c0 cs :
  wf h (FNode t l ks cs) ->
  (h = 0%nat /\ c0 = [] \/ exists h' c, h = S h' /\ c0 = [c] /\ wfc h' c) ->
  wf h (FNode t l (k :: ks) (c0 ++ cs)) /\
  elems (FNode t l (k :: ks) (c0 ++ cs)) =
    interleave (map elems c0) [] ++ k :: elems (FNode t l ks cs).
Proof.
  intros Hwf [(-> & ->)|(h' & c & -> & -> & Hc)].
  - apply wf_leaf in Hwf as (-> & -> & ->). done.
  - apply wf_index in Hwf as (-> & -> & Hlc & Hcs). split.
    + apply wf_index. split_and!; try done; [len|]. by constructor.
    + simpl. by rewrite app_nil_r.
Qed.

(** The two children merged around the key that separates them. *)
Lemma merged_wf h t l1 k ks1 ks2 cs1 cs2 t2 l2 :
  wf h (FNode t l1 ks1 cs1) -> wf h (FNode t2 l2 ks2 cs2) ->
  wf h (FNode t l1 (ks1 ++ k :: ks2) (cs1 ++ cs2)) /\
  elems (FNode t l1 (ks1 ++ k :: ks2) (cs1 ++ cs2)) =
    elems (FNode t l1 ks1 cs1) ++ k :: elems (FNode t2 l2 ks2 cs2).
Proof.
  destruct h as [|h].
  - intros (-> & -> & ->)%wf_leaf (_ & _ & ->)%wf_leaf. done.
  - intros (-> & -> & H1 & H2)%wf_index (_ & _ & H3 & H4)%wf_index. split.
    + apply wf_index. split_and!; try done; [len|]. by apply Forall_app.
    + apply (elems_join _ _ _ _ _ _ _ FSM_INDEX_NODE (Z.of_nat (S h)) FSM_INDEX_NODE 0).
      by right.
Qed.

Lemma move_left_spec h ty lv ks1 k ks2 cs1 l r cs2 :
  length cs1 = length ks1 -> wf h l -> wf h r ->
  (nr_active l < max_keys)%nat -> (1 <= nr_active r)%nat ->
  exists rk l' r',
    move_key order (FNode ty lv (ks1 ++ k :: ks2) (cs1 ++ l :: r :: cs2))
      (length ks1) LEFT =
      Some (FNode ty lv (ks1 ++ rk :: ks2) (cs1 ++ l' :: r' :: cs2)) /\
    wf h l' /\ wf h r' /\ nr_active l' = S (nr_active l) /\
    S (nr_active r') = nr_active r /\
    elems l' ++ rk :: elems r' = elems l ++ k :: elems r /\ rk ∈ elems r.
Proof.
  intros H Hl Hr Hnl Hnr. destruct l as [tl ll lks lcs], r as [tr lr rks rcs].
  destruct (uncons_node h tr lr rks rcs Hr Hnr)
    as (rk & rks' & c0 & -> & Ercs & Ec0 & Hwr & Her & Hc0).
  destruct (wf_snoc h tl ll lks k lcs c0 Hl Hc0) as [Hwl Hel].
  exists rk, (FNode tl ll (lks ++ [k]) (lcs ++ c0)), (FNode tr lr rks' (drop 1 rcs)).
  unfold nr_active in *. simpl key_vals in *. unfold move_key. mid.
  rewrite (proj2 (Nat.leb_gt _ _) Hnl). rewrite Ec0.
  split_and!; try done; [len| |].
  - rewrite Hel, Her, <- app_assoc. done.
  - rewrite Her. set_solver.
Qed.

Lemma move_right_spec h ty lv ks1 k ks2 cs1 l r cs2 :
  length cs1 = length ks1 -> wf h l -> wf h r ->
  (1 <= nr_active l)%nat -> (nr_active r < max_keys)%nat ->
  exists lk l' r',
    move_key order (FNode ty lv (ks1 ++ k :: ks2) (cs1 ++ l :: r :: cs2))
      (S (length ks1)) RIGHT =
      Some (FNode ty lv (ks1 ++ lk :: ks2) (cs1 ++ l' :: r' :: cs2)) /\
    wf h l' /\ wf h r' /\ S (nr_active l') = nr_active l /\
    nr_active r' = S (nr_active r) /\
    elems l' ++ lk :: elems r' = elems l ++ k :: elems r /\ lk ∈ elems l.
Proof.
  intros H Hl Hr Hnl Hnr. destruct l as [tl ll lks lcs], r as [tr lr rks rcs].
  destruct (unsnoc_node h tl ll lks lcs Hl Hnl)
    as (lk & lks' & c0 & Elks & Elcs & Ec0 & Hwl & Hel & Hc0).
  destruct (wf_cons h tr lr k rks c0 rcs Hr Hc0) as [Hwr Her].
  exists lk, (FNode tl ll lks' (take (length lks) lcs)), (FNode tr lr (k :: rks) (c0 ++ rcs)).
  unfold nr_active in *. simpl key_vals in *. unfold move_key.
  replace (S (length ks1) - 1)%nat with (length ks1) by lia. mid.
  rewrite (proj2 (Nat.leb_gt _ _) Hnr).
  rewrite Ec0. replace (last lks) with (Some lk) by (by rewrite Elks, last_snoc).
  replace (take (length lks - 1) lks) with lks'
    by (rewrite Elks; rewrite mid_take by len; done).
  rewrite mid_insert by done.
  split_and!; try done; [rewrite Elks; len| |].
  - rewrite Hel, Her, <- app_assoc. done.
  - rewrite Hel. set_solver.
Qed.

Lemma merge_siblings_spec h ty lv ks1 k ks2 cs1 l r cs2 index pos o :
  length cs1 = length ks1 -> wf h l -> wf h r ->
  nr_active l = (order - 1)%nat -> nr_active r = (order - 1)%nat ->
  index = length ks1 \/ index = S (length ks1) /\ ks2 = [] ->
  let node := FNode ty lv (ks1 ++ k :: ks2) (cs1 ++ l :: r :: cs2) in
  let '(ok, o') := alloc o in
  if ok then
    exists m, merge_siblings order node index pos o =
        Some (inr (length ks1), FNode ty lv (ks1 ++ ks2) (cs1 ++ m :: cs2), o') /\
      wf h m /\ nr_active m = max_keys /\ elems m = elems l ++ k :: elems r
  else merge_siblings order node index pos o = Some (inl (- ENOMEM), node, o').
Proof.
  intros H Hl Hr Hnl Hnr Hi. destruct l as [tl ll lks lcs], r as [tr lr rks rcs].
  cbv zeta. unfold merge_siblings, allocate_btree_node.
  replace (if (index =? length (ks1 ++ k :: ks2))%nat then (index - 1)%nat else index)
    with (length ks1)
    by (destruct (Nat.eqb_spec index (length (ks1 ++ k :: ks2))) as [E|E];
        destruct Hi as [->|[-> ->]]; len).
  mid. destruct (alloc o) as [[] o']; [|done].
  unfold nr_active in *. simpl key_vals in *.
  destruct (merged_wf h tl ll k lks rks lcs rcs tr lr Hl Hr) as [Hwm Hem].
  exists (FNode tl ll (lks ++ k :: rks) (lcs ++ rcs)).
  rewrite Hnl, Hnr, Nat.eqb_refl. unfold join_at. mid.
  split_and!; try done. simpl. rewrite max_keys_eq. len.
Qed.

(** The parent after [refill_child]: same keys, and the child at the search
    place now has a key to spare. *)
Definition refilled key h lv l n (node : fnode) (i : nat) : Prop :=
  exists ks1 ks2 cs1 c cs2,
    node = FNode FSM_INDEX_NODE lv (ks1 ++ ks2) (cs1 ++ c :: cs2) /\
    i = length ks1 /\ length cs1 = length ks1 /\ length cs2 = length ks2 /\
    wf (S h) node /\ elems node = l /\
    Forall (fun x => klt x key) ks1 /\
    match ks2 with [] => True | k2 :: _ => klt key k2 end /\
    (order <= nr_active c <= max_keys)%nat /\ wf h c /\
    (n <= S (nr_active node))%nat /\ (nr_active node <= n)%nat.

Lemma refilled_intro key h lv l n ks1 ks2 cs1 c cs2 :
  length cs1 = length ks1 -> length cs2 = length ks2 ->
  lv = Z.of_nat (S h) ->
  Forall (wfc h) cs1 -> Forall (wfc h) cs2 -> wf h c ->
  (order <= nr_active c <= max_keys)%nat ->
  elems (FNode FSM_INDEX_NODE lv (ks1 ++ ks2) (cs1 ++ c :: cs2)) = l ->
  Forall (fun x => klt x key) ks1 ->
  match ks2 with [] => True | k2 :: _ => klt key k2 end ->
  (n <= S (length (ks1 ++ ks2)))%nat -> (length (ks1 ++ ks2) <= n)%nat ->
  refilled key h lv l n
    (FNode FSM_INDEX_NODE lv (ks1 ++ ks2) (cs1 ++ c :: cs2)) (length ks1).
Proof.
  intros. exists ks1, ks2, cs1, c, cs2. split_and!; try done.
  apply wf_index. split_and!; try done; [len|].
  apply Forall_app. split; [done|]. constructor; [|done]. split; [lia|done].
  all: lia.
Qed.

Lemma siblings_right ty lv ks1 k ks2 cs1 c r cs2 :
  length cs1 = length ks1 ->
  exists ls, siblings (FNode ty lv (ks1 ++ k :: ks2) (cs1 ++ c :: r :: cs2))
    (length ks1) = (ls, Some r) /\
    (ls = None \/ exists cs1' l ks1' k', cs1 = cs1' ++ [l] /\ ks1 = ks1' ++ [k'] /\
       length cs1' = length ks1' /\ ls = Some l).
Proof.
  intros H. unfold siblings.
  destruct (Nat.eqb_spec (length ks1) (length (ks1 ++ k :: ks2))) as [E|_]; [len|].
  destruct ks1 as [|k' ks1' _] using rev_ind.
  { destruct cs1; [|len]. exists None. split; [done|by left]. }
  destruct cs1 as [|l cs1' _] using rev_ind; [len|].
  destruct (Nat.eqb_spec (length (ks1' ++ [k'])) 0) as [E|_]; [len|].
  exists (Some l). rewrite mid_lookup_S by len. rewrite <- (app_assoc cs1').
  simpl. rewrite mid_lookup by len. split; [done|]. right.
  exists cs1', l, ks1', k'. split_and!; try done. len.
Qed.

Lemma siblings_last ty lv ks1 k cs1 l c :
  length cs1 = length ks1 ->
  siblings (FNode ty lv (ks1 ++ [k]) (cs1 ++ [l; c])) (S (length ks1)) = (Some l, None).
Proof.
  intros H. unfold siblings. replace (length (ks1 ++ [k])) with (S (length ks1)) by len.
  rewrite Nat.eqb_refl. by rewrite mid_lookup by len.
Qed.

(** A key moves over from the right sibling. *)
Lemma refill_left key h lv ks1 k ks2 cs1 c r cs2 :
  let node := FNode FSM_INDEX_NODE lv (ks1 ++ k :: ks2) (cs1 ++ c :: r :: cs2) in
  wf (S h) node -> length cs1 = length ks1 -> length cs2 = length ks2 ->
  StronglySorted klt (elems node) ->
  Forall (fun x => klt x key) ks1 -> klt key k ->
  nr_active c = (order - 1)%nat -> (order <= nr_active r)%nat ->
  exists node', move_key order node (length ks1) LEFT = Some node' /\
    refilled key h lv (elems node) (nr_active node) node' (length ks1).
Proof.
  intros node Hwf H1 H2 Hs Hk1 Hk2 Hc Hr.
  apply wf_index in Hwf as (Hlv & _ & _ & (Hc1 & (Hcn & Hcw) & (Hrn & Hrw) & Hc2)%Forall_app_cons_cons).
  destruct (move_left_spec h FSM_INDEX_NODE lv ks1 k ks2 cs1 c r cs2)
    as (rk & c' & r' & E & Hc' & Hr' & Hnc & Hnr & He & Hin); try done; [rewrite max_keys_eq; lia|lia|].
  eexists. split; [exact E|].
  apply refilled_intro; try done.
  - len.
  - constructor; [|done]. split; [lia|done].
  - rewrite max_keys_eq. lia.
  - unfold node. rewrite !elems_two by done. by rewrite He.
  - unfold node in Hs. rewrite elems_two in Hs by done.
    apply SSorted_app in Hs as (_ & (Hs & _ & _)%SSorted_app & _).
    apply sorted_mid in Hs as [_ Hs]. rewrite Forall_forall in Hs.
    eapply klt_trans; [exact Hk2|]. by apply Hs.
  - unfold nr_active; simpl; len.
  - unfold nr_active; simpl; len.
Qed.

(** A key moves over from the left sibling. *)
Lemma refill_right key h lv ks1 k ks2 cs1 l c cs2 :
  let node := FNode FSM_INDEX_NODE lv (ks1 ++ k :: ks2) (cs1 ++ l :: c :: cs2) in
  wf (S h) node -> length cs1 = length ks1 -> length cs2 = length ks2 ->
  StronglySorted klt (elems node) ->
  Forall (fun x => klt x key) ks1 -> klt k key ->
  match ks2 with [] => True | k2 :: _ => klt key k2 end ->
  nr_active c = (order - 1)%nat -> (order <= nr_active l)%nat ->
  exists node', move_key order node (S (length ks1)) RIGHT = Some node' /\
    refilled key h lv (elems node) (nr_active node) node' (S (length ks1)).
Proof.
  intros node Hwf H1 H2 Hs Hk1 Hk Hk2 Hc Hl.
  apply wf_index in Hwf as (Hlv & _ & _ & (Hc1 & (Hln & Hlw) & (Hcn & Hcw) & Hc2)%Forall_app_cons_cons).
  destruct (move_right_spec h FSM_INDEX_NODE lv ks1 k ks2 cs1 l c cs2)
    as (lk & l' & c' & E & Hl' & Hc' & Hnl & Hnc & He & Hin); try done; [lia|rewrite max_keys_eq; lia|].
  eexists. split; [exact E|].
  unfold node in Hs. rewrite elems_two in Hs by done.
  apply SSorted_app in Hs as (_ & (Hs & _ & _)%SSorted_app & _).
  apply sorted_mid in Hs as [Hs _]. rewrite Forall_forall in Hs.
  replace (S (length ks1)) with (length (ks1 ++ [lk])) by len.
  rewrite (cons_app_assoc ks1 lk ks2), (cons_app_assoc cs1 l' (c' :: cs2)).
  apply refilled_intro; try done.
  - len.
  - apply Forall_app. split; [done|]. constructor; [|done]. split; [lia|done].
  - rewrite max_keys_eq. lia.
  - rewrite <- !app_assoc. cbn [app]. unfold node. rewrite !elems_two by done. by rewrite He.
  - apply Forall_app. split; [done|]. constructor; [|done].
    eapply klt_trans; [|exact Hk]. by apply Hs.
  - unfold nr_active; simpl; len.
  - unfold nr_active; simpl; len.
Qed.

(** Two children with [order - 1] keys become one. *)
Lemma refill_merge key h lv ks1 k ks2 cs1 l r cs2 index pos o :
  let node := FNode FSM_INDEX_NODE lv (ks1 ++ k :: ks2) (cs1 ++ l :: r :: cs2) in
  wf (S h) node -> length cs1 = length ks1 -> length cs2 = length ks2 ->
  Forall (fun x => klt x key) ks1 ->
  match ks2 with [] => True | k2 :: _ => klt key k2 end ->
  nr_active l = (order - 1)%nat -> nr_active r = (order - 1)%nat ->
  index = length ks1 \/ index = S (length ks1) /\ ks2 = [] ->
  (exists o', merge_siblings order node index pos o = Some (inl (- ENOMEM), node, o') /\
     ~ plenty o) \/
  (exists i node' o', merge_siblings order node index pos o = Some (inr i, node', o') /\
     refilled key h lv (elems node) (nr_active node) node' i /\ (plenty o -> plenty o')).
Proof.
  intros node Hwf H1 H2 Hk1 Hk2 Hl Hr Hi.
  apply wf_index in Hwf as (Hlv & _ & _ & (Hc1 & (Hln & Hlw) & (Hrn & Hrw) & Hc2)%Forall_app_cons_cons).
  pose proof (merge_siblings_spec h FSM_INDEX_NODE lv ks1 k ks2 cs1 l r cs2 index pos o
    H1 Hlw Hrw Hl Hr Hi) as Hm.
  pose proof (plenty_alloc o) as Hp. destruct (alloc o) as [[] o'].
  - right. destruct Hm as (m & E & Hm & Hnm & He). do 3 eexists. split; [exact E|].
    split; [|intros (? & [= <-] & ?)%Hp; done].
    apply refilled_intro; try done.
    + rewrite max_keys_eq in *. lia.
    + unfold node. rewrite elems_child, elems_two by done. by rewrite He.
    + unfold nr_active; simpl; len.
    + unfold nr_active; simpl; len.
  - left. exists o'. split; [done|]. intros (? & ? & ?)%Hp. done.
Qed.

Lemma has_more_true (n : fnode) : (order <= nr_active n)%nat -> has_more order (Some n) = true.
Proof. intros. simpl. apply Nat.ltb_lt. lia. Qed.

Lemma has_more_false (n : fnode) : nr_active n = (order - 1)%nat ->
  has_more order (Some n) = false /\ has_least order (Some n) = true.
Proof.
  intros H. unfold has_more, has_least. rewrite H.
  split; [apply Nat.ltb_irrefl | apply Nat.eqb_refl].
Qed.

Lemma more_or_least (h : nat) (n : fnode) : wfc h n ->
  (order <= nr_active n)%nat \/ nr_active n = (order - 1)%nat.
Proof. intros [? _]. lia. Qed.

Lemma refill_child_spec key h lv ks1 ks2 cs1 c cs2 o :
  let node := FNode FSM_INDEX_NODE lv (ks1 ++ ks2) (cs1 ++ c :: cs2) in
  wf (S h) node -> length cs1 = length ks1 -> length cs2 = length ks2 ->
  (1 <= nr_active node)%nat -> StronglySorted klt (elems node) ->
  Forall (fun x => klt x key) ks1 ->
  match ks2 with [] => True | k2 :: _ => klt key k2 end ->
  (exists o', refill_child order node (length ks1) o = Some (inl (- ENOMEM), node, o') /\
     ~ plenty o) \/
  (exists i node' o', refill_child order node (length ks1) o = Some (inr i, node', o') /\
     refilled key h lv (elems node) (nr_active node) node' i /\ (plenty o -> plenty o')).
Proof.
  intros node Hwf H1 H2 Hn Hs Hk1 Hk2.
  pose proof Hwf as (Hlv & _ & _ & [Hc1 [Hc Hc2]%Forall_cons]%Forall_app)%wf_index.
  unfold refill_child. change (children node) with (cs1 ++ c :: cs2).
  rewrite (mid_lookup _ cs1) by done.
  destruct (Nat.eqb_spec (nr_active c) (order - 1)) as [Hcn|Hcn].
  2:{ right. assert (order <= nr_active c <= max_keys)%nat as Hcb by (destruct Hc; lia).
      destruct (siblings _ _). do 3 eexists. split; [done|]. split; [|done].
      apply refilled_intro; try done; [apply Hc|..]; unfold nr_active; simpl; lia. }
  destruct ks2 as [|k ks2].
  - (* the last child *)
    destruct cs2; [|len]. unfold nr_active in Hn; simpl key_vals in Hn.
    destruct ks1 as [|k ks1 _] using rev_ind; [len|].
    destruct cs1 as [|l cs1 _] using rev_ind; [len|].
    apply Forall_snoc_inv in Hk1 as [Hk1 Hk]. apply Forall_snoc_inv in Hc1 as [_ Hl].
    assert (length cs1 = length ks1) as H3 by len.
    subst node. rewrite app_nil_r, <- (app_assoc cs1) in *. simpl app in *.
    replace (length (ks1 ++ [k])) with (S (length ks1)) by len.
    rewrite siblings_last by done. change (has_more order None) with false. cbv iota.
    destruct (more_or_least _ _ Hl) as [Hln|Hln].
    + rewrite has_more_true by done.
      destruct (refill_right key h lv ks1 k [] cs1 l c []) as (node' & -> & Hr); try done.
      right. do 3 eexists. split; [done|]. split; done.
    + destruct (has_more_false _ Hln) as [-> ->].
      apply refill_merge; try done. by right.
  - destruct cs2 as [|r cs2]; [len|].
    destruct (siblings_right FSM_INDEX_NODE lv ks1 k ks2 cs1 c r cs2 H1) as (ls & Es & Hls).
    fold node in Es. rewrite Es. apply Forall_cons in Hc2 as [Hr Hc2].
    destruct (more_or_least _ _ Hr) as [Hrn|Hrn].
    { rewrite has_more_true by done.
      destruct (refill_left key h lv ks1 k ks2 cs1 c r cs2) as (node' & E & Hr'); try done; [len|].
      fold node in E, Hr'. rewrite E. right. do 3 eexists. split; [done|]. split; done. }
    destruct (has_more_false _ Hrn) as [-> ->].
    assert (forall pos,
      (exists o', merge_siblings order node (length ks1) pos o = Some (inl (- ENOMEM), node, o') /\
        ~ plenty o) \/
      (exists i node' o', merge_siblings order node (length ks1) pos o = Some (inr i, node', o') /\
        refilled key h lv (elems node) (nr_active node) node' i /\ (plenty o -> plenty o'))) as Hm.
    { intros pos. apply refill_merge; try done; [len| |by left].
      apply keys_sorted, SSorted_app in Hs as (_ & [_ Hs]%SSorted_cons & _).
      destruct ks2; [done|]. apply Forall_cons in Hs as [? _]. by eapply klt_trans. }
    destruct Hls as [->|(cs1' & l & ks1' & k' & -> & -> & H3 & ->)]; [apply Hm|].
    apply Forall_snoc_inv in Hc1 as [_ Hl].
    destruct (more_or_least _ _ Hl) as [Hln|Hln];
      [|destruct (has_more_false _ Hln) as [-> ->]; apply Hm].
    rewrite has_more_true by done. apply Forall_snoc_inv in Hk1 as [Hk1 Hk].
    subst node.
    rewrite <- (app_assoc ks1'), <- (app_assoc cs1') in *. simpl app in *.
    replace (length (ks1' ++ [k'])) with (S (length ks1')) by len.
    destruct (refill_right key h lv ks1' k' (k :: ks2) cs1' l c (r :: cs2))
      as (node' & -> & Hr'); try done.
    right. do 3 eexists. split; [done|]. split; done.
Qed.

(** ** The deletion loop *)
Lemma fix_root_type_wf h n : wf h n -> fix_root_type n = n.
Proof.
  destruct n as [ty lv ks cs]; intros Hwf. destruct h as [|h].
  - by apply wf_leaf in Hwf as (-> & -> & _).
  - apply wf_index in Hwf as (-> & -> & _). unfold fix_root_type.
    by destruct (Z.eqb_spec (Z.of_nat (S h)) 0); [lia|].
Qed.

Lemma retype_child_wf h n i : wf (S h) n -> retype_child n i = n.
Proof.
  destruct n as [ty lv ks cs]; intros (_ & _ & _ & Hc)%wf_index. simpl. f_equal.
  apply list_eq. intros j. rewrite list_lookup_alter.
  case_decide as Hj; [subst j|done]. destruct (cs !! i) as [c|] eqn:E; [|done]. simpl.
  f_equal. rewrite Forall_lookup in Hc. apply Hc in E as [_ E].
  by apply fix_root_type_wf in E.
Qed.

(** What a call on a subtree that holds the keys [l] gives. *)
Definition del_post key h (is_root : bool) (l : list fsm_btree_key) (o : oracle)
    (res : option (Z * option fnode * oracle)) : Prop :=
  exists ret n' o', res = Some (ret, n', o') /\ (plenty o -> plenty o') /\
    match n' with
    | None => is_root = true /\ ret = 0 /\ without key l = []
    | Some n' =>
      (exists h', wf h' n' /\ (is_root = false -> h' = h)) /\
      ((if is_root then 1 else order - 1) <= nr_active n' <= max_keys)%nat /\
      (ret = 0 /\ elems n' = without key l \/
       ret = - ENOMEM /\ ~ plenty o /\ elems n' ≡ₚ l)
    end.

(** The loop goes on with the child at the split. *)
Lemma delete_child_spec del key h lv ks1 ks2 cs1 c cs2 (is_root : bool) l o o1 :
  let node := FNode FSM_INDEX_NODE lv (ks1 ++ ks2) (cs1 ++ c :: cs2) in
  wf (S h) node -> length cs1 = length ks1 -> length cs2 = length ks2 ->
  ((if is_root then 0 else order - 1) <= nr_active node <= max_keys)%nat ->
  l ≡ₚ elems node ->
  without key l = left_part cs1 ks1 ++ without key (elems c) ++ right_part ks2 cs2 ->
  (plenty o -> plenty o1) ->
  (forall r, del_post key h r (elems c) o1 (del r c o1)) ->
  del_post key (S h) is_root l o (delete_child del is_root node (length ks1) o1).
Proof.
  intros node Hwf H1 H2 Hn Hl Hw Ho Hdel. subst node. unfold delete_child. mid.
  pose proof (elems_child FSM_INDEX_NODE lv ks1 ks2 cs1 c cs2 H1) as He. rewrite He in Hl.
  unfold nr_active in Hn; simpl key_vals in Hn.
  destruct (is_root && (length (ks1 ++ ks2) =? 0)%nat) eqn:E.
  - apply andb_true_iff in E as [-> E%Nat.eqb_eq].
    destruct ks1, ks2, cs1, cs2; try len. simpl in Hw, Hl. rewrite app_nil_r in Hw, Hl.
    destruct (Hdel true) as (ret & n' & o' & -> & Ho' & Hpost).
    exists ret, n', o'. split; [done|]. split; [by auto|]. destruct n' as [n'|].
    + destruct Hpost as ((h' & Hw' & _) & Hn' & Hr). split; [by exists h'|]. split; [done|].
      destruct Hr as [[? Hr]|(? & ? & Hr)]; [left; by rewrite Hw|right].
      split_and!; [done|tauto|by rewrite Hl].
    + by rewrite Hw.
  - destruct (Hdel false) as (ret & n' & o' & -> & Ho' & Hpost).
    destruct n' as [c'|]; [|by destruct Hpost]. destruct Hpost as ((h' & Hw' & Hh) & Hn' & Hr).
    rewrite Hh in Hw' by done. eexists ret, (Some _), o'. split; [done|]. split; [by auto|].
    mid. split; [|split].
    + exists (S h). split; [|done]. apply wf_index in Hwf as (? & ? & ? & Hc).
      apply Forall_app in Hc as [? [? ?]%Forall_cons].
      apply wf_index. split_and!; try done; [len|]. apply Forall_app. split; [done|].
      by constructor.
    + unfold nr_active; simpl key_vals. destruct is_root; simpl in E; [|lia].
      apply Nat.eqb_neq in E. lia.
    + rewrite elems_child by done. destruct Hr as [[? Hr]|(? & ? & Hr)]; [left|right].
      * by rewrite Hr, Hw.
      * split_and!; [done|tauto|by rewrite Hr, Hl].
Qed.

Lemma del_post_unchanged key h (is_root : bool) n o o' ret :
  wf h n -> ((if is_root then 1 else order - 1) <= nr_active n <= max_keys)%nat ->
  (plenty o -> plenty o') ->
  ret = 0 /\ key ∉ elems n \/ ret = - ENOMEM /\ ~ plenty o ->
  del_post key h is_root (elems n) o (Some (ret, Some n, o')).
Proof.
  intros Hwf Hn Ho Hr. exists ret, (Some n), o'. split; [done|]. split; [done|].
  split; [by exists h|]. split; [done|].
  destruct Hr as [[-> Hr]|[-> Hr]]; [left; by rewrite without_notin|right; done].
Qed.

(** A key that lies between the two parts can only be in the child. *)
Lemma not_in_parts key cs1 ks1 c ks2 cs2 :
  StronglySorted klt (left_part cs1 ks1 ++ elems c ++ right_part ks2 cs2) ->
  length cs1 = length ks1 -> length cs2 = length ks2 ->
  Forall (fun x => klt x key) ks1 ->
  match ks2 with [] => True | k2 :: _ => klt key k2 end ->
  without key (left_part cs1 ks1 ++ elems c ++ right_part ks2 cs2) =
    left_part cs1 ks1 ++ without key (elems c) ++ right_part ks2 cs2.
Proof.
  intros Hs H1 H2 Hk1 Hk2. rewrite !without_app.
  rewrite (without_notin _ (left_part cs1 ks1)), (without_notin _ (right_part ks2 cs2)); [done|..].
  - apply Forall_gt_notin, right_part_gt; try done.
    by apply SSorted_app in Hs as (_ & (_ & ? & _)%SSorted_app & _).
  - apply Forall_lt_notin. by eapply left_part_lt.
Qed.

(** A found key around its place in the tree. *)
Lemma without_around key (l1 l2 : list fsm_btree_key) :
  StronglySorted klt (l1 ++ key :: l2) ->
  key ∉ l1 /\ key ∉ l2 /\ without key (l1 ++ key :: l2) = l1 ++ l2.
Proof.
  intros [H1 H2]%sorted_mid. pose proof (Forall_lt_notin _ _ H1).
  pose proof (Forall_gt_notin _ _ H2). split_and!; try done. by apply without_mid.
Qed.

Section loop_step.
Context (fuel h : nat) (key : fsm_btree_key).

Definition del_ok (h : nat) (fuel : nat) : Prop :=
  forall (is_root : bool) n o,
    wf h n -> ((if is_root then 1 else order) <= nr_active n <= max_keys)%nat ->
    StronglySorted klt (elems n) ->
    del_post key h is_root (elems n) o (del_loop order fuel is_root n key o).

Hypothesis IH : del_ok h fuel.
Hypothesis Hfuel : (h < fuel)%nat.

Abbreviation descend is_root :=
  (delete_child (fun is_root c o => del_loop order fuel is_root c key o) is_root).

Lemma del_child_ok c o r :
  wf h c -> (order <= nr_active c <= max_keys)%nat -> StronglySorted klt (elems c) ->
  del_post key h r (elems c) o (del_loop order fuel r c key o).
Proof. intros. apply IH; try done. destruct r; lia. Qed.

Lemma del_not_found lv ks1 ks2 cs1 c cs2 (is_root : bool) o :
  let node := FNode FSM_INDEX_NODE lv (ks1 ++ ks2) (cs1 ++ c :: cs2) in
  wf (S h) node -> length cs1 = length ks1 -> length cs2 = length ks2 ->
  ((if is_root then 1 else order) <= nr_active node <= max_keys)%nat ->
  StronglySorted klt (elems node) ->
  Forall (fun x => klt x key) ks1 ->
  match ks2 with [] => True | k2 :: _ => klt key k2 end ->
  del_post key (S h) is_root (elems node) o
    (match refill_child order node (length ks1) o with
     | None => None
     | Some (inl err, node, o) => Some (err, Some node, o)
     | Some (inr i, node, o) =>
       descend is_root (if is_root && (nr_active node =? 0)%nat
                        then retype_child node i else node) i o
     end).
Proof.
  intros node Hwf H1 H2 Hn Hs Hk1 Hk2.
  destruct (refill_child_spec key h lv ks1 ks2 cs1 c cs2 o)
    as [(o' & E & Ho)|(i & node' & o' & E & Hr & Ho)]; try done.
  { fold node. destruct is_root; lia. }
  - fold node in E. rewrite E. apply del_post_unchanged; try done.
    + destruct is_root; lia.
    + by right.
  - fold node in E. rewrite E. fold node in Hr.
    destruct Hr as (ks1' & ks2' & cs1' & c' & cs2' & -> & -> & H3 & H4 & Hwf' & He &
      Hk1' & Hk2' & Hnc & Hwc & Hn1 & Hn2).
    rewrite (retype_child_wf h) by done.
    match goal with |- context [if ?b then ?x else ?x] =>
      replace (if b then x else x) with x by (by destruct b) end.
    rewrite <- He in Hs |- *. clear E He. pose proof Hs as Hs'. rewrite elems_child in Hs' by done.
    apply delete_child_spec; try done.
    + destruct is_root; lia.
    + rewrite elems_child by done. by apply not_in_parts.
    + intros r. apply del_child_ok; try done.
      by apply SSorted_app in Hs' as (_ & (? & _ & _)%SSorted_app & _).
Qed.

Lemma del_pred lv ks1 ks2 cs1 l r cs2 (is_root : bool) o :
  let node := FNode FSM_INDEX_NODE lv (ks1 ++ key :: ks2) (cs1 ++ l :: r :: cs2) in
  wf (S h) node -> length cs1 = length ks1 -> length cs2 = length ks2 ->
  ((if is_root then 1 else order) <= nr_active node <= max_keys)%nat ->
  StronglySorted klt (elems node) -> (order <= nr_active l)%nat ->
  exists km l', max_key (depth l) l = Some km /\
    set_max_key (depth l) l key = Some l' /\
    del_post key (S h) is_root (elems node) o
      (descend is_root (FNode FSM_INDEX_NODE lv (ks1 ++ km :: ks2)
         (cs1 ++ l' :: r :: cs2)) (length ks1) o).
Proof.
  intros node Hwf H1 H2 Hn Hs Hl.
  pose proof Hwf as (Hlv & _ & Hlen & (Hc1 & [Hln Hlw] & Hr & Hc2)%Forall_app_cons_cons)%wf_index.
  destruct (max_key_spec (depth l) h l) as (init & km & -> & He & Hset);
    [done|lia|by eapply wf_depth|].
  destruct (Hset key) as (l' & -> & He' & Hw' & Hn'). exists km, l'. do 2 (split; [done|]).
  unfold node in Hs |- *. rewrite elems_two, He in * by done.
  rewrite <- (app_assoc (init ++ [km])), (app_assoc (left_part _ _)) in *.
  rewrite <- app_comm_cons in Hs |- *.
  destruct (without_around _ _ _ Hs) as (Hi1 & Hi2 & Hwo).
  apply SSorted_app in Hs as (Hs1 & _ & Hs2).
  apply SSorted_app in Hs1 as (_ & Hs1 & _).
  apply Forall_app in Hs2 as [_ [_ [Hs2 _]%Forall_cons]%Forall_app].
  apply Forall_cons in Hs2 as [Hkm _].
  apply (delete_child_spec _ key h lv ks1 (km :: ks2) cs1 l' (r :: cs2)); try done.
  - apply wf_index. split_and!; try done; [len|]. apply Forall_app. split; [done|].
    constructor; [|by constructor]. split; [lia|done].
  - len.
  - unfold nr_active in Hn |- *. simpl key_vals in *. destruct is_root; len.
  - rewrite elems_two, He' by done. solve_Permutation.
  - rewrite Hwo, He', right_part_cons. rewrite without_mid; [|set_solver..].
    rewrite app_nil_r, <- !app_assoc. done.
  - intros r'. apply del_child_ok; [done|lia|]. rewrite He'. by eapply sorted_replace_last.
Qed.

Lemma del_succ lv ks1 ks2 cs1 l r cs2 (is_root : bool) o :
  let node := FNode FSM_INDEX_NODE lv (ks1 ++ key :: ks2) (cs1 ++ l :: r :: cs2) in
  wf (S h) node -> length cs1 = length ks1 -> length cs2 = length ks2 ->
  ((if is_root then 1 else order) <= nr_active node <= max_keys)%nat ->
  StronglySorted klt (elems node) -> (order <= nr_active r)%nat ->
  exists km r', min_key (depth r) r = Some km /\
    set_min_key (depth r) r key = Some r' /\
    del_post key (S h) is_root (elems node) o
      (descend is_root (FNode FSM_INDEX_NODE lv (ks1 ++ km :: ks2)
         (cs1 ++ l :: r' :: cs2)) (S (length ks1)) o).
Proof.
  intros node Hwf H1 H2 Hn Hs Hr.
  pose proof Hwf as (Hlv & _ & Hlen & (Hc1 & Hl & [Hrn Hrw] & Hc2)%Forall_app_cons_cons)%wf_index.
  destruct (min_key_spec (depth r) h r) as (km & tl & -> & He & Hset);
    [done|lia|by eapply wf_depth|].
  destruct (Hset key) as (r' & -> & He' & Hw' & Hn'). exists km, r'. do 2 (split; [done|]).
  unfold node in Hs |- *. rewrite elems_two, He in * by done.
  rewrite <- (app_assoc (elems l)), (app_assoc (left_part _ _)) in *.
  rewrite <- !app_comm_cons in Hs |- *.
  destruct (without_around _ _ _ Hs) as (Hi1 & Hi2 & Hwo).
  apply SSorted_app in Hs as (_ & [Hs1 Hs2]%SSorted_cons & _).
  apply Forall_cons in Hs2 as [Hkm _]. rewrite app_comm_cons in Hs1.
  apply SSorted_app in Hs1 as (Hs1 & _).
  replace (S (length ks1)) with (length (ks1 ++ [km])) by len.
  rewrite (cons_app_assoc ks1), (cons_app_assoc cs1).
  assert (elems (FNode FSM_INDEX_NODE lv ((ks1 ++ [km]) ++ ks2) ((cs1 ++ [l]) ++ r' :: cs2)) =
    left_part cs1 ks1 ++ (elems l ++ km :: elems r') ++ right_part ks2 cs2) as Hen.
  { rewrite <- (cons_app_assoc ks1), <- (cons_app_assoc cs1). by apply elems_two. }
  apply (delete_child_spec _ key h lv (ks1 ++ [km]) ks2 (cs1 ++ [l]) r' cs2); try done.
  - apply wf_index. split_and!; try done; [len|]. rewrite <- app_assoc.
    apply Forall_app. split; [done|].
    constructor; [done|]. constructor; [split; [lia|done]|done].
  - len.
  - unfold nr_active in Hn |- *. simpl key_vals in *. destruct is_root; len.
  - rewrite Hen, He'. solve_Permutation.
  - rewrite Hwo, He', left_part_snoc by done. rewrite without_cons_eq.
    rewrite without_notin by set_solver. rewrite <- !app_assoc. done.
  - intros r0. apply del_child_ok; [done|lia|]. rewrite He'. by eapply sorted_replace_first.
Qed.

Lemma del_merge lv ks1 ks2 cs1 l r cs2 (is_root : bool) o :
  let node := FNode FSM_INDEX_NODE lv (ks1 ++ key :: ks2) (cs1 ++ l :: r :: cs2) in
  wf (S h) node -> length cs1 = length ks1 -> length cs2 = length ks2 ->
  ((if is_root then 1 else order) <= nr_active node <= max_keys)%nat ->
  StronglySorted klt (elems node) ->
  nr_active l = (order - 1)%nat -> nr_active r = (order - 1)%nat ->
  del_post key (S h) is_root (elems node) o
    (match merge_nodes l key r o with
     | (None, o) => Some (- ENOMEM, Some node, o)
     | (Some comb_node, o) =>
       descend is_root (FNode FSM_INDEX_NODE lv (ks1 ++ ks2)
         (cs1 ++ comb_node :: cs2)) (length ks1) o
     end).
Proof.
  intros node Hwf H1 H2 Hn Hs Hnl Hnr.
  pose proof Hwf as (Hlv & _ & Hlen & (Hc1 & [_ Hlw] & [_ Hrw] & Hc2)%Forall_app_cons_cons)%wf_index.
  destruct l as [tl ll lks lcs], r as [tr lr rks rcs].
  unfold merge_nodes, allocate_btree_node. pose proof (plenty_alloc o) as Hp.
  destruct (alloc o) as [[] o'].
  2:{ apply del_post_unchanged; try done; [destruct is_root; lia| |right; split; [done|]];
        by intros (? & ? & ?)%Hp. }
  destruct (merged_wf h tl ll key lks rks lcs rcs tr lr Hlw Hrw) as [Hwm Hem].
  set (m := FNode tl ll (lks ++ key :: rks) (lcs ++ rcs)) in *.
  assert (nr_active m = max_keys) as Hnm
    by (unfold nr_active, m in *; simpl key_vals in *; rewrite max_keys_eq; len).
  pose proof (elems_child FSM_INDEX_NODE lv ks1 ks2 cs1 m cs2 H1) as He.
  unfold node in Hs |- *. rewrite elems_two in Hs |- * by done. rewrite <- Hem in Hs |- *.
  apply delete_child_spec; try done.
  - apply wf_index. split_and!; try done; [len|].
    apply Forall_app. split; [done|]. constructor; [|done]. split; [|done].
    rewrite Hnm, max_keys_eq. lia.
  - unfold nr_active in Hn |- *. simpl key_vals in *. destruct is_root; len.
  - by rewrite He.
  - pose proof Hs as Hs'. rewrite Hem in Hs' |- *.
    rewrite <- (app_assoc (elems _)), (app_assoc (left_part _ _)) in Hs' |- *.
    rewrite <- app_comm_cons in Hs' |- *.
    destruct (without_around _ _ _ Hs') as (Hi1 & Hi2 & ->).
    rewrite without_mid; [|set_solver..]. by rewrite <- !app_assoc.
  - by intros (? & [= <-] & ?)%Hp.
  - intros r0. apply del_child_ok; [done|rewrite Hnm, max_keys_eq; lia|].
    by apply SSorted_app in Hs as (_ & (? & _ & _)%SSorted_app & _).
Qed.
End loop_step.

Lemma del_leaf key lv ks1 ks2 (is_root : bool) o :
  let node := FNode FSM_LEAF_NODE lv (ks1 ++ key :: ks2) [] in
  wf 0 node -> ((if is_root then 1 else order) <= nr_active node <= max_keys)%nat ->
  StronglySorted klt (elems node) ->
  del_post key 0 is_root (elems node) o
    (match remove_key_from_leaf is_root node (length ks1) with
     | None => None
     | Some (ret, n) => Some (ret, n, o)
     end).
Proof.
  intros node Hwf Hn Hs. destruct (without_around _ _ _ Hs) as (_ & _ & Hwo).
  unfold nr_active in Hn; simpl key_vals in Hn.
  assert (ks1 ++ ks2 = [] /\ is_root = true /\
      remove_key_from_leaf is_root node (length ks1) = Some (0, None) \/
    ks1 ++ ks2 <> [] /\
      remove_key_from_leaf is_root node (length ks1) =
        Some (0, Some (FNode FSM_LEAF_NODE lv (ks1 ++ ks2) []))) as Hr.
  { unfold remove_key_from_leaf. rewrite <- (mid_delete (length ks1) ks1 key ks2) by done.
    destruct ks1 as [|x [|]], ks2 as [|y ?]; try (right; done).
    left. destruct is_root; [done|len]. }
  apply wf_leaf in Hwf as (-> & _ & _).
  destruct Hr as [(E & -> & ->)|[E ->]].
  - exists 0, None, o. do 2 (split; [done|]). split_and!; try done. unfold node. by simpl; rewrite Hwo.
  - eexists 0, (Some _), o. do 2 (split; [done|]). split; [by exists 0%nat|].
    split; [|left; split; [done|]; unfold node; by simpl; rewrite Hwo].
    unfold nr_active; simpl key_vals. destruct (ks1 ++ ks2) eqn:E'; [done|].
    apply (f_equal length) in E'. destruct is_root; len.
Qed.

Lemma del_loop_spec key fuel : forall h, (h < fuel)%nat -> del_ok key h fuel.
Proof.
  induction fuel as [|fuel IH]; intros h Hh is_root [ty lv ks cs] o Hwf Hn Hs; [lia|].
  pose proof (keys_sorted _ _ _ _ Hs) as Hks. cbn [del_loop].
  destruct (Nat.eqb_spec (length ks) 0) as [E|Hne].
  { unfold nr_active in Hn; simpl key_vals in Hn. destruct is_root; lia. }
  destruct (key_index_spec key ks Hks) as (ks1 & ks2 & -> & -> & Hk1 & Hk2).
  assert (match (ks1 ++ ks2) !! length ks1 with
          | Some k => fsm_btree_cmp_fn key k =? 0 | None => false end = true /\
            (exists ks2', ks2 = key :: ks2') \/
          match (ks1 ++ ks2) !! length ks1 with
          | Some k => fsm_btree_cmp_fn key k =? 0 | None => false end = false /\
          match ks2 with [] => True | k2 :: _ => klt key k2 end) as Hf.
  { destruct ks2 as [|k2 ks2]; [rewrite app_nil_r, mid_lookup_end by done; by right|].
    rewrite mid_lookup by done. destruct Hk2 as [<-|Hk2]; [left; split; [by rewrite cmp_refl|eauto]|].
    right. split; [|done]. cmp_case key k2; try done; exfalso.
    by apply klt_irrefl in Hk2. }
  destruct Hf as [[-> (ks2' & ->)]|[-> Hk2']]; cbn [negb];
    destruct (wf_shape _ _ _ _ _ _ Hwf) as [(-> & -> & ->)|(Hh' & -> & Hl)].
  - rewrite bool_decide_eq_true_2 by done.
    destruct ((order - 1 <? length (ks1 ++ key :: ks2'))%nat || is_root) eqn:E; [by apply del_leaf|].
    apply orb_false_iff in E as [E%Nat.ltb_ge ->]. unfold nr_active in Hn; simpl key_vals in Hn. lia.
  - rewrite bool_decide_eq_false_2 by done. destruct h as [|h]; [lia|].
    destruct (wf_split_two _ _ _ _ _ _ (length ks1) Hwf)
      as (ks1' & k & ks2 & cs1 & l & r & cs2 & E & -> & H1 & H2 & H3); [len|].
    apply app_inj_1 in E as [<- [= <- <-]]; [|done]. mid.
    assert (del_ok key h fuel) as IH' by (apply IH; lia).
    pose proof Hwf as (_ & _ & _ & (_ & Hl1 & Hr1 & _)%Forall_app_cons_cons)%wf_index.
    destruct (more_or_least _ _ Hl1) as [Hln|Hln].
    { rewrite (proj2 (Nat.ltb_lt _ _)) by lia.
      destruct (del_pred fuel h key IH' ltac:(lia) lv ks1 ks2' cs1 l r cs2 is_root o)
        as (km & l' & -> & -> & Hp); try done. mid. exact Hp. }
    rewrite Hln, Nat.ltb_irrefl. destruct (more_or_least _ _ Hr1) as [Hrn|Hrn].
    { rewrite (proj2 (Nat.ltb_lt _ _)) by lia.
      destruct (del_succ fuel h key IH' ltac:(lia) lv ks1 ks2' cs1 l r cs2 is_root o)
        as (km & r' & -> & -> & Hp); try done. mid. exact Hp. }
    rewrite Hrn, Nat.ltb_irrefl, Nat.eqb_refl. cbn [andb].
    pose proof (del_merge fuel h key IH' ltac:(lia) lv ks1 ks2' cs1 l r cs2 is_root o) as Hp.
    destruct (merge_nodes l key r o) as [[m|] o']; [|by apply Hp].
    unfold join_at. mid. by apply Hp.
  - rewrite bool_decide_eq_true_2 by done. apply del_post_unchanged; try done.
    + destruct is_root; lia.
    + left. split; [done|]. simpl. rewrite not_elem_of_app. split; [by apply Forall_lt_notin|].
      destruct ks2 as [|k2 ks2]; [set_solver|]. apply Forall_gt_notin. constructor; [done|].
      apply (Forall_klt_trans_r k2); [done|]. by apply SSorted_app in Hks as (_ & [_ ?]%SSorted_cons & _).
  - rewrite bool_decide_eq_false_2 by done. destruct h as [|h]; [lia|].
    destruct (wf_split_child _ _ _ _ _ _ (length ks1) Hwf)
      as (ks1' & ks2' & cs1 & c & cs2 & E & -> & H1 & H2 & H3); [len|].
    apply app_inj_1 in E as [<- <-]; [|done].
    apply del_not_found; try done; [apply IH|]; lia.
Qed.

(** ** The whole operation *)
Lemma fsm_btree_delete_wf root key o :
  wf_root order root ->
  exists ret root' o', fsm_btree_delete order root key o = Some (ret, root', o') /\
    (plenty o -> plenty o') /\
    (ret = 0 /\ wf_root order root' /\ root_elems root' = without key (root_elems root) \/
     ret = - ENOMEM /\ ~ plenty o /\ root_elems root' ≡ₚ root_elems root).
Proof.
  destruct root as [| |n]; [|done|].
  - intros _. exists 0, RootNull, o. split_and!; try done. by left.
  - intros ((h & Hwf) & Hn & Hs). simpl.
    destruct (del_loop_spec key (depth n) h) with (is_root := true) (n := n) (o := o)
      as (ret & n' & o' & -> & Ho & Hp); try done; [by eapply wf_depth|].
    destruct n' as [n'|].
    + destruct Hp as ((h' & Hw & _) & Hn' & Hr). exists ret, (RootNode n'), o'.
      split_and!; try done. simpl. destruct Hr as [[-> Hr]|Hr]; [left|by right].
      split_and!; try done; [by exists h'|lia..|]. rewrite Hr. by apply without_sorted.
    + destruct Hp as (_ & -> & Hp). exists 0, RootNull, o'. split_and!; try done. left.
      by rewrite Hp.
Qed.
End delete.
