(* ===== verification/FsmAlloc.v ===== *)
(** * The free-space B-tree: freeing and allocating extents

    [fsm_btree_free], [fsm_btree_lookup] and [fsm_btree_destroy] on a tree
    whose keys are disjoint extents of blocks: freeing adds exactly the freed
    blocks, a lookup takes exactly the blocks it returns and fails only when no
    extent is long enough, and the destruction frees every node once. *)

From S2P Require Import Prelude FsmBtree FsmBtreeInv FsmBtreeInsert FsmBtreeDelete.
Open Scope Z_scope.

(** ** Extents *)

(** The block [b] belongs to the extent [k]. *)
Definition in_extent (b : Z) (k : fsm_btree_key) : Prop :=
  block_offset k <= b < block_offset k + key_length k.

Definition covered (l : list fsm_btree_key) (b : Z) : Prop :=
  exists k, k ∈ l /\ in_extent b k.

(** Non-empty extents of blocks other than block 0, which a lookup returns
    when it fails, within the 64-bit range. *)
Definition extent_ok (k : fsm_btree_key) : Prop :=
  0 < block_offset k /\ 0 < key_length k /\ block_offset k + key_length k < 2 ^ 64.

Definition disjoint_extents (a b : fsm_btree_key) : Prop :=
  block_offset a + key_length a <= block_offset b \/
  block_offset b + key_length b <= block_offset a.

Definition extents (l : list fsm_btree_key) : Prop :=
  NoDup l /\ Forall extent_ok l /\
  forall a b, a ∈ l -> b ∈ l -> a <> b -> disjoint_extents a b.

#[export] Instance extents_proper : Proper (Permutation ==> iff) extents.
Proof.
  assert (forall l l', l ≡ₚ l' -> extents l -> extents l') as H.
  { intros l l' E (H1 & H2 & H3). split; [by rewrite <- E|]. split; [by rewrite <- E|].
    intros a b. rewrite <- E. apply H3. }
  intros l l' E. split; apply H; by rewrite ?E.
Qed.

#[export] Instance covered_proper : Proper (Permutation ==> eq ==> iff) covered.
Proof. intros l l' E b _ <-. unfold covered. by setoid_rewrite E. Qed.

Lemma covered_cons k l b : covered (k :: l) b <-> in_extent b k \/ covered l b.
Proof. unfold covered. set_solver. Qed.

Lemma extents_cons k l :
  extents (k :: l) <->
  extent_ok k /\ extents l /\ forall a, a ∈ l -> disjoint_extents a k.
Proof.
  split.
  - intros ([Hk Hn]%NoDup_cons & [Hok Hl]%Forall_cons & Hd). split; [done|]. split.
    + split_and!; try done. intros a b ??. apply Hd; set_solver.
    + intros a Ha. apply Hd; set_solver.
  - intros (Hok & (Hn & Hl & Hd) & Hk). split_and!.
    + apply NoDup_cons. split; [|done]. intros Hin. apply Hk in Hin.
      unfold disjoint_extents, extent_ok in *. lia.
    + by constructor.
    + intros a b [->|Ha]%elem_of_cons [->|Hb]%elem_of_cons Hne; try done; [|by apply Hk|by apply Hd].
      apply Hk in Hb. unfold disjoint_extents in *. lia.
Qed.

Lemma extent_in_perm (k : fsm_btree_key) l :
  NoDup l -> k ∈ l -> l ≡ₚ k :: without k l.
Proof.
  intros Hn (l1 & l2 & ->)%list_elem_of_split.
  apply NoDup_app in Hn as (H1 & H2 & H3). apply NoDup_cons in H3 as [H3 _].
  rewrite without_mid; [by rewrite Permutation_middle| |done].
  intros Hin. apply (H2 k Hin). set_solver.
Qed.

(** Taking the first [len] blocks of an extent. *)
Lemma extents_take_front k l len :
  extents (k :: l) -> 0 < len < key_length k ->
  extents (take_front k len :: l) /\ take_front k len ∉ l /\
  forall b, covered (take_front k len :: l) b <->
    covered (k :: l) b /\ ~ block_offset k <= b < block_offset k + len.
Proof.
  intros (Hok & Hl & Hd)%extents_cons Hlen.
  assert (take_front k len = FKey (block_offset k + len) (key_length k - len)) as ->.
  { unfold take_front, extent_ok in *. by rewrite !uwrap_small by lia. }
  assert (forall a, a ∈ l -> disjoint_extents a (FKey (block_offset k + len) (key_length k - len))) as Hd'.
  { intros a Ha%Hd. unfold disjoint_extents in *; simpl. lia. }
  split; [|split].
  - apply extents_cons. unfold extent_ok in *; simpl. split_and!; try done; lia.
  - intros Hin. apply Hd' in Hin. unfold disjoint_extents in Hin; simpl in Hin. lia.
  - intros b. rewrite !covered_cons. unfold in_extent at 1 2. simpl. split.
    + intros [H|H]; [split; [by left; lia|lia]|]. split; [by right|].
      destruct H as (a & Ha & Hb). apply Hd in Ha. unfold disjoint_extents, in_extent in *. lia.
    + intros [[H|H] Hn]; [left; lia|by right].
Qed.

Lemma covered_drop k l b :
  extents (k :: l) -> covered l b <-> covered (k :: l) b /\ ~ in_extent b k.
Proof.
  intros (Hok & Hl & Hd)%extents_cons. rewrite covered_cons. split; [|tauto].
  intros H. split; [by right|]. destruct H as (a & Ha & Hb). apply Hd in Ha.
  unfold disjoint_extents, in_extent in *. lia.
Qed.

(** ** Walks of the whole tree *)
Lemma interleave_perm es ks : interleave es ks ≡ₚ ks ++ concat es.
Proof.
  revert ks. induction es as [|e es IH]; intros [|k ks]; simpl; rewrite ?app_nil_r; try done.
  - by rewrite IH.
  - rewrite IH. solve_Permutation.
Qed.

Definition queue_elems (queue : list fnode) : list fsm_btree_key :=
  concat (map elems queue).

Definition queue_count (queue : list fnode) : nat :=
  foldr (fun c m => (node_count c + m)%nat) 0%nat queue.

(** The nodes of a tree. *)
Fixpoint all_nodes (n : fnode) : list fnode :=
  let 'FNode _ _ _ cs := n in n :: concat (map all_nodes cs).

Definition queue_nodes (queue : list fnode) : list fnode := concat (map all_nodes queue).

Lemma queue_count_app q1 q2 :
  queue_count (q1 ++ q2) = (queue_count q1 + queue_count q2)%nat.
Proof. induction q1 as [|n q1 IH]; [done|]. simpl. unfold queue_count in *. rewrite IH. lia. Qed.

Lemma queue_count_cons ty lv ks cs q :
  queue_count (FNode ty lv ks cs :: q) = S (queue_count cs + queue_count q).
Proof. done. Qed.

Lemma queue_elems_app q1 q2 : queue_elems (q1 ++ q2) = queue_elems q1 ++ queue_elems q2.
Proof. unfold queue_elems. by rewrite map_app, concat_app. Qed.

Lemma queue_nodes_app q1 q2 : queue_nodes (q1 ++ q2) = queue_nodes q1 ++ queue_nodes q2.
Proof. unfold queue_nodes. by rewrite map_app, concat_app. Qed.

Section walks.
Variable order : nat.
Abbreviation wf := (wf order).

(** A queue of the level-order walks. *)
Definition wf_queue (queue : list fnode) : Prop := Forall (fun n => exists h, wf h n) queue.

Lemma wf_queue_children ty lv ks cs queue :
  wf_queue (FNode ty lv ks cs :: queue) ->
  ty = FSM_LEAF_NODE /\ cs = [] /\ wf_queue queue \/
  ty = FSM_INDEX_NODE /\ length cs = S (length ks) /\ wf_queue (queue ++ cs).
Proof.
  intros [(h & Hwf) Hq]%Forall_cons. destruct h as [|h].
  - apply wf_leaf in Hwf as (_ & -> & ->). by left.
  - apply wf_index in Hwf as (_ & -> & Hl & Hc). right. split_and!; try done.
    apply Forall_app. split; [done|]. eapply Forall_impl; [exact Hc|].
    intros c [_ Hw]. by exists h.
Qed.

Lemma first_fit_spec len ks :
  match first_fit len ks with
  | Some k => k ∈ ks /\ len <= key_length k
  | None => Forall (fun k => key_length k < len) ks
  end.
Proof.
  induction ks as [|k ks IH]; simpl; [constructor|].
  destruct (Z.eqb_spec len (key_length k)) as [E|E]; [split; [set_solver|lia]|].
  destruct (Z.ltb_spec len (key_length k)); [split; [set_solver|lia]|].
  destruct (first_fit len ks); [set_solver|]. constructor; [lia|done].
Qed.

Lemma lookup_level_spec len fuel : forall queue,
  wf_queue queue -> (queue_count queue <= fuel)%nat ->
  exists r, lookup_level fuel len queue = Some r /\
    match r with
    | Some k => k ∈ queue_elems queue /\ len <= key_length k
    | None => Forall (fun k => key_length k < len) (queue_elems queue)
    end.
Proof.
  induction fuel as [|fuel IH]; intros [|[ty lv ks cs] queue] Hq Hf;
    try (eexists; split; [done|constructor]); [simpl in Hf; lia|].
  change (queue_elems (FNode ty lv ks cs :: queue))
    with (interleave (map elems cs) ks ++ queue_elems queue).
  cbn [lookup_level]. pose proof (first_fit_spec len ks) as Hff.
  destruct (first_fit len ks) as [k|].
  { eexists. split; [done|]. split; [|apply Hff]. rewrite interleave_perm. set_solver. }
  assert (exists r,
    (if bool_decide (ty = FSM_INDEX_NODE) then
       if (length cs =? length ks + 1)%nat then lookup_level fuel len (queue ++ cs) else None
     else lookup_level fuel len queue) = Some r /\
    match r with
    | Some k => k ∈ queue_elems (queue ++ cs) /\ len <= key_length k
    | None => Forall (fun k => key_length k < len) (queue_elems (queue ++ cs))
    end) as (r & -> & Hr).
  { apply wf_queue_children in Hq as [(-> & -> & Hq)|(-> & Hl & Hq)].
    - rewrite bool_decide_eq_false_2 by done. rewrite app_nil_r. apply IH; [done|].
      rewrite queue_count_cons in Hf. lia.
    - rewrite bool_decide_eq_true_2 by done. rewrite (proj2 (Nat.eqb_eq _ _)) by lia.
      apply IH; [done|]. rewrite queue_count_app. rewrite queue_count_cons in Hf. lia. }
  exists r. split; [done|]. rewrite queue_elems_app in Hr. destruct r as [k|].
  - split; [|apply Hr]. rewrite interleave_perm. destruct Hr as [Hr _].
    unfold queue_elems in *. set_solver.
  - rewrite interleave_perm. apply Forall_app in Hr as [Hr1 Hr2].
    apply Forall_app. split; [|done]. by apply Forall_app.
Qed.

(** Every node is freed, and freed once. *)
Lemma destroy_level_spec fuel : forall queue,
  wf_queue queue -> (queue_count queue <= fuel)%nat ->
  exists ns, destroy_level fuel queue = Some ns /\ ns ≡ₚ queue_nodes queue.
Proof.
  induction fuel as [|fuel IH]; intros [|[ty lv ks cs] queue] Hq Hf;
    try (eexists; split; [done|constructor]); [simpl in Hf; lia|].
  cbn [destroy_level].
  assert (exists ns,
    (if bool_decide (ty = FSM_INDEX_NODE) then
       if (length cs =? length ks + 1)%nat then destroy_level fuel (queue ++ cs) else None
     else destroy_level fuel queue) = Some ns /\ ns ≡ₚ queue_nodes (queue ++ cs))
    as (ns & -> & Hns).
  { apply wf_queue_children in Hq as [(-> & -> & Hq)|(-> & Hl & Hq)].
    - rewrite bool_decide_eq_false_2 by done. rewrite app_nil_r. apply IH; [done|].
      rewrite queue_count_cons in Hf. lia.
    - rewrite bool_decide_eq_true_2 by done. rewrite (proj2 (Nat.eqb_eq _ _)) by lia.
      apply IH; [done|]. rewrite queue_count_app. rewrite queue_count_cons in Hf. lia. }
  eexists. split; [done|]. rewrite Hns, queue_nodes_app.
  unfold queue_nodes. simpl. solve_Permutation.
Qed.

(** ** The search at the requested place *)
Lemma offset_index_spec off ks :
  exists ks1 ks2, ks = ks1 ++ ks2 /\ offset_index off ks = length ks1 /\
    Forall (fun k => block_offset k < off) ks1 /\
    match ks2 with [] => True | k2 :: _ => off <= block_offset k2 end.
Proof.
  induction ks as [|k ks (ks1 & ks2 & -> & IH1 & IH2 & IH3)]; simpl; [by exists [], []|].
  rewrite Z.gtb_ltb. destruct (Z.ltb_spec (block_offset k) off).
  - exists (k :: ks1), ks2. rewrite IH1. split_and!; try done. by constructor.
  - exists [], (k :: ks1 ++ ks2). split_and!; try done.
Qed.

(** No extent at [off] is long enough. *)
Definition none_at (off len : Z) (l : list fsm_btree_key) : Prop :=
  forall k, k ∈ l -> block_offset k = off -> key_length k < len.

Definition offsets_inj (l : list fsm_btree_key) : Prop :=
  Forall extent_ok l /\
  forall a b, a ∈ l -> b ∈ l -> block_offset a = block_offset b -> a = b.

Lemma offsets_inj_sub l l' : (forall k, k ∈ l -> k ∈ l') -> offsets_inj l' -> offsets_inj l.
Proof.
  intros Hs [H1 H2]. split; [|naive_solver].
  rewrite Forall_forall in H1 |- *. naive_solver.
Qed.

Lemma extents_offsets_inj l : extents l -> offsets_inj l.
Proof.
  intros (_ & Hl & Hd). split; [done|]. intros a b Ha Hb E.
  destruct (decide (a = b)) as [|Hne]; [done|]. specialize (Hd a b Ha Hb Hne).
  rewrite Forall_forall in Hl. apply Hl in Ha, Hb.
  unfold disjoint_extents, extent_ok in *. lia.
Qed.

Lemma none_at_left off len ks1 cs1 rest :
  StronglySorted klt (left_part cs1 ks1 ++ rest) -> length cs1 = length ks1 ->
  Forall extent_ok (left_part cs1 ks1) ->
  Forall (fun k => block_offset k < off) ks1 -> none_at off len (left_part cs1 ks1).
Proof.
  intros Hs Hl Hok Hk x Hx E.
  assert (klt x (FKey off 0)) as H.
  { assert (Forall (fun x => klt x (FKey off 0)) (left_part cs1 ks1)) as H;
      [|rewrite Forall_forall in H; auto].
    eapply left_part_lt; [done..|]. eapply Forall_impl; [exact Hk|]. unfold klt; simpl. lia. }
  rewrite Forall_forall in Hok. apply Hok in Hx. unfold klt, extent_ok in *; simpl in *. lia.
Qed.

Lemma none_at_right off len ks2 cs2 :
  StronglySorted klt (right_part ks2 cs2) -> (ks2 = [] -> cs2 = []) ->
  offsets_inj (right_part ks2 cs2) ->
  match ks2 with
  | [] => True
  | k2 :: _ => off <= block_offset k2 /\ (off = block_offset k2 -> key_length k2 < len)
  end -> none_at off len (right_part ks2 cs2).
Proof.
  intros Hs Hl [_ Hi] Hk x Hx E. destruct ks2 as [|k2 ks2].
  { rewrite Hl in Hx by done. by apply elem_of_nil in Hx. }
  destruct Hk as [Hk1 Hk2]. simpl in Hs. apply SSorted_cons in Hs as [_ Hs].
  rewrite Forall_forall in Hs.
  assert (x = k2 -> key_length x < len) as Hx2 by (intros ->; auto).
  pose proof Hx as Hx'. simpl in Hx'. apply elem_of_cons in Hx' as [Hx'|Hx']; [auto|].
  apply Hs in Hx'. apply Hx2, Hi; [done|simpl; set_solver|]. unfold klt in Hx'. lia.
Qed.

Lemma lookup_walk_spec off len fuel : forall h n,
  wf h n -> (h < fuel)%nat -> StronglySorted klt (elems n) -> offsets_inj (elems n) ->
  exists r, lookup_walk fuel off len n = Some r /\
    match r with
    | Some k => k ∈ elems n /\ block_offset k = off /\ len <= key_length k
    | None => none_at off len (elems n)
    end.
Proof.
  induction fuel as [|fuel IH]; intros h [ty lv ks cs] Hwf Hf Hs Hi; [lia|].
  cbn [lookup_walk]. destruct (offset_index_spec off ks) as (ks1 & ks2 & -> & -> & Hk1 & Hk2).
  assert ((exists k ks2', ks2 = k :: ks2' /\ block_offset k = off /\ len <= key_length k /\
      forall A (x y : A), match (ks1 ++ ks2) !! length ks1 with
        | Some k => if (off =? block_offset k) && (len <=? key_length k) then y else x
        | None => x end = y) \/
    match ks2 with
    | [] => True
    | k2 :: _ => off <= block_offset k2 /\ (off = block_offset k2 -> key_length k2 < len)
    end /\
    forall A (x : A) y, match (ks1 ++ ks2) !! length ks1 with
        | Some k => if (off =? block_offset k) && (len <=? key_length k) then y k else x
        | None => x end = x) as Hm.
  { destruct ks2 as [|k ks2]; [right; by rewrite app_nil_r, mid_lookup_end|].
    rewrite mid_lookup by done. destruct (Z.eqb_spec off (block_offset k)) as [E|E].
    - destruct (Z.leb_spec len (key_length k)); [left; by exists k, ks2|right; done].
    - right. done. }
  destruct Hm as [(k & ks2' & -> & Ho & Hlen & _)|[Hk2' Hm]].
  { rewrite mid_lookup by done. rewrite (proj2 (Z.eqb_eq _ _)), (proj2 (Z.leb_le _ _)) by done.
    eexists. split; [done|]. split; [|done]. apply key_in_elems. set_solver. }
  rewrite (Hm _ _ (fun k => Some (Some k))).
  destruct (wf_shape _ _ _ _ _ _ Hwf) as [(-> & -> & ->)|(Hh & -> & _)].
  - rewrite bool_decide_eq_true_2 by done. eexists. split; [done|]. simpl in Hs, Hi |- *.
    intros x [Hx|Hx]%elem_of_app E; [rewrite Forall_forall in Hk1; apply Hk1 in Hx; lia|].
    assert (right_part ks2 [] = ks2) as Er by (by destruct ks2).
    rewrite <- Er in Hx. revert x Hx E. apply none_at_right; rewrite ?Er; try done.
    + by apply SSorted_app in Hs as (_ & ? & _).
    + eapply offsets_inj_sub; [|exact Hi]. set_solver.
  - rewrite bool_decide_eq_false_2 by done. destruct h as [|h]; [lia|].
    destruct (wf_split_child _ _ _ _ _ _ (length ks1) Hwf)
      as (ks1' & ks2' & cs1 & c & cs2 & E & -> & H1 & H2 & H3); [len|].
    apply app_inj_1 in E as [<- <-]; [|done]. mid. rewrite elems_child in * by done.
    pose proof Hwf as (_ & _ & _ & [_ [[_ Hc] _]%Forall_cons]%Forall_app)%wf_index.
    pose proof Hs as (_ & (Hs1 & Hs2 & _)%SSorted_app & _)%SSorted_app.
    destruct (IH h c) as (r & Er & Hr); try done; [lia| |].
    { eapply offsets_inj_sub; [|exact Hi]. set_solver. }
    exists r. split; [done|]. destruct r as [k|]; [set_solver|].
    intros x [Hx|[Hx|Hx]%elem_of_app]%elem_of_app; revert x Hx; [|done|].
    + eapply none_at_left; try done. destruct Hi as [Hi _]. by apply Forall_app in Hi as [? _].
    + apply none_at_right; try done.
      * intros ->. by destruct cs2.
      * eapply offsets_inj_sub; [|exact Hi]. set_solver.
Qed.
End walks.

Section alloc.
Variable order : nat.
Hypothesis order_ge : (2 <= order)%nat.
Abbreviation wf_root := (wf_root order).

(** Deletion and insertion when no allocation fails. *)
Lemma delete_plenty root k o :
  wf_root root -> plenty o ->
  exists root' o', fsm_btree_delete order root k o = Some (0, root', o') /\
    plenty o' /\ wf_root root' /\ root_elems root' = without k (root_elems root).
Proof.
  intros Hr Ho.
  destruct (fsm_btree_delete_wf order order_ge root k o Hr)
    as (ret & root' & o' & E & Ho' & [(-> & Hw & He)|(_ & ? & _)]); [|done].
  exists root', o'. split_and!; auto.
Qed.

Lemma insert_plenty root k o :
  wf_root root -> plenty o -> k ∉ root_elems root ->
  exists root' o', fsm_btree_insert order root k o = Some (0, root', o') /\
    plenty o' /\ wf_root root' /\ root_elems root' ≡ₚ k :: root_elems root.
Proof.
  intros Hr Ho Hk.
  destruct (fsm_btree_insert_plenty order order_ge root k o Hr Ho)
    as (err & root' & o' & E & Ho' & Hw & [[-> Hi]|(_ & ? & _)]); [|done].
  exists root', o'. split_and!; try done. by apply inserted_perm.
Qed.

(** ** Allocation *)

(** The blocks [r], ..., [r + len - 1] leave the free space. *)
Definition taken (l l' : list fsm_btree_key) (r len : Z) : Prop :=
  extents l' /\
  (forall b, r <= b < r + len -> covered l b) /\
  (forall b, covered l' b <-> covered l b /\ ~ r <= b < r + len).

Lemma extents_pick k l : extents l -> k ∈ l ->
  l ≡ₚ k :: without k l /\ extents (k :: without k l) /\ extent_ok k.
Proof.
  intros Hl Hk. pose proof Hl as (Hn & Hok & _).
  pose proof (extent_in_perm k l Hn Hk) as E. split; [done|]. rewrite <- E. split; [done|].
  rewrite Forall_forall in Hok. auto.
Qed.

Lemma taken_whole k l : extents l -> k ∈ l ->
  taken l (without k l) (block_offset k) (key_length k).
Proof.
  intros Hl Hk. destruct (extents_pick k l Hl Hk) as (E & Hk1 & Hok).
  split; [by apply extents_cons in Hk1 as (_ & ? & _)|]. split.
  - intros b Hb. exists k. done.
  - intros b. rewrite (covered_drop k) by done. by rewrite <- E.
Qed.

Lemma taken_front k l l' len : extents l -> k ∈ l -> 0 < len < key_length k ->
  l' ≡ₚ take_front k len :: without k l -> taken l l' (block_offset k) len.
Proof.
  intros Hl Hk Hlen E'. destruct (extents_pick k l Hl Hk) as (E & Hk1 & Hok).
  destruct (extents_take_front k _ len Hk1 Hlen) as (H1 & _ & H3).
  split; [by rewrite E'|]. split.
  - intros b Hb. exists k. unfold in_extent. split; [done|lia].
  - intros b. rewrite E', H3. by rewrite <- E.
Qed.

Lemma take_front_fresh k l len : extents l -> k ∈ l -> 0 < len < key_length k ->
  take_front k len ∉ without k l.
Proof.
  intros Hl Hk Hlen. destruct (extents_pick k l Hl Hk) as (E & Hk1 & Hok).
  by destruct (extents_take_front k _ len Hk1 Hlen) as (_ & ? & _).
Qed.

(** The common end of both searches. *)
Lemma take_extent root k len o :
  wf_root root -> extents (root_elems root) -> k ∈ root_elems root ->
  0 < len <= key_length k -> plenty o ->
  exists root1 o1, fsm_btree_delete order root k o = Some (0, root1, o1) /\
    (len = key_length k /\ plenty o1 /\ wf_root root1 /\
       taken (root_elems root) (root_elems root1) (block_offset k) len \/
     len < key_length k /\
       exists root2 o2, fsm_btree_insert order root1 (take_front k len) o1 =
           Some (0, root2, o2) /\ plenty o2 /\ wf_root root2 /\
         taken (root_elems root) (root_elems root2) (block_offset k) len).
Proof.
  intros Hr Hl Hk Hlen Ho.
  destruct (delete_plenty root k o Hr Ho) as (root1 & o1 & -> & Ho1 & Hr1 & E1).
  exists root1, o1. split; [done|]. destruct (Z.eq_dec len (key_length k)) as [->|Hne].
  - left. split_and!; try done. rewrite E1. by apply taken_whole.
  - right. split; [lia|].
    destruct (insert_plenty root1 (take_front k len) o1 Hr1 Ho1) as (root2 & o2 & -> & Ho2 & Hr2 & E2).
    { rewrite E1. apply take_front_fresh; try done. lia. }
    exists root2, o2. split_and!; try done. apply (taken_front k); [done..|lia|by rewrite E2, E1].
Qed.

Lemma fsm_btree_lookup_wf root off len o :
  wf_root root -> extents (root_elems root) -> 0 < len -> plenty o ->
  exists r root' o', fsm_btree_lookup order root off len o = Some (r, root', o') /\
    plenty o' /\ wf_root root' /\
    (r = 0 /\ root' = root /\ Forall (fun k => key_length k < len) (root_elems root) \/
     0 < r /\ taken (root_elems root) (root_elems root') r len /\
       (r = off \/ none_at off len (root_elems root))).
Proof.
  intros Hr Hl Hlen Ho. unfold fsm_btree_lookup. destruct root as [| |n]; [|done|].
  { exists 0, RootNull, o. split_and!; try done. by left. }
  pose proof Hr as ((h & Hwf) & _ & Hs). simpl in Hl.
  destruct (lookup_walk_spec order off len (depth n) h n) as (r & -> & Hwalk); try done;
    [by eapply wf_depth|by apply extents_offsets_inj|].
  destruct r as [k|].
  - destruct Hwalk as (Hk & <- & Hle).
    assert (0 < block_offset k) as Hpos
      by (destruct Hl as (_ & Hok & _); rewrite Forall_forall in Hok; by apply Hok in Hk as (? & _)).
    destruct (take_extent (RootNode n) k len o Hr Hl Hk ltac:(lia) Ho)
      as (root1 & o1 & -> & [(-> & Ho1 & Hr1 & Ht)|(Hlt & root2 & o2 & E2 & Ho2 & Hr2 & Ht)]);
      cbn [negb Z.eqb].
    + rewrite Z.ltb_irrefl. exists (block_offset k), root1, o1. split_and!; try done. right. auto.
    + rewrite (proj2 (Z.ltb_lt _ _)) by done. rewrite E2. cbn [negb Z.eqb].
      exists (block_offset k), root2, o2. split_and!; try done. right. auto.
  - destruct (lookup_level_spec order len (node_count n) [n]) as (r & -> & Hlev).
    { by constructor; [exists h|]. }
    { simpl. lia. }
    unfold queue_elems in Hlev. simpl in Hlev. rewrite app_nil_r in Hlev.
    destruct r as [k|].
    2:{ exists 0, (RootNode n), o. split_and!; try done. by left. }
    destruct Hlev as [Hk Hle].
    assert (0 < block_offset k) as Hpos
      by (destruct Hl as (_ & Hok & _); rewrite Forall_forall in Hok; by apply Hok in Hk as (? & _)).
    destruct (take_extent (RootNode n) k len o Hr Hl Hk ltac:(lia) Ho)
      as (root1 & o1 & -> & [(-> & Ho1 & Hr1 & Ht)|(Hlt & root2 & o2 & E2 & Ho2 & Hr2 & Ht)]).
    + rewrite Z.eqb_refl. exists (block_offset k), root1, o1. split_and!; try done. right. auto.
    + rewrite (proj2 (Z.eqb_neq _ _)) by lia. rewrite E2.
      exists (block_offset k), root2, o2. split_and!; try done. right. auto.
Qed.

(** ** Freeing *)

Lemma free_scan_spec off len ks i :
  match free_scan off len ks i with
  | Some (j, inl k) => exists d, j = (i + d)%nat /\ ks !! d = Some k /\
      off = u64 (block_offset k + key_length k)
  | Some (j, inr k) => k ∈ ks /\ u64 (off + len) = block_offset k
  | None => True
  end.
Proof.
  revert i. induction ks as [|k ks IH]; intros i; [done|]. cbn [free_scan].
  destruct (Z.eqb_spec off (u64 (block_offset k + key_length k))) as [E|_].
  { exists 0%nat. split; [lia|done]. }
  destruct (Z.eqb_spec (u64 (off + len)) (block_offset k)) as [E|_]; [set_solver|].
  specialize (IH (S i)). destruct (free_scan off len ks (S i)) as [[j [k'|k']]|]; [|set_solver|done].
  destruct IH as (d & -> & H). exists (S d). split; [lia|done].
Qed.

(** A key overwritten in its place. *)
Lemma elems_key_update h ty lv ks cs i k :
  wf order h (FNode ty lv ks cs) -> ks !! i = Some k ->
  exists l1 l2, elems (FNode ty lv ks cs) = l1 ++ k :: l2 /\ forall k',
    elems (FNode ty lv (<[i:=k']> ks) cs) = l1 ++ k' :: l2 /\
    wf order h (FNode ty lv (<[i:=k']> ks) cs).
Proof.
  intros Hwf Hi. pose proof (lookup_lt_Some _ _ _ Hi) as Hlt. destruct h as [|h].
  - pose proof Hwf as (-> & -> & ->)%wf_leaf.
    destruct (list_split_mid i ks Hlt) as (ks1 & x & ks2 & -> & E).
    rewrite mid_lookup in Hi by done. injection Hi as ->. exists ks1, ks2. split; [done|].
    intros k'. by rewrite mid_insert by done.
  - destruct (wf_split_two _ _ _ _ _ _ i Hwf Hlt)
      as (ks1 & x & ks2 & cs1 & l & r & cs2 & -> & -> & H1 & H2 & H3).
    rewrite mid_lookup in Hi by done. injection Hi as ->.
    exists (left_part cs1 ks1 ++ elems l), (elems r ++ right_part ks2 cs2).
    split; [rewrite elems_two by lia; by rewrite <- !app_assoc|].
    intros k'. rewrite mid_insert by done. split.
    + rewrite elems_two by lia. by rewrite <- !app_assoc.
    + apply wf_index in Hwf as (? & ? & ? & ?). apply wf_index. split_and!; try done. len.
Qed.

(** What the walk of [fsm_btree_free] did to the keys. *)
Definition free_post off len (l l' : list fsm_btree_key) (act : free_act) : Prop :=
  match act with
  | FreeNone => l' = l
  | FreeRight k => l' = l /\ k ∈ l /\ u64 (off + len) = block_offset k
  | FreeLeft a => exists l1 k l2 k', l = l1 ++ k :: l2 /\ l' = l1 ++ k' :: l2 /\
      off = u64 (block_offset k + key_length k) /\
      let k1 := FKey (block_offset k) (u64 (key_length k + len)) in
      match a with
      | None => k' = k1
      | Some kn => kn ∈ l /\ block_offset kn = u64 (block_offset k1 + key_length k1) /\
          k' = FKey (block_offset k) (u64 (key_length k1 + key_length kn))
      end
  end.

Lemma free_post_context off len l l' act a b :
  free_post off len l l' act -> free_post off len (a ++ l ++ b) (a ++ l' ++ b) act.
Proof.
  destruct act as [m|k|]; simpl; [|set_solver|by intros ->].
  intros (l1 & k & l2 & k' & -> & -> & E & Hm). exists (a ++ l1), k, (l2 ++ b), k'.
  rewrite <- !app_assoc. split_and!; try done. destruct m; [set_solver|done].
Qed.

Lemma free_walk_spec off len fuel : forall h n,
  wf order h n -> (h < fuel)%nat ->
  exists n' act, free_walk fuel off len n = Some (n', act) /\
    wf order h n' /\ nr_active n' = nr_active n /\
    free_post off len (elems n) (elems n') act.
Proof.
  induction fuel as [|fuel IH]; intros h [ty lv ks cs] Hwf Hf; [lia|].
  cbn [free_walk]. pose proof (free_scan_spec off len ks 0) as Hs.
  destruct (free_scan off len ks 0) as [[j [k|k]]|].
  - destruct Hs as (d & -> & Hd & Ho). simpl.
    destruct (elems_key_update _ _ _ _ _ _ _ Hwf Hd) as (l1 & l2 & He & Hup).
    pose (k1 := FKey (block_offset k) (u64 (key_length k + len))).
    assert (exists n' act,
      match ks !! S d with
      | Some kn =>
        if block_offset kn =? u64 (block_offset k + u64 (key_length k + len)) then
          Some (FNode ty lv (<[d := FKey (block_offset k)
            (u64 (u64 (key_length k + len) + key_length kn))]> ks) cs, FreeLeft (Some kn))
        else Some (FNode ty lv (<[d := k1]> ks) cs, FreeLeft None)
      | None => Some (FNode ty lv (<[d := k1]> ks) cs, FreeLeft None)
      end = Some (n', act) /\ exists k' a, n' = FNode ty lv (<[d := k']> ks) cs /\
      act = FreeLeft a /\
      match a with
      | None => k' = k1
      | Some kn => kn ∈ ks /\ block_offset kn = u64 (block_offset k1 + key_length k1) /\
          k' = FKey (block_offset k) (u64 (key_length k1 + key_length kn))
      end) as (n' & act & E & k' & a & -> & -> & Ha).
    { destruct (ks !! S d) as [kn|] eqn:Ekn.
      - destruct (Z.eqb_spec (block_offset kn)
          (u64 (block_offset k + u64 (key_length k + len)))) as [Eo|_].
        + do 2 eexists. split; [done|]. do 2 eexists. do 2 (split; [done|]). split; [|done].
          by apply list_elem_of_lookup_2 in Ekn.
        + do 2 eexists. split; [done|]. do 2 eexists. by split.
      - do 2 eexists. split; [done|]. do 2 eexists. by split. }
    do 2 eexists. split; [exact E|]. destruct (Hup k') as [He' Hw']. split; [done|].
    split; [unfold nr_active; simpl; len|].
    exists l1, k, l2, k'. split_and!; try done. destruct a as [kn|]; [|done].
    destruct Ha as (Hin & ? & ?). split_and!; try done. by apply (key_in_elems ty lv ks cs).
  - destruct Hs as [Hk Ho]. do 2 eexists. split; [done|]. split_and!; try done.
    split_and!; try done. by apply (key_in_elems ty lv ks cs).
  - destruct (wf_shape _ _ _ _ _ _ Hwf) as [(-> & -> & ->)|(Hh & -> & Hl)].
    { rewrite bool_decide_eq_true_2 by done. do 2 eexists. by split_and!. }
    rewrite bool_decide_eq_false_2 by done. destruct h as [|h]; [lia|].
    destruct (wf_split_child _ _ _ _ _ _ (length ks) Hwf)
      as (ks1 & ks2 & cs1 & c & cs2 & -> & -> & H1 & H2 & H3); [lia|].
    rewrite mid_lookup by done. pose proof Hwf as (? & ? & ? & Hc)%wf_index.
    apply Forall_app in Hc as [Hc1 [[Hcn Hcw] Hc2]%Forall_cons].
    destruct (IH h c) as (c' & act & -> & Hw' & Hn' & Hp); [done|lia|].
    do 2 eexists. split; [done|]. rewrite mid_insert by done.
    split; [apply wf_index; split_and!; try done; [len|]|split; [done|]].
    + apply Forall_app. split; [done|]. constructor; [|done]. split; [lia|done].
    + rewrite !elems_child by len. by apply free_post_context.
Qed.

(** The freed range as one more extent. *)
Lemma extents_fresh off len l :
  extents l -> 0 < off -> 0 < len -> off + len < 2 ^ 64 ->
  (forall b, off <= b < off + len -> ~ covered l b) -> extents (FKey off len :: l).
Proof.
  intros Hl Ho Hlen Hmax Hfree. apply extents_cons. split; [done|]. split; [done|].
  intros a Ha. pose proof Hl as (_ & Hok & _). rewrite Forall_forall in Hok.
  pose proof (Hok a Ha) as Ha'. unfold disjoint_extents, extent_ok in *; simpl.
  destruct (Z.le_gt_cases (block_offset a + key_length a) off); [by left|].
  destruct (Z.le_gt_cases (off + len) (block_offset a)); [by right|].
  exfalso. apply (Hfree (Z.max off (block_offset a))); [lia|].
  exists a. split; [done|]. unfold in_extent. lia.
Qed.

(** Two neighbouring extents become one. *)
Lemma extents_join a b l :
  extents (a :: b :: l) -> block_offset b = block_offset a + key_length a ->
  let c := FKey (block_offset a) (key_length a + key_length b) in
  extents (c :: l) /\ (forall x, covered (c :: l) x <-> covered (a :: b :: l) x).
Proof.
  intros (Ha & (Hb & Hl & Hbl)%extents_cons & Hal)%extents_cons E c. split.
  - apply extents_cons. unfold extent_ok, disjoint_extents, c in *; simpl.
    split_and!; try done; try lia. intros x Hx.
    specialize (Hbl x Hx). assert (x ∈ b :: l) as Hx' by set_solver. apply Hal in Hx'.
    pose proof Hl as (_ & Hok & _). rewrite Forall_forall in Hok. apply Hok in Hx.
    unfold extent_ok in *. lia.
  - intros x. rewrite !covered_cons. unfold in_extent, extent_ok, c in *; simpl.
    split; [intros [?|?]; [|tauto]|intros [?|[?|?]]; [..|tauto]]; [|left; lia..].
    destruct (Z.lt_ge_cases x (block_offset b)); [left|right; left]; lia.
Qed.

Lemma replace_sorted k k' l1 l2 :
  StronglySorted klt (l1 ++ k :: l2) -> offsets_inj (l1 ++ k :: l2) ->
  block_offset k' = block_offset k -> StronglySorted klt (l1 ++ k' :: l2).
Proof.
  intros Hs [_ Hi] E.
  destruct (without_around _ _ _ Hs) as (Hn1 & Hn2 & _).
  pose proof (sorted_mid _ _ _ Hs) as [H1 H2].
  apply SSorted_app in Hs as (Hs1 & [Hs2 _]%SSorted_cons & H12).
  rewrite Forall_forall in H1, H2.
  assert (forall x, x ∈ l1 ++ l2 -> block_offset x <> block_offset k) as Hne.
  { intros x Hx Ex. assert (x = k) as -> by (apply Hi; set_solver). set_solver. }
  apply SSorted_app. split; [done|]. split.
  - apply SSorted_cons. split; [done|]. rewrite Forall_forall. intros x Hx.
    specialize (H2 x Hx). specialize (Hne x ltac:(set_solver)). unfold klt in *. lia.
  - rewrite Forall_forall in H12 |- *. intros x Hx. pose proof (H12 x Hx) as Hx2.
    apply Forall_cons in Hx2 as [_ Hx2]. constructor; [|done].
    specialize (H1 x Hx). specialize (Hne x ltac:(set_solver)). unfold klt in *. lia.
Qed.

(** The blocks [off], ..., [off + len - 1] join the free space. *)
Definition given (l l' : list fsm_btree_key) (off len : Z) : Prop :=
  extents l' /\ forall b, covered l' b <-> covered l b \/ off <= b < off + len.

Lemma given_fresh off len l l' :
  extents (FKey off len :: l) -> l' ≡ₚ FKey off len :: l -> given l l' off len.
Proof.
  intros Hl E. split; [by rewrite E|]. intros b. rewrite E, covered_cons.
  unfold in_extent; simpl. tauto.
Qed.

(** The freed range joins the extent on its left, the one on its right. *)
Lemma given_left off len k rest l l' :
  extents (FKey off len :: l) -> l ≡ₚ k :: rest ->
  off = block_offset k + key_length k ->
  l' ≡ₚ FKey (block_offset k) (key_length k + len) :: rest -> given l l' off len.
Proof.
  intros Hl El E E'. assert (extents (k :: FKey off len :: rest)) as Hk.
  { rewrite El in Hl. revert Hl. by rewrite Permutation_swap. }
  destruct (extents_join _ _ _ Hk E) as [H1 H2]. simpl in H1, H2.
  split; [by rewrite E'|]. intros b. rewrite E', H2, El, !covered_cons.
  unfold in_extent; simpl. tauto.
Qed.

Lemma given_right off len k rest l l' :
  extents (FKey off len :: l) -> l ≡ₚ k :: rest -> block_offset k = off + len ->
  l' ≡ₚ FKey off (len + key_length k) :: rest -> given l l' off len.
Proof.
  intros Hl El E E'. rewrite El in Hl.
  destruct (extents_join _ _ _ Hl E) as [H1 H2]. simpl in H1, H2.
  split; [by rewrite E'|]. intros b. rewrite E', H2, El, !covered_cons.
  unfold in_extent; simpl. tauto.
Qed.

Lemma given_both off len k kn rest l l' :
  extents (FKey off len :: l) -> l ≡ₚ k :: kn :: rest ->
  off = block_offset k + key_length k -> block_offset kn = off + len ->
  l' ≡ₚ FKey (block_offset k) (key_length k + len + key_length kn) :: rest ->
  given l l' off len.
Proof.
  intros Hl El E En E'.
  destruct (given_left off len k (kn :: rest) l _ Hl El E (reflexivity _)) as [H1 H2].
  assert (block_offset kn = block_offset (FKey (block_offset k) (key_length k + len)) +
    key_length (FKey (block_offset k) (key_length k + len))) as En' by (simpl; lia).
  destruct (extents_join _ _ _ H1 En') as [H3 H4]. simpl in H3, H4.
  split; [by rewrite E'|]. intros b. by rewrite E', H4, H2.
Qed.

(** The walk has enlarged the left neighbour. *)
Lemma free_left root o off len n n' a :
  wf_root (RootNode n) -> extents (FKey off len :: elems n) -> plenty o ->
  (exists h, wf order h n') -> nr_active n' = nr_active n ->
  free_post off len (elems n) (elems n') (FreeLeft a) ->
  root = RootNode n' ->
  exists root' o',
    match a with
    | None => Some (0, root, o)
    | Some kn => fsm_btree_delete order root kn o
    end = Some (0, root', o') /\
    plenty o' /\ wf_root root' /\ given (elems n) (root_elems root') off len.
Proof.
  intros (Hwf & Hn & Hs) Hext Ho Hwf' Hn' (l1 & k & l2 & k' & El & El' & Eo & Ha) ->.
  pose proof Hext as (Hok & Hl & _)%extents_cons.
  assert (elems n ≡ₚ k :: l1 ++ l2) as Ep by (by rewrite El, Permutation_middle).
  pose proof Hl as Hk. rewrite Ep in Hk. apply extents_cons in Hk as (Hkok & Hrest & Hkd).
  unfold extent_ok in Hok, Hkok; simpl in Hok. rewrite uwrap_small in Eo by lia.
  assert (wf_root (RootNode n')) as Hr'.
  { split; [done|]. split; [lia|]. rewrite El'. rewrite El in Hs.
    eapply replace_sorted; [exact Hs| |].
    - rewrite <- El. by apply extents_offsets_inj.
    - destruct a; [by destruct Ha as (_ & _ & ->)|by rewrite Ha]. }
  destruct a as [kn|].
  - destruct Ha as (Hin & En & Ek'). simpl in En, Ek'.
    rewrite (uwrap_small _ (key_length k + len)) in En, Ek' by lia.
    rewrite uwrap_small in En by lia.
    pose proof Hl as (_ & Hall & _). rewrite Forall_forall in Hall.
    pose proof (Hall kn Hin) as Hnok. unfold extent_ok in Hnok.
    rewrite uwrap_small in Ek' by lia.
    destruct (delete_plenty _ kn o Hr' Ho) as (root' & o' & -> & Ho' & Hw & He).
    exists root', o'. split_and!; try done. simpl in He.
    assert (kn ∈ l1 ++ l2) as Hin'.
    { rewrite Ep in Hin. apply elem_of_cons in Hin as [->|Hin]; [lia|done]. }
    pose proof Hrest as (Hnd & _).
    eapply (given_both off len k kn (without kn (l1 ++ l2))); try done; [|lia|].
    + rewrite Ep. f_equiv. by apply extent_in_perm.
    + rewrite He, El', <- Permutation_middle, <- Ek'.
      rewrite without_cons_ne; [done|].
      intros E. rewrite <- E, Ek' in En. simpl in En. lia.
  - simpl in Ha. rewrite uwrap_small in Ha by lia. exists (RootNode n'), o. split_and!; try done; try apply Hr'.
    eapply given_left; try done. simpl. by rewrite El', Ha, Permutation_middle.
Qed.

Lemma fsm_btree_free_wf root off len o :
  wf_root root -> extents (root_elems root) ->
  0 < off -> 0 < len -> off + len < 2 ^ 64 ->
  (forall b, off <= b < off + len -> ~ covered (root_elems root) b) -> plenty o ->
  exists root' o', fsm_btree_free order root off len o = Some (0, root', o') /\
    plenty o' /\ wf_root root' /\ given (root_elems root) (root_elems root') off len.
Proof.
  intros Hr Hl Hoff Hlen Hmax Hfree Ho.
  pose proof (extents_fresh off len _ Hl Hoff Hlen Hmax Hfree) as Hext.
  assert (FKey off len ∉ root_elems root) as Hnew.
  { intros Hin. apply (Hfree off); [lia|]. exists (FKey off len). split; [done|].
    unfold in_extent; simpl; lia. }
  unfold fsm_btree_free. destruct root as [| |n]; [|done|].
  - destruct (insert_plenty _ _ o Hr Ho Hnew) as (root' & o' & -> & Ho' & Hw & He).
    exists root', o'. split_and!; try done; by apply (given_fresh off len _ _ Hext).
  - pose proof Hr as ((h & Hwf) & Hn & Hs). simpl in Hl, Hext, Hnew, Hfree.
    cbn [root_elems].
    destruct (free_walk_spec off len (depth n) h n) as (n' & act & -> & Hw' & Hn' & Hp);
      [done|by eapply wf_depth|].
    assert (elems n' = elems n -> wf_root (RootNode n')) as Hr'.
    { intros E. split; [by exists h|]. split; [lia|by rewrite E]. }
    destruct act as [a|k|]; cbv beta iota.
    + destruct (free_left (RootNode n') o off len n n' a) as (root' & o' & E & H); try done; [by exists h|].
      exists root', o'. split; [|done]. by destruct a.
    + destruct Hp as (He & Hk & Eo). rewrite uwrap_small in Eo by lia.
      destruct (delete_plenty _ k o (Hr' He) Ho) as (root1 & o1 & -> & Ho1 & Hw1 & He1).
      pose proof Hl as (Hnd & Hok & _). rewrite Forall_forall in Hok.
      pose proof (Hok k Hk) as Hkok. unfold extent_ok in Hkok.
      rewrite uwrap_small by lia. simpl in He1. rewrite He in He1.
      destruct (insert_plenty root1 (FKey off (len + key_length k)) o1 Hw1 Ho1)
        as (root2 & o2 & -> & Ho2 & Hw2 & He2).
      { rewrite He1, without_in. intros [Hin _]. apply (Hfree off); [lia|].
        eexists. split; [exact Hin|]. unfold in_extent; simpl. lia. }
      exists root2, o2. split_and!; try done.
      all: eapply (given_right off len k (without k (elems n))); try done;
        [by apply extent_in_perm|by rewrite He2, He1].
    + destruct (insert_plenty (RootNode n') (FKey off len) o (Hr' Hp) Ho)
        as (root1 & o1 & -> & Ho1 & Hw1 & He1); [simpl; by rewrite Hp|].
      exists root1, o1. split_and!; try done.
      all: apply (given_fresh off len _ _ Hext); rewrite He1; simpl; by rewrite Hp.
Qed.
End alloc.
