(* ===== verification/Fsm.v ===== *)
(** * The free-space manager of fsm.c

    The on-disk bitmap of the blocks and the tree of free extents built from it
    at mount time.  The manager uses the tree through the interface
    [FreeTree], which the B-tree of fsm_btree.c implements
    ([fsm_btree_free_tree], in FsmTheorems.v), and the metadata journal through
    [Journal]. *)

From S2P Require Import Prelude FsmBtree FsmAlloc.
Open Scope Z_scope.

(** ** What the manager relies on *)

(** A set of disjoint extents with an insertion, a release and an
    allocation that only fails for want of a long enough extent. *)
Class FreeTree (T : Type) := {
  ft_empty : T;
  ft_insert : T -> fsm_btree_key -> oracle -> option (Z * T * oracle);
  ft_free : T -> Z -> Z -> oracle -> option (Z * T * oracle);
  ft_lookup : T -> Z -> Z -> oracle -> option (Z * T * oracle);
  ft_elems : T -> list fsm_btree_key;
  ft_ok : T -> Prop;
  ft_empty_ok : ft_ok ft_empty /\ ft_elems ft_empty = [];
  ft_insert_ok t k o : ft_ok t -> plenty o -> k ∉ ft_elems t ->
    exists t' o', ft_insert t k o = Some (0, t', o') /\ plenty o' /\ ft_ok t' /\
      ft_elems t' ≡ₚ k :: ft_elems t;
  ft_free_ok t off len o : ft_ok t -> extents (ft_elems t) -> plenty o ->
    0 < off -> 0 < len -> off + len < 2 ^ 64 ->
    (forall b, off <= b < off + len -> ~ covered (ft_elems t) b) ->
    exists t' o', ft_free t off len o = Some (0, t', o') /\ plenty o' /\ ft_ok t' /\
      given (ft_elems t) (ft_elems t') off len;
  ft_lookup_ok t off len o : ft_ok t -> extents (ft_elems t) -> plenty o -> 0 < len ->
    exists r t' o', ft_lookup t off len o = Some (r, t', o') /\ plenty o' /\ ft_ok t' /\
      (r = 0 /\ t' = t /\ Forall (fun k => key_length k < len) (ft_elems t) \/
       0 < r /\ taken (ft_elems t) (ft_elems t') r len /\
         (r = off \/ none_at off len (ft_elems t)))
}.

(** The journal: [add_to_snapshot] on a page of the bitmap file, and
    [set_page_dirty_lock]. *)
Class Journal (J : Type) := {
  add_to_snapshot : J -> Z -> Z * J;
  set_page_dirty : J -> Z -> J
}.

(** ** Bits of the bitmap: the array [data] of 32-bit words *)

(** The first bit of a word with the value [v]. *)
Fixpoint find_bit (v : bool) (w from : Z) (n : nat) : Z :=
  match n with
  | O => from
  | S n => if Bool.eqb (Z.testbit w from) v then from else find_bit v w (from + 1) n
  end.

(** [ffz], [ffs]: the kernel's index of the first clear bit, and one more than
    the index of the first set bit. *)
Definition ffz (w : Z) : Z := find_bit false w 0 32.
Definition ffs (w : Z) : Z := find_bit true w 0 32 + 1.

Definition bit (data : list Z) (b : Z) : bool :=
  match data !! Z.to_nat (b / 32) with
  | Some w => Z.testbit w (b mod 32)
  | None => false
  end.

(** [test_and_set_bit], [test_and_clear_bit]: the old bit and the new array. *)
Definition test_and_set_bit (b : Z) (data : list Z) : option (bool * list Z) :=
  match data !! Z.to_nat (b / 32) with
  | Some w => Some (Z.testbit w (b mod 32),
                    <[Z.to_nat (b / 32) := Z.lor w (Z.shiftl 1 (b mod 32))]> data)
  | None => None
  end.

Definition test_and_clear_bit (b : Z) (data : list Z) : option (bool * list Z) :=
  match data !! Z.to_nat (b / 32) with
  | Some w => Some (Z.testbit w (b mod 32),
                    <[Z.to_nat (b / 32) := Z.ldiff w (Z.shiftl 1 (b mod 32))]> data)
  | None => None
  end.

(** ** State *)
Inductive find_mode := FIND_CLEAR_BIT | FIND_SET_BIT.

(** [struct emmcfs_fsm_info] with [sbi->free_blocks_count]; [locked] says
    whether the mutex [lock] is held. *)
Record fsm_info (T : Type) := FsmInfo {
  tree : T;
  data : list Z;
  length_in_bytes : Z;
  page_count : Z;
  free_blocks_count : Z;
  locked : bool
}.
Arguments FsmInfo {T}.
Arguments tree {T}.
Arguments data {T}.
Arguments length_in_bytes {T}.
Arguments page_count {T}.
Arguments free_blocks_count {T}.
Arguments locked {T}.

(** The part of an inode the manager uses: [i_mode], [i_ino] and the
    preallocation of [fork]. *)
Record fsm_inode := FsmInode {
  is_reg : bool;
  i_ino : Z;
  prealloc_start_block : Z;
  prealloc_block_count : Z
}.

Definition EMMCFS_1ST_FILE_INO : Z := 10.
Definition FSM_PREALLOC_DELTA : Z := 0.
Definition PAGE_SHIFT : Z := 12.

Section operations.
Context `{FreeTree T} `{Journal J}.
Abbreviation info := (fsm_info T).

Definition set_tree (fsm : info) (t : T) : info :=
  FsmInfo t (data fsm) (length_in_bytes fsm) (page_count fsm)
    (free_blocks_count fsm) (locked fsm).
Definition set_data (fsm : info) (d : list Z) : info :=
  FsmInfo (tree fsm) d (length_in_bytes fsm) (page_count fsm)
    (free_blocks_count fsm) (locked fsm).
Definition set_count (fsm : info) (c : Z) : info :=
  FsmInfo (tree fsm) (data fsm) (length_in_bytes fsm) (page_count fsm) c (locked fsm).
Definition set_locked (fsm : info) (l : bool) : info :=
  FsmInfo (tree fsm) (data fsm) (length_in_bytes fsm) (page_count fsm)
    (free_blocks_count fsm) l.

(** ** Building the tree *)

(** [fsm_insert] *)
Definition fsm_insert (fsm : info) (block_offset length : Z) (o : oracle)
    : option (Z * info * oracle) :=
  match ft_insert (tree fsm) (FKey block_offset length) o with
  | None => None
  | Some (ret, t, o) =>
    let fsm := set_tree fsm t in
    if negb (ret =? 0) then Some (-1, fsm, o)
    else Some (0, set_count fsm (u64 (free_blocks_count fsm + length)), o)
  end.

(** The state of the scan of [fsm_get_tree]. *)
Definition scan_result : Type := Z * find_mode * Z * info * oracle.

(** The loop over the bits of the word [w] at index [i]; [break] and the end
    of the loop are the same. *)
Fixpoint scan_word (fuel : nat) (i w off : Z) (mode : find_mode) (free_start : Z)
    (fsm : info) (o : oracle) : option scan_result :=
  match fuel with
  | O => None
  | S fuel =>
    if off >=? 32 then Some (0, mode, free_start, fsm, o)
    else match mode with
    | FIND_CLEAR_BIT =>
      if off =? 0 then
        if w =? 0xFFFFFFFF then Some (0, mode, free_start, fsm, o)
        else
          let off := ffz w in
          scan_word fuel i w (off + 1) FIND_SET_BIT (Z.shiftl i 5 + off) fsm o
      else if negb (Z.testbit w off) then
        scan_word fuel i w (off + 1) FIND_SET_BIT (Z.shiftl i 5 + off) fsm o
      else scan_word fuel i w (off + 1) mode free_start fsm o
    | FIND_SET_BIT =>
      if off =? 0 then
        if w =? 0 then Some (0, mode, free_start, fsm, o)
        else
          let off := ffs w - 1 in
          let free_end := Z.shiftl i 5 + off in
          match fsm_insert fsm free_start (u64 (free_end - free_start)) o with
          | None => None
          | Some (ret, fsm, o) =>
            if negb (ret =? 0) then Some (ret, FIND_CLEAR_BIT, free_start, fsm, o)
            else scan_word fuel i w (off + 1) FIND_CLEAR_BIT free_start fsm o
          end
      else if Z.testbit w off then
        let free_end := Z.shiftl i 5 + off in
        match fsm_insert fsm free_start (u64 (free_end - free_start)) o with
        | None => None
        | Some (_, fsm, o) =>
          scan_word fuel i w (off + 1) FIND_CLEAR_BIT free_start fsm o
        end
      else scan_word fuel i w (off + 1) mode free_start fsm o
    end
  end.

Fixpoint scan_words (ws : list Z) (i : Z) (mode : find_mode) (free_start : Z)
    (fsm : info) (o : oracle) : option scan_result :=
  match ws with
  | [] => Some (0, mode, free_start, fsm, o)
  | w :: ws =>
    match scan_word 33 i w 0 mode free_start fsm o with
    | None => None
    | Some (ret, mode, free_start, fsm, o) =>
      if negb (ret =? 0) then Some (ret, mode, free_start, fsm, o)
      else scan_words ws (i + 1) mode free_start fsm o
    end
  end.

(** The loop over the [rest_size * 8] bits of the last, partial word. *)
Fixpoint scan_rest (n : nat) (i w off : Z) (mode : find_mode) (free_start : Z)
    (fsm : info) (o : oracle) : option scan_result :=
  match n with
  | O => Some (0, mode, free_start, fsm, o)
  | S n =>
    match mode with
    | FIND_SET_BIT =>
      if Z.testbit w off then
        let free_end := Z.shiftl i 5 + off in
        match fsm_insert fsm free_start (u64 (free_end - free_start)) o with
        | None => None
        | Some (_, fsm, o) => scan_rest n i w (off + 1) FIND_CLEAR_BIT free_start fsm o
        end
      else scan_rest n i w (off + 1) mode free_start fsm o
    | FIND_CLEAR_BIT =>
      if negb (Z.testbit w off) then
        scan_rest n i w (off + 1) FIND_SET_BIT (Z.shiftl i 5 + off) fsm o
      else scan_rest n i w (off + 1) mode free_start fsm o
    end
  end.

(** [fsm_get_tree] *)
Definition fsm_get_tree (fsm : info) (o : oracle) : option (Z * info * oracle) :=
  let size := Z.shiftr (length_in_bytes fsm) 2 in
  let rest_size := length_in_bytes fsm - Z.shiftl size 2 in
  let fsm := set_count fsm 0 in
  if Z.of_nat (length (data fsm)) <? size then None else
  match scan_words (take (Z.to_nat size) (data fsm)) 0 FIND_CLEAR_BIT 0 fsm o with
  | None => None
  | Some (ret, mode, free_start, fsm, o) =>
    if negb (ret =? 0) then Some (ret, fsm, o)
    else
      match (if rest_size =? 0 then Some (0, mode, free_start, fsm, o)
             else match data fsm !! Z.to_nat size with
             | None => None
             | Some w => scan_rest (Z.to_nat (rest_size * 8)) size w 0 mode free_start fsm o
             end) with
      | None => None
      | Some (_, mode, free_start, fsm, o) =>
        match mode with
        | FIND_SET_BIT =>
          match fsm_insert fsm free_start
                  (u64 (Z.shiftl size 5 + rest_size * 8 - free_start)) o with
          | None => None
          | Some (_, fsm, o) => Some (0, fsm, o)
          end
        | FIND_CLEAR_BIT => Some (0, fsm, o)
        end
      end
  end.

(** ** Allocation and release of blocks *)

(** [EMMCFS_ADD_CHUNK]: after the mount an error is a [BUG]. *)
Definition EMMCFS_ADD_CHUNK (mount_finished : bool) (j : J) (page : Z) : option (Z * J) :=
  let '(error, j) := add_to_snapshot j page in
  if error =? 0 then Some (0, j)
  else if mount_finished then None else Some (error, j).

(** The loop over the bitmap pages [page], ..., up to the first error. *)
Fixpoint add_chunks (mount_finished : bool) (j : J) (page : Z) (n : nat) : option (Z * J) :=
  match n with
  | O => Some (0, j)
  | S n =>
    match EMMCFS_ADD_CHUNK mount_finished j page with
    | None => None
    | Some (err, j) =>
      if negb (err =? 0) then Some (err, j) else add_chunks mount_finished j (page + 1) n
    end
  end.

Definition dirty_pages (j : J) (page : Z) (n : nat) : J :=
  foldl set_page_dirty j (seqZ page (Z.of_nat n)).

(** The loop of [test_and_set_bit] with its [BUG_ON]s. *)
Fixpoint set_bits (limit x : Z) (n : nat) (d : list Z) : option (list Z) :=
  match n with
  | O => Some d
  | S n =>
    if x >=? limit then None
    else match test_and_set_bit x d with
    | Some (false, d) => set_bits limit (x + 1) n d
    | _ => None
    end
  end.

(** The number of bits of the bitmap, a 32-bit shift. *)
Definition bits_limit (fsm : info) : Z := u32 (Z.shiftl (length_in_bytes fsm) 3).

Definition first_page (off : Z) : Z := Z.shiftr off (PAGE_SHIFT + 3).
Definition last_page (off len : Z) : Z := Z.shiftr (u64 (off + len)) (PAGE_SHIFT + 3).
Definition pages_of (off len : Z) : nat :=
  Z.to_nat (last_page off len + 1 - first_page off).

(** The choice of the blocks in [emmcfs_fsm_get_free_block]: the first block
    or 0, the tree and the inode. *)
Definition choose_blocks (inode : fsm_inode) (block_offset len : Z) (t : T) (o : oracle)
    : option (Z * fsm_inode * T * oracle) :=
  let lookup inode block_offset len t o :=
    match ft_lookup t block_offset len o with
    | None => None
    | Some (r, t, o) => Some (r, inode, t, o)
    end in
  let no_prealloc := FsmInode (is_reg inode) (i_ino inode) 0 0 in
  if (FSM_PREALLOC_DELTA =? 0) || negb (is_reg inode) ||
     (i_ino inode <? EMMCFS_1ST_FILE_INO) then lookup inode block_offset len t o
  else if (len >? 1) || (negb (prealloc_start_block inode =? 0) &&
                         negb (block_offset =? prealloc_start_block inode)) then
    if negb (prealloc_start_block inode =? 0) && negb (prealloc_block_count inode =? 0) then
      match ft_free t (prealloc_start_block inode) (prealloc_block_count inode) o with
      | None => None
      | Some (_, t, o) => lookup no_prealloc block_offset len t o
      end
    else lookup no_prealloc block_offset len t o
  else if (prealloc_start_block inode =? 0) || (prealloc_block_count inode =? 0) then
    match ft_lookup t block_offset (1 + FSM_PREALLOC_DELTA) o with
    | None => None
    | Some (r, t, o) =>
      if negb (r =? 0) then
        Some (r, FsmInode (is_reg inode) (i_ino inode) (u64 (r + 1)) FSM_PREALLOC_DELTA, t, o)
      else lookup no_prealloc r 1 t o
    end
  else Some (prealloc_start_block inode,
             FsmInode (is_reg inode) (i_ino inode) (u64 (prealloc_start_block inode + 1))
               (u32 (prealloc_block_count inode - 1)), t, o).

(** [emmcfs_fsm_get_free_block]; [total_blocks] is
    [total_leb_count << log_blocks_in_leb]. *)
Definition emmcfs_fsm_get_free_block (mount_finished : bool) (total_blocks : Z)
    (inode : fsm_inode) (block_offset len : Z) (fsm : info) (j : J) (o : oracle)
    : option (Z * fsm_inode * info * J * oracle) :=
  if u64 (block_offset + len) >=? total_blocks then Some (0, inode, fsm, j, o)
  else
    let fsm := set_locked fsm true in
    match choose_blocks inode block_offset len (tree fsm) o with
    | None => None
    | Some (block_offset, inode, t, o) =>
      let fsm := set_tree fsm t in
      if block_offset =? 0 then Some (0, inode, set_locked fsm false, j, o)
      else
        let start_page := first_page block_offset in
        let end_page := last_page block_offset len in
        let n := pages_of block_offset len in
        if (start_page >=? page_count fsm) || (end_page >=? page_count fsm) then None
        else match add_chunks mount_finished j start_page n with
        | Some (0, j) =>
          let fsm := set_count fsm (u64 (free_blocks_count fsm - len)) in
          match set_bits (bits_limit fsm) block_offset
                  (Z.to_nat len) (data fsm) with
          | None => None
          | Some d =>
            Some (block_offset, inode, set_locked (set_data fsm d) false,
                  dirty_pages j start_page n, o)
          end
        | _ => None
        end
    end.

(** The loop of [test_and_clear_bit] in [fsm_free_block_chunk]; the index is
    a 32-bit integer. *)
Fixpoint clear_bits (mount_finished : bool) (limit block_offset i : Z) (n : nat)
    (d : list Z) : option (Z * list Z) :=
  match n with
  | O => Some (0, d)
  | S n =>
    let index := u32 (block_offset + i) in
    let fail d := if mount_finished then None else Some (- EFAULT, d) in
    if index >=? limit then fail d
    else match test_and_clear_bit index d with
    | None => None
    | Some (false, d) => fail d
    | Some (true, d) => clear_bits mount_finished limit block_offset (i + 1) n d
    end
  end.

(** [fsm_free_block_chunk]; the early returns of the loop leave the mutex
    locked. *)
Definition fsm_free_block_chunk (mount_finished : bool) (fsm : info)
    (block_offset len : Z) (inode : option fsm_inode) (j : J) (o : oracle)
    : option (Z * option fsm_inode * info * J * oracle) :=
  let start_page := first_page block_offset in
  let end_page := last_page block_offset len in
  let n := pages_of block_offset len in
  if (start_page >=? page_count fsm) || (end_page >=? page_count fsm) then None
  else match add_chunks mount_finished j start_page n with
  | None => None
  | Some (err, j) =>
    if negb (err =? 0) then Some (err, inode, fsm, j, o)
    else
      let fsm := set_locked fsm true in
      match (match inode with
             | Some ino =>
               let ino' := FsmInode (is_reg ino) (i_ino ino) 0 0 in
               if negb (prealloc_start_block ino =? 0) &&
                  negb (prealloc_block_count ino =? 0) then
                 match ft_free (tree fsm) (prealloc_start_block ino)
                         (prealloc_block_count ino) o with
                 | None => None
                 | Some (_, t, o) => Some (Some ino', set_tree fsm t, o)
                 end
               else Some (Some ino', fsm, o)
             | None => Some (None, fsm, o)
             end) with
      | None => None
      | Some (inode, fsm, o) =>
        match ft_free (tree fsm) block_offset len o with
        | None => None
        | Some (_, t, o) =>
          let fsm := set_tree fsm t in
          let fsm := set_count fsm (u64 (free_blocks_count fsm + len)) in
          match clear_bits mount_finished (bits_limit fsm)
                  block_offset 0 (Z.to_nat len) (data fsm) with
          | None => None
          | Some (err, d) =>
            let fsm := set_data fsm d in
            if negb (err =? 0) then Some (err, inode, fsm, j, o)
            else Some (0, inode, set_locked fsm false, dirty_pages j start_page n, o)
          end
        end
      end
  end.

(** [emmcfs_fsm_put_free_block] and [emmcfs_fsm_free_exttree_extent] *)
Definition emmcfs_fsm_put_free_block (mount_finished : bool) (fsm : info)
    (inode : fsm_inode) (block_offset len : Z) (j : J) (o : oracle) :=
  fsm_free_block_chunk mount_finished fsm block_offset len (Some inode) j o.

Definition emmcfs_fsm_free_exttree_extent (mount_finished : bool) (fsm : info)
    (offset len : Z) (j : J) (o : oracle) :=
  fsm_free_block_chunk mount_finished fsm offset len None j o.

(** [emmcfs_fsm_discard_preallocation] *)
Definition emmcfs_fsm_discard_preallocation (inode : fsm_inode) (fsm : info) (o : oracle)
    : option (fsm_inode * info * oracle) :=
  if negb (prealloc_start_block inode =? 0) && negb (prealloc_block_count inode =? 0) then
    match ft_free (tree fsm) (prealloc_start_block inode) (prealloc_block_count inode) o with
    | None => None
    | Some (_, t, o) =>
      Some (FsmInode (is_reg inode) (i_ino inode) 0 0, set_tree fsm t, o)
    end
  else Some (inode, fsm, o).
End operations.
