(* ===== verification/FsmProofs.v ===== *)
(** * The free-space manager: the tree and the bitmap agree

    The invariant of the manager ([fsm_inv]): the extents of the tree are
    exactly the clear bits of the bitmap, and [free_blocks_count] counts them.
    Mounting establishes it ([fsm_get_tree]) and allocation and release keep
    it; both change exactly the bits of the blocks they are about. *)

From S2P Require Import Prelude FsmBtree FsmAlloc Fsm.
Open Scope Z_scope.

(** ** Bits *)
Section bits.
Implicit Types (d : list Z) (b x : Z).

Lemma word_index b d : 0 <= b < 32 * Z.of_nat (length d) ->
  exists w, d !! Z.to_nat (b / 32) = Some w.
Proof.
  intros Hb. apply lookup_lt_is_Some_2.
  assert (b / 32 < Z.of_nat (length d)) by (apply Z.div_lt_upper_bound; lia).
  pose proof (Z.div_pos b 32). lia.
Qed.

Lemma bit_update f b b' d w v :
  0 <= b < 32 * Z.of_nat (length d) -> 0 <= b' -> d !! Z.to_nat (b / 32) = Some w ->
  (forall i, 0 <= i < 32 -> Z.testbit (f w) i = if i =? b mod 32 then v else Z.testbit w i) ->
  bit (<[Z.to_nat (b / 32) := f w]> d) b' = if b' =? b then v else bit d b'.
Proof.
  intros Hb Hb' Hw Hf. unfold bit.
  pose proof (lookup_lt_Some _ _ _ Hw) as Hlt.
  pose proof (Z.mod_pos_bound b' 32). pose proof (Z.mod_pos_bound b 32).
  pose proof (Z.div_pos b 32). pose proof (Z.div_pos b' 32).
  pose proof (Z.div_mod b 32). pose proof (Z.div_mod b' 32).
  destruct (Z.eq_dec (b' / 32) (b / 32)) as [E|E].
  - rewrite E. rewrite list_lookup_insert_eq by done. rewrite Hf by lia. rewrite Hw.
    destruct (Z.eqb_spec (b' mod 32) (b mod 32)), (Z.eqb_spec b' b); try done; lia.
  - rewrite list_lookup_insert_ne by lia. destruct (Z.eqb_spec b' b); [subst; lia|done].
Qed.

Lemma testbit_one m i : 0 <= m -> 0 <= i -> Z.testbit (Z.shiftl 1 m) i = (i =? m).
Proof.
  intros Hm Hi. rewrite Z.shiftl_1_l. destruct (Z.eqb_spec i m) as [->|].
  - by apply Z.pow2_bits_true.
  - apply Z.pow2_bits_false. lia.
Qed.

Lemma test_and_set_bit_spec b d :
  0 <= b < 32 * Z.of_nat (length d) ->
  exists d', test_and_set_bit b d = Some (bit d b, d') /\ length d' = length d /\
    forall b', 0 <= b' -> bit d' b' = if b' =? b then true else bit d b'.
Proof.
  intros Hb. destruct (word_index b d Hb) as (w & Hw). unfold test_and_set_bit.
  unfold bit at 1. rewrite Hw. eexists. split; [done|]. split; [apply length_insert|].
  intros b' Hb'. apply (bit_update (fun w => Z.lor w (Z.shiftl 1 (b mod 32))) b b' d w true); try done.
  intros i Hi. rewrite Z.lor_spec, testbit_one by (pose proof (Z.mod_pos_bound b 32); lia).
  destruct (i =? b mod 32); [by rewrite orb_true_r|by rewrite orb_false_r].
Qed.

Lemma test_and_clear_bit_spec b d :
  0 <= b < 32 * Z.of_nat (length d) ->
  exists d', test_and_clear_bit b d = Some (bit d b, d') /\ length d' = length d /\
    forall b', 0 <= b' -> bit d' b' = if b' =? b then false else bit d b'.
Proof.
  intros Hb. destruct (word_index b d Hb) as (w & Hw). unfold test_and_clear_bit.
  unfold bit at 1. rewrite Hw. eexists. split; [done|]. split; [apply length_insert|].
  intros b' Hb'. apply (bit_update (fun w => Z.ldiff w (Z.shiftl 1 (b mod 32))) b b' d w false); try done.
  intros i Hi. rewrite Z.ldiff_spec, testbit_one by (pose proof (Z.mod_pos_bound b 32); lia).
  destruct (i =? b mod 32); [by rewrite andb_false_r|by rewrite andb_true_r].
Qed.

(** [d'] is [d] with the bits [x], ..., [x + len - 1] equal to [v]. *)
Definition bits_set (v : bool) (x len : Z) d d' : Prop :=
  length d' = length d /\
  forall b, 0 <= b -> bit d' b = if (x <=? b) && (b <? x + len) then v else bit d b.

Lemma bits_set_cons v x len d d1 d2 :
  0 <= len -> length d1 = length d ->
  (forall b, 0 <= b -> bit d1 b = if b =? x then v else bit d b) ->
  bits_set v (x + 1) len d1 d2 -> bits_set v x (len + 1) d d2.
Proof.
  intros Hl E1 H1 [E2 H2]. split; [congruence|]. intros b Hb. rewrite H2, H1 by done.
  destruct (Z.eqb_spec b x), (Z.leb_spec x b), (Z.leb_spec (x + 1) b),
    (Z.ltb_spec b (x + 1 + len)), (Z.ltb_spec b (x + (len + 1))); simpl; try done; lia.
Qed.

Lemma bits_set_nil v x d : bits_set v x 0 d d.
Proof.
  split; [done|]. intros b _.
  destruct (Z.leb_spec x b), (Z.ltb_spec b (x + 0)); simpl; try done; lia.
Qed.

Lemma set_bits_spec limit n : forall x d,
  0 <= x -> x + Z.of_nat n <= limit -> limit <= 32 * Z.of_nat (length d) ->
  (forall b, x <= b < x + Z.of_nat n -> bit d b = false) ->
  exists d', set_bits limit x n d = Some d' /\ bits_set true x (Z.of_nat n) d d'.
Proof.
  induction n as [|n IH]; intros x d Hx Hn Hl Hb.
  { exists d. split; [done|]. apply bits_set_nil. }
  cbn [set_bits]. rewrite Z.geb_leb, (proj2 (Z.leb_gt _ _)) by lia.
  destruct (test_and_set_bit_spec x d) as (d1 & -> & E1 & H1); [lia|].
  rewrite (Hb x) by lia. destruct (IH (x + 1) d1) as (d2 & -> & H2); [lia|lia|by rewrite E1| |].
  { intros b Hb'. rewrite H1 by lia. destruct (Z.eqb_spec b x); [lia|]. apply Hb. lia. }
  exists d2. split; [done|]. rewrite Nat2Z.inj_succ, <- Z.add_1_r.
  apply (bits_set_cons _ _ _ _ d1); try done. lia.
Qed.

Lemma clear_bits_spec mf limit off n : forall i d,
  0 <= off -> 0 <= i -> off + i + Z.of_nat n <= limit -> limit <= 2 ^ 32 ->
  limit <= 32 * Z.of_nat (length d) ->
  (forall b, off + i <= b < off + i + Z.of_nat n -> bit d b = true) ->
  exists d', clear_bits mf limit off i n d = Some (0, d') /\
    bits_set false (off + i) (Z.of_nat n) d d'.
Proof.
  induction n as [|n IH]; intros i d Hx Hi Hn Hl Hl' Hb.
  { exists d. split; [done|]. apply bits_set_nil. }
  cbn [clear_bits]. rewrite uwrap_small by lia.
  rewrite Z.geb_leb, (proj2 (Z.leb_gt _ _)) by lia.
  destruct (test_and_clear_bit_spec (off + i) d) as (d1 & -> & E1 & H1); [lia|].
  rewrite (Hb (off + i)) by lia.
  destruct (IH (i + 1) d1) as (d2 & -> & H2); [lia|lia|lia|done|by rewrite E1| |].
  { intros b Hb'. rewrite H1 by lia. destruct (Z.eqb_spec b (off + i)); [lia|]. apply Hb. lia. }
  exists d2. split; [done|]. rewrite Nat2Z.inj_succ, <- Z.add_1_r.
  apply (bits_set_cons _ _ _ _ d1); try done; [lia|]. by rewrite <- Z.add_assoc.
Qed.
End bits.

(** ** Counting the free blocks *)
Definition clear_bits_list (d : list Z) (x n : Z) : list Z :=
  filter (fun b => bit d b = false) (seqZ x n).

Definition clear_count (d : list Z) (n : Z) : Z :=
  Z.of_nat (length (clear_bits_list d 0 n)).

Lemma clear_bits_list_app d x n m : 0 <= n -> 0 <= m ->
  clear_bits_list d x (n + m) = clear_bits_list d x n ++ clear_bits_list d (x + n) m.
Proof. intros. unfold clear_bits_list. by rewrite seqZ_app, filter_app. Qed.

Lemma clear_bits_list_ext d d' x n :
  (forall b, x <= b < x + n -> bit d b = bit d' b) ->
  clear_bits_list d x n = clear_bits_list d' x n.
Proof.
  intros H. unfold clear_bits_list. apply filter_ext_in. intros b Hb.
  apply elem_of_seqZ in Hb. by rewrite H.
Qed.

Lemma clear_bits_list_all d x n : 0 <= n ->
  (forall b, x <= b < x + n -> bit d b = false) -> clear_bits_list d x n = seqZ x n.
Proof.
  intros Hn H. unfold clear_bits_list. apply filter_all_in.
  intros b Hb%elem_of_seqZ. auto.
Qed.

Lemma clear_bits_list_none d x n : 0 <= n ->
  (forall b, x <= b < x + n -> bit d b = true) -> clear_bits_list d x n = [].
Proof.
  intros Hn H. unfold clear_bits_list. apply filter_none_in.
  intros b Hb%elem_of_seqZ. by rewrite H.
Qed.

Lemma clear_count_split d x len n : 0 <= x -> 0 <= len -> x + len <= n ->
  clear_count d n =
    Z.of_nat (length (clear_bits_list d 0 x) + length (clear_bits_list d x len) +
              length (clear_bits_list d (x + len) (n - x - len)))%nat.
Proof.
  intros. unfold clear_count. f_equal.
  assert (n = x + (len + (n - x - len))) as E by lia. revert E.
  generalize (n - x - len). intros m ->.
  rewrite !clear_bits_list_app by lia. rewrite !length_app, Z.add_0_l. lia.
Qed.

(** The count after [len] bits change to [v]. *)
Lemma clear_count_set v d d' x len n :
  0 <= x -> 0 <= len -> x + len <= n ->
  (forall b, x <= b < x + len -> bit d b = negb v) ->
  bits_set v x len d d' ->
  clear_count d' n = if v then clear_count d n - len else clear_count d n + len.
Proof.
  intros Hx Hlen Hn Hold [_ Hnew]. rewrite !(clear_count_split _ x len n) by lia.
  assert (forall b, 0 <= b -> ~ x <= b < x + len -> bit d' b = bit d b) as Hsame.
  { intros b Hb Hout. rewrite Hnew by done.
    destruct (Z.leb_spec x b), (Z.ltb_spec b (x + len)); simpl; try done; lia. }
  assert (forall b, x <= b < x + len -> bit d' b = v) as Hin.
  { intros b Hb. rewrite Hnew by lia.
    destruct (Z.leb_spec x b), (Z.ltb_spec b (x + len)); simpl; try done; lia. }
  rewrite (clear_bits_list_ext d' d 0 x) by (intros; apply Hsame; lia).
  rewrite (clear_bits_list_ext d' d (x + len)) by (intros; apply Hsame; lia).
  destruct v.
  - rewrite (clear_bits_list_none d' x len) by done. rewrite (clear_bits_list_all d x len) by done.
    rewrite length_seqZ. simpl. lia.
  - rewrite (clear_bits_list_none d x len) by done. rewrite (clear_bits_list_all d' x len) by done.
    rewrite length_seqZ. simpl. lia.
Qed.

Section manager.
Context {T J : Type} {FT : FreeTree T} {JN : Journal J}.
Abbreviation info := (fsm_info T).

Record fsm_geometry (fsm : info) : Prop := {
  geo_len : 0 <= length_in_bytes fsm;
  geo_data : 8 * length_in_bytes fsm <= 32 * Z.of_nat (length (data fsm));
  geo_u32 : 8 * length_in_bytes fsm < 2 ^ 32;
  geo_pages : 8 * length_in_bytes fsm < page_count fsm * 2 ^ 15
}.

Record fsm_inv (fsm : info) : Prop := {
  inv_ok : ft_ok (tree fsm);
  inv_extents : extents (ft_elems (tree fsm));
  inv_covered b : covered (ft_elems (tree fsm)) b <->
    0 <= b < 8 * length_in_bytes fsm /\ bit (data fsm) b = false;
  inv_count : free_blocks_count fsm = u64 (clear_count (data fsm) (8 * length_in_bytes fsm))
}.

Lemma bits_limit_eq fsm : fsm_geometry fsm -> bits_limit fsm = 8 * length_in_bytes fsm.
Proof.
  intros [H1 _ H2 _]. unfold bits_limit. rewrite Z.shiftl_mul_pow2 by lia. rewrite uwrap_small; lia.
Qed.

(** The journal accepts every page. *)
Definition journal_ok : Prop := forall (j : J) p, fst (add_to_snapshot j p) = 0.

Lemma add_chunks_ok mf n : journal_ok -> forall (j : J) p,
  add_chunks mf j p n =
    Some (0, foldl (fun j p => snd (add_to_snapshot j p)) j (seqZ p (Z.of_nat n))).
Proof.
  intros Hj. induction n as [|n IH]; intros j p; [done|].
  cbn [add_chunks]. unfold EMMCFS_ADD_CHUNK. specialize (Hj j p).
  destruct (add_to_snapshot j p) as [e j'] eqn:E. simpl in Hj. subst e.
  cbn [Z.eqb negb]. rewrite IH, (seqZ_cons p) by lia. simpl. rewrite E, Z.add_1_r.
  by replace (Z.pred (Z.of_nat (S n))) with (Z.of_nat n) by lia.
Qed.

Lemma pages_in_range fsm off len :
  fsm_geometry fsm -> 0 <= off -> 0 <= len -> off + len <= 8 * length_in_bytes fsm ->
  first_page off < page_count fsm /\ last_page off len < page_count fsm.
Proof.
  intros [H1 H2 H3 H4] Ho Hl Hlim. unfold first_page, last_page, PAGE_SHIFT.
  rewrite uwrap_small by lia. rewrite !Z.shiftr_div_pow2 by lia.
  change (12 + 3) with 15.
  split; apply Z.div_lt_upper_bound; lia.
Qed.

Lemma covered_bits fsm r len :
  fsm_inv fsm -> (forall b, r <= b < r + len -> covered (ft_elems (tree fsm)) b) ->
  0 < len ->
  0 <= r /\ r + len <= 8 * length_in_bytes fsm /\
  forall b, r <= b < r + len -> bit (data fsm) b = false.
Proof.
  intros Hinv Hc Hlen.
  assert (forall b, r <= b < r + len ->
    0 <= b < 8 * length_in_bytes fsm /\ bit (data fsm) b = false) as Hb
    by (intros b Hb; by apply (inv_covered fsm Hinv), Hc).
  pose proof (Hb r ltac:(lia)) as [? _]. pose proof (Hb (r + len - 1) ltac:(lia)) as [? _].
  split; [lia|]. split; [lia|]. intros b Hb'. by apply Hb.
Qed.

(** The bitmap update that goes with a change of the tree. *)
Lemma inv_set (v : bool) fsm t d x len c :
  fsm_inv fsm -> ft_ok t -> extents (ft_elems t) ->
  (forall b, covered (ft_elems t) b <->
    if v then covered (ft_elems (tree fsm)) b /\ ~ x <= b < x + len
    else covered (ft_elems (tree fsm)) b \/ x <= b < x + len) ->
  0 <= x -> 0 <= len -> x + len <= 8 * length_in_bytes fsm ->
  (forall b, x <= b < x + len -> bit (data fsm) b = negb v) ->
  bits_set v x len (data fsm) d ->
  c = u64 (free_blocks_count fsm + if v then - len else len) ->
  fsm_inv (FsmInfo t d (length_in_bytes fsm) (page_count fsm) c false).
Proof.
  intros Hinv Hok Hext Hcov Hx Hlen Hlim Hold Hset ->. split; simpl; try done.
  - intros b. rewrite Hcov. destruct Hset as [_ Hset].
    assert (0 <= b -> bit d b = if (x <=? b) && (b <? x + len) then v else bit (data fsm) b)
      as Hb by apply Hset.
    destruct v; rewrite (inv_covered fsm Hinv);
      destruct (Z.leb_spec x b), (Z.ltb_spec b (x + len)); simpl in Hb;
      (split; [intros Hl; split; [|rewrite Hb]|intros [Hr1 Hr2]; rewrite Hb in Hr2 by lia]);
      intuition (done || lia).
  - rewrite (clear_count_set v (data fsm) d x len) by done. rewrite (inv_count fsm Hinv).
    unfold uwrap. rewrite Zplus_mod_idemp_l. by destruct v.
Qed.

(** ** Allocation *)

(** What a call of [emmcfs_fsm_get_free_block] that returned [r] did. *)
Definition get_post (fsm fsm' : info) (hint len r : Z) : Prop :=
  length_in_bytes fsm' = length_in_bytes fsm /\ page_count fsm' = page_count fsm /\
  (r = 0 /\ data fsm' = data fsm /\
     Forall (fun k => key_length k < len) (ft_elems (tree fsm)) \/
   0 < r /\ r + len <= 8 * length_in_bytes fsm /\
     (forall b, r <= b < r + len -> bit (data fsm) b = false) /\
     bits_set true r len (data fsm) (data fsm') /\
     (r = hint \/ none_at hint len (ft_elems (tree fsm)))).

Lemma get_free_block_inv mf total inode hint len fsm (j : J) o :
  fsm_inv fsm -> fsm_geometry fsm -> journal_ok -> plenty o ->
  0 < len -> u64 (hint + len) < total ->
  exists r fsm' j' o',
    emmcfs_fsm_get_free_block mf total inode hint len fsm j o =
      Some (r, inode, fsm', j', o') /\
    plenty o' /\ fsm_inv fsm' /\ locked fsm' = false /\ get_post fsm fsm' hint len r.
Proof.
  intros Hinv Hgeo Hj Ho Hlen Htot. unfold emmcfs_fsm_get_free_block.
  rewrite Z.geb_leb, (proj2 (Z.leb_gt _ _)) by done.
  unfold choose_blocks. cbn [FSM_PREALLOC_DELTA Z.eqb orb]. simpl tree.
  destruct (ft_lookup_ok (tree fsm) hint len o)
    as (r & t & o' & -> & Ho' & Ht & Hr); [apply Hinv|apply Hinv|done|done|].
  destruct Hr as [(-> & -> & Hnone)|(Hr & Htk & Hhint)].
  - exists 0. do 3 eexists. split; [done|]. split; [done|]. split; [by destruct Hinv|].
    split; [done|]. split_and!; try done. by left.
  - destruct Htk as (Hext & Hcov & Hcov'). pose proof (covered_bits fsm r len Hinv Hcov Hlen) as (Hr0 & Hlim & Hbits).
    rewrite (proj2 (Z.eqb_neq _ _)) by lia. simpl page_count. simpl data. simpl length_in_bytes.
    destruct (pages_in_range fsm r len Hgeo) as [Hp1 Hp2]; [lia..|].
    rewrite !Z.geb_leb, !(proj2 (Z.leb_gt _ _)) by done. cbn [orb].
    rewrite add_chunks_ok by done.
    change (bits_limit _) with (bits_limit fsm). pose proof (bits_limit_eq fsm Hgeo) as El.
    destruct (set_bits_spec (bits_limit fsm) (Z.to_nat len) r (data fsm))
      as (d & -> & Hd); [lia|lia|destruct Hgeo; lia|by rewrite Z2Nat.id by lia|].
    rewrite Z2Nat.id in Hd by lia.
    eexists r, _, _, o'. split; [done|]. split; [done|]. split; [|split; [done|]].
    + apply (inv_set true fsm t d r len); try done; lia.
    + split_and!; try done. right. split_and!; try done.
Qed.

(** The volume is full as far as the hint is concerned: nothing changes. *)
Lemma get_free_block_beyond mf total inode hint len fsm (j : J) o :
  total <= u64 (hint + len) ->
  emmcfs_fsm_get_free_block mf total inode hint len fsm j o = Some (0, inode, fsm, j, o).
Proof.
  intros H. unfold emmcfs_fsm_get_free_block. by rewrite Z.geb_leb, (proj2 (Z.leb_le _ _)).
Qed.

(** ** Release *)
Definition no_prealloc (inode : option fsm_inode) : Prop :=
  match inode with Some ino => prealloc_block_count ino = 0 | None => True end.

Definition drop_prealloc (inode : option fsm_inode) : option fsm_inode :=
  option_map (fun ino => FsmInode (is_reg ino) (i_ino ino) 0 0) inode.

Lemma free_block_chunk_inv mf fsm off len inode (j : J) o :
  fsm_inv fsm -> fsm_geometry fsm -> journal_ok -> plenty o ->
  no_prealloc inode -> 0 < off -> 0 < len -> off + len <= 8 * length_in_bytes fsm ->
  (forall b, off <= b < off + len -> bit (data fsm) b = true) ->
  exists fsm' j' o',
    fsm_free_block_chunk mf fsm off len inode j o =
      Some (0, drop_prealloc inode, fsm', j', o') /\
    plenty o' /\ fsm_inv fsm' /\ locked fsm' = false /\
    length_in_bytes fsm' = length_in_bytes fsm /\ page_count fsm' = page_count fsm /\
    bits_set false off len (data fsm) (data fsm').
Proof.
  intros Hinv Hgeo Hj Ho Hino Hoff Hlen Hlim Hbits. unfold fsm_free_block_chunk.
  destruct (pages_in_range fsm off len Hgeo) as [Hp1 Hp2]; [lia..|].
  rewrite !Z.geb_leb, !(proj2 (Z.leb_gt _ _)) by done. cbn [orb].
  rewrite add_chunks_ok by done. cbn [Z.eqb negb].
  match goal with |- context [match inode with Some _ => _ | None => _ end] =>
    replace (match inode with Some _ => _ | None => _ end)
      with (Some (drop_prealloc inode, set_locked fsm true, o)) end.
  2:{ destruct inode as [ino|]; [|done]. simpl in Hino. rewrite Hino.
      cbn [Z.eqb negb]. by rewrite andb_false_r. }
  simpl tree.
  destruct (ft_free_ok (tree fsm) off len o)
    as (t & o' & -> & Ho' & Ht & Hext & Hcov); try apply Hinv; try done.
  { destruct Hgeo. lia. }
  { intros b Hb [_ Hc]%(inv_covered fsm Hinv). by rewrite Hbits in Hc. }
  simpl data. simpl length_in_bytes.
  change (bits_limit (set_count _ _)) with (bits_limit fsm). pose proof (bits_limit_eq fsm Hgeo) as El.
  destruct (clear_bits_spec mf (bits_limit fsm) off (Z.to_nat len) 0 (data fsm))
    as (d & -> & Hd); [lia|lia|lia|destruct Hgeo; lia|destruct Hgeo; lia| |].
  { intros b. rewrite Z.add_0_r, Z2Nat.id by lia. apply Hbits. }
  rewrite Z.add_0_r, Z2Nat.id in Hd by lia. cbn [Z.eqb negb].
  eexists _, _, o'. split; [done|]. split; [done|]. split; [|by split_and!].
  apply (inv_set false fsm t d off len); try done; lia.
Qed.
End manager.
