(* ===== verification/FsmMount.v ===== *)
(** * The free-space manager: building the tree at mount time

    [fsm_get_tree] skips whole words and uses [ffz] and [ffs]; it inserts
    exactly the maximal runs of clear bits ([zero_runs], the reference
    definition, which reads the bitmap bit by bit) and so establishes the
    invariant of the manager. *)

From S2P Require Import Prelude FsmBtree FsmAlloc Fsm FsmProofs.
Open Scope Z_scope.

(** ** The runs of clear bits of a bit string that begins at bit [b]; [start]
    is the beginning of the run that is open. *)
Fixpoint zero_runs (b : Z) (start : option Z) (bits : list bool) : list fsm_btree_key :=
  match bits with
  | [] => match start with Some s => [FKey s (b - s)] | None => [] end
  | false :: bits =>
    zero_runs (b + 1) (Some (match start with Some s => s | None => b end)) bits
  | true :: bits =>
    match start with
    | Some s => FKey s (b - s) :: zero_runs (b + 1) None bits
    | None => zero_runs (b + 1) None bits
    end
  end.

Lemma zero_runs_ones b bits rest :
  Forall (fun x => x = true) bits ->
  zero_runs b None (bits ++ rest) = zero_runs (b + Z.of_nat (length bits)) None rest.
Proof.
  intros H. revert b. induction H as [|x bits -> H IH]; intros b; simpl.
  - f_equal. lia.
  - rewrite IH. f_equal. lia.
Qed.

Lemma zero_runs_zeros b s bits rest :
  Forall (fun x => x = false) bits ->
  zero_runs b (Some s) (bits ++ rest) = zero_runs (b + Z.of_nat (length bits)) (Some s) rest.
Proof.
  intros H. revert b. induction H as [|x bits -> H IH]; intros b; simpl.
  - f_equal. lia.
  - rewrite IH. f_equal. lia.
Qed.

(** *** The runs as extents *)

(** What the runs of [bits] from bit [b] are, with a run open since [start]. *)
Lemma zero_runs_spec bits : forall b start,
  0 < b -> b + Z.of_nat (length bits) < 2 ^ 64 ->
  match start with Some s => 0 < s < b | None => True end ->
  let lo := match start with Some s => s | None => b end in
  extents (zero_runs b start bits) /\
  Forall (fun k => lo <= block_offset k /\
                   block_offset k + key_length k <= b + Z.of_nat (length bits))
    (zero_runs b start bits) /\
  forall x, covered (zero_runs b start bits) x <->
    (lo <= x < b \/ b <= x /\ bits !! Z.to_nat (x - b) = Some false).
Proof.
  assert (forall k l lo hi, extents l -> extent_ok k ->
    Forall (fun a => lo <= block_offset a /\ block_offset a + key_length a <= hi) l ->
    block_offset k + key_length k <= lo -> extents (k :: l)) as Hcons.
  { intros k l lo hi Hl Hk Hall Hlo. apply extents_cons. split_and!; try done.
    rewrite Forall_forall in Hall. intros a Ha%Hall. unfold disjoint_extents. lia. }
  induction bits as [|[|] bits IH]; intros b start Hb Hmax Hs; cbn [zero_runs length] in *.
  - rewrite Z.add_0_r. destruct start as [s|].
    + split_and!.
      * apply (Hcons _ _ b b); simpl; unfold extent_ok; simpl; try lia; [|constructor].
        split_and!; [constructor|constructor|set_solver].
      * constructor; [simpl; lia|constructor].
      * intros x. rewrite covered_cons. unfold in_extent, covered; simpl. rewrite lookup_nil.
        split; [intros [H|(? & H & _)]; [lia|by apply elem_of_nil in H]|intros [H|[_ H]]; [lia|done]].
    + split_and!; [split_and!; [constructor|constructor|set_solver]|constructor|].
      intros x. unfold covered. rewrite lookup_nil.
      split; [intros (? & H & _); by apply elem_of_nil in H|intros [H|[_ H]]; [lia|done]].
  - destruct (IH (b + 1) None) as (H1 & H2 & H3); [lia|lia|done|].
    assert (forall x, b <= x -> (true :: bits) !! Z.to_nat (x - b) = Some false <->
      b + 1 <= x /\ bits !! Z.to_nat (x - (b + 1)) = Some false) as Hx.
    { intros x Hbx. destruct (Z.eq_dec x b) as [->|Hne].
      - rewrite Z.sub_diag. simpl. split; [done|lia].
      - replace (Z.to_nat (x - b)) with (S (Z.to_nat (x - (b + 1)))) by lia. simpl.
        split; [split; [lia|done]|by intros [_ ?]]. }
    assert (forall l : list fsm_btree_key, forall P : Z -> Prop,
      (forall x, covered l x <-> b + 1 <= x /\ bits !! Z.to_nat (x - (b + 1)) = Some false \/ P x) ->
      forall x, covered l x <-> P x \/ b <= x /\ (true :: bits) !! Z.to_nat (x - b) = Some false)
      as Hcov.
    { intros l P Hl x. rewrite Hl. destruct (Z.le_gt_cases b x) as [Hle|Hgt].
      - rewrite (Hx x Hle). tauto.
      - split; [intros [[? _]|?]; [lia|by left]|intros [?|[? _]]; [by right|lia]]. }
    destruct start as [s|].
    + split_and!.
      * apply (Hcons _ _ (b + 1) (b + 1 + Z.of_nat (length bits))); try done; simpl; [unfold extent_ok; simpl|]; lia.
      * constructor; [simpl; lia|]. eapply Forall_impl; [exact H2|]. simpl. lia.
      * apply Hcov. intros x. rewrite covered_cons, H3. unfold in_extent; simpl.
        split; [intros [?|[?|?]]|intros [?|?]]; try tauto; try lia; right; lia.
    + split_and!; try done.
      * eapply Forall_impl; [exact H2|]. simpl. lia.
      * apply Hcov. intros x. rewrite H3. split; [intros [?|?]|intros [?|?]]; try tauto; try lia.
  - set (s := match start with Some s => s | None => b end) in *.
    assert (0 < s <= b) as Hsb by (subst s; destruct start; lia).
    destruct (IH (b + 1) (Some s)) as (H1 & H2 & H3); [lia|lia|lia|].
    split_and!; try done.
    + eapply Forall_impl; [exact H2|]. simpl. lia.
    + intros x. rewrite H3. destruct (Z.eq_dec x b) as [->|Hne].
      { rewrite Z.sub_diag. simpl. split; [intros _; right; split; [lia|done]|left; lia]. }
      destruct (Z.le_gt_cases b x) as [Hle|Hgt].
      * replace (Z.to_nat (x - b)) with (S (Z.to_nat (x - (b + 1)))) by lia. simpl.
        split; (intros [?|[? ?]]; [left; lia|right; split; [lia|done]]).
      * split; (intros [?|[? ?]]; [left; lia|lia]).
Qed.

(** *** The total length of the runs is the number of clear bits *)
Definition total_length (l : list fsm_btree_key) : Z := foldr (fun k n => key_length k + n) 0 l.

Lemma total_length_app l1 l2 : total_length (l1 ++ l2) = total_length l1 + total_length l2.
Proof. induction l1 as [|k l1 IH]; [done|]. simpl. rewrite IH. lia. Qed.

#[export] Instance total_length_proper : Proper (Permutation ==> eq) total_length.
Proof. intros l l' E. induction E; simpl; lia. Qed.

Definition count_false (bits : list bool) : Z :=
  Z.of_nat (length (filter (fun x => x = false) bits)).

Lemma count_false_cons x l : count_false (x :: l) = (if x then 0 else 1) + count_false l.
Proof.
  unfold count_false. destruct x.
  - by rewrite filter_cons_False by done.
  - rewrite filter_cons_True by done. cbn [length]. lia.
Qed.

Lemma zero_runs_total bits b start :
  total_length (zero_runs b start bits) =
    match start with Some s => b - s | None => 0 end + count_false bits.
Proof.
  revert b start. induction bits as [|x bits IH]; intros b start.
  - change (count_false []) with 0. destruct start; simpl; lia.
  - rewrite count_false_cons. destruct x; cbn [zero_runs]; [destruct start; simpl|];
      rewrite IH; [lia..|destruct start; lia].
Qed.

(** ** Words *)
Definition wbits (w off n : Z) : list bool := map (Z.testbit w) (seqZ off n).

Lemma wbits_length w off n : 0 <= n -> Z.of_nat (length (wbits w off n)) = n.
Proof. intros. unfold wbits. rewrite length_map, length_seqZ. lia. Qed.

Lemma wbits_app w off n m : 0 <= n -> 0 <= m ->
  wbits w off (n + m) = wbits w off n ++ wbits w (off + n) m.
Proof. intros. unfold wbits. by rewrite seqZ_app, map_app. Qed.

Lemma wbits_cons w off n : 0 < n ->
  wbits w off n = Z.testbit w off :: wbits w (off + 1) (n - 1).
Proof. intros. unfold wbits. rewrite seqZ_cons by lia. simpl. by rewrite Z.add_1_r, Z.sub_1_r. Qed.

Lemma wbits_Forall v w off n :
  (forall i, off <= i < off + n -> Z.testbit w i = v) -> Forall (fun x => x = v) (wbits w off n).
Proof. intros H. apply Forall_map, Forall_forall. intros i Hi%elem_of_seqZ. by apply H. Qed.

Lemma find_bit_spec v w n : forall from, 
  exists d, find_bit v w from n = from + Z.of_nat d /\ (d <= n)%nat /\
    (forall i, from <= i < from + Z.of_nat d -> Z.testbit w i = negb v) /\
    ((d < n)%nat -> Z.testbit w (from + Z.of_nat d) = v).
Proof.
  induction n as [|n IH]; intros from; cbn [find_bit].
  - exists 0%nat. split_and!; try lia.
  - destruct (Bool.eqb (Z.testbit w from) v) eqn:E.
    + apply eqb_prop in E. exists 0%nat. split_and!; try lia. by rewrite Z.add_0_r.
    + apply eqb_false_iff in E. destruct (IH (from + 1)) as (d & -> & H1 & H2 & H3).
      exists (S d). split_and!; try lia.
      * intros i Hi. destruct (Z.eq_dec i from) as [->|]; [|apply H2; lia].
        by destruct (Z.testbit w from), v.
      * intros Hd. replace (from + Z.of_nat (S d)) with (from + 1 + Z.of_nat d) by lia.
        apply H3. lia.
Qed.

(** A word other than the constant one has a bit of the other value. *)
Lemma word_constant (v : bool) w :
  0 <= w < 2 ^ 32 -> (forall i, 0 <= i < 32 -> Z.testbit w i = v) ->
  w = if v then 0xFFFFFFFF else 0.
Proof.
  intros Hw Hv. assert (forall i, 32 <= i -> Z.testbit w i = false) as Hhigh.
  { intros i Hi. destruct (Z.eq_dec w 0) as [->|]; [apply Z.testbit_0_l|].
    apply Z.bits_above_log2; [lia|]. apply Z.log2_lt_pow2; [lia|].
    apply Z.lt_le_trans with (2 ^ 32); [lia|]. apply Z.pow_le_mono_r; lia. }
  apply Z.bits_inj'. intros i Hi. destruct (Z.le_gt_cases 32 i) as [Hge|Hlt].
  - rewrite Hhigh by done. destruct v; [|by rewrite Z.testbit_0_l].
    change 0xFFFFFFFF with (Z.ones 32). symmetry. apply Z.ones_spec_high. lia.
  - rewrite Hv by lia. destruct v; [|by rewrite Z.testbit_0_l].
    change 0xFFFFFFFF with (Z.ones 32). symmetry. apply Z.ones_spec_low. lia.
Qed.

Lemma find_bit_word (v : bool) w :
  0 <= w < 2 ^ 32 -> w <> (if v then 0 else 0xFFFFFFFF) ->
  exists d, find_bit v w 0 32 = d /\ 0 <= d < 32 /\
    (forall i, 0 <= i < d -> Z.testbit w i = negb v) /\ Z.testbit w d = v.
Proof.
  intros Hw Hne. destruct (find_bit_spec v w 32 0) as (d & -> & Hd & H1 & H2).
  destruct (Nat.eq_dec d 32) as [->|].
  - exfalso. apply Hne. rewrite (word_constant (negb v) w); [by destruct v|done|].
    intros i Hi. apply H1. lia.
  - exists (Z.of_nat d). split_and!; [lia..| |apply H2; lia]. intros i Hi. apply H1. lia.
Qed.

(** ** The scan *)
Section scan.
Context {T : Type} {FT : FreeTree T}.
Abbreviation info := (fsm_info T).

Definition run_start (mode : find_mode) (free_start : Z) : option Z :=
  match mode with FIND_SET_BIT => Some free_start | FIND_CLEAR_BIT => None end.

Definition same_bitmap (fsm fsm' : info) : Prop :=
  data fsm' = data fsm /\ length_in_bytes fsm' = length_in_bytes fsm /\
  page_count fsm' = page_count fsm /\ locked fsm' = locked fsm.

(** The state of the scan at bit [b]. *)
Record scan_inv (b : Z) (mode : find_mode) (fs : Z) (fsm : info) (o : oracle) : Prop := {
  si_ok : ft_ok (tree fsm);
  si_plenty : plenty o;
  si_pos : 0 <= b < 2 ^ 62;
  si_below : Forall (fun k => block_offset k < match run_start mode fs with
                               | Some s => s | None => b end) (ft_elems (tree fsm));
  si_start : mode = FIND_SET_BIT -> 0 <= fs < b;
  si_count : free_blocks_count fsm = u64 (total_length (ft_elems (tree fsm)))
}.

(** The scan reads [bits]. *)
Definition scanned (bits : list bool) (b : Z) mode fs (fsm : info) (o : oracle)
    mode' fs' (fsm' : info) o' : Prop :=
  scan_inv (b + Z.of_nat (length bits)) mode' fs' fsm' o' /\ same_bitmap fsm fsm' /\
  forall rest,
    ft_elems (tree fsm) ++ zero_runs b (run_start mode fs) (bits ++ rest) ≡ₚ
    ft_elems (tree fsm') ++
      zero_runs (b + Z.of_nat (length bits)) (run_start mode' fs') rest.

Lemma scanned_nil b mode fs fsm o :
  scan_inv b mode fs fsm o -> scanned [] b mode fs fsm o mode fs fsm o.
Proof.
  intros Hs. unfold scanned. simpl. rewrite Z.add_0_r. by split_and!.
Qed.

Lemma scanned_app bits1 bits2 b m1 f1 i1 o1 m2 f2 i2 o2 m3 f3 i3 o3 :
  scanned bits1 b m1 f1 i1 o1 m2 f2 i2 o2 ->
  scanned bits2 (b + Z.of_nat (length bits1)) m2 f2 i2 o2 m3 f3 i3 o3 ->
  scanned (bits1 ++ bits2) b m1 f1 i1 o1 m3 f3 i3 o3.
Proof.
  intros (_ & (E1 & E2 & E3 & E4) & H1) (Hs & (E5 & E6 & E7 & E8) & H2). unfold scanned.
  rewrite length_app, Nat2Z.inj_add, Z.add_assoc.
  split; [done|]. split; [split_and!; congruence|]. intros rest. rewrite <- app_assoc, H1. apply H2.
Qed.

(** Ones while no run is open, zeros while one is. *)
Lemma scanned_skip bits b mode fs fsm o :
  scan_inv b mode fs fsm o -> b + Z.of_nat (length bits) < 2 ^ 62 ->
  Forall (fun x => x = match mode with FIND_CLEAR_BIT => true | FIND_SET_BIT => false end) bits ->
  scanned bits b mode fs fsm o mode fs fsm o.
Proof.
  intros [H1 H2 H3 H4 H5 H6] Hb Hbits. split; [|split; [by split_and!|]].
  - split; try done; [lia| |intros Hm; specialize (H5 Hm); lia].
    eapply Forall_impl; [exact H4|]. simpl. intros k. destruct mode; simpl; lia.
  - intros rest. destruct mode; simpl in *; by rewrite ?zero_runs_ones, ?zero_runs_zeros.
Qed.

(** A run opens. *)
Lemma scanned_open b fs fsm o :
  scan_inv b FIND_CLEAR_BIT fs fsm o -> b + 1 < 2 ^ 62 ->
  scanned [false] b FIND_CLEAR_BIT fs fsm o FIND_SET_BIT b fsm o.
Proof.
  intros [H1 H2 H3 H4 H5 H6] Hb. split; [|split; [by split_and!|done]].
  cbn [length Z.of_nat]. split; try done; lia.
Qed.

(** A run closes and its extent goes into the tree. *)
Lemma scanned_close b fs fsm o :
  scan_inv b FIND_SET_BIT fs fsm o -> b + 1 < 2 ^ 62 ->
  exists fsm' o', fsm_insert fsm fs (u64 (b - fs)) o = Some (0, fsm', o') /\
    scanned [true] b FIND_SET_BIT fs fsm o FIND_CLEAR_BIT fs fsm' o' /\
    ft_elems (tree fsm') ≡ₚ FKey fs (b - fs) :: ft_elems (tree fsm).
Proof.
  intros [H1 H2 H3 H4 H5 H6] Hb. specialize (H5 eq_refl). simpl in H4. unfold fsm_insert.
  rewrite (uwrap_small 64 (b - fs)) by lia.
  destruct (ft_insert_ok (tree fsm) (FKey fs (b - fs)) o) as (t & o' & -> & Ho & Ht & He); try done.
  { intros Hin. rewrite Forall_forall in H4. apply H4 in Hin. simpl in Hin. lia. }
  cbn [Z.eqb negb]. do 2 eexists. split; [done|]. split; [|done].
  split; [|split; [by split_and!|]].
  - split; simpl; try done; [lia| |].
    + rewrite He. constructor; [simpl; lia|]. eapply Forall_impl; [exact H4|]. simpl. lia.
    + rewrite He, H6. simpl. unfold uwrap. rewrite Zplus_mod_idemp_l. f_equal. lia.
  - intros rest. simpl. rewrite He. by rewrite <- Permutation_middle.
Qed.

(** The end of the loops: the rest of the bits, read from bit [b]. *)
Definition scans (bits : list bool) (b : Z) mode fs fsm o (res : option (scan_result)) : Prop :=
  exists mode' fs' fsm' o', res = Some (0, mode', fs', fsm', o') /\
    scanned bits b mode fs fsm o mode' fs' fsm' o'.

Lemma scans_cons x bits b m1 f1 i1 o1 m2 f2 i2 o2 res :
  scanned [x] b m1 f1 i1 o1 m2 f2 i2 o2 ->
  (scan_inv (b + 1) m2 f2 i2 o2 -> scans bits (b + 1) m2 f2 i2 o2 res) ->
  scans (x :: bits) b m1 f1 i1 o1 res.
Proof.
  intros H1 H2. destruct H2 as (m3 & f3 & i3 & o3 & -> & H2); [by destruct H1 as [? _]|].
  do 4 eexists. split; [done|]. exact (scanned_app [x] bits _ _ _ _ _ _ _ _ _ _ _ _ _ H1 H2).
Qed.

Lemma shiftl_5 i : Z.shiftl i 5 = 32 * i.
Proof. rewrite Z.shiftl_mul_pow2 by lia. lia. Qed.

Lemma scan_word_tail fuel i w : forall off mode fs fsm o,
  1 <= off <= 32 -> 32 - off < Z.of_nat fuel -> 32 * i + 32 < 2 ^ 62 ->
  scan_inv (32 * i + off) mode fs fsm o ->
  scans (wbits w off (32 - off)) (32 * i + off) mode fs fsm o
    (scan_word fuel i w off mode fs fsm o).
Proof.
  induction fuel as [|fuel IH]; intros off mode fs fsm o Hoff Hf Hb Hs; [lia|].
  cbn [scan_word]. destruct (Z.eq_dec off 32) as [->|Hne].
  { do 4 eexists. split; [done|]. by apply scanned_nil. }
  rewrite Z.geb_leb, (proj2 (Z.leb_gt _ _)) by lia. rewrite (proj2 (Z.eqb_neq off 0)) by lia.
  rewrite wbits_cons, shiftl_5 by lia.
  assert (forall mode' fs' fsm' o', scan_inv (32 * i + off + 1) mode' fs' fsm' o' ->
    scans (wbits w (off + 1) (32 - off - 1)) (32 * i + off + 1) mode' fs' fsm' o'
      (scan_word fuel i w (off + 1) mode' fs' fsm' o')) as Hrec.
  { intros mode' fs' fsm' o' Hs'. rewrite <- Z.add_assoc in *.
    replace (32 - off - 1) with (32 - (off + 1)) by lia. apply IH; try done; lia. }
  destruct mode, (Z.testbit w off) eqn:E; cbn [negb].
  - eapply scans_cons; [|apply Hrec]. apply scanned_skip; [done|simpl; lia|by constructor].
  - eapply scans_cons; [|apply Hrec]. apply scanned_open; [done|lia].
  - destruct (scanned_close (32 * i + off) fs fsm o Hs) as (fsm' & o' & -> & Hsc & _); [lia|].
    eapply scans_cons; [exact Hsc|apply Hrec].
  - eapply scans_cons; [|apply Hrec]. apply scanned_skip; [done|simpl; lia|by constructor].
Qed.

(** The whole word is skipped. *)
Lemma scans_word_skip i w mode fs fsm o :
  32 * i + 32 < 2 ^ 62 -> scan_inv (32 * i) mode fs fsm o ->
  (forall k, 0 <= k < 32 -> Z.testbit w k = match mode with FIND_CLEAR_BIT => true | _ => false end) ->
  scans (wbits w 0 32) (32 * i) mode fs fsm o (Some (0, mode, fs, fsm, o)).
Proof.
  intros Hb Hs Hw. do 4 eexists. split; [done|]. apply scanned_skip; [done| |].
  - rewrite wbits_length; lia.
  - by apply wbits_Forall.
Qed.

Lemma scan_word_0 fuel i w mode fs (fsm : info) o :
  scan_word (S fuel) i w 0 mode fs fsm o =
    match mode with
    | FIND_CLEAR_BIT =>
      if w =? 0xFFFFFFFF then Some (0, mode, fs, fsm, o)
      else scan_word fuel i w (ffz w + 1) FIND_SET_BIT (Z.shiftl i 5 + ffz w) fsm o
    | FIND_SET_BIT =>
      if w =? 0 then Some (0, mode, fs, fsm, o)
      else match fsm_insert fsm fs (u64 (Z.shiftl i 5 + (ffs w - 1) - fs)) o with
           | None => None
           | Some (ret, fsm, o) =>
             if negb (ret =? 0) then Some (ret, FIND_CLEAR_BIT, fs, fsm, o)
             else scan_word fuel i w (ffs w - 1 + 1) FIND_CLEAR_BIT fs fsm o
           end
    end.
Proof. destruct mode; reflexivity. Qed.

Lemma scan_word_spec i w mode fs fsm o :
  0 <= w < 2 ^ 32 -> 0 <= i -> 32 * i + 32 < 2 ^ 62 ->
  scan_inv (32 * i) mode fs fsm o ->
  scans (wbits w 0 32) (32 * i) mode fs fsm o (scan_word 33 i w 0 mode fs fsm o).
Proof.
  intros Hw Hi Hb Hs.
  assert (forall d, 0 <= d < 32 -> wbits w 0 32 =
    wbits w 0 d ++ Z.testbit w d :: wbits w (d + 1) (32 - (d + 1))) as Hsplit.
  { intros d Hd. replace 32 with (d + (32 - d)) at 1 by lia. rewrite wbits_app by lia.
    rewrite (wbits_cons w (0 + d)) by lia. rewrite Z.add_0_l.
    by replace (32 - d - 1) with (32 - (d + 1)) by lia. }
  assert (forall d mode' fs' fsm' o' x, 0 <= d < 32 -> Z.testbit w d = x ->
    (forall k, 0 <= k < d -> Z.testbit w k = match mode with FIND_CLEAR_BIT => true | _ => false end) ->
    (scan_inv (32 * i + d) mode fs fsm o ->
      scanned [x] (32 * i + d) mode fs fsm o mode' fs' fsm' o') ->
    scans (wbits w 0 32) (32 * i) mode fs fsm o (scan_word 32 i w (d + 1) mode' fs' fsm' o'))
    as Hfound.
  { intros d mode' fs' fsm' o' x Hd Hx Hk Hstep. rewrite (Hsplit d Hd).
    assert (scanned (wbits w 0 d) (32 * i) mode fs fsm o mode fs fsm o) as Hskip.
    { apply scanned_skip; [done|rewrite wbits_length; lia|by apply wbits_Forall]. }
    pose proof (wbits_length w 0 d ltac:(lia)) as El.
    assert (scan_inv (32 * i + d) mode fs fsm o) as Hs' by (rewrite <- El; apply Hskip).
    rewrite Hx. destruct (scans_cons x (wbits w (d + 1) (32 - (d + 1))) (32 * i + d) mode fs fsm o
      mode' fs' fsm' o' (scan_word 32 i w (d + 1) mode' fs' fsm' o') (Hstep Hs'))
      as (m3 & f3 & i3 & o3 & E & H3).
    { intros Hs''. rewrite <- Z.add_assoc in *. apply scan_word_tail; try done; lia. }
    do 4 eexists. split; [exact E|]. eapply scanned_app; [exact Hskip|]. by rewrite El. }
  change 33%nat with (S 32). rewrite scan_word_0.
  rewrite shiftl_5. destruct mode.
  - destruct (Z.eqb_spec w 0xFFFFFFFF) as [->|Hne].
    { apply scans_word_skip; try done. intros k Hk.
      change 0xFFFFFFFF with (Z.ones 32). apply Z.ones_spec_low. lia. }
    destruct (find_bit_word false w Hw Hne) as (d & E & Hd & Hk & Hx). unfold ffz. rewrite E.
    eapply Hfound; try done. intros Hs'. apply scanned_open; [done|lia].
  - destruct (Z.eqb_spec w 0) as [->|Hne].
    { apply scans_word_skip; try done. intros k Hk. apply Z.testbit_0_l. }
    destruct (find_bit_word true w Hw Hne) as (d & E & Hd & Hk & Hx). unfold ffs. rewrite E.
    replace (d + 1 - 1) with d by lia.
    assert (scan_inv (32 * i + d) FIND_SET_BIT fs fsm o) as Hs'.
    { pose proof (wbits_length w 0 d ltac:(lia)) as El. rewrite <- El.
      eapply scanned_skip; [done|rewrite El; lia|]. by apply wbits_Forall. }
    destruct (scanned_close (32 * i + d) fs fsm o Hs') as (fsm' & o' & -> & Hsc & _); [lia|].
    cbn [Z.eqb negb]. by eapply Hfound.
Qed.

Lemma scan_words_spec ws : forall i mode fs fsm o,
  Forall (fun w => 0 <= w < 2 ^ 32) ws -> 0 <= i ->
  32 * (i + Z.of_nat (length ws)) < 2 ^ 62 ->
  scan_inv (32 * i) mode fs fsm o ->
  scans (concat (map (fun w => wbits w 0 32) ws)) (32 * i) mode fs fsm o
    (scan_words ws i mode fs fsm o).
Proof.
  induction ws as [|w ws IH]; intros i mode fs fsm o Hws Hi Hb Hs.
  { do 4 eexists. split; [done|]. by apply scanned_nil. }
  apply Forall_cons in Hws as [Hw Hws]. cbn [length] in Hb. cbn [scan_words map concat].
  destruct (scan_word_spec i w mode fs fsm o) as (m2 & f2 & i2 & o2 & -> & H2); try done; [lia|].
  cbn [Z.eqb negb]. pose proof (wbits_length w 0 32 ltac:(lia)) as El.
  destruct (IH (i + 1) m2 f2 i2 o2) as (m3 & f3 & i3 & o3 & E3 & H3); try done; [lia|lia| |].
  { replace (32 * (i + 1)) with (32 * i + 32) by lia. rewrite <- El. apply H2. }
  do 4 eexists. split; [exact E3|]. eapply scanned_app; [exact H2|]. rewrite El.
  by replace (32 * i + 32) with (32 * (i + 1)) by lia.
Qed.

Lemma scan_rest_spec n i w : forall off mode fs fsm o,
  0 <= off -> 32 * i + off + Z.of_nat n < 2 ^ 62 ->
  scan_inv (32 * i + off) mode fs fsm o ->
  scans (wbits w off (Z.of_nat n)) (32 * i + off) mode fs fsm o
    (scan_rest n i w off mode fs fsm o).
Proof.
  induction n as [|n IH]; intros off mode fs fsm o Hoff Hb Hs.
  { do 4 eexists. split; [done|]. by apply scanned_nil. }
  cbn [scan_rest]. rewrite wbits_cons, shiftl_5 by lia.
  replace (Z.of_nat (S n) - 1) with (Z.of_nat n) by lia.
  assert (forall mode' fs' fsm' o', scan_inv (32 * i + off + 1) mode' fs' fsm' o' ->
    scans (wbits w (off + 1) (Z.of_nat n)) (32 * i + off + 1) mode' fs' fsm' o'
      (scan_rest n i w (off + 1) mode' fs' fsm' o')) as Hrec.
  { intros mode' fs' fsm' o' Hs'. rewrite <- Z.add_assoc in *. apply IH; try done; lia. }
  destruct mode, (Z.testbit w off) eqn:E; cbn [negb].
  - eapply scans_cons; [|apply Hrec]. apply scanned_skip; [done|simpl; lia|by constructor].
  - eapply scans_cons; [|apply Hrec]. apply scanned_open; [done|lia].
  - destruct (scanned_close (32 * i + off) fs fsm o Hs) as (fsm' & o' & -> & Hsc & _); [lia|].
    eapply scans_cons; [exact Hsc|apply Hrec].
  - eapply scans_cons; [|apply Hrec]. apply scanned_skip; [done|simpl; lia|by constructor].
Qed.

(** ** The bits of the bitmap *)
Definition bitmap_bits (d : list Z) (n : Z) : list bool := map (bit d) (seqZ 0 n).

Lemma word_chunk d k w n :
  d !! k = Some w -> 0 <= n <= 32 ->
  map (bit d) (seqZ (32 * Z.of_nat k) n) = wbits w 0 n.
Proof.
  intros Hk Hn. apply map_seqZ_ext. intros x Hj. unfold bit. rewrite Z.add_0_l.
  replace ((32 * Z.of_nat k + x) / 32) with (Z.of_nat k)
    by (rewrite Z.mul_comm, Z.div_add_l, Z.div_small by lia; lia).
  rewrite Nat2Z.id, Hk. f_equal. rewrite Z.mul_comm, Z.add_comm, Z.mod_add by lia.
  apply Z.mod_small. lia.
Qed.

Lemma words_bits d n : forall k,
  (k + n <= length d)%nat ->
  map (bit d) (seqZ (32 * Z.of_nat k) (32 * Z.of_nat n)) =
    concat (map (fun w => wbits w 0 32) (take n (drop k d))).
Proof.
  induction n as [|n IH]; intros k Hk; [done|].
  destruct (lookup_lt_is_Some_2 d k) as [w Hw]; [lia|].
  rewrite (drop_S _ w) by done. cbn [take map concat].
  replace (32 * Z.of_nat (S n)) with (32 + 32 * Z.of_nat n) by lia.
  rewrite seqZ_app, map_app by lia. f_equal; [apply word_chunk; [done|lia]|].
  replace (32 * Z.of_nat k + 32) with (32 * Z.of_nat (S k)) by lia. apply IH. lia.
Qed.

(** ** The whole scan *)
Lemma fsm_get_tree_spec fsm o :
  ft_ok (tree fsm) -> ft_elems (tree fsm) = [] -> plenty o ->
  Forall (fun w => 0 <= w < 2 ^ 32) (data fsm) ->
  0 <= length_in_bytes fsm -> 8 * length_in_bytes fsm <= 32 * Z.of_nat (length (data fsm)) ->
  8 * length_in_bytes fsm < 2 ^ 60 ->
  exists fsm' o', fsm_get_tree fsm o = Some (0, fsm', o') /\ plenty o' /\
    ft_ok (tree fsm') /\ same_bitmap fsm fsm' /\
    ft_elems (tree fsm') ≡ₚ
      zero_runs 0 None (bitmap_bits (data fsm) (8 * length_in_bytes fsm)) /\
    free_blocks_count fsm' = u64 (total_length (ft_elems (tree fsm'))).
Proof.
  intros Ht He Ho Hw Hlen Hdata Hmax. unfold fsm_get_tree.
  set (len := length_in_bytes fsm) in *.
  pose proof (Z.shiftr_div_pow2 len 2 ltac:(lia)) as Es. change (2 ^ 2) with 4 in Es.
  pose proof (Z.shiftl_mul_pow2 (Z.shiftr len 2) 2 ltac:(lia)) as Es2. change (2 ^ 2) with 4 in Es2.
  pose proof (Z.div_mod len 4 ltac:(lia)). pose proof (Z.mod_pos_bound len 4 ltac:(lia)).
  set (size := Z.shiftr len 2) in *. rewrite Es2.
  set (rest_size := len - size * 4) in *. pose proof (shiftl_5 size) as Es5.
  change (data (set_count fsm 0)) with (data fsm).
  rewrite (proj2 (Z.ltb_ge _ _)) by lia.
  pose proof (length_take_le (data fsm) (Z.to_nat size) ltac:(lia)) as Elt.
  destruct (scan_words_spec (take (Z.to_nat size) (data fsm)) 0 FIND_CLEAR_BIT 0 (set_count fsm 0) o)
    as (m1 & f1 & i1 & o1 & -> & Hsc1); [by apply Forall_take|lia|lia| |].
  { split; simpl; try done; [by rewrite He|by rewrite He]. }
  cbn [Z.eqb negb].
  pose proof (words_bits (data fsm) (Z.to_nat size) 0 ltac:(lia)) as Ewb.
  rewrite drop_0, Z2Nat.id in Ewb by lia. rewrite <- Ewb in Hsc1.
  change (32 * Z.of_nat 0) with 0 in Hsc1.
  assert (exists bits2 m2 f2 i2 o2,
    (if rest_size =? 0 then Some (0, m1, f1, i1, o1)
     else match data i1 !! Z.to_nat size with
          | None => None
          | Some w => scan_rest (Z.to_nat (rest_size * 8)) size w 0 m1 f1 i1 o1
          end) = Some (0, m2, f2, i2, o2) /\
    map (bit (data fsm)) (seqZ 0 (32 * size)) ++ bits2 = bitmap_bits (data fsm) (8 * len) /\
    scanned (bitmap_bits (data fsm) (8 * len)) 0 FIND_CLEAR_BIT 0 (set_count fsm 0) o m2 f2 i2 o2)
    as (bits2 & m2 & f2 & i2 & o2 & -> & _ & Hsc).
  { unfold bitmap_bits. destruct (Z.eqb_spec rest_size 0) as [E0|E0].
    - exists [], m1, f1, i1, o1. rewrite app_nil_r.
      replace (8 * len) with (32 * size) by lia. done.
    - assert (data i1 = data fsm) as -> by apply Hsc1.
      destruct (lookup_lt_is_Some_2 (data fsm) (Z.to_nat size)) as [w Ew]; [lia|]. rewrite Ew.
      pose proof (word_chunk (data fsm) (Z.to_nat size) w (rest_size * 8) Ew ltac:(lia)) as Ec.
      rewrite Z2Nat.id in Ec by lia.
      assert (Z.of_nat (length (map (bit (data fsm)) (seqZ 0 (32 * size)))) = 32 * size) as El
        by (rewrite length_map, length_seqZ; lia).
      destruct (scan_rest_spec (Z.to_nat (rest_size * 8)) size w 0 m1 f1 i1 o1)
        as (m2 & f2 & i2 & o2 & E2 & Hsc2); [lia|lia| |].
      { rewrite Z.add_0_r, <- El. apply Hsc1. }
      rewrite Z2Nat.id, <- Ec, Z.add_0_r in Hsc2 by lia. rewrite E2.
      exists (map (bit (data fsm)) (seqZ (32 * size) (rest_size * 8))), m2, f2, i2, o2.
      split; [done|]. replace (8 * len) with (32 * size + rest_size * 8) by lia.
      rewrite seqZ_app, map_app, Z.add_0_l by lia. split; [done|].
      eapply scanned_app; [exact Hsc1|]. by rewrite El. }
  assert (Z.of_nat (length (bitmap_bits (data fsm) (8 * len))) = 8 * len) as El
    by (unfold bitmap_bits; rewrite length_map, length_seqZ; lia).
  pose proof Hsc as (Hsi & Hsame & Hruns). rewrite El, Z.add_0_l in *.
  specialize (Hruns []). rewrite app_nil_r in Hruns. simpl in Hruns. rewrite He in Hruns.
  simpl in Hruns. destruct m2; simpl in Hruns.
  - do 2 eexists. split; [done|]. split; [apply Hsi|]. split; [apply Hsi|]. split; [done|].
    split; [by rewrite Hruns, app_nil_r|apply Hsi].
  - destruct (scanned_close (8 * len) f2 i2 o2 Hsi) as (i3 & o3 & E3 & Hsc3 & He3); [lia|].
    replace (Z.shiftl size 5 + rest_size * 8 - f2) with (8 * len - f2) by lia. rewrite E3.
    do 2 eexists. split; [done|]. pose proof Hsc3 as (Hsi3 & Hsame3 & _).
    split; [apply Hsi3|]. split; [apply Hsi3|]. split; [|split; [|apply Hsi3]].
    + unfold same_bitmap in *. simpl in *. intuition congruence.
    + rewrite He3, Hruns. by rewrite <- Permutation_cons_append.
Qed.

Lemma count_false_clear d n : count_false (bitmap_bits d n) = clear_count d n.
Proof.
  unfold clear_count, clear_bits_list, bitmap_bits. generalize (seqZ 0 n). intros l.
  induction l as [|b l IH]; [done|]. cbn [map]. rewrite count_false_cons, IH.
  destruct (bit d b) eqn:E.
  - rewrite filter_cons_False by congruence. lia.
  - rewrite filter_cons_True by done. cbn [length]. lia.
Qed.

Lemma bitmap_bits_lookup d n b :
  0 <= b -> bitmap_bits d n !! Z.to_nat b = Some false <-> b < n /\ bit d b = false.
Proof.
  intros Hb. unfold bitmap_bits. change (map ?f ?l) with (f <$> l).
  rewrite list_lookup_fmap. destruct (Z.lt_ge_cases b n) as [Hlt|Hge].
  - rewrite lookup_seqZ_lt by lia. simpl. rewrite Z2Nat.id, Z.add_0_l by lia.
    split; [intros [= H]; done|intros [_ H]; by rewrite H].
  - rewrite lookup_seqZ_ge by lia. simpl. split; [done|lia].
Qed.

(** The scan of a bitmap whose first block, that of the super block, is in
    use establishes the invariant of the manager. *)
Lemma fsm_get_tree_inv fsm o :
  ft_ok (tree fsm) -> ft_elems (tree fsm) = [] -> plenty o ->
  Forall (fun w => 0 <= w < 2 ^ 32) (data fsm) ->
  0 < length_in_bytes fsm -> 8 * length_in_bytes fsm <= 32 * Z.of_nat (length (data fsm)) ->
  8 * length_in_bytes fsm < 2 ^ 60 -> bit (data fsm) 0 = true ->
  exists fsm' o', fsm_get_tree fsm o = Some (0, fsm', o') /\ plenty o' /\
    fsm_inv fsm' /\ same_bitmap fsm fsm' /\
    ft_elems (tree fsm') ≡ₚ
      zero_runs 0 None (bitmap_bits (data fsm) (8 * length_in_bytes fsm)).
Proof.
  intros Ht He Ho Hw Hlen Hdata Hmax H0.
  destruct (fsm_get_tree_spec fsm o) as (fsm' & o' & E & Ho' & Ht' & Hsame & Hr & Hc);
    try done; [lia|].
  exists fsm', o'. split_and!; try done; try apply Hsame.
  set (n := 8 * length_in_bytes fsm) in *.
  pose proof Hsame as (Hd & Hl & _ & _).
  assert (bitmap_bits (data fsm) n = true :: map (bit (data fsm)) (seqZ 1 (n - 1))) as Eb.
  { unfold bitmap_bits. rewrite seqZ_cons by lia. simpl. by rewrite H0, Z.sub_1_r. }
  destruct (zero_runs_spec (map (bit (data fsm)) (seqZ 1 (n - 1))) 1 None)
    as (Hx & _ & Hcov); [lia|rewrite length_map, length_seqZ; lia|done|].
  assert (zero_runs 0 None (bitmap_bits (data fsm) n) =
    zero_runs 1 None (map (bit (data fsm)) (seqZ 1 (n - 1)))) as Er by (by rewrite Eb).
  split; try done.
  - by rewrite Hr, Er.
  - intros b. rewrite Hr, Er, Hcov, Hd, Hl. fold n.
    destruct (Z.le_gt_cases 1 b) as [Hb|Hb].
    + pose proof (bitmap_bits_lookup (data fsm) n b ltac:(lia)) as Hlk.
      rewrite Eb in Hlk. replace (Z.to_nat b) with (S (Z.to_nat (b - 1))) in Hlk by lia.
      simpl in Hlk. rewrite Hlk. split; [intros [?|[_ ?]]|intros [? ?]; right]; [lia|..]; split; tauto || lia.
    + split; [intros [?|[? _]]; lia|]. intros [? Hb0]. replace b with 0 in Hb0 by lia. congruence.
  - rewrite Hc, Hr, zero_runs_total, Z.add_0_l, count_false_clear. by rewrite Hd, Hl.
Qed.
End scan.
