(* ===== verification/FsmTheorems.v ===== *)
(** * The free-space manager: instance and theorems

    The B-tree of fsm_btree.c implements the interface of the manager, and the
    main theorems about both. *)

From S2P Require Import Prelude FsmBtree FsmBtreeInv FsmBtreeInsert FsmBtreeDelete.
From S2P Require Import FsmAlloc Fsm FsmProofs FsmMount.
Open Scope Z_scope.

(** ** The B-tree as the tree of the manager *)
Lemma order_32 : (2 <= EMMCFS_FSM_BTREE_ORDER)%nat.
Proof. unfold EMMCFS_FSM_BTREE_ORDER. lia. Qed.

#[export] Instance fsm_btree_free_tree : FreeTree froot := {
  ft_empty := RootNull;
  ft_insert := fsm_btree_insert EMMCFS_FSM_BTREE_ORDER;
  ft_free := fsm_btree_free EMMCFS_FSM_BTREE_ORDER;
  ft_lookup := fsm_btree_lookup EMMCFS_FSM_BTREE_ORDER;
  ft_elems := root_elems;
  ft_ok := wf_root EMMCFS_FSM_BTREE_ORDER;
  ft_empty_ok := conj I eq_refl;
  ft_insert_ok t k o Hok Ho Hk := insert_plenty _ order_32 t k o Hok Ho Hk;
  ft_free_ok t off len o Hok Hl Ho H1 H2 H3 H4 :=
    fsm_btree_free_wf _ order_32 t off len o Hok Hl H1 H2 H3 H4 Ho;
  ft_lookup_ok t off len o Hok Hl Ho Hlen :=
    fsm_btree_lookup_wf _ order_32 t off len o Hok Hl Hlen Ho
}.

(** A journal that records the pages it is given. *)
Definition page_log : Type := list (bool * Z).

#[export] Instance page_log_journal : Journal page_log := {
  add_to_snapshot j p := (0, (true, p) :: j);
  set_page_dirty j p := (false, p) :: j
}.

Lemma page_log_ok : journal_ok (J := page_log).
Proof. intros j p. reflexivity. Qed.

(** ** Concrete trees and managers for the examples *)
Definition leaf_root (ks : list fsm_btree_key) : froot :=
  RootNode (FNode FSM_LEAF_NODE 0 ks []).

Lemma leaf_root_wf order ks :
  (1 <= length ks <= max_keys order)%nat -> StronglySorted klt ks ->
  wf_root order (leaf_root ks).
Proof. intros Hn Hs. split; [by exists 0%nat|]. done. Qed.

Definition example_keys : list fsm_btree_key := [FKey 10 5; FKey 20 3].

Lemma example_sorted : StronglySorted klt example_keys.
Proof. repeat constructor; unfold klt; simpl; lia. Qed.

Lemma example_wf : wf_root 2 (leaf_root example_keys).
Proof. apply leaf_root_wf; [unfold max_keys; simpl; lia|apply example_sorted]. Qed.

Lemma example_extents : extents example_keys.
Proof.
  unfold example_keys. apply extents_cons. split; [unfold extent_ok; simpl; lia|]. split.
  - apply extents_cons. split; [unfold extent_ok; simpl; lia|]. split.
    + split; [constructor|split; [constructor|set_solver]].
    + set_solver.
  - intros a Ha. apply list_elem_of_singleton in Ha as ->. unfold disjoint_extents; simpl. lia.
Qed.

(** A bitmap of one word: block 0 and blocks 4 to 7 are in use. *)
Definition example_fsm : fsm_info froot := FsmInfo RootNull [0xF1] 4 1 0 false.

Definition mounted_fsm : fsm_info froot :=
  FsmInfo (leaf_root [FKey 1 3; FKey 8 24]) [0xF1] 4 1 27 false.

Lemma mounted_elems_sorted : StronglySorted klt [FKey 1 3; FKey 8 24].
Proof. repeat constructor; unfold klt; simpl; lia. Qed.

Lemma mounted_geometry : fsm_geometry mounted_fsm.
Proof. split; simpl; lia. Qed.

Lemma mounted_inv : fsm_inv mounted_fsm.
Proof.
  destruct (fsm_get_tree_inv (FT := fsm_btree_free_tree) example_fsm [])
    as (fsm' & o' & E & _ & Hinv & _); try done;
    [apply plenty_nil|repeat constructor; lia|simpl; lia..|].
  vm_compute in E. injection E as <- <-. exact Hinv.
Qed.

(** ** The B-tree *)

(** C17: inserting a key into a well-formed free-space tree, whatever the
    allocator answers.  It adds exactly that key, or, when the key is there,
    returns [-EEXIST] and changes no key; both keep the tree well formed, and
    these are the only results while there is memory.  Without memory it returns
    [-ENOMEM] with all keys kept: the tree is then well formed, or the pointer
    to its first node is an error pointer, or its full root lies below a new
    root without keys.  It reads or writes outside of the nodes only when the
    first allocation above a full root fails. *)
Theorem fsm_btree_insert_correct order root key o :
  (2 <= order)%nat -> wf_root order root ->
  match fsm_btree_insert order root key o with
  | Some (ret, root', o') =>
    ret = 0 /\ key ∉ root_elems root /\ root_elems root' ≡ₚ key :: root_elems root /\ wf_root order root' \/
    ret = - EEXIST /\ key ∈ root_elems root /\ root_elems root' = root_elems root /\ wf_root order root' \/
    ret = - ENOMEM /\ ~ plenty o /\ root_elems root' = root_elems root /\
      (wf_root order root' \/ root = RootNull /\ root' = RootErr \/
       exists n, root = RootNode n /\ nr_active n = max_keys order /\
         root' = RootNode (FNode FSM_INDEX_NODE (nlevel n + 1) [] [n]))
  | None => fst (alloc o) = false /\ exists n, root = RootNode n /\ nr_active n = max_keys order
  end.
Proof.
  intros Hord Hr. pose proof (fsm_btree_insert_all order Hord root key o Hr) as H.
  destruct (fsm_btree_insert order root key o) as [[[ret root'] o']|]; [|exact H].
  destruct H as [_ [(-> & H1 & H2)|[H|H]]]; [left|by right; left|by right; right].
  split_and!; [done|by eapply inserted_fresh|by apply inserted_perm|done].
Qed.

(** A full root, with memory and without memory for the second node of its
    split. *)
Definition full_keys : list fsm_btree_key := [FKey 10 1; FKey 20 1; FKey 30 1].

Lemma full_wf : wf_root 2 (leaf_root full_keys).
Proof. apply leaf_root_wf; [unfold max_keys; simpl; lia|]. repeat constructor; unfold klt; simpl; lia. Qed.

Lemma fsm_btree_insert_correct_witness :
  (exists root', fsm_btree_insert 2 (leaf_root full_keys) (FKey 15 2) [] = Some (0, root', []) /\ wf_root 2 root') /\
  exists root', fsm_btree_insert 2 (leaf_root full_keys) (FKey 15 2) [true; false] = Some (- ENOMEM, root', []) /\
    root_elems root' = full_keys.
Proof.
  pose proof (fun o => fsm_btree_insert_correct 2 (leaf_root full_keys) (FKey 15 2) o ltac:(lia) full_wf) as W.
  pose proof (W []) as W1. pose proof (W [true; false]) as W2. split.
  - destruct (fsm_btree_insert 2 (leaf_root full_keys) (FKey 15 2) []) as [[[ret root'] o']|] eqn:E; [|vm_compute in E; discriminate].
    exists root'. assert (ret = 0 /\ o' = []) as [-> ->] by (vm_compute in E; by injection E as <- _ <-). split; [done|].
    destruct W1 as [(_ & _ & _ & H)|[(? & _)|(? & _)]]; [exact H|discriminate..].
  - destruct (fsm_btree_insert 2 (leaf_root full_keys) (FKey 15 2) [true; false]) as [[[ret root'] o']|] eqn:E; [|vm_compute in E; discriminate].
    exists root'. assert (ret = - ENOMEM /\ o' = []) as [-> ->] by (vm_compute in E; by injection E as <- _ <-). split; [done|].
    destruct W2 as [(? & _)|[(? & _)|(_ & _ & H & _)]]; [discriminate..|exact H].
Defined.

(** C15: deleting a key from a well-formed free-space tree removes exactly that
    key (and nothing when it is absent) and keeps the tree well formed, with
    every borrow, merge and root collapse on the way; when an allocation fails
    it returns [-ENOMEM] and no key is lost. *)
Theorem fsm_btree_delete_correct order root key o :
  (2 <= order)%nat -> wf_root order root ->
  exists ret root' o',
    fsm_btree_delete order root key o = Some (ret, root', o') /\
    (ret = 0 /\ wf_root order root' /\
       root_elems root' = filter (fun k => k <> key) (root_elems root) \/
     ret = - ENOMEM /\ ~ plenty o /\ root_elems root' ≡ₚ root_elems root).
Proof.
  intros Hord Hr. destruct (fsm_btree_delete_wf order Hord root key o Hr)
    as (ret & root' & o' & E & _ & H). exists ret, root', o'. done.
Qed.

Lemma fsm_btree_delete_correct_witness :
  wf_root 2 (leaf_root example_keys) /\
  exists ret root' o',
    fsm_btree_delete 2 (leaf_root example_keys) (FKey 10 5) [] = Some (ret, root', o') /\
    (ret = 0 /\ wf_root 2 root' /\
       root_elems root' = filter (fun k => k <> FKey 10 5) example_keys \/
     ret = - ENOMEM /\ ~ plenty [] /\ root_elems root' ≡ₚ example_keys).
Proof.
  split; [apply example_wf|].
  apply (fsm_btree_delete_correct 2 (leaf_root example_keys)); [lia|apply example_wf].
Defined.

(** C18: a lookup in a tree of disjoint free extents returns 0 only when no
    extent is long enough, and then changes nothing; otherwise the blocks it
    returns were free and are exactly the blocks that leave the free space, and
    the requested place is used whenever the extent that begins there is long
    enough. *)
Theorem fsm_btree_lookup_correct order root off len o :
  (2 <= order)%nat -> wf_root order root -> extents (root_elems root) -> 0 < len -> plenty o ->
  exists r root' o',
    fsm_btree_lookup order root off len o = Some (r, root', o') /\ wf_root order root' /\
    extents (root_elems root') /\
    (r = 0 /\ root' = root /\ (forall k, k ∈ root_elems root -> key_length k < len) \/
     0 < r /\
       (forall b, r <= b < r + len -> covered (root_elems root) b) /\
       (forall b, covered (root_elems root') b <->
                  covered (root_elems root) b /\ ~ r <= b < r + len) /\
       (r = off \/ forall k, k ∈ root_elems root -> block_offset k = off -> key_length k < len)).
Proof.
  intros Hord Hr Hl Hlen Ho.
  destruct (fsm_btree_lookup_wf order Hord root off len o Hr Hl Hlen Ho)
    as (r & root' & o' & E & _ & Hw & [(-> & -> & H)|(Hr0 & (H1 & H2 & H3) & H4)]).
  - exists 0, root, o'. split_and!; try done. left. split_and!; try done. by apply Forall_forall.
  - exists r, root', o'. split_and!; try done. by right.
Qed.

Lemma fsm_btree_lookup_correct_witness :
  extents (root_elems (leaf_root example_keys)) /\
  exists r root' o',
    fsm_btree_lookup 2 (leaf_root example_keys) 20 2 [] = Some (r, root', o') /\
    wf_root 2 root' /\ extents (root_elems root') /\
    (r = 0 /\ root' = leaf_root example_keys /\
       (forall k, k ∈ example_keys -> key_length k < 2) \/
     0 < r /\ (forall b, r <= b < r + 2 -> covered example_keys b) /\
       (forall b, covered (root_elems root') b <-> covered example_keys b /\ ~ r <= b < r + 2) /\
       (r = 20 \/ forall k, k ∈ example_keys -> block_offset k = 20 -> key_length k < 2)).
Proof.
  split; [apply example_extents|].
  apply (fsm_btree_lookup_correct 2 (leaf_root example_keys));
    [lia|apply example_wf|apply example_extents|lia|apply plenty_nil].
Defined.

(** C19: freeing blocks that are not free yet adds exactly these blocks to the
    free space, whichever neighbours they are joined with, and the extents of
    the tree stay disjoint. *)
Theorem fsm_btree_free_correct order root off len o :
  (2 <= order)%nat -> wf_root order root -> extents (root_elems root) -> plenty o ->
  0 < off -> 0 < len -> off + len < 2 ^ 64 ->
  (forall b, off <= b < off + len -> ~ covered (root_elems root) b) ->
  exists root' o',
    fsm_btree_free order root off len o = Some (0, root', o') /\ wf_root order root' /\
    extents (root_elems root') /\
    forall b, covered (root_elems root') b <->
              covered (root_elems root) b \/ off <= b < off + len.
Proof.
  intros Hord Hr Hl Ho H1 H2 H3 H4.
  destruct (fsm_btree_free_wf order Hord root off len o Hr Hl H1 H2 H3 H4 Ho)
    as (root' & o' & E & _ & Hw & He & Hc). exists root', o'. done.
Qed.

Lemma fsm_btree_free_correct_witness :
  (forall b, 15 <= b < 20 -> ~ covered example_keys b) /\
  exists root' o',
    fsm_btree_free 2 (leaf_root example_keys) 15 5 [] = Some (0, root', o') /\
    wf_root 2 root' /\ extents (root_elems root') /\
    forall b, covered (root_elems root') b <-> covered example_keys b \/ 15 <= b < 15 + 5.
Proof.
  assert (forall b, 15 <= b < 20 -> ~ covered example_keys b) as H.
  { intros b Hb (k & [->|[->|Hk]%elem_of_cons]%elem_of_cons & Hin); unfold in_extent in Hin;
      simpl in Hin; [lia|lia|by apply elem_of_nil in Hk]. }
  split; [exact H|].
  apply (fsm_btree_free_correct 2 (leaf_root example_keys));
    [lia|apply example_wf|apply example_extents|apply plenty_nil|lia|lia|lia|exact H].
Defined.

(** The destruction of a tree ends and frees every node of it exactly
    once. *)
Theorem fsm_btree_destroy_once order root :
  wf_root order root ->
  exists ns, fsm_btree_destroy root = Some ns /\
    ns ≡ₚ match root with RootNode n => all_nodes n | _ => [] end.
Proof.
  destruct root as [| |n]; [by exists []|done|]. intros ((h & Hwf) & _).
  destruct (destroy_level_spec order (node_count n) [n]) as (ns & E & H).
  - constructor; [by exists h|constructor].
  - simpl. lia.
  - exists ns. split; [exact E|]. rewrite H. unfold queue_nodes. simpl. by rewrite app_nil_r.
Qed.

Lemma fsm_btree_destroy_once_witness :
  wf_root 2 (leaf_root example_keys) /\
  exists ns, fsm_btree_destroy (leaf_root example_keys) = Some ns /\
    ns ≡ₚ all_nodes (FNode FSM_LEAF_NODE 0 example_keys []).
Proof.
  split; [apply example_wf|]. apply (fsm_btree_destroy_once 2 (leaf_root example_keys)), example_wf.
Defined.

(** ** The manager *)

(** C35: at mount time the scan of the bitmap, which skips whole words and uses
    [ffz] and [ffs], inserts exactly the maximal runs of clear bits that a
    bit-by-bit reading finds, and leaves a tree and a free-block count that
    agree with the bitmap. *)
Theorem fsm_get_tree_correct {T} {FT : FreeTree T} (fsm : fsm_info T) o :
  ft_ok (tree fsm) -> ft_elems (tree fsm) = [] -> plenty o ->
  (forall w, w ∈ data fsm -> 0 <= w < 2 ^ 32) ->
  0 < length_in_bytes fsm -> 8 * length_in_bytes fsm <= 32 * Z.of_nat (length (data fsm)) ->
  8 * length_in_bytes fsm < 2 ^ 60 -> bit (data fsm) 0 = true ->
  exists fsm' o', fsm_get_tree fsm o = Some (0, fsm', o') /\ fsm_inv fsm' /\
    data fsm' = data fsm /\
    ft_elems (tree fsm') ≡ₚ
      zero_runs 0 None (map (bit (data fsm)) (seqZ 0 (8 * length_in_bytes fsm))).
Proof.
  intros H1 H2 H3 H4 H5 H6 H7 H8. apply Forall_forall in H4.
  destruct (fsm_get_tree_inv fsm o H1 H2 H3 H4 H5 H6 H7 H8)
    as (fsm' & o' & E & _ & Hinv & (Hd & _) & Hr). exists fsm', o'. done.
Qed.

Lemma fsm_get_tree_correct_witness :
  exists fsm' o', fsm_get_tree example_fsm [] = Some (0, fsm', o') /\ fsm_inv fsm' /\
    data fsm' = [0xF1] /\
    ft_elems (tree fsm') ≡ₚ zero_runs 0 None (map (bit [0xF1]) (seqZ 0 32)).
Proof.
  apply (fsm_get_tree_correct example_fsm []); try done; [apply plenty_nil|].
  intros w Hw. apply list_elem_of_singleton in Hw as ->. lia.
Defined.

(** C20: with the tree and the bitmap in agreement, fewer than 2^32 bits of the
    bitmap that leave a bit of its last page unused, memory, and a journal that
    accepts the pages, a request that does not reach the end of the volume:
    [emmcfs_fsm_get_free_block] returns 0 only when no extent is long enough;
    otherwise it returns blocks that were clear in the bitmap, sets exactly
    their bits, keeps the tree, the bitmap and the free-block count in agreement
    and releases the mutex. *)
Theorem emmcfs_fsm_get_free_block_correct {T J} {FT : FreeTree T} {JN : Journal J}
    mount_finished total inode hint len (fsm : fsm_info T) (j : J) o :
  fsm_inv fsm -> fsm_geometry fsm -> journal_ok (J := J) -> plenty o ->
  0 < len -> u64 (hint + len) < total ->
  exists r fsm' j' o',
    emmcfs_fsm_get_free_block mount_finished total inode hint len fsm j o =
      Some (r, inode, fsm', j', o') /\
    fsm_inv fsm' /\ locked fsm' = false /\
    (r = 0 /\ data fsm' = data fsm /\
       (forall k, k ∈ ft_elems (tree fsm) -> key_length k < len) \/
     0 < r /\ r + len <= 8 * length_in_bytes fsm /\
       (forall b, r <= b < r + len -> bit (data fsm) b = false) /\
       (forall b, 0 <= b -> bit (data fsm') b =
          if (r <=? b) && (b <? r + len) then true else bit (data fsm) b)).
Proof.
  intros Hinv Hgeo Hj Ho Hlen Htot.
  destruct (get_free_block_inv mount_finished total inode hint len fsm j o
    Hinv Hgeo Hj Ho Hlen Htot) as (r & fsm' & j' & o' & E & _ & Hinv' & Hl & _ & _ & Hp).
  exists r, fsm', j', o'. split_and!; try done.
  destruct Hp as [(-> & Hd & Hk)|(H1 & H2 & H3 & [_ H4] & _)]; [left|by right].
  split_and!; try done. by apply Forall_forall.
Qed.

Definition example_inode : fsm_inode := FsmInode true 12 0 0.

Lemma emmcfs_fsm_get_free_block_correct_witness :
  exists r fsm' j' o',
    emmcfs_fsm_get_free_block true 32 example_inode 8 2 mounted_fsm ([] : page_log) [] =
      Some (r, example_inode, fsm', j', o') /\
    fsm_inv fsm' /\ locked fsm' = false /\
    (r = 0 /\ data fsm' = [0xF1] /\
       (forall k, k ∈ ft_elems (tree mounted_fsm) -> key_length k < 2) \/
     0 < r /\ r + 2 <= 32 /\
       (forall b, r <= b < r + 2 -> bit [0xF1] b = false) /\
       (forall b, 0 <= b -> bit (data fsm') b =
          if (r <=? b) && (b <? r + 2) then true else bit [0xF1] b)).
Proof.
  apply (emmcfs_fsm_get_free_block_correct true 32 example_inode 8 2 mounted_fsm ([] : page_log) []);
    [apply mounted_inv|apply mounted_geometry|apply page_log_ok|apply plenty_nil|lia|].
  vm_compute. reflexivity.
Defined.

(** C21: with the tree and the bitmap in agreement, fewer than 2^32 bits of the
    bitmap that leave a bit of its last page unused, memory, a journal that
    accepts the pages and nothing preallocated, [fsm_free_block_chunk] on blocks
    that are in use clears exactly their bits, returns 0 with the mutex
    released, and keeps the tree, the bitmap and the free-block count in
    agreement. *)
Theorem fsm_free_block_chunk_correct {T J} {FT : FreeTree T} {JN : Journal J}
    mount_finished (fsm : fsm_info T) off len inode (j : J) o :
  fsm_inv fsm -> fsm_geometry fsm -> journal_ok (J := J) -> plenty o ->
  match inode with Some ino => prealloc_block_count ino = 0 | None => True end ->
  0 < off -> 0 < len -> off + len <= 8 * length_in_bytes fsm ->
  (forall b, off <= b < off + len -> bit (data fsm) b = true) ->
  exists inode' fsm' j' o',
    fsm_free_block_chunk mount_finished fsm off len inode j o =
      Some (0, inode', fsm', j', o') /\
    fsm_inv fsm' /\ locked fsm' = false /\
    (forall b, 0 <= b -> bit (data fsm') b =
       if (off <=? b) && (b <? off + len) then false else bit (data fsm) b).
Proof.
  intros H1 H2 H3 H4 H5 H6 H7 H8 H9.
  destruct (free_block_chunk_inv mount_finished fsm off len inode j o H1 H2 H3 H4 H5 H6 H7 H8 H9)
    as (fsm' & j' & o' & E & _ & Hinv & Hl & _ & _ & [_ Hb]).
  exists (drop_prealloc inode), fsm', j', o'. done.
Qed.

Lemma fsm_free_block_chunk_correct_witness :
  (forall b, 4 <= b < 8 -> bit (data mounted_fsm) b = true) /\
  exists inode' fsm' j' o',
    fsm_free_block_chunk true mounted_fsm 4 4 (Some example_inode) ([] : page_log) [] =
      Some (0, inode', fsm', j', o') /\
    fsm_inv fsm' /\ locked fsm' = false /\
    (forall b, 0 <= b -> bit (data fsm') b =
       if (4 <=? b) && (b <? 4 + 4) then false else bit (data mounted_fsm) b).
Proof.
  assert (forall b, 4 <= b < 8 -> bit (data mounted_fsm) b = true) as H.
  { intros b Hb. assert (b = 4 \/ b = 5 \/ b = 6 \/ b = 7) as [->|[->|[->| ->]]] by lia; reflexivity. }
  split; [exact H|].
  apply (fsm_free_block_chunk_correct true mounted_fsm 4 4 (Some example_inode) ([] : page_log) []);
    [apply mounted_inv|apply mounted_geometry|apply page_log_ok|apply plenty_nil|
     reflexivity|lia|lia|simpl; lia|exact H].
Defined.

(** C36: allocating blocks and putting them back restores the bitmap, under the
    same conditions: tree and bitmap in agreement, fewer than 2^32 bits that
    leave a bit of the last page unused, memory, a journal that accepts the
    pages and nothing preallocated. *)
Theorem get_put_roundtrip {T J} {FT : FreeTree T} {JN : Journal J}
    mount_finished total inode hint len (fsm : fsm_info T) (j : J) o r fsm1 j1 o1 :
  fsm_inv fsm -> fsm_geometry fsm -> journal_ok (J := J) -> plenty o ->
  prealloc_block_count inode = 0 -> 0 < len -> u64 (hint + len) < total ->
  emmcfs_fsm_get_free_block mount_finished total inode hint len fsm j o =
    Some (r, inode, fsm1, j1, o1) -> r <> 0 ->
  exists inode2 fsm2 j2 o2,
    emmcfs_fsm_put_free_block mount_finished fsm1 inode r len j1 o1 =
      Some (0, inode2, fsm2, j2, o2) /\
    fsm_inv fsm2 /\ forall b, 0 <= b -> bit (data fsm2) b = bit (data fsm) b.
Proof.
  intros Hinv Hgeo Hj Ho Hino Hlen Htot E Hr.
  destruct (get_free_block_inv mount_finished total inode hint len fsm j o
    Hinv Hgeo Hj Ho Hlen Htot) as (r' & fsm1' & j1' & o1' & E' & Ho1 & Hinv1 & _ & Hl & Hp & Hpost).
  rewrite E in E'. injection E' as <- <- <- <-.
  destruct Hpost as [(-> & _)|(Hr0 & Hlim & Hclear & [Hdl Hset] & _)]; [done|].
  destruct (free_block_chunk_inv mount_finished fsm1 r len (Some inode) j1 o1)
    as (fsm2 & j2 & o2 & E2 & _ & Hinv2 & _ & _ & _ & [_ Hb]); try done.
  - destruct Hgeo. split; rewrite ?Hl, ?Hp, ?Hdl; done.
  - by rewrite Hl.
  - intros b Hb. rewrite Hset by lia.
    destruct (Z.leb_spec r b), (Z.ltb_spec b (r + len)); simpl; try done; lia.
  - do 4 eexists. split; [exact E2|]. split; [done|]. intros b Hb0. rewrite Hb, Hset by done.
    destruct (Z.leb_spec r b), (Z.ltb_spec b (r + len)); simpl; try done.
    symmetry. apply Hclear. lia.
Qed.

Lemma get_put_roundtrip_witness :
  exists inode2 fsm2 j2 o2,
    emmcfs_fsm_put_free_block true
      (FsmInfo (leaf_root [FKey 1 3; FKey 10 22]) [0x3F1] 4 1 25 false) example_inode 8 2
      [(false, 0); (true, 0)] [] = Some (0, inode2, fsm2, j2, o2) /\
    fsm_inv fsm2 /\ forall b, 0 <= b -> bit (data fsm2) b = bit [0xF1] b.
Proof.
  apply (get_put_roundtrip true 32 example_inode 8 2 mounted_fsm ([] : page_log) []);
    [apply mounted_inv|apply mounted_geometry|apply page_log_ok|apply plenty_nil|
     reflexivity|lia|vm_compute; reflexivity|vm_compute; reflexivity|lia].
Defined.

(** ** Defects *)

(** When the second allocation of a root split fails, the insertion returns
    [-ENOMEM] but leaves a root without keys above the old root; from then on
    the deletion of a key that is present returns 0 and removes nothing. *)
Theorem insert_nomem_disables_delete :
  exists root key o root1 k,
    wf_root 2 root /\ fsm_btree_insert 2 root key o = Some (- ENOMEM, root1, []) /\
    k ∈ root_elems root1 /\ fsm_btree_delete 2 root1 k [] = Some (0, root1, []).
Proof.
  exists (leaf_root [FKey 10 1; FKey 20 1; FKey 30 1]), (FKey 40 1), [true; false].
  eexists _, (FKey 10 1). split_and!; [|reflexivity| |reflexivity].
  - apply leaf_root_wf; [unfold max_keys; simpl; lia|].
    repeat constructor; unfold klt; simpl; lia.
  - simpl. set_solver.
Qed.

(** The walk of [fsm_btree_free] visits only the last child of every index
    node, so a freed range is not joined with a neighbour elsewhere in the
    tree: afterwards seven contiguous blocks are free and an allocation of
    seven blocks fails. *)
Theorem free_misses_neighbour :
  exists root root1 o1,
    wf_root 2 root /\ fsm_btree_free 2 root 15 2 [] = Some (0, root1, o1) /\
    (forall b, 10 <= b < 17 -> covered (root_elems root1) b) /\
    fsm_btree_lookup 2 root1 10 7 [] = Some (0, root1, []).
Proof.
  exists (RootNode (FNode FSM_INDEX_NODE 1 [FKey 20 1]
    [FNode FSM_LEAF_NODE 0 [FKey 10 5] []; FNode FSM_LEAF_NODE 0 [FKey 30 1] []])).
  eexists _, _. split; [|split; [vm_compute; reflexivity|split; [|vm_compute; reflexivity]]].
  - split; [exists 1%nat|].
    + split_and!; try done. repeat constructor; unfold max_keys; vm_compute; lia.
    + split; [unfold max_keys; vm_compute; lia|]. repeat constructor; unfold klt; simpl; lia.
  - intros b Hb. destruct (Z.lt_ge_cases b 15).
    + exists (FKey 10 5). split; [simpl; set_solver|]. unfold in_extent; simpl; lia.
    + exists (FKey 15 2). split; [simpl; set_solver|]. unfold in_extent; simpl; lia.
Qed.

(** The page of the block that follows the chunk is checked and journalled
    too, so the allocation of the last block of a volume whose bitmap fills its
    last page hits the [BUG_ON] although the block is free. *)
Theorem last_block_bug :
  exists (fsm : fsm_info froot) b,
    fsm_inv fsm /\ 8 * length_in_bytes fsm <= page_count fsm * 2 ^ 15 /\
    bit (data fsm) b = false /\ b < 8 * length_in_bytes fsm /\
    emmcfs_fsm_get_free_block true (2 ^ 15) example_inode 10 1 fsm ([] : page_log) [] = None.
Proof.
  pose (d := replicate 1023 0xFFFFFFFF ++ [0x7FFFFFFF]).
  destruct (fsm_get_tree_inv (FT := fsm_btree_free_tree) (FsmInfo RootNull d 4096 1 0 false) [])
    as (fsm & o' & E & _ & Hinv & _); try done.
  - apply plenty_nil.
  - apply Forall_app. split; [apply Forall_replicate|repeat constructor]; lia.
  - exists fsm, 32767. vm_compute in E. injection E as <- <-. split; [exact Hinv|].
    split_and!; try done; vm_compute; reflexivity.
Qed.

(** During the mount, freeing a block that is already free returns
    [-EFAULT] with the mutex still held. *)
Theorem free_error_keeps_lock :
  exists fsm' o',
    fsm_free_block_chunk false mounted_fsm 8 1 None ([] : page_log) [] =
      Some (- EFAULT, None, fsm', [(true, 0)], o') /\ locked fsm' = true.
Proof. eexists _, _. split; [vm_compute; reflexivity|reflexivity]. Qed.
