(* ===== verification/Data.v ===== *)
(** * Page input and output of data.c

    The block device as a map from byte addresses to bytes, and the transfers
    of pages in requests ([struct bio]) of limited size.  The allocation of a
    request and the number of pages it takes are decisions of the kernel, given
    by the list of the answers of the coming requests; past its end every
    request is allocated and takes all the pages. *)

From S2P Require Import Prelude.
Open Scope Z_scope.

Definition SECTOR_SIZE : Z := 512.
Definition SECTOR_SIZE_SHIFT : Z := 9.
Definition PAGE_CACHE_SHIFT : Z := 12.
Definition PAGE_CACHE_SIZE : Z := 4096.
Definition SECTOR_PER_PAGE : Z := PAGE_CACHE_SIZE / SECTOR_SIZE.
Definition BIO_MAX_PAGES : Z := 256.

(** ** The device *)
Definition device : Type := Z -> Z.

Definition dwrite (d : device) (a : Z) (l : list Z) : device := fun x =>
  if (a <=? x) && (x <? a + Z.of_nat (length l)) then default 0 (l !! Z.to_nat (x - a)) else d x.

Definition dread (d : device) (a n : Z) : list Z := map d (seqZ a n).

(** A page is its 4096 bytes. *)
Abbreviation page := (list Z) (only parsing).

(** ** Requests *)

(** The answer to [bio_alloc] and the number of pages that [bio_add_page] then
    accepts. *)
Inductive bio_ans := BioFail | BioCap (n : nat).

Definition next_bio (io : list bio_ans) (all : nat) : bio_ans * list bio_ans :=
  match io with [] => (BioCap all, []) | b :: io => (b, io) end.

(** [allocate_new_bio]: an error code, 0 for a null pointer, or a request. *)
Definition allocate_new_bio (s_count first_sector nr_vecs : Z) (all : nat) (io : list bio_ans)
    : (Z + nat) * list bio_ans :=
  if (first_sector >? s_count) || (first_sector + nr_vecs >? s_count) then (inl (- EFAULT), io)
  else
    let '(b, io) := next_bio io all in
    match b with
    | BioFail => (inl 0, io)
    | BioCap n => (inr n, io)
    end.

Definition nr_vectr (page_count : Z) : Z :=
  if page_count <? BIO_MAX_PAGES then page_count else BIO_MAX_PAGES.

(** [emmcfs_write_snapshot_pages], the label [again]; [count] pages have been
    sent.  Both modes write the same; the write of the snapshot head waits for
    the pending writes of the body. *)
Fixpoint write_bios (fuel : nat) (s_count : Z) (d : device) (pages : list page)
    (start_sector : Z) (count : nat) (io : list bio_ans)
    : option (Z * device * list bio_ans) :=
  match fuel with
  | O => None
  | S fuel =>
    let rest := drop count pages in
    match allocate_new_bio s_count start_sector (nr_vectr (Z.of_nat (length pages)))
            (length rest) io with
    | (inl err, io) => Some (err, d, io)
    | (inr cap, io) =>
      if (cap <? length rest)%nat then
        if (cap =? 0)%nat then Some (- EFAULT, d, io)
        else
          let d := dwrite d (start_sector * SECTOR_SIZE) (concat (take cap rest)) in
          let count := (count + cap)%nat in
          write_bios fuel s_count d pages
            (start_sector + Z.shiftl (Z.of_nat count) (PAGE_CACHE_SHIFT - SECTOR_SIZE_SHIFT))
            count io
      else Some (0, dwrite d (start_sector * SECTOR_SIZE) (concat rest), io)
    end
  end.

Definition emmcfs_write_snapshot_pages (s_count : Z) (d : device) (pages : list page)
    (start_sector : Z) (io : list bio_ans) : option (Z * device * list bio_ans) :=
  write_bios (S (length pages)) s_count d pages start_sector 0 io.

(** [emmcfs_read_pages], the label [again]; [page] are the pages read so far,
    [page_count] the number that is asked for. *)
Fixpoint read_bios (fuel : nat) (s_count : Z) (d : device) (page_count : nat)
    (sector_addr : Z) (pages : list page) (io : list bio_ans)
    : option (Z * list page * list bio_ans) :=
  match fuel with
  | O => None
  | S fuel =>
    let read_page (i : nat) :=
      dread d (sector_addr * SECTOR_SIZE + Z.of_nat i * PAGE_CACHE_SIZE) PAGE_CACHE_SIZE in
    let rest := (page_count - length pages)%nat in
    match allocate_new_bio s_count sector_addr (nr_vectr (Z.of_nat page_count)) rest io with
    | (inl err, io) => Some (err, pages, io)
    | (inr cap, io) =>
      if (cap <? rest)%nat then
        if (cap =? 0)%nat then Some (- EFAULT, pages, io)
        else
          let pages := pages ++ map read_page (seq 0 cap) in
          read_bios fuel s_count d page_count
            (sector_addr + Z.shiftl (Z.of_nat (length pages)) (PAGE_CACHE_SHIFT - SECTOR_SIZE_SHIFT))
            pages io
      else Some (0, pages ++ map read_page (seq 0 rest), io)
    end
  end.

(** The pages that are not read keep their contents. *)
Definition emmcfs_read_pages (s_count : Z) (d : device) (old : list page) (sector_addr : Z)
    (io : list bio_ans) : option (Z * list page * list bio_ans) :=
  match read_bios (S (length old)) s_count d (length old) sector_addr [] io with
  | None => None
  | Some (err, pages, io) => Some (err, pages ++ drop (length pages) old, io)
  end.

(** [emmcfs_write_page]: [sector_count] sectors of the page from [offset]; a
    request that does not take the page whole is an error. *)
Definition emmcfs_write_page (s_count : Z) (d : device) (p : page)
    (sector_addr sector_count offset : Z) (io : list bio_ans) : Z * device * list bio_ans :=
  if sector_count >? SECTOR_PER_PAGE then (- EINVAL, d, io)
  else match allocate_new_bio s_count sector_addr 1 1 io with
  | (inl err, io) => (err, d, io)
  | (inr O, io) => (- EFAULT, d, io)
  | (inr (S _), io) =>
    (0, dwrite d (sector_addr * SECTOR_SIZE)
          (take (Z.to_nat (SECTOR_SIZE * sector_count)) (drop (Z.to_nat offset) p)), io)
  end.

(** [emmcfs_read_page]; [uptodate] says that the page needs no read. *)
Definition emmcfs_read_page (s_count : Z) (d : device) (uptodate : bool) (p : page)
    (sector_addr sector_count offset : Z) (io : list bio_ans) : Z * page * list bio_ans :=
  if sector_count >? SECTOR_PER_PAGE + 1 then (- EINVAL, p, io)
  else match allocate_new_bio s_count sector_addr 1 1 io with
  | (inl err, io) => (err, p, io)
  | (inr cap, io) =>
    if uptodate then (0, p, io)
    else match cap with
    | O => (- EFAULT, p, io)
    | S _ =>
      let n := SECTOR_SIZE * sector_count in
      (0, take (Z.to_nat offset) p ++ dread d (sector_addr * SECTOR_SIZE) n ++
          drop (Z.to_nat (offset + n)) p, io)
    end
  end.

(** ** Reads and writes of the device *)
Section device.
Implicit Types (d : device) (l : list Z).

Definition in_range (a n x : Z) : Prop := a <= x < a + n.

Lemma dwrite_in d a l x : in_range a (Z.of_nat (length l)) x ->
  dwrite d a l x = default 0 (l !! Z.to_nat (x - a)).
Proof.
  unfold in_range, dwrite. intros H.
  destruct (Z.leb_spec a x), (Z.ltb_spec x (a + Z.of_nat (length l))); simpl; try done; lia.
Qed.

Lemma dwrite_out d a l x : ~ in_range a (Z.of_nat (length l)) x -> dwrite d a l x = d x.
Proof.
  unfold in_range, dwrite. intros H.
  destruct (Z.leb_spec a x), (Z.ltb_spec x (a + Z.of_nat (length l))); simpl; try done; lia.
Qed.

Lemma length_dread d a n : 0 <= n -> Z.of_nat (length (dread d a n)) = n.
Proof. intros. unfold dread. rewrite length_map, length_seqZ. lia. Qed.

Lemma dread_ext d d' a n : (forall x, in_range a n x -> d x = d' x) -> dread d a n = dread d' a n.
Proof.
  intros H. unfold dread. apply map_ext_in. intros x Hx.
  apply list_elem_of_In, elem_of_seqZ in Hx. by apply H.
Qed.

Lemma dread_app d a n m : 0 <= n -> 0 <= m ->
  dread d a (n + m) = dread d a n ++ dread d (a + n) m.
Proof. intros. unfold dread. by rewrite seqZ_app, map_app. Qed.

Lemma dread_lookup d a n i : 0 <= i < n -> dread d a n !! Z.to_nat i = Some (d (a + i)).
Proof.
  intros Hi. unfold dread. change (map ?f ?l) with (f <$> l).
  rewrite list_lookup_fmap, lookup_seqZ_lt by lia. simpl. by rewrite Z2Nat.id by lia.
Qed.

Lemma dread_dwrite d a l : dread (dwrite d a l) a (Z.of_nat (length l)) = l.
Proof.
  apply list_eq. intros i. destruct (decide (i < length l)%nat) as [Hi|Hi].
  - rewrite <- (Nat2Z.id i), dread_lookup by lia. rewrite dwrite_in by (unfold in_range; lia).
    replace (Z.to_nat (a + Z.of_nat i - a)) with i by lia. rewrite Nat2Z.id.
    destruct (lookup_lt_is_Some_2 l i Hi) as [x Hx]. by rewrite Hx.
  - rewrite !lookup_ge_None_2; [done|lia|]. apply Nat2Z.inj_le.
    rewrite length_dread; lia.
Qed.

Lemma dread_dwrite_out d a l b n :
  (forall x, in_range b n x -> ~ in_range a (Z.of_nat (length l)) x) ->
  dread (dwrite d a l) b n = dread d b n.
Proof. intros H. apply dread_ext. intros x Hx. apply dwrite_out. auto. Qed.

Lemma dwrite_app d a l1 l2 x :
  dwrite (dwrite d a l1) (a + Z.of_nat (length l1)) l2 x = dwrite d a (l1 ++ l2) x.
Proof.
  unfold dwrite. rewrite length_app, Nat2Z.inj_add.
  destruct (Z.leb_spec a x), (Z.ltb_spec x (a + (Z.of_nat (length l1) + Z.of_nat (length l2)))),
    (Z.leb_spec (a + Z.of_nat (length l1)) x),
    (Z.ltb_spec x (a + Z.of_nat (length l1) + Z.of_nat (length l2))),
    (Z.ltb_spec x (a + Z.of_nat (length l1))); simpl; try lia; try done.
  - rewrite lookup_app_r by lia. do 2 f_equal. lia.
  - rewrite lookup_app_l by lia. done.
Qed.

Lemma dwrite_dread d e a n x : 0 <= n ->
  dwrite d a (dread e a n) x = if bool_decide (in_range a n x) then e x else d x.
Proof.
  intros Hn. case_bool_decide as Hx.
  - rewrite dwrite_in by by rewrite length_dread. unfold in_range in Hx.
    rewrite dread_lookup by lia. simpl. f_equal. lia.
  - rewrite dwrite_out; [done|]. by rewrite length_dread.
Qed.
End device.

(** ** Transfers in one and in two requests *)
Definition pages_ok (pages : list page) : Prop :=
  Forall (fun p => Z.of_nat (length p) = PAGE_CACHE_SIZE) pages.

Lemma length_concat_pages pages : pages_ok pages ->
  Z.of_nat (length (concat pages)) = PAGE_CACHE_SIZE * Z.of_nat (length pages).
Proof.
  induction 1 as [|p pages Hp _ IH]; [done|]. simpl. rewrite length_app. unfold PAGE_CACHE_SIZE in *. lia.
Qed.

(** The place lies on the device. *)
Definition on_device (s_count start n : Z) : Prop :=
  0 <= start /\ start + 8 * n <= s_count /\ 0 <= n.

Lemma allocate_on_device s_count start n m all io : on_device s_count start n -> m <= n -> 
  allocate_new_bio s_count start (nr_vectr m) all io =
    let '(b, io) := next_bio io all in
    match b with BioFail => (inl 0, io) | BioCap c => (inr c, io) end.
Proof.
  intros (H1 & H2 & H3) Hm. unfold allocate_new_bio, nr_vectr, BIO_MAX_PAGES.
  destruct (Z.ltb_spec m 256); rewrite !Z.gtb_ltb, !(proj2 (Z.ltb_ge _ _)) by lia; done.
Qed.

Lemma write_one s_count d pages start io c :
  on_device s_count start (Z.of_nat (length pages)) ->
  fst (next_bio io (length pages)) = BioCap c -> (length pages <= c)%nat ->
  emmcfs_write_snapshot_pages s_count d pages start io =
    Some (0, dwrite d (start * SECTOR_SIZE) (concat pages), snd (next_bio io (length pages))).
Proof.
  intros Hd Hc Hle. unfold emmcfs_write_snapshot_pages. cbn [write_bios]. rewrite drop_0.
  rewrite (allocate_on_device _ _ (Z.of_nat (length pages))) by done.
  destruct (next_bio io (length pages)) as [b io']. simpl in Hc. subst b.
  by rewrite (proj2 (Nat.ltb_ge _ _)).
Qed.

Lemma write_two s_count d pages start c1 c2 io :
  on_device s_count start (2 * Z.of_nat (length pages)) -> pages_ok pages ->
  (0 < c1 < length pages)%nat -> (length pages <= c1 + c2)%nat ->
  exists d', emmcfs_write_snapshot_pages s_count d pages start (BioCap c1 :: BioCap c2 :: io) =
      Some (0, d', io) /\
    forall x, d' x = dwrite d (start * SECTOR_SIZE) (concat pages) x.
Proof.
  intros Hd Hp H1 H2. unfold emmcfs_write_snapshot_pages.
  destruct (length pages) as [|n] eqn:En; [lia|]. cbn [write_bios]. rewrite drop_0, En.
  rewrite (allocate_on_device _ _ (2 * Z.of_nat (S n))) by (done || lia).
  simpl next_bio. cbv beta iota zeta.
  rewrite (proj2 (Nat.ltb_lt _ _)), (proj2 (Nat.eqb_neq c1 0)) by lia.
  rewrite Nat.add_0_l, Z.shiftl_mul_pow2 by done.
  change (2 ^ (PAGE_CACHE_SHIFT - SECTOR_SIZE_SHIFT)) with 8.
  rewrite length_drop, En.
  rewrite (allocate_on_device _ _ (Z.of_nat (S n))) by (unfold on_device in *; lia).
  simpl next_bio. cbv beta iota zeta. rewrite (proj2 (Nat.ltb_ge c2 _)) by lia.
  eexists. split; [done|]. intros x.
  assert (pages_ok (take c1 pages)) as Ht by by apply Forall_take.
  pose proof (length_concat_pages _ Ht) as El. rewrite length_take_le in El by lia.
  replace ((start + Z.of_nat c1 * 8) * SECTOR_SIZE)
    with (start * SECTOR_SIZE + Z.of_nat (length (concat (take c1 pages))))
    by (rewrite El; unfold SECTOR_SIZE, PAGE_CACHE_SIZE; lia).
  by rewrite dwrite_app, <- concat_app, take_drop.
Qed.

Lemma write_all s_count d pages start :
  on_device s_count start (Z.of_nat (length pages)) ->
  emmcfs_write_snapshot_pages s_count d pages start [] =
    Some (0, dwrite d (start * SECTOR_SIZE) (concat pages), []).
Proof. intros H. by apply (write_one _ _ _ _ [] (length pages)). Qed.

Lemma concat_read_pages d a n :
  concat (map (fun i => dread d (a + Z.of_nat i * PAGE_CACHE_SIZE) PAGE_CACHE_SIZE) (seq 0 n)) =
  dread d a (PAGE_CACHE_SIZE * Z.of_nat n).
Proof.
  induction n as [|n IH]; [by rewrite Z.mul_0_r|].
  rewrite seq_S, map_app, concat_app, IH. cbn [map concat]. rewrite app_nil_r, Nat.add_0_l.
  replace (PAGE_CACHE_SIZE * Z.of_nat (S n))
    with (PAGE_CACHE_SIZE * Z.of_nat n + PAGE_CACHE_SIZE) by lia.
  rewrite dread_app by (unfold PAGE_CACHE_SIZE; lia). do 2 f_equal. lia.
Qed.

Lemma read_all s_count d old start :
  on_device s_count start (Z.of_nat (length old)) ->
  exists pages, emmcfs_read_pages s_count d old start [] = Some (0, pages, []) /\
    length pages = length old /\
    concat pages = dread d (start * SECTOR_SIZE) (PAGE_CACHE_SIZE * Z.of_nat (length old)).
Proof.
  intros H. unfold emmcfs_read_pages. cbn [read_bios]. rewrite Nat.sub_0_r.
  rewrite (allocate_on_device _ _ (Z.of_nat (length old))) by done. simpl next_bio.
  cbv beta iota zeta. rewrite Nat.ltb_irrefl. eexists. split; [done|].
  rewrite drop_ge by (rewrite length_app, length_map, length_seq; simpl; lia).
  rewrite app_nil_r. cbn [app]. split; [by rewrite length_map, length_seq|].
  apply concat_read_pages.
Qed.

(** ** Claims *)

(** Pages written to the snapshot area in one request, or split over two,
    land one after the other from the start sector on, and nothing else
    changes. *)
Theorem emmcfs_write_snapshot_pages_correct s_count d pages start c1 c2 io :
  on_device s_count start (2 * Z.of_nat (length pages)) -> pages_ok pages ->
  (0 < c1)%nat -> (length pages <= c1 + c2)%nat ->
  exists d' io',
    emmcfs_write_snapshot_pages s_count d pages start (BioCap c1 :: BioCap c2 :: io) =
      Some (0, d', io') /\
    forall x, d' x =
      if (start * 512 <=? x) && (x <? start * 512 + 4096 * Z.of_nat (length pages))
      then default 0 (concat pages !! Z.to_nat (x - start * 512)) else d x.
Proof.
  intros Hd Hp H1 H2. pose proof (length_concat_pages pages Hp) as El. unfold PAGE_CACHE_SIZE in El.
  destruct (le_lt_dec (length pages) c1) as [Hle|Hlt].
  - do 2 eexists. split; [apply (write_one _ _ _ _ _ c1); [unfold on_device in *; lia|done..]|].
    intros x. unfold dwrite. by rewrite El.
  - destruct (write_two s_count d pages start c1 c2 io Hd Hp ltac:(lia) H2) as (d' & E & Hx).
    do 2 eexists. split; [exact E|]. intros x. rewrite Hx. unfold dwrite. by rewrite El.
Qed.

Lemma emmcfs_write_snapshot_pages_correct_witness :
  exists d' io',
    emmcfs_write_snapshot_pages 100 (fun _ => 0) (replicate 3 (replicate 4096 7)) 2
      [BioCap 2; BioCap 1] = Some (0, d', io') /\
    forall x, d' x =
      if (2 * 512 <=? x) && (x <? 2 * 512 + 4096 * 3)
      then default 0 (concat (replicate 3 (replicate 4096 7)) !! Z.to_nat (x - 2 * 512)) else 0.
Proof.
  apply (emmcfs_write_snapshot_pages_correct 100 (fun _ => 0) (replicate 3 (replicate 4096 7)) 2 2 1 []).
  - unfold on_device. rewrite length_replicate. lia.
  - apply Forall_replicate. by rewrite length_replicate.
  - lia.
  - rewrite length_replicate. lia.
Defined.

(** A write that needs three requests puts the pages of the third one at
    the wrong place, because the start sector is advanced by the number of all
    the pages sent so far and not by those of the last request: page 2 lands
    where page 3 belongs, and its own place keeps the old contents. *)
Theorem third_request_misplaced :
  exists d', emmcfs_write_snapshot_pages 1000 (fun _ => 0)
      [replicate 4096 1; replicate 4096 2; replicate 4096 3] 0 [BioCap 1; BioCap 1; BioCap 1] =
      Some (0, d', []) /\
    d' (2 * 4096) = 0 /\ d' (3 * 4096) = 3.
Proof. eexists. split; [reflexivity|]. split; vm_compute; reflexivity. Qed.

(** When no request can be allocated, the write of the snapshot reports
    success although nothing is written. *)
Theorem null_request_succeeds s_count d pages start io :
  on_device s_count start (Z.of_nat (length pages)) ->
  emmcfs_write_snapshot_pages s_count d pages start (BioFail :: io) = Some (0, d, io).
Proof.
  intros Hd. unfold emmcfs_write_snapshot_pages. cbn [write_bios].
  by rewrite (allocate_on_device _ _ (Z.of_nat (length pages))).
Qed.

Lemma null_request_succeeds_witness :
  emmcfs_write_snapshot_pages 100 (fun _ => 0) [replicate 4096 1] 2 [BioFail] =
    Some (0, fun _ => 0, []).
Proof.
  apply (null_request_succeeds 100 (fun _ => 0) [replicate 4096 1] 2 []).
  unfold on_device. simpl. lia.
Defined.
