(* ===== verification/Snapshot.v ===== *)
(** * The metadata journal of snapshot.c

    Before a metadata page is changed its original contents are copied to the
    snapshot area ([emmcfs_add_to_snapshot]); the commit writes a head that
    lists the copies, the metadata are then written in place and the head is
    cleared.  After a crash in between, [emmcfs_restore_snapshot] copies the
    originals back.

    The red-black tree of the transactions is represented by its in-order
    sequence.  Pages are kept as they are on the device; the page cache is the
    argument [original] of the operation that copies it.  Allocation of memory
    succeeds, or gives the oracle's error where the source handles it. *)

From S2P Require Import Prelude Data.
Open Scope Z_scope.

(** ** Data *)

(** [struct emmcfs_transaction], [struct emmcfs_transaction_data] *)
Record transaction := Tx { on_volume : Z; on_snapshot : Z; tx_page_count : Z }.

#[export] Instance transaction_eq_dec : EqDecision transaction.
Proof. solve_decision. Defined.

(** The parameters of the volume: [EMMCFS_SNAPSHOT_START],
    [EMMCFS_SNAPSHOT_LENGHT], [log_sectors_per_block], the size of the device
    in sectors and [mount_counter]. *)
Record volume := Volume {
  snapshot_start : Z;
  snapshot_length : Z;
  log_sectors_per_block : Z;
  s_count : Z;
  mount_counter : Z
}.

(** [struct emmcfs_snapshot_info], and the flag [EXSB_DIRTY_SNAPSHOT] of the
    super block. *)
Record snapshot_info := Snapshot {
  snapshot_root : list transaction;
  transactions_count : Z;
  page_index : Z;
  pages_per_head : Z;
  max_pages_in_snapshot : Z;
  head_version : Z;
  flags : bool;
  dirty_snapshot : bool
}.

(** The device with the answers of the coming requests, the memory, and the
    journal. *)
Record world := World {
  dev : device;
  io : list bio_ans;
  mem : oracle;
  info : snapshot_info
}.

Definition EMMCFS_SNAPSHOT_MAGIC : Z := 0x65534e50.
Definition sizeof_transaction : Z := 18.
Definition sizeof_descriptor : Z := 34.

Definition set_dev (w : world) (d : device) (i : list bio_ans) : world :=
  World d i (mem w) (info w).
Definition set_info (w : world) (s : snapshot_info) : world := World (dev w) (io w) (mem w) s.
Definition set_mem (w : world) (o : oracle) : world := World (dev w) (io w) o (info w).

Definition set_root (s : snapshot_info) (r : list transaction) (count : Z) : snapshot_info :=
  Snapshot r count (page_index s) (pages_per_head s)
    (max_pages_in_snapshot s) (head_version s) (flags s) (dirty_snapshot s).
Definition set_page_index (s : snapshot_info) (i : Z) : snapshot_info :=
  Snapshot (snapshot_root s) (transactions_count s) i (pages_per_head s)
    (max_pages_in_snapshot s) (head_version s) (flags s) (dirty_snapshot s).
Definition set_head_version (s : snapshot_info) (v : Z) : snapshot_info :=
  Snapshot (snapshot_root s) (transactions_count s) (page_index s) (pages_per_head s)
    (max_pages_in_snapshot s) v (flags s) (dirty_snapshot s).
Definition set_dirty (s : snapshot_info) (b : bool) : snapshot_info :=
  Snapshot (snapshot_root s) (transactions_count s) (page_index s) (pages_per_head s)
    (max_pages_in_snapshot s) (head_version s) (flags s) b.

(** A page as [__GFP_ZERO] gives it. *)
Definition zero_page : page := replicate 4096 0.

(** One call of the allocator. *)
Definition allocate (w : world) : bool * world :=
  let '(ok, o) := alloc (mem w) in (ok, set_mem w o).

(** [n] calls; [false] when one of them fails, after which no more are made. *)
Fixpoint allocate_n (n : nat) (w : world) : bool * world :=
  match n with
  | O => (true, w)
  | S n => let '(ok, w) := allocate w in if ok then allocate_n n w else (false, w)
  end.

(** ** The transactions *)

(** [transaction_insert] *)
Fixpoint transaction_insert (root : list transaction) (t : transaction)
    : Z * list transaction :=
  match root with
  | [] => (0, [t])
  | u :: root' =>
    if on_volume t <? on_volume u then (0, t :: root)
    else if on_volume t >? on_volume u then
      let '(ret, root') := transaction_insert root' t in (ret, u :: root')
    else (- EEXIST, root)
  end.

(** The store into [on_snapshot] of the transaction that was inserted. *)
Definition place_transaction (root : list transaction) (t : transaction) (at_ : Z)
    : list transaction :=
  map (fun u => if on_volume u =? on_volume t
                then Tx (on_volume u) at_ (tx_page_count u) else u) root.

(** ** The head on the device *)
Definition encode_transaction (t : transaction) : list Z :=
  le_split 8 (on_volume t) ++ le_split 8 (on_snapshot t) ++ le_split 2 (tx_page_count t).

Definition decode_transaction (l : list Z) : transaction :=
  Tx (le_combine (take 8 l)) (le_combine (take 8 (drop 8 l))) (le_combine (take 2 (drop 16 l))).

(** The offset in bytes after [n] transactions. *)
Definition head_length (n : nat) : Z := 16 + sizeof_transaction * Z.of_nat n.

Section snapshot.
Variable vol : volume.
(** The checksum of the kernel's library. *)
Variable crc32 : Z -> list Z -> Z.
(** [emmcfs_sync_first_super], [emmcfs_sync_second_super] *)
Variables sync_first_super sync_second_super : device -> device.

(** [EMMCFS_SNAPSHOT_START(sbi) << (PAGE_CACHE_SHIFT - SECTOR_SIZE_SHIFT)] *)
Definition head_sector : Z :=
  Z.shiftl (snapshot_start vol) (PAGE_CACHE_SHIFT - SECTOR_SIZE_SHIFT).

(** [transaction_tree_to_snapshot]: the bytes of the head.  The checksum
    covers the number of bytes stored in the 16-bit [checksum_offset], in the
    zeroed memory of [size] bytes. *)
Definition transaction_tree_to_snapshot (root : list transaction)
    (mount_count version size : Z) : Z + list Z :=
  match root with
  | [] => inl (- EINVAL)
  | _ =>
    let checksum_offset := u16 (head_length (length root)) in
    let head :=
      le_split 4 EMMCFS_SNAPSHOT_MAGIC ++ le_split 4 mount_count ++ le_split 4 version ++
      le_split 2 (Z.of_nat (length root)) ++ le_split 2 checksum_offset ++
      concat (map encode_transaction root) in
    let memory := head ++ replicate (Z.to_nat (size - Z.of_nat (length head))) 0 in
    let checksum := crc32 0 (take (Z.to_nat checksum_offset) memory) in
    inr (head ++ le_split 4 checksum)
  end.

(** The head padded to [n] pages. *)
Definition to_pages (n : nat) (l : list Z) : list page :=
  map (fun i => take 4096 (drop (i * 4096) (l ++ replicate (n * 4096 - length l) 0))) (seq 0 n).

(** [emmcfs_clear_snapshot] *)
Definition emmcfs_clear_snapshot (w : world) : Z * world :=
  let '(ok, w) := allocate w in
  if negb ok then (- ENOMEM, w)
  else
    let '(error, d, i) :=
      emmcfs_write_page (s_count vol) (dev w) zero_page head_sector 1 0 (io w) in
    let w := set_dev w d i in
    if negb (error =? 0) then (- EFAULT, w)
    else
      let w := set_info w (set_page_index (info w) (pages_per_head (info w))) in
      if dirty_snapshot (info w) then
        (0, set_info (set_dev w (sync_second_super (dev w)) (io w)) (set_dirty (info w) false))
      else (0, w).

(** [emmcfs_commit_snapshot]; a failed allocation of a page is dereferenced. *)
Definition emmcfs_commit_snapshot (w : world) : option (Z * world) :=
  let s := info w in
  let pages_count :=
    Z.shiftr (transactions_count s * sizeof_transaction + sizeof_descriptor +
              Z.shiftl 1 PAGE_CACHE_SHIFT - 1) PAGE_CACHE_SHIFT in
  if transactions_count s =? 0 then Some (0, w)
  else
    let w := if dirty_snapshot s then set_dev w (sync_first_super (dev w)) (io w) else w in
    let '(ok, w) := allocate w in
    if negb ok then Some (- ENOMEM, w)
    else
      let '(ok, w) := allocate_n (Z.to_nat pages_count) w in
      if negb ok then None
      else
        let head := transaction_tree_to_snapshot (snapshot_root s) (mount_counter vol)
                      (head_version s) (pages_count * PAGE_CACHE_SIZE) in
        let s1 := set_head_version (info w) (u32 (head_version s + 1)) in
        match head with
        | inl error => Some (error, set_info w (set_root s1 (snapshot_root s1) 0))
        | inr head =>
          let w := set_info w (set_root s1 [] 0) in
          let pages := to_pages (Z.to_nat pages_count) head in
          let '(_, d, i) :=
            emmcfs_write_page (s_count vol) (dev w) (nth 0 pages [])
              (Z.shiftl (snapshot_start vol + snapshot_length vol)
                 (PAGE_CACHE_SHIFT - SECTOR_SIZE_SHIFT) - SECTOR_PER_PAGE +
               Z.land (head_version s1) 7) 1 0 (io w) in
          match emmcfs_write_snapshot_pages (s_count vol) d pages head_sector i with
          | None => None
          | Some (error, d, i) => Some (error, set_dev w d i)
          end
        end.

(** [restore_sigle_transaction] *)
Definition restore_sigle_transaction (t : transaction) (w : world) : option (Z * world) :=
  let '(ok, w) := allocate w in
  if negb ok then Some (- ENOMEM, w)
  else
    let '(ok, w) := allocate_n (Z.to_nat (tx_page_count t)) w in
    if negb ok then Some (- ENOMEM, w)
    else match emmcfs_read_pages (s_count vol) (dev w)
                 (replicate (Z.to_nat (tx_page_count t)) zero_page) (on_snapshot t) (io w) with
    | None => None
    | Some (error, pages, i) =>
      let w := set_dev w (dev w) i in
      if negb (error =? 0) then Some (error, w)
      else match emmcfs_write_snapshot_pages (s_count vol) (dev w) pages (on_volume t) i with
      | None => None
      | Some (error, d, i) => Some (error, set_dev w d i)
      end
    end.

(** [emmcfs_is_snapshot_present] *)
Definition emmcfs_is_snapshot_present (w : world) : Z * world :=
  let '(ok, w) := allocate w in
  if negb ok then (- ENOMEM, w)
  else
    let '(error, p, i) :=
      emmcfs_read_page (s_count vol) (dev w) false zero_page head_sector 8 0 (io w) in
    let w := set_dev w (dev w) i in
    if negb (error =? 0) then (error, w)
    else (if bool_decide (take 4 p = le_split 4 EMMCFS_SNAPSHOT_MAGIC) then 1 else 0, w).

(** The loop over the transactions of the head. *)
Fixpoint restore_transactions (n : nat) (l : list Z) (w : world) : option (Z * world) :=
  match n with
  | O => Some (0, w)
  | S n =>
    match restore_sigle_transaction (decode_transaction l) w with
    | None => None
    | Some (error, w) =>
      if negb (error =? 0) then Some (error, w)
      else restore_transactions n (drop (Z.to_nat sizeof_transaction) l) w
    end
  end.

(** [emmcfs_restore_snapshot]; a head whose checksum differs is a [BUG], and
    the exit after a failed allocation of a page unlocks a null page. *)
Definition emmcfs_restore_snapshot (w : world) : option (Z * world) :=
  let '(error, w) := emmcfs_is_snapshot_present w in
  if negb (error =? 1) then Some (error, w)
  else
    let '(ok, w) := allocate w in
    if negb ok then Some (- ENOMEM, w)
    else
      let n := Z.to_nat (pages_per_head (info w)) in
      let '(ok, w) := allocate_n n w in
      if negb ok then None
      else match emmcfs_read_pages (s_count vol) (dev w) (replicate n zero_page) head_sector (io w) with
      | None => None
      | Some (error, pages, i) =>
        let w := set_dev w (dev w) i in
        if negb (error =? 0) then Some (error, w)
        else
          let w := set_info w (set_page_index (info w) (pages_per_head (info w))) in
          let head := concat pages in
          let checksum_offset := Z.to_nat (le_combine (take 2 (drop 14 head))) in
          let checksum := u32 (crc32 0 (take checksum_offset head)) in
          let on_disk_checksum := le_combine (take 4 (drop checksum_offset head)) in
          if negb (checksum =? on_disk_checksum) then None
          else
            let transaction_count := Z.to_nat (le_combine (take 2 (drop 12 head))) in
            match restore_transactions transaction_count (drop 16 head) w with
            | None => None
            | Some (error, w) =>
              if negb (error =? 0) then Some (error, w)
              else Some (emmcfs_clear_snapshot w)
            end
      end.

(** [get_start_block]; [find_old_block] is [emmcfs_find_old_block] on the
    inode. *)
Definition get_start_block (total_block_count : Z) (find_old_block : Z -> Z) (iblock : Z)
    : option Z :=
  if iblock >? total_block_count then Some 0
  else
    let ret := find_old_block iblock in
    if ret =? 0 then None else Some ret.

(** [emmcfs_add_to_snapshot]: [start_block] is the answer of
    [get_start_block], [original] the pages of the inode and [dirty] whether
    one of them is dirty. *)
Definition emmcfs_add_to_snapshot (start_block : Z) (original : list page) (dirty : bool)
    (w : world) : option (Z * world) :=
  let pages_count := Z.of_nat (length original) in
  if start_block =? 0 then Some (- EINVAL, w)
  else
    let '(ok, w) := allocate w in
    if negb ok then Some (- ENOMEM, w)
    else
      let '(ok, w) := allocate w in
      if negb ok then Some (- ENOMEM, w)
      else
        let t := Tx (Z.shiftl start_block (log_sectors_per_block vol)) 0 pages_count in
        let s := info w in
        let '(error, root) := transaction_insert (snapshot_root s) t in
        if negb (error =? 0) then
          Some (if error =? - EEXIST then 0 else error, w)
        else
          let '(ok, w) := allocate_n (length original) w in
          if negb ok || dirty || flags s then None
          else if page_index s + pages_count >? max_pages_in_snapshot s then None
          else
            let at_ := Z.shiftl (snapshot_start vol + page_index s) (log_sectors_per_block vol) in
            let s := set_root s (place_transaction root t at_) (transactions_count s + 1) in
            let w := set_info w (set_page_index s (page_index s + pages_count)) in
            match emmcfs_write_snapshot_pages (s_count vol) (dev w) original at_ (io w) with
            | None => None
            | Some (_, d, i) => Some (0, set_dev w d i)
            end.
End snapshot.
