(* ===== verification/SnapshotProofs.v ===== *)
(** * The metadata journal: restoring after a crash

    [journal_inv] is what the journal guarantees while metadata pages are being
    collected: every recorded page has its original contents in the snapshot
    area.  Adding pages keeps it, the commit puts the head that describes it on
    the device, and the restoration after a crash during the in-place writes
    brings back the device as it was ([restore_committed]). *)

From S2P Require Import Prelude Data Snapshot.
Open Scope Z_scope.

(** ** The allocator *)
Lemma allocate_plenty w : plenty (mem w) ->
  exists w', allocate w = (true, w') /\ dev w' = dev w /\ io w' = io w /\ info w' = info w /\
    plenty (mem w').
Proof.
  intros (o & E & Ho)%plenty_alloc. unfold allocate. rewrite E.
  eexists. split; [done|]. done.
Qed.

Lemma allocate_n_plenty n : forall w, plenty (mem w) ->
  exists w', allocate_n n w = (true, w') /\ dev w' = dev w /\ io w' = io w /\ info w' = info w /\
    plenty (mem w').
Proof.
  induction n as [|n IH]; intros w Hw; [by exists w|]. cbn [allocate_n].
  destruct (allocate_plenty w Hw) as (w1 & -> & E1 & E2 & E3 & H1).
  destruct (IH w1 H1) as (w2 & -> & E4 & E5 & E6 & H2). exists w2.
  split_and!; try done; congruence.
Qed.

(** ** Encoding *)
Definition tx_range (t : transaction) : Prop :=
  0 <= on_volume t < 2 ^ 64 /\ 0 <= on_snapshot t < 2 ^ 64 /\ 0 <= tx_page_count t < 2 ^ 16.

Lemma length_encode t : length (encode_transaction t) = 18%nat.
Proof. unfold encode_transaction. by rewrite !length_app, !length_le_split. Qed.

Lemma decode_encode t rest : tx_range t -> decode_transaction (encode_transaction t ++ rest) = t.
Proof.
  intros (H1 & H2 & H3). unfold decode_transaction, encode_transaction.
  rewrite <- !app_assoc. rewrite take_app_length' by by rewrite length_le_split.
  rewrite drop_app_length' by by rewrite length_le_split.
  rewrite take_app_length' by by rewrite length_le_split.
  rewrite (app_assoc (le_split 8 (on_volume t))).
  rewrite drop_app_length' by by rewrite length_app, !length_le_split.
  rewrite take_app_length' by by rewrite length_le_split.
  rewrite !le_combine_split_small by (simpl Z.of_nat; lia). by destruct t.
Qed.

Lemma length_encode_all txs :
  Z.of_nat (length (concat (map encode_transaction txs))) = 18 * Z.of_nat (length txs).
Proof.
  induction txs as [|t txs IH]; [done|]. cbn [map concat length].
  rewrite length_app, length_encode. lia.
Qed.

(** ** The head *)
Section head.
Variable crc32 : Z -> list Z -> Z.
Abbreviation to_snapshot := (transaction_tree_to_snapshot crc32).

(** The parts of a head of at most [2 ^ 16] bytes. *)
Lemma head_parts txs mc ver size head :
  to_snapshot txs mc ver size = inr head -> head_length (length txs) < 2 ^ 16 ->
  exists body, head = body ++ le_split 4 (crc32 0 body) /\
    Z.of_nat (length body) = head_length (length txs) /\
    take 4 body = le_split 4 EMMCFS_SNAPSHOT_MAGIC /\
    take 2 (drop 12 body) = le_split 2 (Z.of_nat (length txs)) /\
    take 2 (drop 14 body) = le_split 2 (head_length (length txs)) /\
    drop 16 body = concat (map encode_transaction txs).
Proof.
  intros E Hlen. unfold transaction_tree_to_snapshot in E.
  destruct txs as [|t0 txs0]; [done|]. set (txs := t0 :: txs0) in *.
  assert (0 <= head_length (length txs)) as Hpos by (unfold head_length, sizeof_transaction; lia).
  rewrite (uwrap_small 16) in E by lia.
  apply (f_equal (fun r => match r with inr h => h | inl _ => [] end)) in E.
  cbv beta iota zeta in E.
  set (body := le_split 4 EMMCFS_SNAPSHOT_MAGIC ++ le_split 4 mc ++ le_split 4 ver ++
    le_split 2 (Z.of_nat (length txs)) ++ le_split 2 (head_length (length txs)) ++
    concat (map encode_transaction txs)) in *.
  assert (Z.of_nat (length body) = head_length (length txs)) as El.
  { unfold body. rewrite !length_app, !length_le_split, !Nat2Z.inj_add, length_encode_all.
    unfold head_length, sizeof_transaction. lia. }
  rewrite take_app_le, take_ge in E by lia. exists body. split_and!; try done.
Qed.
End head.

Section journal.
Variable vol : volume.
Variable crc32 : Z -> list Z -> Z.
Variables sync_first_super sync_second_super : device -> device.

Record vol_ok : Prop := {
  vo_start : 0 <= snapshot_start vol;
  vo_length : 0 < snapshot_length vol;
  vo_log : log_sectors_per_block vol = 3;
  vo_count : 8 * (snapshot_start vol + snapshot_length vol) <= s_count vol < 2 ^ 60
}.
Hypothesis Hvol : vol_ok.

(** ** Places on the device, in bytes *)
Definition in_area (x : Z) : Prop :=
  in_range (4096 * snapshot_start vol) (4096 * snapshot_length vol) x.

Definition in_target (t : transaction) (x : Z) : Prop :=
  in_range (512 * on_volume t) (4096 * tx_page_count t) x.

Definition in_source (t : transaction) (x : Z) : Prop :=
  in_range (512 * on_snapshot t) (4096 * tx_page_count t) x.

(** A transaction whose copy, in the pages [lo], ..., [hi - 1] of the
    snapshot area of [d], holds what [V] has at its place on the volume. *)
Record tx_saved (lo hi : Z) (V d : device) (t : transaction) : Prop := {
  ts_range : tx_range t;
  ts_device : on_device (s_count vol) (on_volume t) (tx_page_count t);
  ts_target : forall x, in_target t x -> ~ in_area x;
  ts_source : exists i, on_snapshot t = 8 * (snapshot_start vol + i) /\
    lo <= i /\ i + tx_page_count t <= hi;
  ts_copy : dread d (512 * on_snapshot t) (4096 * tx_page_count t) =
    dread V (512 * on_volume t) (4096 * tx_page_count t)
}.

(** The worlds in which no request is split and no allocation fails. *)
Definition calm (w : world) : Prop := io w = [] /\ plenty (mem w).

Lemma head_sector_eq : head_sector vol = 8 * snapshot_start vol.
Proof using. unfold head_sector. rewrite Z.shiftl_mul_pow2 by done. change (2 ^ _) with 8. lia. Qed.

Lemma dread_length (d : device) a n : (0 <= n) -> length (dread d a n) = Z.to_nat n.
Proof using. intros. apply Nat2Z.inj. rewrite length_dread; lia. Qed.

(** ** One transaction is copied back *)
Lemma restore_single lo hi V t w :
  calm w -> 0 <= lo -> hi <= snapshot_length vol -> tx_saved lo hi V (dev w) t ->
  exists w', restore_sigle_transaction vol t w = Some (0, w') /\ calm w' /\ info w' = info w /\
    (forall x, in_target t x -> dev w' x = V x) /\
    (forall x, ~ in_target t x -> dev w' x = dev w x).
Proof.
  intros [Hio Hmem] Hlo Hhi [(R1 & R2 & R3) Hd Ht (i & Ei & Hi1 & Hi2) Hc].
  pose proof Hvol as [V1 V2 V3 V4].
  unfold restore_sigle_transaction.
  destruct (allocate_plenty w Hmem) as (w1 & -> & D1 & I1 & F1 & M1). cbn [negb].
  destruct (allocate_n_plenty (Z.to_nat (tx_page_count t)) w1 M1) as (w2 & -> & D2 & I2 & F2 & M2).
  cbn [negb]. rewrite I2, I1, Hio.
  assert (on_device (s_count vol) (on_snapshot t)
    (Z.of_nat (length (replicate (Z.to_nat (tx_page_count t)) zero_page)))) as Hs.
  { rewrite length_replicate, Z2Nat.id by lia. unfold on_device. rewrite Ei. lia. }
  destruct (read_all (s_count vol) (dev w2) _ _ Hs) as (pages & -> & Hlen & Hpages).
  rewrite length_replicate in Hlen, Hpages.
  rewrite Z2Nat.id in Hpages by lia. cbn [Z.eqb negb].
  rewrite write_all by (rewrite Hlen, Z2Nat.id by lia; exact Hd).
  eexists. split; [done|]. split; [done|]. split; [simpl; congruence|].
  simpl dev. rewrite Hpages, D2, D1. unfold SECTOR_SIZE, PAGE_CACHE_SIZE.
  rewrite (Z.mul_comm (on_snapshot t)), (Z.mul_comm (on_volume t)), Hc.
  split; intros x Hx; rewrite dwrite_dread by lia; unfold in_target in Hx;
    by case_bool_decide.
Qed.

(** ** All the transactions of a head *)

(** A device after a crash: the snapshot area is intact and outside it only
    targets of the transactions differ from [V]. *)
Definition crashed (lo hi : Z) (V d : device) (txs : list transaction) : Prop :=
  Forall (tx_saved lo hi V d) txs /\
  forall x, ~ in_area x -> (forall t, t ∈ txs -> ~ in_target t x) -> d x = V x.

Lemma source_in_area lo hi V d t x :
  tx_saved lo hi V d t -> 0 <= lo -> hi <= snapshot_length vol -> in_source t x -> in_area x.
Proof.
  intros [(R1 & R2 & R3) _ _ (i & Ei & Hi1 & Hi2) _] Hlo Hhi. pose proof Hvol as [V1 V2 V3 V4].
  unfold in_source, in_area, in_range. lia.
Qed.

Lemma tx_saved_same lo hi V d d' t :
  tx_saved lo hi V d t -> 0 <= lo -> hi <= snapshot_length vol ->
  (forall x, in_range (4096 * (snapshot_start vol + lo)) (4096 * (hi - lo)) x -> d' x = d x) ->
  tx_saved lo hi V d' t.
Proof using.
  intros [H1 H2 H3 (i & Ei & Hi1 & Hi2) H5] Hlo Hhi Hsame. split; try done; [by exists i|].
  rewrite <- H5. apply dread_ext. intros x Hx. apply Hsame.
  unfold in_range in *. destruct H1 as (_ & _ & ?). lia.
Qed.

Lemma restore_all lo hi V txs : forall w rest,
  calm w -> 0 <= lo -> hi <= snapshot_length vol -> crashed lo hi V (dev w) txs ->
  exists w', restore_transactions vol (length txs) (concat (map encode_transaction txs) ++ rest) w =
      Some (0, w') /\
    calm w' /\ info w' = info w /\ (forall x, in_area x -> dev w' x = dev w x) /\
    forall x, ~ in_area x -> dev w' x = V x.
Proof.
  induction txs as [|t txs IH]; intros w rest Hw Hlo Hhi [Hsaved Hout].
  { exists w. split_and!; try done. intros x Hx. apply Hout; [done|]. intros t Ht.
    by apply elem_of_nil in Ht. }
  cbn [restore_transactions length map concat]. rewrite <- app_assoc.
  apply Forall_cons in Hsaved as [Ht Htxs].
  rewrite decode_encode by apply Ht.
  destruct (restore_single lo hi V t w Hw Hlo Hhi Ht) as (w1 & -> & Hw1 & F1 & Hin & Hnot).
  cbn [Z.eqb negb].
  rewrite drop_app_length' by by rewrite length_encode.
  assert (forall x, in_area x -> dev w1 x = dev w x) as Harea.
  { intros x Hx. apply Hnot. intros Hx'. by apply (ts_target _ _ _ _ _ Ht x). }
  destruct (IH w1 rest Hw1 Hlo Hhi) as (w2 & -> & Hw2 & F2 & Harea2 & Hout2).
  - split.
    + eapply Forall_impl; [exact Htxs|]. intros u Hu. eapply tx_saved_same; try done.
      intros x Hx. apply Harea. unfold in_area, in_range in *. lia.
    + intros x Hx Hnt. destruct (decide (in_target t x)) as [Hxt|Hxt]; [by apply Hin|].
      rewrite Hnot by done. apply Hout; [done|]. intros u [->|Hu]%elem_of_cons; [done|by apply Hnt].
  - exists w2. split_and!; try done; [congruence|]. intros x Hx. rewrite Harea2, Harea; done.
Qed.

(** ** The whole restoration *)
Abbreviation restore :=
  (emmcfs_restore_snapshot vol crc32 sync_second_super).
Abbreviation to_snapshot := (transaction_tree_to_snapshot crc32).

Lemma take_dread (d : device) a n k : 0 <= k <= n -> take (Z.to_nat k) (dread d a n) = dread d a k.
Proof.
  intros Hk. replace n with (k + (n - k)) by lia. rewrite dread_app by lia.
  rewrite take_app_length'; [done|]. rewrite dread_length by lia. done.
Qed.

Lemma alloc_head all : 0 < snapshot_length vol ->
  allocate_new_bio (s_count vol) (head_sector vol) 1 all [] = (inr all, []).
Proof.
  intros H. pose proof Hvol as [V1 V2 V3 V4].
  change 1 with (nr_vectr 1) at 1. rewrite (allocate_on_device _ _ 1) by
    (unfold on_device; rewrite ?head_sector_eq; lia). done.
Qed.

Lemma snapshot_present w (head : list Z) :
  calm w -> take 4 head = le_split 4 EMMCFS_SNAPSHOT_MAGIC -> (4 <= length head)%nat ->
  dread (dev w) (4096 * snapshot_start vol) (Z.of_nat (length head)) = head ->
  exists w', emmcfs_is_snapshot_present vol w = (1, w') /\ calm w' /\
    dev w' = dev w /\ info w' = info w.
Proof.
  intros [Hio Hmem] Hmagic Hlen Hhead. unfold emmcfs_is_snapshot_present.
  destruct (allocate_plenty w Hmem) as (w1 & -> & D1 & I1 & F1 & M1). cbn [negb].
  unfold emmcfs_read_page. change (8 >? SECTOR_PER_PAGE + 1) with false. cbv iota.
  rewrite I1, Hio, alloc_head by apply Hvol. cbn [Z.eqb negb].
  replace (head_sector vol * SECTOR_SIZE) with (4096 * snapshot_start vol)
    by (rewrite head_sector_eq; unfold SECTOR_SIZE; lia).
  change (SECTOR_SIZE * 8) with 4096. change (Z.to_nat 0) with 0%nat. rewrite take_0.
  change ([] ++ ?l) with l.
  assert (take 4 (dread (dev w1) (4096 * snapshot_start vol) 4096 ++
    drop (Z.to_nat (0 + 4096)) zero_page) = le_split 4 EMMCFS_SNAPSHOT_MAGIC) as E.
  { rewrite take_app_le by (rewrite dread_length by lia; lia).
    change 4%nat with (Z.to_nat 4) at 1. rewrite take_dread, D1 by lia.
    rewrite <- Hmagic, <- Hhead at 1. change 4%nat with (Z.to_nat 4).
    by rewrite take_dread by lia. }
  rewrite bool_decide_eq_true_2 by exact E.
  eexists. split; [done|]. by split_and!.
Qed.

(** The clearing of the head changes nothing outside the snapshot area. *)
Lemma clear_snapshot_spec w :
  calm w -> dirty_snapshot (info w) = false ->
  exists w', emmcfs_clear_snapshot vol sync_second_super w = (0, w') /\ calm w' /\
    info w' = set_page_index (info w) (pages_per_head (info w)) /\
    (forall x, ~ in_area x -> dev w' x = dev w x) /\
    forall x, in_range (4096 * snapshot_start vol) 512 x -> dev w' x = 0.
Proof using Hvol.
  intros [Hio Hmem] Hdirty. unfold emmcfs_clear_snapshot.
  destruct (allocate_plenty w Hmem) as (w1 & -> & D1 & I1 & F1 & M1). cbn [negb].
  unfold emmcfs_write_page. change (1 >? SECTOR_PER_PAGE) with false. cbv iota.
  rewrite I1, Hio, alloc_head by apply Hvol. cbn [Z.eqb negb].
  replace (head_sector vol * SECTOR_SIZE) with (4096 * snapshot_start vol)
    by (rewrite head_sector_eq; unfold SECTOR_SIZE; lia).
  assert (take (Z.to_nat (SECTOR_SIZE * 1)) (drop (Z.to_nat 0) zero_page) = replicate 512 0) as ->
    by reflexivity.
  match goal with |- context [if ?b then _ else _] =>
    replace b with false by (simpl; by rewrite F1, Hdirty) end.
  eexists. split; [done|]. split; [done|]. split; [simpl; by rewrite F1|].
  cbn [dev set_dev set_info]. split; intros x Hx.
  - rewrite dwrite_out, D1; [done|]. rewrite length_replicate. change (Z.of_nat 512) with 512. pose proof Hvol as [V1 V2 V3 V4].
    unfold in_area, in_range in *. lia.
  - rewrite dwrite_in by by rewrite length_replicate. unfold in_range in Hx.
    rewrite lookup_replicate_2; [done|lia].
Qed.

(** What the restoration does with the bytes of the head. *)
Definition restore_from (head : list Z) (w : world) : option (Z * world) :=
  let checksum_offset := Z.to_nat (le_combine (take 2 (drop 14 head))) in
  let checksum := u32 (crc32 0 (take checksum_offset head)) in
  let on_disk_checksum := le_combine (take 4 (drop checksum_offset head)) in
  if negb (checksum =? on_disk_checksum) then None
  else
    match restore_transactions vol (Z.to_nat (le_combine (take 2 (drop 12 head))))
            (drop 16 head) w with
    | None => None
    | Some (error, w) =>
      if negb (error =? 0) then Some (error, w)
      else Some (emmcfs_clear_snapshot vol sync_second_super w)
    end.

Lemma restore_head w (head : list Z) :
  calm w -> 0 < pages_per_head (info w) <= snapshot_length vol ->
  4 <= Z.of_nat (length head) <= 4096 * pages_per_head (info w) ->
  take 4 head = le_split 4 EMMCFS_SNAPSHOT_MAGIC ->
  dread (dev w) (4096 * snapshot_start vol) (Z.of_nat (length head)) = head ->
  exists w' tail, restore w = restore_from (head ++ tail) w' /\ calm w' /\
    dev w' = dev w /\ info w' = set_page_index (info w) (pages_per_head (info w)).
Proof.
  intros Hw Hpph Hfit Hmagic Hdev. unfold emmcfs_restore_snapshot.
  destruct (snapshot_present w head) as (w1 & -> & Hw1 & D1 & F1); try done; [lia|].
  cbn [Z.eqb negb Pos.eqb].
  destruct (allocate_plenty w1 (proj2 Hw1)) as (w2 & -> & D2 & I2 & F2 & M2). cbn [negb].
  destruct (allocate_n_plenty (Z.to_nat (pages_per_head (info w2))) w2 M2)
    as (w3 & -> & D3 & I3 & F3 & M3). cbn [negb].
  assert (info w3 = info w) as F by congruence. assert (dev w3 = dev w) as D by congruence.
  rewrite I3, I2, (proj1 Hw1), F2, F1, D.
  assert (on_device (s_count vol) (head_sector vol)
    (Z.of_nat (length (replicate (Z.to_nat (pages_per_head (info w))) zero_page)))) as Hs.
  { pose proof Hvol as [V1 V2 V3 V4].
    rewrite length_replicate, head_sector_eq, Z2Nat.id by lia. unfold on_device. lia. }
  destruct (read_all (s_count vol) (dev w) _ _ Hs) as (pages & -> & Hlen & Hpages).
  rewrite length_replicate, Z2Nat.id in Hpages by lia. cbn [Z.eqb negb].
  replace (head_sector vol * SECTOR_SIZE) with (4096 * snapshot_start vol) in Hpages
    by (rewrite head_sector_eq; unfold SECTOR_SIZE; lia).
  unfold PAGE_CACHE_SIZE in Hpages.
  replace (4096 * pages_per_head (info w)) with (Z.of_nat (length head) +
    (4096 * pages_per_head (info w) - Z.of_nat (length head))) in Hpages by lia.
  rewrite dread_app, Hdev in Hpages by lia. rewrite Hpages.
  eexists _, _. split; [reflexivity|]. split; [done|]. split; [done|]. simpl. by rewrite F.
Qed.

Lemma restore_correct w V txs lo hi mc ver size head :
  calm w -> dirty_snapshot (info w) = false -> 0 <= lo -> hi <= snapshot_length vol ->
  0 < pages_per_head (info w) <= snapshot_length vol ->
  head_length (length txs) + 4 <= 4096 * pages_per_head (info w) ->
  head_length (length txs) < 2 ^ 16 ->
  to_snapshot txs mc ver size = inr head ->
  dread (dev w) (4096 * snapshot_start vol) (Z.of_nat (length head)) = head ->
  crashed lo hi V (dev w) txs ->
  exists w', restore w = Some (0, w') /\ forall x, ~ in_area x -> dev w' x = V x.
Proof.
  intros Hw Hdirty Hlo Hhi Hpph Hfit H16 Ehead Hdev Hcr.
  destruct (head_parts _ _ _ _ _ _ Ehead H16) as (body & -> & Hbl & Hmagic & Hcount & Hoff & Htxs).
  assert (16 <= Z.of_nat (length body)) as Hb16
    by (rewrite Hbl; unfold head_length, sizeof_transaction; lia).
  destruct (restore_head w (body ++ le_split 4 (crc32 0 body)))
    as (w1 & tail & -> & Hw1 & D1 & F1); try done.
  { rewrite length_app, length_le_split. lia. }
  { by rewrite take_app_le by lia. }
  unfold restore_from. rewrite <- app_assoc.
  rewrite (drop_app_le _ _ 14), (take_app_le _ _ 2), Hoff by (rewrite ?length_drop; lia).
  rewrite le_combine_split_small by (change (256 ^ Z.of_nat 2) with (2 ^ 16); lia).
  rewrite <- Hbl, Nat2Z.id. rewrite take_app_length, drop_app_length.
  rewrite take_app_length' by by rewrite length_le_split.
  rewrite le_combine_split. change (256 ^ Z.of_nat 4) with (2 ^ 32).
  change (crc32 0 body mod 2 ^ 32) with (u32 (crc32 0 body)). rewrite Z.eqb_refl. cbn [negb].
  rewrite (drop_app_le _ _ 12), (take_app_le _ _ 2), Hcount by (rewrite ?length_drop; lia).
  rewrite le_combine_split_small.
  2:{ change (256 ^ Z.of_nat 2) with (2 ^ 16). unfold head_length, sizeof_transaction in H16. lia. }
  rewrite Nat2Z.id, (drop_app_le _ _ 16), Htxs by lia. rewrite <- D1 in Hcr.
  destruct (restore_all lo hi V txs w1 (le_split 4 (crc32 0 body) ++ tail) Hw1 Hlo Hhi Hcr)
    as (w2 & -> & Hw2 & F2 & Harea & Hout). cbn [Z.eqb negb].
  destruct (clear_snapshot_spec w2 Hw2) as (w3 & -> & Hw3 & F3 & Hc1 & Hc2).
  { by rewrite F2, F1. }
  eexists. split; [done|]. intros x Hx. by rewrite Hc1, Hout.
Qed.

(** With [2 ^ 16] bytes or more before the checksum the 16-bit offset of the
    checksum wraps around. *)
Lemma restore_overflow w txs mc ver size head :
  calm w -> 0 < pages_per_head (info w) <= snapshot_length vol ->
  head_length (length txs) = 2 ^ 16 -> 2 ^ 16 + 4 <= 4096 * pages_per_head (info w) ->
  to_snapshot txs mc ver size = inr head ->
  dread (dev w) (4096 * snapshot_start vol) (Z.of_nat (length head)) = head ->
  u32 (crc32 0 []) <> EMMCFS_SNAPSHOT_MAGIC ->
  restore w = None.
Proof.
  intros Hw Hpph H16 Hfit Ehead Hdev Hcrc.
  unfold transaction_tree_to_snapshot in Ehead. destruct txs as [|t0 txs0]; [done|].
  set (txs := t0 :: txs0) in *. rewrite H16 in Ehead. change (u16 (2 ^ 16)) with 0 in Ehead.
  apply (f_equal (fun r => match r with inr h => h | inl _ => [] end)) in Ehead.
  cbv beta iota zeta in Ehead. rewrite take_0 in Ehead.
  assert (Z.of_nat (length head) = 2 ^ 16 + 4) as El.
  { rewrite <- Ehead. rewrite !length_app, !length_le_split, !Nat2Z.inj_add, length_encode_all.
    unfold head_length, sizeof_transaction in H16. lia. }
  assert (take 4 head = le_split 4 EMMCFS_SNAPSHOT_MAGIC) as Hmagic by by rewrite <- Ehead.
  assert (take 2 (drop 14 head) = le_split 2 0) as Hoff by by rewrite <- Ehead.
  destruct (restore_head w head Hw Hpph) as (w1 & tail & -> & _); try done; [lia|].
  unfold restore_from.
  rewrite (drop_app_le _ _ 14), (take_app_le _ _ 2), Hoff by (rewrite ?length_drop; lia).
  rewrite le_combine_split. change (Z.to_nat (0 mod 256 ^ Z.of_nat 2)) with 0%nat.
  rewrite take_0, drop_0, take_app_le, Hmagic by lia.
  rewrite le_combine_split. change (EMMCFS_SNAPSHOT_MAGIC mod 256 ^ Z.of_nat 4) with EMMCFS_SNAPSHOT_MAGIC.
  by rewrite (proj2 (Z.eqb_neq _ _)).
Qed.

(** Once the head is cleared there is nothing to restore. *)
Lemma restore_cleared w :
  calm w -> (forall x, in_range (4096 * snapshot_start vol) 512 x -> dev w x = 0) ->
  exists w', restore w = Some (0, w') /\ dev w' = dev w.
Proof.
  intros [Hio Hmem] Hz. unfold emmcfs_restore_snapshot, emmcfs_is_snapshot_present.
  destruct (allocate_plenty w Hmem) as (w1 & -> & D1 & I1 & F1 & M1). cbn [negb].
  unfold emmcfs_read_page. change (8 >? SECTOR_PER_PAGE + 1) with false. cbv iota.
  rewrite I1, Hio, alloc_head by apply Hvol. cbn [Z.eqb negb].
  replace (head_sector vol * SECTOR_SIZE) with (4096 * snapshot_start vol)
    by (rewrite head_sector_eq; unfold SECTOR_SIZE; lia).
  change (SECTOR_SIZE * 8) with 4096. change (Z.to_nat 0) with 0%nat. rewrite take_0.
  change ([] ++ ?l) with l.
  assert (take 4 (dread (dev w1) (4096 * snapshot_start vol) 4096 ++
    drop (Z.to_nat (0 + 4096)) zero_page) = [0; 0; 0; 0]) as E.
  { rewrite take_app_le by (rewrite dread_length by lia; lia).
    change 4%nat with (Z.to_nat 4). rewrite take_dread, D1 by lia.
    rewrite (dread_ext _ (fun _ => 0)); [reflexivity|]. intros x Hx. apply Hz.
    unfold in_range in *. lia. }
  rewrite E, bool_decide_eq_false_2 by (vm_compute; congruence).
  eexists. split; [done|]. done.
Qed.

(** ** The journal while pages are added *)
Record journal_inv (V : device) (w : world) : Prop := {
  ji_calm : calm w;
  ji_sorted : StronglySorted (fun t u => on_volume t < on_volume u) (snapshot_root (info w));
  ji_count : transactions_count (info w) = Z.of_nat (length (snapshot_root (info w)));
  ji_room : Z.of_nat (length (snapshot_root (info w))) <=
    page_index (info w) - pages_per_head (info w);
  ji_index : 0 < pages_per_head (info w) <= page_index (info w) /\
    page_index (info w) <= max_pages_in_snapshot (info w) < snapshot_length vol;
  ji_head : sizeof_transaction * snapshot_length vol + sizeof_descriptor <=
    4096 * pages_per_head (info w);
  ji_saved : Forall (tx_saved (pages_per_head (info w)) (page_index (info w)) V (dev w))
    (snapshot_root (info w));
  ji_out : forall x, ~ in_area x -> dev w x = V x;
  ji_flags : flags (info w) = false /\ dirty_snapshot (info w) = false
}.

Lemma transaction_insert_spec root t :
  StronglySorted (fun t u => on_volume t < on_volume u) root ->
  (exists u, u ∈ root /\ on_volume u = on_volume t /\
     transaction_insert root t = (- EEXIST, root)) \/
  (exists l1 l2, root = l1 ++ l2 /\ transaction_insert root t = (0, l1 ++ t :: l2) /\
     (forall u, u ∈ l1 -> on_volume u < on_volume t) /\
     (forall u, u ∈ l2 -> on_volume t < on_volume u)).
Proof using.
  induction root as [|u root IH]; intros Hs.
  - right. exists [], []. split_and!; try done; intros u Hu; by apply elem_of_nil in Hu.
  - apply SSorted_cons in Hs as [Hs Hu]. rewrite Forall_forall in Hu. cbn [transaction_insert].
    destruct (Z.ltb_spec (on_volume t) (on_volume u)) as [Hlt|Hge].
    { right. exists [], (u :: root). split_and!; try done.
      - intros v Hv; by apply elem_of_nil in Hv.
      - intros v [->|Hv]%elem_of_cons; [done|]. specialize (Hu v Hv). lia. }
    rewrite Z.gtb_ltb. destruct (Z.ltb_spec (on_volume u) (on_volume t)) as [Hlt|Hge'].
    + destruct (IH Hs) as [(v & Hv & Ev & ->)|(l1 & l2 & -> & -> & H1 & H2)].
      * left. exists v. split; [apply elem_of_cons; by right|done].
      * right. exists (u :: l1), l2. split_and!; try done.
        intros v [->|Hv]%elem_of_cons; [done|auto].
    + left. exists u. split; [apply elem_of_cons; by left|]. split; [lia|done].
Qed.

Lemma place_transaction_mid l1 l2 t a :
  (forall u, u ∈ l1 -> on_volume u < on_volume t) ->
  (forall u, u ∈ l2 -> on_volume t < on_volume u) ->
  place_transaction (l1 ++ t :: l2) t a =
    l1 ++ Tx (on_volume t) a (tx_page_count t) :: l2.
Proof using.
  intros H1 H2.
  assert (forall l, (forall u, u ∈ l -> on_volume u <> on_volume t) ->
    place_transaction l t a = l) as Hid.
  { induction l as [|u l IH]; intros H; [done|]. simpl.
    rewrite (proj2 (Z.eqb_neq _ _)) by (apply H, elem_of_cons; by left).
    f_equal. apply IH. intros v Hv. apply H, elem_of_cons. by right. }
  unfold place_transaction in *. rewrite map_app. simpl. rewrite Z.eqb_refl, !Hid; [done|..].
  - intros u Hu%H2. lia.
  - intros u Hu%H1. lia.
Qed.

Lemma tx_saved_weaken lo hi hi' V d t : hi <= hi' -> tx_saved lo hi V d t -> tx_saved lo hi' V d t.
Proof using. intros H [H1 H2 H3 (i & Ei & Hi1 & Hi2) H5]. split; try done. exists i. lia. Qed.

(** A chunk of clean pages of the volume. *)
Record clean_chunk (V : device) (start_block : Z) (original : list page) : Prop := {
  cc_start : 0 < start_block;
  cc_pages : pages_ok original;
  cc_count : 0 < Z.of_nat (length original) < 2 ^ 16;
  cc_device : on_device (s_count vol) (8 * start_block) (Z.of_nat (length original));
  cc_outside : forall x,
    in_range (4096 * start_block) (4096 * Z.of_nat (length original)) x -> ~ in_area x;
  cc_clean : concat original =
    dread V (4096 * start_block) (4096 * Z.of_nat (length original))
}.

Lemma shiftl_log x : Z.shiftl x (log_sectors_per_block vol) = 8 * x.
Proof using Hvol. rewrite (vo_log Hvol), Z.shiftl_mul_pow2 by done. change (2 ^ 3) with 8. lia. Qed.

(** A block that is recorded costs nothing; another one gets a transaction of
    all the pages, whose copies follow the ones made before. *)
Definition added (w w' : world) (start_block : Z) (original : list page) : Prop :=
  (exists u, u ∈ snapshot_root (info w) /\ on_volume u = 8 * start_block) /\ info w' = info w /\ dev w' = dev w \/
  ~ (exists u, u ∈ snapshot_root (info w) /\ on_volume u = 8 * start_block) /\
  exists t, t = Tx (8 * start_block) (8 * (snapshot_start vol + page_index (info w))) (Z.of_nat (length original)) /\
    (exists l1 l2, snapshot_root (info w) = l1 ++ l2 /\ snapshot_root (info w') = l1 ++ t :: l2) /\
    page_index (info w') = page_index (info w) + Z.of_nat (length original) /\
    dev w' = dwrite (dev w) (512 * on_snapshot t) (concat original).

Lemma add_to_snapshot_inv V w start_block original :
  journal_inv V w -> clean_chunk V start_block original ->
  page_index (info w) + Z.of_nat (length original) <= max_pages_in_snapshot (info w) ->
  exists w', emmcfs_add_to_snapshot vol start_block original false w = Some (0, w') /\
    journal_inv V w' /\ added w w' start_block original.
Proof using Hvol.
  intros [[Hio Hmem] Hs Hc Hroom [Hi1 Hi2] Hh Hsaved Hout [Hfl Hdirty]] [C1 C2 C3 C4 C5 C6] Hmax.
  pose proof Hvol as [V1 V2 V3 V4].
  unfold emmcfs_add_to_snapshot. rewrite (proj2 (Z.eqb_neq start_block 0)) by lia.
  destruct (allocate_plenty w Hmem) as (w1 & -> & D1 & I1 & F1 & M1). cbn [negb].
  destruct (allocate_plenty w1 M1) as (w2 & -> & D2 & I2 & F2 & M2). cbn [negb].
  rewrite !shiftl_log. set (n := Z.of_nat (length original)) in *.
  assert (info w2 = info w) as F by congruence. rewrite F.
  destruct (transaction_insert_spec (snapshot_root (info w)) (Tx (8 * start_block) 0 n) Hs)
    as [(u & Hu & Eu & ->)|(l1 & l2 & El & -> & H1 & H2)]; cbn [Z.eqb negb].
  { change (- EEXIST =? 0) with false. cbn [negb]. rewrite Z.eqb_refl.
    exists w2. split; [done|]. split; [|left; split; [by exists u|split; [done|congruence]]].
    split; rewrite ?F; try done.
    - split; [congruence|done].
    - by rewrite D2, D1.
    - intros x Hx. rewrite D2, D1. auto. }
  destruct (allocate_n_plenty (length original) w2 M2) as (w3 & -> & D3 & I3 & F3 & M3).
  cbn [negb orb]. rewrite Hfl. rewrite Z.gtb_ltb, (proj2 (Z.ltb_ge _ _)) by lia.
  simpl io. simpl dev. rewrite I3, I2, I1, Hio, D3, D2, D1.
  rewrite write_all by (unfold on_device; lia).
  eexists. split; [done|]. rewrite place_transaction_mid by done. simpl tx_page_count. simpl on_volume.
  set (a := 8 * (snapshot_start vol + page_index (info w))) in *.
  set (t := Tx (8 * start_block) a n).
  assert (Z.of_nat (length (concat original)) = 4096 * n) as Elen by by apply length_concat_pages.
  assert (forall x, ~ in_range (4096 * (snapshot_start vol + page_index (info w))) (4096 * n) x ->
    dwrite (dev w) (a * SECTOR_SIZE) (concat original) x = dev w x) as Hnot.
  { intros x Hx. apply dwrite_out. rewrite Elen. unfold in_range, a, SECTOR_SIZE in *. lia. }
  split.
  2:{ right. split; [|exists t; split_and!; [done|by exists l1, l2|done|cbn; f_equal; unfold a, SECTOR_SIZE; lia]].
      intros (u & Hu & Eu). rewrite El in Hu. apply elem_of_app in Hu as [Hu|Hu]; [apply H1 in Hu|apply H2 in Hu]; simpl in Hu; lia. }
  assert (Forall (tx_saved (pages_per_head (info w)) (page_index (info w) + n) V
    (dwrite (dev w) (a * SECTOR_SIZE) (concat original))) (l1 ++ l2)) as Hold.
  { rewrite <- El. eapply Forall_impl; [exact Hsaved|]. intros u Hu.
    apply (tx_saved_weaken _ (page_index (info w))); [lia|].
    eapply tx_saved_same; [exact Hu|lia|lia|]. intros x Hx. apply Hnot. unfold in_range in *. lia. }
  assert (tx_saved (pages_per_head (info w)) (page_index (info w) + n) V
    (dwrite (dev w) (a * SECTOR_SIZE) (concat original)) t) as Hnew.
  { split.
    - unfold tx_range, t, a; simpl. unfold on_device in C4. lia.
    - done.
    - intros x Hx. apply C5. unfold in_target, in_range, t in *; simpl in Hx. lia.
    - exists (page_index (info w)). simpl. unfold a. split; [done|lia].
    - simpl on_snapshot. simpl tx_page_count. simpl on_volume. rewrite <- Elen.
      replace (512 * a) with (a * SECTOR_SIZE) by (unfold SECTOR_SIZE; lia).
      rewrite dread_dwrite, Elen. replace (512 * (8 * start_block)) with (4096 * start_block) by lia.
      exact C6. }
  split; simpl; try done.
  - apply SSorted_app. rewrite El in Hs. apply SSorted_app in Hs as (Hs1 & Hs2 & Hs3).
    split; [done|]. split.
    + apply SSorted_cons. split; [done|]. apply Forall_forall. intros u Hu. by apply H2.
    + rewrite Forall_forall in Hs3 |- *. intros u Hu. constructor; [by apply H1|by apply Hs3].
  - rewrite Hc, El. rewrite !length_app. simpl. lia.
  - rewrite El in Hroom. rewrite length_app in Hroom |- *. simpl. lia.
  - split; [lia|]. lia.
  - apply Forall_app in Hold as [Ho1 Ho2]. apply Forall_app. split; [done|]. by constructor.
  - intros x Hx. rewrite Hnot; [by apply Hout|]. intros Hx'. apply Hx.
    unfold in_area, in_range in *. lia.
Qed.

(** ** The commit *)
Lemma concat_chunks (l : list Z) k n : length l = (n * k)%nat ->
  concat (map (fun i => take k (drop (i * k) l)) (seq 0 n)) = l /\
  Forall (fun p => length p = k) (map (fun i => take k (drop (i * k) l)) (seq 0 n)).
Proof using.
  revert l. induction n as [|n IH]; intros l Hl.
  { by destruct l; [split|simpl in Hl; lia]. }
  rewrite <- cons_seq, <- seq_shift, map_cons, map_map. cbn [concat].
  destruct (IH (drop k l)) as [E1 E2]; [rewrite length_drop; lia|].
  assert (map (fun i => take k (drop (S i * k) l)) (seq 0 n) =
    map (fun i => take k (drop (i * k) (drop k l))) (seq 0 n)) as Em.
  { apply map_ext. intros i. by rewrite drop_drop. }
  rewrite Em, E1. simpl. rewrite drop_0. split; [apply take_drop|].
  constructor; [rewrite length_take; lia|exact E2].
Qed.

Lemma to_pages_spec n l : (length l <= n * 4096)%nat ->
  pages_ok (to_pages n l) /\ length (to_pages n l) = n /\
  exists zeros, concat (to_pages n l) = l ++ zeros.
Proof using.
  intros Hl.
  destruct (concat_chunks (l ++ replicate (n * 4096 - length l) 0) 4096 n) as [E1 E2].
  { rewrite length_app, length_replicate. lia. }
  unfold to_pages. split; [|split].
  - eapply Forall_impl; [exact E2|]. cbv beta. intros p ->. reflexivity.
  - by rewrite length_map, length_seq.
  - eexists. exact E1.
Qed.

Abbreviation commit := (emmcfs_commit_snapshot vol crc32 sync_first_super).

Lemma commit_correct V w :
  journal_inv V w -> snapshot_root (info w) <> [] ->
  head_length (length (snapshot_root (info w))) < 2 ^ 16 ->
  exists w' head size,
    commit w = Some (0, w') /\ calm w' /\
    snapshot_root (info w') = [] /\ transactions_count (info w') = 0 /\
    pages_per_head (info w') = pages_per_head (info w) /\
    to_snapshot (snapshot_root (info w)) (mount_counter vol) (head_version (info w)) size =
      inr head /\
    dread (dev w') (4096 * snapshot_start vol) (Z.of_nat (length head)) = head /\
    Forall (tx_saved (pages_per_head (info w)) (page_index (info w)) V (dev w'))
      (snapshot_root (info w)) /\
    (forall x, ~ in_area x -> dev w' x = V x).
Proof.
  intros [[Hio Hmem] Hs Hc Hroom [Hi1 Hi2] Hh Hsaved Hout [Hfl Hdirty]] Hne H16.
  pose proof Hvol as [V1 V2 V3 V4]. unfold sizeof_transaction, sizeof_descriptor in Hh.
  set (txs := snapshot_root (info w)) in *.
  set (pc := Z.shiftr (transactions_count (info w) * sizeof_transaction + sizeof_descriptor +
    Z.shiftl 1 PAGE_CACHE_SHIFT - 1) PAGE_CACHE_SHIFT).
  assert (18 * Z.of_nat (length txs) + 34 <= 4096 * pc /\ 0 < pc <= pages_per_head (info w))
    as [Hpc1 Hpc2].
  { unfold pc. rewrite Z.shiftr_div_pow2 by done. change (2 ^ PAGE_CACHE_SHIFT) with 4096.
    change (Z.shiftl 1 PAGE_CACHE_SHIFT) with 4096. rewrite Hc.
    unfold sizeof_transaction, sizeof_descriptor.
    pose proof (Z.div_mod (Z.of_nat (length txs) * 18 + 34 + 4096 - 1) 4096 ltac:(lia)).
    pose proof (Z.mod_pos_bound (Z.of_nat (length txs) * 18 + 34 + 4096 - 1) 4096 ltac:(lia)). lia. }
  destruct (to_snapshot txs (mount_counter vol) (head_version (info w)) (pc * PAGE_CACHE_SIZE))
    as [e|head] eqn:Ehead.
  { unfold transaction_tree_to_snapshot in Ehead. by destruct txs. }
  destruct (head_parts _ _ _ _ _ _ Ehead H16) as (body & Ehb & Hbl & _).
  assert (Z.of_nat (length head) = 18 * Z.of_nat (length txs) + 20) as Hhl.
  { rewrite Ehb, length_app, length_le_split, Nat2Z.inj_add, Hbl.
    unfold head_length, sizeof_transaction. lia. }
  destruct (to_pages_spec (Z.to_nat pc) head) as (Hpok & Hplen & zeros & Ezeros); [lia|].
  unfold emmcfs_commit_snapshot. fold pc. fold txs. rewrite Hdirty.
  rewrite (proj2 (Z.eqb_neq (transactions_count (info w)) 0))
    by (rewrite Hc; destruct txs; [done|simpl; lia]).
  destruct (allocate_plenty w Hmem) as (w1 & -> & D1 & I1 & F1 & M1). cbn [negb].
  destruct (allocate_n_plenty (Z.to_nat pc) w1 M1) as (w2 & -> & D2 & I2 & F2 & M2). cbn [negb].
  assert (info w2 = info w) as F by congruence. rewrite F, Ehead.
  simpl dev. simpl io. rewrite I2, I1, Hio, D2, D1.
  unfold emmcfs_write_page. change (1 >? SECTOR_PER_PAGE) with false. cbv iota.
  set (hsec := Z.shiftl (snapshot_start vol + snapshot_length vol)
    (PAGE_CACHE_SHIFT - SECTOR_SIZE_SHIFT) - SECTOR_PER_PAGE +
    Z.land (head_version (set_head_version (info w) (u32 (head_version (info w) + 1)))) 7).
  assert (8 * (snapshot_start vol + snapshot_length vol) - 8 <= hsec <
    8 * (snapshot_start vol + snapshot_length vol)) as Hhsec.
  { unfold hsec. rewrite Z.shiftl_mul_pow2 by done.
    change (2 ^ (PAGE_CACHE_SHIFT - SECTOR_SIZE_SHIFT)) with 8.
    change SECTOR_PER_PAGE with 8.
    change 7 with (Z.ones 3). rewrite Z.land_ones by done.
    pose proof (Z.mod_pos_bound
      (head_version (set_head_version (info w) (u32 (head_version (info w) + 1)))) (2 ^ 3)).
    lia. }
  unfold allocate_new_bio. rewrite !Z.gtb_ltb, !(proj2 (Z.ltb_ge _ _)) by lia. cbn [orb next_bio].
  set (hist := take (Z.to_nat (SECTOR_SIZE * 1)) (drop (Z.to_nat 0) (nth 0 (to_pages (Z.to_nat pc) head) []))).
  assert (length hist <= 512)%nat as Hhist by (unfold hist; rewrite length_take; change (Z.to_nat (SECTOR_SIZE * 1)) with 512%nat; lia).
  rewrite write_all by (rewrite Hplen, head_sector_eq; unfold on_device; lia).
  eexists _, head, (pc * PAGE_CACHE_SIZE). split; [done|]. split; [done|]. do 3 (split; [done|]).
  split; [done|].
  replace (head_sector vol * SECTOR_SIZE) with (4096 * snapshot_start vol)
    by (rewrite head_sector_eq; unfold SECTOR_SIZE; lia).
  cbn [dev set_dev]. set (d1 := dwrite (dev w) (hsec * SECTOR_SIZE) hist).
  assert (Z.of_nat (length (concat (to_pages (Z.to_nat pc) head))) = 4096 * pc) as Elc.
  { rewrite length_concat_pages, Hplen by done. unfold PAGE_CACHE_SIZE. lia. }
  assert (forall x, ~ in_range (4096 * snapshot_start vol) (4096 * pc) x ->
    ~ in_range (4096 * (snapshot_start vol + snapshot_length vol - 1)) 4096 x ->
    dwrite d1 (4096 * snapshot_start vol) (concat (to_pages (Z.to_nat pc) head)) x = dev w x) as Hsame.
  { intros x Hx1 Hx2. rewrite dwrite_out by by rewrite Elc. unfold d1. rewrite dwrite_out; [done|].
    unfold in_range, SECTOR_SIZE in *. lia. }
  split; [|split].
  - set (W := dwrite d1 _ _).
    assert (dread W (4096 * snapshot_start vol)
      (Z.of_nat (length (concat (to_pages (Z.to_nat pc) head)))) = head ++ zeros) as Er
      by (unfold W; rewrite dread_dwrite; exact Ezeros).
    rewrite Ezeros, length_app, Nat2Z.inj_add, dread_app in Er by lia.
    apply app_inj_1 in Er as [Er _]; [exact Er|]. rewrite dread_length by lia. lia.
  - eapply Forall_impl; [exact Hsaved|]. intros t Ht.
    eapply tx_saved_same; [exact Ht|lia|lia|]. intros x Hx.
    apply Hsame; unfold in_range in *; lia.
  - intros x Hx. rewrite Hsame; [by apply Hout|..]; intros Hx'; apply Hx;
      unfold in_area, in_range in *; lia.
Qed.
End journal.
