(* ===== verification/SnapshotTheorems.v ===== *)
(** * The metadata journal: theorems *)

From S2P Require Import Prelude Data Snapshot SnapshotProofs.
Open Scope Z_scope.

(** ** A small volume for the examples: a snapshot area of four pages from
    block 1 on, with one page for the head *)
Definition small_volume : volume := Volume 1 4 3 1000 1.

Lemma small_volume_ok : vol_ok small_volume.
Proof. split; simpl; lia. Qed.

Definition old_device : device := fun x => x mod 256.

Definition empty_journal : snapshot_info := Snapshot [] 0 1 1 2 0 false false.

Definition small_world : world := World old_device [] [] empty_journal.

Lemma small_world_inv : journal_inv small_volume old_device small_world.
Proof.
  split; simpl; try done; try lia.
  - split; [done|apply plenty_nil].
  - constructor.
Qed.

(** The page of block 10. *)
Definition block_10 : page := dread old_device (4096 * 10) 4096.

Lemma block_10_clean : clean_chunk small_volume old_device 10 [block_10].
Proof.
  split; change (Z.of_nat (length [block_10])) with 1; try lia.
  - constructor; [|constructor]. unfold block_10. by rewrite length_dread.
  - unfold on_device. cbn. lia.
  - intros x. unfold in_area, in_range. cbn. lia.
  - cbn [concat]. by rewrite app_nil_r.
Qed.

(** ** Claims *)

(** C38: adding clean pages to the journal before they are changed, while the
    area has room and the kernel has memory and splits no request.  A block that
    has been recorded before costs nothing: neither the journal nor the device
    changes.  Otherwise the journal gets one transaction of all the pages, whose
    original contents are copied to the next unused pages of the snapshot area;
    the device changes nowhere else and the other transactions stay.  In both
    cases every transaction has a copy of what its pages held originally. *)
Theorem emmcfs_add_to_snapshot_correct vol V w start_block original :
  vol_ok vol -> journal_inv vol V w -> clean_chunk vol V start_block original ->
  page_index (info w) + Z.of_nat (length original) <= max_pages_in_snapshot (info w) ->
  exists w', emmcfs_add_to_snapshot vol start_block original false w = Some (0, w') /\
    journal_inv vol V w' /\ added vol w w' start_block original /\
    forall t, t ∈ snapshot_root (info w') ->
      dread (dev w') (512 * on_snapshot t) (4096 * tx_page_count t) =
      dread V (512 * on_volume t) (4096 * tx_page_count t).
Proof.
  intros Hvol Hj Hc Hmax.
  destruct (add_to_snapshot_inv vol Hvol V w start_block original Hj Hc Hmax)
    as (w' & E & Hj' & Ht). exists w'. split_and!; try done.
  pose proof (ji_saved _ _ _ Hj') as Hs. rewrite Forall_forall in Hs.
  intros t Hin. apply (ts_copy _ _ _ _ _ _ (Hs t Hin)).
Qed.

Lemma emmcfs_add_to_snapshot_correct_witness :
  exists w', emmcfs_add_to_snapshot small_volume 10 [block_10] false small_world = Some (0, w') /\
    journal_inv small_volume old_device w' /\ added small_volume small_world w' 10 [block_10] /\
    forall t, t ∈ snapshot_root (info w') ->
      dread (dev w') (512 * on_snapshot t) (4096 * tx_page_count t) =
      dread old_device (512 * on_volume t) (4096 * tx_page_count t).
Proof.
  apply (emmcfs_add_to_snapshot_correct small_volume old_device small_world 10 [block_10]);
    [apply small_volume_ok|apply small_world_inv|apply block_10_clean|simpl; lia].
Defined.



(** After the head has been cleared, which ends a flush of the journal, a
    restoration finds nothing to do and changes nothing on the device. *)
Theorem clear_then_restore vol crc32 sync_second w :
  vol_ok vol -> calm w -> dirty_snapshot (info w) = false ->
  exists w1, emmcfs_clear_snapshot vol sync_second w = (0, w1) /\
    (forall x, ~ in_area vol x -> dev w1 x = dev w x) /\
    exists w2, emmcfs_restore_snapshot vol crc32 sync_second w1 = Some (0, w2) /\
      dev w2 = dev w1.
Proof.
  intros Hvol Hw Hd. destruct (clear_snapshot_spec vol sync_second Hvol w Hw Hd)
    as (w1 & E & Hw1 & _ & Hout & Hz).
  exists w1. split; [exact E|]. split; [exact Hout|]. by apply restore_cleared.
Qed.

Lemma clear_then_restore_witness :
  calm small_world /\
  exists w1, emmcfs_clear_snapshot small_volume (fun d => d) small_world = (0, w1) /\
    (forall x, ~ in_area small_volume x -> dev w1 x = dev small_world x) /\
    exists w2, emmcfs_restore_snapshot small_volume (fun _ _ => 7) (fun d => d) w1 = Some (0, w2) /\
      dev w2 = dev w1.
Proof.
  assert (calm small_world) as Hc by (split; [reflexivity|apply plenty_nil]).
  split; [exact Hc|].
  apply (clear_then_restore small_volume (fun _ _ => 7) (fun d => d) small_world);
    [apply small_volume_ok|exact Hc|reflexivity].
Defined.

(** A head of 3640 transactions has its checksum at byte 65536, which the
    16-bit [checksum_offset] stores as 0: the restoration compares the checksum
    of no bytes with the magic number and stops with a [BUG], although the head
    is the one that the commit wrote. *)
Theorem checksum_offset_wraps vol crc32 sync_second w txs mc ver size head :
  vol_ok vol -> calm w -> length txs = Z.to_nat 3640 ->
  17 <= pages_per_head (info w) <= snapshot_length vol ->
  transaction_tree_to_snapshot crc32 txs mc ver size = inr head ->
  dread (dev w) (4096 * snapshot_start vol) (Z.of_nat (length head)) = head ->
  u32 (crc32 0 []) <> EMMCFS_SNAPSHOT_MAGIC ->
  emmcfs_restore_snapshot vol crc32 sync_second w = None.
Proof.
  intros Hvol Hw Hlen Hpph E Hdev Hcrc.
  eapply (restore_overflow vol crc32 sync_second Hvol w txs mc ver size head); try done; [lia| |lia].
  rewrite Hlen. unfold head_length, sizeof_transaction. lia.
Qed.

Definition big_volume : volume := Volume 1 40 3 1000 1.

Definition many_transactions : list transaction := replicate (Z.to_nat 3640) (Tx 400 40 1).

Definition big_head : list Z :=
  match transaction_tree_to_snapshot (fun _ _ => 0) many_transactions 1 0 (17 * 4096) with
  | inr head => head
  | inl _ => []
  end.

Lemma checksum_offset_wraps_witness :
  emmcfs_restore_snapshot big_volume (fun _ _ => 0) (fun d => d)
    (World (dwrite old_device 4096 big_head) [] [] (Snapshot [] 0 17 17 20 0 false false)) = None.
Proof.
  apply (checksum_offset_wraps big_volume (fun _ _ => 0) (fun d => d)
    (World (dwrite old_device 4096 big_head) [] [] (Snapshot [] 0 17 17 20 0 false false))
    many_transactions 1 0 (17 * 4096) big_head).
  - split; simpl; lia.
  - split; [reflexivity|apply plenty_nil].
  - apply length_replicate.
  - simpl. lia.
  - unfold big_head, transaction_tree_to_snapshot, many_transactions.
    change (Z.to_nat 3640) with (S (Z.to_nat 3639)). reflexivity.
  - apply dread_dwrite.
  - vm_compute. discriminate.
Defined.
