(* ===== verification/Transaction.v ===== *)
(** * Nested transactions and the flush of the journal

    [emmcfs_start_transaction], [emmcfs_stop_transaction] and [flash_snapshot]
    of snapshot.c run concurrently in several tasks.  Every task has a log with
    the depth of its nested transactions; the outermost one holds the
    read-write semaphore [transaction_lock] as a reader, and the flush of the
    journal holds it as a writer, from [flash_snapshot] or from
    [update_metadata] of inode.c, by which the kernel writes dirty metadata.  A
    step of the system is one of the actions between which the tasks may be
    interleaved. *)

From S2P Require Import Prelude.
Open Scope Z_scope.

Abbreviation pid := positive.

(** The call that a flush belongs to. *)
Inductive caller := ByStart | ByStop | ByUpdate.

#[export] Instance caller_eq_dec : EqDecision caller.
Proof. solve_decision. Defined.

(** Where a task is: outside the functions, about to compare [page_index] in
    [flash_snapshot], waiting in [down_write], between [down_write] and
    [up_write], or waiting in [down_read]. *)
Inductive place :=
| Outside
| InFlash (c : caller)
| WaitWrite (c : caller)
| Flushing (c : caller)
| WaitRead.

#[export] Instance place_eq_dec : EqDecision place.
Proof. solve_decision. Defined.

Record system := System {
  r_lock_count : pid -> nat;
  at_place : pid -> place;
  readers : gset pid;
  writer : option pid;
  flush_flag : bool;
  s_page_index : Z
}.

Section steps.
(** [maximum_transaction_lenght], [pages_per_head] and
    [max_pages_in_snapshot] *)
Variables (max_lenght pages_per_head max_pages : Z).

Definition upd {A} (f : pid -> A) (p : pid) (a : A) : pid -> A :=
  fun q => if decide (q = p) then a else f q.

Definition move (s : system) (p : pid) (l : place) : system :=
  System (r_lock_count s) (upd (at_place s) p l) (readers s) (writer s) (flush_flag s)
    (s_page_index s).

(** Where [flash_snapshot] returns to without an error. *)
Definition after_flash (c : caller) : place :=
  match c with ByStart => WaitRead | _ => Outside end.

Inductive step (p : pid) (s : system) : system -> Prop :=
(** [emmcfs_start_transaction] *)
| StartNested :
    at_place s p = Outside -> r_lock_count s p <> 0%nat ->
    step p s (System (upd (r_lock_count s) p (S (r_lock_count s p))) (at_place s)
      (readers s) (writer s) (flush_flag s) (s_page_index s))
| StartOuter :
    at_place s p = Outside -> r_lock_count s p = 0%nat ->
    step p s (move s p (InFlash ByStart))
| DownRead :
    at_place s p = WaitRead -> writer s = None ->
    step p s (System (upd (r_lock_count s) p 1%nat) (upd (at_place s) p Outside)
      ({[p]} ∪ readers s) (writer s) (flush_flag s) (s_page_index s))
(** [emmcfs_stop_transaction] *)
| StopNested n :
    at_place s p = Outside -> r_lock_count s p = S (S n) ->
    step p s (System (upd (r_lock_count s) p (S n)) (at_place s)
      (readers s) (writer s) (flush_flag s) (s_page_index s))
| StopOuter :
    at_place s p = Outside -> r_lock_count s p = 1%nat ->
    step p s (System (upd (r_lock_count s) p 0%nat) (upd (at_place s) p (InFlash ByStop))
      (readers s ∖ {[p]}) (writer s) (flush_flag s) (s_page_index s))
(** [flash_snapshot] *)
| FlashSkip c :
    at_place s p = InFlash c -> s_page_index s <= max_lenght ->
    step p s (move s p (after_flash c))
| FlashNeeded c :
    at_place s p = InFlash c -> max_lenght < s_page_index s ->
    step p s (move s p (WaitWrite c))
| DownWrite c :
    at_place s p = WaitWrite c -> readers s = ∅ -> writer s = None ->
    step p s (System (r_lock_count s) (upd (at_place s) p (Flushing c))
      (readers s) (Some p) true (s_page_index s))
| FlashDone c :
    at_place s p = Flushing c -> c <> ByUpdate ->
    step p s (System (r_lock_count s) (upd (at_place s) p (after_flash c))
      (readers s) None false
      (if s_page_index s <=? max_lenght then s_page_index s else pages_per_head))
| FlashFailed c i :
    at_place s p = Flushing c -> c <> ByUpdate -> max_lenght < s_page_index s ->
    step p s (System (r_lock_count s) (upd (at_place s) p Outside)
      (readers s) None false i)
(** [update_metadata], which looks neither at the nesting of the task nor at the
    length of the journal; the journal starts anew unless a step of it fails *)
| Update :
    at_place s p = Outside ->
    step p s (move s p (WaitWrite ByUpdate))
| UpdateDone i :
    at_place s p = Flushing ByUpdate -> i = s_page_index s \/ i = pages_per_head ->
    step p s (System (r_lock_count s) (upd (at_place s) p Outside)
      (readers s) None false i)
(** [emmcfs_add_to_snapshot] inside a transaction *)
| AddPages n :
    at_place s p = Outside -> r_lock_count s p <> 0%nat ->
    0 <= n -> s_page_index s + n <= max_pages ->
    step p s (System (r_lock_count s) (at_place s) (readers s) (writer s) (flush_flag s)
      (s_page_index s + n)).

Definition init : system :=
  System (fun _ => 0%nat) (fun _ => Outside) ∅ None false pages_per_head.

Inductive reachable : system -> Prop :=
| reach_init : reachable init
| reach_step s p s' : reachable s -> step p s s' -> reachable s'.

(** ** The invariant *)
Record lock_inv (s : system) : Prop := {
  li_readers p : p ∈ readers s <-> r_lock_count s p <> 0%nat;
  li_open p : r_lock_count s p <> 0%nat -> at_place s p = Outside \/ at_place s p = WaitWrite ByUpdate;
  li_writer p : writer s = Some p <-> exists c, at_place s p = Flushing c;
  li_excl : writer s <> None -> readers s = ∅;
  li_flag : flush_flag s = bool_decide (writer s <> None)
}.

Lemma upd_eq {A} (f : pid -> A) p a : upd f p a p = a.
Proof. unfold upd. by case_decide. Qed.

Lemma upd_ne {A} (f : pid -> A) p a q : q <> p -> upd f p a q = f q.
Proof. intros. unfold upd. by case_decide. Qed.

Lemma lock_inv_init : lock_inv init.
Proof. split; simpl; try done; set_solver. Qed.

(** A task moves between places other than [Flushing]. *)
Lemma lock_inv_move s p l :
  lock_inv s -> r_lock_count s p = 0%nat \/ l = WaitWrite ByUpdate ->
  (forall c, at_place s p <> Flushing c) -> (forall c, l <> Flushing c) ->
  lock_inv (move s p l).
Proof.
  intros [H1 H2 H3 H4 H5] H0 Hp Hl. split; simpl; try done.
  - intros q Hq. unfold upd. case_decide; [subst; naive_solver|auto].
  - intros q. rewrite H3. destruct (decide (q = p)) as [->|]; [|by rewrite upd_ne].
    rewrite upd_eq. naive_solver.
Qed.

(** A task gives the semaphore back as a writer. *)
Lemma lock_inv_flushed s p c l i :
  lock_inv s -> at_place s p = Flushing c -> (forall c, l <> Flushing c) ->
  lock_inv (System (r_lock_count s) (upd (at_place s) p l) (readers s) None false i).
Proof.
  intros [H1 H2 H3 H4 H5] Hp Hl.
  assert (writer s = Some p) as Hw by (apply H3; eauto).
  assert (r_lock_count s p = 0%nat) as H0.
  { destruct (r_lock_count s p) eqn:E; [done|]. destruct (H2 p) as [E'|E']; [lia|congruence..]. }
  split; simpl; try done.
  - intros q Hq. destruct (decide (q = p)) as [->|]; [done|rewrite upd_ne by done; auto].
  - intros q. unfold upd. case_decide; [naive_solver|]. rewrite <- H3, Hw. naive_solver.
Qed.

Lemma lock_inv_step s p s' : lock_inv s -> step p s s' -> lock_inv s'.
Proof.
  intros Hinv Hst.
  assert (at_place s p <> Outside -> at_place s p <> WaitWrite ByUpdate -> r_lock_count s p = 0%nat) as Hzero.
  { intros Hne Hne'. destruct (r_lock_count s p) eqn:E; [done|]. by destruct (li_open s Hinv p); [lia|..]. }
  pose proof Hinv as [H1 H2 H3 H4 H5].
  destruct Hst as [Hp Hc|Hp Hc|Hp Hw|n Hp Hc|Hp Hc|c Hp Hi|c Hp Hi|c Hp Hr Hw|c Hp Hne|c i Hp Hne Hi|Hp|i Hp Hi|n Hp Hc Hn Hm].
  - split; simpl; try done.
    + intros q. rewrite H1. unfold upd. case_decide; [subst; naive_solver lia|done].
    + intros q. unfold upd. case_decide; [subst; auto|apply H2].
  - apply lock_inv_move; try done; [by left|by rewrite Hp].
  - assert (r_lock_count s p = 0%nat) as H0 by (apply Hzero; by rewrite Hp).
    split; simpl.
    + intros q. unfold upd. case_decide; [subst; set_solver by lia|].
      rewrite elem_of_union, H1. set_solver.
    + intros q. unfold upd. case_decide; [by left|apply H2].
    + intros q. rewrite H3. unfold upd. case_decide; [subst; rewrite Hp; naive_solver|done].
    + by rewrite Hw.
    + done.
  - split; simpl; try done.
    + intros q. rewrite H1. unfold upd. case_decide; [subst; naive_solver lia|done].
    + intros q. unfold upd. case_decide; [subst; auto|apply H2].
  - assert (writer s = None) as Hw.
    { destruct (writer s) eqn:E; [|done]. exfalso.
      assert (p ∈ readers s) as Hin by (apply H1; lia). rewrite H4 in Hin by done. set_solver. }
    split; simpl.
    + intros q. rewrite elem_of_difference, H1. unfold upd. case_decide; set_solver.
    + intros q. unfold upd. case_decide; [done|apply H2].
    + intros q. rewrite H3. unfold upd. case_decide; [subst; rewrite Hp; naive_solver|done].
    + by rewrite Hw.
    + done.
  - apply lock_inv_move; try done; [left; apply Hzero; by rewrite Hp|by rewrite Hp|by destruct c].
  - apply lock_inv_move; try done; [left; apply Hzero; by rewrite Hp|by rewrite Hp].
  - split; simpl; try done.
    + intros q Hq. destruct (decide (q = p)) as [->|]; [|rewrite upd_ne by done; auto].
      exfalso. apply H1 in Hq. rewrite Hr in Hq. set_solver.
    + intros q. unfold upd. case_decide; [subst; naive_solver|].
      rewrite <- H3, Hw. naive_solver.
  - eapply lock_inv_flushed; [done..|by destruct c].
  - by eapply lock_inv_flushed.
  - apply lock_inv_move; try done; [by right|by rewrite Hp].
  - by eapply lock_inv_flushed.
  - split; simpl; try done.
Qed.

Lemma reachable_inv s : reachable s -> lock_inv s.
Proof. induction 1; [apply lock_inv_init|by eapply lock_inv_step]. Qed.

(** C37: in every interleaving of transactions and flushes, from
    [flash_snapshot] and from [update_metadata], while a task flushes the journal
    no task has a transaction open, at most one task flushes, and the flag that
    makes [emmcfs_add_to_snapshot] a [BUG] is up exactly while a task flushes,
    so it is down whenever some task is inside a transaction. *)
Theorem flush_excludes_transactions s :
  reachable s ->
  (forall p q c, at_place s p = Flushing c -> r_lock_count s q = 0%nat) /\
  (forall p q c c', at_place s p = Flushing c -> at_place s q = Flushing c' -> p = q) /\
  (flush_flag s = true <-> exists p c, at_place s p = Flushing c) /\
  (forall p, r_lock_count s p <> 0%nat -> flush_flag s = false /\ writer s = None).
Proof.
  intros [H1 H2 H3 H4 H5]%reachable_inv.
  assert (forall p, r_lock_count s p <> 0%nat -> writer s = None) as Hw.
  { intros p Hp%H1. destruct (writer s) eqn:E; [|done]. rewrite H4 in Hp by done. set_solver. }
  split_and!.
  - intros p q c Hp. destruct (r_lock_count s q) eqn:E; [done|].
    assert (writer s = Some p) by (apply H3; eauto).
    assert (writer s = None) by (apply (Hw q); lia). congruence.
  - intros p q c c' Hp Hq. assert (writer s = Some p) by (apply H3; eauto).
    assert (writer s = Some q) by (apply H3; eauto). congruence.
  - rewrite H5, bool_decide_eq_true. split.
    + destruct (writer s) as [p|] eqn:E; [|done]. intros _. destruct (proj1 (H3 p) eq_refl) as [c Hc]. by exists p, c.
    + intros (p & c & Hp). by rewrite (proj2 (H3 p)) by eauto.
  - intros p Hp. rewrite H5, (Hw p Hp). split; [by case_bool_decide|done].
Qed.

(** A task waits, for a flush of its own transactions or for the read lock, only
    while it has no transaction open, so it never waits for itself; only
    [update_metadata] inside of a transaction would. *)
Theorem waiting_task_has_no_transaction s p :
  reachable s -> at_place s p <> Outside -> at_place s p <> WaitWrite ByUpdate -> r_lock_count s p = 0%nat /\ p ∉ readers s.
Proof.
  intros [H1 H2 H3 H4 H5]%reachable_inv Hp Hp'.
  assert (r_lock_count s p = 0%nat) as H0.
  { destruct (r_lock_count s p) eqn:E; [done|]. destruct (H2 p) as [?|?]; [lia|done..]. }
  split; [done|]. rewrite H1. lia.
Qed.
End steps.

(** ** Two tasks *)

(** The first task opens a transaction, another one inside it, and adds pages. *)
Lemma open_reachable : exists s, reachable 100 1 200 s /\ r_lock_count s 1%positive = 2%nat /\ r_lock_count s 2%positive = 0%nat /\
  at_place s 1%positive = Outside /\ at_place s 2%positive = Outside /\ readers s = {[1%positive]} /\ writer s = None /\ s_page_index s = 151.
Proof.
  pose proof (reach_init 100 1 200) as R.
  unshelve epose proof (reach_step 100 1 200 _ 1%positive _ R (StartOuter 100 1 200 1%positive _ _ _)) as R1; [reflexivity|reflexivity|].
  unshelve epose proof (reach_step 100 1 200 _ 1%positive _ R1 (FlashSkip 100 1 200 1%positive _ ByStart _ _)) as R2; [reflexivity|cbn; lia|].
  unshelve epose proof (reach_step 100 1 200 _ 1%positive _ R2 (DownRead 100 1 200 1%positive _ _ _)) as R3; [reflexivity|reflexivity|].
  unshelve epose proof (reach_step 100 1 200 _ 1%positive _ R3 (StartNested 100 1 200 1%positive _ _ _)) as R4; [reflexivity|done|].
  unshelve epose proof (reach_step 100 1 200 _ 1%positive _ R4 (AddPages 100 1 200 1%positive _ 150 _ _ _ _)) as R5; [reflexivity|done|lia|cbn; lia|].
  eexists. split; [exact R5|]. by split_and!.
Qed.

(** It closes them, and flushes the journal while the second one, which wants to
    write metadata, waits. *)
Lemma flushing_reachable : exists s, reachable 100 1 200 s /\ at_place s 1%positive = Flushing ByStop /\
  at_place s 2%positive = WaitWrite ByUpdate.
Proof.
  destruct open_reachable as (s & Hs & E1 & E2 & E3 & E4 & E5 & E6 & E7).
  unshelve epose proof (reach_step 100 1 200 _ 1%positive _ Hs (StopNested 100 1 200 1%positive _ 0 _ _)) as R1; [exact E3|exact E1|].
  unshelve epose proof (reach_step 100 1 200 _ 1%positive _ R1 (StopOuter 100 1 200 1%positive _ _ _)) as R2; [exact E3|reflexivity|].
  unshelve epose proof (reach_step 100 1 200 _ 2%positive _ R2 (Update 100 1 200 2%positive _ _)) as R3; [exact E4|].
  unshelve epose proof (reach_step 100 1 200 _ 1%positive _ R3 (FlashNeeded 100 1 200 1%positive _ ByStop _ _)) as R4; [reflexivity|cbn; rewrite E7; lia|].
  assert (readers s ∖ {[1%positive]} = ∅) as E by (rewrite E5; set_solver).
  unshelve epose proof (reach_step 100 1 200 _ 1%positive _ R4 (DownWrite 100 1 200 1%positive _ ByStop _ _ _)) as R5; [reflexivity|exact E|exact E6|].
  eexists. split; [exact R5|]. by split.
Qed.

Lemma flush_excludes_transactions_witness :
  (exists s, reachable 100 1 200 s /\ at_place s 1%positive = Flushing ByStop /\ at_place s 2%positive = WaitWrite ByUpdate /\
    flush_flag s = true /\ forall q, r_lock_count s q = 0%nat) /\
  (exists s, reachable 100 1 200 s /\ r_lock_count s 1%positive = 2%nat /\ flush_flag s = false /\ forall p c, at_place s p <> Flushing c).
Proof.
  split.
  - destruct flushing_reachable as (s & Hs & E1 & E2). exists s.
    destruct (flush_excludes_transactions 100 1 200 s Hs) as (W1 & _ & W3 & _).
    split_and!; [exact Hs|exact E1|exact E2|apply W3; by exists 1%positive, ByStop|]. intros q. by apply (W1 1%positive q ByStop).
  - destruct open_reachable as (s & Hs & E1 & _). exists s.
    destruct (flush_excludes_transactions 100 1 200 s Hs) as (W1 & _ & _ & W4).
    split_and!; [exact Hs|exact E1|apply (W4 1%positive); by rewrite E1|]. intros p c Hp.
    pose proof (W1 p 1%positive c Hp) as H. by rewrite E1 in H.
Defined.

Lemma waiting_task_has_no_transaction_witness :
  let s := move (init 1) 5%positive (InFlash ByStart) in
  r_lock_count s 5%positive = 0%nat /\ 5%positive ∉ readers s.
Proof.
  apply (waiting_task_has_no_transaction 100 1 200).
  - apply (reach_step 100 1 200 (init 1) 5%positive); [apply reach_init|].
    apply StartOuter; reflexivity.
  - vm_compute. discriminate.
  - vm_compute. discriminate.
Defined.
