(* ===== verification/Blocks.v ===== *)
(** * The blocks of the volume, as files use them

    The interface of fsm.c towards inode.c, extents.c and file.c: a set of
    blocks in use, from which chunks are taken and to which they are given
    back; [refuses] is the reason for which a request is refused.  The free-space
    manager implements it. *)

From S2P Require Import Prelude Monad FsmBtree FsmAlloc Fsm FsmProofs.
Open Scope Z_scope.

(** [b] is one of the [len] blocks from [off] on. *)
Definition in_chunk (off len b : Z) : bool := (off <=? b) && (b <? off + len).

Lemma in_chunk_spec off len b :
  BoolSpec (off <= b < off + len) (~ off <= b < off + len) (in_chunk off len b).
Proof. unfold in_chunk. destruct (Z.leb_spec off b), (Z.ltb_spec b (off + len)); constructor; lia. Qed.

Class BlockAlloc (A : Type) := {
  get_free_block : Z -> Z -> St A Z;
  put_free_block : Z -> Z -> St A Z;
  free_extent : Z -> Z -> St A Z;
  free_blocks : A -> Z;
  in_use : A -> Z -> bool;
  alloc_ok : A -> Prop;
  refuses : A -> Z -> Z -> Prop;
  in_use_bound a b : alloc_ok a -> in_use a b = true -> 0 <= b < 2 ^ 32;
  get_free_block_ok a hint len : alloc_ok a -> 0 < len ->
    wp (get_free_block hint len) a (ok (fun r a' => alloc_ok a' /\
      (r = 0 /\ refuses a hint len /\ (forall b, in_use a' b = in_use a b) \/
       0 < r /\ (forall b, r <= b < r + len -> in_use a b = false) /\
       (forall b, in_use a' b = in_chunk r len b || in_use a b))));
  put_free_block_ok a off len : alloc_ok a -> 0 < off -> 0 < len ->
    (forall b, off <= b < off + len -> in_use a b = true) ->
    wp (put_free_block off len) a (ok (fun r a' => r = 0 /\ alloc_ok a' /\
      forall b, in_use a' b = negb (in_chunk off len b) && in_use a b));
  free_extent_ok a off len : alloc_ok a -> 0 < off -> 0 < len ->
    (forall b, off <= b < off + len -> in_use a b = true) ->
    wp (free_extent off len) a (ok (fun r a' => r = 0 /\ alloc_ok a' /\
      forall b, in_use a' b = negb (in_chunk off len b) && in_use a b))
}.

(** ** The free-space manager *)
Section manager.
Context `{FreeTree T} `{JN : Journal J}.

(** The manager with its journal and the answers of the memory. *)
Record allocator := Allocator { al_fsm : fsm_info T; al_journal : J; al_mem : oracle }.

(** The flag [IS_MOUNT_FINISHED], the number of blocks of the volume, and the
    inode that asks for blocks, whose preallocation is not used. *)
Context (mount_finished : bool) (total : Z) (inode : fsm_inode)
  (Hino : prealloc_block_count inode = 0) (Hj : journal_ok (J := J)).

Definition fsm_get (hint len : Z) : St allocator Z := fun a =>
  match emmcfs_fsm_get_free_block mount_finished total inode hint len (al_fsm a) (al_journal a) (al_mem a) with
  | Some (r, _, fsm, j, o) => (Ok r, Allocator fsm j o)
  | None => (Bug, a)
  end.

Definition fsm_free (ino : option fsm_inode) (off len : Z) : St allocator Z := fun a =>
  match fsm_free_block_chunk mount_finished (al_fsm a) off len ino (al_journal a) (al_mem a) with
  | Some (r, _, fsm, j, o) => (Ok r, Allocator fsm j o)
  | None => (Bug, a)
  end.

Definition fsm_in_use (a : allocator) (b : Z) : bool :=
  in_chunk 0 (8 * length_in_bytes (al_fsm a)) b && bit (data (al_fsm a)) b.

(** The request reaches the end of the volume, or no free extent is that long. *)
Definition fsm_refuses (a : allocator) (hint len : Z) : Prop :=
  total <= u64 (hint + len) \/ Forall (fun k => key_length k < len) (ft_elems (tree (al_fsm a))).

Definition fsm_alloc_ok (a : allocator) : Prop :=
  fsm_inv (al_fsm a) /\ fsm_geometry (al_fsm a) /\ plenty (al_mem a).

Lemma geometry_ext (fsm fsm' : fsm_info T) : fsm_geometry fsm ->
  length_in_bytes fsm' = length_in_bytes fsm -> page_count fsm' = page_count fsm ->
  length (data fsm') = length (data fsm) -> fsm_geometry fsm'.
Proof using. intros [] El Ep Ed. split; rewrite ?El, ?Ep, ?Ed; done. Qed.

Lemma fsm_get_ok a hint len : fsm_alloc_ok a -> 0 < len ->
  wp (fsm_get hint len) a (ok (fun r a' => fsm_alloc_ok a' /\
    (r = 0 /\ fsm_refuses a hint len /\ (forall b, fsm_in_use a' b = fsm_in_use a b) \/
     0 < r /\ (forall b, r <= b < r + len -> fsm_in_use a b = false) /\
     (forall b, fsm_in_use a' b = in_chunk r len b || fsm_in_use a b)))).
Proof using Hj.
  intros (Hinv & Hgeo & Ho) Hlen. unfold wp, fsm_get.
  destruct (Z.ltb_spec (u64 (hint + len)) total) as [Hlt|Hge].
  - destruct (get_free_block_inv mount_finished total inode hint len (al_fsm a) (al_journal a) (al_mem a)
      Hinv Hgeo Hj Ho Hlen Hlt) as (r & fsm' & j' & o' & -> & Ho' & Hinv' & _ & El & Ep & Hpost).
    simpl. destruct Hpost as [(-> & Ed & Hno)|(Hr & Hlim & Hclear & [Hdl Hset] & _)].
    + split; [split; [done|split; [|done]]; apply (geometry_ext (al_fsm a)); simpl; [done|done|done|by rewrite Ed]|].
      left. split; [done|]. split; [by right|]. intros b. unfold fsm_in_use. cbn [al_fsm]. by rewrite El, Ed.
    + split; [split; [done|split; [|done]]; by apply (geometry_ext (al_fsm a))|].
      right. split; [done|]. unfold fsm_in_use. cbn [al_fsm]. rewrite El. split.
      * intros b Hb. by rewrite Hclear, andb_false_r.
      * intros b. destruct (in_chunk_spec 0 (8 * length_in_bytes (al_fsm a)) b) as [Hb|Hb].
        -- simpl. rewrite Hset by lia. fold (in_chunk r len b). by destruct (in_chunk r len b).
        -- simpl. destruct (in_chunk_spec r len b); [lia|done].
  - unfold emmcfs_fsm_get_free_block. rewrite Z.geb_leb, (proj2 (Z.leb_le _ _)) by done. simpl.
    destruct a. split; [done|]. left. split; [done|]. split; [by left|done].
Qed.

Lemma fsm_free_ok ino a off len : match ino with Some i => prealloc_block_count i = 0 | None => True end ->
  fsm_alloc_ok a -> 0 < off -> 0 < len ->
  (forall b, off <= b < off + len -> fsm_in_use a b = true) ->
  wp (fsm_free ino off len) a (ok (fun r a' => r = 0 /\ fsm_alloc_ok a' /\
    forall b, fsm_in_use a' b = negb (in_chunk off len b) && fsm_in_use a b)).
Proof using Hj.
  intros Hi (Hinv & Hgeo & Ho) Hoff Hlen Huse. unfold wp, fsm_free.
  destruct (free_block_chunk_inv mount_finished (al_fsm a) off len ino (al_journal a) (al_mem a))
    as (fsm' & j' & o' & -> & Ho' & Hinv' & _ & El & Ep & [Hdl Hset]); try done.
  { pose proof (Huse (off + len - 1) ltac:(lia)) as H1. apply andb_true_iff in H1 as [H1 _].
    destruct (in_chunk_spec 0 (8 * length_in_bytes (al_fsm a)) (off + len - 1)); [lia|done]. }
  { intros b Hb. specialize (Huse b Hb). by apply andb_true_iff in Huse as [_ ?]. }
  simpl. split; [done|]. split; [split; [done|split; [|done]]; by eapply geometry_ext|].
  intros b. unfold fsm_in_use. cbn [al_fsm]. rewrite El.
  destruct (in_chunk_spec 0 (8 * length_in_bytes (al_fsm a)) b) as [Hb|Hb]; simpl.
  - rewrite Hset by lia. fold (in_chunk off len b). by destruct (in_chunk off len b).
  - by rewrite andb_false_r.
Qed.

Lemma fsm_in_use_bound a b : fsm_alloc_ok a -> fsm_in_use a b = true -> 0 <= b < 2 ^ 32.
Proof using.
  intros (_ & [] & _) [Hb _]%andb_true_iff.
  destruct (in_chunk_spec 0 (8 * length_in_bytes (al_fsm a)) b); [lia|done].
Qed.

#[export] Instance fsm_block_alloc : BlockAlloc allocator := {
  get_free_block := fsm_get;
  put_free_block := fsm_free (Some inode);
  free_extent := fsm_free None;
  free_blocks a := free_blocks_count (al_fsm a);
  in_use := fsm_in_use;
  alloc_ok := fsm_alloc_ok;
  refuses := fsm_refuses;
  in_use_bound := fsm_in_use_bound;
  get_free_block_ok := fsm_get_ok;
  put_free_block_ok a off len := fsm_free_ok (Some inode) a off len Hino;
  free_extent_ok a off len := fsm_free_ok None a off len I
}.
End manager.
