(* ===== verification/BnodeBytes.v ===== *)
(** * The bytes of a B-tree node (btree.c, lines 158-774 and 1268-1314)

    A bnode is [node_size_bytes] bytes of memory: the descriptor, the records
    one after the other in the order of their insertion, free space, and at the
    end of the node, growing down, the table of the offsets of the records in
    the order of their keys, its last entry the offset of the free space.  The
    functions of this file work on these bytes as the code does; BnodeRepr.v
    proves that they implement operations on the list of the records. *)

From S2P Require Import Prelude Data.
Open Scope Z_scope.

(** ** Bytes in memory *)

(** Memory from the start of the node ([bnode->data]); the bytes of a record. *)
Abbreviation mem := device (only parsing).
Abbreviation record := (list Z) (only parsing).

Definition get_le (n : nat) (m : mem) (a : Z) : Z := le_combine (dread m a (Z.of_nat n)).
Definition set_le (n : nat) (m : mem) (a v : Z) : mem := dwrite m a (le_split n v).

(** [memmove] inside the node. *)
Definition memmove (m : mem) (dst src n : Z) : mem := dwrite m dst (dread m src n).

(** [struct emmcfs_generic_key]: magic[4], key_len, record_len, little-endian. *)
Definition key_len (r : record) : Z := le_combine (take 4 (drop 4 r)).
Definition record_len (r : record) : Z := le_combine (take 4 (drop 8 r)).

(** [struct generic_index_value] behind the key. *)
Definition child_id (r : record) : Z := le_combine (take 4 (drop (Z.to_nat (key_len r)) r)).
Definition set_child_id (r : record) (id : Z) : record :=
  take (Z.to_nat (key_len r)) r ++ le_split 4 id ++ drop (Z.to_nat (key_len r) + 4) r.

(** ** The descriptor: [struct emmcfs_gen_node_descr] *)
Definition sizeof_descr : Z := 19.
Definition sizeof_off : Z := 4.
Definition EMMCFS_BNODE_FIRST_OFFSET : Z := 4.
Definition EMMCFS_BT_INVALID_OFFSET : Z := 2 ^ 32 - 1.
Definition EMMCFS_INVALID_NODE_ID : Z := 0.
Definition EMMCFS_NODE_INDEX : Z := 1.
Definition EMMCFS_NODE_LEAF : Z := 2.

Definition free_space (m : mem) : Z := get_le 2 m 2.
Definition recs_count (m : mem) : Z := get_le 2 m 4.
Definition node_id (m : mem) : Z := get_le 4 m 6.
Definition prev_node_id (m : mem) : Z := get_le 4 m 10.
Definition next_node_id (m : mem) : Z := get_le 4 m 14.
Definition node_type (m : mem) : Z := get_le 1 m 18.

Section bytes.
(** [node_size_bytes] of the tree, its [max_record_len], and whether
    [IS_MOUNT_FINISHED] is set. *)
Context (N max_record_len : Z) (mounted : bool).

Definition efault {A} : outcome A := if mounted then Bug else Err (- EFAULT).

(** ** The table of the offsets *)

Definition get_offset_addr (index : Z) : outcome Z :=
  let ret := N - EMMCFS_BNODE_FIRST_OFFSET - sizeof_off * (u32 index + 1) in
  if u32 ret >=? N then efault else Ok ret.

Definition get_offset (m : mem) (index : Z) : outcome Z :=
  match get_offset_addr index with
  | Ok a => Ok (get_le 4 m a)
  | Err _ => Ok EMMCFS_BT_INVALID_OFFSET
  | Bug => Bug
  end.

Definition is_offset_correct (offset : Z) : bool :=
  if offset =? 0 then false else if offset >=? N then false else true.

(** The loop of [check_bnode_offset_area] from index [i], [n] steps left. *)
Fixpoint check_offsets (m : mem) (i : Z) (n : nat) : outcome Z :=
  match n with
  | O => Ok 0
  | S n =>
    let! offset := get_offset m i in
    if is_offset_correct offset then check_offsets m (i + 1) n else Ok (-1)
  end.

Definition check_bnode_offset_area (m : mem) : outcome Z :=
  check_offsets m 0 (Z.to_nat (recs_count m)).

(** The address of the record, from the start of the node. *)
Definition get_record (m : mem) (index : Z) : outcome Z :=
  if u32 index >? recs_count m then Err (- EINVAL)
  else
    let! offset := get_offset m index in
    if is_offset_correct offset then Ok offset else Err (- EINVAL).

Definition check_set_offset (m : mem) (index new_val : Z) : outcome mem :=
  match get_offset_addr index with
  | Err _ => efault
  | Bug => Bug
  | Ok offset => if is_offset_correct new_val then Ok (set_le 4 m offset (u32 new_val)) else efault
  end.

(** ** Operations on a node *)

Definition is_node_full (m : mem) (adding_record : record) : bool :=
  free_space m <? record_len adding_record + sizeof_off.

Definition init_new_node_descr (m : mem) (id type : Z) : outcome mem :=
  let m := set_le 2 m 2 (N - sizeof_descr - sizeof_off - EMMCFS_BNODE_FIRST_OFFSET) in
  let m := set_le 2 m 4 0 in
  let m := set_le 1 m 18 type in
  let m := set_le 4 m 6 id in
  let m := set_le 4 m 14 EMMCFS_INVALID_NODE_ID in
  let m := set_le 4 m 10 EMMCFS_INVALID_NODE_ID in
  match check_set_offset m 0 sizeof_descr with
  | Ok m => Ok m
  | _ => Bug
  end.

Definition insert_into_node (m : mem) (new_record : record) (insert_pos : Z) : outcome mem :=
  bug_on (free_space m <? record_len new_record) (
  let! offset := get_offset_addr (recs_count m) in
  if negb (is_offset_correct (get_le 4 m offset)) then Err (- EFAULT)
  else
    let free := get_le 4 m offset in
    let m := dwrite m free (take (Z.to_nat (record_len new_record)) new_record) in
    let moving_offsets_num := recs_count m - insert_pos in
    let m := if moving_offsets_num >? 0
             then memmove m offset (offset + sizeof_off) (moving_offsets_num * sizeof_off)
             else m in
    let! m := check_set_offset m insert_pos free in
    bug_on (free_space m <? sizeof_off) (
    let m := set_le 2 m 4 (recs_count m + 1) in
    let m := set_le 2 m 2 (free_space m - (record_len new_record + sizeof_off)) in
    check_set_offset m (recs_count m) (free + record_len new_record))).

(** The two loops of [delete_from_node], [n] steps left. *)
Fixpoint lower_offsets (m : mem) (del_offset rec_len i : Z) (n : nat) : outcome mem :=
  match n with
  | O => Ok m
  | S n =>
    let! cur_offs := get_offset m i in
    let! m := if cur_offs >? del_offset then check_set_offset m i (cur_offs - rec_len) else Ok m in
    lower_offsets m del_offset rec_len (i + 1) n
  end.

Fixpoint shift_offsets (m : mem) (i : Z) (n : nat) : outcome mem :=
  match n with
  | O => Ok m
  | S n =>
    let! next_offset := get_offset m (i + 1) in
    let! m := check_set_offset m i next_offset in
    shift_offsets m (i + 1) n
  end.

Definition delete_from_node (m : mem) (del_index : Z) : outcome mem :=
  match get_record m del_index with
  | Bug => Bug
  | Err _ => efault
  | Ok del_key =>
    let rec_len := get_le 4 m (del_key + 8) in
    let! free_space_offset := get_offset m (recs_count m) in
    let! del_offset := get_offset m del_index in
    if negb (is_offset_correct free_space_offset) || negb (is_offset_correct del_offset)
    then efault
    else
      let m := memmove m del_key (del_key + rec_len) (free_space_offset - del_offset - rec_len) in
      let! m := lower_offsets m del_offset rec_len 0 (Z.to_nat (recs_count m)) in
      let! m := shift_offsets m del_index (Z.to_nat (recs_count m - del_index)) in
      let m := set_le 2 m 4 (recs_count m - 1) in
      let m := set_le 2 m 2 (free_space m + (rec_len + sizeof_off)) in
      check_set_offset m (recs_count m) (free_space_offset - rec_len)
  end.

(** The record at index [i], as [get_record] and a copy of its [record_len]
    bytes. *)
Definition read_record (m : mem) (i : Z) : outcome record :=
  let! a := get_record m i in
  Ok (dread m a (get_le 4 m (a + 8))).

(** [split_node]: the loop, after the two halves are initialised. *)
Fixpoint split_loop (fuel : nat) (m : mem) (adding_index : Z) (adding_record : record)
    (i used_space : Z) (inserted part_to_insert : bool) (part1 part2 : mem)
    : option (outcome (mem * mem)) :=
  match fuel with
  | O => None
  | S fuel =>
    if (i <? recs_count m) || negb inserted then
      let new_rec_select := (i =? adding_index) && negb inserted in
      match (if new_rec_select then Ok adding_record else read_record m i) with
      | Bug | Err _ => Some Bug
      | Ok key =>
        let used_space := used_space + (record_len key + sizeof_off) in
        match (if part_to_insert then insert_into_node part2 key (recs_count part2)
               else insert_into_node part1 key (recs_count part1)) with
        | Bug | Err _ => Some Bug
        | Ok p =>
          let part1 := if part_to_insert then part1 else p in
          let part2 := if part_to_insert then p else part2 in
          let part_to_insert := if used_space >? N / 2 then true else part_to_insert in
          if new_rec_select
          then split_loop fuel m adding_index adding_record i used_space true
                 part_to_insert part1 part2
          else split_loop fuel m adding_index adding_record (i + 1) used_space inserted
                 part_to_insert part1 part2
        end
      end
    else Some (Ok (part1, part2))
  end.

(** [split_node] less the links to the neighbours ([set_next_prev_links]),
    which other nodes share. *)
Definition split_data (m : mem) (adding_index : Z) (adding_record : record)
    (part1 part2 : mem) (id1 id2 : Z) : option (outcome (mem * mem)) :=
  match init_new_node_descr part1 id1 (node_type m), init_new_node_descr part2 id2 (node_type m) with
  | Ok part1, Ok part2 =>
    let used_space := N - free_space part1 in
    if recs_count m =? 0 then Some Bug
    else split_loop (Z.to_nat (recs_count m) + 2) m adding_index adding_record
           0 used_space false false part1 part2
  | _, _ => Some Bug
  end.

(** [form_new_adding_record] from the first record of the node [id]. *)
Definition form_record (r : record) (id : Z) : record :=
  take 8 r ++ le_split 4 (key_len r + 4) ++
  drop 12 (take (Z.to_nat (key_len r)) r) ++ le_split 4 id.

Definition form_new_adding_record (m : mem) (id : Z) : outcome record :=
  match read_record m 0 with
  | Bug | Err _ => Bug
  | Ok new_key =>
    bug_on (record_len new_key >? max_record_len) (Ok (form_record new_key id))
  end.

(** The index record at [index] is made to point to the node [id]:
    [value->node_id = id] in [btree_insert_at_level] and
    [update_root_descriptor]. *)
Definition set_value_node_id (m : mem) (index id : Z) : outcome mem :=
  let! key := get_record m index in
  Ok (set_le 4 m (key + get_le 4 m (key + 4)) id).

(** ** [btree_merge]: the records of the right node go to the left one. *)
Fixpoint copy_offsets (lnode rnode : mem) (left_count start_offset i : Z) (n : nat) : outcome mem :=
  match n with
  | O => Ok lnode
  | S n =>
    let! offset := get_offset rnode i in
    match check_set_offset lnode (i + left_count) (u32 (start_offset + offset - sizeof_descr)) with
    | Ok lnode => copy_offsets lnode rnode left_count start_offset (i + 1) n
    | _ => Bug
    end
  end.

Definition merge_data (lnode rnode : mem) : outcome mem :=
  let! el := check_bnode_offset_area lnode in
  let! er := check_bnode_offset_area rnode in
  if negb (el =? 0) || negb (er =? 0) then efault
  else
    let! l_free_space_addr := get_offset_addr (recs_count lnode) in
    let left_free_space := get_le 4 lnode l_free_space_addr in
    let! right_free := get_offset rnode (recs_count rnode) in
    let lnode := dwrite lnode left_free_space (dread rnode sizeof_descr (right_free - sizeof_descr)) in
    let! start_offset := get_offset lnode (recs_count lnode) in
    let! lnode := copy_offsets lnode rnode (recs_count lnode) start_offset 0
                   (S (Z.to_nat (recs_count rnode))) in
    let lnode := set_le 2 lnode 2 (free_space lnode -
                  ((right_free - sizeof_descr) + recs_count rnode * sizeof_off)) in
    let lnode := set_le 2 lnode 4 (recs_count lnode + recs_count rnode) in
    Ok (set_le 4 lnode 14 (next_node_id rnode)).
End bytes.
