(* ===== verification/BnodeRepr.v ===== *)
(** * B-tree nodes as lists of records

    The abstract node: its identity, type, links and the list of its records in
    the order of their keys; and the operations of btree.c on it.  [repr] says
    what bytes hold a node; the lemmas prove that each function on bytes of
    BnodeBytes.v implements the operation on records. *)

From S2P Require Import Prelude Data BnodeBytes.
Open Scope Z_scope.

(** ** Nodes *)
Record bnode := Bnode {
  bn_id : Z;
  bn_type : Z;
  bn_prev : Z;
  bn_next : Z;
  bn_recs : list record
}.

Definition set_recs (n : bnode) (l : list record) : bnode :=
  Bnode (bn_id n) (bn_type n) (bn_prev n) (bn_next n) l.
Definition set_prev (n : bnode) (id : Z) : bnode :=
  Bnode (bn_id n) (bn_type n) id (bn_next n) (bn_recs n).
Definition set_next (n : bnode) (id : Z) : bnode :=
  Bnode (bn_id n) (bn_type n) (bn_prev n) id (bn_recs n).

(** The length of a record in bytes. *)
Definition rlen (r : record) : Z := Z.of_nat (length r).

(** The bytes that records take, with their entries of the table. *)
Fixpoint room (l : list record) : Z :=
  match l with
  | [] => 0
  | r :: l => rlen r + sizeof_off + room l
  end.

Definition bn_free (N : Z) (n : bnode) : Z :=
  N - sizeof_descr - sizeof_off - EMMCFS_BNODE_FIRST_OFFSET - room (bn_recs n).

(** [init_new_node_descr], [is_node_full], [insert_into_node],
    [delete_from_node] and the records of [btree_merge]. *)
Definition node_init (id type : Z) : bnode := Bnode id type 0 0 [].

Definition node_full (N : Z) (n : bnode) (r : record) : bool :=
  bn_free N n <? record_len r + sizeof_off.

Definition node_insert (n : bnode) (r : record) (pos : nat) : bnode :=
  set_recs n (take pos (bn_recs n) ++ r :: drop pos (bn_recs n)).

Definition node_delete (n : bnode) (pos : nat) : bnode :=
  set_recs n (take pos (bn_recs n) ++ drop (S pos) (bn_recs n)).

Definition node_merge (l r : bnode) : bnode :=
  Bnode (bn_id l) (bn_type l) (bn_prev l) (bn_next r) (bn_recs l ++ bn_recs r).

(** [split_node]: the records go to the first half until more than half of the
    node is used. *)
Fixpoint split_recs (N used_space : Z) (l : list record) : list record * list record :=
  match l with
  | [] => ([], [])
  | r :: l =>
    let used_space := used_space + (rlen r + sizeof_off) in
    if used_space >? N / 2 then ([r], l)
    else let '(a, b) := split_recs N used_space l in (r :: a, b)
  end.

Definition node_split (N : Z) (n : bnode) (adding_index : nat) (r : record) : list record * list record :=
  split_recs N 27 (take adding_index (bn_recs n) ++ r :: drop adding_index (bn_recs n)).

(** A record holds its own length and a key. *)
Record record_ok (r : record) : Prop := {
  ro_len : record_len r = rlen r;
  ro_key : 12 <= key_len r <= rlen r
}.

(** ** What the bytes hold *)
Section repr.
Context (N : Z).

(** The address of entry [i] of the table. *)
Definition entry (i : nat) : Z := N - 8 - 4 * Z.of_nat i.

(** The records [L] lie one after the other from [a] to [b]. *)
Fixpoint chain (m : mem) (a : Z) (L : list (Z * record)) (b : Z) : Prop :=
  match L with
  | [] => a = b
  | (o, r) :: L => o = a /\ dread m a (rlen r) = r /\ chain m (a + rlen r) L b
  end.

Definition table (m : mem) (T : list Z) : Prop :=
  forall i o, T !! i = Some o -> get_le 4 m (entry i) = o.

Definition layout (m : mem) (recs : list record) : Prop :=
  exists offs L fso,
    length offs = length recs /\ L ≡ₚ zip offs recs /\
    chain m sizeof_descr L fso /\ table m (offs ++ [fso]).

Record repr (m : mem) (n : bnode) : Prop := {
  rp_free : free_space m = bn_free N n;
  rp_count : recs_count m = Z.of_nat (length (bn_recs n));
  rp_id : node_id m = bn_id n;
  rp_prev : prev_node_id m = bn_prev n;
  rp_next : next_node_id m = bn_next n;
  rp_type : node_type m = bn_type n;
  rp_room : 0 <= bn_free N n;
  rp_recs : Forall record_ok (bn_recs n);
  rp_layout : layout m (bn_recs n)
}.

(** The memories agree on the bytes below [b], from the records on. *)
Definition agree (b : Z) (m m' : mem) : Prop := forall x, x < b -> m' x = m x.
End repr.

(** ** Bytes *)
Lemma get_le_set n m a v : get_le n (set_le n m a v) a = v mod 256 ^ Z.of_nat n.
Proof.
  unfold get_le, set_le. pose proof (dread_dwrite m a (le_split n v)) as E.
  rewrite length_le_split in E. by rewrite E, le_combine_split.
Qed.

Lemma get_le_set_small n m a v :
  0 <= v < 256 ^ Z.of_nat n -> get_le n (set_le n m a v) a = v.
Proof. intros. rewrite get_le_set. by apply Z.mod_small. Qed.

Lemma get_le_ext n m m' a :
  (forall x, a <= x < a + Z.of_nat n -> m x = m' x) -> get_le n m a = get_le n m' a.
Proof. intros H. unfold get_le. f_equal. apply dread_ext. intros x Hx. apply H, Hx. Qed.

Lemma get_le_dwrite n m a l b :
  b + Z.of_nat n <= a \/ a + rlen l <= b -> get_le n (dwrite m a l) b = get_le n m b.
Proof.
  intros H. apply get_le_ext. intros x Hx. apply dwrite_out. unfold in_range, rlen in *. lia.
Qed.

Lemma get_le_set_out n k m a v b :
  b + Z.of_nat n <= a \/ a + Z.of_nat k <= b -> get_le n (set_le k m a v) b = get_le n m b.
Proof. intros H. apply get_le_dwrite. unfold rlen. by rewrite length_le_split. Qed.

Lemma set_le_out k m a v x : ~ a <= x < a + Z.of_nat k -> set_le k m a v x = m x.
Proof. intros H. apply dwrite_out. unfold in_range. by rewrite length_le_split. Qed.

Lemma memmove_in m dst src n x : 0 <= n -> dst <= x < dst + n -> memmove m dst src n x = m (src + (x - dst)).
Proof.
  intros Hn Hx. unfold memmove. rewrite dwrite_in by (unfold in_range; rewrite length_dread; lia).
  rewrite dread_lookup by lia. done.
Qed.

Lemma memmove_out m dst src n x : 0 <= n -> ~ dst <= x < dst + n -> memmove m dst src n x = m x.
Proof. intros Hn Hx. apply dwrite_out. unfold in_range. by rewrite length_dread. Qed.

Lemma rlen_nonneg r : 0 <= rlen r.
Proof. unfold rlen. lia. Qed.

Lemma rlen_app r s : rlen (r ++ s) = rlen r + rlen s.
Proof. unfold rlen. rewrite length_app. lia. Qed.

Lemma room_app l1 l2 : room (l1 ++ l2) = room l1 + room l2.
Proof. induction l1 as [|r l1 IH]; simpl; lia. Qed.

Lemma room_nonneg l : 0 <= room l.
Proof. induction l as [|r l IH]; simpl; [done|]. pose proof (rlen_nonneg r). unfold sizeof_off. lia. Qed.

#[export] Hint Resolve rlen_nonneg room_nonneg : bnode.

(** ** Records in memory *)
Section chain.
Implicit Types (m : mem) (L : list (Z * record)).

Lemma chain_app m a L1 L2 c :
  chain m a (L1 ++ L2) c <-> exists b, chain m a L1 b /\ chain m b L2 c.
Proof.
  revert a. induction L1 as [|[o r] L1 IH]; intros a; simpl.
  - split; [eauto | by intros (b & -> & H)].
  - rewrite IH. naive_solver.
Qed.

Lemma chain_end m a L b : chain m a L b -> b = a + room (map snd L) - 4 * Z.of_nat (length L).
Proof.
  revert a. induction L as [|[o r] L IH]; intros a; simpl; [intros ->; lia|].
  intros (_ & _ & H). apply IH in H. unfold sizeof_off. lia.
Qed.

Lemma chain_le m a L b : chain m a L b -> a <= b.
Proof.
  revert a. induction L as [|[o r] L IH]; intros a; simpl; [intros ->; lia|].
  intros (_ & _ & H). apply IH in H. pose proof (rlen_nonneg r). lia.
Qed.

Lemma chain_bounds m a L b o r : chain m a L b -> (o, r) ∈ L -> a <= o /\ o + rlen r <= b.
Proof.
  intros H Hi. apply list_elem_of_split in Hi as (L1 & L2 & ->).
  apply chain_app in H as (c & H1 & H2). simpl in H2. destruct H2 as (-> & _ & H2).
  apply chain_le in H1, H2. lia.
Qed.

Lemma chain_read m a L b o r : chain m a L b -> (o, r) ∈ L -> dread m o (rlen r) = r.
Proof.
  intros H Hi. apply list_elem_of_split in Hi as (L1 & L2 & ->).
  apply chain_app in H as (c & H1 & H2). simpl in H2. by destruct H2 as (-> & ? & _).
Qed.

(** The records moved by [d] bytes. *)
Definition shift (d : Z) (L : list (Z * record)) : list (Z * record) :=
  map (fun '(o, r) => (o + d, r)) L.

Lemma chain_shift m m' d a L b :
  (forall x, a <= x < b -> m' (x + d) = m x) -> chain m a L b -> chain m' (a + d) (shift d L) (b + d).
Proof.
  revert a. induction L as [|[o r] L IH]; intros a Hm; simpl; [by intros ->|].
  intros (-> & Hr & H). pose proof (chain_le _ _ _ _ H) as Hle. pose proof (rlen_nonneg r) as Hp.
  split; [done|]. split.
  - rewrite <- Hr at 2. unfold dread. apply (map_seqZ_ext m' m).
    intros j Hj. rewrite <- (Hm (a + j)) by lia. f_equal. lia.
  - replace (a + d + rlen r) with (a + rlen r + d) by lia.
    apply IH; [|done]. intros x Hx. apply Hm. lia.
Qed.

Lemma shift_0 L : shift 0 L = L.
Proof. induction L as [|[o r] L IH]; simpl; [done|]. by rewrite IH, Z.add_0_r. Qed.

Lemma chain_agree m m' a L b :
  (forall x, a <= x < b -> m' x = m x) -> chain m a L b -> chain m' a L b.
Proof.
  intros Hm H. rewrite <- (Z.add_0_r a), <- (Z.add_0_r b), <- (shift_0 L).
  eapply chain_shift; [|done]. intros x Hx. rewrite Z.add_0_r. by apply Hm.
Qed.

Lemma shift_snd d L : map snd (shift d L) = map snd L.
Proof. unfold shift. rewrite map_map. apply map_ext. by intros [o r]. Qed.

(** A record read at its place. *)
Lemma read_len m o r : record_ok r -> dread m o (rlen r) = r -> get_le 4 m (o + 8) = rlen r.
Proof.
  intros [Hl Hk] Hr. rewrite <- Hl. unfold record_len, get_le. f_equal.
  rewrite <- Hr at 1. replace (rlen r) with (8 + (4 + (rlen r - 12))) by lia.
  rewrite dread_app by lia. rewrite drop_app_length' by (apply Nat2Z.inj; rewrite length_dread; lia).
  rewrite dread_app by lia. rewrite take_app_length' by (apply Nat2Z.inj; rewrite length_dread; lia).
  done.
Qed.

Lemma read_key_len m o r : record_ok r -> dread m o (rlen r) = r -> get_le 4 m (o + 4) = key_len r.
Proof.
  intros [Hl Hk] Hr. unfold key_len, get_le. f_equal.
  rewrite <- Hr at 1. replace (rlen r) with (4 + (4 + (rlen r - 8))) by lia.
  rewrite dread_app by lia. rewrite drop_app_length' by (apply Nat2Z.inj; rewrite length_dread; lia).
  rewrite dread_app by lia. rewrite take_app_length' by (apply Nat2Z.inj; rewrite length_dread; lia).
  done.
Qed.
End chain.

(** ** The table of the offsets *)
Section table.
Context (N : Z) (mounted : bool).
Implicit Types (m : mem) (T : list Z) (i : nat).

(** The size of a node fits the 16-bit field of the free space. *)
Definition node_size_ok : Prop := 27 <= N < 2 ^ 16.
Context (HN : node_size_ok).

(** The table is inside the node. *)
Definition table_fits T : Prop := sizeof_descr <= entry N (length T - 1).

Lemma entry_le i j : (i <= j)%nat -> entry N j <= entry N i.
Proof. unfold entry. lia. Qed.

Lemma fits_small i : sizeof_descr <= entry N i -> Z.of_nat i < 2 ^ 14 /\ 0 <= entry N i < N.
Proof. unfold entry, sizeof_descr, node_size_ok in *. lia. Qed.

Lemma get_offset_addr_ok i : sizeof_descr <= entry N i ->
  get_offset_addr N mounted (Z.of_nat i) = Ok (entry N i).
Proof.
  intros H. apply fits_small in H as [H1 H2]. unfold get_offset_addr, EMMCFS_BNODE_FIRST_OFFSET, sizeof_off.
  rewrite (uwrap_small 32 (Z.of_nat i)) by lia.
  replace (N - 4 - 4 * (Z.of_nat i + 1)) with (entry N i) by (unfold entry; lia).
  unfold node_size_ok in HN. rewrite uwrap_small by lia. rewrite Z.geb_leb.
  by rewrite (proj2 (Z.leb_gt _ _)) by lia.
Qed.

Lemma get_offset_ok m T i o : table N m T -> T !! i = Some o -> sizeof_descr <= entry N i ->
  get_offset N mounted m (Z.of_nat i) = Ok o.
Proof.
  intros HT Hi He. unfold get_offset. rewrite get_offset_addr_ok by done. by rewrite (HT i o).
Qed.

Lemma is_offset_correct_ok o : 0 < o < N -> is_offset_correct N o = true.
Proof.
  intros H. unfold is_offset_correct. rewrite (proj2 (Z.eqb_neq _ _)) by lia.
  by rewrite Z.geb_leb, (proj2 (Z.leb_gt _ _)) by lia.
Qed.

Lemma check_set_offset_ok m i v : sizeof_descr <= entry N i -> 0 < v < N ->
  check_set_offset N mounted m (Z.of_nat i) v = Ok (set_le 4 m (entry N i) v).
Proof.
  intros He Hv. unfold check_set_offset. rewrite get_offset_addr_ok, is_offset_correct_ok by done.
  unfold node_size_ok in HN. by rewrite uwrap_small by lia.
Qed.

(** An entry of the table is set, inside the table or just below it. *)
Lemma table_set m T i v : table N m T -> (i < length T)%nat -> 0 <= v < 2 ^ 32 ->
  table N (set_le 4 m (entry N i) v) (<[i := v]> T).
Proof.
  intros HT Hi Hv j o Hj. destruct (decide (j = i)) as [->|Hne].
  - rewrite list_lookup_insert_eq in Hj by done. simplify_eq. by apply get_le_set_small.
  - rewrite list_lookup_insert_ne in Hj by done. rewrite get_le_set_out; [by apply HT|].
    unfold entry. lia.
Qed.

Lemma table_push m T v : table N m T -> 0 <= v < 2 ^ 32 ->
  table N (set_le 4 m (entry N (length T)) v) (T ++ [v]).
Proof.
  intros HT Hv j o Hj. destruct (decide (j < length T)%nat) as [Hlt|Hge].
  - rewrite lookup_app_l in Hj by done. rewrite get_le_set_out; [by apply HT|]. unfold entry. lia.
  - assert (j = length T) as -> by (apply lookup_lt_Some in Hj; len).
    rewrite list_lookup_middle in Hj by done. simplify_eq. by apply get_le_set_small.
Qed.

Lemma table_prefix m T1 T2 : table N m (T1 ++ T2) -> table N m T1.
Proof. intros HT i o Hi. apply HT. by apply lookup_app_l_Some. Qed.

Lemma table_agree m m' T : (forall x, entry N (length T - 1) <= x < N - 4 -> m' x = m x) ->
  table N m T -> table N m' T.
Proof.
  intros Hm HT i o Hi. rewrite <- (HT i o Hi). apply get_le_ext. intros x Hx. apply Hm.
  apply lookup_lt_Some in Hi. unfold entry in *. lia.
Qed.

Lemma table_range m T1 x T2 : table N m (T1 ++ x :: T2) -> get_le 4 m (entry N (length T1)) = x.
Proof. intros HT. apply HT. by apply list_lookup_middle. Qed.
End table.

(** ** Refinement *)
Lemma room_perm l l' : l ≡ₚ l' -> room l = room l'.
Proof. induction 1; simpl; lia. Qed.

Lemma layout_end m recs offs L fso : length offs = length recs -> L ≡ₚ zip offs recs ->
  chain m sizeof_descr L fso ->
  fso = sizeof_descr + room recs - 4 * Z.of_nat (length recs).
Proof.
  intros Hl HP Hc. apply chain_end in Hc. subst fso.
  assert (map snd L ≡ₚ recs) as Hs.
  { change (map snd L) with (L.*2). rewrite HP. rewrite snd_zip; [done|lia]. }
  rewrite (room_perm _ _ Hs). apply Permutation_length in Hs. rewrite length_map in Hs. lia.
Qed.

Lemma room_le r l : r ∈ l -> rlen r + sizeof_off <= room l.
Proof.
  induction 1 as [r l|r r' l _ IH]; simpl.
  - pose proof (room_nonneg l). lia.
  - pose proof (rlen_nonneg r'). unfold sizeof_off in *. lia.
Qed.

Section refine.
Context (N : Z) (mounted : bool) (HN : node_size_ok N).
Implicit Types (m : mem) (n : bnode) (r : record).

(** The parts of [repr] in a usable form. *)
Lemma repr_layout m n : repr N m n ->
  exists offs L fso,
    length offs = length (bn_recs n) /\ L ≡ₚ zip offs (bn_recs n) /\
    chain m sizeof_descr L fso /\ table N m (offs ++ [fso]) /\
    fso + bn_free N n = entry N (length (bn_recs n)) /\ sizeof_descr <= fso.
Proof.
  intros [Hf Hc ? ? ? ? Hr Hok (offs & L & fso & Hl & HP & Hch & HT)].
  exists offs, L, fso. split; [done|]. split; [done|]. split; [done|]. split; [done|].
  pose proof (layout_end _ _ _ _ _ Hl HP Hch).
  pose proof (chain_le _ _ _ _ Hch). split; [|lia].
  unfold bn_free, entry, sizeof_descr, sizeof_off, EMMCFS_BNODE_FIRST_OFFSET in *. lia.
Qed.

Lemma offs_elem n (offs : list Z) L i o r : length offs = length (bn_recs n) ->
  L ≡ₚ zip offs (bn_recs n) -> offs !! i = Some o -> bn_recs n !! i = Some r -> (o, r) ∈ L.
Proof.
  intros Hl HP Ho Hr. rewrite HP. apply list_elem_of_lookup. exists i.
  by rewrite lookup_zip_with, Ho, Hr.
Qed.

Lemma repr_get_record m n i r : repr N m n -> bn_recs n !! i = Some r ->
  exists a, get_record N mounted m (Z.of_nat i) = Ok a /\ get_offset N mounted m (Z.of_nat i) = Ok a /\
    sizeof_descr <= a /\ a + rlen r <= entry N (length (bn_recs n)) /\ dread m a (rlen r) = r.
Proof using HN.
  intros Hrep Hr. destruct (repr_layout _ _ Hrep) as (offs & L & fso & Hl & HP & Hch & HT & He & Hge).
  pose proof (lookup_lt_Some _ _ _ Hr) as Hlt.
  destruct (lookup_lt_is_Some_2 offs i) as [o Ho]; [lia|].
  pose proof (offs_elem _ _ _ _ _ _ Hl HP Ho Hr) as Hin.
  pose proof (chain_bounds _ _ _ _ _ _ Hch Hin) as [Hb1 Hb2].
  pose proof (chain_read _ _ _ _ _ _ Hch Hin) as Hread.
  pose proof (rp_room _ _ _ Hrep) as Hroom.
  assert (sizeof_descr <= entry N i) as Hei.
  { pose proof (entry_le N i (length (bn_recs n)) ltac:(lia)). lia. }
  assert (0 <= Z.of_nat (length (bn_recs n)) < 2 ^ 14) as Hc.
  { pose proof (fits_small N HN (length (bn_recs n)) ltac:(lia)). lia. }
  assert (get_offset N mounted m (Z.of_nat i) = Ok o) as Eo.
  { eapply get_offset_ok; [done|done|by apply lookup_app_l_Some|done]. }
  exists o. split; [|split; [done|split; [lia|split; [lia|done]]]].
  unfold get_record. rewrite (rp_count _ _ _ Hrep).
  rewrite uwrap_small by lia. rewrite Z.gtb_ltb, (proj2 (Z.ltb_ge _ _)) by lia.
  rewrite Eo. simpl.
  pose proof (rlen_nonneg r). unfold sizeof_descr in *.
  rewrite is_offset_correct_ok; [done|]. unfold entry in *. lia.
Qed.
Lemma repr_read_record m n i r : repr N m n -> bn_recs n !! i = Some r ->
  read_record N mounted m (Z.of_nat i) = Ok r.
Proof using HN.
  intros Hrep Hr. destruct (repr_get_record _ _ _ _ Hrep Hr) as (a & E & _ & Ha1 & Ha2 & Hrd).
  unfold read_record. rewrite E. simpl. erewrite read_len; [by rewrite Hrd| |done].
  eapply Forall_lookup_1; [apply (rp_recs _ _ _ Hrep)|done].
Qed.

(** The table opened at [pos] for one more entry. *)
Lemma table_open m offs fso pos : table N m (offs ++ [fso]) -> (pos <= length offs)%nat ->
  let moving := Z.of_nat (length offs) - Z.of_nat pos in
  let a := entry N (length offs) in
  let m2 := if moving >? 0 then memmove m a (a + sizeof_off) (moving * sizeof_off) else m in
  table N m2 (take pos offs ++ get_le 4 m2 (entry N pos) :: drop pos offs) /\
  (forall x, x < a -> m2 x = m x).
Proof.
  intros HT Hpos moving a m2. unfold sizeof_off in m2.
  assert (forall x, x < a \/ a + 4 * moving <= x -> m2 x = m x) as Hout.
  { intros x Hx. unfold m2. destruct (Z.gtb_spec moving 0); [|done].
    apply memmove_out; lia. }
  assert (forall x, a <= x < a + 4 * moving -> m2 x = m (x + 4)) as Hin.
  { intros x Hx. unfold m2. destruct (Z.gtb_spec moving 0); [|lia].
    rewrite memmove_in by lia. f_equal. lia. }
  split; [|intros x Hx; apply Hout; lia].
  intros i o Hi. destruct (Nat.lt_trichotomy i pos) as [Hlt|[->|Hgt]].
  - rewrite lookup_app_l in Hi by len. rewrite lookup_take_lt in Hi by done.
    rewrite <- (HT i o) by by apply lookup_app_l_Some.
    apply get_le_ext. intros x Hx. apply Hout. unfold moving, a, entry in *. lia.
  - rewrite mid_lookup in Hi by len. by simplify_eq.
  - rewrite lookup_app_r in Hi by len.
    replace (i - length (take pos offs))%nat with (S (i - pos - 1)) in Hi by len.
    rewrite lookup_cons, lookup_drop in Hi. pose proof (lookup_lt_Some _ _ _ Hi).
    rewrite <- (HT (pos + (i - pos - 1))%nat o) by by apply lookup_app_l_Some.
    unfold get_le. f_equal. unfold dread. apply (map_seqZ_ext m2 m). intros j Hj.
    rewrite Hin by (unfold moving, a, entry in *; lia). f_equal. unfold entry. lia.
Qed.

Lemma node_insert_room n r pos :
  bn_free N (node_insert n r pos) = bn_free N n - (rlen r + sizeof_off).
Proof.
  unfold bn_free, node_insert, set_recs. simpl. rewrite room_app. simpl.
  rewrite <- (take_drop pos (bn_recs n)) at 3. rewrite room_app. lia.
Qed.

Lemma zip_insert {A B} pos (l : list A) (k : list B) x y : length l = length k ->
  zip (take pos l ++ x :: drop pos l) (take pos k ++ y :: drop pos k) ≡ₚ (x, y) :: zip l k.
Proof.
  intros Hl. rewrite zip_with_app by len. simpl.
  rewrite <- Permutation_middle. f_equiv.
  rewrite <- (zip_with_app pair (take pos l)) by len. by rewrite !take_drop.
Qed.
(** The writes of [insert_into_node] behind the opening of the table: the
    new entry, the counters, the entry of the free space. *)
Lemma insert_writes m2 offs fso pos l :
  let c := length offs in
  table N m2 (take pos offs ++ get_le 4 m2 (entry N pos) :: drop pos offs) ->
  (pos <= c)%nat -> sizeof_descr <= fso -> sizeof_descr <= entry N (S c) -> 0 <= l ->
  fso + l <= entry N (S c) -> free_space m2 < 2 ^ 16 -> l + sizeof_off <= free_space m2 ->
  recs_count m2 = Z.of_nat c ->
  exists m5,
    (let! m := check_set_offset N mounted m2 (Z.of_nat pos) fso in
     bug_on (free_space m <? sizeof_off) (
     let m := set_le 2 m 4 (recs_count m + 1) in
     let m := set_le 2 m 2 (free_space m - (l + sizeof_off)) in
     check_set_offset N mounted m (recs_count m) (fso + l))) = Ok m5 /\
    table N m5 ((take pos offs ++ fso :: drop pos offs) ++ [fso + l]) /\
    recs_count m5 = Z.of_nat (S c) /\
    free_space m5 = free_space m2 - (l + sizeof_off) /\
    (forall x, x < entry N (S c) -> ~ 2 <= x < 6 -> m5 x = m2 x).
Proof using HN.
  intros c HT Hpos Hf He Hl Hfl Hfs1 Hfs2 Hc. pose proof HN as [HN1 HN2].
  unfold sizeof_descr, sizeof_off in *.
  pose proof (entry_le N pos (S c) ltac:(lia)) as Hle.
  pose proof (fits_small N HN (S c) He) as [Hcs _].
  assert (0 < fso < N) by (unfold entry in *; lia).
  assert (0 < fso + l < N) by (unfold entry in *; lia).
  rewrite check_set_offset_ok by (done || (unfold sizeof_descr; lia)). simpl.
  assert (forall x, x < entry N pos -> set_le 4 m2 (entry N pos) fso x = m2 x) as H3.
  { intros x Hx. apply set_le_out. lia. }
  assert (free_space (set_le 4 m2 (entry N pos) fso) = free_space m2) as Ef.
  { apply get_le_set_out. left. unfold sizeof_descr in *. lia. }
  assert (recs_count (set_le 4 m2 (entry N pos) fso) = recs_count m2) as Ec.
  { apply get_le_set_out. left. lia. }
  rewrite Ef, Ec, Hc. unfold bug_on. rewrite (proj2 (Z.ltb_ge _ _)) by lia.
  set (m3 := set_le 4 m2 (entry N pos) fso) in *.
  set (m4a := set_le 2 m3 4 (Z.of_nat c + 1)).
  assert (free_space m4a = free_space m2) as Ef4.
  { unfold free_space, m4a. rewrite get_le_set_out by lia. exact Ef. }
  rewrite Ef4.
  set (m4 := set_le 2 m4a 2 (free_space m2 - (l + 4))).
  assert (recs_count m4 = Z.of_nat (S c)) as Ec4.
  { unfold recs_count, m4. rewrite get_le_set_out by lia. unfold m4a.
    rewrite get_le_set_small; lia. }
  assert (free_space m4 = free_space m2 - (l + 4)) as Ef5.
  { unfold free_space at 1, m4. rewrite get_le_set_small; [done|]. lia. }
  rewrite Ec4, check_set_offset_ok by done.
  eexists. split; [reflexivity|].
  assert (forall x, 6 <= x -> m4 x = m3 x) as H4.
  { intros x Hx. unfold m4, m4a. rewrite !set_le_out by lia. done. }
  split; [|split; [|split]].
  - assert (S c = length (take pos offs ++ fso :: drop pos offs)) as -> by (unfold c; len).
    apply table_push; [|lia]. intros i o Hi.
    assert (table N m3 (take pos offs ++ fso :: drop pos offs)) as HT3.
    { rewrite <- (mid_insert pos _ (get_le 4 m2 (entry N pos)) fso) by len.
      apply table_set; [done|len|lia]. }
    rewrite <- (HT3 i o Hi). apply get_le_ext. intros x Hx. apply H4.
    apply lookup_lt_Some in Hi. assert (i <= S c)%nat as Hi' by (unfold c; len).
    pose proof (entry_le N i (S c) Hi'). lia.
  - unfold recs_count. rewrite get_le_set_out by lia. exact Ec4.
  - unfold free_space at 1. rewrite get_le_set_out by lia. exact Ef5.
  - intros x Hx Hn. rewrite set_le_out by lia. unfold m4, m4a. rewrite !set_le_out by lia.
    apply H3. lia.
Qed.

Lemma insert_into_node_repr m n r pos :
  repr N m n -> record_ok r -> rlen r + sizeof_off <= bn_free N n -> (pos <= length (bn_recs n))%nat ->
  exists m', insert_into_node N mounted m r (Z.of_nat pos) = Ok m' /\ repr N m' (node_insert n r pos).
Proof using HN.
  intros Hrep Hr Hfree Hpos.
  destruct (repr_layout _ _ Hrep) as (offs & L & fso & Hl & HP & Hch & HT & He & Hge).
  destruct Hrep as [Hf Hc Hid Hpv Hnx Hty Hroom Hok _].
  pose proof (rlen_nonneg r) as Hrl. rewrite <- Hl in Hpos, Hc, He.
  assert (entry N (S (length offs)) = entry N (length offs) - 4) as ES by (unfold entry; lia).
  assert (bn_free N n < 2 ^ 16) as Hf16.
  { unfold bn_free, node_size_ok, sizeof_descr, sizeof_off, EMMCFS_BNODE_FIRST_OFFSET in *.
    pose proof (room_nonneg (bn_recs n)). lia. }
  unfold sizeof_descr, sizeof_off in *.
  unfold insert_into_node, bug_on at 1.
  rewrite (ro_len _ Hr), Hf, (proj2 (Z.ltb_ge _ _)) by lia.
  rewrite Hc, get_offset_addr_ok by (done || (unfold sizeof_descr; lia)). cbn [obind].
  rewrite (table_range _ _ _ _ _ HT).
  rewrite is_offset_correct_ok by (done || (unfold entry in *; lia)). simpl negb. cbv iota zeta.
  replace (take (Z.to_nat (rlen r)) r) with r
    by (unfold rlen; by rewrite Nat2Z.id, firstn_all).
  set (m1 := dwrite m fso r).
  assert (forall x, ~ fso <= x < fso + rlen r -> m1 x = m x) as H1.
  { intros x Hx. by apply dwrite_out. }
  assert (recs_count m1 = Z.of_nat (length offs)) as Ec1.
  { unfold recs_count, m1. rewrite get_le_dwrite by lia. exact Hc. }
  assert (table N m1 (offs ++ [fso])) as HT1.
  { eapply table_agree; [|exact HT]. intros x Hx. apply H1.
    rewrite length_app in Hx. simpl in Hx.
    replace (length offs + 1 - 1)%nat with (length offs) in Hx by lia. lia. }
  destruct (table_open m1 offs fso pos HT1 Hpos) as [HT2 H2].
  rewrite Ec1. fold sizeof_off. unfold sizeof_off in *.
  set (m2 := if Z.of_nat (length offs) - Z.of_nat pos >? 0 then _ else _) in *.
  assert (forall x, x < fso -> m2 x = m x) as Hlow.
  { intros x Hx. rewrite H2 by lia. apply H1. lia. }
  assert (forall k a, a + Z.of_nat k <= fso -> get_le k m2 a = get_le k m a) as Hg.
  { intros k a Ha. apply get_le_ext. intros x Hx. apply Hlow. lia. }
  destruct (insert_writes m2 offs fso pos (rlen r) HT2 Hpos) as (m5 & E & HT5 & Hc5 & Hf5 & Hm5);
    try (unfold sizeof_descr, sizeof_off, free_space, recs_count; rewrite ?Hg; fold free_space recs_count; lia).
  { unfold free_space. rewrite Hg by lia. fold (free_space m). lia. }
  { unfold free_space. rewrite Hg by lia. fold (free_space m). unfold sizeof_off. lia. }
  { unfold recs_count. rewrite Hg by lia. exact Hc. }
  unfold sizeof_off in *. exists m5. split; [exact E|].
  assert (forall k a, 6 <= a -> a + Z.of_nat k <= fso -> get_le k m5 a = get_le k m a) as Hg5.
  { intros k a Ha Hb. apply get_le_ext. intros x Hx. rewrite Hm5 by lia. apply Hlow. lia. }
  constructor; simpl.
  - rewrite node_insert_room. unfold sizeof_off. rewrite Hf5. unfold free_space. rewrite Hg by lia.
    fold (free_space m). lia.
  - rewrite Hc5. len.
  - unfold node_id. rewrite Hg5 by lia. exact Hid.
  - unfold prev_node_id. rewrite Hg5 by lia. exact Hpv.
  - unfold next_node_id. rewrite Hg5 by lia. exact Hnx.
  - unfold node_type. rewrite Hg5 by lia. exact Hty.
  - rewrite node_insert_room. unfold sizeof_off. lia.
  - rewrite <- (take_drop pos (bn_recs n)) in Hok. apply Forall_app in Hok as [? ?].
    apply Forall_app. split; [done|]. by constructor.
  - exists (take pos offs ++ fso :: drop pos offs), (L ++ [(fso, r)]), (fso + rlen r).
    split; [len|]. split; [|split; [|exact HT5]].
    + rewrite zip_insert by done. rewrite <- HP. by rewrite Permutation_app_comm.
    + apply chain_app. exists fso. split.
      * eapply chain_agree; [|exact Hch]. unfold sizeof_descr. intros x Hx.
        rewrite Hm5 by lia. apply Hlow. lia.
      * simpl. split; [done|]. split; [|done].
        transitivity (dread m1 fso (rlen r)); [|apply dread_dwrite].
        apply dread_ext. intros x Hx. unfold in_range in Hx. rewrite Hm5 by lia. apply H2. lia.
Qed.
(** *** [delete_from_node] *)

Definition lower (del_offset rec_len o : Z) : Z := if o >? del_offset then o - rec_len else o.

Lemma lower_offsets_ok del_offset rec_len m T1 T2 T3 :
  table N m (T1 ++ T2 ++ T3) -> T3 <> [] -> table_fits N (T1 ++ T2 ++ T3) ->
  Forall (fun o => 0 < lower del_offset rec_len o < N) T2 ->
  exists m', lower_offsets N mounted m del_offset rec_len (Z.of_nat (length T1)) (length T2) = Ok m' /\
    table N m' (T1 ++ map (lower del_offset rec_len) T2 ++ T3) /\
    (forall x, x < entry N (length (T1 ++ T2 ++ T3) - 1) -> m' x = m x).
Proof using HN.
  intros HT H3 Hfit HF. revert m T1 HT Hfit. induction T2 as [|o T2 IH]; intros m T1 HT Hfit.
  { exists m. split; [done|]. split; [done|]. done. }
  apply Forall_cons in HF as [Ho HF]. pose proof HN as [HN1 HN2]. cbn [lower_offsets length].
  unfold table_fits in Hfit.
  assert (length T3 <> 0)%nat as H3' by (by destruct T3).
  assert (length T1 <= length (T1 ++ (o :: T2) ++ T3) - 1)%nat as Hlen by len.
  pose proof (entry_le N _ _ Hlen) as He.
  erewrite get_offset_ok; [|done|exact HT|apply mid_lookup; len|lia]. cbn [obind].
  assert (exists m1, (if o >? del_offset then check_set_offset N mounted m (Z.of_nat (length T1)) (o - rec_len)
                      else Ok m) = Ok m1 /\
      table N m1 (T1 ++ lower del_offset rec_len o :: T2 ++ T3) /\
      (forall x, x < entry N (length T1) -> m1 x = m x)) as (m1 & -> & HT1 & Hm1).
  { unfold lower in *. destruct (o >? del_offset).
    - rewrite check_set_offset_ok by (done || lia). eexists. split; [done|]. split.
      + rewrite <- (mid_insert (length T1) T1 o) by done. apply table_set; [done|len|lia].
      + intros x Hx. apply set_le_out. lia.
    - by exists m. }
  cbn [obind].
  destruct (IH HF m1 (T1 ++ [lower del_offset rec_len o])) as (m' & E & HT' & Hm').
  { by rewrite <- app_assoc. }
  { rewrite <- app_assoc. unfold table_fits. len. }
  rewrite length_app in E. simpl in E.
  replace (Z.of_nat (length T1) + 1) with (Z.of_nat (length T1 + 1)) by lia.
  exists m'. split; [exact E|]. split; [by rewrite <- app_assoc in HT'|].
  intros x Hx. rewrite Hm'; [apply Hm1; lia|]. rewrite <- app_assoc. len.
Qed.

Lemma shift_offsets_ok m T1 x T2 :
  table N m (T1 ++ x :: T2) -> table_fits N (T1 ++ x :: T2) -> Forall (fun o => 0 < o < N) T2 ->
  exists m', shift_offsets N mounted m (Z.of_nat (length T1)) (length T2) = Ok m' /\
    table N m' (T1 ++ T2) /\
    (forall a, a < entry N (length T1 + length T2) -> m' a = m a).
Proof using HN.
  intros HT Hfit HF. revert m T1 x HT Hfit. induction T2 as [|y T2 IH]; intros m T1 x HT Hfit.
  { exists m. split; [done|]. split; [|done]. rewrite app_nil_r. by eapply table_prefix. }
  apply Forall_cons in HF as [Hy HF]. pose proof HN as [HN1 HN2]. cbn [shift_offsets length].
  unfold table_fits in Hfit.
  assert (S (length T1) <= length (T1 ++ x :: y :: T2) - 1)%nat as Hlen by len.
  pose proof (entry_le N _ _ Hlen) as He. pose proof (entry_le N (length T1) (S (length T1)) ltac:(lia)).
  replace (Z.of_nat (length T1) + 1) with (Z.of_nat (S (length T1))) by lia.
  erewrite get_offset_ok; [|done|exact HT|apply mid_lookup_S; len|lia]. cbn [obind].
  rewrite check_set_offset_ok by (done || lia). cbn [obind].
  destruct (IH HF (set_le 4 m (entry N (length T1)) y) (T1 ++ [y]) y) as (m' & E & HT' & Hm').
  { rewrite <- app_assoc. simpl. rewrite <- (mid_insert (length T1) T1 x) by done.
    apply table_set; [done|len|lia]. }
  { rewrite <- app_assoc. unfold table_fits. len. }
  rewrite length_app in E. simpl in E. rewrite Nat.add_1_r in E. exists m'.
  split; [exact E|]. split; [by rewrite <- app_assoc in HT'|].
  intros a Ha. rewrite Hm'.
  - apply set_le_out. pose proof (entry_le N (length T1) (length T1 + S (length T2)) ltac:(lia)). lia.
  - rewrite length_app. simpl. by replace (length T1 + 1 + length T2)%nat with (length T1 + S (length T2))%nat by lia.
Qed.

(** The records in memory after one of them is cut out. *)
Lemma chain_cut m m1 L1 o r L2 fso :
  chain m sizeof_descr (L1 ++ (o, r) :: L2) fso -> 0 < rlen r ->
  (forall x, sizeof_descr <= x < o -> m1 x = m x) ->
  (forall x, o + rlen r <= x < fso -> m1 (x - rlen r) = m x) ->
  chain m1 sizeof_descr (L1 ++ shift (- rlen r) L2) (fso - rlen r) /\
  Forall (fun '(o', r') => o' + rlen r' <= o) L1 /\ Forall (fun '(o', _) => o < o') L2.
Proof.
  intros H Hr Hlow Hhigh. apply chain_app in H as (b & H1 & H2). simpl in H2.
  destruct H2 as (<- & Hrd & H2). split; [|split].
  - apply chain_app. exists o. split.
    + eapply chain_agree; [|exact H1]. intros x Hx. apply Hlow. lia.
    + replace o with (o + rlen r + - rlen r) at 1 by lia.
      replace (fso - rlen r) with (fso + - rlen r) by lia.
      eapply chain_shift; [|exact H2]. intros x Hx.
      replace (x + - rlen r) with (x - rlen r) by lia. apply Hhigh. lia.
  - apply Forall_forall. intros [o' r'] Hin. apply (chain_bounds _ _ _ _ _ _ H1 Hin).
  - apply Forall_forall. intros [o' r'] Hin. pose proof (chain_bounds _ _ _ _ _ _ H2 Hin). lia.
Qed.

(** The offsets of the records after one of them is cut out. *)
Lemma layout_cut (O1 O2 : list Z) o r (R1 R2 : list record) L1 L2 :
  length O1 = length R1 -> length O2 = length R2 ->
  L1 ++ (o, r) :: L2 ≡ₚ zip (O1 ++ o :: O2) (R1 ++ r :: R2) -> 
  Forall (fun '(o', r') => o' + rlen r' <= o) L1 -> Forall (fun '(o', _) => o < o') L2 ->
  L1 ++ shift (- rlen r) L2 ≡ₚ zip (map (lower o (rlen r)) (O1 ++ O2)) (R1 ++ R2).
Proof.
  intros Hl1 Hl2 HP HF1 HF2.
  assert (L1 ++ L2 ≡ₚ zip (O1 ++ O2) (R1 ++ R2)) as HP2.
  { rewrite zip_with_app in HP |- * by done. simpl in HP. by apply Permutation_app_inv in HP. }
  set (g := fun p : Z * record => (lower o (rlen r) (fst p), snd p)).
  assert (zip (map (lower o (rlen r)) (O1 ++ O2)) (R1 ++ R2) = map g (zip (O1 ++ O2) (R1 ++ R2))) as ->.
  { clear HP HP2. generalize (R1 ++ R2). induction (O1 ++ O2) as [|a l IH]; intros [|b k]; simpl; try done. f_equal. apply IH. }
  rewrite <- HP2, map_app.
  enough (map g L1 = L1 /\ map g L2 = shift (- rlen r) L2) as [-> ->]; [done|split].
  - clear HP HP2. induction HF1 as [|[o' r'] L1 Ho _ IH]; [done|]. cbn [map]. rewrite IH.
    unfold g, lower. simpl. pose proof (rlen_nonneg r').
    by rewrite Z.gtb_ltb, (proj2 (Z.ltb_ge _ _)) by lia.
  - clear HP HP2. unfold shift. apply map_ext_in. intros [o' r'] Hin.
    apply list_elem_of_In in Hin. rewrite Forall_forall in HF2. specialize (HF2 _ Hin). simpl in HF2.
    unfold g, lower. simpl. by rewrite Z.gtb_ltb, (proj2 (Z.ltb_lt _ _)) by lia.
Qed.
Lemma node_delete_room n i r : bn_recs n !! i = Some r ->
  bn_free N (node_delete n i) = bn_free N n + (rlen r + sizeof_off).
Proof.
  intros Hi. unfold bn_free, node_delete, set_recs. simpl.
  rewrite <- (take_drop_middle (bn_recs n) i r) at 3 by done. rewrite !room_app. simpl. lia.
Qed.

(** The writes of [delete_from_node]: the record is cut out, the offsets
    behind it are lowered, the table closes. *)
Lemma delete_writes m O1 o O2 fso l :
  let c := length (O1 ++ o :: O2) in
  table N m (O1 ++ o :: O2 ++ [fso]) -> Forall (fun x => sizeof_descr <= x < N) (O1 ++ o :: O2) ->
  fso <= entry N c -> 0 < l -> sizeof_descr <= o -> o + l <= fso ->
  Forall (fun x => o < x -> o + l <= x) (O1 ++ o :: O2) ->
  recs_count m = Z.of_nat c -> free_space m + l + sizeof_off < 2 ^ 16 -> 0 <= free_space m ->
  exists m',
    (let m := memmove m o (o + l) (fso - o - l) in
     let! m := lower_offsets N mounted m o l 0 (Z.to_nat (recs_count m)) in
     let! m := shift_offsets N mounted m (Z.of_nat (length O1))
                 (Z.to_nat (recs_count m - Z.of_nat (length O1))) in
     let m := set_le 2 m 4 (recs_count m - 1) in
     let m := set_le 2 m 2 (free_space m + (l + sizeof_off)) in
     check_set_offset N mounted m (recs_count m) (fso - l)) = Ok m' /\
    table N m' (map (lower o l) (O1 ++ O2) ++ [fso - l]) /\
    recs_count m' = Z.of_nat c - 1 /\ free_space m' = free_space m + (l + sizeof_off) /\
    (forall x, x < o -> ~ 2 <= x < 6 -> m' x = m x) /\
    (forall x, o + l <= x < fso -> m' (x - l) = m x).
Proof using HN.
  intros c HT HF Hfe Hl Ho Hol HFo Hc Hfs Hfs0. pose proof HN as [HN1 HN2].
  unfold sizeof_descr, sizeof_off in *.
  assert (c = S (length O1 + length O2)) as Ec by (unfold c; len).
  set (m1 := memmove m o (o + l) (fso - o - l)).
  assert (forall x, x < o \/ fso - l <= x -> m1 x = m x) as H1out by (intros; apply memmove_out; lia).
  assert (forall x, o + l <= x < fso -> m1 (x - l) = m x) as H1in.
  { intros x Hx. unfold m1. rewrite memmove_in by lia. f_equal. lia. }
  assert (recs_count m1 = Z.of_nat c) as Ec1.
  { rewrite <- Hc. apply get_le_ext. intros x Hx. apply H1out. lia. }
  cbv zeta. fold m1. rewrite Ec1, Nat2Z.id.
  destruct (lower_offsets_ok o l m1 [] (O1 ++ o :: O2) [fso]) as (m2 & E2 & HT2 & H2).
  { simpl. rewrite <- app_assoc. simpl. eapply table_agree; [|exact HT].
    intros x Hx. apply H1out. right.
    replace (length (O1 ++ o :: O2 ++ [fso]) - 1)%nat with c in Hx by (unfold c; len). lia. }
  { done. }
  { unfold table_fits. simpl. rewrite length_app. simpl. fold c.
    replace (c + 1 - 1)%nat with c by lia. unfold sizeof_descr. lia. }
  { apply Forall_forall. intros x Hx. rewrite Forall_forall in HF, HFo.
    specialize (HF x Hx). specialize (HFo x Hx). unfold lower. destruct (Z.gtb_spec x o); lia. }
  simpl in E2, HT2, H2. fold c in E2. change (Z.of_nat 0) with 0 in E2. rewrite E2. cbn [obind].
  assert (entry N (length ((O1 ++ o :: O2) ++ [fso]) - 1) = entry N c) as Ee.
  { f_equal. unfold c. len. }
  rewrite Ee in H2.
  assert (recs_count m2 = Z.of_nat c) as Ec2.
  { rewrite <- Ec1. apply get_le_ext. intros x Hx. apply H2. lia. }
  rewrite Ec2. replace (Z.to_nat (Z.of_nat c - Z.of_nat (length O1)))
    with (length (map (lower o l) O2 ++ [fso])) by len.
  rewrite map_app, <- app_assoc in HT2. simpl in HT2.
  destruct (shift_offsets_ok m2 (map (lower o l) O1) (lower o l o) (map (lower o l) O2 ++ [fso]))
    as (m3 & E3 & HT3 & H3).
  { done. }
  { unfold table_fits. rewrite length_app, length_cons, length_app, !length_map. simpl.
    replace (length O1 + S (length O2 + 1) - 1)%nat with c by lia. unfold sizeof_descr. lia. }
  { apply Forall_app. split; [|apply Forall_singleton; unfold entry in *; lia].
    apply Forall_map, Forall_forall. intros x Hx. rewrite Forall_forall in HF, HFo.
    assert (x ∈ O1 ++ o :: O2) as Hx' by set_solver.
    specialize (HF x Hx'). specialize (HFo x Hx'). unfold compose, lower. destruct (Z.gtb_spec x o); lia. }
  rewrite length_map in E3. rewrite E3. cbn [obind].
  assert (entry N (length (map (lower o l) O1) + length (map (lower o l) O2 ++ [fso])) = entry N c) as Ee3.
  { f_equal. len. }
  rewrite Ee3 in H3.
  assert (forall x, x < entry N c -> m3 x = m1 x) as H31 by (intros; rewrite H3 by lia; by apply H2).
  assert (recs_count m3 = Z.of_nat c) as Ec3.
  { rewrite <- Ec2. apply get_le_ext. intros x Hx. apply H3. lia. }
  assert (free_space m3 = free_space m) as Ef3.
  { apply get_le_ext. intros x Hx. rewrite H31 by lia. apply H1out. lia. }
  pose proof (fits_small N HN c ltac:(unfold sizeof_descr; lia)) as [Hcs _].
  rewrite Ec3. set (m4a := set_le 2 m3 4 (Z.of_nat c - 1)).
  assert (free_space m4a = free_space m) as Ef4.
  { unfold free_space, m4a. rewrite get_le_set_out by lia. exact Ef3. }
  rewrite Ef4. set (m4 := set_le 2 m4a 2 (free_space m + (l + 4))).
  assert (recs_count m4 = Z.of_nat c - 1) as Ec4.
  { unfold recs_count, m4. rewrite get_le_set_out by lia. unfold m4a.
    rewrite get_le_set_small; lia. }
  assert (forall x, 6 <= x -> m4 x = m3 x) as H4.
  { intros x Hx. unfold m4, m4a. by rewrite !set_le_out by lia. }
  rewrite Ec4. replace (Z.of_nat c - 1) with (Z.of_nat (length O1 + length O2)) by lia.
  pose proof (entry_le N (length O1 + length O2) c ltac:(lia)).
  rewrite check_set_offset_ok by (done || unfold sizeof_descr, entry in *; lia).
  assert (forall x, x < entry N c -> set_le 4 m4 (entry N (length O1 + length O2)) (fso - l) x = m4 x) as H5.
  { intros x Hx. apply set_le_out. lia. }
  eexists. split; [reflexivity|]. split; [|split; [|split; [|split]]].
  - rewrite app_assoc in HT3.
    assert (table N m4 ((map (lower o l) O1 ++ map (lower o l) O2) ++ [fso])) as HT4.
    { intros i x Hi. rewrite <- (HT3 i x Hi). apply get_le_ext. intros a Ha. apply H4.
      apply lookup_lt_Some in Hi. assert (i <= c)%nat as Hic by len.
      pose proof (entry_le N i c Hic). lia. }
    apply (table_set N _ _ (length O1 + length O2) (fso - l)) in HT4; [|len|unfold entry in *; lia].
    rewrite mid_insert in HT4 by len. by rewrite map_app.
  - unfold recs_count. rewrite get_le_set_out by lia. fold (recs_count m4). lia.
  - unfold free_space at 1. rewrite get_le_set_out by lia. unfold m4.
    rewrite get_le_set_small; [done|lia].
  - intros x Hx Hn. rewrite H5 by lia. unfold m4, m4a. rewrite !set_le_out by lia.
    rewrite H31 by lia. apply H1out. lia.
  - intros x Hx. rewrite H5, H4, H31 by lia. by apply H1in.
Qed.

Lemma delete_from_node_repr m n i :
  repr N m n -> (i < length (bn_recs n))%nat ->
  exists m', delete_from_node N mounted m (Z.of_nat i) = Ok m' /\ repr N m' (node_delete n i).
Proof using HN.
  intros Hrep Hi. destruct (lookup_lt_is_Some_2 _ _ Hi) as [r Hr].
  destruct (repr_get_record _ _ _ _ Hrep Hr) as (o & Eg & Eo & Ho1 & Ho2 & Hrd).
  destruct (repr_layout _ _ Hrep) as (offs & L & fso & Hl & HP & Hch & HT & He & Hge).
  pose proof HN as [HN1 HN2]. pose proof Hrep as [Hf Hc Hid Hpv Hnx Hty Hroom Hok _].
  assert (record_ok r) as Hrok by (by eapply Forall_lookup_1).
  assert (0 < rlen r) as Hrl by (destruct Hrok; lia).
  assert (offs !! i = Some o) as Hoi.
  { destruct (lookup_lt_is_Some_2 offs i) as [o' Ho']; [lia|].
    erewrite get_offset_ok in Eo; [|done|done|by apply lookup_app_l_Some|].
    - by simplify_eq.
    - pose proof (entry_le N i (length (bn_recs n)) ltac:(lia)). lia. }
  assert (Forall (fun x => sizeof_descr <= x < fso) offs) as HF.
  { apply Forall_lookup. intros j x Hx. destruct (lookup_lt_is_Some_2 (bn_recs n) j) as [s Hs].
    { apply lookup_lt_Some in Hx. lia. }
    pose proof (offs_elem _ _ _ _ _ _ Hl HP Hx Hs) as Hin.
    pose proof (chain_bounds _ _ _ _ _ _ Hch Hin).
    assert (record_ok s) as [_ Hk] by (by eapply Forall_lookup_1). lia. }
  pose proof (offs_elem _ _ _ _ _ _ Hl HP Hoi Hr) as Hin.
  apply list_elem_of_split in Hin as (L1 & L2 & ->).
  apply list_elem_of_split_length in Hoi as (O1 & O2 & -> & HO1).
  apply list_elem_of_split_length in Hr as HR. destruct HR as (R1 & R2 & ER & HR1).
  rewrite ER in *.
  assert (length O1 = length R1) as Hl1 by lia. assert (length O2 = length R2) as Hl2 by len.
  rewrite <- Hl in He, Hc.
  rewrite <- app_assoc in HT. simpl in HT.
  assert (o + rlen r <= fso) as Hofs.
  { eapply (chain_bounds _ _ _ _ o r Hch). set_solver. }
  assert (bn_free N n + rlen r + 4 < 2 ^ 16) as Hf16.
  { unfold bn_free, sizeof_descr, sizeof_off, EMMCFS_BNODE_FIRST_OFFSET. rewrite ER, room_app. simpl.
    pose proof (room_nonneg R1). pose proof (room_nonneg R2). unfold sizeof_off. lia. }
  unfold sizeof_descr in *.
  assert (Forall (fun '(o', r') => o' + rlen r' <= o) L1 /\
          Forall (fun p => o + rlen r <= fst p) L2) as [HC1 HC2].
  { apply chain_app in Hch as (b & H1 & H2). simpl in H2. destruct H2 as (<- & _ & H2).
    split; apply Forall_forall; intros [o' r'] Hx.
    - eapply chain_bounds; eauto.
    - pose proof (chain_bounds _ _ _ _ _ _ H2 Hx). simpl. lia. }
  destruct (delete_writes m O1 o O2 fso (rlen r)) as (m' & E & HT' & Hc' & Hf' & Hm1 & Hm2); try done.
  { eapply Forall_impl; [exact HF|]. simpl. unfold sizeof_descr, entry in *. lia. }
  { lia. }
  { apply Forall_lookup. intros j x Hx Hlt.
    destruct (lookup_lt_is_Some_2 (R1 ++ r :: R2) j) as [s Hs].
    { apply lookup_lt_Some in Hx. lia. }
    rewrite <- ER in HP, Hs. pose proof (offs_elem _ _ _ _ _ _ ltac:(by rewrite ER) HP Hx Hs) as Hin.
    rewrite Forall_forall in HC1, HC2.
    apply elem_of_app in Hin as [Hin|[Hin|Hin]%elem_of_cons].
    - specialize (HC1 _ Hin). simpl in HC1. pose proof (rlen_nonneg s). lia.
    - simplify_eq. lia.
    - by apply (HC2 _ Hin). }
  { rewrite Hf. unfold sizeof_off. lia. }
  { by rewrite Hf. }
  exists m'. split.
  { unfold delete_from_node. rewrite Eg. rewrite (read_len _ _ r) by done.
    rewrite Hc. erewrite get_offset_ok; [|done|exact HT|by rewrite app_comm_cons, app_assoc; apply list_lookup_middle|unfold sizeof_descr; lia].
    cbn [obind]. rewrite Eo. cbn [obind].
    rewrite !is_offset_correct_ok by (unfold entry in *; lia). simpl negb. cbv iota.
    rewrite <- HO1 in E. exact E. }
  destruct (chain_cut m m' L1 o r L2 fso) as (Hch' & HF1 & HF2); try done.
  { unfold sizeof_descr. intros x Hx. apply Hm1; lia. }
  assert (forall k a, 6 <= a -> a + Z.of_nat k <= 19 -> get_le k m' a = get_le k m a) as Hg.
  { intros k a Ha Hb. apply get_le_ext. intros x Hx. apply Hm1; lia. }
  assert (bn_recs (node_delete n i) = R1 ++ R2) as Erecs.
  { unfold node_delete. simpl. rewrite ER. f_equal; [by apply mid_take; lia|by apply mid_drop_S; lia]. }
  constructor; rewrite ?Erecs; simpl.
  - erewrite node_delete_room by (rewrite ER; apply mid_lookup; lia). by rewrite Hf', Hf.
  - rewrite Hc', Hl, !length_app. simpl. lia.
  - unfold node_id. rewrite Hg by lia. exact Hid.
  - unfold prev_node_id. rewrite Hg by lia. exact Hpv.
  - unfold next_node_id. rewrite Hg by lia. exact Hnx.
  - unfold node_type. rewrite Hg by lia. exact Hty.
  - erewrite node_delete_room by (rewrite ER; apply mid_lookup; lia). unfold sizeof_off. lia.
  - apply Forall_app in Hok as [? Hok2]. apply Forall_cons in Hok2 as [_ ?]. by apply Forall_app.
  - exists (map (lower o (rlen r)) (O1 ++ O2)), (L1 ++ shift (- rlen r) L2), (fso - rlen r).
    split; [len|]. split; [by apply layout_cut|]. by split.
Qed.
(** *** [init_new_node_descr] and [form_new_adding_record] *)

Lemma init_new_node_descr_repr m id type : 0 <= id < 2 ^ 32 -> 0 <= type < 2 ^ 8 ->
  exists m', init_new_node_descr N mounted m id type = Ok m' /\ repr N m' (node_init id type).
Proof using HN.
  intros Hid Hty. pose proof HN as [HN1 HN2]. unfold init_new_node_descr.
  change 0 with (Z.of_nat 0) at 2.
  assert (entry N 0 = N - 8) as E0 by (unfold entry; lia).
  rewrite check_set_offset_ok by (done || unfold sizeof_descr in *; lia).
  eexists. split; [reflexivity|]. rewrite E0.
  unfold EMMCFS_INVALID_NODE_ID, sizeof_descr, sizeof_off, EMMCFS_BNODE_FIRST_OFFSET.
  constructor;
    unfold free_space, recs_count, node_id, prev_node_id, next_node_id, node_type, bn_free, node_init,
      sizeof_descr, sizeof_off, EMMCFS_BNODE_FIRST_OFFSET; simpl;
    repeat (rewrite get_le_set_out by lia); try (rewrite get_le_set_small; lia); try lia; try constructor.
  exists [], [], sizeof_descr. split; [done|]. split; [done|]. split; [done|].
  rewrite <- E0. apply (table_push N _ []); [|unfold sizeof_descr; lia]. intros i o Hi. done.
Qed.

Lemma form_new_adding_record_repr max_record_len m n id r l :
  repr N m n -> bn_recs n = r :: l -> rlen r <= max_record_len ->
  form_new_adding_record N max_record_len mounted m id = Ok (form_record r id).
Proof using HN.
  intros Hrep Hl Hr. unfold form_new_adding_record. change 0 with (Z.of_nat 0).
  erewrite repr_read_record; [|done|by rewrite Hl].
  pose proof (rp_recs _ _ _ Hrep) as Hok. rewrite Hl in Hok. apply Forall_cons in Hok as [Hok _].
  unfold bug_on. rewrite (ro_len _ Hok), Z.gtb_ltb, (proj2 (Z.ltb_ge _ _)) by lia. done.
Qed.

(** *** Index values *)

Lemma dread_split m a k r : 0 <= k <= rlen r -> dread m a (rlen r) = r ->
  dread m a k = take (Z.to_nat k) r /\ dread m (a + k) (rlen r - k) = drop (Z.to_nat k) r.
Proof.
  intros Hk Hr. replace (rlen r) with (k + (rlen r - k)) in Hr at 1 by lia.
  rewrite dread_app in Hr by lia.
  assert (length (dread m a k) = Z.to_nat k) as Hl by (pose proof (length_dread m a k); lia).
  split.
  - rewrite <- (f_equal (take (Z.to_nat k)) Hr). by rewrite take_app_length'.
  - rewrite <- (f_equal (drop (Z.to_nat k)) Hr). by rewrite drop_app_length'.
Qed.

Lemma header_ext r s : take 12 r = take 12 s -> key_len r = key_len s /\ record_len r = record_len s.
Proof.
  intros H. unfold key_len, record_len. split; f_equal.
  - rewrite (take_drop_commute r 4 4), (take_drop_commute s 4 4). change (4 + 4)%nat with (8 `min` 12)%nat.
    by rewrite <- !take_take, H.
  - rewrite (take_drop_commute r 4 8), (take_drop_commute s 4 8). simpl Nat.add. by rewrite H.
Qed.

Lemma set_child_id_header r id : record_ok r -> take 12 (set_child_id r id) = take 12 r.
Proof.
  intros [_ Hk]. unfold set_child_id, rlen in *. rewrite take_app_le by len.
  rewrite take_take. f_equal. lia.
Qed.

Lemma set_child_id_len r id : key_len r + 4 <= rlen r -> record_ok r ->
  rlen (set_child_id r id) = rlen r.
Proof.
  intros Hc [_ Hk]. unfold set_child_id, rlen in *.
  rewrite !length_app, length_le_split, length_take, length_drop. lia.
Qed.

Lemma set_child_id_ok r id : key_len r + 4 <= rlen r -> record_ok r -> record_ok (set_child_id r id).
Proof.
  intros Hc Hr. pose proof (set_child_id_len r id Hc Hr) as Hl.
  destruct (header_ext _ _ (set_child_id_header r id Hr)) as [Ek Er].
  constructor; rewrite ?Hl, ?Ek, ?Er; apply Hr.
Qed.

Lemma set_value_node_id_repr m n i r id :
  repr N m n -> bn_recs n !! i = Some r -> key_len r + 4 <= rlen r ->
  exists m', set_value_node_id N mounted m (Z.of_nat i) id = Ok m' /\
    repr N m' (set_recs n (<[i := set_child_id r id]> (bn_recs n))).
Proof using HN.
  intros Hrep Hr Hkv.
  destruct (repr_get_record _ _ _ _ Hrep Hr) as (o & Eg & Eo & Ho1 & Ho2 & Hrd).
  destruct (repr_layout _ _ Hrep) as (offs & L & fso & Hl & HP & Hch & HT & He & Hge).
  pose proof HN as [HN1 HN2]. pose proof Hrep as [Hf Hc Hid Hpv Hnx Hty Hroom Hok _].
  assert (record_ok r) as Hrok by (by eapply Forall_lookup_1).
  pose proof (lookup_lt_Some _ _ _ Hr) as Hi.
  unfold set_value_node_id. rewrite Eg. cbn [obind]. rewrite (read_key_len _ _ r) by done.
  eexists. split; [reflexivity|].
  set (m' := set_le 4 m (o + key_len r) id). pose proof (ro_key _ Hrok) as Hk.
  assert (forall x, ~ o + key_len r <= x < o + key_len r + 4 -> m' x = m x) as Hm.
  { intros x Hx. apply set_le_out. lia. }
  assert (offs !! i = Some o) as Hoi.
  { destruct (lookup_lt_is_Some_2 offs i) as [o' Ho']; [lia|].
    erewrite get_offset_ok in Eo; [|done|done|by apply lookup_app_l_Some|].
    - by simplify_eq.
    - pose proof (entry_le N i (length (bn_recs n)) ltac:(lia)). lia. }
  assert (room (<[i:=set_child_id r id]> (bn_recs n)) = room (bn_recs n)) as Er.
  { rewrite insert_take_drop by done. rewrite <- (take_drop_middle (bn_recs n) i r) at 3 by done.
    rewrite !room_app. simpl. by rewrite set_child_id_len. }
  unfold sizeof_descr in *.
  assert (forall k a, a + Z.of_nat k <= 19 -> get_le k m' a = get_le k m a) as Hg.
  { intros k a Ha. apply get_le_ext. intros x Hx. apply Hm. lia. }
  constructor; unfold set_recs, bn_free; simpl; rewrite ?Er; try done;
    try (unfold free_space, recs_count, node_id, prev_node_id, next_node_id, node_type; rewrite Hg by lia; done).
  - unfold recs_count. rewrite Hg by lia. by rewrite length_insert.
  - apply Forall_insert; [done|]. by apply set_child_id_ok.
  - pose proof (offs_elem _ _ _ _ _ _ Hl HP Hoi Hr) as Hin.
    apply list_elem_of_split in Hin as (L1 & L2 & ->).
    exists offs, (L1 ++ (o, set_child_id r id) :: L2), fso. split; [by rewrite length_insert|].
    pose proof Hch as Hch0. apply chain_app in Hch as (b & H1 & H2). simpl in H2.
    destruct H2 as (<- & _ & H2). pose proof (chain_le _ _ _ _ H1). pose proof (chain_le _ _ _ _ H2).
    split; [|split].
    + apply list_elem_of_split_length in Hoi as (O1 & O2 & -> & HO1).
      apply list_elem_of_split_length in Hr as (R1 & R2 & ER & HR1). rewrite ER in *.
      rewrite mid_insert by lia. rewrite zip_with_app in HP |- * by lia. simpl in *.
      apply Permutation_app_inv in HP. rewrite <- !Permutation_middle. by f_equiv.
    + apply chain_app. exists o. split; [eapply chain_agree; [|done]; intros; apply Hm; lia|].
      simpl. split; [done|]. rewrite set_child_id_len by done. split.
      * destruct (dread_split m o (key_len r) r ltac:(lia) Hrd) as [Hr1 _].
        destruct (dread_split m o (key_len r + 4) r ltac:(lia) Hrd) as [_ Hr2].
        replace (rlen r) with (key_len r + (4 + (rlen r - (key_len r + 4)))) by lia.
        rewrite !dread_app by lia. unfold set_child_id. f_equal; [|f_equal].
        -- rewrite <- Hr1. apply dread_ext. intros x Hx. unfold in_range in Hx. apply Hm. lia.
        -- change 4 with (Z.of_nat 4) at 1. rewrite <- (length_le_split 4 id) at 1. apply dread_dwrite.
        -- replace (Z.to_nat (key_len r) + 4)%nat with (Z.to_nat (key_len r + 4)) by lia. rewrite <- Hr2.
           rewrite Z.add_assoc. apply dread_ext. intros x Hx. unfold in_range in Hx. apply Hm. lia.
      * eapply chain_agree; [|done]. intros x Hx. apply Hm. lia.
    + eapply table_agree; [|done]. intros x Hx. apply Hm.
      rewrite length_app in Hx. simpl in Hx.
      replace (length offs + 1 - 1)%nat with (length (bn_recs n)) in Hx by lia. lia.
Qed.
(** *** [btree_merge] *)

(** All the offsets of the records lie in the node. *)
Lemma repr_offsets m n offs L fso : repr N m n -> length offs = length (bn_recs n) ->
  L ≡ₚ zip offs (bn_recs n) -> chain m sizeof_descr L fso ->
  Forall (fun o => sizeof_descr <= o < fso) offs.
Proof.
  intros Hrep Hl HP Hch. apply Forall_lookup. intros j x Hx.
  destruct (lookup_lt_is_Some_2 (bn_recs n) j) as [s Hs].
  { apply lookup_lt_Some in Hx. lia. }
  pose proof (offs_elem _ _ _ _ _ _ Hl HP Hx Hs) as Hin.
  pose proof (chain_bounds _ _ _ _ _ _ Hch Hin).
  assert (record_ok s) as [_ Hk] by (eapply Forall_lookup_1; [apply (rp_recs _ _ _ Hrep)|done]).
  pose proof (rlen_nonneg s). lia.
Qed.

Lemma check_offsets_ok m T1 T2 x : table N m (T1 ++ T2 ++ [x]) -> table_fits N (T1 ++ T2 ++ [x]) ->
  Forall (fun o => 0 < o < N) T2 ->
  check_offsets N mounted m (Z.of_nat (length T1)) (length T2) = Ok 0.
Proof using HN.
  revert T1. induction T2 as [|o T2 IH]; intros T1 HT Hfit HF; [done|].
  apply Forall_cons in HF as [Ho HF]. cbn [check_offsets length]. unfold table_fits in Hfit.
  assert (length T1 <= length (T1 ++ (o :: T2) ++ [x]) - 1)%nat as Hlen by len.
  pose proof (entry_le N _ _ Hlen).
  erewrite get_offset_ok; [|done|exact HT|apply mid_lookup; len|lia]. cbn [obind].
  rewrite is_offset_correct_ok by (done || lia).
  replace (Z.of_nat (length T1) + 1) with (Z.of_nat (length (T1 ++ [o]))) by len.
  apply IH; [by rewrite <- app_assoc| |done]. unfold table_fits. by rewrite <- app_assoc.
Qed.

Lemma check_bnode_offset_area_repr m n : repr N m n -> check_bnode_offset_area N mounted m = Ok 0.
Proof using HN.
  intros Hrep. destruct (repr_layout _ _ Hrep) as (offs & L & fso & Hl & HP & Hch & HT & He & Hge).
  pose proof (repr_offsets _ _ _ _ _ Hrep Hl HP Hch) as HF. pose proof (rp_room _ _ _ Hrep).
  unfold check_bnode_offset_area. rewrite (rp_count _ _ _ Hrep), Nat2Z.id, <- Hl.
  apply (check_offsets_ok m [] offs fso); [done| |].
  - unfold table_fits. simpl. rewrite length_app. simpl.
    replace (length offs + 1 - 1)%nat with (length (bn_recs n)) by lia. lia.
  - eapply Forall_impl; [exact HF|]. unfold sizeof_descr, entry in *. simpl. lia.
Qed.

Lemma copy_offsets_ok rn base TL T1 T2 m :
  table N rn (T1 ++ T2) -> table_fits N (T1 ++ T2) ->
  let g o := base + o - sizeof_descr in
  table N m (TL ++ map g T1) -> table_fits N (TL ++ T1 ++ T2) ->
  Forall (fun o => 0 < g o < N) T2 ->
  exists m', copy_offsets N mounted m rn (Z.of_nat (length TL)) base (Z.of_nat (length T1)) (length T2) = Ok m' /\
    table N m' (TL ++ map g (T1 ++ T2)) /\
    (forall x, x < entry N (length (TL ++ T1 ++ T2) - 1) -> m' x = m x).
Proof using HN.
  intros HR HRfit g. revert m T1 HR HRfit. pose proof HN as [HN1 HN2].
  induction T2 as [|o T2 IH]; intros m T1 HR HRfit HT Hfit HF.
  { exists m. rewrite app_nil_r. done. }
  apply Forall_cons in HF as [Ho HF]. cbn [copy_offsets length]. unfold table_fits in *.
  assert (length T1 <= length (T1 ++ o :: T2) - 1)%nat as Hlen by len.
  pose proof (entry_le N _ _ Hlen).
  erewrite get_offset_ok; [|done|exact HR|apply mid_lookup; len|lia]. cbn [obind].
  fold (g o). rewrite uwrap_small by lia. rewrite <- Nat2Z.inj_add.
  replace (length T1 + length TL)%nat with (length (TL ++ map g T1)) by len.
  assert (length (TL ++ map g T1) <= length (TL ++ T1 ++ o :: T2) - 1)%nat as Hlen2 by len.
  pose proof (entry_le N _ _ Hlen2).
  rewrite check_set_offset_ok by (done || lia).
  destruct (IH (set_le 4 m (entry N (length (TL ++ map g T1))) (g o)) (T1 ++ [o])) as (m' & E & HT' & Hm').
  { by rewrite <- app_assoc. }
  { by rewrite <- app_assoc. }
  { rewrite map_app, app_assoc. simpl. apply table_push; [done|lia]. }
  { by rewrite <- app_assoc. }
  { done. }
  rewrite <- app_assoc in HT', Hm'. simpl in HT', Hm'.
  replace (Z.of_nat (length T1) + 1) with (Z.of_nat (length (T1 ++ [o]))) by len.
  exists m'. split; [exact E|]. split; [done|].
  intros x Hx. rewrite Hm' by done. apply set_le_out. lia.
Qed.

Lemma merge_data_repr ml mr nl nr :
  repr N ml nl -> repr N mr nr -> 0 <= bn_free N (node_merge nl nr) -> 0 <= bn_next nr < 2 ^ 32 ->
  exists m', merge_data N mounted ml mr = Ok m' /\ repr N m' (node_merge nl nr).
Proof using HN.
  intros Hl Hr Hroom Hnx. pose proof HN as [HN1 HN2].
  destruct (repr_layout _ _ Hl) as (ol & Ll & fl & Hll & HPl & Hchl & HTl & Hel & Hgel).
  destruct (repr_layout _ _ Hr) as (or & Lr & fr & Hlr & HPr & Hchr & HTr & Her & Hger).
  pose proof (repr_offsets _ _ _ _ _ Hl Hll HPl Hchl) as HFl.
  pose proof (repr_offsets _ _ _ _ _ Hr Hlr HPr Hchr) as HFr.
  pose proof (layout_end _ _ _ _ _ Hlr HPr Hchr) as Hfr.
  assert (bn_free N (node_merge nl nr) = bn_free N nl - room (bn_recs nr)) as Efree.
  { unfold bn_free, node_merge. simpl. rewrite room_app. lia. }
  rewrite Efree in Hroom. pose proof (rp_room _ _ _ Hl). pose proof (rp_room _ _ _ Hr).
  unfold merge_data. rewrite (check_bnode_offset_area_repr _ _ Hl).
  rewrite (check_bnode_offset_area_repr _ _ Hr). cbn [obind]. simpl negb. simpl orb. cbv iota.
  rewrite (rp_count _ _ _ Hl), (rp_count _ _ _ Hr), <- Hll, <- Hlr in *.
  rewrite get_offset_addr_ok by (done || lia). cbn [obind].
  rewrite (table_range _ _ _ _ _ HTl).
  erewrite get_offset_ok; [|done|exact HTr|by apply list_lookup_middle|lia]. cbn [obind].
  unfold sizeof_descr in *.
  set (m1 := dwrite ml fl (dread mr 19 (fr - 19))).
  assert (Z.of_nat (length (dread mr 19 (fr - 19))) = fr - 19) as Elen by (apply length_dread; lia).
  assert (forall x, ~ fl <= x < fl + (fr - 19) -> m1 x = ml x) as Hm1.
  { intros x Hx. apply dwrite_out. unfold in_range. by rewrite Elen. }
  assert (fl + (fr - 19) <= entry N (length ol + length or)) as Hfit.
  { unfold entry in *. lia. }
  pose proof (entry_le N (length ol) (length ol + length or) ltac:(lia)).
  assert (recs_count m1 = Z.of_nat (length ol)) as Ec.
  { rewrite Hll, <- (rp_count _ _ _ Hl). apply get_le_ext. intros x Hx. apply Hm1. lia. }
  assert (table N m1 (ol ++ [fl])) as HTl1.
  { eapply table_agree; [|exact HTl]. intros x Hx. apply Hm1.
    rewrite length_app in Hx. simpl in Hx.
    replace (length ol + 1 - 1)%nat with (length ol) in Hx by lia. lia. }
  rewrite Ec. erewrite get_offset_ok; [|done|exact HTl1|by apply list_lookup_middle|unfold sizeof_descr; lia].
  cbn [obind]. rewrite Nat2Z.id.
  destruct (copy_offsets_ok mr fl ol [] (or ++ [fr]) m1) as (m2 & E & HT2 & Hm2); try done.
  { unfold table_fits, sizeof_descr. simpl. rewrite length_app. simpl.
    replace (length or + 1 - 1)%nat with (length or) by lia. lia. }
  { rewrite app_nil_r. by eapply table_prefix. }
  { unfold table_fits, sizeof_descr. rewrite app_nil_l, !length_app. simpl.
    replace (length ol + (length or + 1) - 1)%nat with (length ol + length or)%nat by lia. lia. }
  { unfold sizeof_descr. apply Forall_app. split; [|apply Forall_singleton; unfold entry in *; lia].
    eapply Forall_impl; [exact HFr|]. simpl. unfold entry in *. lia. }
  rewrite length_app in E. simpl in E. rewrite Nat.add_1_r in E. change (Z.of_nat 0) with 0 in E.
  rewrite E. cbn [obind].
  replace (length (ol ++ [] ++ or ++ [fr]) - 1)%nat with (length ol + length or)%nat in Hm2 by len.
  assert (recs_count m2 = Z.of_nat (length ol)) as Ec2.
  { rewrite <- Ec. apply get_le_ext. intros x Hx. apply Hm2. lia. }
  assert (free_space m2 = bn_free N nl) as Ef2.
  { rewrite <- (rp_free _ _ _ Hl). apply get_le_ext. intros x Hx. rewrite Hm2 by lia. apply Hm1. lia. }
  assert (bn_free N nl < 2 ^ 16) as Hf16.
  { unfold bn_free, sizeof_descr, sizeof_off, EMMCFS_BNODE_FIRST_OFFSET.
    pose proof (room_nonneg (bn_recs nl)). lia. }
  pose proof (fits_small N HN (length ol + length or) ltac:(unfold sizeof_descr; lia)) as [Hcs _].
  assert (fr - 19 + Z.of_nat (length or) * sizeof_off = room (bn_recs nr)) as Eroom.
  { unfold sizeof_off. lia. }
  rewrite Ef2, Eroom. set (m3 := set_le 2 m2 2 _).
  assert (recs_count m3 = Z.of_nat (length ol)) as Ec3.
  { unfold recs_count, m3. rewrite get_le_set_out by lia. exact Ec2. }
  rewrite Ec3. eexists. split; [reflexivity|].
  set (m5 := set_le 4 (set_le 2 m3 4 _) 14 _).
  assert (forall x, 18 <= x -> m5 x = m2 x) as Hm5.
  { intros x Hx. unfold m5, m3. by rewrite !set_le_out by lia. }
  assert (forall k a, 6 <= a -> a + Z.of_nat k <= 14 -> get_le k m5 a = get_le k ml a) as Hg.
  { intros k a Ha Hb. apply get_le_ext. intros x Hx. unfold m5, m3. rewrite !set_le_out by lia.
    rewrite Hm2 by lia. apply Hm1. lia. }
  assert (get_le 2 m5 4 = Z.of_nat (length ol) + Z.of_nat (length or)) as Ec5.
  { unfold m5. rewrite get_le_set_out by lia. apply get_le_set_small. lia. }
  assert (get_le 2 m5 2 = bn_free N nl - room (bn_recs nr)) as Ef5.
  { unfold m5, m3. rewrite !get_le_set_out by lia. apply get_le_set_small.
    pose proof (room_nonneg (bn_recs nr)). lia. }
  constructor; rewrite ?Efree; try done.
  - unfold recs_count. rewrite Ec5. unfold node_merge. simpl. rewrite length_app. lia.
  - unfold node_id. rewrite Hg by lia. apply (rp_id _ _ _ Hl).
  - unfold prev_node_id. rewrite Hg by lia. apply (rp_prev _ _ _ Hl).
  - unfold next_node_id, m5. rewrite get_le_set_small; [by apply (rp_next _ _ _ Hr)|].
    fold (next_node_id mr). rewrite (rp_next _ _ _ Hr). done.
  - unfold node_type. transitivity (get_le 1 ml 18); [|apply (rp_type _ _ _ Hl)].
    apply get_le_ext. intros x Hx. rewrite Hm5, Hm2 by lia. apply Hm1. lia.
  - apply Forall_app. split; [apply (rp_recs _ _ _ Hl)|apply (rp_recs _ _ _ Hr)].
  - simpl in HT2. rewrite map_app, app_assoc in HT2.
    exists (ol ++ map (fun o => fl + o - sizeof_descr) or), (Ll ++ shift (fl - 19) Lr),
      (fl + (fr - 19)).
    split; [simpl; len|]. split; [|split].
    + simpl. rewrite zip_with_app by done. rewrite HPl. f_equiv.
      assert (zip (map (fun o => fl + o - sizeof_descr) or) (bn_recs nr) = shift (fl - 19) (zip or (bn_recs nr))) as ->.
      { generalize (bn_recs nr). clear. induction or as [|a l IH]; intros [|b k]; simpl; try done.
        f_equal; [|apply IH]. f_equal. unfold sizeof_descr. lia. }
      unfold shift. by rewrite HPr.
    + apply chain_app. exists fl. split.
      * eapply chain_agree; [|exact Hchl]. unfold sizeof_descr. intros x Hx.
        rewrite Hm5, Hm2 by lia. apply Hm1. lia.
      * replace (chain m5 fl) with (chain m5 (19 + (fl - 19))) by (f_equal; lia).
        replace (fl + (fr - 19)) with (fr + (fl - 19)) by lia.
        eapply chain_shift; [|exact Hchr]. intros x Hx.
        rewrite Hm5, Hm2 by lia. unfold m1.
        rewrite dwrite_in by (unfold in_range; rewrite Elen; lia).
        replace (x + (fl - 19) - fl) with (x - 19) by lia.
        rewrite dread_lookup by lia. simpl. f_equal. lia.
    + eapply table_agree; [|]; cycle 1.
      { simpl in HT2. unfold sizeof_descr in *. replace (fl + (fr - 19)) with (fl + fr - 19) by lia. exact HT2. }
      intros x Hx. apply Hm5.
      rewrite !length_app in Hx. simpl in Hx. rewrite length_map in Hx.
      replace (length ol + length or + 1 - 1)%nat with (length ol + length or)%nat in Hx by lia. lia.
Qed.
(** *** [split_node] *)

(** The records the loop has still to copy. *)
Definition todo (recs : list record) (idx : nat) (r : record) (i : nat) (inserted : bool) : list record :=
  if inserted then drop i recs else drop i (take idx recs) ++ r :: drop idx recs.

(** One step: the record that is taken and what is left. *)
Lemma todo_cons recs idx r i inserted x l :
  (idx <= length recs)%nat -> (i <= idx \/ inserted = true)%nat ->
  todo recs idx r i inserted = x :: l ->
  let sel := (Z.of_nat i =? Z.of_nat idx) && negb inserted in
  (Z.of_nat i <? Z.of_nat (length recs)) || negb inserted = true /\
  (if sel then x = r else recs !! i = Some x) /\
  l = (if sel then todo recs idx r i true else todo recs idx r (S i) inserted) /\
  (sel = false -> (S i <= idx \/ inserted = true)%nat).
Proof.
  intros Hidx Hi E. unfold todo in *. destruct inserted; simpl.
  - rewrite andb_false_r, orb_false_r.
    assert (i < length recs)%nat as Hlt.
    { assert (length (drop i recs) = length (x :: l)) as El by (by rewrite E). len. }
    split; [apply Z.ltb_lt; lia|].
    destruct (lookup_lt_is_Some_2 recs i Hlt) as [y Hy]. rewrite (drop_S _ _ _ Hy) in E. simplify_eq.
    split; [done|]. split; [done|]. by right.
  - rewrite andb_true_r. split; [by rewrite orb_true_r|].
    destruct Hi as [Hi|?]; [|done].
    destruct (Z.eqb_spec (Z.of_nat i) (Z.of_nat idx)) as [Heq|Hne]; simpl.
    + assert (i = idx) as -> by lia. rewrite drop_ge in E by len. simpl in E. by simplify_eq.
    + destruct (lookup_lt_is_Some_2 recs i ltac:(lia)) as [y Hy].
      assert (take idx recs !! i = Some y) as Hy' by (rewrite lookup_take_lt by lia; done).
      rewrite (drop_S _ _ _ Hy') in E. simpl in E. simplify_eq. split; [done|]. split; [done|].
      intros _. left. lia.
Qed.

Lemma todo_nil recs idx r i inserted :
  todo recs idx r i inserted = [] -> inserted = true /\ (length recs <= i)%nat.
Proof.
  unfold todo. destruct inserted; intros E; [|by destruct (drop i (take idx recs))].
  split; [done|]. assert (length (drop i recs) = 0%nat) as El by by rewrite E. len.
Qed.

(** The halves when the loop is done. *)
Definition split_rest (used_space : Z) (second : bool) (a b rest : list record)
    : list record * list record :=
  if second then (a, b ++ rest)
  else let '(x, y) := split_recs N used_space rest in (a ++ x, b ++ y).

Lemma split_rest_cons used_space second a b x l : (second = false -> b = []) ->
  split_rest used_space second a b (x :: l) =
  split_rest (used_space + (rlen x + sizeof_off))
    (if used_space + (rlen x + sizeof_off) >? N / 2 then true else second)
    (if second then a else a ++ [x]) (if second then b ++ [x] else b) l.
Proof.
  intros Hb. unfold split_rest. destruct second.
  - rewrite <- app_assoc. by destruct (_ >? _).
  - rewrite (Hb eq_refl). simpl. destruct (_ >? _); [done|].
    destruct (split_recs N _ l) as [y z]. by rewrite <- app_assoc.
Qed.

Lemma split_rest_fits used_space second a b rest :
  let '(x, y) := split_rest used_space second a b rest in
  room a <= room x /\ room b <= room y.
Proof.
  unfold split_rest. destruct second.
  - rewrite room_app. pose proof (room_nonneg rest). lia.
  - destruct (split_recs N used_space rest) as [x y]. rewrite !room_app.
    pose proof (room_nonneg x). pose proof (room_nonneg y). lia.
Qed.

Lemma split_loop_repr m n idx r id1 id2 t rest fuel i inserted second used_space a b p1 p2 :
  repr N m n -> record_ok r -> (idx <= length (bn_recs n))%nat ->
  (i <= idx \/ inserted = true)%nat -> rest = todo (bn_recs n) idx r i inserted ->
  (length rest < fuel)%nat -> (second = false -> b = []) ->
  repr N p1 (Bnode id1 t 0 0 a) -> repr N p2 (Bnode id2 t 0 0 b) ->
  let '(x, y) := split_rest used_space second a b rest in
  0 <= bn_free N (Bnode id1 t 0 0 x) -> 0 <= bn_free N (Bnode id2 t 0 0 y) ->
  exists p1' p2',
    split_loop N mounted fuel m (Z.of_nat idx) r (Z.of_nat i) used_space inserted second p1 p2 =
      Some (Ok (p1', p2')) /\
    repr N p1' (Bnode id1 t 0 0 x) /\ repr N p2' (Bnode id2 t 0 0 y).
Proof using HN.
  intros Hrep Hr Hidx. revert fuel i inserted second used_space a b p1 p2.
  induction rest as [|x rest IH]; intros fuel i inserted second used_space a b p1 p2 Hi Hrest Hfuel Hb H1 H2.
  - symmetry in Hrest. apply todo_nil in Hrest as [-> Hge]. destruct fuel as [|fuel]; [simpl in Hfuel; lia|].
    assert (split_rest used_space second a b [] = (a, b)) as ->.
    { unfold split_rest. destruct second; simpl; by rewrite ?app_nil_r. }
    intros _ _. exists p1, p2. split; [|done]. cbn [split_loop].
    rewrite (rp_count _ _ _ Hrep). by rewrite (proj2 (Z.ltb_ge _ _)) by lia.
  - destruct fuel as [|fuel]; [simpl in Hfuel; lia|]. symmetry in Hrest.
    destruct (todo_cons _ _ _ _ _ _ _ Hidx Hi Hrest) as (Hcond & Hx & Hl & Hnext).
    set (sel := (Z.of_nat i =? Z.of_nat idx) && negb inserted) in *.
    assert (record_ok x) as Hxok.
    { destruct sel; [by subst x|]. by eapply Forall_lookup_1; [apply (rp_recs _ _ _ Hrep)|]. }
    pose proof (split_rest_cons used_space second a b x rest Hb) as Esr. rewrite Esr.
    set (used' := used_space + (rlen x + sizeof_off)) in *.
    set (second' := if used' >? N / 2 then true else second) in *.
    set (a' := if second then a else a ++ [x]) in *. set (b' := if second then b ++ [x] else b) in *.
    pose proof (split_rest_fits used' second' a' b' rest) as Hfits.
    destruct (split_rest used' second' a' b' rest) as [fx fy] eqn:Ef. destruct Hfits as [Hfa Hfb].
    intros Hroom1 Hroom2.
    assert (exists q1 q2,
      (if second then insert_into_node N mounted p2 x (recs_count p2)
       else insert_into_node N mounted p1 x (recs_count p1)) = Ok (if second then q2 else q1) /\
      (if second then q1 = p1 else q2 = p2) /\
      repr N q1 (Bnode id1 t 0 0 a') /\ repr N q2 (Bnode id2 t 0 0 b')) as (q1 & q2 & Eins & Eq & Hq1 & Hq2).
    { unfold bn_free in Hroom1, Hroom2. simpl in Hroom1, Hroom2. unfold a', b' in *. destruct second.
      - rewrite room_app in Hfb. simpl in Hfb.
        destruct (insert_into_node_repr p2 _ x (length b) H2 Hxok) as (q & E & Hq);
          [unfold bn_free; simpl; lia|simpl; lia|].
        exists p1, q. rewrite (rp_count _ _ _ H2). split; [exact E|]. split; [done|]. split; [done|].
        unfold node_insert, set_recs in Hq. simpl in Hq. by rewrite firstn_all, drop_all in Hq.
      - rewrite room_app in Hfa. simpl in Hfa.
        destruct (insert_into_node_repr p1 _ x (length a) H1 Hxok) as (q & E & Hq);
          [unfold bn_free; simpl; lia|simpl; lia|].
        exists q, p2. rewrite (rp_count _ _ _ H1). split; [exact E|]. split; [done|]. split; [|done].
        unfold node_insert, set_recs in Hq. simpl in Hq. by rewrite firstn_all, drop_all in Hq. }
    assert (second' = false -> b' = []) as Hb'.
    { unfold second', b'. destruct (used' >? N / 2); [done|]. destruct second; [done|]. auto. }
    assert ((if sel then Ok r else read_record N mounted m (Z.of_nat i)) = Ok x) as Ekey.
    { destruct sel; [by subst x|]. by eapply repr_read_record. }
    assert ((if second then p1 else if second then q2 else q1) = q1) as E1 by (by destruct second).
    assert ((if second then if second then q2 else q1 else p2) = q2) as E2 by (by destruct second).
    cbn [split_loop]. rewrite (rp_count _ _ _ Hrep), Hcond. fold sel.
    rewrite Ekey, (ro_len _ Hxok), Eins. fold used'. fold second'. rewrite E1, E2. simpl in Hfuel.
    destruct sel.
    + specialize (IH fuel i true second' used' a' b' q1 q2 (or_intror eq_refl) Hl ltac:(lia) Hb' Hq1 Hq2).
      rewrite Ef in IH. by apply IH.
    + specialize (IH fuel (S i) inserted second' used' a' b' q1 q2 (Hnext eq_refl) Hl ltac:(lia) Hb' Hq1 Hq2).
      rewrite Ef in IH. replace (Z.of_nat i + 1) with (Z.of_nat (S i)) by lia. by apply IH.
Qed.

Lemma split_data_repr m n idx r p1 p2 id1 id2 l1 l2 :
  repr N m n -> record_ok r -> (idx <= length (bn_recs n))%nat -> bn_recs n <> [] ->
  0 <= id1 < 2 ^ 32 -> 0 <= id2 < 2 ^ 32 -> 0 <= bn_type n < 2 ^ 8 ->
  node_split N n idx r = (l1, l2) ->
  0 <= bn_free N (Bnode id1 (bn_type n) 0 0 l1) -> 0 <= bn_free N (Bnode id2 (bn_type n) 0 0 l2) ->
  exists p1' p2',
    split_data N mounted m (Z.of_nat idx) r p1 p2 id1 id2 = Some (Ok (p1', p2')) /\
    repr N p1' (Bnode id1 (bn_type n) 0 0 l1) /\ repr N p2' (Bnode id2 (bn_type n) 0 0 l2).
Proof using HN.
  intros Hrep Hr Hidx Hne Hid1 Hid2 Hty Hsp Hf1 Hf2. unfold split_data.
  rewrite (rp_type _ _ _ Hrep).
  destruct (init_new_node_descr_repr p1 id1 _ Hid1 Hty) as (q1 & -> & Hq1).
  destruct (init_new_node_descr_repr p2 id2 _ Hid2 Hty) as (q2 & -> & Hq2).
  rewrite (rp_free _ _ _ Hq1), (rp_count _ _ _ Hrep).
  assert (length (bn_recs n) <> 0%nat) as Hlen by (by destruct (bn_recs n)).
  rewrite (proj2 (Z.eqb_neq _ _)) by lia.
  assert (N - bn_free N (node_init id1 (bn_type n)) = 27) as ->.
  { unfold bn_free, node_init, sizeof_descr, sizeof_off, EMMCFS_BNODE_FIRST_OFFSET. simpl. lia. }
  pose proof (split_loop_repr m n idx r id1 id2 (bn_type n)
    (todo (bn_recs n) idx r 0 false) (Z.to_nat (Z.of_nat (length (bn_recs n))) + 2) 0 false false 27 [] [] q1 q2
    Hrep Hr Hidx ltac:(lia) eq_refl) as H.
  unfold split_rest in H. unfold todo in H at 2. rewrite drop_0 in H. fold (node_split N n idx r) in H.
  rewrite Hsp in H. apply H; try done. unfold todo. rewrite drop_0. len.
Qed.
End refine.

(** ** The halves of a split *)
Section split.
Context (N M : Z).

Lemma split_recs_app used l a b : split_recs N used l = (a, b) -> l = a ++ b.
Proof.
  revert used a. induction l as [|r l IH]; intros used a H; simpl in H; [by simplify_eq|].
  destruct (_ >? _); [by simplify_eq|].
  destruct (split_recs N _ l) as [x y] eqn:E. simplify_eq. simpl. f_equal. by eapply IH.
Qed.

Lemma split_recs_first used r l a b : split_recs N used (r :: l) = (a, b) -> a <> [].
Proof.
  simpl. destruct (_ >? _); [by intros; simplify_eq|]. destruct (split_recs N _ l). by intros; simplify_eq.
Qed.

(** The first half is at most one record longer than half of the node, and
    longer than that when a second half is needed. *)
Lemma split_recs_room used l a b : split_recs N used l = (a, b) -> 0 <= M ->
  Forall (fun r => rlen r + sizeof_off <= M) l -> used <= N / 2 ->
  used + room a <= N / 2 + M /\ (b <> [] -> N / 2 < used + room a).
Proof.
  intros H HM HF. revert used a H. induction HF as [|r l Hr HF IH]; intros used a H Hu; simpl in H.
  - simplify_eq. simpl. split; [lia|done].
  - destruct (Z.gtb_spec (used + (rlen r + sizeof_off)) (N / 2)).
    + simplify_eq. simpl. split; [lia|]. intros _. lia.
    + destruct (split_recs N _ l) as [x y] eqn:E. simplify_eq. simpl.
      destruct (IH _ _ E ltac:(lia)) as [H1 H2]. split; [lia|]. intros Hy. specialize (H2 Hy). lia.
Qed.
End split.

(** The records are short enough for a node to be split: a half of the node
    holds the longest record with the descriptor and the end of the table. *)
Definition small_recs (N : Z) (l : list record) : Prop :=
  Forall (fun r => rlen r + sizeof_off + 27 <= N / 2) l.

(** A node that is full for a record is split in two nodes that fit. *)
Lemma node_split_fits N n idx r l1 l2 : 27 <= N -> (idx <= length (bn_recs n))%nat ->
  small_recs N (bn_recs n) -> small_recs N [r] -> 0 <= bn_free N n ->
  bn_free N n < rlen r + sizeof_off ->
  node_split N n idx r = (l1, l2) ->
  l1 ++ l2 = take idx (bn_recs n) ++ r :: drop idx (bn_recs n) /\
  l1 <> [] /\ l2 <> [] /\ 27 + room l1 <= N /\ 27 + room l2 <= N.
Proof.
  intros HN Hidx Hsm Hr Hfree Hfull Hsp. unfold node_split in Hsp.
  set (l := take idx (bn_recs n) ++ r :: drop idx (bn_recs n)) in *.
  apply Forall_cons in Hr as [Hr _].
  assert (Forall (fun r => rlen r + sizeof_off <= N / 2 - 27) l) as HF.
  { unfold l. apply Forall_app_2; [|apply Forall_cons; split; [lia|]].
    - apply Forall_take. eapply Forall_impl; [exact Hsm|]. simpl. lia.
    - apply Forall_drop. eapply Forall_impl; [exact Hsm|]. simpl. lia. }
  assert (room l = room (bn_recs n) + (rlen r + sizeof_off)) as Hl.
  { unfold l. rewrite <- (take_drop idx (bn_recs n)) at 3. rewrite !room_app. simpl. lia. }
  pose proof (rlen_nonneg r) as Hrn. pose proof (Z.mul_div_le N 2 ltac:(lia)) as Hhalf.
  destruct (split_recs_room N (N / 2 - 27) _ _ _ _ Hsp) as [H1 H2];
    [unfold sizeof_off in *; lia|done|unfold sizeof_off in *; lia|].
  pose proof (split_recs_app _ _ _ _ _ Hsp) as Happ. rewrite Happ, room_app in Hl.
  unfold bn_free, sizeof_descr, sizeof_off, EMMCFS_BNODE_FIRST_OFFSET in *.
  assert (l1 <> []) as Hne1.
  { destruct l as [|x l'] eqn:E; [by destruct (take idx (bn_recs n))|]. by eapply split_recs_first. }
  assert (l2 <> []) as Hne2.
  { intros ->. change (room []) with 0 in Hl. lia. }
  specialize (H2 Hne2). split; [done|]. split; [done|]. split; [done|]. lia.
Qed.
