(* ===== verification/BnodeTheorems.v ===== *)
(** * The properties of B-tree nodes

    The functions on the bytes of a node implement the operations on the list
    of its records: the results below are stated for any memory that holds a
    node ([repr]), and read the records back through [get_record]. *)

From S2P Require Import Prelude Data BnodeBytes BnodeRepr.
Open Scope Z_scope.

(** ** A concrete node *)

(** A record of 20 bytes with a key of 16, and a node of 128 bytes. *)
Definition sample_record (k : Z) : record :=
  [0; 0; 0; 0] ++ le_split 4 16 ++ le_split 4 20 ++ [k; 0; 0; 0] ++ le_split 4 7.

Definition blank : mem := fun _ => 0.
Definition unOk (d : mem) (x : outcome mem) : mem := match x with Ok m => m | _ => d end.
Definition node0 : mem := unOk blank (init_new_node_descr 128 true blank 5 EMMCFS_NODE_LEAF).
Definition node1 : mem := unOk blank (insert_into_node 128 true node0 (sample_record 1) 0).

Lemma sample_ok k : record_ok (sample_record k).
Proof. constructor; vm_compute; intuition congruence. Qed.

Lemma node_size_128 : node_size_ok 128.
Proof. unfold node_size_ok. lia. Qed.

Lemma node0_repr : repr 128 node0 (node_init 5 EMMCFS_NODE_LEAF).
Proof.
  destruct (init_new_node_descr_repr 128 true node_size_128 blank 5 EMMCFS_NODE_LEAF) as (m & E & H);
    [lia|by vm_compute|].
  unfold node0. by rewrite E.
Qed.

Definition sample_node (l : list record) : bnode := Bnode 5 EMMCFS_NODE_LEAF 0 0 l.

Lemma node1_repr : repr 128 node1 (sample_node [sample_record 1]).
Proof.
  destruct (insert_into_node_repr 128 true node_size_128 node0 _ (sample_record 1) 0 node0_repr (sample_ok 1))
    as (m & E & H); [by vm_compute|simpl; lia|].
  unfold node1. change (Z.of_nat 0) with 0 in E. by rewrite E.
Qed.

(** ** Properties *)
Section properties.
Context (N : Z) (mounted : bool).

(** The records of a node read one by one. *)
Definition reads (m : mem) (l : list record) : Prop :=
  recs_count m = Z.of_nat (length l) /\
  forall i r, l !! i = Some r -> read_record N mounted m (Z.of_nat i) = Ok r.

Lemma repr_reads m n : node_size_ok N -> repr N m n -> reads m (bn_recs n).
Proof.
  intros HN H. split; [apply (rp_count _ _ _ H)|]. intros i r Hi. by eapply repr_read_record.
Qed.

(** [insert_into_node] puts the record at its position among the others,
    whenever [is_node_full] lets it in; what [get_record] reads afterwards is
    the list with the record inserted, and the links, type and free space are
    those of the longer list. *)
Theorem insert_into_node_correct m n r pos :
  node_size_ok N -> repr N m n -> record_ok r -> (pos <= length (bn_recs n))%nat ->
  is_node_full m r = false ->
  exists m', insert_into_node N mounted m r (Z.of_nat pos) = Ok m' /\
    repr N m' (node_insert n r pos) /\
    reads m' (take pos (bn_recs n) ++ r :: drop pos (bn_recs n)).
Proof.
  intros HN H Hr Hpos Hfull. unfold is_node_full in Hfull. apply Z.ltb_ge in Hfull.
  rewrite (ro_len _ Hr), (rp_free _ _ _ H) in Hfull.
  destruct (insert_into_node_repr N mounted HN m n r pos H Hr Hfull Hpos) as (m' & E & H').
  exists m'. split; [done|]. split; [done|]. by apply (repr_reads m' _ HN H').
Qed.

(** [delete_from_node] takes the record at the index out of the node and
    leaves the others, in their order and readable. *)
Theorem delete_from_node_correct m n i :
  node_size_ok N -> repr N m n -> (i < length (bn_recs n))%nat ->
  exists m', delete_from_node N mounted m (Z.of_nat i) = Ok m' /\
    repr N m' (node_delete n i) /\
    reads m' (take i (bn_recs n) ++ drop (S i) (bn_recs n)).
Proof.
  intros HN H Hi. destruct (delete_from_node_repr N mounted HN m n i H Hi) as (m' & E & H').
  exists m'. split; [done|]. split; [done|]. by apply (repr_reads m' _ HN H').
Qed.

(** A record inserted in a node and deleted again leaves a node with the
    same records, links and free space. *)
Theorem insert_delete_roundtrip m n r pos :
  node_size_ok N -> repr N m n -> record_ok r -> (pos <= length (bn_recs n))%nat ->
  is_node_full m r = false ->
  exists m1 m2, insert_into_node N mounted m r (Z.of_nat pos) = Ok m1 /\
    delete_from_node N mounted m1 (Z.of_nat pos) = Ok m2 /\
    repr N m2 n /\ free_space m2 = free_space m.
Proof.
  intros HN H Hr Hpos Hfull. unfold is_node_full in Hfull. apply Z.ltb_ge in Hfull.
  rewrite (ro_len _ Hr), (rp_free _ _ _ H) in Hfull.
  destruct (insert_into_node_repr N mounted HN m n r pos H Hr Hfull Hpos) as (m1 & E1 & H1).
  destruct (delete_from_node_repr N mounted HN m1 _ pos H1) as (m2 & E2 & H2).
  { unfold node_insert, set_recs. simpl. len. }
  exists m1, m2. split; [done|]. split; [done|].
  assert (node_delete (node_insert n r pos) pos = n) as En.
  { destruct n as [id ty pv nx recs]. unfold node_delete, node_insert, set_recs. simpl in *. f_equal.
    rewrite mid_take, mid_drop_S by len. apply take_drop. }
  rewrite En in H2. split; [done|]. by rewrite (rp_free _ _ _ H2), (rp_free _ _ _ H).
Qed.

(** C39: [split_node] divides a full node and the new record among two nodes:
    neither is empty, both fit, and read one after the other they give the
    records of the node with the new one at its place. *)
Theorem split_node_correct m n idx r p1 p2 id1 id2 :
  node_size_ok N -> repr N m n -> record_ok r -> (idx <= length (bn_recs n))%nat -> bn_recs n <> [] ->
  0 <= id1 < 2 ^ 32 -> 0 <= id2 < 2 ^ 32 -> 0 <= bn_type n < 2 ^ 8 ->
  small_recs N (bn_recs n) -> small_recs N [r] -> is_node_full m r = true ->
  exists m1 m2 l1 l2,
    split_data N mounted m (Z.of_nat idx) r p1 p2 id1 id2 = Some (Ok (m1, m2)) /\
    repr N m1 (Bnode id1 (bn_type n) 0 0 l1) /\ repr N m2 (Bnode id2 (bn_type n) 0 0 l2) /\
    reads m1 l1 /\ reads m2 l2 /\ l1 <> [] /\ l2 <> [] /\
    l1 ++ l2 = take idx (bn_recs n) ++ r :: drop idx (bn_recs n).
Proof.
  intros HN H Hr Hidx Hne Hid1 Hid2 Hty Hs1 Hs2 Hfull.
  unfold is_node_full in Hfull. apply Z.ltb_lt in Hfull.
  rewrite (ro_len _ Hr), (rp_free _ _ _ H) in Hfull.
  destruct (node_split N n idx r) as [l1 l2] eqn:Hsp.
  destruct (node_split_fits N n idx r l1 l2) as (Happ & Hn1 & Hn2 & Hr1 & Hr2); try done.
  { apply HN. } { apply (rp_room _ _ _ H). }
  assert (forall id l, 27 + room l <= N -> 0 <= bn_free N (Bnode id (bn_type n) 0 0 l)) as Hf.
  { intros id l Hl. unfold bn_free, sizeof_descr, sizeof_off, EMMCFS_BNODE_FIRST_OFFSET. simpl. lia. }
  destruct (split_data_repr N mounted HN m n idx r p1 p2 id1 id2 l1 l2) as (m1 & m2 & E & H1 & H2); auto.
  exists m1, m2, l1, l2. pose proof (repr_reads m1 _ HN H1). pose proof (repr_reads m2 _ HN H2). auto 10.
Qed.

(** The data part of [btree_merge] appends the records of the right node
    to those of the left one when they fit in one node, and takes over the
    right node's successor. *)
Theorem merge_data_correct ml mr nl nr :
  node_size_ok N -> repr N ml nl -> repr N mr nr -> 0 <= bn_next nr < 2 ^ 32 ->
  N <= free_space ml + free_space mr ->
  exists m', merge_data N mounted ml mr = Ok m' /\ repr N m' (node_merge nl nr) /\
    reads m' (bn_recs nl ++ bn_recs nr).
Proof.
  intros HN Hl Hr Hnx Hfree. rewrite (rp_free _ _ _ Hl), (rp_free _ _ _ Hr) in Hfree.
  destruct (merge_data_repr N mounted HN ml mr nl nr) as (m' & E & H'); try done.
  { unfold bn_free, node_merge, sizeof_descr, sizeof_off, EMMCFS_BNODE_FIRST_OFFSET in *. simpl.
    rewrite room_app. lia. }
  exists m'. split; [done|]. split; [done|]. by apply (repr_reads m' _ HN H').
Qed.

(** [get_record] accepts the index one past the last record and gives the
    address of the free space as a record, where only indices below the
    number of records have one. *)
Theorem get_record_past_the_end m n :
  node_size_ok N -> repr N m n ->
  get_record N mounted m (recs_count m) =
    Ok (N - 8 - 4 * recs_count m - free_space m).
Proof.
  intros HN H. destruct (repr_layout N m n H) as (offs & L & fso & Hl & HP & Hch & HT & He & Hge).
  pose proof (rp_room _ _ _ H) as Hroom. pose proof HN as [HN1 HN2].
  rewrite (rp_count _ _ _ H), (rp_free _ _ _ H).
  pose proof (fits_small N HN (length (bn_recs n)) ltac:(unfold sizeof_descr in *; lia)) as [Hc _].
  unfold get_record. rewrite (rp_count _ _ _ H), uwrap_small by lia.
  rewrite Z.gtb_ltb, Z.ltb_irrefl. rewrite <- Hl.
  erewrite get_offset_ok; [|done|exact HT|by apply list_lookup_middle|rewrite Hl; lia]. cbn [obind].
  rewrite is_offset_correct_ok by (done || unfold sizeof_descr, entry in *; lia).
  f_equal. unfold entry in He. rewrite Hl. lia.
Qed.
End properties.

(** ** The properties at work *)
Lemma insert_into_node_correct_witness :
  exists m', insert_into_node 128 true node1 (sample_record 2) 1 = Ok m' /\
    repr 128 m' (sample_node [sample_record 1; sample_record 2]) /\
    reads 128 true m' [sample_record 1; sample_record 2].
Proof.
  apply (insert_into_node_correct 128 true node1 (sample_node [sample_record 1]) (sample_record 2) 1).
  - exact node_size_128.
  - exact node1_repr.
  - exact (sample_ok 2).
  - simpl. lia.
  - unfold is_node_full. rewrite (rp_free _ _ _ node1_repr). by vm_compute.
Defined.

Lemma delete_from_node_correct_witness :
  exists m', delete_from_node 128 true node1 0 = Ok m' /\
    repr 128 m' (sample_node []) /\ reads 128 true m' [].
Proof.
  apply (delete_from_node_correct 128 true node1 (sample_node [sample_record 1]) 0).
  - exact node_size_128.
  - exact node1_repr.
  - simpl. lia.
Defined.

Lemma insert_delete_roundtrip_witness :
  exists m1 m2, insert_into_node 128 true node1 (sample_record 2) 0 = Ok m1 /\
    delete_from_node 128 true m1 0 = Ok m2 /\
    repr 128 m2 (sample_node [sample_record 1]) /\ free_space m2 = free_space node1.
Proof.
  apply (insert_delete_roundtrip 128 true node1 (sample_node [sample_record 1]) (sample_record 2) 0).
  - exact node_size_128.
  - exact node1_repr.
  - exact (sample_ok 2).
  - simpl. lia.
  - unfold is_node_full. rewrite (rp_free _ _ _ node1_repr). by vm_compute.
Defined.

(** A node of 128 bytes holds four records of 20 bytes. *)
Lemma node4_repr : exists m, repr 128 m (sample_node (map sample_record [1; 3; 5; 7])).
Proof.
  assert (forall m l, repr 128 m (sample_node l) -> (length l <= 3)%nat -> Forall (fun r => rlen r = 20) l ->
    forall k, exists m', repr 128 m' (sample_node (l ++ [sample_record k]))) as step.
  { intros m l H Hl HF k.
    destruct (insert_into_node_repr 128 true node_size_128 m _ (sample_record k) (length l) H (sample_ok k))
      as (m' & _ & H').
    - unfold bn_free, sizeof_descr, sizeof_off, EMMCFS_BNODE_FIRST_OFFSET. simpl bn_recs.
      change (rlen (sample_record k)) with 20.
      assert (room l = 24 * Z.of_nat (length l)) as ->; [|lia].
      clear -HF. induction HF as [|r l Hr _ IH]; [done|]. simpl room. rewrite IH, Hr. unfold sizeof_off. len.
    - simpl. lia.
    - exists m'. unfold node_insert, set_recs in H'. simpl in H'. by rewrite firstn_all, drop_all in H'. }
  assert (Forall (fun r => rlen r = 20) (map sample_record [1; 3; 5])) as HF by (by repeat constructor).
  destruct (step node1 (map sample_record [1]) node1_repr ltac:(simpl; lia) ltac:(by repeat constructor) 3) as (m2 & H2).
  destruct (step m2 (map sample_record [1; 3]) H2 ltac:(simpl; lia) ltac:(by repeat constructor) 5) as (m3 & H3).
  destruct (step m3 (map sample_record [1; 3; 5]) H3 ltac:(simpl; lia) HF 7) as (m4 & H4).
  by exists m4.
Qed.

Lemma split_node_correct_witness :
  exists m m1 m2 l1 l2,
    split_data 128 true m 1 (sample_record 2) blank blank 6 7 = Some (Ok (m1, m2)) /\
    repr 128 m1 (Bnode 6 EMMCFS_NODE_LEAF 0 0 l1) /\ repr 128 m2 (Bnode 7 EMMCFS_NODE_LEAF 0 0 l2) /\
    reads 128 true m1 l1 /\ reads 128 true m2 l2 /\ l1 <> [] /\ l2 <> [] /\
    l1 ++ l2 = map sample_record [1; 2; 3; 5; 7].
Proof.
  destruct node4_repr as [m Hm]. exists m.
  apply (split_node_correct 128 true m _ 1 (sample_record 2) blank blank 6 7 node_size_128 Hm (sample_ok 2)).
  - simpl. lia.
  - done.
  - lia.
  - lia.
  - by vm_compute.
  - repeat constructor; by vm_compute.
  - repeat constructor; by vm_compute.
  - unfold is_node_full. rewrite (rp_free _ _ _ Hm). by vm_compute.
Defined.

(** A node of 256 bytes with one record. *)
Lemma node256_repr id k : 0 <= id < 2 ^ 32 ->
  exists m, repr 256 m (Bnode id EMMCFS_NODE_LEAF 0 0 [sample_record k]).
Proof.
  intros H. assert (node_size_ok 256) as HN by (unfold node_size_ok; lia).
  destruct (init_new_node_descr_repr 256 true HN blank id EMMCFS_NODE_LEAF) as (m & _ & Hm);
    [done|by vm_compute|].
  destruct (insert_into_node_repr 256 true HN m _ (sample_record k) 0 Hm (sample_ok k)) as (m' & _ & Hm');
    [by vm_compute|simpl; lia|]. by exists m'.
Qed.

Lemma merge_data_correct_witness :
  exists ml mr m', merge_data 256 true ml mr = Ok m' /\
    repr 256 m' (sample_node [sample_record 1; sample_record 2]) /\
    reads 256 true m' [sample_record 1; sample_record 2].
Proof.
  destruct (node256_repr 5 1 ltac:(lia)) as [ml Hl]. destruct (node256_repr 6 2 ltac:(lia)) as [mr Hr].
  exists ml, mr.
  apply (merge_data_correct 256 true ml mr _ _ ltac:(unfold node_size_ok; lia) Hl Hr).
  - simpl. lia.
  - rewrite (rp_free _ _ _ Hl), (rp_free _ _ _ Hr). by vm_compute.
Defined.

Lemma get_record_past_the_end_witness :
  get_record 128 true node1 (recs_count node1) = Ok (128 - 8 - 4 * recs_count node1 - free_space node1).
Proof. exact (get_record_past_the_end 128 true node1 _ node_size_128 node1_repr). Defined.
