(* ===== verification/BnodePool.v ===== *)
(** * The nodes of a tree: allocation, release and access (bnode.c)

    The state of a B-tree in memory ([struct emmcfs_btree]): the head node with
    the height, the root and the bitmap of the used node ids, the cache of the
    mapped nodes, and the contents of the nodes.  The contents are records
    (BnodeRepr.v); the bytes that hold them are the subject of BnodeBytes.v. *)

From S2P Require Import Prelude Monad BnodeBytes BnodeRepr.
Open Scope Z_scope.

Definition EMMCFS_BNODE_CACHE_ITEMS : Z := 1000.

(** ** State *)

(** The runtime [struct emmcfs_bnode]: its id and whether its mode is
    [EMMCFS_BNODE_MODE_RW]. *)
Record handle := Handle { h_id : Z; h_rw : bool }.

(** [bits] is the bitmap, [bits_num] its length; [nodes] maps an id to the node
    its pages hold, if they bear the magic number; [dirty] are the nodes with
    dirty pages; [answers] are the results of the coming calls to the kernel
    (0 for a success, an error code otherwise), successes past the end. *)
Record btree := Btree {
  btree_height : Z;
  root_bnode_id : Z;
  bits : list bool;
  first_free_id : Z;
  free_num : Z;
  stupid_cache : gset Z;
  dirty : gset Z;
  nodes : gmap Z bnode;
  total_block_count : Z;
  answers : list Z
}.

Definition bits_num (t : btree) : Z := Z.of_nat (length (bits t)).

Definition set_answers (t : btree) a : btree :=
  Btree (btree_height t) (root_bnode_id t) (bits t) (first_free_id t) (free_num t)
    (stupid_cache t) (dirty t) (nodes t) (total_block_count t) a.
Definition set_nodes (t : btree) ns : btree :=
  Btree (btree_height t) (root_bnode_id t) (bits t) (first_free_id t) (free_num t)
    (stupid_cache t) (dirty t) ns (total_block_count t) (answers t).
Definition set_cache (t : btree) c : btree :=
  Btree (btree_height t) (root_bnode_id t) (bits t) (first_free_id t) (free_num t)
    c (dirty t) (nodes t) (total_block_count t) (answers t).
Definition set_dirty (t : btree) d : btree :=
  Btree (btree_height t) (root_bnode_id t) (bits t) (first_free_id t) (free_num t)
    (stupid_cache t) d (nodes t) (total_block_count t) (answers t).
Definition set_bitmap (t : btree) b f n : btree :=
  Btree (btree_height t) (root_bnode_id t) b f n
    (stupid_cache t) (dirty t) (nodes t) (total_block_count t) (answers t).
Definition set_head (t : btree) h r : btree :=
  Btree h r (bits t) (first_free_id t) (free_num t)
    (stupid_cache t) (dirty t) (nodes t) (total_block_count t) (answers t).
Definition set_blocks (t : btree) c : btree :=
  Btree (btree_height t) (root_bnode_id t) (bits t) (first_free_id t) (free_num t)
    (stupid_cache t) (dirty t) (nodes t) c (answers t).

(** ** Computations on the tree *)
Abbreviation M := (St btree).

(** The answer of the kernel to the next call; [kmalloc] knows one error. *)
Definition ask : M Z := fun t =>
  match answers t with
  | [] => (Ok 0, t)
  | a :: l => (Ok a, set_answers t l)
  end.
Definition kmalloc : M unit := do a <- ask; if a =? 0 then ret tt else fail (- ENOMEM).
(** A call that returns 0 or an error code. *)
Definition call : M unit := do a <- ask; if a =? 0 then ret tt else fail a.

(** ** Bits *)

(** The first clear bit from [i] on, the length if there is none. *)
Fixpoint first_zero (l : list bool) : nat :=
  match l with
  | [] => 0
  | b :: l => if b then S (first_zero l) else 0
  end.
Definition find_next_zero_bit (l : list bool) (i : Z) : Z :=
  Z.min (Z.of_nat (length l)) (i + Z.of_nat (first_zero (drop (Z.to_nat i) l))).

Definition weight (l : list bool) : Z := Z.of_nat (length (filter (fun b => b = true) l)).

Section pool.
(** [IS_MOUNT_FINISHED], the bits in memory behind the bitmap, and the size of
    the file once [emmcfs_get_block] has provided the pages of a node. *)
Context (mounted : bool) (beyond : Z -> bool) (grow : Z -> Z -> Z).

Definition mfault {A} : M A := if mounted then bug else fail (- EFAULT).

(** [EMMCFS_ADD_CHUNK]: an error of the journal stops the kernel once the mount
    is finished. *)
Definition add_chunk : M unit :=
  do r <- try call;
  match r with Ok _ => ret tt | Err e => if mounted then bug else fail e | Bug => bug end.

Definition test_bit (id : Z) (l : list bool) : bool := default (beyond id) (l !! Z.to_nat id).

Definition blank_node : bnode := Bnode 0 0 0 0 [].

(** [__get_bnode], without [CONFIG_EMMCFS_CRC_CHECK]. *)
Definition __get_bnode (node_id : Z) (create rw : bool) : M handle :=
  do_ kmalloc;
  do_ kmalloc;
  do_ call;
  do_ (if create then modify (fun t => set_blocks t (grow (total_block_count t) node_id)) else ret tt);
  do_ kmalloc;
  do ns <- gets nodes;
  if create then
    do_ modify (fun t => set_nodes t (<[node_id := default blank_node (ns !! node_id)]> ns));
    ret (Handle node_id rw)
  else if negb (node_id =? 0) && bool_decide (ns !! node_id = None) then fail (- ENOENT)
  else ret (Handle node_id rw).

(** [get_bnode_cache], [add_bnode_cache] *)
Definition get_bnode_cache (t : btree) (node_id : Z) (rw : bool) : option handle :=
  if node_id >=? EMMCFS_BNODE_CACHE_ITEMS then None
  else if bool_decide (node_id ∈ stupid_cache t) then Some (Handle node_id rw) else None.

Definition add_bnode_cache (t : btree) (node_id : Z) : btree :=
  if node_id <? EMMCFS_BNODE_CACHE_ITEMS then set_cache t ({[node_id]} ∪ stupid_cache t) else t.

Definition emmcfs_get_bnode (node_id : Z) (rw : bool) : M handle :=
  do b <- gets bits;
  if negb (node_id =? 0) && negb (test_bit node_id b) then fail (- ENOENT)
  else
    do c <- gets (fun t => get_bnode_cache t node_id rw);
    do h <- match c with
            | Some h => ret h
            | None =>
              do h <- __get_bnode node_id false rw;
              do_ modify (fun t => add_bnode_cache t node_id);
              ret h
            end;
    do d <- gets dirty;
    do_ (if rw && negb (bool_decide (node_id ∈ d)) && negb (node_id =? 0) then add_chunk else ret tt);
    ret h.

(** [__put_bnode]: the cached node stays mapped when [keep_in_cache]. *)
Definition __put_bnode (h : handle) (keep_in_cache : bool) : M unit :=
  if (h_id h <? EMMCFS_BNODE_CACHE_ITEMS) && negb keep_in_cache
  then modify (fun t => set_cache t (stupid_cache t ∖ {[h_id h]}))
  else ret tt.
Definition emmcfs_put_bnode (h : handle) : M unit := __put_bnode h true.
Definition emmcfs_put_cache_bnode (h : handle) : M unit := __put_bnode h false.

Definition emmcfs_mark_bnode_dirty (h : handle) : M unit :=
  do_ BUG_ON (negb (h_rw h));
  modify (fun t => set_dirty t ({[h_id h]} ∪ dirty t)).

(** The head bnode: of a tree that is written, it is in the mode for it. *)
Definition head_bnode : handle := Handle 0 true.

Definition emmcfs_alloc_new_bnode : M handle :=
  do n <- gets free_num;
  if n =? 0 then fail (- ENOSPC)
  else
    do_ add_chunk;
    do id <- gets first_free_id;
    do b <- gets bits;
    do_ BUG_ON (test_bit id b);
    do_ modify (fun t => set_bitmap t (<[Z.to_nat id := true]> (bits t)) (first_free_id t) (free_num t));
    do_ emmcfs_mark_bnode_dirty head_bnode;
    do r <- try (__get_bnode id true true);
    match r with
    | Ok h =>
      do_ modify (fun t => set_bitmap t (bits t) (find_next_zero_bit (bits t) id) (free_num t - 1));
      do_ emmcfs_mark_bnode_dirty head_bnode;
      do_ modify (fun t => add_bnode_cache t id);
      ret h
    | Err e =>
      do_ modify (fun t => set_bitmap t (<[Z.to_nat id := false]> (bits t)) (first_free_id t) (free_num t));
      fail e
    | Bug => bug
    end.

Definition emmcfs_prealloc_bnode_reserve (alloc_to_bnode_id : Z) : M unit :=
  do h <- __get_bnode alloc_to_bnode_id true true;
  emmcfs_put_cache_bnode h.

Definition emmcfs_destroy_bnode (h : handle) : M unit :=
  do_ BUG_ON (h_id h =? EMMCFS_INVALID_NODE_ID);
  do_ __put_bnode h false;
  do_ add_chunk;
  do b <- gets bits;
  if negb (test_bit (h_id h) b) then mfault
  else
    do_ modify (fun t => set_bitmap t (<[Z.to_nat (h_id h) := false]> (bits t)) (first_free_id t) (free_num t));
    do_ emmcfs_mark_bnode_dirty head_bnode;
    modify (fun t => set_bitmap t (bits t)
      (if first_free_id t >? h_id h then h_id h else first_free_id t) (free_num t + 1)).

(** [build_free_bnode_bitmap]: the counters from the bits on the device. *)
Definition build_free_bnode_bitmap (data : list bool) (start_bnode_id : Z) : M unit :=
  do_ kmalloc;
  modify (fun t => set_bitmap t data (find_next_zero_bit data 0 + start_bnode_id)
    (Z.of_nat (length data) - weight data)).
End pool.
