(* ===== verification/BnodePoolProofs.v ===== *)
(** * Invariant of the nodes of a tree

    The equivalence of states that differ only in what the kernel keeps, and the
    behaviour of each operation of bnode.c. *)

From S2P Require Import Prelude Monad BnodeBytes BnodeRepr BnodePool.
Open Scope Z_scope.

(** ** States that differ only in the cache, the dirty pages, the size of the
    file and the coming answers of the kernel *)
Record sim (t t' : btree) : Prop := {
  sim_height : btree_height t = btree_height t';
  sim_root : root_bnode_id t = root_bnode_id t';
  sim_bits : bits t = bits t';
  sim_first : first_free_id t = first_free_id t';
  sim_num : free_num t = free_num t';
  sim_nodes : nodes t = nodes t'
}.
Infix "≈" := sim (at level 70) : emmcfs_scope.

#[export] Instance sim_equiv : Equivalence sim.
Proof.
  split.
  - by intros t.
  - by intros t t' [].
  - intros t t' t'' [] []. split; congruence.
Qed.

#[export] Instance set_nodes_proper : Proper (sim ==> eq ==> sim) set_nodes.
Proof. intros t t' [] ns ? <-. by split. Qed.
#[export] Instance set_bitmap_proper : Proper (sim ==> eq ==> eq ==> eq ==> sim) set_bitmap.
Proof. intros t t' [] b ? <- f ? <- n ? <-. by split. Qed.
#[export] Instance set_head_proper : Proper (sim ==> eq ==> eq ==> sim) set_head.
Proof. intros t t' [] h ? <- r ? <-. by split. Qed.

Lemma set_answers_sim t a : set_answers t a ≈ t.
Proof. by split. Qed.
Lemma set_cache_sim t c : set_cache t c ≈ t.
Proof. by split. Qed.
Lemma set_dirty_sim t d : set_dirty t d ≈ t.
Proof. by split. Qed.
Lemma set_blocks_sim t c : set_blocks t c ≈ t.
Proof. by split. Qed.
Lemma set_nodes_sim t : set_nodes t (nodes t) ≈ t.
Proof. by split. Qed.

#[export] Hint Resolve set_answers_sim set_cache_sim set_dirty_sim set_blocks_sim set_nodes_sim : bnode.

(** All the coming calls to the kernel succeed. *)
Definition calm (t : btree) : Prop := Forall (fun a => a = 0) (answers t).

(** ** Calls *)
Section calls.
Implicit Types (t : btree).

(** The state changes in nothing but the answers; whether the call succeeds
    is up to the kernel, unless it is calm. *)
Lemma wp_call t (Q : outcome unit -> btree -> Prop) :
  (forall r t', t' ≈ t -> stupid_cache t' = stupid_cache t -> dirty t' = dirty t ->
     (calm t -> calm t' /\ r = Ok tt) -> r <> Bug -> Q r t') ->
  wp call t Q.
Proof.
  intros H. unfold wp, call, bind, ask. destruct (answers t) as [|a l] eqn:E; simpl.
  - by apply H.
  - destruct (Z.eqb_spec a 0) as [->|Ha]; simpl; apply H; try done;
      intros Hc; unfold calm in *; rewrite E in Hc; by apply Forall_cons in Hc as [? ?].
Qed.

Lemma wp_kmalloc t (Q : outcome unit -> btree -> Prop) :
  (forall r t', t' ≈ t -> stupid_cache t' = stupid_cache t -> dirty t' = dirty t ->
     (calm t -> calm t' /\ r = Ok tt) -> r <> Bug -> Q r t') ->
  wp kmalloc t Q.
Proof.
  intros H. unfold wp, kmalloc, bind, ask. destruct (answers t) as [|a l] eqn:E; simpl.
  - by apply H.
  - destruct (Z.eqb_spec a 0) as [->|Ha]; simpl; apply H; try done;
      intros Hc; unfold calm in *; rewrite E in Hc; by apply Forall_cons in Hc as [? ?].
Qed.

Lemma wp_call_ok t (Q : unit -> btree -> Prop) :
  calm t -> (forall t', t' ≈ t -> calm t' -> Q tt t') -> wp call t (ok Q).
Proof. intros Hc H. apply wp_call. intros r t' Hs _ _ Hr _. destruct (Hr Hc) as [Hc' ->]. by apply H. Qed.

Lemma wp_kmalloc_ok t (Q : unit -> btree -> Prop) :
  calm t -> (forall t', t' ≈ t -> calm t' -> Q tt t') -> wp kmalloc t (ok Q).
Proof. intros Hc H. apply wp_kmalloc. intros r t' Hs _ _ Hr _. destruct (Hr Hc) as [Hc' ->]. by apply H. Qed.
End calls.

(** ** Bits *)
Lemma first_zero_spec (l : list bool) :
  (first_zero l <= length l)%nat /\ (forall i, (i < first_zero l)%nat -> l !! i = Some true) /\
  ((first_zero l < length l)%nat -> l !! first_zero l = Some false).
Proof.
  induction l as [|[] l (IH1 & IH2 & IH3)]; simpl; split_and!; try lia.
  - intros [|i] Hi; [done|]. apply IH2. lia.
  - intros Hi. apply IH3. lia.
  - done.
Qed.

(** The first clear bit, the length if there is none. *)
Definition is_first_zero (l : list bool) (i : Z) : Prop :=
  0 <= i <= Z.of_nat (length l) /\ (forall j, 0 <= j < i -> l !! Z.to_nat j = Some true) /\
  (i < Z.of_nat (length l) -> l !! Z.to_nat i = Some false).

Lemma find_next_zero_bit_spec l i : 0 <= i <= Z.of_nat (length l) ->
  (forall j, 0 <= j < i -> l !! Z.to_nat j = Some true) ->
  is_first_zero l (find_next_zero_bit l i).
Proof.
  intros Hi Hlow. unfold find_next_zero_bit.
  destruct (first_zero_spec (drop (Z.to_nat i) l)) as (H1 & H2 & H3). rewrite length_drop in H1, H3.
  rewrite Z.min_r by lia. split; [lia|]. split.
  - intros j Hj. destruct (decide (j < i)) as [Hlt|Hge]; [apply Hlow; lia|].
    specialize (H2 (Z.to_nat j - Z.to_nat i)%nat ltac:(lia)). rewrite lookup_drop in H2.
    rewrite <- H2. f_equal. lia.
  - intros Hlt. specialize (H3 ltac:(lia)). rewrite lookup_drop in H3. rewrite <- H3. f_equal. lia.
Qed.

Lemma weight_insert (l : list bool) (i : nat) (b b' : bool) : l !! i = Some b -> 
  weight (<[i := b']> l) = weight l + (if b' then 1 else 0) - (if b then 1 else 0).
Proof.
  intros Hi. apply list_elem_of_split_length in Hi as (l1 & l2 & -> & ->).
  rewrite mid_insert by done. unfold weight. rewrite !filter_app, !filter_cons.
  destruct b, b'; simpl; rewrite !length_app; simpl; lia.
Qed.

Lemma weight_le l : 0 <= weight l <= Z.of_nat (length l).
Proof.
  unfold weight. pose proof (length_filter (fun b => b = true) l). lia.
Qed.

Lemma weight_full (l : list bool) (i : nat) : l !! i = Some false -> weight l < Z.of_nat (length l).
Proof.
  intros Hi. pose proof (weight_insert l i false true Hi) as H. simpl in H.
  pose proof (weight_le (<[i:=true]> l)) as H2. rewrite length_insert in H2. lia.
Qed.

Lemma weight_all (l : list bool) : (forall i, (i < length l)%nat -> l !! i = Some true) -> weight l = Z.of_nat (length l).
Proof.
  induction l as [|b l IH]; intros H; [done|]. pose proof (H 0%nat ltac:(simpl; lia)) as Hb.
  simpl in Hb. simplify_eq. unfold weight in *. rewrite filter_cons_True by done. simpl.
  rewrite !Nat2Z.inj_succ. rewrite IH; [done|]. intros i Hi. apply (H (S i)). simpl. lia.
Qed.

(** Different bits that are set weigh as much as they are many. *)
Lemma weight_count (ns : list nat) : forall l : list bool, NoDup ns -> Forall (fun n => l !! n = Some true) ns ->
  Z.of_nat (length ns) <= weight l.
Proof.
  induction ns as [|n ns IH]; intros l; [intros _ _; unfold weight; simpl; lia|].
  intros [Hn Hnd]%NoDup_cons [Hb Hbs]%Forall_cons.
  specialize (IH (<[n := false]> l) Hnd). rewrite (weight_insert _ _ _ _ Hb) in IH. cbn [length].
  enough (Forall (fun m => <[n := false]> l !! m = Some true) ns) as H; [specialize (IH H); simpl in IH; lia|].
  apply Forall_forall. intros m Hm. rewrite Forall_forall in Hbs. rewrite list_lookup_insert_ne; [auto|]. by intros ->.
Qed.

(** ** The invariant *)
Definition used (t : btree) (id : Z) : Prop := 0 < id /\ bits t !! Z.to_nat id = Some true.

Record pool_inv (t : btree) : Prop := {
  pi_num : free_num t = bits_num t - weight (bits t);
  pi_first : is_first_zero (bits t) (first_free_id t);
  pi_head : bits t !! 0%nat = Some true;
  pi_nodes : forall id, used t id -> is_Some (nodes t !! id)
}.

#[export] Instance used_proper : Proper (sim ==> eq ==> iff) used.
Proof. intros t t' H id ? <-. unfold used. by rewrite (sim_bits _ _ H). Qed.

#[export] Instance pool_inv_proper : Proper (sim ==> iff) pool_inv.
Proof.
  assert (forall t t', t ≈ t' -> pool_inv t -> pool_inv t') as H.
  { intros t t' Hs [H1 H2 H3 H4]. pose proof Hs as [Eh Er Eb Ef En Ens]. unfold bits_num in *.
    constructor; unfold bits_num; rewrite <- ?Eb, <- ?Ef, <- ?En, <- ?Ens; auto.
    intros id Hu. apply H4. by rewrite Hs. }
  intros t t' Hs. split; apply H; by rewrite Hs.
Qed.

(** The state after [emmcfs_alloc_new_bnode] and [emmcfs_destroy_bnode]. *)
Definition after_alloc (t : btree) : btree :=
  let id := first_free_id t in
  let b := <[Z.to_nat id := true]> (bits t) in
  set_bitmap (set_nodes t (<[id := default blank_node (nodes t !! id)]> (nodes t)))
    b (find_next_zero_bit b id) (free_num t - 1).

Definition after_destroy (t : btree) (id : Z) : btree :=
  set_bitmap t (<[Z.to_nat id := false]> (bits t)) (Z.min (first_free_id t) id) (free_num t + 1).

Section pool.
Context (mounted : bool) (beyond : Z -> bool) (grow : Z -> Z -> Z).
Implicit Types (t : btree).

Lemma first_free_clear t : pool_inv t -> free_num t <> 0 ->
  0 < first_free_id t < bits_num t /\ bits t !! Z.to_nat (first_free_id t) = Some false.
Proof.
  intros [H1 (H2 & H3 & H4) H5 _] Hn. unfold bits_num in *.
  assert (first_free_id t < Z.of_nat (length (bits t))) as Hlt.
  { destruct (decide (first_free_id t < Z.of_nat (length (bits t)))) as [|Hge]; [done|].
    exfalso. apply Hn. rewrite H1. rewrite (weight_all (bits t)); [lia|]. intros i Hi.
    rewrite <- (Nat2Z.id i). apply H3. lia. }
  specialize (H4 Hlt). split; [|done]. split; [|done].
  destruct (decide (first_free_id t = 0)) as [E|]; [|lia]. rewrite E in H4.
  change (Z.to_nat 0) with 0%nat in H4. congruence.
Qed.

Lemma after_alloc_inv t : pool_inv t -> free_num t <> 0 -> pool_inv (after_alloc t).
Proof.
  intros H Hn. destruct (first_free_clear t H Hn) as [Hlt Hbit]. destruct H as [H1 (H2 & H3 & H4) H5 H6].
  unfold after_alloc. set (id := first_free_id t) in *. set (b := <[Z.to_nat id := true]> (bits t)).
  assert (length b = length (bits t)) as El by apply length_insert.
  unfold bits_num in *. constructor; simpl; unfold bits_num; simpl.
  - unfold b. rewrite (weight_insert _ _ _ _ Hbit), length_insert. lia.
  - apply find_next_zero_bit_spec; [lia|]. intros j Hj. unfold b.
    rewrite list_lookup_insert_ne by lia. apply H3. lia.
  - unfold b. rewrite list_lookup_insert_ne by lia. done.
  - intros id' [Hp Hu]. simpl in Hu. destruct (decide (id' = id)) as [->|Hne].
    + rewrite lookup_insert_eq. by eexists.
    + rewrite lookup_insert_ne by done. apply H6. split; [done|].
      unfold b in Hu. rewrite list_lookup_insert_ne in Hu; [done|]. lia.
Qed.

Lemma after_destroy_inv t id : pool_inv t -> used t id -> pool_inv (after_destroy t id).
Proof.
  intros [H1 (H2 & H3 & H4) H5 H6] [Hp Hu]. pose proof (lookup_lt_Some _ _ _ Hu) as Hlt.
  unfold after_destroy, bits_num in *. constructor; simpl; unfold bits_num; simpl.
  - rewrite (weight_insert _ _ _ _ Hu), length_insert. lia.
  - split; [rewrite length_insert; lia|]. split.
    + intros j Hj. rewrite list_lookup_insert_ne by lia. apply H3. lia.
    + rewrite length_insert. intros Hm. destruct (decide (id <= first_free_id t)).
      * rewrite Z.min_r by lia. by rewrite list_lookup_insert_eq by done.
      * rewrite Z.min_l in * by lia. rewrite list_lookup_insert_ne by lia. apply H4. lia.
  - rewrite list_lookup_insert_ne by lia. done.
  - intros id' [Hp' Hu']. simpl in Hu'. apply H6. split; [done|].
    destruct (decide (id' = id)) as [->|Hne].
    + by rewrite list_lookup_insert_eq in Hu' by done.
    + rewrite list_lookup_insert_ne in Hu' by lia. done.
Qed.

(** [EMMCFS_ADD_CHUNK] *)
Lemma wp_add_chunk t (Q : outcome unit -> btree -> Prop) :
  (forall t', t' ≈ t -> (calm t -> calm t') -> Q (Ok tt) t') ->
  (forall e t', t' ≈ t -> ~ calm t -> Q (Err e) t') ->
  (forall t', ~ calm t -> mounted = true -> Q Bug t') ->
  wp (add_chunk mounted) t Q.
Proof.
  intros Hok Herr Hbug. unfold add_chunk. apply wp_try, wp_call. intros [[]|e|] t' S _ _ C B; [| |done].
  - apply wp_ret, Hok; [done|]. intros Hc. by apply C.
  - assert (~ calm t) as Hn by (by intros [_ ?]%C). destruct mounted; [by apply Hbug|by apply wp_fail, Herr].
Qed.

(** [__get_bnode] *)
Lemma wp_create_bnode t id rw (Q : outcome handle -> btree -> Prop) :
  (forall t', t' ≈ set_nodes t (<[id := default blank_node (nodes t !! id)]> (nodes t)) ->
     (calm t -> calm t') -> Q (Ok (Handle id rw)) t') ->
  (forall e t', t' ≈ t -> ~ calm t -> Q (Err e) t') ->
  wp (__get_bnode grow id true rw) t Q.
Proof.
  intros Hok Herr. unfold __get_bnode.
  apply wp_bind, wp_kmalloc. intros [[]|e|] t1 S1 _ _ C1 B1; [|apply Herr; [done|]; by intros [_ ?]%C1|done].
  apply wp_bind, wp_kmalloc. intros [[]|e|] t2 S2 _ _ C2 B2;
    [|apply Herr; [by rewrite S2|]; intros [Hc ?]%C1; by apply C2 in Hc as [_ ?]|done].
  apply wp_bind, wp_call. intros [[]|e|] t3 S3 _ _ C3 B3;
    [|apply Herr; [by rewrite S3, S2|]; intros [[[_ ?]%C3 _]%C2 _]%C1; done|done].
  apply wp_modify.
  apply wp_bind, wp_kmalloc. intros [[]|e|] t4 S4 _ _ C4 B4; [| |done]; cycle 1.
  { apply Herr; [by rewrite S4, set_blocks_sim, S3, S2|].
    intros [[[Hc _]%C3 _]%C2 _]%C1. destruct (C4 Hc) as [_ ?]. done. }
  assert (t4 ≈ t) as S by (by rewrite S4, set_blocks_sim, S3, S2).
  apply wp_gets, wp_modify, wp_ret. rewrite (sim_nodes _ _ S).
  apply Hok; [by rewrite S|]. intros [[[Hc _]%C3 _]%C2 _]%C1. by destruct (C4 Hc).
Qed.

Lemma wp_mark_dirty h t {B} (f : unit -> M B) Q : h_rw h = true ->
  (forall t', t' ≈ t -> (calm t -> calm t') -> wp (f tt) t' Q) ->
  wp (bind (emmcfs_mark_bnode_dirty h) f) t Q.
Proof.
  intros Hrw H. unfold emmcfs_mark_bnode_dirty. apply wp_bind. apply wp_BUG_ON; [by rewrite Hrw|].
  unfold wp at 1, modify. simpl. by apply H.
Qed.

Lemma wp_put_bnode h keep t {B} (f : unit -> M B) Q :
  (forall t', t' ≈ t -> (calm t -> calm t') -> wp (f tt) t' Q) ->
  wp (bind (__put_bnode h keep) f) t Q.
Proof.
  intros Hf. unfold __put_bnode. destruct (_ && _).
  - apply wp_modify, Hf; [apply set_cache_sim|done].
  - by apply wp_bind, wp_ret, Hf.
Qed.

Lemma add_bnode_cache_sim t id : add_bnode_cache t id ≈ t.
Proof. unfold add_bnode_cache. destruct (_ <? _); [apply set_cache_sim|done]. Qed.

Lemma add_bnode_cache_calm t id : calm t -> calm (add_bnode_cache t id).
Proof. unfold add_bnode_cache. by destruct (_ <? _). Qed.

(** [emmcfs_alloc_new_bnode] on every branch. *)
Lemma wp_alloc t (Q : outcome handle -> btree -> Prop) : pool_inv t ->
  (free_num t <> 0 -> forall t', t' ≈ after_alloc t -> (calm t -> calm t') ->
     Q (Ok (Handle (first_free_id t) true)) t') ->
  (free_num t = 0 -> Q (Err (- ENOSPC)) t) ->
  (forall e t', free_num t <> 0 -> ~ calm t -> t' ≈ t -> Q (Err e) t') ->
  (forall t', ~ calm t -> mounted = true -> Q Bug t') ->
  wp (emmcfs_alloc_new_bnode mounted beyond grow) t Q.
Proof.
  intros Hinv Hok Hfull Herr Hbug. unfold emmcfs_alloc_new_bnode. apply wp_gets.
  destruct (Z.eqb_spec (free_num t) 0) as [Hz|Hn]; [by apply wp_fail, Hfull|].
  destruct (first_free_clear t Hinv Hn) as [Hlt Hbit].
  apply wp_bind, wp_add_chunk; [|intros e t1 S1 C1; by apply Herr|done]. intros t1 S1 C1.
  apply wp_gets, wp_gets. rewrite (sim_first _ _ S1), (sim_bits _ _ S1). set (id := first_free_id t) in *.
  apply wp_BUG_ON; [by unfold test_bit; rewrite Hbit|].
  apply wp_modify. apply wp_mark_dirty; [done|]. intros t2 S2 C2.
  assert (t2 ≈ set_bitmap t (<[Z.to_nat id := true]> (bits t)) id (free_num t)) as E2.
  { rewrite S2, (sim_bits _ _ S1), (sim_first _ _ S1), (sim_num _ _ S1). by rewrite S1. }
  apply wp_try, wp_create_bnode.
  - intros t3 S3 C3. apply wp_modify. apply wp_mark_dirty; [done|]. intros t4 S4 C4.
    apply wp_modify, wp_ret. apply Hok; [done| |].
    + rewrite add_bnode_cache_sim, S4, (sim_bits _ _ S3), (sim_num _ _ S3). simpl.
      rewrite S3. rewrite (sim_bits _ _ E2), (sim_num _ _ E2), (sim_nodes _ _ E2). simpl.
      unfold after_alloc. fold id. split; try done; simpl; [apply E2|apply E2].
    + intros Hc. by apply add_bnode_cache_calm, C4, C3, C2, C1.
  - intros e t3 S3 C3. apply wp_modify, wp_fail. apply Herr; [done| |].
    + intros Hc. by apply C3, C2, C1.
    + rewrite (sim_bits _ _ S3), (sim_first _ _ S3), (sim_num _ _ S3), S3.
      rewrite (sim_bits _ _ E2), (sim_first _ _ E2), (sim_num _ _ E2). simpl.
      rewrite list_insert_insert_eq, list_insert_id by done.
      split; simpl; try done; apply E2.
Qed.

(** [emmcfs_get_bnode] of a node of the tree, on every branch. *)
Lemma wp_get_bnode t id rw (Q : outcome handle -> btree -> Prop) : pool_inv t -> used t id ->
  (forall t', t' ≈ t -> (calm t -> calm t') -> Q (Ok (Handle id rw)) t') ->
  (forall e t', t' ≈ t -> ~ calm t -> Q (Err e) t') ->
  (forall t', ~ calm t -> mounted = true -> Q Bug t') ->
  wp (emmcfs_get_bnode mounted beyond grow id rw) t Q.
Proof.
  intros Hinv Hu Hok Herr Hbug. pose proof Hu as [Hp Hbit]. unfold emmcfs_get_bnode. apply wp_gets.
  rewrite (proj2 (Z.eqb_neq id 0)) by lia. unfold test_bit. rewrite Hbit. cbn [negb andb default].
  apply wp_gets. destruct (pi_nodes _ Hinv id Hu) as [n Hn].
  assert (forall t1, t1 ≈ t -> (calm t -> calm t1) ->
    wp (do d <- gets dirty;
        do_ (if rw && negb (bool_decide (id ∈ d)) && negb false then add_chunk mounted else ret tt);
        ret (Handle id rw)) t1 Q) as Hrest.
  { intros t1 S1 C1. apply wp_gets. destruct (_ && negb false).
    - apply wp_bind, wp_add_chunk.
      + intros t2 S2 C2. apply wp_ret, Hok; [by rewrite S2|]. auto.
      + intros e t2 S2 C2. apply Herr; [by rewrite S2|]. auto.
      + intros t2 C2 Hm. apply Hbug; [|done]. auto.
    - by apply wp_ret, Hok. }
  destruct (get_bnode_cache t id rw) as [h|] eqn:Ec.
  - assert (h = Handle id rw) as ->.
    { unfold get_bnode_cache in Ec. destruct (_ >=? _); [done|]. case_bool_decide; by simplify_eq. }
    by apply Hrest.
  - apply wp_bind, wp_bind. unfold __get_bnode.
    apply wp_bind, wp_kmalloc. intros [[]|e|] t1 S1 _ _ C1 B1; [|apply Herr; [done|]; by intros [_ ?]%C1|done].
    apply wp_bind, wp_kmalloc. intros [[]|e|] t2 S2 _ _ C2 B2;
      [|apply Herr; [by rewrite S2|]; intros [Hc ?]%C1; by apply C2 in Hc as [_ ?]|done].
    apply wp_bind, wp_call. intros [[]|e|] t3 S3 _ _ C3 B3;
      [|apply Herr; [by rewrite S3, S2|]; intros [[[_ ?]%C3 _]%C2 _]%C1; done|done].
    apply wp_bind, wp_ret.
    apply wp_bind, wp_kmalloc. intros [[]|e|] t4 S4 _ _ C4 B4; [| |done]; cycle 1.
    { apply Herr; [by rewrite S4, S3, S2|].
      intros [[[Hc _]%C3 _]%C2 _]%C1. destruct (C4 Hc) as [_ ?]. done. }
    assert (t4 ≈ t) as S by (by rewrite S4, S3, S2).
    apply wp_gets. rewrite (proj2 (Z.eqb_neq id 0)) by lia. rewrite (sim_nodes _ _ S), Hn.
    rewrite bool_decide_eq_false_2 by done. cbn [negb andb]. apply wp_ret, wp_modify, wp_ret.
    apply Hrest; [by rewrite add_bnode_cache_sim|].
    intros [[[Hc _]%C3 _]%C2 _]%C1. apply add_bnode_cache_calm. by destruct (C4 Hc).
Qed.

Lemma get_bnode_unused t id rw : 0 < id < bits_num t -> ~ used t id ->
  emmcfs_get_bnode mounted beyond grow id rw t = (Err (- ENOENT), t).
Proof.
  unfold bits_num. intros Hid Hu. unfold emmcfs_get_bnode, bind, gets.
  rewrite (proj2 (Z.eqb_neq id 0)) by lia. unfold test_bit.
  destruct (lookup_lt_is_Some_2 (bits t) (Z.to_nat id) ltac:(lia)) as [[] Hb]; rewrite Hb; [|done].
  exfalso. apply Hu. split; [lia|done].
Qed.

(** [emmcfs_destroy_bnode] of a node of the tree, on every branch. *)
Lemma wp_destroy t h (Q : outcome unit -> btree -> Prop) : used t (h_id h) ->
  (forall t', t' ≈ after_destroy t (h_id h) -> (calm t -> calm t') -> Q (Ok tt) t') ->
  (forall e t', t' ≈ t -> ~ calm t -> Q (Err e) t') ->
  (forall t', ~ calm t -> mounted = true -> Q Bug t') ->
  wp (emmcfs_destroy_bnode mounted beyond h) t Q.
Proof.
  intros [Hp Hbit] Hok Herr Hbug. unfold emmcfs_destroy_bnode, EMMCFS_INVALID_NODE_ID.
  apply wp_BUG_ON; [by apply Z.eqb_neq; lia|].
  apply wp_put_bnode. intros t1 S1 C1.
  apply wp_bind, wp_add_chunk;
    [|intros e t2 S2 C2; apply Herr; [by rewrite S2|auto]|intros t2 C2 Hm; apply Hbug; [auto|done]].
  intros t2 S2 C2. assert (t2 ≈ t) as S by (by rewrite S2). apply wp_gets.
  unfold test_bit. rewrite (sim_bits _ _ S), Hbit. cbn [negb default].
  apply wp_modify. apply wp_mark_dirty; [done|]. intros t3 S3 C3. unfold wp, modify. simpl.
  assert (t3 ≈ set_bitmap t (<[Z.to_nat (h_id h) := false]> (bits t)) (first_free_id t) (free_num t)) as E.
  { rewrite S3, (sim_bits _ _ S), (sim_first _ _ S), (sim_num _ _ S). by rewrite S. }
  apply Hok.
  - rewrite (sim_bits _ _ E), (sim_first _ _ E), (sim_num _ _ E). simpl. unfold after_destroy.
    replace (if first_free_id t >? h_id h then h_id h else first_free_id t)
      with (Z.min (first_free_id t) (h_id h)) by (destruct (Z.gtb_spec (first_free_id t) (h_id h)); lia).
    split; simpl; try done; apply E.
  - intros Hc. auto.
Qed.

(** The release of an id that is not in use. *)
Lemma wp_destroy_unused t h (Q : outcome unit -> btree -> Prop) :
  0 < h_id h -> bits t !! Z.to_nat (h_id h) = Some false ->
  (mounted = true -> forall t', Q Bug t') ->
  (forall e t', t' ≈ t -> (calm t -> e = - EFAULT /\ mounted = false) -> Q (Err e) t') ->
  wp (emmcfs_destroy_bnode mounted beyond h) t Q.
Proof.
  intros Hp Hbit Hbug Herr. unfold emmcfs_destroy_bnode, EMMCFS_INVALID_NODE_ID.
  apply wp_BUG_ON; [apply Z.eqb_neq; lia|]. apply wp_put_bnode. intros t1 S1 C1.
  apply wp_bind, wp_add_chunk.
  - intros t2 S2 C2. assert (t2 ≈ t) as S by (by rewrite S2). apply wp_gets.
    unfold test_bit. rewrite (sim_bits _ _ S), Hbit. simpl negb. cbv iota.
    unfold mfault. destruct mounted eqn:Em; [by apply Hbug|]. by apply wp_fail, Herr.
  - intros e t2 S2 C2. apply Herr; [by rewrite S2|]. intros Hc. by destruct (C2 (C1 Hc)).
  - intros t2 _ Hm. by apply Hbug.
Qed.
End pool.
