(* ===== verification/BnodePoolTheorems.v ===== *)
(** * The properties of bnode.c

    Allocation, release and access of the nodes of a tree, on every branch. *)

From S2P Require Import Prelude Monad BnodeBytes BnodeRepr BnodePool BnodePoolProofs.
Open Scope Z_scope.

Section properties.
Context (mounted : bool) (beyond : Z -> bool) (grow : Z -> Z -> Z).

(** [build_free_bnode_bitmap] establishes the invariant of the bitmap: the
    counter is the number of clear bits and [first_free_id] the first of them;
    without memory it changes nothing. *)
Theorem build_free_bnode_bitmap_correct t data :
  data !! 0%nat = Some true ->
  (forall id, 0 < id -> data !! Z.to_nat id = Some true -> is_Some (nodes t !! id)) ->
  match build_free_bnode_bitmap data 0 t with
  | (Ok tt, t') => pool_inv t' /\ bits t' = data /\ nodes t' = nodes t
  | (Err e, t') => e = - ENOMEM /\ t' ≈ t
  | (Bug, _) => False
  end.
Proof.
  intros H0 Hn. unfold build_free_bnode_bitmap, bind, kmalloc, ask.
  assert (forall t1, nodes t1 = nodes t ->
    pool_inv (set_bitmap t1 data (find_next_zero_bit data 0 + 0) (Z.of_nat (length data) - weight data))) as Hinv.
  { intros t1 E. constructor; simpl; unfold bits_num; simpl; try done.
    - rewrite Z.add_0_r. apply find_next_zero_bit_spec; [lia|]. intros j Hj. lia.
    - intros id [Hp Hu]. rewrite E. by apply Hn. }
  unfold bind. destruct (answers t) as [|a l]; simpl; [by auto|].
  destruct (a =? 0); simpl; [by auto|]. split; [done|]. by split.
Qed.

(** [emmcfs_alloc_new_bnode] gives the lowest id that is not in use and
    keeps the invariant; when there is none it fails with [-ENOSPC], and when
    the kernel refuses memory, a page or the journal, the bitmap is as before.
    Only an error of the journal stops the kernel, once the mount is finished. *)
Theorem emmcfs_alloc_new_bnode_correct t :
  pool_inv t ->
  match emmcfs_alloc_new_bnode mounted beyond grow t with
  | (Ok h, t') =>
    let id := h_id h in
    h_rw h = true /\ 0 < id < bits_num t /\ ~ used t id /\
    (forall id', 0 < id' < id -> used t id') /\
    (forall id', used t' id' <-> used t id' \/ id' = id) /\
    (forall id', id' <> id -> nodes t' !! id' = nodes t !! id') /\
    free_num t' = free_num t - 1 /\ pool_inv t'
  | (Err e, t') => t' ≈ t /\ (calm t -> e = - ENOSPC /\ free_num t = 0)
  | (Bug, _) => ~ calm t /\ mounted = true
  end.
Proof.
  intros Hinv.
  enough (wp (emmcfs_alloc_new_bnode mounted beyond grow) t (fun r t' => match r with
    | Ok h => free_num t <> 0 /\ h = Handle (first_free_id t) true /\ t' ≈ after_alloc t
    | Err e => t' ≈ t /\ (calm t -> e = - ENOSPC /\ free_num t = 0)
    | Bug => ~ calm t /\ mounted = true end)) as H.
  { unfold wp in H. destruct (emmcfs_alloc_new_bnode mounted beyond grow t) as [[h|e|] t']; simpl in H; try done.
    destruct H as (Hn & -> & Ht'). simpl.
    destruct (first_free_clear t Hinv Hn) as [Hlt Hbit].
    pose proof (pi_first _ Hinv) as (_ & Hlow & _).
    split; [done|]. split; [done|]. split; [intros [_ ?]; congruence|].
    split; [intros id' Hid'; split; [lia|apply Hlow; lia]|].
    split; [|split; [|split]].
    - intros id'. rewrite Ht'. unfold used, after_alloc. simpl.
      unfold bits_num in Hlt. destruct (decide (id' = first_free_id t)) as [->|Hne].
      + rewrite list_lookup_insert_eq by lia. split; [by right|]. intros _. split; [lia|done].
      + split.
        * intros [Hp Hu]. rewrite list_lookup_insert_ne in Hu by lia. by left.
        * intros [[Hp Hu]|?]; [|done]. rewrite list_lookup_insert_ne by lia. done.
    - intros id' Hne. rewrite (sim_nodes _ _ Ht'). simpl. by rewrite lookup_insert_ne.
    - by rewrite (sim_num _ _ Ht').
    - rewrite Ht'. by apply after_alloc_inv. }
  apply wp_alloc; [done| | | |done].
  - intros Hn t' Ht' _. done.
  - intros Hz. done.
  - intros e t' Hn Hc Ht'. split; [done|]. by intros ?%Hc.
Qed.

(** [emmcfs_destroy_bnode] gives the id of a node back and keeps the
    invariant; a failure of the journal leaves the bitmap as before.  This
    failure and the release of an id that is not in use are errors, and stop
    the kernel once the mount is finished. *)
Theorem emmcfs_destroy_bnode_correct t h :
  pool_inv t -> 0 < h_id h < bits_num t ->
  match emmcfs_destroy_bnode mounted beyond h t with
  | (Ok tt, t') =>
    used t (h_id h) /\ (forall id', used t' id' <-> used t id' /\ id' <> h_id h) /\
    nodes t' = nodes t /\ free_num t' = free_num t + 1 /\ pool_inv t'
  | (Err e, t') => t' ≈ t /\ (calm t -> ~ used t (h_id h) /\ e = - EFAULT /\ mounted = false)
  | (Bug, _) => mounted = true /\ (calm t -> ~ used t (h_id h))
  end.
Proof.
  intros Hinv Hid. unfold bits_num in Hid.
  destruct (lookup_lt_is_Some_2 (bits t) (Z.to_nat (h_id h)) ltac:(lia)) as [[] Hbit].
  - assert (used t (h_id h)) as Hu by (split; [lia|done]).
    enough (wp (emmcfs_destroy_bnode mounted beyond h) t (fun r t' => match r with
      | Ok _ => t' ≈ after_destroy t (h_id h)
      | Err e => t' ≈ t /\ ~ calm t
      | Bug => ~ calm t /\ mounted = true end)) as H.
    { unfold wp in H. destruct (emmcfs_destroy_bnode mounted beyond h t) as [[[]|e|] t']; simpl in H; try done.
      - split; [done|]. split; [|split; [|split]].
        + intros id'. rewrite H. unfold used, after_destroy. simpl.
          destruct (decide (id' = h_id h)) as [->|Hne].
          * rewrite list_lookup_insert_eq by lia. split; [by intros [_ ?]|by intros [_ ?]].
          * split.
            -- intros [Hp Hb]. rewrite list_lookup_insert_ne in Hb by lia. done.
            -- intros [[Hp Hb] _]. rewrite list_lookup_insert_ne by lia. done.
        + by rewrite (sim_nodes _ _ H).
        + by rewrite (sim_num _ _ H).
        + rewrite H. by apply after_destroy_inv.
      - destruct H as [H Hc]. split; [done|]. by intros ?%Hc.
      - destruct H as [Hc Hm]. split; [done|]. by intros ?%Hc. }
    apply wp_destroy; [done| | |done].
    + by intros t' Ht' _.
    + by intros e t' Ht' Hc.
  - assert (~ used t (h_id h)) as Hu by (intros [_ ?]; congruence).
    enough (wp (emmcfs_destroy_bnode mounted beyond h) t (fun r t' => match r with
      | Ok _ => False
      | Err e => t' ≈ t /\ (calm t -> e = - EFAULT /\ mounted = false)
      | Bug => mounted = true end)) as H.
    { unfold wp in H. destruct (emmcfs_destroy_bnode mounted beyond h t) as [[[]|e|] t']; simpl in H; try done.
      destruct H as [H Hc]. split; [done|]. intros Hcalm. by split; [|apply Hc]. }
    apply wp_destroy_unused; auto. lia.
Qed.

(** A node that is allocated and destroyed leaves the bitmap and its
    counters as they were. *)
Theorem alloc_destroy_roundtrip t :
  pool_inv t -> calm t -> 0 < free_num t ->
  exists h t1 t2, emmcfs_alloc_new_bnode mounted beyond grow t = (Ok h, t1) /\
    emmcfs_destroy_bnode mounted beyond h t1 = (Ok tt, t2) /\
    bits t2 = bits t /\ free_num t2 = free_num t /\ first_free_id t2 = first_free_id t.
Proof.
  intros Hinv Hc Hn. destruct (first_free_clear t Hinv ltac:(lia)) as [Hlt Hbit].
  assert (wp (emmcfs_alloc_new_bnode mounted beyond grow) t (fun r t' =>
    r = Ok (Handle (first_free_id t) true) /\ t' ≈ after_alloc t /\ calm t')) as H1.
  { apply wp_alloc; [done| | | |]; [auto|lia|done|done]. }
  unfold wp in H1. destruct (emmcfs_alloc_new_bnode mounted beyond grow t) as [r t1]. simpl in H1.
  destruct H1 as (-> & S1 & C1).
  assert (wp (emmcfs_destroy_bnode mounted beyond (Handle (first_free_id t) true)) t1 (fun r t' =>
    r = Ok tt /\ t' ≈ after_destroy t1 (first_free_id t))) as H2.
  { apply wp_destroy; simpl; [|done|done|done]. rewrite S1. unfold used, after_alloc, bits_num in *. simpl.
    rewrite list_lookup_insert_eq by lia. split; [lia|done]. }
  unfold wp in H2. destruct (emmcfs_destroy_bnode mounted beyond _ t1) as [r t2] eqn:E2. simpl in H2.
  destruct H2 as (-> & S2). exists (Handle (first_free_id t) true), t1, t2. split; [done|]. split; [done|].
  rewrite (sim_bits _ _ S2), (sim_num _ _ S2), (sim_first _ _ S2). unfold after_destroy. simpl.
  rewrite (sim_bits _ _ S1), (sim_num _ _ S1), (sim_first _ _ S1). unfold after_alloc. simpl.
  rewrite list_insert_insert_eq, list_insert_id by done. split; [done|]. split; [lia|].
  set (b := <[Z.to_nat (first_free_id t) := true]> (bits t)).
  destruct (find_next_zero_bit_spec b (first_free_id t)) as (Hb1 & Hb2 & Hb3).
  { unfold b. rewrite length_insert. unfold bits_num in Hlt. lia. }
  { pose proof (pi_first _ Hinv) as (_ & Hlow & _). intros j Hj. unfold b.
    rewrite list_lookup_insert_ne by lia. by apply Hlow. }
  apply Z.min_r. destruct (decide (first_free_id t <= find_next_zero_bit b (first_free_id t))) as [|Hgt]; [done|].
  exfalso. assert (find_next_zero_bit b (first_free_id t) < Z.of_nat (length b)) as Hlt2.
  { unfold b. rewrite length_insert. unfold bits_num in Hlt. fold b. lia. }
  specialize (Hb3 Hlt2). pose proof (pi_first _ Hinv) as (_ & Hlow & _).
  set (i := find_next_zero_bit b (first_free_id t)) in *.
  unfold b in Hb3. rewrite list_lookup_insert_ne in Hb3 by lia.
  rewrite Hlow in Hb3; [done|lia].
Qed.
End properties.

(** ** The properties at work: a tree of three nodes in a bitmap of six bits *)
Definition sample_tree : btree :=
  Btree 1 1 [true; true; false; true; false; false] 2 3 ∅ ∅
    (<[1 := blank_node]> (<[3 := blank_node]> ∅)) 6 [].

Lemma sample_tree_inv : pool_inv sample_tree.
Proof.
  constructor.
  - done.
  - split; [by vm_compute|]. split; [|done]. intros j Hj. simpl in Hj.
    assert (j = 0 \/ j = 1) as [->| ->] by lia; done.
  - done.
  - intros id [Hp Hu]. assert (id = 1 \/ id = 3 \/ (id <> 1 /\ id <> 3)) as [->|[->|[H1 H3]]] by lia;
      [by eexists|by eexists|]. exfalso. simpl in Hu.
    destruct (decide (id < 6)) as [Hlt|]; [|by rewrite lookup_ge_None_2 in Hu by (simpl; lia)].
    assert (id = 2 \/ id = 4 \/ id = 5) as [->|[->| ->]] by lia; done.
Qed.

Lemma build_free_bnode_bitmap_correct_witness :
  exists t', build_free_bnode_bitmap (bits sample_tree) 0 sample_tree = (Ok tt, t') /\
    pool_inv t' /\ first_free_id t' = 2 /\ free_num t' = 3.
Proof.
  pose proof (build_free_bnode_bitmap_correct sample_tree (bits sample_tree) eq_refl) as H.
  simpl in H. eexists. split; [reflexivity|]. split; [|done].
  apply H. intros id Hp Hu. apply (pi_nodes _ sample_tree_inv). by split.
Defined.

Lemma emmcfs_alloc_new_bnode_correct_witness :
  exists t', emmcfs_alloc_new_bnode true (fun _ => false) Z.max sample_tree = (Ok (Handle 2 true), t') /\ pool_inv t'.
Proof.
  pose proof (emmcfs_alloc_new_bnode_correct true (fun _ => false) Z.max sample_tree sample_tree_inv) as H.
  eexists. split; [reflexivity|]. simpl in H. apply H.
Defined.

Lemma emmcfs_destroy_bnode_correct_witness :
  exists t', emmcfs_destroy_bnode true (fun _ => false) (Handle 1 true) sample_tree = (Ok tt, t') /\ pool_inv t'.
Proof.
  pose proof (emmcfs_destroy_bnode_correct true (fun _ => false) sample_tree (Handle 1 true) sample_tree_inv) as H.
  eexists. split; [reflexivity|]. simpl in H. apply H. unfold bits_num. simpl. lia.
Defined.

Lemma alloc_destroy_roundtrip_witness :
  exists h t1 t2, emmcfs_alloc_new_bnode true (fun _ => false) Z.max sample_tree = (Ok h, t1) /\
    emmcfs_destroy_bnode true (fun _ => false) h t1 = (Ok tt, t2) /\
    bits t2 = bits sample_tree /\ free_num t2 = free_num sample_tree /\
    first_free_id t2 = first_free_id sample_tree.
Proof.
  apply (alloc_destroy_roundtrip true (fun _ => false) Z.max sample_tree sample_tree_inv).
  - constructor.
  - simpl. lia.
Defined.
