(* ===== verification/Btree.v ===== *)
(** * The B-tree of btree.c

    Search, insertion and removal over the nodes of BnodePool.v.  The functions
    on one node are those of BnodeRepr.v, which BnodeBytes.v implements on
    bytes; a computation that is [Bug] stops the kernel or reads memory that
    holds no node. *)

From S2P Require Import Prelude Monad BnodeBytes BnodeRepr BnodePool.
Open Scope Z_scope.

Definition EMMCFS_BTREE_LEAF_LVL : Z := 1.

(** The key of a record as [btree_merge] copies it: its [record_len] is that
    of an index record. *)
Definition key_copy (r : record) : record :=
  take 8 r ++ le_split 4 (key_len r + 4) ++ drop 12 (take (Z.to_nat (key_len r)) r).

Section btree.
(** Constants of the tree ([node_size_bytes], [max_record_len],
    [log_pages_per_node], [comp_fn]), the flag [IS_MOUNT_FINISHED], what
    BnodePool.v leaves open, and the addresses of mapped nodes. *)
Context (N max_record_len log_pages_per_node : Z) (comp_fn : record -> record -> Z)
  (mounted : bool) (beyond : Z -> bool) (grow : Z -> Z -> Z) (address : Z -> Z).

(** ** The head of the tree *)
Definition EMMCFS_ADD_CHUNK_or_bug : M unit :=
  do r <- try call; match r with Ok _ => ret tt | _ => bug end.

Definition emmcfs_btree_inc_height : M unit :=
  do h <- gets btree_height;
  do_ EMMCFS_ADD_CHUNK_or_bug;
  do_ modify (fun t => set_head t (u16 (h + 1)) (root_bnode_id t));
  emmcfs_mark_bnode_dirty head_bnode.

Definition emmcfs_btree_dec_height : M unit :=
  do h <- gets btree_height;
  do_ BUG_ON (u16 (h - 1) =? 0);
  do_ EMMCFS_ADD_CHUNK_or_bug;
  do_ modify (fun t => set_head t (u16 (h - 1)) (root_bnode_id t));
  emmcfs_mark_bnode_dirty head_bnode.

Definition emmcfs_btree_set_root_id (new_root_bnode_id : Z) : M unit :=
  do_ EMMCFS_ADD_CHUNK_or_bug;
  do_ modify (fun t => set_head t (btree_height t) new_root_bnode_id);
  emmcfs_mark_bnode_dirty head_bnode.

(** ** Access to the nodes *)
Abbreviation get_bnode := (emmcfs_get_bnode mounted beyond grow).

Definition node (h : handle) : M bnode :=
  do ns <- gets nodes;
  match ns !! h_id h with Some n => ret n | None => bug end.

Definition update (h : handle) (f : bnode -> bnode) : M unit :=
  do n <- node h;
  modify (fun t => set_nodes t (<[h_id h := f n]> (nodes t))).

(** [get_record]; the index of the free space is no record. *)
Definition get_rec (n : bnode) (index : Z) : M record :=
  if u32 index >? Z.of_nat (length (bn_recs n)) then fail (- EINVAL)
  else match bn_recs n !! Z.to_nat (u32 index) with Some r => ret r | None => bug end.

Definition emmcfs_get_btree_record (h : handle) (index : Z) : M record :=
  do n <- node h; get_rec n index.

Definition emmcfs_get_next_bnode (h : handle) : M handle :=
  do n <- node h;
  if bn_next n =? 0 then fail (- ENOENT) else get_bnode (bn_next n) (h_rw h).

(** The node and the index move on to the next record. *)
Definition emmcfs_get_next_btree_record (h : handle) (index : Z) : M (handle * Z * record) :=
  do n <- node h;
  if index + 1 <? Z.of_nat (length (bn_recs n)) then
    do r <- get_rec n (index + 1);
    ret (h, index + 1, r)
  else
    do next <- emmcfs_get_next_bnode h;
    do_ emmcfs_put_bnode h;
    do n <- node next;
    do r <- get_rec n 0;
    ret (next, 0, r).

Definition get_child_bnode (r : record) (rw : bool) : M handle :=
  if child_id r =? 0 then mfault mounted else get_bnode (child_id r) rw.

(** ** Changes to one node *)
Definition insert_into (h : handle) (r : record) (pos : Z) : M unit :=
  do n <- node h;
  do_ BUG_ON (bn_free N n <? record_len r);
  do_ BUG_ON (bn_free N n <? sizeof_off);
  update h (fun n => node_insert n r (Z.to_nat pos)).

Definition delete_from (h : handle) (pos : Z) : M unit :=
  do n <- node h;
  do r <- try (get_rec n pos);
  match r with
  | Ok _ =>
    do_ update h (fun n => node_delete n (Z.to_nat pos));
    emmcfs_mark_bnode_dirty h
  | _ => mfault mounted
  end.

(** [value->node_id = id] in the record at [index]. *)
Definition set_value (h : handle) (index id : Z) : M unit :=
  do n <- node h;
  do r <- or_bug (get_rec n index);
  update h (fun n => set_recs n (<[Z.to_nat index := set_child_id r id]> (bn_recs n))).

Definition form_adding_record (h : handle) : M record :=
  do n <- node h;
  do r <- or_bug (get_rec n 0);
  do_ BUG_ON (record_len r >? max_record_len);
  ret (form_record r (h_id h)).

(** [set_next_prev_links] *)
Definition link_next (id next : Z) : M unit :=
  do h <- or_bug (get_bnode id true);
  do_ update h (fun n => set_next n next);
  do_ emmcfs_mark_bnode_dirty h;
  emmcfs_put_bnode h.

Definition link_prev (id prev : Z) : M unit :=
  do h <- or_bug (get_bnode id true);
  do_ update h (fun n => set_prev n prev);
  do_ emmcfs_mark_bnode_dirty h;
  emmcfs_put_bnode h.

Definition set_next_prev_links (source new1 new2 : handle) : M unit :=
  do src <- node source;
  do n2 <- node new2;
  do_ update new1 (fun n => set_next n (bn_id n2));
  do n1 <- node new1;
  do_ update new2 (fun n => set_prev n (bn_id n1));
  do_ update new2 (fun n => set_next n (bn_next src));
  do_ update new1 (fun n => set_prev n (bn_prev src));
  do_ (if negb (bn_prev src =? EMMCFS_INVALID_NODE_ID)
       then link_next (bn_prev src) (bn_id n1) else ret tt);
  if negb (bn_next src =? EMMCFS_INVALID_NODE_ID)
  then link_prev (bn_next src) (bn_id n2) else ret tt.

(** [split_node]: the records that the halves get must fit. *)
Definition split_node (h : handle) (adding_index : Z) (r : record) (part1 part2 : handle) : M unit :=
  do n <- node h;
  do_ update part1 (fun _ => node_init (h_id part1) (bn_type n));
  do_ update part2 (fun _ => node_init (h_id part2) (bn_type n));
  do_ set_next_prev_links h part1 part2;
  do n <- node h;
  do_ BUG_ON (Z.of_nat (length (bn_recs n)) =? 0);
  let '(l1, l2) := node_split N n (Z.to_nat adding_index) r in
  do_ BUG_ON ((N - 27 <? room l1) || (N - 27 <? room l2));
  do_ update part1 (fun p => set_recs p l1);
  update part2 (fun p => set_recs p l2).

Definition update_root_descriptor (new_root : handle) (first_record second_record : record)
    (changing_node_id : Z) : M unit :=
  do_ update new_root (fun _ => node_init (h_id new_root) EMMCFS_NODE_INDEX);
  do_ insert_into new_root first_record 0;
  do_ insert_into new_root second_record 1;
  do_ set_value new_root 0 changing_node_id;
  do_ emmcfs_btree_inc_height;
  do_ emmcfs_btree_set_root_id (h_id new_root);
  do_ emmcfs_mark_bnode_dirty new_root;
  do_ emmcfs_mark_bnode_dirty head_bnode;
  emmcfs_put_bnode new_root.

(** ** Search *)

(** The binary search of [btree_find] in one node: the position, the position
    of the last smaller record, the last comparison. *)
Fixpoint bin_search (fuel : nat) (l : list record) (key : record) (first last : nat)
    (pos prev_pos cmp_res : Z) : Z * Z * Z :=
  match fuel with
  | O => (pos, prev_pos, cmp_res)
  | S fuel =>
    if (first <? last)%nat then
      let mid := (first + (last - first) / 2)%nat in
      let cmp_res := comp_fn (default [] (l !! mid)) key in
      if cmp_res =? 0 then (Z.of_nat mid, prev_pos, cmp_res)
      else if cmp_res >? 0
      then bin_search fuel l key first mid (Z.of_nat mid) prev_pos cmp_res
      else bin_search fuel l key (S mid) last (Z.of_nat mid) (Z.of_nat mid) cmp_res
    else (pos, prev_pos, cmp_res)
  end.

Definition search_node (l : list record) (key : record) : Z :=
  let last := length l in
  let c0 := comp_fn (default [] (l !! 0%nat)) key in
  let prev_pos := if c0 >? 0 then 0 else -1 in
  let first := if c0 >? 0 then last else 0%nat in
  let c1 := comp_fn (default [] (l !! (last - 1)%nat)) key in
  let pos := if c1 <? 0 then Z.of_nat (last - 1) else -1 in
  let first := if c1 <? 0 then last else first in
  let '(pos, prev_pos, cmp_res) := bin_search (S last) l key first last pos prev_pos c1 in
  if cmp_res >? 0 then prev_pos else pos.

(** The loop of [btree_find], [below] levels above the goal; the path is the
    list of the nodes that are passed and the positions in them, the last one
    in front.  A position of -1 is left when the first record is above the key
    and the last one equal to it; the record is then the last one. *)
Fixpoint find_down (below : nat) (h : handle) (key : record) (rw : bool)
    (path : list (handle * Z)) : M (list (handle * Z)) :=
  do n <- node h;
  if Z.of_nat (length (bn_recs n)) =? 0 then fail (- EINVAL)
  else
    let pos := search_node (bn_recs n) key in
    let path := (h, pos) :: path in
    match below with
    | O => ret path
    | S below =>
      match bn_recs n !! (if pos <? 0 then (length (bn_recs n) - 1)%nat else Z.to_nat pos) with
      | None => bug
      | Some r =>
        do child <- get_child_bnode r rw;
        find_down below child key rw path
      end
    end.

Definition find_path (key : record) (level : Z) (rw : bool) : M (list (handle * Z)) :=
  do height <- gets btree_height;
  do root <- gets root_bnode_id;
  do h <- get_bnode root rw;
  if level >? height then bug else find_down (Z.to_nat (height - level)) h key rw [].

(** [btree_find]: the node and the position in it. *)
Definition btree_find (key : record) (level : Z) (rw : bool) : M (handle * Z) :=
  do path <- find_path key level rw;
  match path with
  | [] => bug
  | hp :: _ => ret hp
  end.

Definition emmcfs_btree_find (key : record) (rw : bool) : M (handle * Z) :=
  btree_find key EMMCFS_BTREE_LEAF_LVL rw.

(** ** Insertion *)
Definition check_bnode_reserve : M unit :=
  do t <- gets (fun t => t);
  let available_bnodes := Z.shiftr (total_block_count t) log_pages_per_node in
  let used_bnodes := bits_num t - free_num t in
  let bnodes_deficit := s64 (btree_height t * 4 - (available_bnodes - used_bnodes)) in
  if bnodes_deficit <=? 0 then ret tt
  else emmcfs_prealloc_bnode_reserve grow (u32 (available_bnodes + bnodes_deficit - 1)).

(** One turn of the loop of [btree_insert_at_level] behind the change of the
    value; [above] is the number of the levels above, [next] the next turn. *)
Definition insert_step (curr : handle) (index : Z) (above : nat) (adding_record : record)
    (next : record -> Z -> M unit) : M unit :=
  do n <- node curr;
  if node_full N n adding_record then
    do height <- gets btree_height;
    do_ (if Z.of_nat above =? height - 1 then check_bnode_reserve else ret tt);
    do r1 <- try (emmcfs_alloc_new_bnode mounted beyond grow);
    match r1 with
    | Ok bnode1 =>
      do r2 <- try (emmcfs_alloc_new_bnode mounted beyond grow);
      match r2 with
      | Ok bnode2 =>
        do_ split_node curr (index + 1) adding_record bnode1 bnode2;
        do adding_record <- form_adding_record bnode2;
        do root <- gets root_bnode_id;
        if h_id curr =? root then
          do first_ins_root_rec <- form_adding_record curr;
          do_ update_root_descriptor curr first_ins_root_rec adding_record (h_id bnode1);
          do_ emmcfs_mark_bnode_dirty bnode1;
          do_ emmcfs_mark_bnode_dirty bnode2;
          do_ emmcfs_put_bnode bnode1;
          emmcfs_put_bnode bnode2
        else
          do_ emmcfs_mark_bnode_dirty bnode1;
          do_ emmcfs_mark_bnode_dirty bnode2;
          do_ emmcfs_put_bnode bnode1;
          do_ emmcfs_put_bnode bnode2;
          do_ or_bug (emmcfs_destroy_bnode mounted beyond curr);
          next adding_record (h_id bnode1)
      | _ =>
        do_ or_bug (emmcfs_destroy_bnode mounted beyond bnode1);
        fail (- ENOSPC)
      end
    | _ => fail (- ENOSPC)
    end
  else
    do_ insert_into curr adding_record (index + 1);
    do_ emmcfs_mark_bnode_dirty curr;
    emmcfs_put_bnode curr.

(** The loop; [changing_node_id] is [None] for [UINT_MAX]. *)
Fixpoint insert_loop (path : list (handle * Z)) (adding_record : record)
    (changing_node_id : option Z) : M unit :=
  match path with
  | [] => bug
  | (curr, index) :: rest =>
    do_ match changing_node_id with
        | Some id => set_value curr index id
        | None => ret tt
        end;
    insert_step curr index (length rest) adding_record
      (fun adding_record id => insert_loop rest adding_record (Some id))
  end.

Definition btree_insert_at_level (new_data : record) (level : Z) : M unit :=
  do_ kmalloc;
  do path <- find_path new_data level true;
  match path with
  | [] => bug
  | (curr, i) :: _ =>
    do n <- node curr;
    do r <- get_rec n i;
    if comp_fn r new_data =? 0 then fail (- EEXIST)
    else
      do_ kmalloc;
      do_ kmalloc;
      do_ BUG_ON (record_len new_data >? max_record_len);
      insert_loop path new_data None
  end.

Definition emmcfs_btree_insert (new_data : record) : M unit :=
  btree_insert_at_level new_data EMMCFS_BTREE_LEAF_LVL.

(** ** Removal *)

(** [btree_update_key], [fuel] for the levels above. *)
Fixpoint btree_update_key (fuel : nat) (key : record) (point_to : handle) (level : Z) : M record :=
  match fuel with
  | O => bug
  | S fuel =>
    do_ kmalloc;
    do new_data <- form_adding_record point_to;
    do_ btree_insert_at_level new_data level;
    do r <- try (btree_find key level true);
    match r with
    | Ok (h, pos) =>
      do_ delete_from h pos;
      do height <- gets btree_height;
      do_ (if (pos =? 0) && (level <? height)
           then do_ btree_update_key fuel key h (level + 1); ret tt
           else ret tt);
      do_ emmcfs_put_bnode h;
      ret new_data
    | _ => fail (- EINVAL)
    end
  end.

(** [btree_merge]; [remove] is [btree_remove]. *)
Definition btree_merge (remove : record -> Z -> M unit) (left_bnode_id right_bnode_id level : Z) : M unit :=
  do lh <- get_bnode left_bnode_id true;
  do rh <- get_bnode right_bnode_id true;
  do r <- node rh;
  do l <- node lh;
  do_ BUG_ON (bn_free N (node_merge l r) <? 0);
  do_ update lh (fun l => node_merge l r);
  do_ (if negb (bn_next r =? EMMCFS_INVALID_NODE_ID) then
         do e <- try (get_bnode (bn_next r) true);
         match e with
         | Ok next =>
           do_ update next (fun n => set_prev n (bn_id l));
           do_ update lh (fun l => set_next l (h_id next));
           do_ emmcfs_mark_bnode_dirty next;
           emmcfs_put_bnode next
         | _ => fail (address right_bnode_id)
         end
       else ret tt);
  do_ emmcfs_mark_bnode_dirty lh;
  do_ emmcfs_put_bnode lh;
  do record <- or_bug (get_rec r 0);
  do_ or_bug kmalloc;
  let key := key_copy record in
  do_ emmcfs_destroy_bnode mounted beyond rh;
  remove key (level + 1).

(** [rebalance] *)
Definition rebalance (remove : record -> Z -> M unit) (key : record) (level bnode_id bnode_free_space : Z) : M unit :=
  do p <- btree_find key (level + 1) true;
  let '(parent, pos) := p in
  do cur <- get_bnode bnode_id true;
  do c <- node cur;
  do pn <- node parent;
  do ids <- (if u32 pos >? 0 then ret (bn_prev c, bn_prev c, bn_id c)
             else if u32 pos <? u32 (Z.of_nat (length (bn_recs pn)) - 1)
             then ret (bn_next c, bn_id c, bn_next c)
             else bug);
  let '(neigh_id, left_id, right_id) := ids in
  do neigh <- get_bnode neigh_id true;
  do n <- node neigh;
  do_ emmcfs_put_bnode neigh;
  if bnode_free_space + bn_free N n >=? N then
    do_ emmcfs_put_bnode parent;
    do_ emmcfs_put_bnode cur;
    btree_merge remove left_id right_id level
  else
    do_ emmcfs_put_bnode cur;
    emmcfs_put_bnode parent.

(** The neighbours of an empty node are linked to each other. *)
Definition unlink_node (h : handle) : M unit :=
  do n <- node h;
  do_ (if negb (bn_prev n =? EMMCFS_INVALID_NODE_ID) then link_next (bn_prev n) (bn_next n) else ret tt);
  do n <- node h;
  if negb (bn_next n =? EMMCFS_INVALID_NODE_ID) then link_prev (bn_next n) (bn_prev n) else ret tt.

(** The last part of [btree_remove]: the node is merged, or the root gives way
    to its only child. *)
Definition shrink (remove : record -> Z -> M unit) (key : record) (level : Z) (h : handle) : M unit :=
  do n <- node h;
  do height <- gets btree_height;
  if bn_free N n >? N / 3 then
    if level <? height then
      do_ emmcfs_put_bnode h;
      do e <- try (rebalance remove key level (h_id h) (bn_free N n));
      match e with
      | Ok _ => ret tt
      | Err e => if mounted then bug else fail e
      | Bug => bug
      end
    else if Z.of_nat (length (bn_recs n)) =? 1 then
      if height <=? 1 then emmcfs_put_bnode h
      else
        do r <- get_rec n 0;
        do child <- get_child_bnode r true;
        do_ emmcfs_btree_set_root_id (h_id child);
        do_ emmcfs_btree_dec_height;
        do_ emmcfs_put_bnode child;
        emmcfs_destroy_bnode mounted beyond h
    else emmcfs_put_bnode h
  else emmcfs_put_bnode h.

Fixpoint btree_remove (fuel : nat) (key : record) (level : Z) : M unit :=
  match fuel with
  | O => bug
  | S fuel =>
    do height <- gets btree_height;
    do_ BUG_ON (level >? height);
    do p <- btree_find key level true;
    let '(h, pos) := p in
    do n <- node h;
    do record <- get_rec n pos;
    if (level =? 1) && negb (comp_fn record key =? 0) then fail (- ENOENT)
    else
      do_ delete_from h pos;
      do n <- node h;
      if Z.of_nat (length (bn_recs n)) =? 0 then
        do_ unlink_node h;
        do e <- try (emmcfs_destroy_bnode mounted beyond h);
        match e with
        | Ok _ => btree_remove fuel key (level + 1)
        | Err e => if mounted then bug else fail e
        | Bug => bug
        end
      else
        do height <- gets btree_height;
        do key <- (if (pos =? 0) && (level <? height)
                   then btree_update_key (S fuel) key h (level + 1)
                   else ret key);
        shrink (btree_remove fuel) key level h
  end.

(** Each call of [btree_remove] is one level above the last, and the one above
    the root stops the kernel: a [fuel] of two more than the height that the
    tree can reach is never used up. *)
Definition emmcfs_btree_remove (fuel : nat) (key : record) : M unit :=
  btree_remove fuel key 1.

(** ** Verification: [emmcfs_verify_btree] and its queue *)
Record query := Query { q_start : Z; q_end : Z; q_data : gmap Z (outcome handle) }.

Definition emmcfs_init_query : query := Query 0 0 ∅.

Definition emmcfs_push_query (q : query) (element : outcome handle) : Z * query :=
  if (q_end q + 1) mod EMMCFS_BNODE_CACHE_ITEMS =? q_start q then (- ENOSPC, q)
  else (0, Query (q_start q) ((q_end q + 1) mod EMMCFS_BNODE_CACHE_ITEMS)
             (<[q_end q := element]> (q_data q))).

Definition emmcfs_pop_query (q : query) : option (outcome handle) * query :=
  if q_start q =? q_end q then (None, q)
  else (q_data q !! q_start q,
        Query ((q_start q + 1) mod EMMCFS_BNODE_CACHE_ITEMS) (q_end q) (q_data q)).

(** The children of a node are queued, as long as there is room. *)
Fixpoint push_children (q : query) (l : list record) : M (Z * query) :=
  match l with
  | [] => ret (0, q)
  | r :: l =>
    do e <- try (get_child_bnode r false);
    let '(err, q) := emmcfs_push_query q e in
    if negb (err =? 0) then ret (err, q) else push_children q l
  end.

Fixpoint verify_loop (fuel : nat) (q : query) (err : Z) : M Z :=
  match fuel with
  | O => bug
  | S fuel =>
    match emmcfs_pop_query q with
    | (None, _) => ret err
    | (Some (Err e), _) => ret e
    | (Some Bug, _) => bug
    | (Some (Ok h), q) =>
      do n <- node h;
      if bn_next n =? 0 then ret err
      else
        do e <- try (emmcfs_get_next_bnode h);
        match e with
        | Bug => bug
        | Err e => ret e
        | Ok temp =>
          do tn <- node temp;
          if negb (bn_next n =? h_id temp) || negb (bn_prev tn =? h_id h) then ret (- EINVAL)
          else if bn_type n =? EMMCFS_NODE_LEAF then verify_loop fuel q err
          else
            do p <- push_children q (bn_recs n);
            verify_loop fuel (snd p) (fst p)
        end
    end
  end.

Definition emmcfs_verify_btree (fuel : nat) : M Z :=
  do root <- gets root_bnode_id;
  do e <- try (get_bnode root false);
  verify_loop fuel (snd (emmcfs_push_query emmcfs_init_query e)) 0.
End btree.
