(* ===== verification/BtreeInv.v ===== *)
(** * The invariant of the B-tree

    The order of the keys as an interface ([KeyOrder]) that the comparison
    functions of the catalog and of the extents tree implement; the search in
    one node; the tree as the list of its levels, from the leaves up, each of
    them the list of its nodes from left to right. *)

From S2P Require Import Prelude Monad BnodeBytes BnodeRepr BnodePool BnodePoolProofs Btree.
Open Scope Z_scope.

(** ** Keys *)

(** The bytes of the key without the length of the record. *)
Definition key_bytes (r : record) : list Z := drop 12 (take (Z.to_nat (key_len r)) r).
Definition same_key (r s : record) : Prop := key_len r = key_len s /\ key_bytes r = key_bytes s.

(** A comparison function: it looks at the key only, and orders the keys for
    which [key_ok] holds. *)
Class KeyOrder (comp_fn : record -> record -> Z) (key_ok : record -> Prop) : Prop := {
  ko_same r s x : same_key r s -> key_ok r -> comp_fn r x = comp_fn s x /\ comp_fn x r = comp_fn x s;
  ko_key r s : same_key r s -> key_ok r -> key_ok s;
  ko_refl x : key_ok x -> comp_fn x x = 0;
  ko_sym x y : key_ok x -> key_ok y -> comp_fn x y < 0 <-> 0 < comp_fn y x;
  ko_trans x y z : key_ok x -> key_ok y -> key_ok z ->
    comp_fn x y <= 0 -> comp_fn y z <= 0 -> comp_fn x z <= 0
}.

Section order.
Context (comp_fn : record -> record -> Z) (key_ok : record -> Prop) `{!KeyOrder comp_fn key_ok}.
Implicit Types (x y z r s : record) (l : list record).

Definition lt x y : Prop := comp_fn x y < 0.
Definition le x y : Prop := comp_fn x y <= 0.

Lemma lt_gt x y : key_ok x -> key_ok y -> lt x y <-> 0 < comp_fn y x.
Proof using KeyOrder0. intros. by apply ko_sym. Qed.

Lemma le_ge x y : key_ok x -> key_ok y -> le x y <-> 0 <= comp_fn y x.
Proof using KeyOrder0. intros Hx Hy. unfold le. pose proof (ko_sym y x Hy Hx). lia. Qed.

Lemma lt_le_trans x y z : key_ok x -> key_ok y -> key_ok z -> lt x y -> le y z -> lt x z.
Proof using KeyOrder0.
  intros Hx Hy Hz H1 H2. unfold lt, le in *.
  destruct (decide (comp_fn x z < 0)) as [|Hge]; [done|].
  assert (comp_fn z x <= 0) as H3 by (pose proof (ko_sym z x Hz Hx); pose proof (ko_sym x z Hx Hz); lia).
  pose proof (ko_trans y z x Hy Hz Hx H2 H3). pose proof (ko_sym x y Hx Hy). lia.
Qed.

Lemma le_lt_trans x y z : key_ok x -> key_ok y -> key_ok z -> le x y -> lt y z -> lt x z.
Proof using KeyOrder0.
  intros Hx Hy Hz H1 H2. unfold lt, le in *.
  destruct (decide (comp_fn x z < 0)) as [|Hge]; [done|].
  assert (comp_fn z x <= 0) as H3 by (pose proof (ko_sym z x Hz Hx); pose proof (ko_sym x z Hx Hz); lia).
  pose proof (ko_trans z x y Hz Hx Hy H3 H1). pose proof (ko_sym y z Hy Hz). lia.
Qed.

Lemma lt_trans x y z : key_ok x -> key_ok y -> key_ok z -> lt x y -> lt y z -> lt x z.
Proof using KeyOrder0. intros Hx Hy Hz H1 H2. apply (lt_le_trans x y z); try done. unfold le, lt in *. lia. Qed.

Lemma eq_lt_lt x x' y y' : key_ok x -> key_ok x' -> key_ok y -> key_ok y' ->
  comp_fn x' x = 0 -> comp_fn y' y = 0 -> lt x y -> lt x' y'.
Proof using KeyOrder0.
  intros Hx Hx' Hy Hy' E1 E2 H. apply (le_lt_trans x' x y'); try done; [unfold le; lia|].
  apply (lt_le_trans x y y'); try done. unfold le.
  pose proof (ko_sym y y' Hy Hy'). pose proof (ko_sym y' y Hy' Hy). lia.
Qed.

(** ** Sorted records *)
Definition sorted l : Prop := StronglySorted lt l.
Definition keys_ok l : Prop := Forall key_ok l.

Lemma sorted_lookup l i j x y : sorted l -> l !! i = Some x -> l !! j = Some y -> (i < j)%nat -> lt x y.
Proof using.
  intros Hs Hi Hj Hij. rewrite <- (take_drop_middle l i x Hi) in Hs.
  apply SSorted_app in Hs as (_ & [_ HF]%SSorted_cons & _).
  rewrite Forall_forall in HF. apply HF. apply list_elem_of_lookup. exists (j - S i)%nat.
  rewrite lookup_drop, <- Hj. f_equal. lia.
Qed.

(** The position of the last record that is not after the key, the first
    position if there is none. *)
Definition floor_pos l key (p : nat) : Prop :=
  (exists r, l !! p = Some r /\ (le r key \/ p = 0%nat)) /\
  (forall i r, (p < i)%nat -> l !! i = Some r -> lt key r).

Lemma bin_search_floor fuel l key first last pos prev_pos c :
  sorted l -> keys_ok l -> key_ok key -> (first <= last <= length l)%nat -> (last - first < fuel)%nat ->
  (exists r, l !! 0%nat = Some r /\ le r key) ->
  (forall i r, (i < first)%nat -> l !! i = Some r -> lt r key) ->
  (forall i r, (last <= i)%nat -> l !! i = Some r -> lt key r) ->
  prev_pos = Z.of_nat first - 1 ->
  (first = last -> c < 0 /\ pos = Z.of_nat first - 1 \/ 0 < c) ->
  exists p, (let '(pos, prev_pos, c) := bin_search comp_fn fuel l key first last pos prev_pos c in
             if c >? 0 then prev_pos else pos) = Z.of_nat p /\ floor_pos l key p.
Proof using KeyOrder0.
  intros Hs Hk Hkey. revert first last pos prev_pos c.
  induction fuel as [|fuel IH]; intros first last pos prev_pos c Hfl Hfuel H0 Hlo Hhi Hprev Hc; [lia|].
  cbn [bin_search]. destruct (Nat.ltb_spec first last) as [Hlt|Hge].
  - set (mid := (first + (last - first) / 2)%nat).
    assert ((last - first) / 2 < last - first)%nat as Hdiv by (apply Nat.div_lt; lia).
    assert (first <= mid < last)%nat as Hmid by lia.
    destruct (lookup_lt_is_Some_2 l mid ltac:(lia)) as [r Hr]. rewrite Hr. cbn [from_option id].
    assert (key_ok r) as Hrk by (by eapply Forall_lookup_1).
    destruct (Z.eqb_spec (comp_fn r key) 0) as [Heq|Hne].
    + cbv beta iota zeta. rewrite Heq. exists mid. split; [done|]. split.
      * exists r. split; [done|]. left. unfold le. lia.
      * intros i x Hi Hx. apply (le_lt_trans key r x); try done; [by eapply Forall_lookup_1| |].
        -- unfold le. pose proof (ko_sym key r Hkey Hrk). pose proof (ko_sym r key Hrk Hkey). lia.
        -- by eapply (sorted_lookup l mid i).
    + destruct (Z.gtb_spec (comp_fn r key) 0) as [Hgt|Hle].
      * apply IH; try done; try lia.
        intros i x Hi Hx. apply (lt_le_trans key r x); try done; [by eapply Forall_lookup_1| |].
        -- unfold lt. by apply ko_sym.
        -- destruct (decide (i = mid)) as [->|]; [simplify_eq; unfold le; rewrite ko_refl by done; lia|].
           assert (lt r x) by (eapply (sorted_lookup l mid i); eauto; lia). unfold le, lt in *. lia.
      * apply IH; try done; try lia.
        intros i x Hi Hx. destruct (decide (i = mid)) as [->|].
        -- simplify_eq. unfold lt. lia.
        -- apply (lt_trans x r key); try done; [by eapply Forall_lookup_1| |unfold lt; lia].
           eapply (sorted_lookup l i mid); eauto. lia.
  - assert (first = last) as -> by lia.
    assert (0 < last)%nat as Hpos.
    { destruct (decide (last = 0%nat)) as [->|]; [|lia]. destruct H0 as (r0 & Hr0 & Hle0).
      specialize (Hhi 0%nat r0 ltac:(lia) Hr0). assert (key_ok r0) by (by eapply Forall_lookup_1).
      pose proof (proj1 (ko_sym key r0 Hkey ltac:(done)) Hhi). unfold le in Hle0. lia. }
    exists (last - 1)%nat. split.
    + destruct (Hc eq_refl) as [[Hc1 ->]|Hc1]; destruct (Z.gtb_spec c 0); lia.
    + split.
      * destruct (lookup_lt_is_Some_2 l (last - 1) ltac:(lia)) as [r Hr]. exists r. split; [done|]. left.
        assert (lt r key) by (eapply Hlo; [|done]; lia). unfold le, lt in *. lia.
      * intros i r Hi Hr. eapply Hhi; [|done]. lia.
Qed.

(** The search in a node finds the floor. *)
Lemma search_node_floor l key : sorted l -> keys_ok l -> key_ok key -> l <> [] ->
  exists p, search_node comp_fn l key = Z.of_nat p /\ floor_pos l key p.
Proof using KeyOrder0.
  intros Hs Hk Hkey Hne. unfold search_node.
  assert (0 < length l)%nat as Hlen by (destruct l; simpl; [done|lia]).
  destruct (lookup_lt_is_Some_2 l 0 Hlen) as [r0 Hr0]. rewrite Hr0. cbn [from_option id].
  destruct (lookup_lt_is_Some_2 l (length l - 1) ltac:(lia)) as [rn Hrn]. rewrite Hrn. cbn [from_option id].
  assert (key_ok r0) as Hk0 by (by eapply Forall_lookup_1).
  assert (key_ok rn) as Hkn by (by eapply Forall_lookup_1).
  assert (bin_search comp_fn (S (length l)) l key (length l) (length l) = fun pos prev_pos c => (pos, prev_pos, c)) as Estop.
  { cbn [bin_search]. by rewrite Nat.ltb_irrefl. }
  destruct (Z.gtb_spec (comp_fn r0 key) 0) as [Hg0|Hg0].
  - (* every record is after the key *)
    assert (forall i r, l !! i = Some r -> lt key r) as Hall.
    { intros i r Hr. assert (lt key r0) as H0 by (unfold lt; apply ko_sym; [..|lia]; done).
      destruct i as [|i]; [by simplify_eq|].
      apply (lt_trans key r0 r); try done; [by eapply Forall_lookup_1|].
      eapply (sorted_lookup l 0 (S i)); eauto. lia. }
    assert (0 < comp_fn rn key) as Hcn by (apply (ko_sym key rn Hkey Hkn); by eapply Hall).
    destruct (Z.ltb_spec (comp_fn rn key) 0); [lia|].
    rewrite Estop. destruct (Z.gtb_spec (comp_fn rn key) 0); [|lia].
    exists 0%nat. split; [done|]. split; [|intros; by eapply Hall]. exists r0. split; [done|]. by right.
  - destruct (Z.ltb_spec (comp_fn rn key) 0) as [Hlt|Hge].
    + rewrite Estop. destruct (Z.gtb_spec (comp_fn rn key) 0); [lia|].
      exists (length l - 1)%nat. split; [done|]. split.
      * exists rn. split; [done|]. left. unfold le. lia.
      * intros i r Hi Hr. apply lookup_lt_Some in Hr. lia.
    + assert (exists r, l !! 0%nat = Some r /\ le r key) as Hex by (exists r0; split; [done|unfold le; lia]).
      apply (bin_search_floor (S (length l)) l key 0 (length l) (-1) (-1) (comp_fn rn key)); try done; try lia.
      intros i r Hi Hr. apply lookup_lt_Some in Hr. lia.
Qed.
End order.

(** ** Index records *)
Section index.
Implicit Types (r : record) (id : Z).

Lemma same_key_sym r s : same_key r s -> same_key s r.
Proof. by intros []. Qed.

Lemma set_child_id_key r id : record_ok r -> same_key (set_child_id r id) r.
Proof.
  intros Hr. destruct (header_ext _ _ (set_child_id_header r id Hr)) as [Ek _].
  split; [done|]. unfold key_bytes. rewrite Ek. unfold set_child_id. f_equal.
  pose proof (ro_key _ Hr). unfold rlen in *. rewrite take_app_le by len. by rewrite take_take, Nat.min_id.
Qed.

Lemma child_id_set r id : record_ok r -> 0 <= id < 2 ^ 32 -> child_id (set_child_id r id) = id.
Proof.
  intros Hr Hid. destruct (set_child_id_key r id Hr) as [Ek _]. unfold child_id. rewrite Ek.
  unfold set_child_id. pose proof (ro_key _ Hr). unfold rlen in *.
  rewrite drop_app_length' by len. rewrite take_app_length' by (by rewrite length_le_split).
  by apply le_combine_split_small.
Qed.

(** A record as the index refers to it. *)
Lemma form_record_split r id : record_ok r ->
  form_record r id = key_copy r ++ le_split 4 id /\ length (key_copy r) = Z.to_nat (key_len r) /\
  key_len (form_record r id) = key_len r.
Proof.
  intros [_ Hk]. unfold rlen in Hk. unfold form_record, key_copy.
  assert (length (take 8 r) = 8%nat) as L8 by (rewrite length_take; lia).
  split; [by rewrite <- !app_assoc|]. split.
  - rewrite !length_app, length_le_split, length_drop, L8, length_take. lia.
  - unfold key_len. f_equal. rewrite drop_app_le by lia. rewrite take_app_le by (rewrite length_drop; lia).
    rewrite (take_drop_commute _ 4 4), (take_drop_commute r 4 4). f_equal. simpl Nat.add.
    by rewrite take_take.
Qed.

Lemma form_record_key r id : record_ok r -> same_key (form_record r id) r.
Proof.
  intros Hr. destruct (form_record_split r id Hr) as (E & El & Ek). split; [done|].
  unfold key_bytes. rewrite Ek, E. rewrite take_app_length' by done.
  pose proof (ro_key _ Hr). unfold rlen in *. unfold key_copy.
  rewrite app_assoc, drop_app_length' by (rewrite length_app, length_le_split, length_take; lia). done.
Qed.

Lemma form_record_child r id : record_ok r -> 0 <= id < 2 ^ 32 -> child_id (form_record r id) = id.
Proof.
  intros Hr Hid. destruct (form_record_split r id Hr) as (E & El & Ek). unfold child_id. rewrite Ek, E.
  rewrite drop_app_length' by done. rewrite take_ge by (by rewrite length_le_split).
  by apply le_combine_split_small.
Qed.

Lemma form_record_len r id : record_ok r -> rlen (form_record r id) = key_len r + 4.
Proof.
  intros Hr. destruct (form_record_split r id Hr) as (E & El & Ek). rewrite E.
  pose proof (ro_key _ Hr). unfold rlen in *. rewrite length_app, El, length_le_split. lia.
Qed.

Lemma form_record_ok r id : record_ok r -> key_len r + 4 < 2 ^ 32 -> record_ok (form_record r id).
Proof.
  intros Hr Hk. pose proof (form_record_len r id Hr) as Hl.
  destruct (form_record_split r id Hr) as (E & El & Ek). pose proof (ro_key _ Hr) as Hk2.
  constructor; rewrite ?Ek, Hl; [|lia]. unfold record_len. rewrite E. unfold key_copy, rlen in *.
  rewrite <- !app_assoc. rewrite drop_app_length' by len.
  rewrite take_app_length' by (by rewrite length_le_split). apply le_combine_split_small. lia.
Qed.
End index.

(** ** The tree as its levels *)
Abbreviation level := (list (Z * list record)) (only parsing).

Definition flat (L : level) : list record := concat (map snd L).
Definition ids (L : level) : list Z := map fst L.
Definition all_ids (lv : list level) : list Z := concat (map ids lv).

Definition first_rec (l : list record) : record := default [] (head l).
Definition hd_id (next : Z) (L : level) : Z := match L with [] => next | (id, _) :: _ => id end.
Definition last_id (prev : Z) (L : level) : Z := match last L with None => prev | Some (id, _) => id end.

(** The nodes of a level in memory, linked from left to right. *)
Fixpoint chained (ns : gmap Z bnode) (ty prev : Z) (L : level) (next : Z) : Prop :=
  match L with
  | [] => True
  | (id, recs) :: L =>
    ns !! id = Some (Bnode id ty prev (hd_id next L) recs) /\ chained ns ty id L next
  end.

Definition level_type (i : nat) : Z := match i with O => EMMCFS_NODE_LEAF | S _ => EMMCFS_NODE_INDEX end.

Section levels.
Context (N max_record_len : Z) (comp_fn : record -> record -> Z) (key_ok : record -> Prop).

(** A record that the tree can hold: it and the index record of its key are
    short enough for nodes to be split. *)
Record rec_valid (r : record) : Prop := {
  rv_ok : record_ok r;
  rv_len : rlen r <= max_record_len;
  rv_key_len : key_len r + 4 <= max_record_len;
  rv_key : key_ok r
}.

(** A node of a level: not empty, not larger than a node, its records valid,
    an index record no longer than its key and the node id. *)
Record node_ok (i : nat) (recs : list record) : Prop := {
  no_ne : recs <> [];
  no_room : 27 + room recs <= N;
  no_valid : Forall rec_valid recs;
  no_index : (0 < i)%nat -> Forall (fun r => rlen r = key_len r + 4) recs
}.

Record level_ok (ns : gmap Z bnode) (i : nat) (L : level) : Prop := {
  lo_chain : chained ns (level_type i) 0 L 0;
  lo_nodes : Forall (fun n => node_ok i (snd n)) L;
  lo_sorted : sorted comp_fn (flat L)
}.

(** The records of a level point to the nodes of the level below and bear the
    keys of their first records. *)
Definition points (r : record) (n : Z * list record) : Prop :=
  child_id r = fst n /\ comp_fn r (first_rec (snd n)) = 0.
Definition between (L U : level) : Prop := Forall2 points (flat U) L.

(** The levels from [i] up to the root. *)
Fixpoint stack_ok (ns : gmap Z bnode) (i : nat) (lv : list level) : Prop :=
  match lv with
  | [] => True
  | L :: lv' => level_ok ns i L /\ (match lv' with [] => True | U :: _ => between L U end) /\
                stack_ok ns (S i) lv'
  end.

(** The ids that there are, and those in use that are not the ids of nodes of
    the tree, the id 0 apart. *)
Definition account (t : btree) (lv : list level) : Z * Z :=
  (bits_num t, bits_num t - free_num t - 1 - Z.of_nat (length (all_ids lv))).

Lemma account_sim t t' lv : t ≈ t' -> account t lv = account t' lv.
Proof. intros S. unfold account, bits_num. by rewrite (sim_bits _ _ S), (sim_num _ _ S). Qed.

Definition top_is (lv : list level) (root : Z) : Prop := exists recs, last lv = Some [(root, recs)].

Record tree_ok (t : btree) (lv : list level) : Prop := {
  to_pool : pool_inv t;
  to_stack : stack_ok (nodes t) 0 lv;
  to_top : top_is lv (root_bnode_id t);
  to_height : btree_height t = Z.of_nat (length lv);
  to_nodup : NoDup (all_ids lv);
  to_used : Forall (used t) (all_ids lv);
  to_ids : bits_num t <= 2 ^ 32
}.

(** Where no id is lost, the ids in use are those of the nodes. *)
Lemma used_in_tree t lv id : tree_ok t lv -> snd (account t lv) = 0 -> used t id -> id ∈ all_ids lv.
Proof.
  intros [Hp _ _ _ Hnd Hu _] Hl Hid. destruct (decide (id ∈ all_ids lv)) as [|Hno]; [done|exfalso].
  pose proof (pi_num _ Hp) as En. unfold account in Hl. cbn [snd] in Hl.
  assert (forall x, x ∈ id :: all_ids lv -> used t x) as Hall.
  { intros x [->|Hx]%elem_of_cons; [done|]. rewrite Forall_forall in Hu. auto. }
  pose proof (weight_count (0%nat :: map Z.to_nat (id :: all_ids lv)) (bits t)) as W.
  cbn [length] in W. rewrite length_map in W. cbn [length] in W. enough (Z.of_nat (S (S (length (all_ids lv)))) <= weight (bits t)) by lia.
  apply W.
  - apply NoDup_cons. split.
    + intros (x & E & Hx)%list_elem_of_In%in_map_iff. destruct (Hall x) as [Hx0 _]; [by apply list_elem_of_In|lia].
    + apply (NoDup_fmap_2_strong Z.to_nat).
      * intros x y Hx Hy E. destruct (Hall x Hx) as [? _], (Hall y Hy) as [? _]. lia.
      * by apply NoDup_cons.
  - apply Forall_cons. split; [apply (pi_head _ Hp)|]. apply Forall_forall.
    intros n (x & <- & Hx)%list_elem_of_In%in_map_iff. apply (Hall x). by apply list_elem_of_In.
Qed.

(** A tree that is cut below the level [k]: the levels below and the levels from
    [k] on are in order, but the records of the level [k] need not point to the
    nodes below.  So is the tree while a removal is under way. *)
Definition stack_cut (ns : gmap Z bnode) (k : nat) (lv : list level) : Prop :=
  stack_ok ns 0 (take k lv) /\ stack_ok ns k (drop k lv).

Record tree_cut (k : nat) (t : btree) (lv : list level) : Prop := {
  tc_pool : pool_inv t;
  tc_stack : stack_cut (nodes t) k lv;
  tc_top : top_is lv (root_bnode_id t);
  tc_height : btree_height t = Z.of_nat (length lv);
  tc_nodup : NoDup (all_ids lv);
  tc_used : Forall (used t) (all_ids lv);
  tc_ids : bits_num t <= 2 ^ 32
}.

Lemma tree_ok_cut t lv : tree_ok t lv <-> tree_cut 0 t lv.
Proof.
  split; intros [H1 H2 H3 H4 H5 H6 H7]; constructor; try done; by destruct H2.
Qed.

(** The records of the tree, in the order of their keys. *)
Definition elements (lv : list level) : list record := match lv with [] => [] | L :: _ => flat L end.
End levels.

(** The ids of the levels counted. *)
Ltac count_ids := unfold account, all_ids, ids in *; apply f_equal2; [lia|];
  repeat (rewrite ?map_app, ?concat_app, ?length_app, ?map_cons, ?concat_cons; cbn [map concat app length fst]); lia.
