(* ===== verification/BtreeFind.v ===== *)
(** * Search in the B-tree

    A search walks from the root to the level it is asked for and finds in each
    level the last record that is not after the key: the positions it passes
    are the floors of the levels, and each is the place of the node below. *)

From S2P Require Import Prelude Monad BnodeBytes BnodeRepr BnodePool BnodePoolProofs Btree BtreeInv.
Open Scope Z_scope.

(** ** Levels *)
Section levels.
Implicit Types (A B L : level).

Lemma flat_app A B : flat (A ++ B) = flat A ++ flat B.
Proof. unfold flat. by rewrite map_app, concat_app. Qed.
Lemma flat_cons n B : flat (n :: B) = snd n ++ flat B.
Proof. done. Qed.
Lemma ids_app A B : ids (A ++ B) = ids A ++ ids B.
Proof. apply map_app. Qed.
Lemma all_ids_app (l1 l2 : list level) : all_ids (l1 ++ l2) = all_ids l1 ++ all_ids l2.
Proof. unfold all_ids. by rewrite map_app, concat_app. Qed.
Lemma all_ids_cons L (l : list level) : all_ids (L :: l) = ids L ++ all_ids l.
Proof. done. Qed.

Lemma all_ids_split id (lv : list level) : id ∈ all_ids lv ->
  exists lo A recs B up, lv = lo ++ (A ++ (id, recs) :: B) :: up.
Proof.
  induction lv as [|L lv IH]; [by intros ?%elem_of_nil|]. rewrite all_ids_cons. intros [Hin|Hin]%elem_of_app.
  - apply list_elem_of_fmap in Hin as ([id' recs] & -> & (A & B & ->)%list_elem_of_split). by exists [], A, recs, B, lv.
  - destruct (IH Hin) as (lo & A & recs & B & up & ->). by exists (L :: lo), A, recs, B, up.
Qed.

Lemma chained_app ns ty prev A B next :
  chained ns ty prev (A ++ B) next <->
  chained ns ty prev A (hd_id next B) /\ chained ns ty (last_id prev A) B next.
Proof.
  revert prev. induction A as [|[id recs] A IH]; intros prev; simpl; [unfold last_id; simpl; tauto|].
  rewrite IH. assert (hd_id next (A ++ B) = hd_id (hd_id next B) A) as -> by (by destruct A as [|[]]).
  assert (last_id prev ((id, recs) :: A) = last_id id A) as ->.
  { unfold last_id. rewrite last_cons. by destruct (last A) as [[]|]. }
  tauto.
Qed.

Lemma chained_lookup ns ty prev A id recs B next :
  chained ns ty prev (A ++ (id, recs) :: B) next ->
  ns !! id = Some (Bnode id ty (last_id prev A) (hd_id next B) recs).
Proof. intros H. apply chained_app in H as [_ H]. apply H. Qed.

Lemma chained_frame ns ns' ty prev L next :
  (forall id, id ∈ ids L -> ns' !! id = ns !! id) -> chained ns ty prev L next -> chained ns' ty prev L next.
Proof.
  revert prev. induction L as [|[id recs] L IH]; intros prev H; [done|]. simpl. intros [H1 H2]. split.
  - rewrite H by (simpl; set_solver). done.
  - apply IH; [|done]. intros x Hx. apply H. simpl. set_solver.
Qed.
End levels.

Section stack.
Context (N max_record_len : Z) (comp_fn : record -> record -> Z) (key_ok : record -> Prop).
Abbreviation level_ok := (level_ok N max_record_len comp_fn key_ok).
Abbreviation stack_ok := (stack_ok N max_record_len comp_fn key_ok).
Abbreviation stack_cut := (stack_cut N max_record_len comp_fn key_ok).
Abbreviation tree_ok := (tree_ok N max_record_len comp_fn key_ok).
Abbreviation tree_cut := (tree_cut N max_record_len comp_fn key_ok).
Abbreviation rec_valid := (rec_valid max_record_len key_ok).
Abbreviation node_ok := (node_ok N max_record_len key_ok).
Implicit Types (L U D : level) (lv : list level) (key : record).

(** The levels meet: the last of the lower ones and the first of the upper. *)
Definition meet (l1 l2 : list level) : Prop :=
  match last l1, l2 with Some D, U :: _ => between comp_fn D U | _, _ => True end.

Lemma stack_ok_app ns i l1 l2 :
  stack_ok ns i (l1 ++ l2) <-> stack_ok ns i l1 /\ stack_ok ns (i + length l1) l2 /\ meet l1 l2.
Proof.
  revert i. induction l1 as [|L l1 IH]; intros i; simpl.
  - rewrite Nat.add_0_r. unfold meet. simpl. tauto.
  - rewrite IH. replace (S i + length l1)%nat with (i + S (length l1))%nat by lia.
    destruct l1 as [|U l1].
    + simpl. unfold meet at 2. simpl. unfold meet. simpl. destruct l2; tauto.
    + simpl. assert (meet (L :: U :: l1) l2 <-> meet (U :: l1) l2) as ->.
      { unfold meet. by rewrite (last_cons_cons L U). }
      tauto.
Qed.

Lemma stack_ok_frame ns ns' i lv :
  (forall id, id ∈ all_ids lv -> ns' !! id = ns !! id) -> stack_ok ns i lv -> stack_ok ns' i lv.
Proof.
  revert i. induction lv as [|L lv IH]; intros i H; [done|]. simpl. intros ([Hc Hn Hs] & Hb & Hst).
  rewrite all_ids_cons in H. split; [|split; [done|]].
  - split; [|done|done]. eapply chained_frame; [|done]. set_solver.
  - apply IH; [|done]. set_solver.
Qed.

Lemma stack_cut_app ns k l1 l2 : (k <= length l1)%nat ->
  stack_cut ns k (l1 ++ l2) <-> stack_cut ns k l1 /\ stack_ok ns (length l1) l2 /\ meet (drop k l1) l2.
Proof.
  intros Hk. unfold BtreeInv.stack_cut. rewrite take_app_le, drop_app_le, stack_ok_app, length_drop by done.
  replace (k + (length l1 - k))%nat with (length l1) by lia. tauto.
Qed.

Lemma stack_cut_frame ns ns' k lv :
  (forall id, id ∈ all_ids lv -> ns' !! id = ns !! id) -> stack_cut ns k lv -> stack_cut ns' k lv.
Proof.
  intros H [H1 H2]. rewrite <- (take_drop k lv), all_ids_app in H.
  split; (eapply stack_ok_frame; [|done]); intros id Hid; apply H, elem_of_app; auto.
Qed.

(** A level in a tree that is cut. *)
Lemma cut_level k t lo L up : tree_cut k t (lo ++ L :: up) -> level_ok (nodes t) (length lo) L.
Proof.
  intros [_ [H1 H2] _ _ _ _ _]. destruct (decide (length lo < k)%nat) as [Hk|Hk].
  - rewrite take_app_ge in H1 by lia. replace (k - length lo)%nat with (S (k - length lo - 1)) in H1 by lia.
    simpl in H1. apply stack_ok_app in H1 as (_ & H1 & _). apply H1.
  - rewrite drop_app_le in H2 by lia. apply stack_ok_app in H2 as (_ & H2 & _).
    rewrite length_drop in H2. replace (k + (length lo - k))%nat with (length lo) in H2 by lia. apply H2.
Qed.

(** Two levels above the cut. *)
Lemma cut_between k t lo D L up : tree_cut k t (lo ++ D :: L :: up) -> (k <= length lo)%nat -> between comp_fn D L.
Proof.
  intros [_ [_ H2] _ _ _ _ _] Hk. rewrite drop_app_le in H2 by lia. apply stack_ok_app in H2 as (_ & H2 & _). apply H2.
Qed.

Lemma tree_cut_sim k t t' lv : t ≈ t' -> tree_cut k t lv -> tree_cut k t' lv.
Proof.
  intros S [H1 H2 H3 H4 H5 H6 H7]. constructor; rewrite -> ?(sim_height _ _ S), <- ?(sim_root _ _ S),
    <- ?(sim_nodes _ _ S), <- ?(sim_height _ _ S); try done.
  - by rewrite <- S.
  - eapply Forall_impl; [exact H6|]. intros id Hu. by rewrite <- S.
  - unfold bits_num in *. by rewrite <- (sim_bits _ _ S).
Qed.

Lemma level_keys_ok ns i L : level_ok ns i L -> keys_ok key_ok (flat L).
Proof.
  intros [_ Hn _]. unfold keys_ok, flat. apply Forall_concat, Forall_map.
  eapply Forall_impl; [exact Hn|]. intros [id recs] [_ _ Hv _]. simpl in *.
  eapply Forall_impl; [exact Hv|]. by intros r [].
Qed.

Lemma level_valid ns i L : level_ok ns i L -> Forall rec_valid (flat L).
Proof.
  intros [_ Hn _]. unfold flat. apply Forall_concat, Forall_map.
  eapply Forall_impl; [exact Hn|]. by intros [id recs] [].
Qed.

Lemma level_sorted_node ns i A id recs B : level_ok ns i (A ++ (id, recs) :: B) -> sorted comp_fn recs.
Proof.
  intros [_ _ Hs]. rewrite flat_app, flat_cons in Hs. simpl in Hs.
  apply SSorted_app in Hs as (_ & Hs & _). by apply SSorted_app in Hs as (Hs & _ & _).
Qed.

(** The position [q] in level [L] is in its node number [j], at [pos]. *)
Definition place L (id : Z) (pos : Z) (q j : nat) : Prop :=
  exists A recs B p, L = A ++ (id, recs) :: B /\ (p < length recs)%nat /\
    pos = Z.of_nat p /\ q = (length (flat A) + p)%nat /\ j = length A.

Lemma between_lookup L U q A n B u : between comp_fn L U -> L = A ++ n :: B -> length A = q ->
  flat U !! q = Some u -> points comp_fn u n.
Proof.
  intros Hb -> <- Hu. unfold between in Hb. rewrite Forall2_lookup in Hb.
  specialize (Hb (length A)). rewrite list_lookup_middle, Hu in Hb by done. by inversion Hb.
Qed.

Lemma between_length L U : between comp_fn L U -> length (flat U) = length L.
Proof. apply Forall2_length. Qed.

(** A path through the levels [lv], from the lowest on: [q] is the floor of
    the key in the first of them. *)
Fixpoint path_ok (rw : bool) (key : record) (lv : list level) (path : list (handle * Z)) (q : nat) : Prop :=
  match lv, path with
  | L :: lv', (h, pos) :: path' =>
    h_rw h = rw /\ floor_pos comp_fn (flat L) key q /\
    exists j, place L (h_id h) pos q j /\
      match lv' with [] => L = [(h_id h, flat L)] /\ path' = [] | _ => path_ok rw key lv' path' j end
  | _, _ => False
  end.

Lemma tree_ok_sim t t' lv : t ≈ t' -> tree_ok t lv -> tree_ok t' lv.
Proof. intros S. rewrite !tree_ok_cut. by apply tree_cut_sim. Qed.

(** A level of the tree and the node it holds. *)
Lemma tree_level t lo L up : tree_ok t (lo ++ L :: up) -> level_ok (nodes t) (length lo) L.
Proof. intros H%tree_ok_cut. by eapply cut_level. Qed.

Lemma cut_node k t lo A id recs B up : tree_cut k t (lo ++ (A ++ (id, recs) :: B) :: up) ->
  used t id /\
  nodes t !! id = Some (Bnode id (level_type (length lo)) (last_id 0 A) (hd_id 0 B) recs) /\
  recs <> [] /\ keys_ok key_ok recs /\ sorted comp_fn recs.
Proof.
  intros H. pose proof (cut_level _ _ _ _ _ H) as HL. split.
  - pose proof (tc_used _ _ _ _ _ _ _ H) as Hu. rewrite all_ids_app, all_ids_cons, ids_app in Hu.
    simpl in Hu. rewrite !Forall_app, Forall_cons in Hu. tauto.
  - pose proof (lo_chain _ _ _ _ _ _ _ HL) as Hc. apply chained_lookup in Hc. split; [done|].
    pose proof (lo_nodes _ _ _ _ _ _ _ HL) as Hn. apply Forall_app in Hn as [_ Hn].
    apply Forall_cons in Hn as [[Hne _ Hv _] _]. split; [done|]. split.
    + eapply Forall_impl; [exact Hv|]. by intros r [].
    + by eapply level_sorted_node.
Qed.

Lemma tree_node t lo A id recs B up : tree_ok t (lo ++ (A ++ (id, recs) :: B) :: up) ->
  used t id /\
  nodes t !! id = Some (Bnode id (level_type (length lo)) (last_id 0 A) (hd_id 0 B) recs) /\
  recs <> [] /\ keys_ok key_ok recs /\ sorted comp_fn recs.
Proof. rewrite tree_ok_cut. apply cut_node. Qed.

Lemma wp_node h n t {B} (f : bnode -> M B) Q :
  nodes t !! h_id h = Some n -> wp (f n) t Q -> wp (bind (node h) f) t Q.
Proof.
  intros Hn H. unfold node. unfold wp, bind, gets in *. simpl. by rewrite Hn.
Qed.

End stack.

(** ** The floors of two neighbouring levels *)
Section floor.
Context (N max_record_len : Z) (comp_fn : record -> record -> Z) (key_ok : record -> Prop)
  `{!KeyOrder comp_fn key_ok}.
Abbreviation level_ok := (level_ok N max_record_len comp_fn key_ok).
Abbreviation lt := (lt comp_fn).
Abbreviation le := (le comp_fn).

Lemma first_rec_lookup recs : recs <> [] -> recs !! 0%nat = Some (first_rec recs).
Proof using. by destruct recs. Qed.

Lemma floor_down ns i L U key q A id recs B p :
  level_ok ns i L -> level_ok ns (S i) U -> between comp_fn L U -> key_ok key ->
  floor_pos comp_fn (flat U) key q -> L = A ++ (id, recs) :: B -> length A = q ->
  floor_pos comp_fn recs key p ->
  floor_pos comp_fn (flat L) key (length (flat A) + p).
Proof using KeyOrder0.
  intros HL HU Hb Hkey [(u & Hu & Hule) Huhi] E Hq [(r & Hr & Hrle) Hrhi].
  pose proof (level_keys_ok _ _ _ _ _ _ _ HL) as HkL. pose proof (level_keys_ok _ _ _ _ _ _ _ HU) as HkU.
  pose proof (lo_nodes _ _ _ _ _ _ _ HL) as Hnodes. pose proof (lo_sorted _ _ _ _ _ _ _ HL) as Hsorted.
  assert (flat L = flat A ++ recs ++ flat B) as EL by (by rewrite E, flat_app, flat_cons).
  assert (forall j x, recs !! j = Some x -> flat L !! (length (flat A) + j)%nat = Some x) as Hrecs.
  { intros j x Hj. rewrite EL, lookup_app_r by lia.
    replace (length (flat A) + j - length (flat A))%nat with j by lia. by apply lookup_app_l_Some. }
  assert (key_ok r) as Hrk by (eapply Forall_lookup_1; [exact HkL|by apply Hrecs]).
  split.
  - exists r. split; [by apply Hrecs|]. destruct Hrle as [|Hp]; [by left|]. subst p.
    destruct Hule as [Hule|Hq0]; [left|right].
    + destruct (between_lookup _ _ _ _ _ _ _ _ Hb E Hq Hu) as [_ Hk].
      assert (first_rec recs = r) as Ef by (destruct recs; simpl in *; by simplify_eq). simpl in Hk.
      rewrite Ef in Hk. pose proof (Forall_lookup_1 _ _ _ _ HkU Hu) as Huk.
      apply (ko_trans r u key); try done. pose proof (ko_sym r u Hrk Huk). pose proof (ko_sym u r Huk Hrk). lia.
    + rewrite Hq0 in Hq. by destruct A.
  - intros j x Hj Hx. pose proof (Forall_lookup_1 _ _ _ _ HkL Hx) as Hxk.
    destruct (decide (j < length (flat A) + length recs)%nat) as [Hlt|Hge].
    + apply (Hrhi (j - length (flat A))%nat); [lia|]. rewrite EL, lookup_app_r in Hx by lia.
      by rewrite lookup_app_l in Hx by lia.
    + destruct B as [|[id2 recs2] B'].
      { exfalso. apply lookup_lt_Some in Hx. rewrite EL, !length_app in Hx. simpl in Hx. lia. }
      assert (L = (A ++ [(id, recs)]) ++ (id2, recs2) :: B') as E2 by (by rewrite <- app_assoc).
      destruct (lookup_lt_is_Some_2 (flat U) (S q)) as [u2 Hu2].
      { rewrite (between_length _ _ _ Hb), E, length_app. simpl. lia. }
      assert (length (A ++ [(id, recs)]) = S q) as Hq2 by (rewrite length_app; simpl; lia).
      destruct (between_lookup _ _ _ _ _ _ _ _ Hb E2 Hq2 Hu2) as [_ Hk2]. simpl in Hk2.
      assert (lt key u2) as Hlt2 by (by apply (Huhi (S q)); [lia|]).
      assert (recs2 <> []) as Hne2.
      { rewrite E2 in Hnodes. apply Forall_app in Hnodes as [_ Hn2]. by apply Forall_cons in Hn2 as [[] _]. }
      set (f2 := first_rec recs2) in *. pose proof (first_rec_lookup recs2 Hne2) as Hf2. fold f2 in Hf2.
      assert (flat L !! (length (flat A) + length recs)%nat = Some f2) as Hf2L.
      { rewrite EL, app_assoc, lookup_app_r by (rewrite length_app; lia).
        rewrite length_app. replace (_ - _)%nat with 0%nat by lia. rewrite flat_cons. simpl.
        by apply lookup_app_l_Some. }
      pose proof (Forall_lookup_1 _ _ _ _ HkL Hf2L) as Hf2k.
      pose proof (Forall_lookup_1 _ _ _ _ HkU Hu2) as Hu2k.
      assert (lt key f2) as Hltf.
      { apply (lt_le_trans comp_fn key_ok key u2 f2); try done. unfold BtreeInv.le. lia. }
      destruct (decide (j = (length (flat A) + length recs)%nat)) as [->|Hne]; [by simplify_eq|].
      apply (lt_trans comp_fn key_ok key f2 x); try done.
      eapply (sorted_lookup comp_fn (flat L)); [done|exact Hf2L|exact Hx|lia].
Qed.

(** The floor of the root level. *)
Lemma floor_top recs id key p : floor_pos comp_fn recs key p -> floor_pos comp_fn (flat [(id, recs)]) key p.
Proof using. rewrite flat_cons. simpl. by rewrite app_nil_r. Qed.
End floor.

(** ** The walk *)
Section find.
Context (N max_record_len : Z) (comp_fn : record -> record -> Z) (key_ok : record -> Prop)
  `{!KeyOrder comp_fn key_ok} (mounted : bool) (beyond : Z -> bool) (grow : Z -> Z -> Z).
Abbreviation level_ok := (level_ok N max_record_len comp_fn key_ok).
Abbreviation tree_ok := (tree_ok N max_record_len comp_fn key_ok).
Abbreviation tree_cut := (tree_cut N max_record_len comp_fn key_ok).
Abbreviation path_ok := (path_ok comp_fn).
Abbreviation find_down := (find_down comp_fn mounted beyond grow).
Abbreviation find_path := (find_path comp_fn mounted beyond grow).

Lemma wp_find_down k below : forall lo A id recs B up t key rw path,
  tree_cut k t (lo ++ (A ++ (id, recs) :: B) :: up) -> key_ok key -> (k + below <= length lo)%nat ->
  match up with
  | [] => A = [] /\ B = [] /\ path = []
  | _ => path_ok rw key up path (length A)
  end ->
  wp (find_down below (Handle id rw) key rw path) t (fun r t' => match r with
    | Ok path' => t' ≈ t /\ (calm t -> calm t') /\
        exists q, path_ok rw key (drop (length lo - below) (lo ++ (A ++ (id, recs) :: B) :: up)) path' q
    | Err _ => t' ≈ t /\ ~ calm t
    | Bug => ~ calm t /\ mounted = true
    end).
Proof using KeyOrder0.
  induction below as [|below IH]; intros lo A id recs B up t key rw path Ht Hkey Hbelow Hpath;
    destruct (cut_node _ _ _ _ _ _ _ _ _ _ _ _ Ht) as (Hu & Hn & Hne & Hk & Hs);
    pose proof (cut_level _ _ _ _ _ _ _ _ _ Ht) as HL; cbn [Btree.find_down];
    eapply wp_node; try exact Hn; cbn [bn_recs];
    assert (Z.of_nat (length recs) <> 0) as Hlen by (destruct recs; simpl; [done|lia]);
    rewrite (proj2 (Z.eqb_neq _ _)) by done;
    destruct (search_node_floor comp_fn key_ok recs key Hs Hk Hkey Hne) as (p & Ep & Hfloor); rewrite Ep;
    destruct Hfloor as [(r & Hr & Hrle) Hrhi] eqn:Ef; clear Ef;
    (assert (path_ok rw key ((A ++ (id, recs) :: B) :: up) ((Handle id rw, Z.of_nat p) :: path) (length (flat A) + p))
      as Hpath'; [split; [done|]; split|]).
  1,4: (destruct up as [|U up];
    [destruct Hpath as (-> & -> & ->); apply floor_top; split; eauto|
     destruct path as [|[h' pos'] path']; [done|]; destruct Hpath as (_ & HfU & _);
     pose proof (tc_stack _ _ _ _ _ _ _ Ht) as Hst; apply stack_cut_app in Hst as (_ & Hst & _); [|lia];
     simpl in Hst; destruct Hst as (_ & Hb & HU & _);
     eapply (floor_down N max_record_len comp_fn key_ok); eauto; split; eauto]).
  1,3: (exists (length A); split;
    [exists A, recs, B, p; split; [done|]; split; [by apply lookup_lt_Some in Hr|done]|];
    destruct up as [|U up]; [|done]; destruct Hpath as (-> & -> & ->); split; [|done];
    rewrite app_nil_l, flat_cons; simpl; by rewrite app_nil_r).
  - apply wp_ret. split; [done|]. split; [done|]. exists (length (flat A) + p)%nat.
    rewrite Nat.sub_0_r, drop_app_length. done.
  - rewrite (proj2 (Z.ltb_ge _ _)), Nat2Z.id, Hr by lia.
    assert (exists lo' D, lo = lo' ++ [D]) as (lo' & D & ->).
    { destruct lo as [|D lo' _] using rev_ind; [simpl in Hbelow; lia|eauto]. }
    set (L := A ++ (id, recs) :: B) in *. rewrite <- app_assoc in Ht. simpl in Ht.
    rewrite length_app in Hbelow. simpl in Hbelow.
    pose proof (cut_between _ _ _ _ _ _ _ _ _ _ Ht ltac:(lia)) as Hb.
    assert (flat L !! (length (flat A) + p)%nat = Some r) as HrL.
    { unfold L. rewrite flat_app, flat_cons, lookup_app_r by lia.
      replace (length (flat A) + p - length (flat A))%nat with p by lia. by apply lookup_app_l_Some. }
    assert (exists A' id' recs' B', D = A' ++ (id', recs') :: B' /\ length A' = (length (flat A) + p)%nat)
      as (A' & id' & recs' & B' & -> & HA').
    { destruct (list_split_mid (length (flat A) + p) D) as (A' & [id' recs'] & B' & -> & HA').
      - rewrite <- (between_length _ _ _ Hb). by eapply lookup_lt_Some.
      - by exists A', id', recs', B'. }
    destruct (between_lookup _ _ _ _ _ _ _ _ Hb eq_refl HA' HrL) as [Hchild _]. simpl in Hchild.
    destruct (cut_node _ _ _ _ _ _ _ _ _ _ _ _ Ht) as (Hu' & _).
    unfold get_child_bnode. rewrite Hchild. destruct Hu' as [Hpos Hbit].
    rewrite (proj2 (Z.eqb_neq id' 0)) by lia.
    apply wp_bind. apply wp_get_bnode; [apply Ht|by split| | |done].
    + intros t1 S1 C1.
      assert (length (lo' ++ [A' ++ (id', recs') :: B']) - S below = length lo' - below)%nat as El.
      { rewrite length_app. simpl. lia. }
      rewrite El, <- app_assoc. simpl.
      eapply wp_mono.
      * apply (IH lo' A' id' recs' B' (L :: up) t1); [by eapply tree_cut_sim; [symmetry|]|done| |].
        -- lia.
        -- rewrite HA'. exact Hpath'.
      * intros [path'|e|] t2 H.
        -- destruct H as (S2 & C2 & q & Hq). split; [by rewrite S2|]. split; [auto|]. eauto.
        -- destruct H as (S2 & C2). split; [by rewrite S2|]. auto.
        -- destruct H as (C2 & Hm). split; [|done]. auto.
    + intros e t1 S1 C1. done.
Qed.

Lemma wp_find_cut k t lv key level rw :
  tree_cut k t lv -> key_ok key -> Z.of_nat k + 1 <= level <= Z.of_nat (length lv) ->
  wp (find_path key level rw) t (fun r t' => match r with
    | Ok path => t' ≈ t /\ (calm t -> calm t') /\
        exists q, path_ok rw key (drop (Z.to_nat level - 1) lv) path q
    | Err _ => t' ≈ t /\ ~ calm t
    | Bug => ~ calm t /\ mounted = true
    end).
Proof using KeyOrder0.
  intros Ht Hkey Hlev. unfold Btree.find_path. apply wp_gets, wp_gets.
  destruct (tc_top _ _ _ _ _ _ _ Ht) as [recs Htop]. apply last_Some in Htop as [lo ->].
  pose proof (cut_node _ _ _ _ k t lo [] (root_bnode_id t) recs [] [] Ht) as [Hu _].
  rewrite (tc_height _ _ _ _ _ _ _ Ht).
  apply wp_bind. apply wp_get_bnode; [apply Ht|done| |done|done].
  intros t1 S1 C1. rewrite Z.gtb_ltb, (proj2 (Z.ltb_ge _ _)) by lia.
  rewrite length_app in *. simpl in *.
  eapply wp_mono.
  - apply (wp_find_down k (Z.to_nat (Z.of_nat (length lo + 1) - level)) lo [] _ recs [] [] t1);
      [by eapply tree_cut_sim; [symmetry|]|done|lia|done].
  - intros [path|e|] t2 H.
    + destruct H as (S2 & C2 & q & Hq). split; [by rewrite S2|]. split; [auto|]. exists q.
      replace (Z.to_nat level - 1)%nat with (length lo - Z.to_nat (Z.of_nat (length lo + 1) - level))%nat by lia.
      done.
    + destruct H as (S2 & C2). split; [by rewrite S2|]. auto.
    + destruct H as (C2 & Hm). split; [|done]. auto.
Qed.

Lemma wp_find_path t lv key level rw :
  tree_ok t lv -> key_ok key -> 1 <= level <= Z.of_nat (length lv) ->
  wp (find_path key level rw) t (fun r t' => match r with
    | Ok path => t' ≈ t /\ (calm t -> calm t') /\
        exists q, path_ok rw key (drop (Z.to_nat level - 1) lv) path q
    | Err _ => t' ≈ t /\ ~ calm t
    | Bug => ~ calm t /\ mounted = true
    end).
Proof using KeyOrder0. intros Ht%tree_ok_cut. by apply (wp_find_cut 0). Qed.
End find.
