(* ===== verification/BtreeInsert.v ===== *)
(** * Insertion in the B-tree

    Each turn of the loop of [btree_insert_at_level] completes one level: the
    levels below are those of the new tree, the levels above still those of the
    old one ([partial]), and the record that is left to insert repairs the
    connection between them. *)

From S2P Require Import Prelude Monad BnodeBytes BnodeRepr BnodePool BnodePoolProofs Btree BtreeInv BtreeFind.
Open Scope Z_scope.

(** ** Rules for the operations on nodes *)
Lemma wp_update h f n t {B} (k : unit -> M B) Q :
  nodes t !! h_id h = Some n -> wp (k tt) (set_nodes t (<[h_id h := f n]> (nodes t))) Q ->
  wp (bind (update h f) k) t Q.
Proof.
  intros Hn H. apply wp_bind. unfold update. eapply wp_node; [done|]. by unfold wp, modify.
Qed.

Lemma wp_dirty h t {B} (k : unit -> M B) Q : h_rw h = true -> calm t ->
  (forall t', t' ≈ t -> calm t' -> wp (k tt) t' Q) -> wp (bind (emmcfs_mark_bnode_dirty h) k) t Q.
Proof. intros Hrw Hc H. apply wp_mark_dirty; [done|]. auto. Qed.

Lemma wp_dirty_last h t (Q : unit -> btree -> Prop) : h_rw h = true -> calm t ->
  (forall t', t' ≈ t -> calm t' -> Q tt t') -> wp (emmcfs_mark_bnode_dirty h) t (ok Q).
Proof.
  intros Hrw Hc H. unfold emmcfs_mark_bnode_dirty. apply wp_BUG_ON; [by rewrite Hrw|].
  unfold wp, modify. simpl. by apply H.
Qed.

Lemma wp_put h t {B} (k : unit -> M B) Q : calm t ->
  (forall t', t' ≈ t -> calm t' -> wp (k tt) t' Q) -> wp (bind (emmcfs_put_bnode h) k) t Q.
Proof. intros Hc H. apply wp_put_bnode. auto. Qed.

Lemma wp_put_last h t (Q : unit -> btree -> Prop) : calm t ->
  (forall t', t' ≈ t -> calm t' -> Q tt t') -> wp (emmcfs_put_bnode h) t (ok Q).
Proof.
  intros Hc H. unfold emmcfs_put_bnode, __put_bnode. destruct (_ && _).
  - unfold wp, modify. simpl. by apply H; [apply set_cache_sim|].
  - by apply wp_ret, H.
Qed.

Lemma get_rec_ok n i r t {B} (f : record -> M B) Q :
  bn_recs n !! i = Some r -> Z.of_nat (length (bn_recs n)) < 2 ^ 32 -> wp (f r) t Q ->
  wp (bind (get_rec n (Z.of_nat i)) f) t Q.
Proof.
  intros Hi Hl H. pose proof (lookup_lt_Some _ _ _ Hi). unfold get_rec.
  rewrite uwrap_small by lia. rewrite Z.gtb_ltb, (proj2 (Z.ltb_ge _ _)) by lia.
  rewrite Nat2Z.id, Hi. by apply wp_bind, wp_ret.
Qed.

Lemma get_rec_or_bug n i r t {B} (f : record -> M B) Q :
  bn_recs n !! i = Some r -> Z.of_nat (length (bn_recs n)) < 2 ^ 32 -> wp (f r) t Q ->
  wp (bind (or_bug (get_rec n (Z.of_nat i))) f) t Q.
Proof.
  intros Hi Hl H. apply (wp_seq _ _ _ (fun a t' => a = r /\ t' = t)); [|by intros a t' [-> ->]].
  apply wp_or_bug. pose proof (lookup_lt_Some _ _ _ Hi). unfold get_rec.
  rewrite uwrap_small by lia. rewrite Z.gtb_ltb, (proj2 (Z.ltb_ge _ _)) by lia.
  rewrite Nat2Z.id, Hi. by apply wp_ret.
Qed.

Lemma pool_inv_nodes t ns : pool_inv t -> (forall id, is_Some (nodes t !! id) -> is_Some (ns !! id)) ->
  pool_inv (set_nodes t ns).
Proof.
  intros [H1 H2 H3 H4] Hns. constructor; simpl; try done. intros id Hu. by apply Hns, H4.
Qed.

Lemma pool_inv_insert t id n : pool_inv t -> pool_inv (set_nodes t (<[id := n]> (nodes t))).
Proof. intros H. apply pool_inv_nodes; [done|]. intros x Hx. by apply lookup_insert_is_Some'; right. Qed.

Section rules.
Context (mounted : bool) (beyond : Z -> bool) (grow : Z -> Z -> Z).

Lemma wp_get_ok t id rw (P : handle -> btree -> Prop) : pool_inv t -> calm t -> used t id ->
  (forall t', t' ≈ t -> calm t' -> P (Handle id rw) t') ->
  wp (emmcfs_get_bnode mounted beyond grow id rw) t (ok P).
Proof. intros Hp Hc Hu H. apply wp_get_bnode; try done. intros t' S C. simpl. auto. Qed.

Lemma wp_link_next t id next n : pool_inv t -> calm t -> used t id -> nodes t !! id = Some n ->
  wp (link_next mounted beyond grow id next) t (ok (fun _ t' =>
    t' ≈ set_nodes t (<[id := set_next n next]> (nodes t)) /\ calm t')).
Proof.
  intros Hp Hc Hu Hn. unfold link_next. eapply wp_seq.
  { apply wp_or_bug, wp_get_ok; try done. intros t1 S1 C1.
    instantiate (1 := fun h t1 => h = Handle id true /\ t1 ≈ t /\ calm t1). done. }
  intros h t1 (-> & S1 & C1). eapply wp_update; [simpl; by rewrite (sim_nodes _ _ S1)|].
  apply wp_dirty; [done|done|]. intros t2 S2 C2. apply wp_put_last; [done|]. intros t3 S3 C3.
  split; [|done]. rewrite S3, S2, (sim_nodes _ _ S1). simpl. by rewrite S1.
Qed.

Lemma wp_link_prev t id prev n : pool_inv t -> calm t -> used t id -> nodes t !! id = Some n ->
  wp (link_prev mounted beyond grow id prev) t (ok (fun _ t' =>
    t' ≈ set_nodes t (<[id := set_prev n prev]> (nodes t)) /\ calm t')).
Proof.
  intros Hp Hc Hu Hn. unfold link_prev. eapply wp_seq.
  { apply wp_or_bug, wp_get_ok; try done. intros t1 S1 C1.
    instantiate (1 := fun h t1 => h = Handle id true /\ t1 ≈ t /\ calm t1). done. }
  intros h t1 (-> & S1 & C1). eapply wp_update; [simpl; by rewrite (sim_nodes _ _ S1)|].
  apply wp_dirty; [done|done|]. intros t2 S2 C2. apply wp_put_last; [done|]. intros t3 S3 C3.
  split; [|done]. rewrite S3, S2, (sim_nodes _ _ S1). simpl. by rewrite S1.
Qed.
End rules.

(** ** A node replaced by two *)

(** The nodes [b1] and [b2] stand between the nodes [pv] and [nx]. *)
Record relinked (ns ns' : gmap Z bnode) (ty pv nx b1 b2 : Z) (l1 l2 : list record) : Prop := {
  rl_1 : ns' !! b1 = Some (Bnode b1 ty pv b2 l1);
  rl_2 : ns' !! b2 = Some (Bnode b2 ty b1 nx l2);
  rl_p : pv <> 0 -> ns' !! pv = (fun n => set_next n b1) <$> ns !! pv;
  rl_n : nx <> 0 -> ns' !! nx = (fun n => set_prev n b2) <$> ns !! nx;
  rl_o : forall x, x <> b1 -> x <> b2 -> (x = pv -> pv = 0) -> (x = nx -> nx = 0) -> ns' !! x = ns !! x
}.

Section split.
Context (N : Z) (mounted : bool) (beyond : Z -> bool) (grow : Z -> Z -> Z).

Lemma wp_links t id ty pv nx recs b1 b2 :
  pool_inv t -> calm t -> nodes t !! id = Some (Bnode id ty pv nx recs) -> id <> b1 -> id <> b2 -> b1 <> b2 ->
  nodes t !! b1 = Some (node_init b1 ty) -> nodes t !! b2 = Some (node_init b2 ty) ->
  (pv <> 0 -> used t pv /\ pv <> b1 /\ pv <> b2 /\ pv <> nx) -> (nx <> 0 -> used t nx /\ nx <> b1 /\ nx <> b2) ->
  wp (set_next_prev_links mounted beyond grow (Handle id true) (Handle b1 true) (Handle b2 true)) t
    (ok (fun _ t' => calm t' /\ exists ns', t' ≈ set_nodes t ns' /\ relinked (nodes t) ns' ty pv nx b1 b2 [] [])).
Proof.
  intros Hp Hc Hid H1 H2 H12 Hb1 Hb2 Hpv Hnx. unfold set_next_prev_links.
  eapply wp_node; [exact Hid|]. eapply wp_node; [exact Hb2|].
  eapply wp_update; [exact Hb1|]. simpl.
  eapply wp_node; [simpl; by rewrite lookup_insert_eq|].
  eapply wp_update; [simpl; by rewrite lookup_insert_ne by done|].
  eapply wp_update; [simpl; by rewrite lookup_insert_eq|].
  eapply wp_update; [simpl; rewrite !lookup_insert_ne by done; by rewrite lookup_insert_eq|].
  simpl. set (ns4 := <[b1 := _]> (<[b2 := _]> _)).
  set (t4 := set_nodes _ ns4).
  assert (t4 ≈ set_nodes t ns4) as E4 by done.
  assert (pool_inv t4) as P4.
  { rewrite E4. apply pool_inv_nodes; [done|]. intros x Hx. unfold ns4.
    rewrite !lookup_insert_is_Some'. auto. }
  assert (calm t4) as C4 by done. clearbody t4.
  assert (ns4 !! b1 = Some (Bnode b1 ty pv b2 [])) as N1 by (unfold ns4; by rewrite lookup_insert_eq).
  assert (ns4 !! b2 = Some (Bnode b2 ty b1 nx [])) as N2.
  { unfold ns4. rewrite lookup_insert_ne by done. by rewrite lookup_insert_eq. }
  assert (forall x, x <> b1 -> x <> b2 -> ns4 !! x = nodes t !! x) as NO.
  { intros x Hx1 Hx2. unfold ns4. by rewrite !lookup_insert_ne by done. }
  clearbody ns4.
  assert (forall x, used t4 x <-> used t x) as U4 by (intros x; by rewrite E4).
  (* the left neighbour *)
  apply (wp_seq _ _ _ (fun _ t5 => calm t5 /\ pool_inv t5 /\ exists ns5, t5 ≈ set_nodes t ns5 /\
    (pv <> 0 -> ns5 !! pv = (fun n => set_next n b1) <$> nodes t !! pv) /\
    (forall x, (x = pv -> pv = 0) -> ns5 !! x = ns4 !! x))).
  { destruct (Z.eqb_spec pv EMMCFS_INVALID_NODE_ID) as [Hz|Hz]; unfold EMMCFS_INVALID_NODE_ID in Hz; simpl.
    - apply wp_ret. split; [done|]. split; [done|]. exists ns4. done.
    - destruct (Hpv Hz) as (Hu & Hp1 & Hp2 & Hp3). destruct (pi_nodes _ Hp pv Hu) as [np Hnp].
      eapply wp_ok_mono; [apply (wp_link_next _ _ _ _ pv b1 np); try done|].
      + by apply U4.
      + rewrite (sim_nodes _ _ E4). simpl. by rewrite NO.
      + intros _ t5 [S5 C5]. split; [done|]. split; [rewrite S5; by apply pool_inv_insert|].
        rewrite (sim_nodes _ _ E4) in S5. simpl in S5. exists (<[pv := set_next np b1]> ns4).
        split; [by rewrite S5, E4|].
        split; [intros _; by rewrite lookup_insert_eq, Hnp|].
        intros x Hx. rewrite lookup_insert_ne; [done|]. intros ->. by apply Hz, Hx. }
  intros _ t5 (C5 & P5 & ns5 & S5 & Hpv5 & Ho5).
  (* the right neighbour *)
  assert (nx <> 0 -> ns5 !! nx = nodes t !! nx) as Hnx5.
  { intros Hz. destruct (Hnx Hz) as (_ & Hn1 & Hn2). rewrite Ho5 by (intros ->; destruct (decide (pv = 0)) as [|Hp0]; [done|];
      by destruct (Hpv Hp0) as (_ & _ & _ & ?)). by apply NO. }
  apply (wp_ok_mono _ _ (fun _ t6 => calm t6 /\ exists ns6, t6 ≈ set_nodes t ns6 /\
    (nx <> 0 -> ns6 !! nx = (fun n => set_prev n b2) <$> nodes t !! nx) /\
    (forall x, (x = nx -> nx = 0) -> ns6 !! x = ns5 !! x))).
  { destruct (Z.eqb_spec nx EMMCFS_INVALID_NODE_ID) as [Hz|Hz]; unfold EMMCFS_INVALID_NODE_ID in Hz; simpl.
    - apply wp_ret. split; [done|]. exists ns5. done.
    - destruct (Hnx Hz) as (Hu & Hn1 & Hn2). destruct (pi_nodes _ Hp nx Hu) as [nn Hnn].
      eapply wp_ok_mono; [apply (wp_link_prev _ _ _ _ nx b2 nn); try done|].
      + by rewrite S5.
      + rewrite (sim_nodes _ _ S5). simpl. by rewrite Hnx5.
      + intros _ t6 [S6 C6]. split; [done|]. rewrite (sim_nodes _ _ S5) in S6. simpl in S6.
        exists (<[nx := set_prev nn b2]> ns5). split; [by rewrite S6, S5|].
        split; [intros _; by rewrite lookup_insert_eq, Hnn|].
        intros x Hx. rewrite lookup_insert_ne; [done|]. intros ->. by apply Hz, Hx. }
  intros _ t6 (C6 & ns6 & S6 & Hnx6 & Ho6). split; [done|]. exists ns6. split; [done|].
  constructor.
  - rewrite Ho6 by (intros ->; destruct (decide (nx = 0)) as [|Hz]; [done|]; by destruct (Hnx Hz) as (_ & ? & _)).
    rewrite Ho5 by (intros ->; destruct (decide (pv = 0)) as [|Hz]; [done|]; by destruct (Hpv Hz) as (_ & ? & _)). done.
  - rewrite Ho6 by (intros ->; destruct (decide (nx = 0)) as [|Hz]; [done|]; by destruct (Hnx Hz) as (_ & _ & ?)).
    rewrite Ho5 by (intros ->; destruct (decide (pv = 0)) as [|Hz]; [done|]; by destruct (Hpv Hz) as (_ & _ & ? & _)). done.
  - intros Hz. destruct (Hpv Hz) as (_ & _ & _ & Hne). rewrite Ho6 by (intros ->; done). by apply Hpv5.
  - done.
  - intros x Hx1 Hx2 Hxp Hxn. rewrite Ho6, Ho5, NO by done. done.
Qed.

Lemma wp_split_node t id ty pv nx recs b1 b2 idx r l1 l2 :
  pool_inv t -> calm t -> nodes t !! id = Some (Bnode id ty pv nx recs) -> id <> b1 -> id <> b2 -> b1 <> b2 ->
  is_Some (nodes t !! b1) -> is_Some (nodes t !! b2) -> recs <> [] ->
  (pv <> 0 -> used t pv /\ pv <> b1 /\ pv <> b2 /\ pv <> nx /\ pv <> id) ->
  (nx <> 0 -> used t nx /\ nx <> b1 /\ nx <> b2 /\ nx <> id) ->
  id <> 0 -> node_split N (Bnode id ty pv nx recs) idx r = (l1, l2) -> 27 + room l1 <= N -> 27 + room l2 <= N ->
  wp (split_node N mounted beyond grow (Handle id true) (Z.of_nat idx) r (Handle b1 true) (Handle b2 true)) t
    (ok (fun _ t' => calm t' /\ exists ns', t' ≈ set_nodes t ns' /\ relinked (nodes t) ns' ty pv nx b1 b2 l1 l2)).
Proof.
  intros Hp Hc Hid H1 H2 H12 [n1 Hb1] [n2 Hb2] Hne Hpv Hnx Hid0 Hsp Hr1 Hr2. unfold split_node.
  eapply wp_node; [exact Hid|]. eapply wp_update; [exact Hb1|].
  eapply wp_update; [simpl; rewrite lookup_insert_ne by done; exact Hb2|]. simpl.
  set (ns0 := <[b2 := _]> (<[b1 := _]> (nodes t))). set (t0 := set_nodes _ ns0).
  assert (t0 ≈ set_nodes t ns0) as E0 by done.
  assert (pool_inv t0) as P0.
  { rewrite E0. apply pool_inv_nodes; [done|]. intros x Hx. unfold ns0. rewrite !lookup_insert_is_Some'. auto. }
  eapply wp_seq.
  { apply (wp_links t0 id ty pv nx recs b1 b2); try done.
    - simpl. unfold ns0. by rewrite !lookup_insert_ne by done.
    - simpl. unfold ns0. rewrite lookup_insert_ne by done. by rewrite lookup_insert_eq.
    - simpl. unfold ns0. by rewrite lookup_insert_eq.
    - intros Hz. destruct (Hpv Hz) as (? & ? & ? & ? & ?). done.
    - intros Hz. destruct (Hnx Hz) as (? & ? & ? & ?). done. }
  intros _ t1 (C1 & ns1 & S1 & [R1 R2 Rp Rn Ro]).
  assert (ns1 !! id = Some (Bnode id ty pv nx recs)) as Hid1.
  { rewrite Ro; [simpl; unfold ns0; by rewrite !lookup_insert_ne by done|done|done| |].
    - intros ->. destruct (decide (pv = 0)) as [|Hz]; [done|]. by destruct (Hpv Hz) as (_ & _ & _ & _ & ?).
    - intros ->. destruct (decide (nx = 0)) as [|Hz]; [done|]. by destruct (Hnx Hz) as (_ & _ & _ & ?). }
  eapply wp_node; [simpl; rewrite (sim_nodes _ _ S1); exact Hid1|]. simpl.
  apply wp_BUG_ON; [apply Z.eqb_neq; destruct recs; simpl; [done|lia]|].
  rewrite Nat2Z.id, Hsp. apply wp_BUG_ON.
  { apply orb_false_intro; apply Z.ltb_ge; lia. }
  eapply wp_update; [simpl; rewrite (sim_nodes _ _ S1); exact R1|].
  unfold update. eapply wp_node.
  { simpl. rewrite lookup_insert_ne by done. rewrite (sim_nodes _ _ S1). exact R2. }
  unfold wp, modify. simpl. split; [done|]. rewrite (sim_nodes _ _ S1). simpl.
  exists (<[b2 := Bnode b2 ty b1 nx l2]> (<[b1 := Bnode b1 ty pv b2 l1]> ns1)).
  split; [rewrite S1; by split|]. constructor.
  - rewrite lookup_insert_ne by done. by rewrite lookup_insert_eq.
  - by rewrite lookup_insert_eq.
  - intros Hz. destruct (Hpv Hz) as (_ & Hp1 & Hp2 & _). rewrite !lookup_insert_ne by done.
    rewrite Rp by done. simpl. unfold ns0. by rewrite !lookup_insert_ne by done.
  - intros Hz. destruct (Hnx Hz) as (_ & Hp1 & Hp2 & _). rewrite !lookup_insert_ne by done.
    rewrite Rn by done. simpl. unfold ns0. by rewrite !lookup_insert_ne by done.
  - intros x Hx1 Hx2 Hxp Hxn. rewrite !lookup_insert_ne by done. rewrite Ro by done.
    simpl. unfold ns0. by rewrite !lookup_insert_ne by done.
Qed.
End split.

(** The level with the two nodes in the place of the one. *)
Lemma last_id_in p A : A <> [] -> last_id p A ∈ ids A.
Proof.
  intros H. destruct A as [|n A _] using rev_ind; [done|]. unfold last_id. rewrite last_snoc.
  destruct n as [id recs]. rewrite ids_app. simpl. set_solver.
Qed.

Lemma last_id_nil_or p A : last_id p A = p \/ last_id p A ∈ ids A.
Proof. destruct (decide (A = [])) as [->|H]; [by left|right; by apply last_id_in]. Qed.

Lemma hd_id_nil_or n B : hd_id n B = n \/ hd_id n B ∈ ids B.
Proof. destruct B as [|[id recs] B]; [by left|right; simpl; set_solver]. Qed.

Lemma chained_relinked ns ns' ty A id recs B b1 b2 l1 l2 :
  chained ns ty 0 (A ++ (id, recs) :: B) 0 -> NoDup (ids A ++ id :: ids B) ->
  Forall (fun x => x <> 0 /\ x <> b1 /\ x <> b2) (ids A ++ id :: ids B) ->
  relinked ns ns' ty (last_id 0 A) (hd_id 0 B) b1 b2 l1 l2 ->
  chained ns' ty 0 (A ++ (b1, l1) :: (b2, l2) :: B) 0.
Proof.
  intros Hc Hnd Hids [R1 R2 Rp Rn Ro]. apply chained_app in Hc as [HA HB]. simpl in HA, HB.
  destruct HB as [_ HB]. rewrite Forall_forall in Hids.
  apply NoDup_app in Hnd as (HndA & HAB & HndB). apply NoDup_cons in HndB as [HidB HndB].
  apply chained_app. simpl. split; [|split; [done|split; [done|]]].
  - destruct A as [|[pv ra] A0 _] using rev_ind; [done|].
    assert (last_id 0 (A0 ++ [(pv, ra)]) = pv) as Epv by (unfold last_id; by rewrite last_snoc).
    rewrite Epv in *. rewrite ids_app in *. simpl in *.
    destruct (Hids pv ltac:(set_solver)) as (Hpv0 & Hpv1 & Hpv2).
    apply chained_app in HA as [HA0 HA1]. simpl in HA1. destruct HA1 as [HA1 _].
    apply chained_app. simpl. split; [|split; [|done]].
    + eapply chained_frame; [|exact HA0]. intros x Hx.
      apply NoDup_app in HndA as (_ & Hd & _). destruct (Hids x ltac:(set_solver)) as (Hx0 & Hx1 & Hx2).
      apply Ro; try done.
      * intros ->. specialize (Hd _ Hx). set_solver.
      * intros E. destruct (hd_id_nil_or 0 B) as [|Hin]; [done|]. rewrite <- E in Hin.
        specialize (HAB x ltac:(set_solver)). set_solver.
    + rewrite Rp by done. rewrite HA1. done.
  - destruct B as [|[nx rb] B0]; [done|]. simpl in *. destruct HB as [HB1 HB2].
    destruct (Hids nx ltac:(set_solver)) as (Hnx0 & Hnx1 & Hnx2). split; [rewrite Rn by done; by rewrite HB1|].
    eapply chained_frame; [|exact HB2]. intros x Hx. apply NoDup_cons in HndB as [Hn HndB].
    destruct (Hids x ltac:(set_solver)) as (Hx0 & Hx1 & Hx2). apply Ro; try done.
    + intros E. destruct (last_id_nil_or 0 A) as [|Hin]; [done|]. rewrite <- E in Hin.
      specialize (HAB x Hin). set_solver.
    + intros ->. done.
Qed.

(** ** The tree between two turns *)
Section partial.
Context (N max_record_len : Z) (comp_fn : record -> record -> Z) (key_ok : record -> Prop).
Abbreviation level_ok := (level_ok N max_record_len comp_fn key_ok).
Abbreviation stack_ok := (stack_ok N max_record_len comp_fn key_ok).
Abbreviation stack_cut := (stack_cut N max_record_len comp_fn key_ok).
Abbreviation tree_ok := (tree_ok N max_record_len comp_fn key_ok).
Abbreviation tree_cut := (tree_cut N max_record_len comp_fn key_ok).
Abbreviation rec_valid := (rec_valid max_record_len key_ok).
Abbreviation node_ok := (node_ok N max_record_len key_ok).
Implicit Types (A B L U : level) (lo lv up : list level).
(** The level that the insertion began at; below it the tree can be cut. *)
Context (k : nat).

Record partial (t : btree) lo lv : Prop := {
  pa_pool : pool_inv t;
  pa_bits : bits_num t <= 2 ^ 32;
  pa_cut : (k <= length lo)%nat;
  pa_lo : stack_cut (nodes t) k lo;
  pa_hi : stack_ok (nodes t) (length lo) lv;
  pa_top : top_is lv (root_bnode_id t);
  pa_height : btree_height t = Z.of_nat (length lo + length lv);
  pa_nodup : NoDup (all_ids (lo ++ lv));
  pa_used : Forall (used t) (all_ids (lo ++ lv))
}.

Lemma partial_tree t lo lv : partial t lo lv -> meet comp_fn (drop k lo) lv -> tree_cut k t (lo ++ lv).
Proof.
  intros [H1 H2 Hk H3 H4 [recs H5] H6 H7 H8] Hm. constructor; try done.
  - by apply stack_cut_app.
  - exists recs. rewrite last_app. by rewrite H5.
  - by rewrite length_app.
Qed.

Lemma cut_partial t lo lv : length lo = k -> lv <> [] -> tree_cut k t (lo ++ lv) -> partial t lo lv.
Proof.
  intros El Hne [H1 H2 [recs H3] H4 H5 H6 H7]. apply stack_cut_app in H2 as (H2 & H2' & _); [|lia].
  constructor; try done; [lia| |by rewrite H4, length_app].
  exists recs. rewrite last_app in H3. destruct (last lv) eqn:E; [done|]. by apply last_None in E.
Qed.

Lemma partial_sim t t' lo lv : t ≈ t' -> partial t lo lv -> partial t' lo lv.
Proof.
  intros S [H1 H2 Hk H3 H4 H5 H6 H7 H8]. constructor; rewrite <- ?(sim_nodes _ _ S), <- ?(sim_root _ _ S),
    <- ?(sim_height _ _ S); try done.
  - by rewrite <- S.
  - unfold bits_num in *. by rewrite <- (sim_bits _ _ S).
  - eapply Forall_impl; [exact H8|]. intros id Hu. by rewrite <- S.
Qed.

(** The current node. *)
Lemma partial_node t lo A id recs B up : partial t lo ((A ++ (id, recs) :: B) :: up) ->
  used t id /\ nodes t !! id = Some (Bnode id (level_type (length lo)) (last_id 0 A) (hd_id 0 B) recs) /\
  node_ok (length lo) recs /\ level_ok (nodes t) (length lo) (A ++ (id, recs) :: B).
Proof.
  intros H. pose proof (pa_hi _ _ _ H) as [HL _]. pose proof (pa_used _ _ _ H) as Hu.
  rewrite all_ids_app, all_ids_cons, ids_app in Hu. simpl in Hu. rewrite !Forall_app, Forall_cons in Hu.
  split; [tauto|]. split; [|split; [|done]].
  - pose proof (lo_chain _ _ _ _ _ _ _ HL) as Hc. by apply chained_lookup in Hc.
  - pose proof (lo_nodes _ _ _ _ _ _ _ HL) as Hn. apply Forall_app in Hn as [_ Hn].
    by apply Forall_cons in Hn as [Hn _].
Qed.

(** The ids of the level are not those of other levels. *)
Lemma partial_ids t lo A id recs B up : partial t lo ((A ++ (id, recs) :: B) :: up) ->
  NoDup (ids A ++ id :: ids B) /\ id ∉ all_ids lo /\ id ∉ all_ids up /\
  (forall x, x ∈ ids A ++ ids B -> x ∉ all_ids lo /\ x ∉ all_ids up) /\
  (forall x, x ∈ all_ids lo -> x ∉ all_ids up) /\ NoDup (all_ids lo) /\ NoDup (all_ids up).
Proof.
  intros H. pose proof (pa_nodup _ _ _ H) as Hnd. rewrite all_ids_app, all_ids_cons, ids_app in Hnd.
  simpl in Hnd. apply NoDup_app in Hnd as (H1 & H2 & H3). apply NoDup_app in H3 as (H3 & H4 & H5).
  split; [done|]. split; [intros Hx; apply (H2 _ Hx); set_solver|]. split; [apply H4; set_solver|].
  split; [|split; [|done]].
  - intros x Hx. split; [|apply H4; set_solver]. intros Hx2. apply (H2 _ Hx2). set_solver.
  - intros x Hx Hx2. apply (H2 _ Hx). set_solver.
Qed.

(** The records of the current node change, not its first key. *)
Lemma partial_update t lo A id recs recs' B up :
  partial t lo ((A ++ (id, recs) :: B) :: up) -> node_ok (length lo) recs' ->
  sorted comp_fn (flat A ++ recs' ++ flat B) ->
  (forall u, comp_fn u (first_rec recs') = comp_fn u (first_rec recs)) ->
  partial (set_nodes t (<[id := Bnode id (level_type (length lo)) (last_id 0 A) (hd_id 0 B) recs']> (nodes t)))
    lo ((A ++ (id, recs') :: B) :: up).
Proof.
  intros H Hn' Hs Hf. destruct (partial_node _ _ _ _ _ _ _ H) as (Hu & Hn & _ & [Hc Hns _]).
  destruct (partial_ids _ _ _ _ _ _ _ H) as (Hnd & Hlo & Hup & _).
  destruct H as [H1 H2 Hk H3 H4 H5 H6 H7 H8]. simpl in H4. destruct H4 as (_ & Hb & Hst).
  assert (ids (A ++ (id, recs') :: B) = ids (A ++ (id, recs) :: B)) as Hids by (by rewrite !ids_app).
  constructor; simpl; try done.
  - by apply pool_inv_insert.
  - eapply stack_cut_frame; [|exact H3]. intros x Hx. apply lookup_insert_ne. by intros ->.
  - split; [|split].
    + constructor.
      * apply chained_app in Hc as [HA HB]. simpl in HA, HB. destruct HB as [_ HB].
        apply NoDup_app in Hnd as (_ & HA' & [HB' _]%NoDup_cons).
        apply chained_app. simpl. split; [|split].
        -- eapply chained_frame; [|exact HA]. intros x Hx. apply lookup_insert_ne.
           intros ->. apply (HA' _ Hx). set_solver.
        -- by rewrite lookup_insert_eq.
        -- eapply chained_frame; [|exact HB]. intros x Hx. apply lookup_insert_ne. by intros ->.
      * apply Forall_app in Hns as [HA [_ HB]%Forall_cons]. apply Forall_app. split; [done|].
        by apply Forall_cons.
      * by rewrite flat_app, flat_cons.
    + destruct up as [|U up]; [done|]. unfold between in *. apply Forall2_app_inv_r in Hb as (l1 & l2 & HA & HB & E).
      rewrite E. apply Forall2_app; [done|]. inversion HB as [|u n l2' ? Hp Hp2]; subst. constructor; [|done].
      destruct Hp as [Hp Hkey]. split; [done|]. simpl in *. by rewrite Hf.
    + eapply stack_ok_frame; [|exact Hst]. intros x Hx. apply lookup_insert_ne. by intros ->.
  - destruct H5 as [tr H5]. destruct up as [|U up]; [|by exists tr].
    simpl in H5. exists recs'. destruct A as [|a A]; [|by destruct A]. destruct B; [|done]. simpl in *. by simplify_eq.
  - rewrite all_ids_app, all_ids_cons, Hids. by rewrite all_ids_app, all_ids_cons in H7.
  - rewrite all_ids_app, all_ids_cons, Hids. by rewrite all_ids_app, all_ids_cons in H8.
Qed.

(** The current node is replaced by two; the connection to the levels above
    is left to repair. *)
Lemma level_split t lo A id recs B up ns' b1 b2 l1 l2 :
  partial t lo ((A ++ (id, recs) :: B) :: up) -> ~ used t b1 -> ~ used t b2 ->
  relinked (nodes t) ns' (level_type (length lo)) (last_id 0 A) (hd_id 0 B) b1 b2 l1 l2 ->
  node_ok (length lo) l1 -> node_ok (length lo) l2 -> sorted comp_fn (flat A ++ (l1 ++ l2) ++ flat B) ->
  level_ok ns' (length lo) (A ++ (b1, l1) :: (b2, l2) :: B) /\
  (forall x, x ∈ all_ids lo -> ns' !! x = nodes t !! x) /\
  (forall x, x ∈ all_ids up -> ns' !! x = nodes t !! x).
Proof.
  intros H Hb1 Hb2 HR Hn1 Hn2 Hs. destruct (partial_node _ _ _ _ _ _ _ H) as (Hu & Hn & _ & [Hc Hns _]).
  destruct (partial_ids _ _ _ _ _ _ _ H) as (Hnd & Hlo & Hup & Hx & Hlu & _).
  pose proof (pa_used _ _ _ H) as Hused. rewrite all_ids_app, all_ids_cons, ids_app in Hused. simpl in Hused.
  rewrite !Forall_app, Forall_cons in Hused. destruct Hused as (Ulo & (UA & _ & UB) & Uup).
  rewrite Forall_forall in Ulo, UA, UB, Uup.
  assert (forall x, used t x -> x <> 0 /\ x <> b1 /\ x <> b2) as Hne.
  { intros x Hxu. split; [destruct Hxu; lia|]. split; by intros ->. }
  assert (forall x, (x ∈ all_ids lo \/ x ∈ all_ids up) -> ns' !! x = nodes t !! x) as Hframe.
  { intros x Hin. assert (used t x) as Hxu by (destruct Hin; auto).
    destruct (Hne x Hxu) as (Hx0 & Hx1 & Hx2). apply (rl_o _ _ _ _ _ _ _ _ _ HR); try done.
    - intros E. destruct (last_id_nil_or 0 A) as [|Hin2]; [done|]. exfalso. rewrite <- E in Hin2.
      destruct (Hx x ltac:(set_solver)). tauto.
    - intros E. destruct (hd_id_nil_or 0 B) as [|Hin2]; [done|]. exfalso. rewrite <- E in Hin2.
      destruct (Hx x ltac:(set_solver)). tauto. }
  split; [|split; intros x Hin; apply Hframe; tauto].
  constructor.
  - eapply chained_relinked; [exact Hc|done| |exact HR]. apply Forall_app. split; [|apply Forall_cons; split].
    + apply Forall_forall. auto.
    + auto.
    + apply Forall_forall. auto.
  - apply Forall_app in Hns as [HA [_ HB]%Forall_cons]. apply Forall_app. split; [done|].
    apply Forall_cons. split; [done|]. by apply Forall_cons.
  - rewrite flat_app, !flat_cons. simpl. by rewrite (app_assoc l1).
Qed.

Lemma split_ids lo A id (recs : list record) B up b1 b2 (l1 l2 : list record) :
  NoDup (all_ids (lo ++ (A ++ (id, recs) :: B) :: up)) -> b1 <> b2 ->
  b1 ∉ all_ids (lo ++ (A ++ (id, recs) :: B) :: up) -> b2 ∉ all_ids (lo ++ (A ++ (id, recs) :: B) :: up) ->
  NoDup (all_ids ((lo ++ [A ++ (b1, l1) :: (b2, l2) :: B]) ++ up)).
Proof.
  rewrite <- app_assoc. simpl. rewrite !all_ids_app, !all_ids_cons, !ids_app. simpl. intros Hnd H12 H1 H2.
  assert (all_ids lo ++ (ids A ++ b1 :: b2 :: ids B) ++ all_ids up ≡ₚ
          b1 :: b2 :: (all_ids lo ++ (ids A ++ ids B) ++ all_ids up)) as HP by solve_Permutation.
  assert (all_ids lo ++ (ids A ++ id :: ids B) ++ all_ids up ≡ₚ
          id :: (all_ids lo ++ (ids A ++ ids B) ++ all_ids up)) as HP2 by solve_Permutation.
  rewrite HP. rewrite HP2 in Hnd, H1, H2. apply NoDup_cons in Hnd as [_ Hnd].
  apply NoDup_cons. split; [set_solver|]. apply NoDup_cons. split; [set_solver|]. done.
Qed.

Lemma partial_split t t' lo A id recs B U up ns' b1 b2 l1 l2 :
  partial t lo ((A ++ (id, recs) :: B) :: U :: up) -> ~ used t b1 -> ~ used t b2 -> b1 <> b2 ->
  relinked (nodes t) ns' (level_type (length lo)) (last_id 0 A) (hd_id 0 B) b1 b2 l1 l2 ->
  node_ok (length lo) l1 -> node_ok (length lo) l2 -> sorted comp_fn (flat A ++ (l1 ++ l2) ++ flat B) ->
  meet comp_fn (drop k lo) [A ++ (b1, l1) :: (b2, l2) :: B] ->
  pool_inv t' -> bits_num t' <= 2 ^ 32 -> nodes t' = ns' ->
  btree_height t' = btree_height t -> root_bnode_id t' = root_bnode_id t ->
  used t' b1 -> used t' b2 -> (forall x, used t x -> x <> id -> used t' x) ->
  partial t' (lo ++ [A ++ (b1, l1) :: (b2, l2) :: B]) (U :: up).
Proof.
  intros H Hb1 Hb2 H12 HR Hn1 Hn2 Hs Hmeet Hp Hbits Ens Eh Er U1 U2 Hused.
  destruct (level_split _ _ _ _ _ _ _ _ _ _ _ _ H Hb1 Hb2 HR Hn1 Hn2 Hs) as (HL & Hlo & Hup).
  destruct (partial_ids _ _ _ _ _ _ _ H) as (_ & Hidlo & Hidup & _).
  assert (forall b, ~ used t b -> b ∉ all_ids (lo ++ (A ++ (id, recs) :: B) :: U :: up)) as Hfresh.
  { intros b Hb Hin. apply Hb. pose proof (pa_used _ _ _ H) as Hu. rewrite Forall_forall in Hu. auto. }
  pose proof (pa_hi _ _ _ H) as (_ & _ & Hst). destruct (pa_top _ _ _ H) as [tr Htop].
  pose proof (split_ids lo A id recs B (U :: up) b1 b2 l1 l2 (pa_nodup _ _ _ H) H12 (Hfresh _ Hb1) (Hfresh _ Hb2)) as Hnd.
  constructor; rewrite ?Ens, ?Eh, ?Er; try done.
  - rewrite length_app. pose proof (pa_cut _ _ _ H). lia.
  - apply stack_cut_app; [apply (pa_cut _ _ _ H)|]. split; [|split; [|done]].
    + eapply stack_cut_frame; [exact Hlo|]. apply (pa_lo _ _ _ H).
    + simpl. done.
  - replace (length (lo ++ [_])) with (S (length lo)) by (rewrite length_app; simpl; lia).
    eapply stack_ok_frame; [exact Hup|]. done.
  - exists tr. simpl in Htop. done.
  - rewrite (pa_height _ _ _ H), length_app. simpl. lia.
  - pose proof (pa_used _ _ _ H) as Hu. rewrite Forall_forall in Hu. apply Forall_forall. intros x Hx.
    rewrite <- app_assoc in Hx. simpl in Hx. rewrite all_ids_app, all_ids_cons, ids_app in Hx. simpl in Hx.
    rewrite all_ids_app, all_ids_cons, ids_app in Hu. simpl in Hu.
    destruct (partial_ids _ _ _ _ _ _ _ H) as (Hndl & _).
    apply NoDup_app in Hndl as (_ & HA & [HB _]%NoDup_cons).
    destruct (decide (x = b1)) as [->|Hx1]; [done|]. destruct (decide (x = b2)) as [->|Hx2]; [done|].
    apply Hused; [apply Hu; set_solver|]. intros ->.
    apply elem_of_app in Hx as [Hx|Hx]; [done|]. apply elem_of_app in Hx as [Hx|Hx]; [|done].
    apply elem_of_app in Hx as [Hx|Hx]; [apply (HA _ Hx); set_solver|set_solver].
Qed.

(** The root is replaced by two nodes and becomes their parent. *)
Lemma partial_root t t' lo id recs ns' b1 b2 l1 l2 u1 u2 :
  partial t lo [[(id, recs)]] -> ~ used t b1 -> ~ used t b2 -> b1 <> b2 ->
  relinked (nodes t) ns' (level_type (length lo)) 0 0 b1 b2 l1 l2 ->
  node_ok (length lo) l1 -> node_ok (length lo) l2 -> sorted comp_fn (l1 ++ l2) ->
  meet comp_fn (drop k lo) [[(b1, l1); (b2, l2)]] ->
  node_ok (S (length lo)) [u1; u2] -> points comp_fn u1 (b1, l1) -> points comp_fn u2 (b2, l2) ->
  lt comp_fn u1 u2 ->
  pool_inv t' -> bits_num t' <= 2 ^ 32 ->
  nodes t' = <[id := Bnode id EMMCFS_NODE_INDEX 0 0 [u1; u2]]> ns' ->
  btree_height t' = btree_height t + 1 -> root_bnode_id t' = id ->
  used t' b1 -> used t' b2 -> (forall x, used t x -> used t' x) ->
  tree_cut k t' (lo ++ [[(b1, l1); (b2, l2)]; [(id, [u1; u2])]]).
Proof.
  intros H Hb1 Hb2 H12 HR Hn1 Hn2 Hs Hmeet Hnu Hp1 Hp2 Hlt Hp Hbits Ens Eh Er U1 U2 Hused.
  pose proof (level_split t lo [] id recs [] [] ns' b1 b2 l1 l2 H Hb1 Hb2 HR Hn1 Hn2) as (HL & Hlo & _).
  { simpl. by rewrite app_nil_r. }
  destruct (partial_ids t lo [] id recs [] [] H) as (_ & Hidlo & _ & _ & _ & Hndlo & _).
  destruct (partial_node t lo [] id recs [] [] H) as (Hid & _).
  assert (forall b, ~ used t b -> b ∉ id :: all_ids lo) as Hfresh.
  { intros b Hb Hin. apply Hb. pose proof (pa_used _ _ _ H) as Hu. rewrite Forall_forall in Hu. apply Hu.
    rewrite all_ids_app, all_ids_cons. simpl. set_solver. }
  pose proof (Hfresh b1 Hb1) as F1. pose proof (Hfresh b2 Hb2) as F2.
  constructor; rewrite ?Ens, ?Eh, ?Er; try done.
  - apply stack_cut_app; [apply (pa_cut _ _ _ H)|]. split; [|split].
    + eapply stack_cut_frame; [|apply (pa_lo _ _ _ H)]. intros x Hx. rewrite lookup_insert_ne by (intros ->; done).
      by apply Hlo.
    + simpl. split; [|split; [|split; [|done]]].
      * destruct HL as [Hc Hns Hss]. split; [|done|done].
        eapply chained_frame; [|exact Hc]. simpl. intros x Hx. apply lookup_insert_ne. set_solver.
      * unfold between. simpl. apply Forall2_cons. split; [done|]. apply Forall2_cons. split; [done|]. constructor.
      * split; simpl.
        -- split; [|done]. by rewrite lookup_insert_eq.
        -- by apply Forall_singleton.
        -- unfold sorted, flat. simpl. apply SSorted_cons. split; [|by apply Forall_singleton].
           apply SSorted_cons. split; constructor.
    + unfold meet in *. by destruct (last (drop k lo)).
  - exists [u1; u2]. by rewrite last_app.
  - rewrite (pa_height _ _ _ H), length_app. simpl. lia.
  - rewrite all_ids_app. unfold all_ids at 2. simpl.
    apply NoDup_app. split; [done|]. split; [set_solver|].
    apply NoDup_cons. split; [set_solver|]. apply NoDup_cons. split; [set_solver|]. apply NoDup_singleton.
  - pose proof (pa_used _ _ _ H) as Hu. rewrite all_ids_app, Forall_app in Hu. destruct Hu as [Hu _].
    rewrite all_ids_app. apply Forall_app. split.
    + eapply Forall_impl; [exact Hu|]. auto.
    + unfold all_ids. simpl. rewrite !Forall_cons. auto.
Qed.
End partial.

Lemma tree_partial N max_record_len comp_fn key_ok t lv : lv <> [] ->
  tree_ok N max_record_len comp_fn key_ok t lv -> partial N max_record_len comp_fn key_ok 0 t [] lv.
Proof. intros Hne Ht%tree_ok_cut. by apply cut_partial. Qed.

(** ** Allocation *)
Record allocated (t t' : btree) (b : Z) : Prop := {
  al_pool : pool_inv t';
  al_fresh : ~ used t b;
  al_used : forall x, used t' x <-> used t x \/ x = b;
  al_nodes : forall x, x <> b -> nodes t' !! x = nodes t !! x;
  al_some : is_Some (nodes t' !! b);
  al_height : btree_height t' = btree_height t;
  al_root : root_bnode_id t' = root_bnode_id t;
  al_bits : bits_num t' = bits_num t;
  al_num : free_num t' = free_num t - 1;
  al_range : 0 < b < bits_num t
}.

Section steps.
Context (N max_record_len log_pages_per_node : Z) (mounted : bool) (beyond : Z -> bool) (grow : Z -> Z -> Z).

Lemma wp_alloc_ok t : pool_inv t -> calm t -> 0 < free_num t ->
  wp (emmcfs_alloc_new_bnode mounted beyond grow) t (ok (fun h t' =>
    calm t' /\ exists b, h = Handle b true /\ allocated t t' b)).
Proof.
  intros Hp Hc Hn. apply wp_alloc; [done| |lia|done|done]. intros Hne t' S C. split; [auto|].
  exists (first_free_id t). split; [done|]. destruct (first_free_clear t Hp Hne) as [Hlt Hbit].
  unfold bits_num in *. constructor.
  - rewrite S. by apply after_alloc_inv.
  - intros [_ ?]. congruence.
  - intros x. rewrite S. unfold used, after_alloc. simpl.
    destruct (decide (x = first_free_id t)) as [->|Hx].
    + rewrite list_lookup_insert_eq by lia. split; [by right|]. intros _. split; [lia|done].
    + split.
      * intros [Hx0 Hb]. rewrite list_lookup_insert_ne in Hb by lia. by left.
      * intros [[Hx0 Hb]|?]; [|done]. by rewrite list_lookup_insert_ne by lia.
  - intros x Hx. rewrite (sim_nodes _ _ S). simpl. by rewrite lookup_insert_ne.
  - rewrite (sim_nodes _ _ S). simpl. rewrite lookup_insert_eq. by eexists.
  - by rewrite (sim_height _ _ S).
  - by rewrite (sim_root _ _ S).
  - unfold bits_num. rewrite (sim_bits _ _ S). simpl. by rewrite length_insert.
  - by rewrite (sim_num _ _ S).
  - done.
Qed.

(** The reserve of nodes: pages are added to the file. *)
Lemma wp_reserve c t : calm t ->
  wp (if c : bool then check_bnode_reserve log_pages_per_node grow else ret tt) t (ok (fun _ t' =>
    calm t' /\ exists ns, t' ≈ set_nodes t ns /\ (forall x n, nodes t !! x = Some n -> ns !! x = Some n))).
Proof.
  intros Hc.
  assert (calm t /\ exists ns, t ≈ set_nodes t ns /\ (forall x n, nodes t !! x = Some n -> ns !! x = Some n)) as Hid.
  { split; [done|]. exists (nodes t). done. }
  destruct c; [|by apply wp_ret]. unfold check_bnode_reserve. apply wp_gets. destruct (_ <=? _); [by apply wp_ret|].
  unfold emmcfs_prealloc_bnode_reserve. apply wp_bind, wp_create_bnode; [|done].
  intros t1 S1 C1. unfold emmcfs_put_cache_bnode.
  set (id := u32 _) in *.
  assert (forall x n, nodes t !! x = Some n ->
    <[id:=default blank_node (nodes t !! id)]> (nodes t) !! x = Some n) as Hext.
  { intros x n Hx. destruct (decide (x = id)) as [->|Hne]; [rewrite lookup_insert_eq; by rewrite Hx|].
    by rewrite lookup_insert_ne. }
  unfold __put_bnode. destruct (_ && _).
  - unfold wp, modify. simpl. split; [by apply C1|]. eexists. split; [rewrite set_cache_sim; exact S1|done].
  - apply wp_ret. split; [by apply C1|]. eexists. split; [exact S1|done].
Qed.

Lemma wp_form t b n r l {B} (k : record -> M B) Q : nodes t !! b = Some n -> bn_recs n = r :: l ->
  record_ok r -> rlen r <= max_record_len -> Z.of_nat (length (bn_recs n)) < 2 ^ 32 ->
  wp (k (form_record r b)) t Q ->
  wp (bind (form_adding_record max_record_len (Handle b true)) k) t Q.
Proof.
  intros Hn Hl Hr Hmax Hlen H. apply wp_bind. unfold form_adding_record.
  eapply wp_node; [exact Hn|]. change 0 with (Z.of_nat 0). eapply get_rec_or_bug; [by rewrite Hl|done|].
  apply wp_BUG_ON; [|by apply wp_ret]. rewrite (ro_len _ Hr), Z.gtb_ltb. apply Z.ltb_ge. lia.
Qed.

Lemma wp_insert_into h n r pos t {B} (k : unit -> M B) Q : nodes t !! h_id h = Some n -> record_ok r ->
  rlen r <= bn_free N n ->
  wp (k tt) (set_nodes t (<[h_id h := node_insert n r (Z.to_nat pos)]> (nodes t))) Q ->
  wp (bind (insert_into N h r pos) k) t Q.
Proof.
  intros Hn Hr Hf H. apply wp_bind. unfold insert_into. eapply wp_node; [exact Hn|].
  apply wp_BUG_ON; [apply Z.ltb_ge; rewrite (ro_len _ Hr); lia|].
  apply wp_BUG_ON; [apply Z.ltb_ge; destruct Hr; unfold sizeof_off; lia|].
  unfold update. eapply wp_node; [exact Hn|]. by unfold wp, modify.
Qed.

Lemma wp_set_value h n i u id t {B} (k : unit -> M B) Q : nodes t !! h_id h = Some n ->
  bn_recs n !! i = Some u -> Z.of_nat (length (bn_recs n)) < 2 ^ 32 ->
  wp (k tt) (set_nodes t (<[h_id h := set_recs n (<[i := set_child_id u id]> (bn_recs n))]> (nodes t))) Q ->
  wp (bind (set_value h (Z.of_nat i) id) k) t Q.
Proof.
  intros Hn Hi Hl H. apply wp_bind. unfold set_value. eapply wp_node; [exact Hn|].
  eapply get_rec_or_bug; [exact Hi|done|]. rewrite Nat2Z.id. unfold update.
  eapply wp_node; [exact Hn|]. by unfold wp, modify.
Qed.

Lemma wp_add_chunk_or_bug t {B} (k : unit -> M B) Q : calm t ->
  (forall t', t' ≈ t -> calm t' -> wp (k tt) t' Q) -> wp (bind EMMCFS_ADD_CHUNK_or_bug k) t Q.
Proof.
  intros Hc H. unfold EMMCFS_ADD_CHUNK_or_bug. eapply wp_seq.
  { eapply wp_try_ok; [apply (wp_call_ok t (fun _ t' => t' ≈ t /\ calm t')); [done|auto]|].
    intros [] t' [S C]. apply wp_ret. instantiate (1 := fun _ t' => t' ≈ t /\ calm t'). done. }
  intros [] t' [S C]. auto.
Qed.

Lemma wp_update_root t id n r1 r2 b1 : calm t -> nodes t !! id = Some n -> record_ok r1 -> record_ok r2 ->
  27 + room [r1; r2] <= N -> 0 <= btree_height t -> btree_height t + 1 < 2 ^ 16 ->
  wp (update_root_descriptor N (Handle id true) r1 r2 b1) t (ok (fun _ t' =>
    calm t' /\ t' ≈ set_head (set_nodes t (<[id := Bnode id EMMCFS_NODE_INDEX 0 0 [set_child_id r1 b1; r2]]> (nodes t)))
                      (btree_height t + 1) id)).
Proof.
  intros Hc Hn Hr1 Hr2 Hroom Hh1 Hh2. simpl in Hroom. pose proof (rlen_nonneg r1). pose proof (rlen_nonneg r2).
  unfold sizeof_off in Hroom. unfold update_root_descriptor.
  eapply wp_update; [exact Hn|]. simpl.
  eapply wp_insert_into; [simpl; by rewrite lookup_insert_eq|done|unfold bn_free, sizeof_descr, sizeof_off, EMMCFS_BNODE_FIRST_OFFSET; simpl; lia|].
  simpl. eapply wp_insert_into; [simpl; by rewrite lookup_insert_eq|done|unfold bn_free, sizeof_descr, sizeof_off, EMMCFS_BNODE_FIRST_OFFSET; simpl; unfold sizeof_off; lia|].
  eapply (wp_set_value _ _ 0%nat r1 b1); [simpl; by rewrite lookup_insert_eq|done|simpl; lia|]. simpl.
  unfold emmcfs_btree_inc_height. apply wp_bind, wp_gets. simpl.
  apply wp_add_chunk_or_bug; [done|]. intros t1 S1 C1. apply wp_modify.
  unfold emmcfs_mark_bnode_dirty at 1. apply wp_BUG_ON; [done|]. unfold wp at 1, modify. simpl.
  unfold emmcfs_btree_set_root_id. apply wp_bind.
  apply wp_add_chunk_or_bug; [done|]. intros t2 S2 C2. apply wp_modify.
  unfold emmcfs_mark_bnode_dirty at 1. apply wp_BUG_ON; [done|]. unfold wp at 1, modify. simpl.
  apply wp_dirty; [done|done|]. intros t3 S3 C3. apply wp_dirty; [done|done|]. intros t4 S4 C4.
  apply wp_put_last; [done|]. intros t5 S5 C5. split; [done|].
  rewrite uwrap_small in S2 by lia.
  rewrite S5, S4, S3. destruct S1 as [A1 A2 A3 A4 A5 A6]. destruct S2 as [B1 B2 B3 B4 B5 B6]. simpl in *.
  rewrite !insert_insert_eq in A6. split; simpl; try congruence. by rewrite B6, A6.
Qed.
End steps.

(** ** The loop *)
Section loop.
Context (N max_record_len log_pages_per_node : Z) (comp_fn : record -> record -> Z) (key_ok : record -> Prop)
  `{!KeyOrder comp_fn key_ok} (mounted : bool) (beyond : Z -> bool) (grow : Z -> Z -> Z).
(** The level that the insertion begins at. *)
Context (k : nat).
(** Nodes are large enough to be split. *)
Context (HN : node_size_ok N) (Hmax : max_record_len + 31 <= N / 2).
Abbreviation level_ok := (level_ok N max_record_len comp_fn key_ok).
Abbreviation tree_ok := (tree_ok N max_record_len comp_fn key_ok).
Abbreviation tree_cut := (tree_cut N max_record_len comp_fn key_ok).
Abbreviation partial := (partial N max_record_len comp_fn key_ok k).
Abbreviation rec_valid := (rec_valid max_record_len key_ok).
Abbreviation node_ok := (node_ok N max_record_len key_ok).
Abbreviation sorted := (sorted comp_fn).
Abbreviation points := (points comp_fn).
Abbreviation insert_step := (insert_step N max_record_len log_pages_per_node mounted beyond grow).
Abbreviation insert_loop := (insert_loop N max_record_len log_pages_per_node mounted beyond grow).
Implicit Types (A B L U : level) (lo lv up : list level) (l recs : list record).

Lemma max_small : max_record_len < 2 ^ 15.
Proof using HN Hmax. destruct HN. pose proof (Z.mul_div_le N 2 ltac:(lia)). lia. Qed.

(** *** Order *)
Lemma same_key_eq r s x : same_key r s -> key_ok s -> comp_fn r x = comp_fn s x /\ comp_fn x r = comp_fn x s.
Proof using KeyOrder0.
  intros H Hs. apply (ko_same (KeyOrder := KeyOrder0)); [done|]. eapply ko_key; [|exact Hs]. by apply same_key_sym.
Qed.

Lemma sorted_same_key l1 u u' l2 : same_key u' u -> key_ok u -> sorted (l1 ++ u :: l2) -> sorted (l1 ++ u' :: l2).
Proof using KeyOrder0.
  intros Hk Hu Hs. apply SSorted_app in Hs as (H1 & [H2 H3]%SSorted_cons & H4).
  apply SSorted_app. split; [done|]. split; [apply SSorted_cons; split; [done|]|].
  - eapply Forall_impl; [exact H3|]. intros x Hx. unfold lt in *. by rewrite (proj1 (same_key_eq u' u x Hk Hu)).
  - eapply Forall_impl; [exact H4|]. intros x Hx. apply Forall_cons in Hx as [Hx Hx2].
    apply Forall_cons. split; [|done]. unfold lt in *. by rewrite (proj2 (same_key_eq u' u x Hk Hu)).
Qed.

Lemma sorted_up l L : Forall2 points l L -> sorted (flat L) -> Forall (fun n => snd n <> []) L ->
  keys_ok key_ok l -> keys_ok key_ok (flat L) -> sorted l.
Proof using KeyOrder0.
  induction 1 as [|u n l L Hp HF IH]; intros Hs Hne Hkl HkL; [constructor|].
  apply Forall_cons in Hne as [Hn Hne]. apply Forall_cons in Hkl as [Hku Hkl].
  rewrite flat_cons in Hs, HkL. apply Forall_app in HkL as [Hkn HkL].
  apply SSorted_app in Hs as (_ & Hs & Hlt). apply SSorted_cons. split; [by apply IH|].
  apply Forall_lookup. intros i v Hv.
  destruct (Forall2_lookup_l _ _ _ _ _ HF Hv) as (n' & Hn' & Hp').
  assert (first_rec (snd n) ∈ snd n) as Hin.
  { apply list_elem_of_lookup. exists 0%nat. by apply first_rec_lookup. }
  assert (first_rec (snd n') ∈ flat L) as Hin'.
  { unfold flat. apply list_elem_of_In, in_concat. exists (snd n'). split.
    - apply in_map, list_elem_of_In. apply list_elem_of_lookup. eauto.
    - apply list_elem_of_In, list_elem_of_lookup. exists 0%nat. apply first_rec_lookup.
      rewrite Forall_lookup in Hne. by eapply Hne. }
  rewrite Forall_forall in Hlt. specialize (Hlt _ Hin). rewrite Forall_forall in Hlt. specialize (Hlt _ Hin').
  unfold keys_ok in *. rewrite Forall_forall in Hkn, HkL.
  eapply (eq_lt_lt comp_fn key_ok (first_rec (snd n)) u (first_rec (snd n')) v); auto.
  - by eapply Forall_lookup_1.
  - apply Hp.
  - apply Hp'.
Qed.

(** *** Records *)
Lemma form_record_valid r b : rec_valid r -> rec_valid (form_record r b).
Proof using KeyOrder0 HN Hmax.
  intros [Hr Hl Hk Hok]. pose proof max_small. pose proof (form_record_key r b Hr) as Hsk.
  constructor.
  - apply form_record_ok; [done|]. lia.
  - rewrite form_record_len by done. lia.
  - rewrite (proj1 Hsk). lia.
  - eapply ko_key; [|exact Hok]. by apply same_key_sym.
Qed.

Lemma set_child_valid r b : rec_valid r -> rlen r = key_len r + 4 ->
  rec_valid (set_child_id r b) /\ rlen (set_child_id r b) = key_len (set_child_id r b) + 4.
Proof using KeyOrder0.
  intros [Hr Hl Hk Hok] Hlen. pose proof (set_child_id_key r b Hr) as Hsk.
  assert (key_len r + 4 <= rlen r) as Hkl by lia.
  split; [constructor|].
  - by apply set_child_id_ok.
  - rewrite set_child_id_len by done. done.
  - rewrite (proj1 Hsk). lia.
  - eapply ko_key; [|exact Hok]. by apply same_key_sym.
  - rewrite set_child_id_len, (proj1 Hsk) by done. done.
Qed.

Lemma rec_valid_small l : Forall rec_valid l -> small_recs N l.
Proof using Hmax.
  intros H. eapply Forall_impl; [exact H|]. intros r [_ Hr _ _]. unfold sizeof_off. lia.
Qed.

Lemma node_count i recs : node_ok i recs -> Z.of_nat (length recs) < 2 ^ 32.
Proof using HN.
  intros [_ Hr _ _]. destruct HN. assert (Z.of_nat (length recs) <= room recs); [|lia].
  clear. induction recs as [|r l IH]; simpl; [done|]. pose proof (rlen_nonneg r). unfold sizeof_off. lia.
Qed.

Lemma node_ok_sub i recs l1 l2 : node_ok i recs -> Forall rec_valid (l1 ++ l2) -> l1 <> [] ->
  ((0 < i)%nat -> Forall (fun r => rlen r = key_len r + 4) (l1 ++ l2)) -> 27 + room l1 <= N -> node_ok i l1.
Proof using.
  intros _ Hv Hne Hi Hr. apply Forall_app in Hv as [Hv _]. constructor; try done.
  intros H. specialize (Hi H). by apply Forall_app in Hi as [Hi _].
Qed.

Lemma relinked_base ns0 ns ns' ty pv nx b1 b2 l1 l2 :
  (forall x, x <> b1 -> x <> b2 -> ns !! x = ns0 !! x) ->
  (pv <> 0 -> pv <> b1 /\ pv <> b2) -> (nx <> 0 -> nx <> b1 /\ nx <> b2) ->
  relinked ns ns' ty pv nx b1 b2 l1 l2 -> relinked ns0 ns' ty pv nx b1 b2 l1 l2.
Proof using.
  intros Hb Hp Hn [R1 R2 Rp Rn Ro]. constructor; try done.
  - intros Hz. destruct (Hp Hz). rewrite <- Hb by done. by apply Rp.
  - intros Hz. destruct (Hn Hz). rewrite <- Hb by done. by apply Rn.
  - intros x H1 H2 H3 H4. rewrite <- Hb by done. by apply Ro.
Qed.

(** More nodes in memory. *)
Lemma partial_extend t ns lo lv : partial t lo lv -> (forall x n, nodes t !! x = Some n -> ns !! x = Some n) ->
  partial (set_nodes t ns) lo lv.
Proof using.
  intros [H1 H2 Hk H3 H4 H5 H6 H7 H8] Hns.
  assert (forall x, x ∈ all_ids (lo ++ lv) -> ns !! x = nodes t !! x) as Hf.
  { intros x Hx. rewrite Forall_forall in H8. destruct (pi_nodes _ H1 x (H8 x Hx)) as [n Hn].
    rewrite Hn. by apply Hns. }
  rewrite all_ids_app in Hf. constructor; simpl; try done.
  - apply pool_inv_nodes; [done|]. intros x [n Hn]. exists n. by apply Hns.
  - eapply stack_cut_frame; [|exact H3]. intros x Hx. apply Hf. apply elem_of_app. by left.
  - eapply stack_ok_frame; [|exact H4]. intros x Hx. apply Hf. apply elem_of_app. by right.
Qed.

(** *** What an insertion changes *)

(** Nodes with room for at least three records in each half. *)
Definition big_nodes : Prop := 3 * (max_record_len + 4) + 27 <= N / 2.
Definition full recs : Prop := N < 27 + room recs + (max_record_len + 4).

(** The node of the position [q] gets one more record; one that is full may be
    replaced by its halves. *)
Definition grow_at (q : nat) L L' : Prop := exists A id recs B X,
  L = A ++ (id, recs) :: B /\ L' = A ++ X ++ B /\
  (length (flat A) <= q < length (flat A) + length recs)%nat /\ length (flat X) = S (length recs) /\
  ((exists recs', X = [(id, recs')] /\ room recs' <= room recs + (max_record_len + 4)) \/
   full recs /\ (big_nodes -> Forall (fun n => 3 <= length (snd n))%nat X)).

(** One level after the other, from the lowest on; a root that is full gets two
    children. *)
Inductive grows : nat -> list level -> list level -> Prop :=
| grows_stop q L L' up : grow_at q L L' -> grows q (L :: up) (L' :: up)
| grows_next q q' L L' up up' : grow_at q L L' -> grows q' up up' -> grows q (L :: up) (L' :: up')
| grows_root q id recs L' u1 u2 : grow_at q [(id, recs)] L' -> full recs ->
    grows q [[(id, recs)]] [L'; [(id, [u1; u2])]].

(** *** One turn *)

(** The records of the level below, if there is one, are what [l] points to. *)
Definition joins lo l : Prop := match last lo with None => True | Some D => Forall2 points l D end.

(** What the turn knows: the level above the finished ones, its current node
    with the records [q1 ++ u :: q2], and the record to insert behind [u]. *)
Record turn (t : btree) lo A id q1 u q2 B up adding : Prop := {
  tu_partial : partial t lo ((A ++ (id, q1 ++ u :: q2) :: B) :: up);
  tu_calm : calm t;
  tu_valid : rec_valid adding;
  tu_index : (0 < length lo)%nat -> rlen adding = key_len adding + 4;
  tu_sorted : sorted (flat A ++ (q1 ++ u :: adding :: q2) ++ flat B);
  tu_joins : joins (drop k lo) (flat A ++ (q1 ++ u :: adding :: q2) ++ flat B);
  tu_height : btree_height t + 1 < 2 ^ 16;
  tu_room : 2 * Z.of_nat (S (length up)) <= free_num t
}.

Lemma turn_valid t lo A id q1 u q2 B up adding : turn t lo A id q1 u q2 B up adding ->
  Forall rec_valid (q1 ++ u :: adding :: q2) /\
  ((0 < length lo)%nat -> Forall (fun r => rlen r = key_len r + 4) (q1 ++ u :: adding :: q2)).
Proof using.
  intros H. destruct (partial_node _ _ _ _ _ _ _ _ _ _ _ _ (tu_partial _ _ _ _ _ _ _ _ _ _ H)) as (_ & _ & [_ _ Hv Hi] & _).
  split.
  - apply Forall_app in Hv as [H1 [H2 H3]%Forall_cons]. apply Forall_app. split; [done|].
    apply Forall_cons. split; [done|]. apply Forall_cons. split; [apply H|done].
  - intros Hlo. specialize (Hi Hlo). apply Forall_app in Hi as [H1 [H2 H3]%Forall_cons].
    apply Forall_app. split; [done|]. apply Forall_cons. split; [done|]. apply Forall_cons.
    split; [by apply H|done].
Qed.

(** The node has room for the record. *)
Lemma wp_turn_fits t lo A id q1 u q2 B up adding next (Q : unit -> btree -> Prop) n :
  turn t lo A id q1 u q2 B up adding -> nodes t !! id = Some n -> node_full N n adding = false ->
  (forall t', calm t' -> free_num t' = free_num t -> bits_num t' = bits_num t ->
    tree_cut k t' (lo ++ (A ++ (id, q1 ++ u :: adding :: q2) :: B) :: up) -> Q tt t') ->
  wp (insert_step (Handle id true) (Z.of_nat (length q1)) (length up) adding next) t (ok Q).
Proof using KeyOrder0.
  intros H Hn Hfull HQ. destruct (turn_valid _ _ _ _ _ _ _ _ _ _ H) as [Hv Hi].
  destruct H as [Hp Hc Hva Hia Hs Hj Hh Hr].
  destruct (partial_node _ _ _ _ _ _ _ _ _ _ _ _ Hp) as (Hu & Hn' & Hok & _).
  rewrite Hn' in Hn. simplify_eq. unfold Btree.insert_step. eapply wp_node; [exact Hn'|]. rewrite Hfull.
  unfold node_full in Hfull. apply Z.ltb_ge in Hfull. rewrite (ro_len _ (rv_ok _ _ _ Hva)) in Hfull.
  eapply wp_insert_into; [exact Hn'|apply Hva|unfold sizeof_off in *; lia|].
  apply wp_dirty; [done|done|]. intros t1 S1 C1. apply wp_put_last; [done|]. intros t2 S2 C2.
  apply HQ; [done|by rewrite (sim_num _ _ S2), (sim_num _ _ S1)|by unfold bits_num; rewrite (sim_bits _ _ S2), (sim_bits _ _ S1)|].
  assert (node_insert (Bnode id (level_type (length lo)) (last_id 0 A) (hd_id 0 B) (q1 ++ u :: q2)) adding
            (Z.to_nat (Z.of_nat (length q1) + 1)) =
          Bnode id (level_type (length lo)) (last_id 0 A) (hd_id 0 B) (q1 ++ u :: adding :: q2)) as En.
  { unfold node_insert, set_recs. simpl. f_equal.
    replace (Z.to_nat (Z.of_nat (length q1) + 1)) with (length (q1 ++ [u])) by (rewrite length_app; simpl; lia).
    replace (q1 ++ u :: q2) with ((q1 ++ [u]) ++ q2) by (by rewrite <- app_assoc).
    rewrite take_app_length, drop_app_length. by rewrite <- app_assoc. }
  simpl in S1. rewrite En in S1.
  apply (partial_tree N max_record_len comp_fn key_ok k); [|].
  - eapply partial_sim; [symmetry; rewrite S2; exact S1|].
    eapply partial_update; [exact Hp| |done|].
    + constructor; [by destruct q1| |done|done].
      unfold bn_free, sizeof_descr, sizeof_off, EMMCFS_BNODE_FIRST_OFFSET in Hfull. simpl in Hfull.
      rewrite room_app in *. simpl in *. unfold sizeof_off in *. lia.
    + intros v. by destruct q1.
  - unfold meet, joins in *. destruct (last (drop k lo)); [|done]. unfold between.
    by rewrite flat_app, flat_cons.
Qed.

Lemma room_bound l : Forall rec_valid l -> room l <= Z.of_nat (length l) * (max_record_len + 4).
Proof using.
  induction 1 as [|r l [_ Hr _ _] _ IH]; [done|]. cbn [room length]. unfold sizeof_off. lia.
Qed.

Lemma node_full_full recs n adding : bn_recs n = recs -> rec_valid adding -> node_full N n adding = true -> full recs.
Proof using.
  intros <- Hva Hf. unfold node_full in Hf. apply Z.ltb_lt in Hf. rewrite (ro_len _ (rv_ok _ _ _ Hva)) in Hf.
  pose proof (rv_len _ _ _ Hva). unfold full, bn_free, sizeof_descr, sizeof_off, EMMCFS_BNODE_FIRST_OFFSET in *. lia.
Qed.

Lemma halves_three n idx r l1 l2 : node_split N n idx r = (l1, l2) -> Forall rec_valid (l1 ++ l2) -> l2 <> [] ->
  N < 27 + room (l1 ++ l2) -> big_nodes -> (3 <= length l1 /\ 3 <= length l2)%nat.
Proof using HN Hmax.
  intros Hsp Hv Hne Hroom Hbig. pose proof max_small. unfold big_nodes in Hbig. destruct HN as [HN1 HN2].
  pose proof Hv as [Hv1 Hv2]%Forall_app. pose proof (room_bound l1 Hv1). pose proof (room_bound l2 Hv2).
  unfold node_split in Hsp. rewrite (split_recs_app _ _ _ _ _ Hsp) in Hsp.
  assert (0 <= max_record_len) as Hm.
  { destruct l2 as [|x l2]; [done|]. apply Forall_cons in Hv2 as [[_ Hx _ _] _]. pose proof (rlen_nonneg x). lia. }
  destruct (split_recs_room N (max_record_len + 4) _ _ _ _ Hsp) as [R1 R2]; [lia| |lia|].
  { eapply Forall_impl; [exact Hv|]. intros x [_ Hx _ _]. unfold sizeof_off. lia. }
  specialize (R2 Hne). rewrite room_app in Hroom. pose proof (Z.mul_div_le N 2 ltac:(lia)). split; nia.
Qed.

(** The halves of a node that is full. *)
Lemma turn_halves t lo A id q1 u q2 B up adding :
  let n := Bnode id (level_type (length lo)) (last_id 0 A) (hd_id 0 B) (q1 ++ u :: q2) in
  turn t lo A id q1 u q2 B up adding -> node_full N n adding = true ->
  exists l1 l2, node_split N n (S (length q1)) adding = (l1, l2) /\
    l1 ++ l2 = q1 ++ u :: adding :: q2 /\ node_ok (length lo) l1 /\ node_ok (length lo) l2 /\
    first_rec l1 = first_rec (q1 ++ u :: q2) /\ (big_nodes -> 3 <= length l1 /\ 3 <= length l2)%nat.
Proof using HN Hmax.
  intros n H Hfull. destruct (turn_valid _ _ _ _ _ _ _ _ _ _ H) as [Hv Hi].
  destruct H as [Hp Hc Hva Hia Hs Hj Hh Hr].
  destruct (partial_node _ _ _ _ _ _ _ _ _ _ _ _ Hp) as (_ & _ & Hok & _).
  destruct (node_split N n (S (length q1)) adding) as [l1 l2] eqn:Hsp. exists l1, l2. split; [done|].
  unfold node_full in Hfull. apply Z.ltb_lt in Hfull. rewrite (ro_len _ (rv_ok _ _ _ Hva)) in Hfull.
  destruct HN as [HN1 HN2].
  destruct (node_split_fits N n (S (length q1)) adding l1 l2) as (Happ & Hn1 & Hn2 & Hr1 & Hr2); try done.
  - simpl. rewrite length_app. simpl. lia.
  - apply rec_valid_small. apply Hok.
  - apply rec_valid_small. by apply Forall_cons.
  - pose proof (no_room _ _ _ _ _ Hok). unfold bn_free, sizeof_descr, sizeof_off, EMMCFS_BNODE_FIRST_OFFSET. simpl. lia.
  - simpl in Happ. replace (q1 ++ u :: q2) with ((q1 ++ [u]) ++ q2) in Happ by (by rewrite <- app_assoc).
    replace (S (length q1)) with (length (q1 ++ [u])) in Happ by (rewrite length_app; simpl; lia).
    rewrite take_app_length, drop_app_length, <- app_assoc in Happ. simpl in Happ.
    rewrite <- Happ in Hv, Hi. split; [done|]. split; [|split].
    + by eapply node_ok_sub.
    + constructor; [done|done|by apply Forall_app in Hv as [_ ?]|].
      intros Hlo. specialize (Hi Hlo). by apply Forall_app in Hi as [_ ?].
    + split; [destruct l1 as [|x l1]; [done|]; destruct q1 as [|y q1]; simpl in *; by simplify_eq|].
      apply (halves_three _ _ _ _ _ Hsp Hv Hn2). rewrite Happ.
      replace (q1 ++ u :: adding :: q2) with ((q1 ++ [u]) ++ adding :: q2) by (by rewrite <- app_assoc).
      rewrite room_app. cbn [room]. unfold bn_free, sizeof_descr, sizeof_off, EMMCFS_BNODE_FIRST_OFFSET in *.
      simpl in Hfull. rewrite !room_app in *. simpl in *. unfold sizeof_off in *. lia.
Qed.

(** The state after [split_node]: [b1] and [b2] hold the halves [l1] and [l2]
    of the current node, which is still there. *)
Record cut (t t1 t4 : btree) lo A id q1 u q2 B up adding b1 b2 l1 l2 : Prop := {
  cu_turn : turn t1 lo A id q1 u q2 B up adding;
  cu_calm : calm t4;
  cu_pool : pool_inv t4;
  cu_relinked : relinked (nodes t1) (nodes t4) (level_type (length lo)) (last_id 0 A) (hd_id 0 B) b1 b2 l1 l2;
  cu_1 : ~ used t1 b1;
  cu_2 : ~ used t1 b2;
  cu_12 : b1 <> b2;
  cu_used : forall x, used t4 x <-> used t1 x \/ x = b1 \/ x = b2;
  cu_height : btree_height t4 = btree_height t1;
  cu_root : root_bnode_id t4 = root_bnode_id t1;
  cu_bits : bits_num t4 = bits_num t1;
  cu_num : free_num t4 = free_num t1 - 2;
  cu_id1 : 0 <= b1 < 2 ^ 32;
  cu_id2 : 0 <= b2 < 2 ^ 32;
  cu_halves : l1 ++ l2 = q1 ++ u :: adding :: q2;
  cu_ok1 : node_ok (length lo) l1;
  cu_ok2 : node_ok (length lo) l2;
  cu_first : first_rec l1 = first_rec (q1 ++ u :: q2);
  cu_base : free_num t1 = free_num t /\ bits_num t1 = bits_num t;
  cu_full : full (q1 ++ u :: q2);
  cu_three : (big_nodes -> 3 <= length l1 /\ 3 <= length l2)%nat
}.

Lemma turn_extend t t' ns lo A id q1 u q2 B up adding : turn t lo A id q1 u q2 B up adding ->
  calm t' -> t' ≈ set_nodes t ns -> (forall x n, nodes t !! x = Some n -> ns !! x = Some n) ->
  turn t' lo A id q1 u q2 B up adding.
Proof using.
  intros [H1 H2 H3 H4 H5 H6 H7 H8] Hc S Hns. constructor; try done.
  - eapply partial_sim; [symmetry; exact S|]. by apply partial_extend.
  - by rewrite (sim_height _ _ S).
  - by rewrite (sim_num _ _ S).
Qed.

(** The neighbours of the current node. *)
Lemma turn_neighbours t lo A id recs B up : partial t lo ((A ++ (id, recs) :: B) :: up) ->
  (last_id 0 A <> 0 -> used t (last_id 0 A) /\ last_id 0 A <> hd_id 0 B /\ last_id 0 A <> id) /\
  (hd_id 0 B <> 0 -> used t (hd_id 0 B) /\ hd_id 0 B <> id).
Proof using.
  intros H. destruct (partial_ids _ _ _ _ _ _ _ _ _ _ _ _ H) as (Hnd & _).
  pose proof (pa_used _ _ _ _ _ _ _ _ H) as Hu. rewrite all_ids_app, all_ids_cons, ids_app in Hu. simpl in Hu.
  rewrite !Forall_app, Forall_cons in Hu. destruct Hu as (_ & (UA & _ & UB) & _).
  rewrite Forall_forall in UA, UB. apply NoDup_app in Hnd as (_ & HA & [HB _]%NoDup_cons).
  split.
  - intros Hz. destruct (last_id_nil_or 0 A) as [|Hin]; [done|]. split; [auto|]. specialize (HA _ Hin). split.
    + intros E. destruct (hd_id_nil_or 0 B) as [E2|Hin2]; [congruence|]. apply HA. rewrite E. apply elem_of_cons. by right.
    + intros E. apply HA. rewrite E. apply elem_of_cons. by left.
  - intros Hz. destruct (hd_id_nil_or 0 B) as [|Hin]; [done|]. split; [auto|]. intros E. by rewrite E in Hin.
Qed.

Lemma wp_turn_cut t lo A id q1 u q2 B up adding next (Q : unit -> btree -> Prop) n :
  turn t lo A id q1 u q2 B up adding -> nodes t !! id = Some n -> node_full N n adding = true ->
  (forall t1 t4 b1 b2 l1 l2, cut t t1 t4 lo A id q1 u q2 B up adding b1 b2 l1 l2 ->
    let bnode1 := Handle b1 true in let bnode2 := Handle b2 true in let curr := Handle id true in
    let adding_record := form_record (first_rec l2) b2 in
    wp (do root <- gets root_bnode_id;
        if h_id curr =? root then
          do first_ins_root_rec <- form_adding_record max_record_len curr;
          do_ update_root_descriptor N curr first_ins_root_rec adding_record (h_id bnode1);
          do_ emmcfs_mark_bnode_dirty bnode1;
          do_ emmcfs_mark_bnode_dirty bnode2;
          do_ emmcfs_put_bnode bnode1;
          emmcfs_put_bnode bnode2
        else
          do_ emmcfs_mark_bnode_dirty bnode1;
          do_ emmcfs_mark_bnode_dirty bnode2;
          do_ emmcfs_put_bnode bnode1;
          do_ emmcfs_put_bnode bnode2;
          do_ or_bug (emmcfs_destroy_bnode mounted beyond curr);
          next adding_record (h_id bnode1)) t4 (ok Q)) ->
  wp (insert_step (Handle id true) (Z.of_nat (length q1)) (length up) adding next) t (ok Q).
Proof using KeyOrder0 HN Hmax.
  intros H Hn Hfull HQ. destruct (partial_node _ _ _ _ _ _ _ _ _ _ _ _ (tu_partial _ _ _ _ _ _ _ _ _ _ H)) as (_ & Hn' & _).
  rewrite Hn' in Hn. simplify_eq. unfold Btree.insert_step. eapply wp_node; [exact Hn'|]. rewrite Hfull.
  apply wp_gets. eapply wp_seq; [apply wp_reserve; apply H|]. intros _ t1 (C1 & ns1 & S1 & Hns1).
  pose proof (turn_extend _ _ _ _ _ _ _ _ _ _ _ _ H C1 S1 Hns1) as H1. assert (free_num t1 = free_num t /\ bits_num t1 = bits_num t) as E1n
    by (split; [apply (sim_num _ _ S1)|unfold bits_num; by rewrite (sim_bits _ _ S1)]). clear H C1 S1 Hns1 Hn' ns1.
  pose proof (tu_partial _ _ _ _ _ _ _ _ _ _ H1) as Hp. pose proof (tu_room _ _ _ _ _ _ _ _ _ _ H1) as Hroom.
  destruct (partial_node _ _ _ _ _ _ _ _ _ _ _ _ Hp) as (Hu & Hnode & Hok & _).
  destruct (turn_neighbours _ _ _ _ _ _ _ Hp) as [Hpv Hnx].
  destruct (turn_halves _ _ _ _ _ _ _ _ _ _ H1 Hfull) as (l1 & l2 & Hsp & Happ & Hok1 & Hok2 & Hfirst & Hthree).
  eapply wp_try_ok.
  { apply wp_alloc_ok; [apply Hp|apply H1|lia]. }
  intros h t2 (C2 & b1 & -> & [P2 F2 U2 N2 I2 E2h E2r E2b E2n R2]). eapply wp_try_ok.
  { apply wp_alloc_ok; [done|done|lia]. }
  intros h t3 (C3 & b2 & -> & [P3 F3 U3 N3 I3 E3h E3r E3b E3n R3]).
  assert (b1 <> b2) as H12 by (intros ->; apply F3, U2; by right).
  assert (~ used t1 b2) as F3' by (intros ?; apply F3, U2; by left).
  assert (forall x, used t1 x -> x <> b1 /\ x <> b2) as Hne by (intros x Hx; split; by intros ->).
  destruct (Hne id Hu) as [Hi1 Hi2].
  assert (forall x, x <> b1 -> x <> b2 -> nodes t3 !! x = nodes t1 !! x) as N31.
  { intros x Hx1 Hx2. rewrite N3, N2 by done. done. }
  replace (Z.of_nat (length q1) + 1) with (Z.of_nat (S (length q1))) by lia.
  eapply wp_seq.
  { apply (wp_split_node N mounted beyond grow t3 id (level_type (length lo)) (last_id 0 A) (hd_id 0 B)
      (q1 ++ u :: q2) b1 b2 (S (length q1)) adding l1 l2); try done.
    - rewrite N31 by done. exact Hnode.
    - rewrite N3 by done. done.
    - by destruct q1.
    - intros Hz. destruct (Hpv Hz) as (Hx & Hx2 & Hx3). destruct (Hne _ Hx). split; [|done].
      apply U3. left. apply U2. by left.
    - intros Hz. destruct (Hnx Hz) as (Hx & Hx2). destruct (Hne _ Hx). split; [|done].
      apply U3. left. apply U2. by left.
    - destruct Hu. lia.
    - apply Hok1.
    - apply Hok2. }
  intros _ t4 (C4 & ns4 & S4 & HR).
  pose proof (no_ne _ _ _ _ _ Hok2) as Hne2. destruct l2 as [|r2 l2']; [done|].
  pose proof (no_valid _ _ _ _ _ Hok2) as Hv2. apply Forall_cons in Hv2 as [Hv2 _].
  eapply (wp_form max_record_len t4 b2); [rewrite (sim_nodes _ _ S4); apply (rl_2 _ _ _ _ _ _ _ _ _ HR)|done|apply Hv2|apply Hv2| |].
  { simpl. by apply node_count in Hok2. }
  eapply (HQ t1 t4 b1 b2 l1 (r2 :: l2')). pose proof (pa_bits _ _ _ _ _ _ _ _ Hp) as Hbits.
  constructor; try done.
  - rewrite S4. apply pool_inv_nodes; [done|]. intros x [nx Hx].
    destruct (decide (x = b1)) as [->|Hx1]; [rewrite (rl_1 _ _ _ _ _ _ _ _ _ HR); by eexists|].
    destruct (decide (x = b2)) as [->|Hx2]; [rewrite (rl_2 _ _ _ _ _ _ _ _ _ HR); by eexists|].
    destruct (decide (x = last_id 0 A /\ last_id 0 A <> 0)) as [[-> Hz]|Hnp].
    { rewrite (rl_p _ _ _ _ _ _ _ _ _ HR Hz), Hx. by eexists. }
    destruct (decide (x = hd_id 0 B /\ hd_id 0 B <> 0)) as [[-> Hz]|Hnn].
    { rewrite (rl_n _ _ _ _ _ _ _ _ _ HR Hz), Hx. by eexists. }
    rewrite (rl_o _ _ _ _ _ _ _ _ _ HR); [rewrite Hx; by eexists|done|done| |].
    + intros E. destruct (decide (last_id 0 A = 0)); tauto.
    + intros E. destruct (decide (hd_id 0 B = 0)); tauto.
  - rewrite (sim_nodes _ _ S4). simpl. eapply relinked_base; [exact N31| | |exact HR].
    + intros Hz. destruct (Hpv Hz) as (Hx & _). by apply Hne.
    + intros Hz. destruct (Hnx Hz) as (Hx & _). by apply Hne.
  - intros x. rewrite S4. change (used (set_nodes t3 ns4) x) with (used t3 x). rewrite U3, U2. tauto.
  - rewrite (sim_height _ _ S4). simpl. congruence.
  - rewrite (sim_root _ _ S4). simpl. congruence.
  - unfold bits_num in *. rewrite (sim_bits _ _ S4). simpl. congruence.
  - rewrite (sim_num _ _ S4). simpl. lia.
  - lia.
  - lia.
  - by eapply node_full_full; [|apply H1|exact Hfull].
Qed.

Lemma used_after_destroy t id x : used t id -> used (after_destroy t id) x <-> used t x /\ x <> id.
Proof using.
  intros [H0 Hb]. pose proof (lookup_lt_Some _ _ _ Hb). unfold used, after_destroy. simpl.
  destruct (decide (x = id)) as [->|Hne].
  - rewrite list_lookup_insert_eq by done. split; [by intros [_ ?]|by intros [_ ?]].
  - split.
    + intros [Hx Hbx]. rewrite list_lookup_insert_ne in Hbx by lia. done.
    + intros [[Hx Hbx] _]. by rewrite list_lookup_insert_ne by lia.
Qed.

Lemma first_rec_valid l : l <> [] -> Forall rec_valid l -> rec_valid (first_rec l).
Proof using. intros Hne Hv. destruct l; [done|]. by apply Forall_cons in Hv as [? _]. Qed.

(** The two records that point to the halves. *)
Lemma points_halves v recs id b1 b2 l1 l2 :
  record_ok v -> key_ok v -> points v (id, recs) -> first_rec l1 = first_rec recs -> l2 <> [] -> Forall rec_valid l2 ->
  0 <= b1 < 2 ^ 32 -> 0 <= b2 < 2 ^ 32 ->
  points (set_child_id v b1) (b1, l1) /\ points (form_record (first_rec l2) b2) (b2, l2).
Proof using KeyOrder0.
  intros Hv Hkv [_ Hk] Hf Hne Hval Hb1 Hb2. pose proof (first_rec_valid l2 Hne Hval) as [Hr2 _ _ Hk2].
  simpl in Hk. split; split; simpl.
  - by apply child_id_set.
  - rewrite Hf, (proj1 (same_key_eq _ _ _ (set_child_id_key v b1 Hv) Hkv)). done.
  - by apply form_record_child.
  - rewrite (proj1 (same_key_eq _ _ _ (form_record_key _ b2 Hr2) Hk2)). by apply ko_refl.
Qed.

(** The current node is not the root: it is destroyed, and the turn for the
    level above begins. *)
Lemma wp_tail_next t t1 t4 lo A id q1 u q2 B U up adding b1 b2 l1 l2 next (Q : unit -> btree -> Prop) :
  cut t t1 t4 lo A id q1 u q2 B (U :: up) adding b1 b2 l1 l2 ->
  (forall t' ua v ub, calm t' ->
    let L' := A ++ (b1, l1) :: (b2, l2) :: B in let adding' := form_record (first_rec l2) b2 in
    partial t' (lo ++ [L']) (U :: up) -> rec_valid adding' -> rlen adding' = key_len adding' + 4 ->
    flat U = ua ++ v :: ub -> length ua = length A ->
    Forall2 points (ua ++ set_child_id v b1 :: adding' :: ub) L' ->
    flat L' = flat A ++ (q1 ++ u :: adding :: q2) ++ flat B ->
    btree_height t' + 1 < 2 ^ 16 -> 2 * Z.of_nat (S (length up)) <= free_num t' -> free_num t' = free_num t - 1 ->
    bits_num t' = bits_num t -> wp (next adding' b1) t' (ok Q)) ->
  id <> root_bnode_id t4 /\
  wp (do_ emmcfs_mark_bnode_dirty (Handle b1 true);
      do_ emmcfs_mark_bnode_dirty (Handle b2 true);
      do_ emmcfs_put_bnode (Handle b1 true);
      do_ emmcfs_put_bnode (Handle b2 true);
      do_ or_bug (emmcfs_destroy_bnode mounted beyond (Handle id true));
      next (form_record (first_rec l2) b2) b1) t4 (ok Q).
Proof using KeyOrder0 HN Hmax grow.
  intros [[Hp Hc Hva Hia Hs Hj Hh Hr] C4 P4 HR F1 F2 H12 U4 E4h E4r E4b E4n R1 R2 Happ Hok1 Hok2 Hfirst Ebase Hfull Hthree] HQ.
  destruct (partial_node _ _ _ _ _ _ _ _ _ _ _ _ Hp) as (Hu & _ & _ & _).
  destruct (partial_ids _ _ _ _ _ _ _ _ _ _ _ _ Hp) as (_ & _ & Hidup & _).
  split.
  { rewrite E4r. destruct (pa_top _ _ _ _ _ _ _ _ Hp) as [tr Htop]. intros ->. apply Hidup.
    rewrite last_cons_cons in Htop. apply last_Some in Htop as [l' El]. rewrite El, all_ids_app.
    apply elem_of_app. right. unfold all_ids. simpl. apply elem_of_cons. by left. }
  assert (used t4 id) as Hu4 by (apply U4; by left).
  apply wp_dirty; [done|done|]. intros t5 S5 C5. apply wp_dirty; [done|done|]. intros t6 S6 C6.
  apply wp_put; [done|]. intros t7 S7 C7. apply wp_put; [done|]. intros t8 S8 C8.
  assert (t8 ≈ t4) as S by (by rewrite S8, S7, S6). clear S5 S6 S7 S8.
  eapply (wp_seq _ _ _ (fun _ t9 => t9 ≈ after_destroy t4 id /\ calm t9)).
  { apply wp_or_bug, wp_destroy; [simpl; by rewrite S| |done|done].
    intros t9 S9 C9. split; [|auto]. rewrite S9. unfold after_destroy. simpl.
    rewrite (sim_bits _ _ S), (sim_first _ _ S), (sim_num _ _ S). by rewrite S. }
  intros _ t9 [S9 C9].
  pose proof (pa_hi _ _ _ _ _ _ _ _ Hp) as (_ & Hb & (HU & _ & _)). simpl in Hb.
  apply Forall2_app_inv_r in Hb as (ua & ub' & HA & HB & EU).
  inversion HB as [|v n ub ? Hpv HB']; subst.
  assert (rec_valid v) as Hvv.
  { pose proof (level_valid _ _ _ _ _ _ _ HU) as Hval. rewrite EU in Hval.
    by apply Forall_app in Hval as [_ [? _]%Forall_cons]. }
  destruct (points_halves v (q1 ++ u :: q2) id b1 b2 l1 l2) as [Hp1 Hp2]; try done;
    [apply Hvv|apply Hvv|apply Hok2|apply Hok2|].
  assert (rec_valid (first_rec l2)) as Hv2 by (apply first_rec_valid; apply Hok2).
  assert (flat (A ++ (b1, l1) :: (b2, l2) :: B) = flat A ++ (q1 ++ u :: adding :: q2) ++ flat B) as Efl.
  { rewrite flat_app, !flat_cons. simpl. by rewrite (app_assoc l1), Happ. }
  apply (HQ t9 ua v ub); try done.
  - assert (b1 <> id /\ b2 <> id) as [Hb1 Hb2] by (split; by intros ->).
    eapply (partial_split N max_record_len comp_fn key_ok k t1 t9); try done.
    + by rewrite Happ.
    + unfold meet, joins in *. destruct (last (drop k lo)); [|done]. unfold between. by rewrite Efl.
    + rewrite S9. by apply after_destroy_inv.
    + unfold bits_num. rewrite (sim_bits _ _ S9). simpl. rewrite length_insert.
      pose proof (pa_bits _ _ _ _ _ _ _ _ Hp). unfold bits_num in *. lia.
    + by rewrite (sim_nodes _ _ S9).
    + by rewrite (sim_height _ _ S9).
    + by rewrite (sim_root _ _ S9).
    + rewrite S9. apply used_after_destroy; [done|]. split; [apply U4; tauto|done].
    + rewrite S9. apply used_after_destroy; [done|]. split; [apply U4; tauto|done].
    + intros x Hx Hxid. rewrite S9. apply used_after_destroy; [done|]. split; [apply U4; tauto|done].
  - by apply form_record_valid.
  - rewrite form_record_len by apply Hv2. f_equal. symmetry. apply form_record_key, Hv2.
  - by apply Forall2_length in HA.
  - apply Forall2_app; [done|]. constructor; [done|]. by constructor.
  - rewrite (sim_height _ _ S9). simpl. lia.
  - rewrite (sim_num _ _ S9). simpl. simpl in Hr. lia.
  - rewrite (sim_num _ _ S9). simpl. lia.
  - unfold bits_num in *. rewrite (sim_bits _ _ S9). simpl. rewrite length_insert. lia.
Qed.

(** The current node is the root: it becomes the parent of the halves. *)
Lemma wp_tail_root t t1 t4 lo A id q1 u q2 B adding b1 b2 l1 l2 (Q : unit -> btree -> Prop) :
  cut t t1 t4 lo A id q1 u q2 B [] adding b1 b2 l1 l2 ->
  (forall t' u1 u2, calm t' ->
    tree_cut k t' (lo ++ [[(b1, l1); (b2, l2)]; [(id, [u1; u2])]]) ->
    flat [(b1, l1); (b2, l2)] = flat A ++ (q1 ++ u :: adding :: q2) ++ flat B ->
    A = [] /\ B = [] -> free_num t' = free_num t - 2 -> bits_num t' = bits_num t -> Q tt t') ->
  id = root_bnode_id t4 /\
  wp (do first_ins_root_rec <- form_adding_record max_record_len (Handle id true);
      do_ update_root_descriptor N (Handle id true) first_ins_root_rec (form_record (first_rec l2) b2) b1;
      do_ emmcfs_mark_bnode_dirty (Handle b1 true);
      do_ emmcfs_mark_bnode_dirty (Handle b2 true);
      do_ emmcfs_put_bnode (Handle b1 true);
      emmcfs_put_bnode (Handle b2 true)) t4 (ok Q).
Proof using KeyOrder0 HN Hmax beyond grow.
  intros [[Hp Hc Hva Hia Hs Hj Hh Hr] C4 P4 HR F1 F2 H12 U4 E4h E4r E4b E4n R1 R2 Happ Hok1 Hok2 Hfirst Ebase Hfull Hthree] HQ.
  destruct (pa_top _ _ _ _ _ _ _ _ Hp) as [tr Htop]. simpl in Htop.
  assert (A = [] /\ B = [] /\ id = root_bnode_id t1) as (-> & -> & Eid).
  { destruct A as [|a A]; [|by destruct A]. destruct B; [|done]. simpl in Htop. by simplify_eq. }
  simpl app in *. change (flat []) with (@nil record) in *. simpl app in Hs, Hj, HQ. rewrite app_nil_r in Hs, Hj, HQ.
  destruct (partial_node N max_record_len comp_fn key_ok k t1 lo [] id _ [] [] Hp) as (Hu & Hnode & Hok & _).
  split; [congruence|].
  set (recs := q1 ++ u :: q2) in *. set (f := first_rec recs) in *.
  assert (id <> b1 /\ id <> b2) as [Hb1 Hb2] by (split; by intros ->).
  assert (nodes t4 !! id = Some (Bnode id (level_type (length lo)) 0 0 recs)) as Hn4.
  { rewrite (rl_o _ _ _ _ _ _ _ _ _ HR); done. }
  pose proof (no_ne _ _ _ _ _ Hok) as Hne. destruct recs as [|f' recs'] eqn:Erecs; [done|].
  assert (f = f') as -> by done.
  pose proof (no_valid _ _ _ _ _ Hok) as Hv. apply Forall_cons in Hv as [Hvf _].
  pose proof (first_rec_valid l2 (no_ne _ _ _ _ _ Hok2) (no_valid _ _ _ _ _ Hok2)) as Hv2.
  eapply wp_form; [exact Hn4|done|apply Hvf|apply Hvf| |].
  { simpl. by apply node_count in Hok. }
  pose proof (form_record_valid f' id Hvf) as Hw1. pose proof (form_record_valid _ b2 Hv2) as Hw2.
  assert (key_len (form_record f' id) = key_len f') as Ek1 by apply form_record_key, Hvf.
  destruct (set_child_valid _ b1 Hw1) as [Hw1' Hlen1].
  { rewrite form_record_len, Ek1 by apply Hvf. done. }
  assert (27 + room [form_record f' id; form_record (first_rec l2) b2] <= N) as Hroom.
  { pose proof (rv_len _ _ _ Hw1). pose proof (rv_len _ _ _ Hw2). simpl. unfold sizeof_off.
    pose proof (Z.mul_div_le N 2 ltac:(lia)). lia. }
  pose proof (pa_height _ _ _ _ _ _ _ _ Hp) as Hheight.
  eapply wp_seq.
  { apply (wp_update_root N t4 id _ (form_record f' id) (form_record (first_rec l2) b2) b1 C4 Hn4);
      [apply Hw1|apply Hw2|done|lia|lia]. }
  intros _ t5 [C5 S5].
  apply wp_dirty; [done|done|]. intros t6 S6 C6. apply wp_dirty; [done|done|]. intros t7 S7 C7.
  apply wp_put; [done|]. intros t8 S8 C8. apply wp_put_last; [done|]. intros t9 S9 C9.
  assert (t9 ≈ set_head (set_nodes t4 (<[id := Bnode id EMMCFS_NODE_INDEX 0 0
    [set_child_id (form_record f' id) b1; form_record (first_rec l2) b2]]> (nodes t4))) (btree_height t4 + 1) id) as S.
  { by rewrite S9, S8, S7, S6. }
  assert (points (form_record f' id) (id, f' :: recs')) as Hpf.
  { split; [apply form_record_child; [apply Hvf|]|].
    - pose proof (pa_bits _ _ _ _ _ _ _ _ Hp). destruct Hu as [Hu0 Hub]. apply lookup_lt_Some in Hub.
      unfold bits_num in *. simpl. lia.
    - simpl. unfold first_rec. simpl. rewrite (proj1 (same_key_eq _ _ _ (form_record_key f' id (rv_ok _ _ _ Hvf)) (rv_key _ _ _ Hvf))).
      apply ko_refl, Hvf. }
  destruct (points_halves (form_record f' id) (f' :: recs') id b1 b2 l1 l2) as [Hp1 Hp2]; try done;
    [apply Hw1|apply Hw1|apply Hok2|apply Hok2|].
  assert (flat [(b1, l1); (b2, l2)] = q1 ++ u :: adding :: q2) as Efl.
  { rewrite !flat_cons. simpl. by rewrite app_nil_r. }
  assert (sorted [set_child_id (form_record f' id) b1; form_record (first_rec l2) b2]) as Hsu.
  { eapply (sorted_up _ [(b1, l1); (b2, l2)]).
    - constructor; [done|]. by constructor.
    - by rewrite Efl.
    - apply Forall_cons. split; [apply Hok1|]. apply Forall_cons. split; [apply Hok2|done].
    - apply Forall_cons. split; [apply Hw1'|]. apply Forall_cons. split; [apply Hw2|done].
    - rewrite Efl, <- Happ. apply Forall_app. split.
      + eapply Forall_impl; [apply (no_valid _ _ _ _ _ Hok1)|]. by intros x [].
      + eapply Forall_impl; [apply (no_valid _ _ _ _ _ Hok2)|]. by intros x []. }
  apply (HQ t9 (set_child_id (form_record f' id) b1) (form_record (first_rec l2) b2));
    [done| |done|done|rewrite (sim_num _ _ S); simpl; lia|unfold bits_num in *; rewrite (sim_bits _ _ S); simpl; lia].
  eapply (partial_root N max_record_len comp_fn key_ok k t1 t9 lo id (f' :: recs') (nodes t4)); try done.
  - by rewrite Happ.
  - unfold meet, joins in *. destruct (last (drop k lo)); [|done]. unfold between. by rewrite Efl.
  - constructor; [done| | |].
    + simpl in Hroom |- *. rewrite set_child_id_len; [done| |apply Hw1].
      rewrite form_record_len, Ek1 by apply Hvf. lia.
    + apply Forall_cons. split; [done|]. apply Forall_cons. done.
    + intros _. apply Forall_cons. split; [done|]. apply Forall_cons. split; [|done].
      rewrite form_record_len by apply Hv2. f_equal. symmetry. apply form_record_key, Hv2.
  - apply SSorted_cons in Hsu as [_ Hsu]. by apply Forall_cons in Hsu as [? _].
  - rewrite S. destruct (pool_inv_insert t4 id (Bnode id EMMCFS_NODE_INDEX 0 0
      [set_child_id (form_record f' id) b1; form_record (first_rec l2) b2]) P4) as [X1 X2 X3 X4].
    by constructor.
  - unfold bits_num. rewrite (sim_bits _ _ S). simpl. fold (bits_num t4). rewrite E4b.
    apply (pa_bits _ _ _ _ _ _ _ _ Hp).
  - by rewrite (sim_nodes _ _ S).
  - rewrite (sim_height _ _ S). simpl. by rewrite E4h.
  - by rewrite (sim_root _ _ S).
  - rewrite S. apply (proj2 (U4 b1)). tauto.
  - rewrite S. apply (proj2 (U4 b2)). tauto.
  - intros x Hx. rewrite S. apply (proj2 (U4 x)). tauto.
Qed.

(** *** All turns *)

(** The places that a path gives, without the keys. *)
Fixpoint path_pos lv (path : list (handle * Z)) (q : nat) : Prop :=
  match lv, path with
  | L :: lv', (h, pos) :: path' =>
    h_rw h = true /\ exists j, place L (h_id h) pos q j /\
      match lv' with [] => path' = [] | _ => path_pos lv' path' j end
  | _, _ => False
  end.

Lemma path_ok_pos key lv path q : path_ok comp_fn true key lv path q -> path_pos lv path q.
Proof using.
  revert path q. induction lv as [|L lv IH]; intros path q; [done|]. destruct path as [|[h pos] path]; [done|].
  cbn [path_ok path_pos]. intros (Hrw & _ & j & Hpl & H). split; [done|]. exists j. split; [done|].
  destruct lv as [|U lv]; [by destruct H|]. by apply IH.
Qed.

Lemma path_pos_length lv path q : path_pos lv path q -> length path = length lv.
Proof using.
  revert path q. induction lv as [|L lv IH]; intros path q; [done|]. destruct path as [|[h pos] path]; [done|].
  cbn [path_pos length]. intros (_ & j & _ & H). f_equal. destruct lv as [|U lv]; [by rewrite H|]. by eapply IH.
Qed.

(** The place of the record that is inserted behind position [q]. *)
Definition behind (q : nat) (r : record) l : list record := take (S q) l ++ r :: drop (S q) l.

Lemma behind_mid l1 u l2 r : behind (length l1) r (l1 ++ u :: l2) = l1 ++ u :: r :: l2.
Proof using.
  unfold behind. replace (l1 ++ u :: l2) with ((l1 ++ [u]) ++ l2) by (by rewrite <- app_assoc).
  replace (S (length l1)) with (length (l1 ++ [u])) by (rewrite length_app; simpl; lia).
  rewrite take_app_length, drop_app_length. by rewrite <- app_assoc.
Qed.

Lemma level_place_split L id pos q j : place L id pos q j ->
  exists A q1 u q2 B, L = A ++ (id, q1 ++ u :: q2) :: B /\ pos = Z.of_nat (length q1) /\
    flat L = (flat A ++ q1) ++ u :: q2 ++ flat B /\ length (flat A ++ q1) = q /\ length A = j.
Proof using.
  intros (A & recs & B & p & -> & Hp & -> & -> & ->).
  destruct (list_split_mid p recs Hp) as (q1 & u & q2 & -> & Hq1).
  exists A, q1, u, q2, B. split; [done|]. split; [by rewrite Hq1|]. split; [|split; [|done]].
  - rewrite flat_app, flat_cons. simpl. by rewrite <- !app_assoc.
  - rewrite length_app. lia.
Qed.

(** The value of the current record is set: the turn can begin. *)
Lemma wp_turn_start t lo A id q1 u q2 B up adding b D {C} (cont : unit -> M C) Q :
  partial t lo ((A ++ (id, q1 ++ u :: q2) :: B) :: up) -> calm t -> last (drop k lo) = Some D ->
  rec_valid adding -> rlen adding = key_len adding + 4 ->
  Forall2 points ((flat A ++ q1) ++ set_child_id u b :: adding :: q2 ++ flat B) D ->
  btree_height t + 1 < 2 ^ 16 -> 2 * Z.of_nat (S (length up)) <= free_num t ->
  (forall t', turn t' lo A id q1 (set_child_id u b) q2 B up adding -> rlen u = rlen (set_child_id u b) ->
    free_num t' = free_num t -> bits_num t' = bits_num t -> wp (cont tt) t' Q) ->
  wp (bind (set_value (Handle id true) (Z.of_nat (length q1)) b) cont) t Q.
Proof using KeyOrder0 HN Hmax.
  intros Hp Hc HD Hva Hia Hpts Hh Hr HQ.
  destruct (partial_node _ _ _ _ _ _ _ _ _ _ _ _ Hp) as (Hu & Hn & Hok & HL).
  eapply wp_set_value; [exact Hn|apply list_lookup_middle; done|by eapply node_count|].
  unfold set_recs. cbn [bn_recs bn_id bn_type bn_prev bn_next h_id].
  rewrite (mid_insert (length q1) q1 u) by done.
  assert (0 < length lo)%nat as Hlo by (destruct lo; [by rewrite drop_nil in HD|simpl; lia]).
  pose proof (no_valid _ _ _ _ _ Hok) as Hv. apply Forall_app in Hv as [Hv1 [Hvu Hv2]%Forall_cons].
  pose proof (no_index _ _ _ _ _ Hok Hlo) as Hi. apply Forall_app in Hi as [Hi1 [Hiu Hi2]%Forall_cons].
  destruct (set_child_valid u b Hvu Hiu) as [Hvu' Hiu'].
  pose proof (set_child_id_key u b (rv_ok _ _ _ Hvu)) as Hsk.
  assert (partial (set_nodes t (<[id := Bnode id (level_type (length lo)) (last_id 0 A) (hd_id 0 B)
    (q1 ++ set_child_id u b :: q2)]> (nodes t))) lo ((A ++ (id, q1 ++ set_child_id u b :: q2) :: B) :: up)) as Hp'.
  { eapply partial_update; [exact Hp| | |].
    - constructor; [by destruct q1| |apply Forall_app; split; [done|by apply Forall_cons]|].
      + pose proof (no_room _ _ _ _ _ Hok) as Hroom. rewrite room_app in *. simpl in *.
        rewrite set_child_id_len; [done|lia|apply Hvu].
      + intros _. apply Forall_app. split; [done|]. by apply Forall_cons.
    - pose proof (lo_sorted _ _ _ _ _ _ _ HL) as Hs. rewrite flat_app, flat_cons in Hs. simpl in Hs.
      rewrite <- app_assoc, app_assoc in Hs |- *. simpl in Hs |- *. eapply sorted_same_key; [exact Hsk|apply Hvu|exact Hs].
    - intros v. destruct q1; [|done]. simpl. unfold first_rec. simpl. apply same_key_eq; [exact Hsk|apply Hvu]. }
  assert (flat A ++ (q1 ++ set_child_id u b :: adding :: q2) ++ flat B =
          (flat A ++ q1) ++ set_child_id u b :: adding :: q2 ++ flat B) as Efl by (by rewrite <- !app_assoc).
  apply HQ; [|by rewrite set_child_id_len; [|lia|apply Hvu]|done|done]. constructor; try done.
  - rewrite Efl. pose proof (pa_lo _ _ _ _ _ _ _ _ Hp) as Hst.
    apply last_Some in HD as [lo' Elo]. destruct Hst as [_ Hst]. rewrite Elo in Hst.
    apply stack_ok_app in Hst as (_ & (HDl & _ & _) & _).
    eapply sorted_up; [exact Hpts|apply HDl| | |].
    + eapply Forall_impl; [apply (lo_nodes _ _ _ _ _ _ _ HDl)|]. by intros n [].
    + pose proof (level_keys_ok _ _ _ _ _ _ _ HL) as HkL. unfold keys_ok in *.
      rewrite flat_app, flat_cons in HkL. simpl in HkL. apply Forall_app in HkL as [HkA HkL].
      apply Forall_app in HkL as [Hkn HkB]. apply Forall_app in Hkn as [Hk1 [Hku Hk2]%Forall_cons].
      apply Forall_app. split; [by apply Forall_app|]. apply Forall_cons. split; [apply Hvu'|].
      apply Forall_cons. split; [apply Hva|]. by apply Forall_app.
    + by eapply level_keys_ok.
  - unfold joins. rewrite HD, Efl. done.
Qed.

(** The node of the turn, split or not, as a change of the level. *)
Lemma grow_fits A id q1 u0 u q2 B adding : rec_valid adding -> rlen u0 = rlen u ->
  grow_at (length (flat A) + length q1) (A ++ (id, q1 ++ u0 :: q2) :: B) (A ++ (id, q1 ++ u :: adding :: q2) :: B).
Proof using.
  intros [_ Hl _ _] Eu. exists A, id, (q1 ++ u0 :: q2), B, [(id, q1 ++ u :: adding :: q2)].
  split; [done|]. split; [done|]. split; [rewrite length_app; simpl; lia|]. split.
  { rewrite flat_cons. cbn [snd]. rewrite !length_app. simpl. lia. }
  left. eexists. split; [done|]. rewrite !room_app. cbn [room]. unfold sizeof_off. lia.
Qed.

Lemma full_same q1 u0 u q2 : rlen u0 = rlen u -> full (q1 ++ u :: q2) -> full (q1 ++ u0 :: q2).
Proof using. unfold full. rewrite !room_app. cbn [room]. lia. Qed.

Lemma grow_cut t t1 t4 lo A id q1 u0 u q2 B up adding b1 b2 l1 l2 :
  cut t t1 t4 lo A id q1 u q2 B up adding b1 b2 l1 l2 -> rlen u0 = rlen u ->
  grow_at (length (flat A) + length q1) (A ++ (id, q1 ++ u0 :: q2) :: B) (A ++ (b1, l1) :: (b2, l2) :: B).
Proof using.
  intros C Eu. exists A, id, (q1 ++ u0 :: q2), B, [(b1, l1); (b2, l2)].
  split; [done|]. split; [done|]. split; [rewrite length_app; simpl; lia|]. split.
  { rewrite !flat_cons. cbn [snd]. change (flat []) with (@nil record).
    rewrite app_nil_r, (cu_halves _ _ _ _ _ _ _ _ _ _ _ _ _ _ _ _ C), !length_app. simpl. lia. }
  right. split; [apply (full_same _ _ u _ Eu), C|]. intros Hbig. destruct (cu_three _ _ _ _ _ _ _ _ _ _ _ _ _ _ _ _ C Hbig).
  repeat constructor; done.
Qed.

(** A whole turn: the tree is complete, or the next turn begins. *)
Lemma wp_turn t lo A id q1 u0 u q2 B up adding rest (Q : unit -> btree -> Prop) :
  let L := A ++ (id, q1 ++ u0 :: q2) :: B in let q := (length (flat A) + length q1)%nat in
  turn t lo A id q1 u q2 B up adding -> rlen u0 = rlen u -> length rest = length up ->
  (forall t' lv', calm t' -> tree_cut k t' (lo ++ lv') ->
    (length lo = k -> elements lv' = flat A ++ (q1 ++ u :: adding :: q2) ++ flat B) ->
    grows q (L :: up) lv' -> free_num t - 2 <= free_num t' -> account t' (lo ++ lv') = account t (lo ++ L :: up) -> Q tt t') ->
  (forall U up' t' ua v ub L' adding' b1, up = U :: up' -> calm t' -> partial t' (lo ++ [L']) (U :: up') ->
    rec_valid adding' -> rlen adding' = key_len adding' + 4 ->
    flat U = ua ++ v :: ub -> length ua = length A ->
    Forall2 points (ua ++ set_child_id v b1 :: adding' :: ub) L' ->
    flat L' = flat A ++ (q1 ++ u :: adding :: q2) ++ flat B ->
    btree_height t' + 1 < 2 ^ 16 -> 2 * Z.of_nat (S (length up')) <= free_num t' ->
    grow_at q L L' -> free_num t' = free_num t - 1 -> account t' (lo ++ L' :: up) = account t (lo ++ L :: up) ->
    wp (insert_loop rest adding' (Some b1)) t' (ok Q)) ->
  wp (insert_step (Handle id true) (Z.of_nat (length q1)) (length rest) adding
        (fun adding_record id => insert_loop rest adding_record (Some id))) t (ok Q).
Proof using KeyOrder0 HN Hmax.
  intros L q Ht Eu Hlen HQ Hnext. rewrite Hlen.
  destruct (partial_node _ _ _ _ _ _ _ _ _ _ _ _ (tu_partial _ _ _ _ _ _ _ _ _ _ Ht)) as (_ & Hn & _).
  destruct (node_full N (Bnode id (level_type (length lo)) (last_id 0 A) (hd_id 0 B) (q1 ++ u :: q2)) adding) eqn:Hfull;
    [eapply wp_turn_cut|eapply wp_turn_fits]; try exact Hfull; try exact Hn; try exact Ht.
  - intros t2 t4 b1 b2 l1 l2 Hcut. cbv zeta. apply wp_gets. cbn [h_id]. pose proof (grow_cut _ _ _ _ _ _ _ u0 _ _ _ _ _ _ _ _ _ Hcut Eu) as Hg.
    destruct up as [|U up].
    + destruct (wp_tail_root _ _ _ _ _ _ _ _ _ _ _ _ _ _ _ Q Hcut) as [Eroot Hwp].
      { intros t' u1 u2 C' T' E' [-> ->] En Eb. apply (HQ t' _ C' T'); [intros Hlo; exact E'| |lia|unfold L; count_ids].
        apply grows_root; [exact Hg|]. apply (full_same _ _ u _ Eu), Hcut. }
      rewrite <- Eroot, Z.eqb_refl. exact Hwp.
    + destruct (wp_tail_next _ _ _ _ _ _ _ _ _ _ _ _ _ _ _ _ _
        (fun adding_record id0 => insert_loop rest adding_record (Some id0)) Q Hcut) as [Eroot Hwp].
      { intros t' ua v ub C' L' adding' Hp' Hva' Hia' EU HuaA Hpts Efl' Hh' Hr' En Eb.
        eapply Hnext; try done. unfold L, L'. count_ids. }
      rewrite (proj2 (Z.eqb_neq _ _)) by done. exact Hwp.
  - intros t' C' En Eb T'. apply (HQ t' _ C' T'); [|apply grows_stop, grow_fits; [apply Ht|exact Eu]|lia|unfold L; count_ids].
    intros Hlo. simpl. by rewrite flat_app, flat_cons.
Qed.

Lemma wp_insert_loop up : forall L lo path q adding changing t (Q : unit -> btree -> Prop),
  partial t lo (L :: up) -> calm t -> path_pos (L :: up) path q -> rec_valid adding ->
  btree_height t + 1 < 2 ^ 16 -> 2 * Z.of_nat (S (length up)) <= free_num t ->
  match changing with
  | None => length lo = k /\ ((0 < length lo)%nat -> rlen adding = key_len adding + 4) /\
      sorted (behind q adding (flat L))
  | Some b => rlen adding = key_len adding + 4 /\
      exists ua v ub D, flat L = ua ++ v :: ub /\ length ua = q /\ last (drop k lo) = Some D /\
        Forall2 points (ua ++ set_child_id v b :: adding :: ub) D
  end ->
  (forall t' lv', calm t' -> tree_cut k t' (lo ++ lv') ->
    (length lo = k -> elements lv' = behind q adding (flat L)) ->
    grows q (L :: up) lv' -> free_num t - Z.of_nat (S (S (length up))) <= free_num t' ->
    account t' (lo ++ lv') = account t (lo ++ L :: up) -> Q tt t') ->
  wp (insert_loop path adding changing) t (ok Q).
Proof using KeyOrder0 HN Hmax.
  induction up as [up IH] using (induction_ltof1 _ length).
  intros L lo path q adding changing t Q Hp Hc Hpath Hva Hh Hr Hch HQ.
  pose proof (path_pos_length _ _ _ Hpath) as Hlen. destruct path as [|[[id rw] pos] rest]; [done|].
  destruct Hpath as (Hrw & j & Hpl & Hrest). simpl in Hrw. subst rw. simpl in Hpl, Hlen.
  destruct (level_place_split _ _ _ _ _ Hpl) as (A & q1 & u & q2 & B & -> & -> & Efl & Hq & HjA).
  pose proof (pa_cut _ _ _ _ _ _ _ _ Hp) as Hk.
  assert (length (flat A) + length q1 = q)%nat as Hq' by (rewrite length_app in Hq; lia).
  assert (forall t1 u', turn t1 lo A id q1 u' q2 B up adding -> (length lo = k -> u' = u) ->
    rlen u = rlen u' -> free_num t1 = free_num t -> bits_num t1 = bits_num t ->
    wp (insert_step (Handle id true) (Z.of_nat (length q1)) (length rest) adding
          (fun adding_record id => insert_loop rest adding_record (Some id))) t1 (ok Q)) as Hturn.
  { intros t1 u' Ht Hu' Eu En Eb.
    assert (forall l : list level, account t1 (lo ++ l) = account t (lo ++ l)) as El by (intros l; unfold account; apply f_equal2; lia).
    assert (length lo = k -> flat A ++ (q1 ++ u' :: adding :: q2) ++ flat B =
      behind q adding (flat (A ++ (id, q1 ++ u :: q2) :: B))) as Ebeh.
    { intros Hlo. rewrite (Hu' Hlo), Efl, <- Hq, behind_mid. by rewrite <- !app_assoc. }
    eapply wp_turn; [exact Ht|exact Eu|lia| |].
    - rewrite Hq'. intros t' lv' C' T' E' G' N' L'. apply (HQ t' lv' C' T'); [|done|simpl; lia|by rewrite L', El].
      intros Hlo. rewrite E' by done. by apply Ebeh.
    - rewrite Hq'. intros U up' t' ua v ub L' adding' b1 -> C' Hp' Hva' Hia' EU HuaA Hpts Efl' Hh' Hr' G' N' K'.
      apply (IH up' ltac:(unfold ltof; simpl; lia) U (lo ++ [L']) rest j adding' (Some b1) t'); try done.
      + split; [done|]. exists ua, v, ub, L'. split; [done|]. split; [lia|]. split; [|done].
        rewrite drop_app_le by done. apply last_snoc.
      + intros t'' lv' C'' T'' _ G'' N'' K''. rewrite <- app_assoc in T'', K''. apply (HQ t'' _ C'' T'').
        * intros Hlo. simpl. rewrite Efl'. by apply Ebeh.
        * eapply grows_next; [exact G'|exact G''].
        * simpl length in *. lia.
        * change ([L'] ++ lv') with (L' :: lv') in K''. etrans; [exact K''|]. rewrite <- app_assoc.
          change ([L'] ++ U :: up') with (L' :: U :: up'). by rewrite K', El. }
  cbn [Btree.insert_loop]. destruct changing as [b|].
  - destruct Hch as (Hia & ua & v & ub & D & EL & Hua & HD & Hpts).
    rewrite Efl in EL. apply app_inj_1 in EL as [<- EL]; [|lia]. simplify_eq EL. intros <- <-.
    eapply wp_turn_start; [exact Hp|done|exact HD|done|done|exact Hpts|done|done|].
    intros t' Ht Eu En Eb. apply (Hturn t' _ Ht); [|done|done|done]. intros Hlo.
    rewrite drop_ge in HD by lia. by rewrite last_nil in HD.
  - destruct Hch as (Hlo & Hia & Hs). apply wp_bind, wp_ret. apply (Hturn t u); [|done|done|done|done].
    constructor; try done.
    + rewrite Efl, <- Hq, behind_mid in Hs. by rewrite <- !app_assoc in Hs |- *.
    + unfold joins. by rewrite drop_ge by lia.
Qed.
End loop.
