(* ===== verification/BtreeShrink.v ===== *)
(** * Levels that lose a record or a node

    What the removal does to one level of a tree that is cut below it: a record
    goes, a node goes, or a node takes the records of its right neighbour.  The
    tree is then cut above that level. *)

From S2P Require Import Prelude Monad BnodeBytes BnodeRepr BnodePool BnodePoolProofs Btree BtreeInv BtreeFind BtreeInsert.
Open Scope Z_scope.

(** ** Floors *)
Section floor.
Context (comp_fn : record -> record -> Z) (key_ok : record -> Prop) `{!KeyOrder comp_fn key_ok}.
Abbreviation lt := (lt comp_fn).
Abbreviation le := (le comp_fn).
Abbreviation floor_pos := (floor_pos comp_fn).
Abbreviation sorted := (sorted comp_fn).
Implicit Types (l : list record) (key r v : record).

Lemma floor_pos_unique l key p q : keys_ok key_ok l -> key_ok key ->
  floor_pos l key p -> floor_pos l key q -> p = q.
Proof using KeyOrder0.
  intros Hk Hkey. assert (forall p q, floor_pos l key p -> floor_pos l key q -> (p < q)%nat -> False) as H.
  { clear p q. intros p q [_ Hhi] [(r & Hr & Hle) _] Hpq. specialize (Hhi q r Hpq Hr).
    destruct Hle as [Hle|]; [|lia]. pose proof (ko_sym key r Hkey (Forall_lookup_1 _ _ _ _ Hk Hr)).
    unfold BtreeInv.lt, BtreeInv.le in *. lia. }
  intros Hp Hq. destruct (Nat.lt_trichotomy p q) as [Hlt|[->|Hlt]]; [|done|]; exfalso; eauto.
Qed.

Lemma floor_mid l1 v l2 key : le v key \/ l1 = [] -> Forall (lt key) l2 ->
  floor_pos (l1 ++ v :: l2) key (length l1).
Proof using.
  intros Hv Hl2. split.
  - exists v. split; [by apply list_lookup_middle|]. destruct Hv as [| ->]; [by left|by right].
  - intros i r Hi Hr. rewrite lookup_app_r in Hr by lia.
    destruct (i - length l1)%nat as [|j] eqn:E; [lia|]. simpl in Hr. by eapply Forall_lookup_1.
Qed.

(** A record that compares equal to the key is its floor. *)
Lemma floor_eq l1 v l2 key : sorted (l1 ++ v :: l2) -> keys_ok key_ok (l1 ++ v :: l2) -> key_ok key ->
  comp_fn v key = 0 -> floor_pos (l1 ++ v :: l2) key (length l1).
Proof using KeyOrder0.
  intros Hs Hk Hkey E. apply floor_mid; [left; unfold BtreeInv.le; lia|].
  apply SSorted_app in Hs as (_ & [_ Hs]%SSorted_cons & _). apply Forall_app in Hk as [_ [Hkv Hk2]%Forall_cons].
  apply Forall_forall. intros x Hx. rewrite Forall_forall in Hs, Hk2. specialize (Hk2 x Hx).
  eapply (le_lt_trans comp_fn key_ok key v x); try done; [|auto].
  unfold BtreeInv.le. pose proof (ko_sym key v Hkey Hkv). pose proof (ko_sym v key Hkv Hkey). lia.
Qed.

(** The records behind the floor, and the floor itself, against the key. *)
Lemma floor_split l1 v l2 key : floor_pos (l1 ++ v :: l2) key (length l1) ->
  (le v key \/ l1 = []) /\ Forall (lt key) l2.
Proof using.
  intros [(r & Hr & Hle) Hhi]. rewrite list_lookup_middle in Hr by done. injection Hr as <-. split.
  - destruct Hle as [|E]; [by left|right]. by destruct l1.
  - apply Forall_lookup. intros i x Hx. apply (Hhi (length l1 + S i)%nat); [lia|].
    rewrite lookup_app_r by lia. by replace (length l1 + S i - length l1)%nat with (S i) by lia.
Qed.

Lemma comp_zero_le x y : key_ok x -> key_ok y -> comp_fn x y = 0 -> le x y /\ le y x.
Proof using KeyOrder0.
  intros Hx Hy E. unfold BtreeInv.le. pose proof (ko_sym x y Hx Hy). pose proof (ko_sym y x Hy Hx). lia.
Qed.

Lemma comp_zero_sym x y : key_ok x -> key_ok y -> comp_fn x y = 0 -> comp_fn y x = 0.
Proof using KeyOrder0. intros Hx Hy E. pose proof (ko_sym x y Hx Hy). pose proof (ko_sym y x Hy Hx). lia. Qed.
End floor.

(** The key that [btree_merge] copies. *)
Lemma key_copy_key r : record_ok r -> same_key (key_copy r) r.
Proof.
  intros Hr. destruct (form_record_split r 0 Hr) as (E & El & Ek). pose proof (form_record_key r 0 Hr) as [_ Hb].
  pose proof (ro_key _ Hr) as Hk. unfold rlen in *.
  assert (key_len (key_copy r) = key_len (form_record r 0)) as Ek'.
  { unfold key_len. rewrite E. rewrite drop_app_le by lia. rewrite take_app_le by (rewrite length_drop; lia). done. }
  split; [congruence|]. rewrite <- Hb. unfold key_bytes. rewrite Ek', Ek, E. f_equal.
  rewrite take_app_length' by done. apply take_ge. lia.
Qed.

(** ** One level changes *)
Section change.
Context (N max_record_len : Z) (comp_fn : record -> record -> Z) (key_ok : record -> Prop).
Abbreviation level_ok := (level_ok N max_record_len comp_fn key_ok).
Abbreviation stack_ok := (stack_ok N max_record_len comp_fn key_ok).
Abbreviation stack_cut := (stack_cut N max_record_len comp_fn key_ok).
Abbreviation tree_ok := (tree_ok N max_record_len comp_fn key_ok).
Abbreviation tree_cut := (tree_cut N max_record_len comp_fn key_ok).
Abbreviation node_ok := (node_ok N max_record_len key_ok).
Abbreviation sorted := (sorted comp_fn).
Abbreviation between := (between comp_fn).
Abbreviation meet := (meet comp_fn).
Implicit Types (A B L U : level) (lo lv up : list level) (l recs : list record).

Lemma stack_cut_at ns k lo lv : length lo = k ->
  stack_cut ns k (lo ++ lv) <-> stack_ok ns 0 lo /\ stack_ok ns k lv.
Proof. intros <-. unfold BtreeInv.stack_cut. by rewrite take_app_length, drop_app_length. Qed.

(** The cut moves above a level that meets the one below. *)
Lemma cut_raise k t lo L up : length lo = k -> tree_cut k t (lo ++ L :: up) -> meet lo [L] ->
  tree_cut (S k) t ((lo ++ [L]) ++ up).
Proof.
  intros Hk [H1 H2 H3 H4 H5 H6 H7] Hm. rewrite <- app_assoc. constructor; try done.
  apply (stack_cut_at _ _ lo (L :: up)) in H2 as [Hlo (HL & _ & Hup)]; [|done].
  rewrite (app_assoc lo [L] up).
  apply (stack_cut_at _ _ (lo ++ _) up); [rewrite length_app; simpl; lia|]. split; [|done].
  apply stack_ok_app. split; [done|]. split; [|done]. simpl. by rewrite Hk.
Qed.

(** Where the levels at the cut meet, the tree is whole. *)
Lemma cut_close k t lo lv : length lo = k -> tree_cut k t (lo ++ lv) -> meet lo lv -> tree_ok t (lo ++ lv).
Proof.
  intros Hk [H1 H2 H3 H4 H5 H6 H7] Hm. constructor; try done.
  apply (stack_cut_at _ _ lo lv) in H2 as [Hlo Hlv]; [|done]. apply stack_ok_app. simpl. by rewrite Hk.
Qed.

Lemma tree_ok_cut_at k t lo lv : length lo = k -> tree_ok t (lo ++ lv) -> tree_cut k t (lo ++ lv) /\ meet lo lv.
Proof.
  intros Hk [H1 H2 H3 H4 H5 H6 H7]. apply stack_ok_app in H2 as (Hlo & Hlv & Hm). simpl in Hlv.
  split; [|done]. constructor; try done. apply (stack_cut_at _ _ lo lv); [done|]. by rewrite Hk in Hlv.
Qed.

(** The level above the cut gets other nodes, some of the ids it had. *)
Record shrunk (t t' : btree) lo L L' up : Prop := {
  sh_pool : pool_inv t';
  sh_bits : bits_num t' = bits_num t;
  sh_height : btree_height t' = btree_height t;
  sh_root : root_bnode_id t' = root_bnode_id t;
  sh_level : level_ok (nodes t') (length lo) L';
  sh_frame : forall x, x ∈ all_ids lo ++ all_ids up -> nodes t' !! x = nodes t !! x;
  sh_sub : forall x, x ∈ ids L' -> x ∈ ids L;
  sh_nodup : NoDup (ids L');
  sh_used : forall x, x ∈ all_ids lo ++ ids L' ++ all_ids up -> used t x -> used t' x;
  sh_top : up = [] -> ids L' = ids L
}.

Lemma cut_shrunk k t t' lo L L' up : length lo = k -> tree_cut k t (lo ++ L :: up) -> shrunk t t' lo L L' up ->
  meet lo [L'] -> tree_cut (S k) t' ((lo ++ [L']) ++ up).
Proof.
  intros Hk [H1 H2 [tr H3] H4 H5 H6 H7] [P1 P2 P3 P4 P5 P6 P7 P8 P9 P10] Hm.
  apply (stack_cut_at _ _ lo (L :: up)) in H2 as [Hlo (HL & _ & Hup)]; [|done].
  rewrite all_ids_app, all_ids_cons in H5, H6. rewrite !Forall_app in H6. destruct H6 as (U1 & U2 & U3).
  assert (forall x, x ∈ all_ids lo ++ ids L' ++ all_ids up -> used t x) as Hused.
  { rewrite Forall_forall in U1, U2, U3. intros x Hx.
    apply elem_of_app in Hx as [|Hx]; [auto|]. apply elem_of_app in Hx as [Hx|]; [|auto]. by apply U2, P7. }
  constructor; rewrite ?P2, ?P3, ?P4; try done.
  - apply (stack_cut_at _ _ (lo ++ _) up); [rewrite length_app; simpl; lia|]. split.
    + apply stack_ok_app. split; [|split; [simpl; done|done]].
      eapply stack_ok_frame; [|exact Hlo]. intros x Hx. apply P6, elem_of_app. by left.
    + eapply stack_ok_frame; [|exact Hup]. intros x Hx. apply P6, elem_of_app. by right.
  - destruct up as [|U up].
    + rewrite app_nil_r. rewrite last_snoc in H3. injection H3 as ->. specialize (P10 eq_refl).
      destruct L' as [|[x recs] [|]]; [done| |done]. simpl in P10. injection P10 as ->.
      exists recs. by rewrite last_snoc.
    + exists tr. rewrite last_app_cons. rewrite last_app_cons, last_cons_cons in H3. done.
  - rewrite H4, !length_app. simpl. lia.
  - rewrite !all_ids_app, all_ids_cons. change (all_ids []) with (@nil Z). rewrite app_nil_r, <- app_assoc.
    apply NoDup_app in H5 as (N1 & N2 & N3). apply NoDup_app in N3 as (N3 & N4 & N5).
    apply NoDup_app. split; [done|]. split.
    + intros x Hx Hx'. apply (N2 x Hx). apply elem_of_app in Hx' as [Hx'|Hx']; apply elem_of_app; auto.
    + apply NoDup_app. split; [done|]. split; [|done]. intros x Hx. by apply N4, P7.
  - rewrite !all_ids_app, all_ids_cons. change (all_ids []) with (@nil Z). rewrite app_nil_r, <- app_assoc.
    apply Forall_forall. auto.
Qed.

Lemma shrunk_trans t t1 t2 lo L L1 L2 up :
  shrunk t t1 lo L L1 up -> shrunk t1 t2 lo L1 L2 up -> shrunk t t2 lo L L2 up.
Proof.
  intros [P1 P2 P3 P4 P5 P6 P7 P8 P9 P10] [Q1 Q2 Q3 Q4 Q5 Q6 Q7 Q8 Q9 Q10]. constructor; try congruence; try done.
  - intros x Hx. by rewrite Q6, P6.
  - auto.
  - intros x Hx Hu. apply Q9; [done|]. apply P9; [|done]. rewrite !elem_of_app in *. naive_solver.
  - intros E. by rewrite Q10, P10.
Qed.

Lemma shrunk_sim t t1 t2 lo L L' up : t1 ≈ t2 -> shrunk t t1 lo L L' up -> shrunk t t2 lo L L' up.
Proof.
  intros S [P1 P2 P3 P4 P5 P6 P7 P8 P9 P10]. constructor; try done.
  - by rewrite <- S.
  - unfold bits_num in *. by rewrite <- (sim_bits _ _ S).
  - by rewrite <- (sim_height _ _ S).
  - by rewrite <- (sim_root _ _ S).
  - by rewrite <- (sim_nodes _ _ S).
  - intros x Hx. rewrite <- (sim_nodes _ _ S). auto.
  - intros x Hx Hu. rewrite <- S. auto.
Qed.

(** The ids of a level in a tree that is cut. *)
Lemma cut_ids k t lo L up : tree_cut k t (lo ++ L :: up) ->
  NoDup (ids L) /\ Forall (used t) (ids L) /\ (forall x, x ∈ ids L -> x ∉ all_ids lo ++ all_ids up).
Proof.
  intros [_ _ _ _ H5 H6 _]. rewrite all_ids_app, all_ids_cons in H5, H6. rewrite !Forall_app in H6.
  apply NoDup_app in H5 as (_ & N2 & N3). apply NoDup_app in N3 as (N3 & N4 & _).
  split; [done|]. split; [tauto|]. intros x Hx [Hx'|Hx']%elem_of_app; [|by apply (N4 x)].
  apply (N2 x Hx'), elem_of_app. by left.
Qed.

(** The records of a node change. *)
Lemma chained_update ns ty A id recs recs' B :
  chained ns ty 0 (A ++ (id, recs) :: B) 0 -> NoDup (ids (A ++ (id, recs) :: B)) ->
  chained (<[id := Bnode id ty (last_id 0 A) (hd_id 0 B) recs']> ns) ty 0 (A ++ (id, recs') :: B) 0.
Proof.
  rewrite ids_app. simpl. intros [HA [_ HB]]%chained_app (_ & HA' & [HB' _]%NoDup_cons)%NoDup_app.
  apply chained_app. simpl. split; [|split].
  - eapply chained_frame; [|exact HA]. intros x Hx. apply lookup_insert_ne. intros ->. apply (HA' _ Hx). set_solver.
  - by rewrite lookup_insert_eq.
  - eapply chained_frame; [|exact HB]. intros x Hx. apply lookup_insert_ne. by intros ->.
Qed.

Lemma shrunk_update t t' lo A id recs recs' B up :
  pool_inv t -> level_ok (nodes t) (length lo) (A ++ (id, recs) :: B) -> NoDup (ids (A ++ (id, recs) :: B)) ->
  id ∉ all_ids lo ++ all_ids up -> node_ok (length lo) recs' -> sorted (flat A ++ recs' ++ flat B) ->
  t' ≈ set_nodes t (<[id := Bnode id (level_type (length lo)) (last_id 0 A) (hd_id 0 B) recs']> (nodes t)) ->
  shrunk t t' lo (A ++ (id, recs) :: B) (A ++ (id, recs') :: B) up.
Proof.
  intros Hp [Hc Hn _] Hnd Hid Hn' Hs S.
  assert (ids (A ++ (id, recs') :: B) = ids (A ++ (id, recs) :: B)) as Eids by (by rewrite !ids_app).
  eapply shrunk_sim; [symmetry; exact S|]. constructor; simpl; rewrite ?Eids; try done.
  - by apply pool_inv_insert.
  - constructor.
    + by apply (chained_update _ _ _ _ recs).
    + apply Forall_app in Hn as [HA [_ HB]%Forall_cons]. apply Forall_app. split; [done|]. by apply Forall_cons.
    + by rewrite flat_app, flat_cons.
  - intros x Hx. apply lookup_insert_ne. by intros ->.
Qed.

(** A node goes: its neighbours are linked to each other. *)
Record unlinked (ns ns' : gmap Z bnode) (pv nx id : Z) : Prop := {
  ul_p : pv <> 0 -> ns' !! pv = (fun n => set_next n nx) <$> ns !! pv;
  ul_n : nx <> 0 -> ns' !! nx = (fun n => set_prev n pv) <$> ns !! nx;
  ul_o : forall x, x <> id -> (x = pv -> pv = 0) -> (x = nx -> nx = 0) -> ns' !! x = ns !! x
}.

Lemma chained_unlinked ns ns' ty A id recs B :
  chained ns ty 0 (A ++ (id, recs) :: B) 0 -> NoDup (ids A ++ id :: ids B) ->
  Forall (fun x => x <> 0) (ids A ++ id :: ids B) -> unlinked ns ns' (last_id 0 A) (hd_id 0 B) id ->
  chained ns' ty 0 (A ++ B) 0.
Proof.
  intros [HA [_ HB]]%chained_app Hnd Hz [Rp Rn Ro]. simpl in HA. rewrite Forall_forall in Hz.
  apply NoDup_app in Hnd as (HndA & HAB & [HidB HndB]%NoDup_cons). apply chained_app. split.
  - destruct A as [|[pv ra] A0 _] using rev_ind; [done|].
    assert (last_id 0 (A0 ++ [(pv, ra)]) = pv) as Epv by (unfold last_id; by rewrite last_snoc).
    rewrite Epv in *. rewrite ids_app in *. simpl in *.
    apply chained_app in HA as [HA0 [HA1 _]]. apply chained_app. simpl. split; [|split; [|done]].
    + eapply chained_frame; [|exact HA0]. intros x Hx. apply NoDup_app in HndA as (_ & Hd & _).
      apply Ro.
      * intros ->. specialize (HAB id). set_solver.
      * intros ->. specialize (Hd _ Hx). set_solver.
      * intros E. destruct (hd_id_nil_or 0 B) as [|Hin]; [done|]. rewrite <- E in Hin.
        specialize (HAB x ltac:(set_solver)). set_solver.
    + rewrite Rp by (apply Hz; set_solver). by rewrite HA1.
  - destruct B as [|[nx rb] B0]; [done|]. simpl in *. destruct HB as [HB1 HB2].
    split; [rewrite Rn by (apply Hz; set_solver); by rewrite HB1|].
    eapply chained_frame; [|exact HB2]. intros x Hx. apply NoDup_cons in HndB as [Hn HndB]. apply Ro.
    + intros ->. set_solver.
    + intros E. destruct (last_id_nil_or 0 A) as [|Hin]; [done|]. rewrite <- E in Hin.
      specialize (HAB x Hin). set_solver.
    + intros ->. done.
Qed.

Lemma shrunk_drop t t' lo A id recs B up :
  level_ok (nodes t) (length lo) (A ++ (id, recs) :: B) -> NoDup (ids (A ++ (id, recs) :: B)) ->
  Forall (used t) (ids (A ++ (id, recs) :: B)) ->
  (forall x, x ∈ ids (A ++ (id, recs) :: B) -> x ∉ all_ids lo ++ all_ids up) -> up <> [] ->
  Forall (used t) (all_ids lo ++ all_ids up) ->
  unlinked (nodes t) (nodes t') (last_id 0 A) (hd_id 0 B) id -> (forall x, used t x -> x <> id -> used t' x) ->
  pool_inv t' -> bits_num t' = bits_num t -> btree_height t' = btree_height t -> root_bnode_id t' = root_bnode_id t ->
  shrunk t t' lo (A ++ (id, recs) :: B) (A ++ B) up.
Proof.
  intros [Hc Hn Hs] Hnd Hu Hdis Hup Hrest HR Hused Hp Eb Eh Er.
  rewrite ids_app in Hnd, Hu, Hdis. simpl in Hnd, Hu, Hdis. rewrite Forall_forall in Hrest.
  assert (forall x, used t x -> x <> 0) as H0 by (intros x []; lia).
  constructor; try done.
  - constructor.
    + eapply chained_unlinked; [exact Hc|done| |exact HR]. eapply Forall_impl; [exact Hu|]. auto.
    + apply Forall_app in Hn as [HA [_ HB]%Forall_cons]. by apply Forall_app.
    + rewrite flat_app, flat_cons in Hs. rewrite flat_app. apply SSorted_app in Hs as (HA & HB & HAB).
      apply SSorted_app in HB as (_ & HB & _). apply SSorted_app. split; [done|]. split; [done|].
      eapply Forall_impl; [exact HAB|]. by intros x [_ ?]%Forall_app.
  - intros x Hx. assert (forall y, y = 0 \/ y ∈ ids A ++ id :: ids B -> x = y -> y = 0) as Hnot.
    { intros y [|Hy] ->; [done|]. by destruct (Hdis y). }
    apply (ul_o _ _ _ _ _ HR).
    + intros ->. apply (Hdis id); [set_solver|done].
    + apply Hnot. destruct (last_id_nil_or 0 A) as [|Hin]; [by left|right]. apply elem_of_app. by left.
    + apply Hnot. destruct (hd_id_nil_or 0 B) as [|Hin]; [by left|right]. set_solver.
  - intros x. rewrite !ids_app. simpl. set_solver.
  - rewrite ids_app. apply NoDup_app in Hnd as (N1 & N2 & [N3 N4]%NoDup_cons). apply NoDup_app.
    split; [done|]. split; [|done]. intros x Hx Hx'. apply (N2 x Hx). by right.
  - intros x Hx Hxu. apply Hused; [done|]. intros ->. rewrite ids_app in Hx.
    apply NoDup_app in Hnd as (N1 & N2 & [N3 N4]%NoDup_cons).
    assert (id ∉ all_ids lo ++ all_ids up) as Hno by (apply Hdis; set_solver).
    rewrite !elem_of_app in Hx, Hno. specialize (N2 id). set_solver.
Qed.
End change.
