(* ===== verification/BtreeUpdateKey.v ===== *)
(** * The index record of a node whose first record went

    A removal that takes the first record of a node makes the index record of
    the node too small.  [btree_update_key] inserts one with the new first key
    and deletes the old one, which may be the first of its own node again. *)

From S2P Require Import Prelude Monad BnodeBytes BnodeRepr BnodePool BnodePoolProofs Btree BtreeInv BtreeFind BtreeInsert BtreeShrink.
Open Scope Z_scope.

(** Every node has two records at least. *)
Definition bushy_level (L : list (Z * list record)) : Prop := Forall (fun n => 2 <= length (snd n))%nat L.
Definition bushy (lv : list (list (Z * list record))) : Prop := Forall bushy_level lv.

Section update_key.
Context (N max_record_len log_pages_per_node : Z) (comp_fn : record -> record -> Z) (key_ok : record -> Prop)
  `{!KeyOrder comp_fn key_ok} (mounted : bool) (beyond : Z -> bool) (grow : Z -> Z -> Z).
Context (HN : node_size_ok N) (Hmax : max_record_len + 31 <= N / 2) (Hbig : big_nodes N max_record_len).
Abbreviation level_ok := (level_ok N max_record_len comp_fn key_ok).
Abbreviation tree_ok := (tree_ok N max_record_len comp_fn key_ok).
Abbreviation tree_cut := (tree_cut N max_record_len comp_fn key_ok).
Abbreviation rec_valid := (rec_valid max_record_len key_ok).
Abbreviation node_ok := (node_ok N max_record_len key_ok).
Abbreviation sorted := (sorted comp_fn).
Abbreviation points := (points comp_fn).
Abbreviation between := (between comp_fn).
Abbreviation meet := (meet comp_fn).
Abbreviation lt := (lt comp_fn).
Abbreviation le := (le comp_fn).
Abbreviation floor_pos := (floor_pos comp_fn).
Abbreviation grows := (grows N max_record_len).
Abbreviation grow_at := (grow_at N max_record_len).
Abbreviation btree_insert_at_level := (btree_insert_at_level N max_record_len log_pages_per_node comp_fn mounted beyond grow).
Abbreviation btree_update_key := (btree_update_key N max_record_len log_pages_per_node comp_fn mounted beyond grow).
Implicit Types (A B L U : level) (lo lv up : list level) (l recs : list record) (key r v : record).

(** The root has room for [b] more records. *)
Definition roomy (b : nat) lv : Prop :=
  match last lv with Some L => 27 + room (flat L) + Z.of_nat b * (max_record_len + 4) <= N | None => True end.

(** ** What insertions leave *)
Lemma grow_at_bushy q L L' : grow_at q L L' -> bushy_level L ->
  bushy_level L' /\ forall A id recs B p, L' = A ++ (id, recs) :: B -> q = (length (flat A) + p)%nat ->
    (p < length recs)%nat -> (3 <= length recs)%nat.
Proof using Hbig.
  intros (A0 & id0 & recs0 & B0 & X & -> & -> & Hq & HX & Hcase) [HA [H0 HB]%Forall_cons]%Forall_app. simpl in H0.
  assert (Forall (fun n => 3 <= length (snd n))%nat X) as H3.
  { destruct Hcase as [(recs' & -> & _)|[_ Hthree]]; [|by apply Hthree].
    apply Forall_singleton. rewrite flat_cons in HX. simpl in *. rewrite length_app in HX. simpl in HX. lia. }
  split.
  - apply Forall_app. split; [done|]. apply Forall_app. split; [|done].
    eapply Forall_impl; [exact H3|]. simpl. lia.
  - intros A id recs B p E -> Hp.
    destruct (decide (length A < length A0)%nat) as [Hlt|Hge].
    { exfalso. destruct (list_split_at (length A) A0) as (A1 & A2 & -> & HA1); [lia|].
      rewrite <- app_assoc in E. apply app_inj_1 in E as [-> E]; [|done].
      destruct A2 as [|n A2]; [rewrite app_nil_r in Hlt; lia|]. simplify_eq/=.
      rewrite flat_app, flat_cons, !length_app in Hq. simpl in Hq. lia. }
    destruct (list_split_at (length A0) A) as (A1 & A2 & -> & HA1); [lia|].
    rewrite <- app_assoc in E. apply app_inj_1 in E as [-> E]; [|done].
    rewrite flat_app, length_app in Hq.
    destruct (decide (length A2 < length X)%nat) as [Hlt|Hge2].
    + destruct (list_split_at (length A2) X) as (X1 & X2 & -> & HX1); [lia|].
      rewrite <- app_assoc in E. apply app_inj_1 in E as [-> E]; [|done].
      destruct X2 as [|n X2]; [rewrite app_nil_r in Hlt; lia|]. simplify_eq/=.
      by apply Forall_app in H3 as [_ [H3 _]%Forall_cons].
    + exfalso. destruct (list_split_at (length X) A2) as (X1 & X2 & -> & HX1); [lia|].
      rewrite <- app_assoc in E. apply app_inj_1 in E as [-> E]; [|done].
      rewrite flat_app, length_app in Hq. lia.
Qed.

Lemma valid_max l : l <> [] -> Forall rec_valid l -> 0 <= max_record_len.
Proof using.
  intros Hne Hv. destruct l as [|r l]; [done|]. apply Forall_cons in Hv as [[_ Hr _ _] _].
  pose proof (rlen_nonneg r). lia.
Qed.

(** A root with room stays the root. *)
Lemma roomy_full b recs L : 0 <= max_record_len -> room recs <= room (flat L) ->
  27 + room (flat L) + Z.of_nat (S b) * (max_record_len + 4) <= N -> ~ full N max_record_len recs.
Proof using. clear Hmax Hbig HN. unfold full. nia. Qed.

Lemma grows_roomy q lv lv' b : 0 <= max_record_len -> grows q lv lv' -> roomy (S b) lv ->
  length lv' = length lv /\ roomy b lv' /\ (bushy lv -> bushy lv').
Proof using Hbig.
  intros Hm Hg. unfold roomy.
  assert (forall q L L', grow_at q L L' -> 27 + room (flat L) + Z.of_nat (S b) * (max_record_len + 4) <= N ->
    27 + room (flat L') + Z.of_nat b * (max_record_len + 4) <= N) as Hat.
  { clear -Hm. intros q L L' (A & id & recs & B & X & -> & -> & Hq & HX & Hcase) HL.
    pose proof (room_nonneg (flat A)). pose proof (room_nonneg (flat B)).
    rewrite !flat_app, flat_cons, !room_app in *. cbn [snd] in *.
    destruct Hcase as [(recs' & -> & Hr)|[Hf _]]; [|unfold full in Hf; exfalso; nia].
    rewrite flat_cons. cbn [snd]. change (flat []) with (@nil record). rewrite app_nil_r. lia. }
  induction Hg as [q L L' up Hat'|q q' L L' up up' Hat' Hg IH|q id recs L' u1 u2 Hat' Hf]; intros Hr.
  - split; [done|]. split.
    + destruct up as [|U up]; [simpl in *; by eapply Hat|]. rewrite last_cons_cons in Hr |- *.
      destruct (last (U :: up)); [lia|done].
    + intros [HL Hup]%Forall_cons. apply Forall_cons. split; [|done]. by eapply grow_at_bushy.
  - assert (last (L :: up) = last up) as El by (destruct Hg; by rewrite last_cons_cons).
    assert (last (L' :: up') = last up') as El' by (destruct Hg; by rewrite ?last_cons_cons).
    rewrite El in Hr. rewrite El'. destruct (IH Hr) as (IH1 & IH2 & IH3).
    split; [simpl; lia|]. split; [done|]. intros [HL Hup]%Forall_cons. apply Forall_cons.
    split; [by eapply grow_at_bushy|by apply IH3].
  - exfalso. simpl in Hr. eapply (roomy_full b recs [(id, recs)]); try done.
    rewrite flat_cons. simpl. rewrite app_nil_r. lia.
Qed.

Lemma grows_head q L up lv' : grows q (L :: up) lv' -> exists L' up', lv' = L' :: up' /\ grow_at q L L'.
Proof using. intros Hg. inversion Hg; subst; eauto. Qed.

(** ** Order *)
Lemma sorted_behind l1 v r l2 : sorted (l1 ++ v :: l2) -> keys_ok key_ok (l1 ++ v :: l2) -> key_ok r ->
  lt v r -> Forall (lt r) l2 -> sorted (l1 ++ v :: r :: l2).
Proof using KeyOrder0.
  intros Hs Hk Hr Hv Hl2. apply SSorted_app in Hs as (H1 & [H2 H3]%SSorted_cons & H4).
  apply Forall_app in Hk as [Hk1 [Hkv Hk2]%Forall_cons].
  apply SSorted_app. split; [done|]. split.
  - apply SSorted_cons. split; [by apply SSorted_cons|]. by apply Forall_cons.
  - apply Forall_forall. intros z Hz. rewrite Forall_forall in H4, Hk1. specialize (H4 z Hz).
    apply Forall_cons in H4 as [Hzv Hz2]. apply Forall_cons. split; [done|]. apply Forall_cons. split; [|done].
    eapply (lt_trans comp_fn key_ok z v r); auto.
Qed.

(** The records that point to nodes behind a key are behind it. *)
Lemma points_behind f us B : key_ok f -> keys_ok key_ok us -> keys_ok key_ok (flat B) ->
  Forall (fun n => snd n <> []) B -> Forall2 points us B -> Forall (lt f) (flat B) -> Forall (lt f) us.
Proof using KeyOrder0.
  intros Hf Hu HB Hne Hp. induction Hp as [|u [b recs] us B [_ Hk] Hp IH]; intros Hlt; [constructor|].
  rewrite flat_cons in HB, Hlt. apply Forall_cons in Hne as [Hn Hne]. simpl in *.
  apply Forall_cons in Hu as [Hku Hu]. apply Forall_app in HB as [Hkr HB]. apply Forall_app in Hlt as [Hlr Hlt].
  apply Forall_cons. split; [|by apply IH]. destruct recs as [|x recs]; [done|].
  apply Forall_cons in Hkr as [Hkx _]. apply Forall_cons in Hlr as [Hlx _]. unfold first_rec in Hk. simpl in Hk.
  eapply (lt_le_trans comp_fn key_ok f x u); try done. by apply (comp_zero_le comp_fn key_ok u x).
Qed.

Lemma level_behind i ns A id recs B : level_ok ns i (A ++ (id, recs) :: B) ->
  Forall (lt (first_rec recs)) (flat B).
Proof using.
  intros [_ Hn Hs]. apply Forall_app in Hn as [_ [Hn _]%Forall_cons]. simpl in Hn.
  rewrite flat_app, flat_cons in Hs. simpl in Hs. apply SSorted_app in Hs as (_ & Hs & _).
  apply SSorted_app in Hs as (_ & _ & Hs). destruct recs as [|f recs]; [by destruct Hn|].
  by apply Forall_cons in Hs as [Hs _].
Qed.

Lemma lt_same r f l : same_key r f -> key_ok f -> Forall (lt f) l -> Forall (lt r) l.
Proof using KeyOrder0.
  intros Hk Hf Hl. eapply Forall_impl; [exact Hl|]. intros x Hx. unfold BtreeInv.lt in *.
  by rewrite (proj1 (same_key_eq comp_fn key_ok r f x Hk Hf)).
Qed.

(** ** Steps *)
Lemma wp_delete_from t id n p r {C} (cont : unit -> M C) Q : nodes t !! id = Some n -> bn_recs n !! p = Some r ->
  Z.of_nat (length (bn_recs n)) < 2 ^ 32 -> calm t ->
  (forall t', t' ≈ set_nodes t (<[id := node_delete n p]> (nodes t)) -> calm t' -> wp (cont tt) t' Q) ->
  wp (bind (delete_from mounted (Handle id true) (Z.of_nat p)) cont) t Q.
Proof using.
  intros Hn Hr Hlen Hc HQ. apply wp_bind_ok. unfold delete_from. eapply wp_node; [exact Hn|].
  eapply wp_try_ok.
  { instantiate (1 := fun a t' => a = r /\ t' = t). pose proof (lookup_lt_Some _ _ _ Hr). unfold get_rec.
    rewrite uwrap_small by lia. rewrite Z.gtb_ltb, (proj2 (Z.ltb_ge _ _)) by lia.
    rewrite Nat2Z.id, Hr. by apply wp_ret. }
  intros a t' [-> ->]. rewrite Nat2Z.id. eapply wp_update; [exact Hn|].
  apply wp_dirty_last; [done|done|]. intros t' S C'. by apply HQ.
Qed.

(** A record goes from the level at the cut. *)
Lemma wp_delete_rec k t lo A id (r1 : list record) r (r2 : list record) B up {C} (cont : unit -> M C) Q : length lo = k ->
  tree_cut k t (lo ++ (A ++ (id, r1 ++ r :: r2) :: B) :: up) -> r1 ++ r2 <> [] ->
  meet lo [A ++ (id, r1 ++ r2) :: B] -> calm t ->
  (forall t', calm t' -> tree_cut (S k) t' ((lo ++ [A ++ (id, r1 ++ r2) :: B]) ++ up) -> free_num t' = free_num t ->
    bits_num t' = bits_num t ->
    nodes t' !! id = Some (Bnode id (level_type k) (last_id 0 A) (hd_id 0 B) (r1 ++ r2)) -> wp (cont tt) t' Q) ->
  wp (bind (delete_from mounted (Handle id true) (Z.of_nat (length r1))) cont) t Q.
Proof using All.
  intros Hk Ht Hne Hm Hc HQ. destruct (cut_node _ _ _ _ _ _ _ _ _ _ _ _ Ht) as (Hu & Hn & _).
  pose proof (cut_level _ _ _ _ _ _ _ _ _ Ht) as HL. destruct (cut_ids _ _ _ _ _ _ _ _ _ Ht) as (Hnd & _ & Hdis).
  assert (node_ok (length lo) (r1 ++ r :: r2)) as Hok.
  { pose proof (lo_nodes _ _ _ _ _ _ _ HL) as H. by apply Forall_app in H as [_ [H _]%Forall_cons]. }
  eapply wp_delete_from; [exact Hn|by apply list_lookup_middle|by eapply node_count|done|].
  intros t' S C'.
  assert (node_delete (Bnode id (level_type (length lo)) (last_id 0 A) (hd_id 0 B) (r1 ++ r :: r2)) (length r1) =
    Bnode id (level_type (length lo)) (last_id 0 A) (hd_id 0 B) (r1 ++ r2)) as En.
  { unfold node_delete, set_recs. simpl. f_equal. rewrite take_app_length. by rewrite mid_drop_S. }
  rewrite En in S. apply HQ; [done| |by rewrite (sim_num _ _ S)|by unfold bits_num; rewrite (sim_bits _ _ S)|by rewrite (sim_nodes _ _ S), <- Hk; simpl; rewrite lookup_insert_eq].
  apply (cut_shrunk N max_record_len comp_fn key_ok k t t' lo (A ++ (id, r1 ++ r :: r2) :: B)); [done|done| |done].
  destruct Hok as [_ Hroom Hv Hi]. eapply shrunk_update; try done; [apply Ht|apply Hdis; rewrite ids_app; simpl; set_solver| |].
  - constructor; [done| | |].
    + rewrite room_app in *. simpl in Hroom. pose proof (rlen_nonneg r). unfold sizeof_off in *. lia.
    + apply Forall_app in Hv as [Hv1 [_ Hv2]%Forall_cons]. by apply Forall_app.
    + intros H. apply Hi in H. apply Forall_app in H as [H1 [_ H2]%Forall_cons]. by apply Forall_app.
  - pose proof (lo_sorted _ _ _ _ _ _ _ HL) as Hs. rewrite flat_app, flat_cons in Hs. simpl in Hs.
    rewrite <- app_assoc in Hs |- *. simpl in Hs. rewrite app_assoc in Hs |- *.
    apply SSorted_app in Hs as (H1 & [H2 H3]%SSorted_cons & H4). apply SSorted_app. split; [done|].
    split; [done|]. eapply Forall_impl; [exact H4|]. by intros x [_ ?]%Forall_cons.
Qed.

Lemma close_above k t lo L up : length lo = k -> tree_cut (S k) t ((lo ++ [L]) ++ up) -> meet [L] up ->
  tree_ok t (lo ++ L :: up).
Proof using All.
  intros Hk Ht Hm. replace (lo ++ L :: up) with ((lo ++ [L]) ++ up) by (by rewrite <- app_assoc).
  eapply cut_close; [|exact Ht|]; [rewrite length_app; simpl; lia|].
  unfold BtreeFind.meet in *. rewrite last_snoc. done.
Qed.

(** The search at the cut, with the floors above. *)
Lemma wp_find_at k t lo L up key (Q : handle * Z -> btree -> Prop) : length lo = k ->
  tree_cut k t (lo ++ L :: up) -> key_ok key -> calm t ->
  (forall t' id A (r1 : list record) u (r2 : list record) B, t' ≈ t -> calm t' -> L = A ++ (id, r1 ++ u :: r2) :: B ->
    floor_pos (flat L) key (length (flat A ++ r1)) ->
    match up with U :: _ => floor_pos (flat U) key (length A) | [] => A = [] /\ B = [] end ->
    Q (Handle id true, Z.of_nat (length r1)) t') ->
  wp (btree_find comp_fn mounted beyond grow key (Z.of_nat (S k)) true) t (ok Q).
Proof using All.
  intros Hk Ht Hkey Hc HQ. unfold btree_find. apply wp_bind. eapply wp_mono.
  { apply (wp_find_cut N max_record_len comp_fn key_ok mounted beyond grow k t (lo ++ L :: up)); [done|done|].
    rewrite length_app. simpl. lia. }
  intros [path|e|] t' H; [|by destruct H as [_ []]|by destruct H as [[] _]]. destruct H as (S & C & q & Hq).
  replace (Z.to_nat (Z.of_nat (Datatypes.S k)) - 1)%nat with (length lo) in Hq by lia.
  rewrite drop_app_length in Hq. destruct path as [|[h pos] path]; [done|].
  destruct Hq as (Hrw & Hfl & j & Hpl & Hup).
  destruct (level_place_split _ _ _ _ _ Hpl) as (A & r1 & u & r2 & B & EL & -> & _ & Hlen & Hj).
  apply wp_ret. destruct h as [id rw]. simpl in *. subst rw.
  eapply (HQ t' id A r1 u r2 B); [done|auto|done|by rewrite Hlen|].
  destruct up as [|U up].
  - destruct Hup as [E _]. rewrite E in EL. destruct A as [|a A]; [|by destruct A]. by destruct B.
  - destruct path as [|[h' pos'] path]; [done|]. destruct Hup as (_ & Hup & _). by rewrite Hj.
Qed.

(** A record inserted behind its floor in the level above the cut. *)
Lemma wp_insert_above k t lo U up ua v ub r (Q : unit -> btree -> Prop) : length lo = k -> (0 < k)%nat ->
  tree_cut k t (lo ++ U :: up) -> calm t -> flat U = ua ++ v :: ub -> rec_valid r -> rlen r = key_len r + 4 ->
  lt v r -> Forall (lt r) ub -> btree_height t + 1 < 2 ^ 16 -> 2 * Z.of_nat (S (length up)) <= free_num t ->
  (forall t' lv', calm t' -> tree_cut k t' (lo ++ lv') -> elements lv' = ua ++ v :: r :: ub ->
    grows (length ua) (U :: up) lv' -> free_num t - Z.of_nat (S (S (length up))) <= free_num t' ->
    account t' (lo ++ lv') = account t (lo ++ U :: up) -> Q tt t') ->
  wp (btree_insert_at_level r (Z.of_nat (S k))) t (ok Q).
Proof using All.
  intros Hk Hk0 Ht Hc EU Hr Hi Hv Hub Hh Hroom HQ. unfold Btree.btree_insert_at_level.
  pose proof (cut_level _ _ _ _ _ _ _ _ _ Ht) as HU.
  pose proof (level_keys_ok _ _ _ _ _ _ _ HU) as HkU. pose proof (lo_sorted _ _ _ _ _ _ _ HU) as HsU.
  rewrite EU in HkU, HsU. assert (key_ok v) as Hkv by (by apply Forall_app in HkU as [_ [? _]%Forall_cons]).
  apply wp_bind_ok, wp_kmalloc_ok; [done|]. intros t1 S1 C1.
  assert (tree_cut k t1 (lo ++ U :: up)) as Ht1 by (eapply tree_cut_sim; [symmetry; exact S1|done]).
  apply wp_bind. eapply wp_mono.
  { apply (wp_find_cut N max_record_len comp_fn key_ok mounted beyond grow k t1 (lo ++ U :: up)); [done|apply Hr|].
    rewrite length_app. simpl. lia. }
  intros [path|e|] t2 H; [|by destruct H as [_ []]|by destruct H as [[] _]]. destruct H as (S2 & C2 & q & Hq).
  replace (Z.to_nat (Z.of_nat (Datatypes.S k)) - 1)%nat with (length lo) in Hq by lia.
  rewrite drop_app_length in Hq. destruct path as [|[h pos] path]; [done|]. specialize (C2 C1).
  assert (tree_cut k t2 (lo ++ U :: up)) as Ht2 by (eapply tree_cut_sim; [symmetry; exact S2|done]).
  pose proof Hq as (Hrw & Hfl & j & Hpl & _).
  assert (q = length ua) as ->.
  { rewrite EU in Hfl. apply (floor_pos_unique comp_fn key_ok _ r q (length ua) HkU (rv_key _ _ _ Hr) Hfl).
    apply floor_mid; [|done]. left. unfold BtreeInv.lt, BtreeInv.le in *. lia. }
  destruct (level_place_split _ _ _ _ _ Hpl) as (A & r1 & u & r2 & B & EL & -> & Efl & Hlen & Hj).
  rewrite EU in Efl. apply app_inj_1 in Efl as [-> Efl]; [|done]. injection Efl as <- ->.
  rewrite EL in Ht2. destruct (cut_node _ _ _ _ _ _ _ _ _ _ _ _ Ht2) as (_ & Hn & _).
  assert (Z.of_nat (length (r1 ++ v :: r2)) < 2 ^ 32) as Hcount.
  { pose proof (lo_nodes _ _ _ _ _ _ _ (cut_level _ _ _ _ _ _ _ _ _ Ht2)) as Hns.
    apply Forall_app in Hns as [_ [Hns _]%Forall_cons]. by eapply (node_count N max_record_len key_ok). }
  rewrite <- EL in Ht2.
  eapply wp_node; [exact Hn|]. eapply get_rec_ok; [by apply list_lookup_middle|done|].
  destruct (Z.eqb_spec (comp_fn v r) 0) as [E|_]; [unfold BtreeInv.lt in Hv; lia|].
  apply wp_bind_ok, wp_kmalloc_ok; [done|]. intros t3 S3 C3.
  apply wp_bind_ok, wp_kmalloc_ok; [done|]. intros t4 S4 C4.
  assert (t4 ≈ t) as S by (by rewrite S4, S3, S2).
  apply wp_BUG_ON. { rewrite (ro_len _ (rv_ok _ _ _ Hr)), Z.gtb_ltb. apply Z.ltb_ge. apply Hr. }
  assert (tree_cut k t4 (lo ++ U :: up)) as Ht4 by (eapply tree_cut_sim; [symmetry; exact S|done]).
  eapply (wp_insert_loop N max_record_len log_pages_per_node comp_fn key_ok mounted beyond grow k HN Hmax
    up U lo _ _ r None t4); try done.
  - by apply cut_partial.
  - by eapply path_ok_pos.
  - by rewrite (sim_height _ _ S).
  - by rewrite (sim_num _ _ S).
  - split; [done|]. split; [done|]. rewrite EU, behind_mid. by apply sorted_behind; [..|apply Hr|done|done].
  - intros t' lv' C' T' E' G' N' L'. apply (HQ t' lv' C' T').
    + rewrite E', EU, behind_mid by done. done.
    + done.
    + rewrite (sim_num _ _ S) in N'. done.
    + by rewrite L', (account_sim _ _ _ S).
Qed.

(** ** The index record of a node whose first record went *)

(** The node [id] in the level below the cut begins with a later record than
    its index record [v] says; the key lies between the two. *)
Record outdated (t : btree) k lo A id recs B U ua v ub up key : Prop := {
  od_len : length lo = k;
  od_cut : tree_cut (S k) t ((lo ++ [A ++ (id, recs) :: B]) ++ U :: up);
  od_flat : flat U = ua ++ v :: ub;
  od_left : Forall2 points ua A;
  od_right : Forall2 points ub B;
  od_lt : lt v (first_rec recs);
  od_key_lt : lt key (first_rec recs);
  od_key : key_ok key;
  od_floor : floor_pos (flat U) key (length ua)
}.

Lemma between_same A id recs recs' B U : between (A ++ (id, recs) :: B) U -> first_rec recs' = first_rec recs ->
  between (A ++ (id, recs') :: B) U.
Proof using All.
  intros Hb E. unfold BtreeInv.between in *. apply Forall2_app_inv_r in Hb as (l1 & l2 & HA & HB & ->).
  apply Forall2_app; [done|]. inversion HB as [|u n l2' ? [Hp1 Hp2] HB']; subst.
  constructor; [|done]. split; [done|]. simpl in *. by rewrite E.
Qed.

(** The new record goes behind the old one. *)
Lemma outdated_new t k lo A id recs B U ua v ub up key :
  outdated t k lo A id recs B U ua v ub up key ->
  let r := form_record (first_rec recs) id in
  nodes t !! id = Some (Bnode id (level_type k) (last_id 0 A) (hd_id 0 B) recs) /\ recs <> [] /\
  Forall rec_valid recs /\ Z.of_nat (length recs) < 2 ^ 32 /\
  rec_valid r /\ rlen r = key_len r + 4 /\ lt v r /\ lt key r /\ Forall (lt r) ub /\ points r (id, recs).
Proof using All.
  intros [Hk Ht EU HA HB Hv Hkl Hkey Hfl] r. rewrite <- app_assoc in Ht. simpl in Ht.
  destruct (cut_node _ _ _ _ _ _ _ _ _ _ _ _ Ht) as ([Hid0 Hidb] & Hn & Hne & _). rewrite Hk in Hn.
  pose proof (cut_level _ _ _ _ _ _ _ _ _ Ht) as HL.
  pose proof (lo_nodes _ _ _ _ _ _ _ HL) as Hns. pose proof Hns as [_ [Hok HnB]%Forall_cons]%Forall_app. simpl in Hok.
  pose proof (first_rec_valid max_record_len key_ok recs Hne (no_valid _ _ _ _ _ Hok)) as Hf.
  pose proof (form_record_key (first_rec recs) id (rv_ok _ _ _ Hf)) as Hsk.
  assert (keys_ok key_ok (flat U)) as HkU.
  { assert (tree_cut (S k) t ((lo ++ [A ++ (id, recs) :: B]) ++ U :: up)) as Ht' by (by rewrite <- app_assoc).
    apply cut_level in Ht'. by eapply level_keys_ok. }
  rewrite EU in HkU. apply Forall_app in HkU as [_ [_ Hkb]%Forall_cons].
  pose proof (level_keys_ok _ _ _ _ _ _ _ HL) as HkL. rewrite flat_app, flat_cons in HkL.
  apply Forall_app in HkL as [_ [_ HkB]%Forall_app].
  split; [done|]. split; [done|]. split; [apply Hok|]. split; [by eapply node_count|].
  split; [by eapply form_record_valid|]. split.
  { unfold r. rewrite form_record_len by apply Hf. f_equal. symmetry. apply Hsk. }
  assert (forall x, comp_fn r x = comp_fn (first_rec recs) x /\ comp_fn x r = comp_fn x (first_rec recs)) as Hc.
  { intros x. apply (same_key_eq comp_fn key_ok); [done|apply Hf]. }
  split; [unfold BtreeInv.lt in *; by rewrite (proj2 (Hc v))|].
  split; [unfold BtreeInv.lt in *; by rewrite (proj2 (Hc key))|]. split.
  - eapply lt_same; [exact Hsk|apply Hf|]. eapply points_behind; [apply Hf|exact Hkb|exact HkB| |exact HB|].
    + eapply Forall_impl; [exact HnB|]. by intros n [].
    + by eapply level_behind.
  - split; simpl.
    + apply form_record_child; [apply Hf|]. pose proof (tc_ids _ _ _ _ _ _ _ Ht).
      apply lookup_lt_Some in Hidb. unfold bits_num in *. lia.
    + rewrite (proj1 (Hc _)). apply ko_refl, Hf.
Qed.

(** The old record goes. *)
Lemma outdated_old t k lo A id recs B U ua v ub up key A2 id2 (r1 : list record) u (r2 : list record) B2 up' :
  outdated t k lo A id recs B U ua v ub up key ->
  let r := form_record (first_rec recs) id in let U' := A2 ++ (id2, r1 ++ u :: r2) :: B2 in
  flat U' = ua ++ v :: r :: ub -> floor_pos (flat U') key (length (flat A2 ++ r1)) -> keys_ok key_ok (flat U') ->
  (up' <> [] -> (2 <= length (r1 ++ r2))%nat) ->
  u = v /\ flat A2 ++ r1 = ua /\ r2 ++ flat B2 = r :: ub /\ flat (A2 ++ (id2, r1 ++ r2) :: B2) = ua ++ r :: ub /\
  meet (lo ++ [A ++ (id, recs) :: B]) [A2 ++ (id2, r1 ++ r2) :: B2].
Proof using All.
  intros Ho r U' EU' Hfl HkU' Hlen.
  destruct (outdated_new _ _ _ _ _ _ _ _ _ _ _ _ _ Ho) as (_ & _ & _ & _ & Hr & _ & Hvr & Hkr & Hub & Hpt).
  destruct Ho as [Hk Ht EU HA HB Hv Hkl Hkey Hfl0].
  assert (length (flat A2 ++ r1) = length ua) as El.
  { apply (floor_pos_unique comp_fn key_ok (flat U') key); [done|done|done|]. rewrite EU'.
    rewrite EU in Hfl0. apply floor_split in Hfl0 as [Hle Hlt]. apply floor_mid; [done|].
    apply Forall_cons. split; [done|]. done. }
  assert (flat U' = (flat A2 ++ r1) ++ u :: r2 ++ flat B2) as E.
  { unfold U'. rewrite flat_app, flat_cons. simpl. by rewrite <- !app_assoc. }
  rewrite E in EU'. apply app_inj_1 in EU' as [E1 E2]; [|done]. injection E2 as -> E2.
  assert (flat (A2 ++ (id2, r1 ++ r2) :: B2) = ua ++ r :: ub) as Efl.
  { rewrite flat_app, flat_cons. simpl. rewrite <- E1, <- E2. by rewrite <- !app_assoc. }
  split; [done|]. split; [done|]. split; [done|]. split; [done|].
  unfold BtreeFind.meet. rewrite last_snoc. unfold BtreeInv.between. rewrite Efl.
  apply Forall2_app; [done|]. by constructor.
Qed.

Lemma wp_update_key up : forall fuel k lo A id recs B U ua v ub key t (Q : record -> btree -> Prop),
  outdated t k lo A id recs B U ua v ub up key -> calm t -> bushy (U :: up) -> roomy (S (length up)) (U :: up) ->
  btree_height t + 1 < 2 ^ 16 ->
  Z.of_nat (S (length up)) * (Z.of_nat (S (length up)) + 1) <= free_num t -> (S (length up) <= fuel)%nat ->
  (forall t' lv', calm t' -> tree_ok t' ((lo ++ [A ++ (id, recs) :: B]) ++ lv') -> bushy lv' ->
    length lv' = S (length up) ->
    account t' ((lo ++ [A ++ (id, recs) :: B]) ++ lv') = account t ((lo ++ [A ++ (id, recs) :: B]) ++ U :: up) ->
    Q (form_record (first_rec recs) id) t') ->
  wp (btree_update_key fuel key (Handle id true) (Z.of_nat (S (S k)))) t (ok Q).
Proof using All.
  induction up as [up IH] using (induction_ltof1 _ length).
  intros fuel k lo A id recs B U ua v ub key t Q Ho Hc Hb Hroomy Hh Hfree Hfuel HQ.
  destruct fuel as [|fuel]; [lia|]. cbn [Btree.btree_update_key].
  destruct (outdated_new _ _ _ _ _ _ _ _ _ _ _ _ _ Ho) as (Hn & Hne & Hval & Hcount & Hr & Hri & Hvr & Hkr & Hub & Hpt).
  set (r := form_record (first_rec recs) id) in *. set (lo' := lo ++ [A ++ (id, recs) :: B]) in *.
  assert (length lo' = S k) as Hk' by (unfold lo'; rewrite length_app, (od_len _ _ _ _ _ _ _ _ _ _ _ _ _ Ho); simpl; lia).
  apply wp_bind_ok, wp_kmalloc_ok; [done|]. intros t1 S1 C1.
  assert (exists f recs1, recs = f :: recs1) as (f & recs1 & Erecs) by (destruct recs; [done|eauto]).
  pose proof (first_rec_valid max_record_len key_ok recs Hne Hval) as Hf.
  eapply (wp_form max_record_len t1 id); [rewrite (sim_nodes _ _ S1); exact Hn|simpl; exact Erecs| | |done|].
  1,2: (rewrite Erecs in Hval; apply Forall_cons in Hval as [Hval _]; apply Hval).
  assert (f = first_rec recs) as -> by (by rewrite Erecs). fold r.
  apply wp_bind_ok. pose proof (od_cut _ _ _ _ _ _ _ _ _ _ _ _ _ Ho) as Ht. fold lo' in Ht.
  assert (0 <= max_record_len) as Hm0 by (by eapply valid_max).
  apply (wp_insert_above (S k) t1 lo' U up ua v ub r); try done.
  { lia. } { eapply tree_cut_sim; [symmetry; exact S1|done]. } { apply Ho. }
  { by rewrite (sim_height _ _ S1). } { rewrite (sim_num _ _ S1). nia. }
  intros t2 lv2 C2 T2 E2 G2 N2 K2. rewrite (account_sim _ _ _ S1) in K2. rewrite (sim_num _ _ S1) in N2.
  destruct (grows_roomy _ _ _ _ Hm0 G2 Hroomy) as (Hlen2 & Hroomy2 & Hb2). specialize (Hb2 Hb).
  destruct (grows_head _ _ _ _ G2) as (U' & up' & -> & Hat). simpl in E2, Hlen2. injection Hlen2 as Hlen2.
  apply Forall_cons in Hb as [HbU _]. destruct (grow_at_bushy _ _ _ Hat HbU) as [HbU' Hthree].
  apply wp_try_ok with (P := fun hp t3 => t3 ≈ t2 /\ calm t3 /\ exists id2 A2 (r1 : list record) u (r2 : list record) B2,
    U' = A2 ++ (id2, r1 ++ u :: r2) :: B2 /\ floor_pos (flat U') key (length (flat A2 ++ r1)) /\
    match up' with U2 :: _ => floor_pos (flat U2) key (length A2) | [] => A2 = [] /\ B2 = [] end /\
    hp = (Handle id2 true, Z.of_nat (length r1))).
  { eapply (wp_find_at (S k) t2 lo' U' up'); [done|done|apply Ho|done|].
    intros t3 id2 A2 r1 u r2 B2 S3 C3 EU' Hfl Hup. split; [done|]. split; [done|].
    by exists id2, A2, r1, u, r2, B2. }
  intros hp t3 (S3 & C3 & id2 & A2 & r1 & u & r2 & B2 & EU' & Hfl & Hflup & ->).
  assert (tree_cut (S k) t3 (lo' ++ U' :: up')) as T3 by (eapply tree_cut_sim; [symmetry; exact S3|done]).
  pose proof (cut_level _ _ _ _ _ _ _ _ _ T3) as HU'. pose proof (level_keys_ok _ _ _ _ _ _ _ HU') as HkU'.
  rewrite EU' in *.
  assert (3 <= length (r1 ++ u :: r2))%nat as H3.
  { eapply (Hthree A2 id2 _ B2 (length r1)); [done| |rewrite length_app; simpl; lia].
    assert (length (flat A2 ++ r1) = length ua) as <-; [|by rewrite length_app].
    rewrite E2 in Hfl. eapply (floor_pos_unique comp_fn key_ok _ key); [|apply Ho|exact Hfl|].
    - by rewrite E2 in HkU'.
    - pose proof (od_floor _ _ _ _ _ _ _ _ _ _ _ _ _ Ho) as Hfl0. rewrite (od_flat _ _ _ _ _ _ _ _ _ _ _ _ _ Ho) in Hfl0.
      apply floor_split in Hfl0 as [Hle Hlt]. apply floor_mid; [done|]. apply Forall_cons. by split. }
  assert (2 <= length (r1 ++ r2))%nat as H2 by (rewrite length_app in *; simpl in H3; lia).
  destruct (outdated_old _ _ _ _ _ _ _ _ _ _ _ _ _ A2 id2 r1 u r2 B2 up' Ho E2 Hfl HkU' (fun _ => H2))
    as (-> & Hua & Hub' & EflU & Hmeet).
  cbv iota beta. eapply (wp_delete_rec (S k) t3 lo'); [done|exact T3|intros E; rewrite E in H2; simpl in H2; lia|exact Hmeet|done|].
  intros t4 C4 T4 N4 Eb4 Hn4. set (U4 := A2 ++ (id2, r1 ++ r2) :: B2) in *.
  assert (bushy_level U4) as HbU4.
  { apply Forall_app in HbU' as [? [_ ?]%Forall_cons]. apply Forall_app. split; [done|]. by apply Forall_cons. }
  apply Forall_cons in Hb2 as [_ Hb2].
  assert (btree_height t4 = Z.of_nat (S (S k) + length up')) as Eh4.
  { rewrite (tc_height _ _ _ _ _ _ _ T4), !length_app. simpl. lia. }
  apply wp_gets. rewrite Eh4.
  assert (account t4 (lo' ++ U4 :: up') = account t (lo' ++ U :: up)) as K4.
  { rewrite <- K2. pose proof (sim_num _ _ S3). pose proof (sim_bits _ _ S3) as Eb3. unfold bits_num in *. unfold U4.
    unfold account, bits_num. rewrite N4, Eb4, Eb3. count_ids. }
  assert (forall t5, calm t5 -> (exists lv5, tree_ok t5 (lo' ++ lv5) /\ bushy lv5 /\ length lv5 = S (length up) /\
      account t5 (lo' ++ lv5) = account t (lo' ++ U :: up)) ->
    wp (do_ emmcfs_put_bnode (Handle id2 true); ret r) t5 (ok Q)) as Hend.
  { intros t5 C5 (lv5 & T5 & B5 & L5 & K5). apply wp_put; [done|]. intros t6 S6 C6. apply wp_ret.
    apply (HQ t6 lv5); try done; [eapply tree_ok_sim; [symmetry; exact S6|done]|by rewrite (account_sim _ _ _ S6)]. }
  destruct ((Z.of_nat (length r1) =? 0) && (Z.of_nat (S (S k)) <? Z.of_nat (S (S k) + length up'))) eqn:Econd.
  - (* the first record of the node went *)
    apply andb_true_iff in Econd as [E0%Z.eqb_eq Elt%Z.ltb_lt].
    destruct r1 as [|]; [|simpl in E0; lia]. simpl app in *. destruct up' as [|U5 up5]; [simpl in Elt; lia|].
    rewrite app_nil_r in Hua. destruct r2 as [|r2h r2]; [simpl in H2; lia|].
    simpl in Hub'. injection Hub' as -> Hub'.
    (* the index record of the node *)
    assert (between (A2 ++ (id2, v :: r :: r2) :: B2) U5) as Hbt.
    { eapply cut_between; [exact T3|lia]. }
    unfold BtreeInv.between in Hbt. apply Forall2_app_inv_r in Hbt as (ua5 & l5 & HA5 & HB5 & EU5).
    inversion HB5 as [|v5 n5 ub5 ? [Hp5a Hp5b] HB5']; subst. simpl in Hp5a, Hp5b. unfold first_rec in Hp5b. simpl in Hp5b.
    assert (level_ok (nodes t3) (length (lo' ++ [A2 ++ (id2, v :: r :: r2) :: B2])) U5) as HU5.
    { eapply cut_level. rewrite <- app_assoc. exact T3. }
    pose proof (level_keys_ok _ _ _ _ _ _ _ HU5) as HkU5. rewrite EU5 in HkU5.
    apply Forall_app in HkU5 as [_ [Hk5 _]%Forall_cons].
    assert (key_ok v) as Hkv. { rewrite E2 in HkU'. by apply Forall_app in HkU' as [_ [? _]%Forall_cons]. }
    apply wp_bind_ok, wp_bind_ok. replace (Z.of_nat (S (S k)) + 1) with (Z.of_nat (S (S (S k)))) by lia.
    eapply (IH up5 ltac:(unfold ltof; simpl in Hlen2; lia) fuel (S k) lo' A2 id2 (r :: r2) B2 U5 ua5 v5 ub5 key t4).
    + constructor; try done.
      * unfold first_rec. simpl. eapply (le_lt_trans comp_fn key_ok v5 v r); try done; [apply Hr|].
        by apply (comp_zero_le comp_fn key_ok v5 v).
      * apply Ho.
      * apply Forall2_length in HA5. rewrite HA5. done.
    + done.
    + done.
    + simpl in Hlen2. rewrite <- Hlen2 in Hroomy2. unfold roomy in *. rewrite last_cons_cons in Hroomy2. exact Hroomy2.
    + rewrite Eh4. pose proof (tc_height _ _ _ _ _ _ _ Ht) as Eh. rewrite length_app in Eh. simpl in Eh, Hlen2 |- *. lia.
    + rewrite N4, (sim_num _ _ S3). simpl in Hlen2. nia.
    + simpl in Hlen2. lia.
    + intros t5 lv5 C5 T5 B5 L5 K5. apply wp_ret. apply Hend; [done|]. exists (U4 :: lv5).
      rewrite <- app_assoc in T5. fold U4 in K5. rewrite <- !(app_assoc lo' [U4]) in K5. split; [done|]. split; [by apply Forall_cons|]. split; [simpl in *; lia|].
      rewrite <- K4. exact K5.
  - apply wp_bind_ok, wp_ret. apply Hend; [done|]. exists (U4 :: up').
    split; [|split; [by apply Forall_cons|split; [simpl; lia|done]]].
    apply (close_above (S k)); [done|done|]. unfold BtreeFind.meet. simpl.
    destruct up' as [|U5 up5]; [done|]. destruct r1 as [|x r1].
    { exfalso. simpl in Econd. apply Z.ltb_ge in Econd. lia. }
    eapply between_same; [eapply cut_between; [exact T3|lia]|done].
Qed.
End update_key.
