(* ===== verification/BtreeRemove.v ===== *)
(** * Removal from the B-tree

    [btree_remove] deletes a record and repairs the levels above one after the
    other: below the level it works on the tree is whole, the records of that
    level no longer point to the nodes below ([tree_cut]).  An empty leaf goes,
    a node whose first record went gets a new index record, a node with little
    in it is merged with a neighbour, and a root with one child gives way to
    it. *)

From S2P Require Import Prelude Monad BnodeBytes BnodeRepr BnodePool BnodePoolProofs Btree BtreeInv BtreeFind BtreeInsert BtreeShrink BtreeUpdateKey.
Open Scope Z_scope.

Section remove.
Context (N max_record_len log_pages_per_node : Z) (comp_fn : record -> record -> Z) (key_ok : record -> Prop)
  `{!KeyOrder comp_fn key_ok} (mounted : bool) (beyond : Z -> bool) (grow : Z -> Z -> Z) (address : Z -> Z).
Context (HN : node_size_ok N) (Hmax : max_record_len + 31 <= N / 2) (Hbig : big_nodes N max_record_len).
Abbreviation level_ok := (level_ok N max_record_len comp_fn key_ok).
Abbreviation tree_ok := (tree_ok N max_record_len comp_fn key_ok).
Abbreviation tree_cut := (tree_cut N max_record_len comp_fn key_ok).
Abbreviation node_ok := (node_ok N max_record_len key_ok).
Abbreviation sorted := (sorted comp_fn).
Abbreviation points := (points comp_fn).
Abbreviation between := (between comp_fn).
Abbreviation meet := (meet comp_fn).
Abbreviation lt := (lt comp_fn).
Abbreviation le := (le comp_fn).
Abbreviation floor_pos := (floor_pos comp_fn).
Abbreviation roomy := (roomy N max_record_len).
Abbreviation btree_merge := (btree_merge N mounted beyond grow address).
Abbreviation rebalance := (rebalance N comp_fn mounted beyond grow address).
Abbreviation shrink := (shrink N comp_fn mounted beyond grow address).
Abbreviation btree_remove := (btree_remove N max_record_len log_pages_per_node comp_fn mounted beyond grow address).
Implicit Types (A B L U : level) (lo lv up : list level) (key v : record).

(** The neighbours of a node in a level of a tree that is cut. *)
Lemma cut_neighbours k t lo A id (recs : list record) B up : tree_cut k t (lo ++ (A ++ (id, recs) :: B) :: up) ->
  used t id /\
  (last_id 0 A <> 0 -> used t (last_id 0 A) /\ last_id 0 A <> hd_id 0 B /\ last_id 0 A <> id) /\
  (hd_id 0 B <> 0 -> used t (hd_id 0 B) /\ hd_id 0 B <> id).
Proof using All.
  intros Ht. destruct (cut_ids _ _ _ _ _ _ _ _ _ Ht) as (Hnd & Hu & _). rewrite ids_app in Hnd, Hu. simpl in Hnd, Hu.
  apply Forall_app in Hu as [UA [Hid UB]%Forall_cons]. rewrite Forall_forall in UA, UB.
  apply NoDup_app in Hnd as (_ & HA & [HB _]%NoDup_cons). split; [done|]. split.
  - intros Hz. destruct (last_id_nil_or 0 A) as [|Hin]; [done|]. split; [auto|]. specialize (HA _ Hin). split.
    + intros E. destruct (hd_id_nil_or 0 B) as [E2|Hin2]; [congruence|]. apply HA. rewrite E. by right.
    + intros E. apply HA. rewrite E. by left.
  - intros Hz. destruct (hd_id_nil_or 0 B) as [|Hin]; [done|]. split; [auto|]. intros E. by rewrite E in Hin.
Qed.

(** ** A node goes *)
Lemma wp_unlink t id ty pv nx (recs : list record) (Q : unit -> btree -> Prop) : pool_inv t -> calm t ->
  nodes t !! id = Some (Bnode id ty pv nx recs) ->
  (pv <> 0 -> used t pv /\ pv <> nx /\ pv <> id) -> (nx <> 0 -> used t nx /\ nx <> id) ->
  (forall t' ns, t' ≈ set_nodes t ns -> calm t' -> pool_inv t' -> unlinked (nodes t) ns pv nx id -> Q tt t') ->
  wp (unlink_node mounted beyond grow (Handle id true)) t (ok Q).
Proof using All.
  intros Hp Hc Hn Hpv Hnx HQ. unfold unlink_node. eapply wp_node; [exact Hn|]. simpl.
  apply (wp_seq _ _ _ (fun _ t1 => calm t1 /\ pool_inv t1 /\ exists ns, t1 ≈ set_nodes t ns /\
    (pv <> 0 -> ns !! pv = (fun n => set_next n nx) <$> nodes t !! pv) /\
    (forall x, (x = pv -> pv = 0) -> ns !! x = nodes t !! x))).
  { destruct (Z.eqb_spec pv EMMCFS_INVALID_NODE_ID) as [Hz|Hz]; unfold EMMCFS_INVALID_NODE_ID in Hz; simpl.
    - apply wp_ret. split; [done|]. split; [done|]. exists (nodes t). done.
    - destruct (Hpv Hz) as (Hu & _). destruct (pi_nodes _ Hp pv Hu) as [np Hnp].
      eapply wp_ok_mono; [by apply (wp_link_next _ _ _ _ pv nx np)|].
      intros _ t1 [S1 C1]. split; [done|]. split; [rewrite S1; by apply pool_inv_insert|].
      eexists. split; [exact S1|]. split; [intros _; by rewrite lookup_insert_eq, Hnp|].
      intros x Hx. rewrite lookup_insert_ne; [done|]. intros ->. by apply Hz, Hx. }
  intros _ t1 (C1 & P1 & ns1 & S1 & Hpv1 & Ho1).
  assert (id = pv -> pv = 0) as Hid. { intros ->. destruct (decide (pv = 0)) as [|Hz]; [done|]. by destruct (Hpv Hz) as (_ & _ & ?). }
  eapply wp_node; [simpl; rewrite (sim_nodes _ _ S1); simpl; rewrite Ho1 by done; exact Hn|]. simpl.
  destruct (Z.eqb_spec nx EMMCFS_INVALID_NODE_ID) as [Hz|Hz]; unfold EMMCFS_INVALID_NODE_ID in Hz; simpl.
  - apply wp_ret. eapply HQ; [exact S1|done|done|]. constructor; [done|done|]. auto.
  - destruct (Hnx Hz) as (Hu & Hni). destruct (pi_nodes _ Hp nx Hu) as [nn Hnn].
    assert (nx = pv -> pv = 0) as Hnp. { intros ->. by destruct (Hpv Hz) as (_ & ? & _). }
    eapply wp_ok_mono; [apply (wp_link_prev _ _ _ _ nx pv nn); [done|done|by rewrite S1|]|].
    + rewrite (sim_nodes _ _ S1). simpl. by rewrite Ho1.
    + intros [] t2 [S2 C2]. rewrite (sim_nodes _ _ S1) in S2. simpl in S2. eapply HQ.
      * rewrite S2, S1. done.
      * done.
      * rewrite S2. apply pool_inv_nodes; [done|]. intros x Hx. apply lookup_insert_is_Some'. right.
        by rewrite (sim_nodes _ _ S1) in Hx.
      * constructor.
        -- intros Hz'. rewrite lookup_insert_ne; [by apply Hpv1|]. intros ->. by apply Hz', Hnp.
        -- intros _. by rewrite lookup_insert_eq, Hnn.
        -- intros x Hx Hxp Hxn. rewrite lookup_insert_ne by (intros ->; auto). auto.
Qed.

(** An empty node is unlinked and destroyed. *)
Lemma wp_drop k t t1 lo A id (recs : list record) B up {C} (f : outcome unit -> M C) Q : length lo = k ->
  tree_cut k t (lo ++ (A ++ (id, recs) :: B) :: up) -> up <> [] -> meet lo [A ++ B] -> calm t1 ->
  t1 ≈ set_nodes t (<[id := Bnode id (level_type k) (last_id 0 A) (hd_id 0 B) []]> (nodes t)) ->
  (forall t', calm t' -> tree_cut (S k) t' ((lo ++ [A ++ B]) ++ up) -> free_num t <= free_num t' ->
    account t' ((lo ++ [A ++ B]) ++ up) = account t (lo ++ (A ++ (id, recs) :: B) :: up) -> wp (f (Ok tt)) t' Q) ->
  wp (do_ unlink_node mounted beyond grow (Handle id true);
      do e <- try (emmcfs_destroy_bnode mounted beyond (Handle id true)); f e) t1 Q.
Proof using All.
  intros Hk Ht Hup Hm C1 S1 HQ. destruct (cut_neighbours _ _ _ _ _ _ _ _ Ht) as (Hu & Hpv & Hnx).
  destruct (cut_ids _ _ _ _ _ _ _ _ _ Ht) as (Hnd & Huse & Hdis).
  apply wp_bind_ok. eapply (wp_unlink t1 id (level_type k) (last_id 0 A) (hd_id 0 B) []).
  - rewrite S1. apply pool_inv_insert, Ht.
  - done.
  - rewrite (sim_nodes _ _ S1). simpl. by rewrite lookup_insert_eq.
  - intros Hz. destruct (Hpv Hz) as (? & ? & ?). by rewrite S1.
  - intros Hz. destruct (Hnx Hz) as (? & ?). by rewrite S1.
  - intros t2 ns S2 C2 P2 HU. eapply wp_try_ok.
    { apply (wp_destroy mounted beyond t2 (Handle id true)); [by rewrite S2, S1| |done|done].
      intros t3 S3 C3. instantiate (1 := fun _ t3 => t3 ≈ after_destroy t2 id /\ calm t3). simpl in *. auto. }
    intros [] t3 [S3 C3].
    assert (free_num t3 = free_num t + 1) as En.
    { rewrite (sim_num _ _ S3). simpl. rewrite (sim_num _ _ S2). simpl. by rewrite (sim_num _ _ S1). }
    assert (bits_num t3 = bits_num t) as Eb.
    { unfold bits_num. rewrite (sim_bits _ _ S3). simpl. rewrite length_insert, (sim_bits _ _ S2). simpl. by rewrite (sim_bits _ _ S1). }
    apply HQ; [done| |lia|unfold account; rewrite En, Eb; count_ids].
    + assert (used t2 id) as Hu2 by (by rewrite S2, S1).
      assert (forall x, used t2 x <-> used t x) as U2 by (intros x; by rewrite S2, S1).
      apply (cut_shrunk N max_record_len comp_fn key_ok k t t3 lo (A ++ (id, recs) :: B)); [done|done| |done].
      eapply shrunk_drop; try done.
      * by apply (cut_level N max_record_len comp_fn key_ok k t lo _ up).
      * pose proof (tc_used _ _ _ _ _ _ _ Ht) as H. rewrite all_ids_app, all_ids_cons, !Forall_app in H.
        apply Forall_app. tauto.
      * rewrite (sim_nodes _ _ S3). simpl. rewrite (sim_nodes _ _ S2). simpl. rewrite (sim_nodes _ _ S1) in HU. simpl in HU.
        destruct HU as [HUp HUn HUo]. constructor.
        -- intros Hz. rewrite HUp by done. destruct (Hpv Hz) as (_ & _ & ?). by rewrite lookup_insert_ne by done.
        -- intros Hz. rewrite HUn by done. destruct (Hnx Hz) as (_ & ?). by rewrite lookup_insert_ne by done.
        -- intros x H1 H2 H3. rewrite HUo by done. by rewrite lookup_insert_ne by done.
      * intros x Hx Hne. rewrite S3. apply used_after_destroy; [done|]. by rewrite U2.
      * rewrite S3. by apply after_destroy_inv.
      * by rewrite (sim_height _ _ S3); simpl; rewrite (sim_height _ _ S2); simpl; rewrite (sim_height _ _ S1).
      * by rewrite (sim_root _ _ S3); simpl; rewrite (sim_root _ _ S2); simpl; rewrite (sim_root _ _ S1).
Qed.

(** ** Two nodes become one *)

(** The left node has the records of both, and the node behind knows it. *)
Record joined (ns ns' : gmap Z bnode) (l nx : Z) (m : bnode) : Prop := {
  jo_l : ns' !! l = Some m;
  jo_n : nx <> 0 -> ns' !! nx = (fun n => set_prev n l) <$> ns !! nx;
  jo_o : forall x, x <> l -> (x = nx -> nx = 0) -> ns' !! x = ns !! x
}.

Lemma joined_cut k t t' ns lo A l (lr : list record) r (rr : list record) B U up : length lo = k ->
  tree_ok t (lo ++ (A ++ (l, lr) :: (r, rr) :: B) :: U :: up) -> 27 + room (lr ++ rr) <= N ->
  joined (nodes t) ns l (hd_id 0 B) (Bnode l (level_type k) (last_id 0 A) (hd_id 0 B) (lr ++ rr)) ->
  t' ≈ after_destroy (set_nodes t ns) r ->
  tree_cut (S k) t' ((lo ++ [A ++ (l, lr ++ rr) :: B]) ++ U :: up).
Proof using All.
  intros Hk Ht Hroom [Jl Jn Jo] S.
  destruct (tree_ok_cut_at _ _ _ _ k t lo _ Hk Ht) as [Htc Hm].
  set (A1 := A ++ [(l, lr)]). assert (A ++ (l, lr) :: (r, rr) :: B = A1 ++ (r, rr) :: B) as EL by (unfold A1; by rewrite <- app_assoc).
  pose proof (cut_level _ _ _ _ _ _ _ _ _ Htc) as HL. destruct (cut_ids _ _ _ _ _ _ _ _ _ Htc) as (Hnd & Huse & Hdis).
  destruct (cut_neighbours _ _ _ _ _ _ _ _ Htc) as (Hul & _ & _).
  rewrite EL in Htc. destruct (cut_neighbours _ _ _ _ _ _ _ _ Htc) as (Hur & Hpv & Hnx). rewrite <- EL in Htc.
  assert (last_id 0 A1 = l) as El by (unfold A1, last_id; by rewrite last_snoc). rewrite El in Hpv.
  assert (l <> 0) as Hl0 by (destruct Hul; lia). destruct (Hpv Hl0) as (_ & Hlx & Hlr).
  pose proof (cut_node _ _ _ _ _ _ _ _ _ _ _ _ Htc) as (_ & Hnl & _). rewrite Hk in Hnl. cbn [hd_id] in Hnl.
  assert (pool_inv (set_nodes t ns)) as Pns.
  { apply pool_inv_nodes; [apply Htc|]. intros x Hx. destruct (decide (x = l)) as [->|Hxl]; [by rewrite Jl|].
    destruct (decide (x = hd_id 0 B /\ hd_id 0 B <> 0)) as [[-> Hz]|Hz].
    - rewrite Jn by done. destruct Hx as [n ->]. by eexists.
    - rewrite Jo; [done|done|]. intros ->. by destruct (decide (hd_id 0 B = 0)); [|tauto]. }
  assert (pool_inv t') as P' by (rewrite S; by apply after_destroy_inv).
  assert (forall x, used t x -> x <> r -> used t' x) as U'.
  { intros x Hx Hxr. rewrite S. by apply used_after_destroy. }
  set (ty := level_type k) in *. set (nl := Bnode l ty (last_id 0 A) (hd_id 0 B) lr).
  set (t1 := set_nodes t' (<[l := nl]> ns)).
  assert (bits_num t' = bits_num t) as Eb by (unfold bits_num; rewrite (sim_bits _ _ S); simpl; by rewrite length_insert).
  assert (all_ids lo ++ all_ids (U :: up) = all_ids (lo ++ U :: up)) as Eall by (by rewrite all_ids_app).
  assert (shrunk N max_record_len comp_fn key_ok t t1 lo (A1 ++ (r, rr) :: B) (A1 ++ B) (U :: up)) as Sh1.
  { rewrite EL in HL, Hnd, Huse, Hdis. eapply shrunk_drop; try done.
    - pose proof (tc_used _ _ _ _ _ _ _ Htc) as H. rewrite all_ids_app, all_ids_cons, !Forall_app in H.
      apply Forall_app. tauto.
    - rewrite El. simpl. constructor.
      + intros _. rewrite lookup_insert_eq, Hnl. done.
      + intros Hz. rewrite lookup_insert_ne by done. by apply Jn.
      + intros x Hx Hxl Hxn. rewrite lookup_insert_ne by (intros <-; by apply Hl0, Hxl).
        apply Jo; [|done]. intros ->. by apply Hl0, Hxl.
    - unfold t1. apply pool_inv_nodes; [done|]. intros x Hx. apply lookup_insert_is_Some'. right.
      by rewrite (sim_nodes _ _ S) in Hx.
    - by unfold t1; simpl; rewrite (sim_height _ _ S).
    - by unfold t1; simpl; rewrite (sim_root _ _ S). }
  assert (A1 ++ B = A ++ (l, lr) :: B) as EAB by (unfold A1; by rewrite <- app_assoc).
  assert (flat (A ++ (l, lr ++ rr) :: B) = flat (A ++ (l, lr) :: (r, rr) :: B)) as Efl.
  { rewrite !flat_app, !flat_cons. simpl. by rewrite <- app_assoc. }
  assert (shrunk N max_record_len comp_fn key_ok t1 t' lo (A1 ++ B) (A ++ (l, lr ++ rr) :: B) (U :: up)) as Sh2.
  { rewrite EAB in *. pose proof (sh_level _ _ _ _ _ _ _ _ _ _ Sh1) as HL1.
    pose proof (lo_nodes _ _ _ _ _ _ _ HL) as [_ [Hok1 [Hok2 _]%Forall_cons]%Forall_cons]%Forall_app. simpl in Hok1, Hok2.
    eapply shrunk_update; [apply Sh1|exact HL1|apply Sh1| | | |].
    - apply Hdis. rewrite ids_app. simpl. set_solver.
    - destruct Hok1 as [Hne1 _ Hv1 Hi1]. destruct Hok2 as [_ _ Hv2 Hi2]. constructor; [by destruct lr|done| |].
      + by apply Forall_app.
      + intros H0. apply Forall_app. auto.
    - pose proof (lo_sorted _ _ _ _ _ _ _ HL) as Hs. rewrite <- Efl in Hs. by rewrite flat_app, flat_cons in Hs.
    - rewrite S. unfold t1. simpl. rewrite insert_insert_eq, Hk. fold ty. rewrite (insert_id ns l _ Jl).
      split; simpl; try done; by rewrite (sim_bits _ _ S) || by rewrite (sim_first _ _ S) || by rewrite (sim_num _ _ S)
        || by rewrite (sim_height _ _ S) || by rewrite (sim_root _ _ S). }
  apply (cut_shrunk N max_record_len comp_fn key_ok k t t' lo (A ++ (l, lr) :: (r, rr) :: B)); [done|done| |].
  - rewrite EL. by eapply shrunk_trans.
  - unfold BtreeFind.meet in *. destruct (last lo); [|done]. unfold BtreeInv.between in *. by rewrite Efl.
Qed.

Lemma wp_merge k t lo A l (lr : list record) r (rr : list record) B U up remove (Q : unit -> btree -> Prop) :
  length lo = k -> tree_ok t (lo ++ (A ++ (l, lr) :: (r, rr) :: B) :: U :: up) -> calm t -> 27 + room (lr ++ rr) <= N ->
  (forall t', calm t' -> tree_cut (S k) t' ((lo ++ [A ++ (l, lr ++ rr) :: B]) ++ U :: up) -> free_num t <= free_num t' ->
    account t' ((lo ++ [A ++ (l, lr ++ rr) :: B]) ++ U :: up) = account t (lo ++ (A ++ (l, lr) :: (r, rr) :: B) :: U :: up) ->
    wp (remove (key_copy (first_rec rr)) (Z.of_nat (S k) + 1)) t' (ok Q)) ->
  wp (btree_merge remove l r (Z.of_nat (S k))) t (ok Q).
Proof using All.
  intros Hk Ht Hc Hroom HQ. destruct (tree_ok_cut_at _ _ _ _ k t lo _ Hk Ht) as [Htc _].
  set (A1 := A ++ [(l, lr)]). assert (A ++ (l, lr) :: (r, rr) :: B = A1 ++ (r, rr) :: B) as EL by (unfold A1; by rewrite <- app_assoc).
  destruct (cut_neighbours _ _ _ _ _ _ _ _ Htc) as (Hul & _ & _).
  destruct (cut_node _ _ _ _ _ _ _ _ _ _ _ _ Htc) as (_ & Hnl & _). rewrite Hk in Hnl. cbn [hd_id] in Hnl.
  pose proof Htc as Htc2. rewrite EL in Htc2. destruct (cut_neighbours _ _ _ _ _ _ _ _ Htc2) as (Hur & Hpv & Hnx).
  destruct (cut_node _ _ _ _ _ _ _ _ _ _ _ _ Htc2) as (_ & Hnr & Hner & _). rewrite Hk in Hnr.
  assert (last_id 0 A1 = l) as El by (unfold A1, last_id; by rewrite last_snoc). rewrite El in *.
  assert (l <> 0) as Hl0 by (destruct Hul; lia). destruct (Hpv Hl0) as (_ & Hlx & Hlr).
  assert (Z.of_nat (length rr) < 2 ^ 32) as Hcount.
  { pose proof (lo_nodes _ _ _ _ _ _ _ (cut_level _ _ _ _ _ _ _ _ _ Htc2)) as [_ [H _]%Forall_cons]%Forall_app.
    by eapply (node_count N max_record_len key_ok). }
  unfold Btree.btree_merge.
  apply wp_bind_ok, wp_get_ok; [apply Htc|done|done|]. intros t1 S1 C1.
  apply wp_bind_ok, wp_get_ok; [rewrite S1; apply Htc|done|by rewrite S1|]. intros t2 S2 C2.
  assert (t2 ≈ t) as S by (by rewrite S2).
  eapply wp_node; [simpl; rewrite (sim_nodes _ _ S); exact Hnr|].
  eapply wp_node; [simpl; rewrite (sim_nodes _ _ S); exact Hnl|].
  set (m := node_merge _ _). apply wp_BUG_ON.
  { apply Z.ltb_ge. unfold bn_free, m, node_merge, sizeof_descr, sizeof_off, EMMCFS_BNODE_FIRST_OFFSET. simpl. lia. }
  eapply wp_update; [simpl; rewrite (sim_nodes _ _ S); exact Hnl|]. fold m. simpl.
  rewrite (sim_nodes _ _ S). set (t3 := set_nodes t2 _).
  assert (t3 ≈ set_nodes t (<[l := m]> (nodes t))) as S3 by (unfold t3; by rewrite S).
  assert (calm t3) as C3 by done. clearbody t3.
  apply (wp_seq _ _ _ (fun _ t4 => calm t4 /\ exists ns, t4 ≈ set_nodes t ns /\ joined (nodes t) ns l (hd_id 0 B) m)).
  { destruct (Z.eqb_spec (hd_id 0 B) EMMCFS_INVALID_NODE_ID) as [Hz|Hz]; unfold EMMCFS_INVALID_NODE_ID in Hz; simpl.
    - apply wp_ret. split; [done|]. eexists. split; [exact S3|]. constructor.
      + by rewrite lookup_insert_eq.
      + done.
      + intros x Hx _. by rewrite lookup_insert_ne.
    - destruct (Hnx Hz) as [Hun Hnr']. destruct (pi_nodes _ (tc_pool _ _ _ _ _ _ _ Htc) _ Hun) as [nn Hnn].
      eapply wp_try_ok.
      { apply wp_get_ok; [rewrite S3; apply pool_inv_insert, Htc|done|by rewrite S3|]. intros t4 S4 C4.
        instantiate (1 := fun h t4 => h = Handle (hd_id 0 B) true /\ t4 ≈ t3 /\ calm t4). done. }
      intros h t4 (-> & S4 & C4).
      eapply wp_update; [simpl; rewrite (sim_nodes _ _ S4), (sim_nodes _ _ S3); simpl; rewrite lookup_insert_ne by done; exact Hnn|].
      eapply wp_update; [simpl; rewrite lookup_insert_ne by done; rewrite (sim_nodes _ _ S4), (sim_nodes _ _ S3); simpl; by rewrite lookup_insert_eq|].
      apply wp_dirty; [done|done|]. intros t5 S5 C5. apply wp_put_last; [done|]. intros t6 S6 C6.
      split; [done|]. rewrite (sim_nodes _ _ S4), (sim_nodes _ _ S3) in S5. simpl in S5.
      eexists. split; [rewrite S6, S5, S4, S3; done|]. constructor.
      + by rewrite lookup_insert_eq.
      + intros _. rewrite lookup_insert_ne by done. by rewrite lookup_insert_eq, Hnn.
      + intros x Hx Hxn. rewrite !lookup_insert_ne; [done|done| |done]. intros <-. by apply Hz, Hxn. }
  intros _ t4 (C4 & ns & S4 & HJ).
  apply wp_dirty; [done|done|]. intros t5 S5 C5. apply wp_put; [done|]. intros t6 S6 C6.
  eapply (get_rec_or_bug _ 0%nat); [apply (first_rec_lookup rr Hner)|done|].
  eapply wp_seq.
  { apply wp_or_bug, wp_kmalloc_ok; [done|]. intros t7 S7 C7.
    instantiate (1 := fun _ t7 => t7 ≈ set_nodes t ns /\ calm t7). split; [|done]. by rewrite S7, S6, S5. }
  intros [] t7 [S7 C7]. apply wp_bind, wp_destroy; [simpl; by rewrite S7| |by intros e t8 _ []|by intros t8 []].
  intros t8 S8 C8. simpl in S8.
  assert (t8 ≈ after_destroy (set_nodes t ns) r) as S8'.
  { rewrite S8. unfold after_destroy. rewrite (sim_bits _ _ S7), (sim_first _ _ S7), (sim_num _ _ S7). by rewrite S7. }
  assert (free_num t8 = free_num t + 1) as En by (by rewrite (sim_num _ _ S8')).
  assert (bits_num t8 = bits_num t) as Eb by (unfold bits_num; rewrite (sim_bits _ _ S8'); simpl; by rewrite length_insert).
  apply HQ; [auto| |lia|unfold account; rewrite En, Eb; count_ids].
  by eapply joined_cut.
Qed.

(** ** The root gives way to its only child *)
Lemma collapse_tree t t' lo c (crecs : list record) root r : let D := [(c, crecs)] in
  tree_ok t (lo ++ [D; [(root, [r])]]) -> t' ≈ after_destroy (set_head t (btree_height t - 1) c) root ->
  tree_ok t' (lo ++ [D]).
Proof using All.
  intros D [H1 H2 [tr H3] H4 H5 H6 H7] S.
  assert (lo ++ [D; [(root, [r])]] = (lo ++ [D]) ++ [[(root, [r])]]) as E by (by rewrite <- app_assoc).
  rewrite E in *. rewrite last_snoc in H3. injection H3 as -> _.
  rewrite all_ids_app in H5, H6. apply NoDup_app in H5 as (N1 & N2 & _). apply Forall_app in H6 as [U1 U2].
  change (all_ids [[(root_bnode_id t, [r])]]) with [root_bnode_id t] in *.
  apply Forall_cons_1 in U2 as [U2 _]. rewrite length_app in H4. simpl in H4.
  constructor; rewrite ?(sim_height _ _ S), ?(sim_root _ _ S), ?(sim_nodes _ _ S); simpl; try done.
  - rewrite S. apply after_destroy_inv; [|done]. destruct H1. by constructor.
  - by apply stack_ok_app in H2 as [H2 _].
  - exists crecs. by rewrite last_snoc.
  - lia.
  - rewrite Forall_forall in U1 |- *. intros x Hx. rewrite S. apply used_after_destroy; [done|]. split; [by apply U1|].
    intros ->. apply (N2 _ Hx). by apply list_elem_of_singleton.
  - unfold bits_num. rewrite (sim_bits _ _ S). simpl. by rewrite length_insert.
Qed.

Lemma wp_collapse t lo D root r (Q : unit -> btree -> Prop) : tree_ok t (lo ++ [D; [(root, [r])]]) -> calm t ->
  btree_height t < 2 ^ 16 ->
  (forall t', calm t' -> tree_ok t' (lo ++ [D]) -> account t' (lo ++ [D]) = account t (lo ++ [D; [(root, [r])]]) -> Q tt t') ->
  wp (do child <- get_child_bnode mounted beyond grow r true;
      do_ emmcfs_btree_set_root_id (h_id child);
      do_ emmcfs_btree_dec_height;
      do_ emmcfs_put_bnode child;
      emmcfs_destroy_bnode mounted beyond (Handle root true)) t (ok Q).
Proof using All.
  intros Ht Hc Hh HQ. pose proof Ht as [H1 H2 _ H4 _ H6 _].
  apply stack_ok_app in H2 as (_ & (_ & Hb & _) & _). unfold BtreeInv.between in Hb. simpl in Hb.
  inversion Hb as [|r0 [c crecs] l0 D' [Hc1 _] Hnil]; subst. inversion Hnil; subst. simpl in Hc1.
  rewrite !all_ids_app, Forall_app in H6. destruct H6 as [_ [Uc [Ur _]%Forall_cons]%Forall_cons].
  rewrite length_app in H4. simpl in H4.
  simpl in Uc, Ur. assert (child_id r <> 0) as Hc0 by (rewrite Hc1; destruct Uc; lia).
  unfold get_child_bnode. rewrite (proj2 (Z.eqb_neq _ _)) by done. rewrite Hc1.
  apply wp_bind_ok, wp_get_ok; [done|done|done|]. intros t1 S1 C1.
  unfold emmcfs_btree_set_root_id. apply wp_bind_ok.
  apply wp_add_chunk_or_bug; [done|]. intros t2 S2 C2. apply wp_modify. apply wp_dirty_last; [done|done|].
  intros t3 S3 C3. unfold emmcfs_btree_dec_height. apply wp_bind_ok, wp_gets.
  assert (btree_height t3 = btree_height t) as E3.
  { rewrite (sim_height _ _ S3). simpl. by rewrite (sim_height _ _ S2), (sim_height _ _ S1). }
  rewrite E3. rewrite uwrap_small by lia. apply wp_BUG_ON; [apply Z.eqb_neq; lia|].
  apply wp_add_chunk_or_bug; [done|]. intros t4 S4 C4. apply wp_modify. apply wp_dirty_last; [done|done|].
  intros t5 S5 C5. apply wp_put; [done|]. intros t6 S6 C6.
  assert (t6 ≈ set_head t (btree_height t - 1) c) as S.
  { rewrite S6, S5. destruct S1, S2, S3, S4. simpl in *. split; simpl; congruence. }
  apply wp_destroy; [simpl; rewrite S; exact Ur| |by intros e t7 _ []|by intros t7 []].
  intros t7 S7 C7. simpl in S7.
  assert (t7 ≈ after_destroy (set_head t (btree_height t - 1) c) root) as S7'.
  { rewrite S7. unfold after_destroy. by rewrite (sim_bits _ _ S), (sim_first _ _ S), (sim_num _ _ S), S. }
  apply HQ; [auto|by eapply collapse_tree|].
  unfold account, bits_num. rewrite (sim_num _ _ S7'), (sim_bits _ _ S7'). simpl. rewrite length_insert. count_ids.
Qed.

(** ** One level *)

(** The first record of a node goes: every level above may have to change. *)
Definition at_front (L : list (Z * list record)) (q : nat) : Prop :=
  exists A id u (r2 : list record) B, L = A ++ (id, u :: r2) :: B /\ q = length (flat A).

Lemma not_front A id (r1 : list record) u (r2 : list record) B q :
  r1 <> [] -> q = length (flat A ++ r1) -> ~ at_front (A ++ (id, r1 ++ u :: r2) :: B) q.
Proof using.
  intros Hne -> (A' & id' & u' & r2' & B' & E & Hq). rewrite length_app in Hq.
  assert (0 < length r1)%nat as H1 by (destruct r1; [done|simpl; lia]).
  destruct (decide (length A < length A')%nat) as [Hlt|Hge].
  - destruct (list_split_at (length A) A') as (A1 & A2 & -> & HA1); [lia|].
    rewrite <- app_assoc in E. apply app_inj_1 in E as [-> E]; [|done].
    destruct A2 as [|n A2]; [rewrite app_nil_r in Hlt; lia|]. simplify_eq/=.
    rewrite flat_app, flat_cons, !length_app in Hq. simpl in Hq. rewrite length_app in Hq. simpl in Hq. lia.
  - destruct (list_split_at (length A') A) as (A1 & A2 & -> & HA1); [lia|].
    rewrite <- app_assoc in E. apply app_inj_1 in E as [-> E]; [|done].
    rewrite flat_app, length_app in Hq. lia.
Qed.

(** The removal of the record number [q] of the level can begin. *)
Record removal (t : btree) k lo L up key (q : nat) : Prop := {
  re_len : length lo = k;
  re_cut : tree_cut k t (lo ++ L :: up);
  re_key : key_ok key;
  re_floor : floor_pos (flat L) key q;
  re_below : match last lo with
             | Some D => Forall2 points (delete q (flat L)) D
             | None => exists r, flat L !! q = Some r /\ comp_fn r key = 0
             end;
  re_root : up = [] -> delete q (flat L) <> [];
  re_bushy : bushy (match lo with [] => up | _ => L :: up end);
  re_front : at_front L q ->
    roomy (length up) up /\ Z.of_nat (length up) * (Z.of_nat (length up) + 1) <= free_num t;
  re_height : btree_height t + 1 < 2 ^ 16
}.

Definition removed lo L (q : nat) (acc : Z * Z) (t' : btree) : Prop := calm t' /\
  exists lv', tree_ok t' lv' /\ elements lv' = match lo with [] => delete q (flat L) | D :: _ => flat D end /\
    account t' lv' = acc.

(** The key of the first record of a node leads to its index record. *)
Lemma floor_child t lo A id (recs : list record) B U up key :
  tree_ok t (lo ++ (A ++ (id, recs) :: B) :: U :: up) -> key_ok key -> comp_fn (first_rec recs) key = 0 ->
  floor_pos (flat U) key (length A).
Proof using All.
  intros Ht Hkey E. destruct (tree_ok_cut_at _ _ _ _ (length lo) t lo _ eq_refl Ht) as [Htc _].
  pose proof (cut_level _ _ _ _ _ _ _ _ _ Htc) as HL. pose proof (level_keys_ok _ _ _ _ _ _ _ HL) as HkL.
  destruct (cut_node _ _ _ _ _ _ _ _ _ _ _ _ Htc) as (_ & _ & Hne & Hkn & _).
  pose proof (cut_between _ _ _ _ _ _ _ _ _ _ Htc ltac:(lia)) as Hb.
  assert (level_ok (nodes t) (length (lo ++ [A ++ (id, recs) :: B])) U) as HU.
  { eapply (cut_level _ _ _ _ (length lo)). rewrite <- app_assoc. exact Htc. }
  pose proof (level_keys_ok _ _ _ _ _ _ _ HU) as HkU. pose proof (lo_sorted _ _ _ _ _ _ _ HU) as HsU.
  unfold BtreeInv.between in Hb. apply Forall2_app_inv_r in Hb as (ua & l2 & HA & HB & EU).
  inversion HB as [|v n ub ? [_ Hp] HB']; subst. simpl in Hp. rewrite EU in *.
  rewrite <- (Forall2_length _ _ _ HA). apply (floor_eq comp_fn key_ok); try done.
  pose proof HkU as [_ [Hkv _]%Forall_cons]%Forall_app.
  assert (key_ok (first_rec recs)) as Hkf by (destruct recs; [done|by apply Forall_cons in Hkn as [? _]]).
  destruct (comp_zero_le comp_fn key_ok v _ Hkv Hkf Hp) as [H1 H2].
  destruct (comp_zero_le comp_fn key_ok _ key Hkf Hkey E) as [H3 H4].
  pose proof (ko_trans _ _ _ Hkv Hkf Hkey H1 H3). pose proof (ko_trans _ _ _ Hkey Hkf Hkv H4 H2).
  pose proof (ko_sym v key Hkv Hkey). unfold BtreeInv.le in *. lia.
Qed.

(** The index record of the right node of two that are merged. *)
Lemma merged_removal t t' k lo A l (lr : list record) r (rr : list record) B U up A2 pid (q1 : list record) u (q2 : list record) B2 :
  length lo = k -> tree_ok t (lo ++ (A ++ (l, lr) :: (r, rr) :: B) :: U :: up) ->
  tree_cut (S k) t' ((lo ++ [A ++ (l, lr ++ rr) :: B]) ++ U :: up) ->
  U = A2 ++ (pid, q1 ++ u :: q2) :: B2 -> length (flat A2 ++ q1) = S (length A) -> q1 <> [] ->
  bushy (U :: up) -> btree_height t' + 1 < 2 ^ 16 ->
  removal t' (S k) (lo ++ [A ++ (l, lr ++ rr) :: B]) U up (key_copy (first_rec rr)) (S (length A)).
Proof using All.
  intros Hk Ht Ht' EU Hlen Hq1 Hb Hh. pose proof Ht as Ht2.
  replace (A ++ (l, lr) :: (r, rr) :: B) with ((A ++ [(l, lr)]) ++ (r, rr) :: B) in Ht2 by (by rewrite <- app_assoc).
  destruct (tree_ok_cut_at _ _ _ _ k t lo _ Hk Ht) as [Htc _].
  pose proof (cut_between _ _ _ _ _ _ _ _ _ _ Htc ltac:(lia)) as Hbt.
  pose proof (lo_nodes _ _ _ _ _ _ _ (cut_level _ _ _ _ _ _ _ _ _ Htc)) as [_ [Hokl [Hokr _]%Forall_cons]%Forall_cons]%Forall_app.
  simpl in Hokl, Hokr.
  pose proof (first_rec_valid max_record_len key_ok rr (no_ne _ _ _ _ _ Hokr) (no_valid _ _ _ _ _ Hokr)) as Hf.
  pose proof (key_copy_key _ (rv_ok _ _ _ Hf)) as Hsk.
  assert (key_ok (key_copy (first_rec rr))) as Hkey by (eapply ko_key; [apply same_key_sym; exact Hsk|apply Hf]).
  constructor; try done.
  - rewrite length_app. simpl. lia.
  - replace (S (length A)) with (length (A ++ [(l, lr)])) by (rewrite length_app; simpl; lia).
    eapply floor_child; [exact Ht2|done|].
    rewrite (proj2 (same_key_eq comp_fn key_ok _ _ (first_rec rr) Hsk (rv_key _ _ _ Hf))). apply ko_refl, Hf.
  - rewrite last_snoc. unfold BtreeInv.between in Hbt. apply Forall2_app_inv_r in Hbt as (ua & l2 & HA & HB & E).
    inversion HB as [|v n l2' ? [Hp1 Hp2] HB']; subst. inversion HB' as [|v' n' ub ? _ HB'']; subst.
    rewrite E. replace (S (length A)) with (length (ua ++ [v])) by (rewrite length_app, (Forall2_length _ _ _ HA); simpl; lia).
    replace (ua ++ v :: v' :: ub) with ((ua ++ [v]) ++ v' :: ub) by (by rewrite <- app_assoc).
    rewrite delete_middle, <- app_assoc. apply Forall2_app; [done|]. constructor; [|done]. split; [done|].
    simpl in *. destruct lr; [by destruct Hokl|done].
  - intros _ E. assert (length (flat U) = S (length (delete (S (length A)) (flat U)))) as El.
    { rewrite length_delete; [|apply lookup_lt_is_Some]; rewrite (Forall2_length _ _ _ Hbt), length_app; simpl; lia. }
    rewrite E, (Forall2_length _ _ _ Hbt), length_app in El. simpl in El. lia.
  - by destruct lo.
  - intros Hfr. exfalso. rewrite EU in Hfr. eapply not_front; [exact Hq1| |exact Hfr]. done.
Qed.

Lemma wp_rebalance k t lo A id (recs : list record) B U up key remove (Q : unit -> btree -> Prop) : length lo = k ->
  tree_ok t (lo ++ (A ++ (id, recs) :: B) :: U :: up) -> calm t -> key_ok key -> floor_pos (flat U) key (length A) ->
  bushy (U :: up) -> btree_height t + 1 < 2 ^ 16 ->
  (forall t' L' key' q, calm t' -> removal t' (S k) (lo ++ [L']) U up key' q ->
    flat L' = flat (A ++ (id, recs) :: B) -> account t' (lo ++ L' :: U :: up) = account t (lo ++ (A ++ (id, recs) :: B) :: U :: up) ->
    wp (remove key' (Z.of_nat (S (S k)))) t' (ok Q)) ->
  (forall t', t' ≈ t -> calm t' -> Q tt t') ->
  wp (rebalance remove key (Z.of_nat (S k)) id
    (bn_free N (Bnode id (level_type k) (last_id 0 A) (hd_id 0 B) recs))) t (ok Q).
Proof using All.
  intros Hk Ht Hc Hkey Hfl Hb Hh Hrem HQ. unfold Btree.rebalance.
  destruct (tree_ok_cut_at _ _ _ _ k t lo _ Hk Ht) as [Htc _].
  pose proof (cut_level _ _ _ _ _ _ _ _ _ Htc) as HL.
  set (L := A ++ (id, recs) :: B) in *.
  assert (length (lo ++ [L]) = S k) as Hk' by (rewrite length_app; simpl; lia).
  assert (tree_cut (S k) t ((lo ++ [L]) ++ U :: up)) as Htc1.
  { apply tree_ok_cut_at; [done|]. by rewrite <- app_assoc. }
  pose proof (level_keys_ok _ _ _ _ _ _ _ (cut_level _ _ _ _ _ _ _ _ _ Htc1)) as HkU.
  replace (Z.of_nat (S k) + 1) with (Z.of_nat (S (S k))) by lia.
  apply wp_bind_ok, (wp_find_at N max_record_len log_pages_per_node comp_fn key_ok mounted beyond grow HN Hmax Hbig (S k) t (lo ++ [L]) U up key); [done|done|done|done|].
  intros t1 pid A2 q1 u q2 B2 S1 C1 EU Hfl' _.
  assert (length (flat A2 ++ q1) = length A) as Hlen by (by eapply (floor_pos_unique comp_fn key_ok (flat U) key)).
  destruct (cut_neighbours _ _ _ _ _ _ _ _ Htc) as (Hu & Hpv & Hnx).
  destruct (cut_node _ _ _ _ _ _ _ _ _ _ _ _ Htc) as (_ & Hn & _). rewrite Hk in Hn.
  pose proof Htc1 as Htc1'. rewrite EU in Htc1'.
  destruct (cut_node _ _ _ _ _ _ _ _ _ _ _ _ Htc1') as (_ & Hnp & _).
  assert (Z.of_nat (length (q1 ++ u :: q2)) < 2 ^ 32) as Hcount.
  { pose proof (lo_nodes _ _ _ _ _ _ _ (cut_level _ _ _ _ _ _ _ _ _ Htc1')) as [_ [H _]%Forall_cons]%Forall_app.
    by eapply (node_count N max_record_len key_ok). }
  pose proof Hb as [HbU _]%Forall_cons. rewrite EU in HbU. apply Forall_app in HbU as [_ [HbU _]%Forall_cons]. simpl in HbU.
  apply wp_bind_ok, wp_get_ok; [rewrite S1; apply Htc|done|by rewrite S1|]. intros t2 S2 C2.
  assert (t2 ≈ t) as S by (by rewrite S2).
  eapply wp_node; [simpl; rewrite (sim_nodes _ _ S); exact Hn|].
  eapply wp_node; [simpl; rewrite (sim_nodes _ _ S); exact Hnp|]. cbn [bn_recs bn_prev bn_next bn_id].
  rewrite !uwrap_small by (rewrite ?length_app in *; simpl in *; lia).
  pose proof (no_room _ _ _ _ _ (proj1 (Forall_cons_1 _ _ _ (proj2 (proj1 (Forall_app _ _ _) (lo_nodes _ _ _ _ _ _ _ HL)))))) as Hroomn.
  pose proof (cut_between _ _ _ _ _ _ _ _ _ _ Htc ltac:(lia)) as Hbt.
  assert (forall t3 neigh (l r : Z) (lr rr : list record) A' B' (ln : list record), t3 ≈ t -> calm t3 ->
    L = A' ++ (l, lr) :: (r, rr) :: B' -> used t neigh -> (exists p x, nodes t !! neigh = Some (Bnode neigh (level_type k) p x ln)) ->
    room recs + room ln = room lr + room rr ->
    (exists C (c1 : list record) c c2 D x, U = C ++ (x, c1 ++ c :: c2) :: D /\ length (flat C ++ c1) = Datatypes.S (length A') /\ c1 <> []) ->
    wp (do nh <- emmcfs_get_bnode mounted beyond grow neigh true;
        do n <- node nh;
        do_ emmcfs_put_bnode nh;
        if bn_free N (Bnode id (level_type k) (last_id 0 A) (hd_id 0 B) recs) + bn_free N n >=? N then
          do_ emmcfs_put_bnode (Handle pid true);
          do_ emmcfs_put_bnode (Handle id true);
          btree_merge remove l r (Z.of_nat (Datatypes.S k))
        else
          do_ emmcfs_put_bnode (Handle id true);
          emmcfs_put_bnode (Handle pid true)) t3 (ok Q)) as Hgo.
  { intros t3 neigh l r lr rr A' B' ln S3 C3 EL Hun (p & x & Hnn) Hroom (C & c1 & c & c2 & D & y & EU' & Hl' & Hc1).
    apply wp_bind_ok, wp_get_ok; [rewrite S3; apply Htc|done|by rewrite S3|]. intros t4 S4 C4.
    assert (t4 ≈ t) as S' by (by rewrite S4).
    eapply wp_node; [simpl; rewrite (sim_nodes _ _ S'); exact Hnn|].
    apply wp_put; [done|]. intros t5 S5 C5. destruct (_ >=? N) eqn:Ege.
    - apply wp_put; [done|]. intros t6 S6 C6. apply wp_put; [done|]. intros t7 S7 C7.
      assert (t7 ≈ t) as S7' by (by rewrite S7, S6, S5). clear S4 S5 S6 S7.
      assert (tree_ok t7 (lo ++ (A' ++ (l, lr) :: (r, rr) :: B') :: U :: up)) as Ht7.
      { rewrite <- EL. eapply tree_ok_sim; [symmetry; exact S7'|done]. }
      eapply wp_merge; [exact Hk|exact Ht7|done| |].
      + apply Z.geb_le in Ege. unfold bn_free, sizeof_descr, sizeof_off, EMMCFS_BNODE_FIRST_OFFSET in Ege. simpl in Ege.
        rewrite room_app. destruct HN. lia.
      + intros t8 C8 T8 _ K8. replace (Z.of_nat (Datatypes.S k) + 1) with (Z.of_nat (Datatypes.S (Datatypes.S k))) by lia.
        eapply Hrem; [done| | |].
        * eapply (merged_removal t7); [exact Hk|exact Ht7|exact T8|exact EU'|exact Hl'|done|done|].
          rewrite (tc_height _ _ _ _ _ _ _ T8). pose proof (to_height _ _ _ _ _ _ Ht) as Eh. rewrite !length_app in *.
          simpl in *. lia.
        * rewrite EL, !flat_app, !flat_cons. simpl. by rewrite <- app_assoc.
        * rewrite <- app_assoc in K8. etrans; [exact K8|]. by rewrite (account_sim _ _ _ S7'), EL.
    - apply wp_put; [done|]. intros t6 S6 C6. apply wp_put_last; [done|]. intros t7 S7 C7.
      apply HQ; [|done]. by rewrite S7, S6, S5. }
  destruct (Z.gtb_spec (Z.of_nat (length q1)) 0) as [Hpos|Hzero].
  - (* with the left neighbour *)
    destruct A as [|[l lr] A0 _] using rev_ind; [destruct q1; simpl in *; rewrite ?length_app in Hlen; simpl in *; lia|].
    assert (last_id 0 (A0 ++ [(l, lr)]) = l) as El by (unfold last_id; by rewrite last_snoc).
    assert (L = A0 ++ (l, lr) :: (id, recs) :: B) as EL by (unfold L; by rewrite <- app_assoc).
    rewrite EL in Htc. destruct (cut_neighbours _ _ _ _ _ _ _ _ Htc) as (Hul & _).
    destruct (cut_node _ _ _ _ _ _ _ _ _ _ _ _ Htc) as (_ & Hnl & _). rewrite Hk in Hnl.
    apply wp_bind, wp_ret. rewrite El in Hgo |- *. eapply (Hgo t2 l l id lr recs A0 B lr); try done.
    + eauto.
    + lia.
    + exists A2, q1, u, q2, B2, pid. split; [done|]. split; [rewrite Hlen, length_app; simpl; lia|]. by destruct q1.
  - (* with the right neighbour *)
    destruct q1 as [|]; [|simpl in Hzero; lia]. simpl in HbU. destruct q2 as [|w q2]; [simpl in HbU; lia|].
    destruct (Z.ltb_spec (Z.of_nat (length ([] : list record))) (Z.of_nat (length ([] ++ u :: w :: q2)) - 1)) as [_|Hge]; [|simpl in Hge; lia].
    destruct B as [|[r rr] B0].
    { exfalso. apply Forall2_length in Hbt. unfold L in Hbt. rewrite EU, flat_app, flat_cons, !length_app in Hbt.
      rewrite app_nil_r in Hlen. simpl in Hbt. rewrite ?length_app in Hbt. simpl in Hbt. lia. }
    assert (L = (A ++ [(id, recs)]) ++ (r, rr) :: B0) as EL by (unfold L; by rewrite <- app_assoc).
    rewrite EL in Htc. destruct (cut_neighbours _ _ _ _ _ _ _ _ Htc) as (Hur & _).
    destruct (cut_node _ _ _ _ _ _ _ _ _ _ _ _ Htc) as (_ & Hnr & _). rewrite Hk in Hnr.
    apply wp_bind, wp_ret. cbn [hd_id]. eapply (Hgo t2 r id r recs rr A B0 rr); try done.
    + eauto.
    + exists A2, [u], w, q2, B2, pid. split; [done|]. split; [|done].
      rewrite app_nil_r in Hlen. rewrite length_app, Hlen. simpl. lia.
Qed.

Lemma wp_shrink k t lo A id (recs : list record) B up key remove (Q : unit -> btree -> Prop) : length lo = k ->
  tree_ok t (lo ++ (A ++ (id, recs) :: B) :: up) -> calm t -> key_ok key ->
  match up with U :: _ => floor_pos (flat U) key (length A) | [] => True end -> bushy up -> btree_height t + 1 < 2 ^ 16 ->
  (forall U up' t' L' key' q, up = U :: up' -> calm t' -> removal t' (S k) (lo ++ [L']) U up' key' q ->
    flat L' = flat (A ++ (id, recs) :: B) -> account t' (lo ++ L' :: up) = account t (lo ++ (A ++ (id, recs) :: B) :: up) ->
    wp (remove key' (Z.of_nat (S (S k)))) t' (ok Q)) ->
  (forall t' lv', calm t' -> tree_ok t' lv' -> elements lv' = elements (lo ++ (A ++ (id, recs) :: B) :: up) ->
    account t' lv' = account t (lo ++ (A ++ (id, recs) :: B) :: up) -> Q tt t') ->
  wp (shrink remove key (Z.of_nat (S k)) (Handle id true)) t (ok Q).
Proof using All.
  intros Hk Ht Hc Hkey Hfl Hb Hh Hrem HQ. set (L := A ++ (id, recs) :: B) in *.
  destruct (tree_ok_cut_at _ _ _ _ k t lo _ Hk Ht) as [Htc _].
  destruct (cut_node _ _ _ _ _ _ _ _ _ _ _ _ Htc) as (_ & Hn & _). rewrite Hk in Hn.
  assert (wp (emmcfs_put_bnode (Handle id true)) t (ok Q)) as Hstay.
  { apply wp_put_last; [done|]. intros t1 S1 C1. apply (HQ t1 (lo ++ L :: up)); [done| |done|by apply account_sim].
    eapply tree_ok_sim; [symmetry; exact S1|done]. }
  pose proof (to_height _ _ _ _ _ _ Ht) as Eh. rewrite length_app in Eh. simpl in Eh.
  unfold Btree.shrink. eapply wp_node; [exact Hn|]. apply wp_gets. rewrite Eh.
  destruct (_ >? N / 3); [|exact Hstay]. destruct (Z.ltb_spec (Z.of_nat (S k)) (Z.of_nat (length lo + S (length up)))) as [Hlt|Hge].
  - destruct up as [|U up]; [simpl in Hlt; lia|].
    apply wp_put; [done|]. intros t1 S1 C1. apply wp_try_ok with (P := fun _ => Q tt).
    + assert (tree_ok t1 (lo ++ L :: U :: up)) as Ht1 by (eapply tree_ok_sim; [symmetry; exact S1|done]).
      eapply (wp_rebalance k t1 lo A id recs B U up key); try done.
      * by rewrite (sim_height _ _ S1).
      * intros t2 L' key' q C2 R2 E2 K2. rewrite (account_sim _ _ _ S1) in K2. eapply wp_ok_mono; [by eapply Hrem|]. by intros [] t3.
      * intros t2 S2 C2. apply (HQ t2 (lo ++ L :: U :: up)); [done| |done|].
        -- eapply tree_ok_sim; [symmetry; exact S2|done].
        -- by rewrite (account_sim _ _ _ S2), (account_sim _ _ _ S1).
    + intros [] t2 HQ2. by apply wp_ret.
  - destruct up as [|]; [|simpl in Hge; lia]. cbn [bn_recs].
    destruct (Z.eqb_spec (Z.of_nat (length recs)) 1) as [E1|]; [|exact Hstay].
    destruct (Z.leb_spec (Z.of_nat (length lo + S (length ([] : list level)))) 1) as [|Hh1]; [exact Hstay|].
    destruct recs as [|r [|]]; [done| |simpl in E1; lia].
    destruct lo as [|D lo _] using rev_ind; [simpl in Hh1; lia|].
    destruct (to_top _ _ _ _ _ _ Ht) as [tr Htop]. rewrite last_snoc in Htop. injection Htop as EL.
    assert (A = [] /\ B = []) as [-> ->].
    { unfold L in EL. destruct A as [|a A]; [|by destruct A]. by destruct B. }
    rewrite <- app_assoc in Ht. simpl in Ht.
    eapply (get_rec_ok _ 0%nat); [done|simpl; lia|].
    eapply wp_collapse; [exact Ht|done|lia|]. intros t1 C1 T1 K1. apply (HQ t1 (lo ++ [D])); [done|done| |].
    + by destruct lo.
    + etrans; [exact K1|]. by rewrite <- app_assoc.
Qed.

(** The node lost a record, but not all; the levels above are repaired. *)
Lemma wp_repair fuel k t lo A id (r1 : list record) u (r2 : list record) B up key (Q : record -> btree -> Prop) :
  let L' := A ++ (id, r1 ++ r2) :: B in
  length lo = k -> tree_cut (S k) t ((lo ++ [L']) ++ up) -> calm t -> key_ok key -> key_ok u -> bushy up ->
  match up with [] => True | U :: _ => between (A ++ (id, r1 ++ u :: r2) :: B) U /\ floor_pos (flat U) key (length A) end ->
  (r1 = [] -> lt u (first_rec r2) /\ lt key (first_rec r2) /\ roomy (length up) up /\
     Z.of_nat (length up) * (Z.of_nat (length up) + 1) <= free_num t) ->
  btree_height t + 1 < 2 ^ 16 -> (length up <= fuel)%nat ->
  (forall t' up' key', calm t' -> tree_ok t' (lo ++ L' :: up') -> bushy up' -> key_ok key' -> length up' = length up ->
    match up' with [] => True | U :: _ => floor_pos (flat U) key' (length A) end ->
    account t' (lo ++ L' :: up') = account t (lo ++ L' :: up) -> Q key' t') ->
  wp (if (Z.of_nat (length r1) =? 0) && (Z.of_nat (S k) <? btree_height t)
      then btree_update_key N max_record_len log_pages_per_node comp_fn mounted beyond grow fuel key (Handle id true) (Z.of_nat (S k) + 1)
      else ret key) t (ok Q).
Proof using All.
  intros L' Hk Ht Hc Hkey Hku Hb Hup Hfront Hh Hfuel HQ.
  assert (btree_height t = Z.of_nat (S k + length up)) as Eh.
  { rewrite (tc_height _ _ _ _ _ _ _ Ht), !length_app. simpl. lia. }
  destruct (_ && _) eqn:Econd.
  - apply andb_true_iff in Econd as [E0%Z.eqb_eq Elt%Z.ltb_lt]. destruct r1 as [|]; [|simpl in E0; lia].
    destruct up as [|U up]; [simpl in Eh; lia|]. destruct Hup as [Hbt Hfl]. simpl app in *.
    destruct (Hfront eq_refl) as (Hul & Hkl & Hroomy & Hfree).
    pose proof (level_keys_ok _ _ _ _ _ _ _ (cut_level _ _ _ _ _ _ _ _ _ Ht)) as HkU.
    assert (level_ok (nodes t) (length lo) L') as HL' by (eapply (cut_level _ _ _ _ (S k)); rewrite <- app_assoc in Ht; exact Ht).
    pose proof (level_keys_ok _ _ _ _ _ _ _ HL') as HkL. pose proof (lo_nodes _ _ _ _ _ _ _ HL') as Hns.
    unfold L' in HkL, Hns. rewrite flat_app, flat_cons in HkL. apply Forall_app in HkL as [_ [HkL _]%Forall_app]. simpl in HkL.
    apply Forall_app in Hns as [_ [[Hne2 _ Hv2 _] _]%Forall_cons]. simpl in Hne2, Hv2.
    pose proof (first_rec_valid max_record_len key_ok r2 Hne2 Hv2) as Hf.
    unfold BtreeInv.between in Hbt. apply Forall2_app_inv_r in Hbt as (ua & l2 & HA & HB & EU).
    inversion HB as [|v n ub ? [Hp1 Hp2] HB']; subst. simpl in Hp1, Hp2. unfold first_rec in Hp2. simpl in Hp2.
    rewrite EU in HkU. apply Forall_app in HkU as [_ [Hkv _]%Forall_cons].
    replace (Z.of_nat (S (length lo)) + 1) with (Z.of_nat (S (S (length lo)))) by lia.
    eapply (wp_update_key N max_record_len log_pages_per_node comp_fn key_ok mounted beyond grow HN Hmax Hbig
      up fuel (length lo) lo A id r2 B U ua v ub key t); try done.
    + constructor; try done.
      * eapply (le_lt_trans comp_fn key_ok v u); try done; [apply Hf|].
        by apply (comp_zero_le comp_fn key_ok v u).
      * by rewrite (Forall2_length _ _ _ HA).
    + intros t' lv' C' T' B' L'' K'. rewrite <- app_assoc in T'. fold L' in K'. rewrite <- !(app_assoc lo [L']) in K'. destruct lv' as [|U' up']; [simpl in L''; lia|].
      pose proof (form_record_key (first_rec r2) id (rv_ok _ _ _ Hf)) as Hsk.
      apply (HQ t' (U' :: up')); try done.
      * eapply ko_key; [apply same_key_sym; exact Hsk|apply Hf].
      * eapply floor_child; [exact T'| |].
        -- eapply ko_key; [apply same_key_sym; exact Hsk|apply Hf].
        -- rewrite (proj2 (same_key_eq comp_fn key_ok _ _ _ Hsk (rv_key _ _ _ Hf))). apply ko_refl, Hf.
  - apply wp_ret. apply (HQ t up); try done; [|by destruct up; [|destruct Hup]].
    apply (close_above N max_record_len log_pages_per_node comp_fn key_ok mounted beyond grow HN Hmax Hbig k); [done|done|].
    unfold BtreeFind.meet. simpl. destruct up as [|U up]; [done|]. destruct Hup as [Hbt _].
    destruct r1 as [|x r1].
    { exfalso. simpl in Econd, Eh. apply Z.ltb_ge in Econd. lia. }
    eapply (between_same N max_record_len log_pages_per_node comp_fn key_ok mounted beyond grow HN Hmax Hbig); [exact Hbt|done].
Qed.

(** ** All levels *)

(** The place that the search finds is that of the record to remove. *)
Lemma removal_split t k lo L up key q id A (r1 : list record) u (r2 : list record) B : removal t k lo L up key q ->
  L = A ++ (id, r1 ++ u :: r2) :: B -> floor_pos (flat L) key (length (flat A ++ r1)) ->
  key_ok u /\ q = length (flat A ++ r1) /\ delete q (flat L) = flat (A ++ (id, r1 ++ r2) :: B) /\
  (lo = [] -> comp_fn u key = 0) /\ meet lo [A ++ (id, r1 ++ r2) :: B] /\
  (r1 = [] -> r2 <> [] -> lt u (first_rec r2) /\ lt key (first_rec r2)) /\ (r1 = [] -> at_front L q).
Proof using All.
  intros [Hk Ht Hkey Hfl Hbelow Hroot Hb Hfront Hh] EL Hfl'.
  pose proof (cut_level _ _ _ _ _ _ _ _ _ Ht) as HL. pose proof (level_keys_ok _ _ _ _ _ _ _ HL) as HkL.
  pose proof (lo_sorted _ _ _ _ _ _ _ HL) as HsL.
  assert (q = length (flat A ++ r1)) as Eq by (by eapply (floor_pos_unique comp_fn key_ok (flat L) key)).
  assert (flat L = (flat A ++ r1) ++ u :: r2 ++ flat B) as Efl.
  { rewrite EL, flat_app, flat_cons. simpl. by rewrite <- !app_assoc. }
  assert (delete q (flat L) = flat (A ++ (id, r1 ++ r2) :: B)) as Edel.
  { rewrite Efl, Eq, delete_middle, flat_app, flat_cons. simpl. by rewrite <- !app_assoc. }
  split; [rewrite Efl in HkL; by apply Forall_app in HkL as [_ [? _]%Forall_cons]|].
  split; [done|]. split; [done|]. split; [|split; [|split]].
  - intros ->. simpl in Hbelow. destruct Hbelow as (u' & Hu' & E). rewrite Efl, Eq, list_lookup_middle in Hu' by done.
    by injection Hu' as ->.
  - unfold BtreeFind.meet. destruct (last lo); [|done]. unfold BtreeInv.between. by rewrite <- Edel.
  - intros -> Hne. destruct r2 as [|x r2]; [done|]. unfold first_rec. simpl. rewrite Efl in HsL, Hfl'.
    apply SSorted_app in HsL as (_ & [_ [Hx _]%Forall_cons]%SSorted_cons & _). split; [done|].
    apply floor_split in Hfl' as [_ [Hx' _]%Forall_cons]. done.
  - intros ->. exists A, id, u, r2, B. split; [done|]. by rewrite app_nil_r in Eq.
Qed.

(** An empty leaf: its index record is removed next. *)
Lemma removal_up t t' lo A id u B U up key q : removal t 0 lo (A ++ (id, [u]) :: B) (U :: up) key q ->
  at_front (A ++ (id, [u]) :: B) q -> floor_pos (flat U) key (length A) ->
  tree_cut 1 t' ((lo ++ [A ++ B]) ++ U :: up) -> free_num t <= free_num t' ->
  removal t' 1 (lo ++ [A ++ B]) U up key (length A).
Proof using All.
  intros [Hk Ht Hkey Hfl Hbelow Hroot Hb Hfront Hh] Hat HflU Ht' Hfree. destruct lo; [|done]. simpl in *.
  destruct (Hfront Hat) as [Hroomy Hnum].
  pose proof (cut_between N max_record_len comp_fn key_ok 0 t [] _ _ _ Ht ltac:(lia)) as Hbt.
  constructor; try done.
  - simpl. unfold BtreeInv.between in Hbt. apply Forall2_app_inv_r in Hbt as (ua & l2 & HA & HB & E).
    inversion HB; subst. rewrite E. rewrite <- (Forall2_length _ _ _ HA), delete_middle. by apply Forall2_app.
  - intros -> E. apply Forall_cons in Hb as [HbU _].
    destruct (tc_top _ _ _ _ _ _ _ Ht) as [tr Htop]. simpl in Htop. injection Htop as ->.
    apply Forall_cons in HbU as [HbU _]. simpl in HbU. rewrite flat_cons in *. simpl in E, HflU. rewrite app_nil_r in E.
    destruct HflU as [(r & Hr & _) _]. rewrite app_nil_r in Hr.
    pose proof (length_delete tr (length A) (ltac:(by eexists))) as El. rewrite E in El. simpl in El. lia.
  - intros _. split.
    + unfold BtreeUpdateKey.roomy in *. destruct up as [|U2 up]; [done|]. rewrite last_cons_cons in Hroomy. simpl length in Hroomy.
      destruct (last (U2 :: up)); [|done]. cbn [length].
      assert (0 <= max_record_len); [|nia].
      pose proof (cut_level N max_record_len comp_fn key_ok 0 t [] _ _ Ht) as HL.
      eapply (valid_max max_record_len key_ok (flat (A ++ (id, [u]) :: B))).
      * rewrite flat_app, flat_cons. by destruct (flat A).
      * by eapply level_valid.
    + simpl length in Hnum. nia.
  - rewrite (tc_height _ _ _ _ _ _ _ Ht'). rewrite (tc_height _ _ _ _ _ _ _ Ht) in Hh. done.
Qed.

Lemma wp_btree_remove up : forall fuel k lo L key q t (Q : unit -> btree -> Prop),
  removal t k lo L up key q -> calm t -> (S (length up) <= fuel)%nat ->
  (forall t', removed lo L q (account t (lo ++ L :: up)) t' -> Q tt t') ->
  wp (btree_remove fuel key (Z.of_nat (S k))) t (ok Q).
Proof using All.
  induction up as [up IH] using (induction_ltof1 _ length).
  intros fuel k lo L key q t Q Hre Hc Hfuel HQ. pose proof Hre as [Hk Ht Hkey Hfl Hbelow Hroot Hb Hfront Hh].
  destruct fuel as [|fuel]; [lia|]. cbn [Btree.btree_remove]. apply wp_gets.
  apply wp_BUG_ON.
  { rewrite (tc_height _ _ _ _ _ _ _ Ht), length_app, Z.gtb_ltb. apply Z.ltb_ge. simpl. lia. }
  apply wp_bind_ok, (wp_find_at N max_record_len log_pages_per_node comp_fn key_ok mounted beyond grow HN Hmax Hbig k t lo L up key);
    [done|done|done|done|].
  intros t1 id A r1 u r2 B S1 C1 EL Hfl' Hup.
  destruct (removal_split _ _ _ _ _ _ _ _ _ _ _ _ _ Hre EL Hfl') as (Hku & Eq & Edel & Hzero & Hmeet & Hlt & Hat).
  assert (tree_cut k t1 (lo ++ (A ++ (id, r1 ++ u :: r2) :: B) :: up)) as Ht1.
  { rewrite <- EL. eapply tree_cut_sim; [symmetry; exact S1|done]. }
  destruct (cut_node _ _ _ _ _ _ _ _ _ _ _ _ Ht1) as (_ & Hn & _). rewrite Hk in Hn.
  pose proof (lo_nodes _ _ _ _ _ _ _ (cut_level _ _ _ _ _ _ _ _ _ Ht1)) as [_ [Hok _]%Forall_cons]%Forall_app. simpl in Hok.
  assert (Z.of_nat (length (r1 ++ u :: r2)) < 2 ^ 32) as Hcount by (by eapply (node_count N max_record_len key_ok)).
  eapply wp_node; [exact Hn|]. eapply get_rec_ok; [by apply list_lookup_middle|done|].
  assert ((Z.of_nat (S k) =? 1) && negb (comp_fn u key =? 0) = false) as ->.
  { destruct lo as [|D lo']; [rewrite Hzero by done; by rewrite andb_false_r|].
    rewrite (proj2 (Z.eqb_neq _ 1)); [done|]. simpl in Hk. lia. }
  destruct (decide (r1 ++ r2 = [])) as [Enil|Hne].
  - (* the leaf is empty now *)
    apply app_eq_nil in Enil as [-> ->]. simpl app in *.
    assert (lo = []) as ->.
    { destruct lo as [|D lo']; [done|]. apply Forall_cons in Hb as [HbL _]. rewrite EL in HbL.
      apply Forall_app in HbL as [_ [HbL _]%Forall_cons]. simpl in HbL. lia. }
    simpl in Hk. subst k. destruct up as [|U up].
    { exfalso. destruct Hup as [-> ->]. rewrite EL in Edel, Hroot. apply Hroot; [done|]. by rewrite Edel. }
    eapply wp_delete_from; [exact Hn|done|done|done|]. intros t2 S2 C2.
    eapply wp_node; [simpl; rewrite (sim_nodes _ _ S2); simpl; by rewrite lookup_insert_eq|].
    cbn [node_delete set_recs bn_recs take drop app length]. simpl Z.eqb. cbv iota.
    eapply (wp_drop 0 t1 t2 [] A id [u] B (U :: up)); [done|exact Ht1|done|done|done| |].
    { rewrite S2. done. }
    intros t3 C3 T3 N3 K3.
    assert (removal t3 1 ([] ++ [A ++ B]) U up key (length A)) as Hre3.
    { rewrite EL in Hre. eapply (removal_up t); [exact Hre|rewrite <- EL; by apply Hat|done|exact T3|].
      rewrite (sim_num _ _ S1) in N3. done. }
    eapply (IH up ltac:(unfold ltof; simpl; lia) fuel 1%nat _ U key (length A) t3); [exact Hre3|done|simpl in Hfuel; lia|].
    intros t4 (C4 & lv4 & T4 & E4 & K4). apply HQ. split; [done|]. exists lv4. split; [done|]. split.
    + rewrite E4. simpl. rewrite Edel, !flat_app, flat_cons. done.
    + rewrite K4, EL, <- (account_sim _ _ _ S1). exact K3.
  - eapply (wp_delete_rec N max_record_len log_pages_per_node comp_fn key_ok mounted beyond grow HN Hmax Hbig k t1 lo); [done|exact Ht1|done|done|done|].
    intros t2 C2 T2 N2 Eb2 Hn2. eapply wp_node; [exact Hn2|]. cbn [bn_recs].
    destruct (Z.eqb_spec (Z.of_nat (length (r1 ++ r2))) 0) as [E0|_].
    { exfalso. apply Hne. destruct (r1 ++ r2); [done|simpl in E0; lia]. }
    assert (btree_height t2 = btree_height t) as Eh2.
    { rewrite (tc_height _ _ _ _ _ _ _ T2), (tc_height _ _ _ _ _ _ _ Ht), !length_app. simpl. lia. }
    apply wp_gets. apply wp_bind_ok.
    assert (bushy up) as Hbup by (destruct lo; [done|by apply Forall_cons in Hb as [_ ?]]).
    eapply (wp_repair (S fuel) k t2 lo A id r1 u r2 B up key); [done|exact T2|done|done|done|done| | | | |].
    + destruct up as [|U up]; [done|]. split; [|done]. eapply cut_between; [exact Ht1|lia].
    + intros ->. simpl in Hne. destruct (Hlt eq_refl Hne) as [Hlt1 Hlt2]. split; [done|]. split; [done|].
      rewrite N2, (sim_num _ _ S1). by apply Hfront, Hat.
    + lia.
    + lia.
    + intros t3 up' key' C3 T3 B3 Hkey' Hlen' Hfl3 K3. cbv beta.
      assert (account t3 (lo ++ (A ++ (id, r1 ++ r2) :: B) :: up') = account t (lo ++ L :: up)) as K.
      { rewrite K3, EL. unfold account. rewrite Eb2, N2. pose proof (sim_num _ _ S1). pose proof (sim_bits _ _ S1) as Eb1.
        unfold bits_num. rewrite Eb1. count_ids. }
      assert (elements (lo ++ (A ++ (id, r1 ++ r2) :: B) :: up') = match lo with [] => delete q (flat L) | D :: _ => flat D end) as Eel.
      { destruct lo; [|done]. simpl. done. }
      eapply (wp_shrink k t3 lo A id (r1 ++ r2) B up' key'); try done.
      * rewrite (to_height _ _ _ _ _ _ T3). rewrite <- Eh2, (tc_height _ _ _ _ _ _ _ T2) in Hh.
        rewrite !length_app in *. simpl in *. lia.
      * intros U up'' t4 L4 key4 q4 -> C4 R4 E4 K4.
        eapply (IH up'' ltac:(unfold ltof; simpl in Hlen'; lia) fuel (S k) _ U key4 q4 t4); [exact R4|done|simpl in Hlen'; lia|].
        intros t5 (C5 & lv5 & T5 & E5 & K5). apply HQ. split; [done|]. exists lv5. split; [done|]. split.
        -- rewrite E5, <- Eel. destruct lo; [exact E4|done].
        -- rewrite K5, <- K, <- K4. by rewrite <- app_assoc.
      * intros t4 lv4 C4 T4 E4 K4. apply HQ. split; [done|]. exists lv4. split; [done|]. rewrite E4, K4. done.
Qed.
End remove.
