(* ===== verification/BtreeSpec.v ===== *)
(** * What the B-tree promises its clients

    The rules for the search, the insertion, the removal, the access to a record
    and the change of a value, for any comparison function that orders the
    keys. *)

From S2P Require Import Prelude Monad BnodeBytes BnodeRepr BnodePool BnodePoolProofs Btree BtreeInv BtreeFind BtreeInsert BtreeShrink BtreeUpdateKey BtreeRemove.
Open Scope Z_scope.

Section spec.
Context (N max_record_len log_pages_per_node : Z) (comp_fn : record -> record -> Z) (key_ok : record -> Prop)
  `{!KeyOrder comp_fn key_ok} (mounted : bool) (beyond : Z -> bool) (grow : Z -> Z -> Z).
Abbreviation tree_ok := (tree_ok N max_record_len comp_fn key_ok).
Abbreviation rec_valid := (rec_valid max_record_len key_ok).
Abbreviation find := (emmcfs_btree_find comp_fn mounted beyond grow).
Abbreviation insert := (emmcfs_btree_insert N max_record_len log_pages_per_node comp_fn mounted beyond grow).
Abbreviation le := (le comp_fn).
Abbreviation lt := (lt comp_fn).

(** The record that a node of the state has at a position. *)
Definition record_at (t : btree) (h : handle) (pos : Z) : option record :=
  n ← nodes t !! h_id h; bn_recs n !! Z.to_nat pos.

(** The record number [q] of the tree is in a leaf at a position. *)
Definition leaf_place (lv : list (list (Z * list record))) (h : handle) (pos : Z) (q : nat) : Prop :=
  exists L up j, lv = L :: up /\ place L (h_id h) pos q j.

Lemma path_record t lv lo L rw key path h pos q : tree_ok t lv -> lv = lo ++ L :: drop (S (length lo)) lv ->
  path_ok comp_fn rw key (L :: drop (S (length lo)) lv) ((h, pos) :: path) q ->
  exists r, flat L !! q = Some r /\ record_at t h pos = Some r /\ floor_pos comp_fn (flat L) key q.
Proof.
  intros Ht Elv (Hrw & Hfl & j & (A & recs & B & p & -> & Hp & -> & -> & ->) & _).
  destruct (lookup_lt_is_Some_2 recs p Hp) as [r Hr]. exists r. split; [|split; [|done]].
  - rewrite flat_app, flat_cons. simpl. rewrite lookup_app_r by lia.
    replace (length (flat A) + p - length (flat A))%nat with p by lia. by apply lookup_app_l_Some.
  - rewrite Elv in Ht. destruct (tree_node _ _ _ _ _ _ _ _ _ _ _ Ht) as (_ & Hn & _).
    unfold record_at. rewrite Hn. simpl. by rewrite Nat2Z.id.
Qed.

(** ** Search *)

(** The search at the level of the leaves, on every branch. *)
Lemma wp_find t lv key rw : tree_ok t lv -> key_ok key ->
  wp (find key rw) t (fun r t' => match r with
    | Ok (h, pos) => t' ≈ t /\ (calm t -> calm t') /\
        exists q x, elements lv !! q = Some x /\ record_at t h pos = Some x /\
          floor_pos comp_fn (elements lv) key q /\ h_rw h = rw /\ leaf_place lv h pos q
    | Err _ => t' ≈ t /\ ~ calm t
    | Bug => ~ calm t /\ mounted = true
    end).
Proof using KeyOrder0.
  intros Ht Hkey. destruct (to_top _ _ _ _ _ _ Ht) as [tr Htop].
  destruct lv as [|L up]; [done|].
  unfold Btree.emmcfs_btree_find, btree_find, EMMCFS_BTREE_LEAF_LVL.
  apply wp_bind. eapply wp_mono; [apply (wp_find_path N max_record_len comp_fn key_ok); [exact Ht|done|simpl; lia]|].
  intros [path|e|] t' H; [|done|done]. destruct H as (S & C & q & Hq). simpl in Hq.
  destruct path as [|[h pos] path]; [done|]. apply wp_ret. split; [done|]. split; [done|].
  destruct (path_record t (L :: up) [] L rw key path h pos q Ht eq_refl) as (r & H1 & H2 & H3).
  { simpl. done. }
  destruct Hq as (Hrw & _ & j & Hpl & _). exists q, r. do 4 (split; [done|]). by exists L, up, j.
Qed.

(** Keys that compare alike are searched alike, whatever their other bytes. *)
Lemma search_node_ext l k k' : (forall x, comp_fn x k = comp_fn x k') ->
  search_node comp_fn l k = search_node comp_fn l k'.
Proof using.
  intros E. unfold search_node. rewrite !E.
  enough (forall fuel first last pos prev c,
    bin_search comp_fn fuel l k first last pos prev c = bin_search comp_fn fuel l k' first last pos prev c) as ->; [done|].
  induction fuel as [|fuel IH]; intros first last pos prev c; [done|].
  cbn [bin_search]. by rewrite !E, !IH.
Qed.

Lemma find_down_ext k k' rw : (forall x, comp_fn x k = comp_fn x k') -> forall below h path t,
  find_down comp_fn mounted beyond grow below h k rw path t =
  find_down comp_fn mounted beyond grow below h k' rw path t.
Proof using.
  intros E. induction below as [|below IH]; intros h path t; cbn [find_down];
    (apply bind_ext; [done|]; intros n t1); destruct (_ =? 0); try done;
    rewrite (search_node_ext _ k k' E); [done|].
  destruct (_ !! _); [|done]. apply bind_ext; [done|]. intros c t2. apply IH.
Qed.

Lemma find_ext k k' rw t : (forall x, comp_fn x k = comp_fn x k') -> find k rw t = find k' rw t.
Proof using.
  intros E. apply bind_ext; [|done]. apply bind_ext; [done|]. intros height t1.
  apply bind_ext; [done|]. intros root t2. apply bind_ext; [done|]. intros h t3.
  destruct (_ >? _); [done|]. by apply find_down_ext.
Qed.

(** ** The record at a place *)
Lemma wp_get_btree_record t lv h pos q x : node_size_ok N -> tree_ok t lv -> leaf_place lv h pos q ->
  record_at t h pos = Some x ->
  wp (emmcfs_get_btree_record h pos) t (ok (fun r t' => r = x /\ t' = t)).
Proof using.
  intros HN Ht (L & up & j & -> & A & recs & B & p & -> & Hp & -> & _) Hx.
  destruct (tree_node N max_record_len comp_fn key_ok t [] _ _ _ _ _ Ht) as (_ & Hn & _).
  pose proof (tree_level N max_record_len comp_fn key_ok t [] _ _ Ht) as HL.
  unfold record_at in Hx. rewrite Hn in Hx. simpl in Hx. rewrite Nat2Z.id in Hx.
  unfold emmcfs_get_btree_record. eapply wp_node; [exact Hn|]. cbn [bn_recs].
  unfold get_rec. apply lo_nodes in HL. apply Forall_app in HL as [_ [Hnd _]%Forall_cons].
  pose proof (node_count N max_record_len key_ok HN _ _ Hnd). simpl in *.
  rewrite uwrap_small, Z.gtb_ltb, (proj2 (Z.ltb_ge _ _)), Nat2Z.id, Hx by lia. by apply wp_ret.
Qed.

Lemma record_at_node t lv h pos q x : node_size_ok N -> tree_ok t lv -> leaf_place lv h pos q ->
  record_at t h pos = Some x ->
  exists n, nodes t !! h_id h = Some n /\ bn_recs n !! Z.to_nat pos = Some x /\
    Z.of_nat (length (bn_recs n)) < 2 ^ 32 /\ Z.of_nat (Z.to_nat pos) = pos.
Proof using.
  intros HN Ht (L & up & j & -> & A & recs & B & p & -> & Hp & -> & _) Hx.
  destruct (tree_node N max_record_len comp_fn key_ok t [] _ _ _ _ _ Ht) as (_ & Hn & _).
  pose proof (tree_level N max_record_len comp_fn key_ok t [] _ _ Ht) as HL.
  unfold record_at in Hx. rewrite Hn in Hx. simpl in Hx.
  apply lo_nodes in HL. apply Forall_app in HL as [_ [Hnd _]%Forall_cons].
  pose proof (node_count N max_record_len key_ok HN _ _ Hnd). eexists. split; [exact Hn|]. simpl. split; [done|]. split; [done|lia].
Qed.

(** The records of a level by their nodes. *)
Lemma flat_at A id recs B p r :
  recs !! p = Some r -> flat (A ++ (id, recs) :: B) !! (length (flat A) + p)%nat = Some r.
Proof using.
  intros Hr. rewrite flat_app, flat_cons, lookup_app_r by lia. simpl snd.
  replace (length (flat A) + p - length (flat A))%nat with p by lia. by apply lookup_app_l_Some.
Qed.

Lemma place_at A id recs B p : (p < length recs)%nat ->
  place (A ++ (id, recs) :: B) id (Z.of_nat p) (length (flat A) + p) (length A).
Proof using. intros Hp. by exists A, recs, B, p. Qed.

Lemma flat_last A id recs : recs <> [] ->
  S (length (flat A) + (length recs - 1)) = length (flat (A ++ [(id, recs)])).
Proof using.
  intros Hne. rewrite flat_app, length_app, flat_cons. simpl. rewrite app_nil_r. destruct recs; [done|simpl; lia].
Qed.

(** The next record, in the node or in its right neighbour. *)
Lemma wp_next_record t lv L up id pos q j rw : node_size_ok N -> tree_ok t lv -> lv = L :: up -> place L id pos q j ->
  wp (emmcfs_get_next_btree_record mounted beyond grow (Handle id rw) pos) t (fun o t' => match o with
    | Ok (h, pos', r) => t' ≈ t /\ (calm t -> calm t') /\ elements lv !! S q = Some r /\
        exists j', place L (h_id h) pos' (S q) j'
    | Err e => t' ≈ t /\ (calm t -> calm t' /\ e = - ENOENT /\ S q = length (elements lv))
    | Bug => ~ calm t /\ mounted = true
    end).
Proof using.
  intros HN Ht -> (A & recs & B & p & -> & Hp & -> & -> & ->).
  destruct (tree_node N max_record_len comp_fn key_ok t [] _ _ _ _ _ Ht) as (Hu & Hn & _).
  pose proof (tree_level N max_record_len comp_fn key_ok t [] _ _ Ht) as HL.
  pose proof (lo_nodes _ _ _ _ _ _ _ HL) as Hns.
  assert (forall A' id' recs' B', A ++ (id, recs) :: B = A' ++ (id', recs') :: B' -> node_ok N max_record_len key_ok 0 recs') as Hnok.
  { intros A' id' recs' B' E. rewrite E in Hns. by apply Forall_app in Hns as [_ [? _]%Forall_cons]. }
  unfold emmcfs_get_next_btree_record. eapply wp_node; [exact Hn|]. cbn [bn_recs].
  destruct (Z.ltb_spec (Z.of_nat p + 1) (Z.of_nat (length recs))) as [Hlt|Hge].
  - destruct (lookup_lt_is_Some_2 recs (S p) ltac:(lia)) as [r Hr].
    replace (Z.of_nat p + 1) with (Z.of_nat (S p)) by lia.
    eapply get_rec_ok; [exact Hr|eapply (node_count N max_record_len key_ok); [done|by eapply Hnok]|].
    apply wp_ret. rewrite plus_n_Sm. split; [done|]. split; [done|]. split; [by apply flat_at|].
    exists (length A). apply place_at. lia.
  - assert (p = (length recs - 1)%nat) as -> by lia.
    unfold emmcfs_get_next_bnode. apply wp_bind. eapply wp_node; [exact Hn|]. cbn [bn_next].
    destruct B as [|[id2 recs2] B2]; simpl hd_id.
    + simpl. apply wp_fail. split; [done|]. intros Hc. split; [done|]. split; [done|]. apply flat_last. intros ->. simpl in Hp. lia.
    + replace (A ++ (id, recs) :: (id2, recs2) :: B2) with ((A ++ [(id, recs)]) ++ (id2, recs2) :: B2) in *
        by (by rewrite <- app_assoc).
      destruct (tree_node N max_record_len comp_fn key_ok t [] _ _ _ _ _ Ht) as (Hu2 & Hn2 & Hne2 & _).
      destruct (Z.eqb_spec id2 0) as [->|Hz]; [destruct Hu2; lia|].
      apply wp_get_bnode; [apply Ht|done| | |done].
      * intros t1 S1 C1. apply wp_put_bnode. intros t2 S2 C2.
        eapply wp_node; [simpl; rewrite (sim_nodes _ _ S2), (sim_nodes _ _ S1); exact Hn2|].
        pose proof (first_rec_lookup recs2 Hne2) as Hf2.
        eapply (get_rec_ok _ 0%nat); [exact Hf2|eapply (node_count N max_record_len key_ok); [done|by eapply Hnok]|].
        apply wp_ret. rewrite (flat_last A id recs) by (intros ->; simpl in Hp; lia).
        rewrite <- (Nat.add_0_r (length (flat (A ++ [(id, recs)])))).
        split; [by rewrite S2|]. split; [auto|]. split; [by apply flat_at|].
        exists (length (A ++ [(id, recs)])). apply (place_at _ _ _ _ 0). destruct recs2; [done|simpl; lia].
      * intros e t1 S1 C1. split; [done|]. by intros ?%C1.
Qed.

Lemma place_record t lv L up h pos q j x : tree_ok t lv -> lv = L :: up -> place L (h_id h) pos q j ->
  flat L !! q = Some x -> record_at t h pos = Some x.
Proof using.
  intros Ht -> (A & recs & B & p & -> & Hp & -> & -> & _) Hx.
  destruct (tree_node N max_record_len comp_fn key_ok t [] _ _ _ _ _ Ht) as (_ & Hn & _).
  unfold record_at. rewrite Hn. simpl. rewrite Nat2Z.id.
  rewrite flat_app, flat_cons, lookup_app_r in Hx by lia. simpl in Hx.
  rewrite lookup_app_l in Hx by lia. by replace (length (flat A) + p - length (flat A))%nat with p in Hx by lia.
Qed.

(** The records of the tree are in order. *)
Lemma elements_sorted t lv : tree_ok t lv -> sorted comp_fn (elements lv) /\ keys_ok key_ok (elements lv).
Proof using.
  intros Ht. destruct lv as [|L up]; [by destruct (to_top _ _ _ _ _ _ Ht)|].
  pose proof (tree_level N max_record_len _ _ t [] _ _ Ht) as HL. simpl. split.
  - apply (lo_sorted _ _ _ _ _ _ _ HL).
  - by eapply level_keys_ok.
Qed.

(** A key that differs from its floor is not in the list. *)
Lemma floor_absent l k q x : sorted comp_fn l -> keys_ok key_ok l -> key_ok k -> l !! q = Some x ->
  floor_pos comp_fn l k q -> comp_fn x k <> 0 -> Forall (fun y => comp_fn y k <> 0) l.
Proof using KeyOrder0.
  intros Hs Hk Hkey Hx [(x' & Hx' & Hle) Hhi] Hne. rewrite Hx in Hx'. injection Hx' as <-.
  apply Forall_lookup. intros i y Hy E. pose proof (Forall_lookup_1 _ _ _ _ Hk Hy) as Hky.
  destruct (Nat.lt_trichotomy i q) as [Hlt|[->|Hgt]]; [|congruence|].
  - pose proof (sorted_lookup comp_fn _ _ _ _ _ Hs Hy Hx Hlt) as H. destruct Hle as [Hle|]; [|lia].
    pose proof (lt_le_trans comp_fn key_ok y x k Hky (Forall_lookup_1 _ _ _ _ Hk Hx) Hkey H Hle) as H'.
    unfold BtreeInv.lt in H'. lia.
  - pose proof (Hhi i y Hgt Hy) as H. apply (ko_sym k y Hkey Hky) in H. lia.
Qed.

(** A value changed in place: the key stays, and so does the length. *)
Lemma wp_set_record t lv h pos q x x' (f : bnode -> bnode) : tree_ok t lv -> leaf_place lv h pos q ->
  elements lv !! q = Some x -> same_key x x' -> record_ok x' -> rlen x' = rlen x ->
  (forall n, f n = set_recs n (<[Z.to_nat pos := x']> (bn_recs n))) ->
  wp (update h f) t (ok (fun _ t' => (calm t -> calm t') /\
    (exists ns, t' = set_nodes t ns) /\
    exists lv', tree_ok t' lv' /\ elements lv' = <[q := x']> (elements lv) /\ leaf_place lv' h pos q /\ all_ids lv' = all_ids lv)).
Proof using KeyOrder0.
  intros Ht (L & up & j & -> & Hpl) Hx Hk Hok Hlen Hf. simpl in Hx.
  apply level_place_split in Hpl as (A & q1 & u & q2 & B & -> & -> & Efl & Eq & Ej).
  assert (partial N max_record_len comp_fn key_ok 0 t [] ((A ++ (h_id h, q1 ++ u :: q2) :: B) :: up)) as Hp
    by (by apply tree_partial).
  destruct (partial_node _ _ _ _ _ _ [] _ _ _ _ _ Hp) as (_ & Hn & [Hne Hroom Hv _] & [_ _ Hs]).
  rewrite Efl, list_lookup_middle in Hx by done. injection Hx as ->.
  assert (key_ok x) as Hkx by (apply Forall_app in Hv as [_ [[] _]%Forall_cons]; done).
  assert (forall y, comp_fn x y = comp_fn x' y /\ comp_fn y x = comp_fn y x') as Hc by (intros; by apply ko_same).
  assert (node_ok N max_record_len key_ok 0 (q1 ++ x' :: q2)) as Hn'.
  { constructor; [by destruct q1| | |simpl; lia].
    - rewrite room_app in *. simpl in *. lia.
    - apply Forall_app in Hv as [Hv1 [[H1 H2 H3 H4] Hv2]%Forall_cons]. apply Forall_app. split; [done|].
      apply Forall_cons. split; [|done]. destruct Hk as [Ek ?]. constructor; [done|lia|lia|].
      by apply (ko_key x). }
  assert (sorted comp_fn (flat A ++ (q1 ++ x' :: q2) ++ flat B)) as Hs'.
  { rewrite Efl in Hs. rewrite <- app_assoc. simpl. rewrite app_assoc.
    by apply (sorted_same_key comp_fn key_ok _ x x' _ (same_key_sym _ _ Hk) Hkx). }
  assert (forall y, comp_fn y (first_rec (q1 ++ x' :: q2)) = comp_fn y (first_rec (q1 ++ x :: q2))) as Hf1.
  { intros y. destruct q1; [|done]. cbn. symmetry. apply Hc. }
  pose proof (partial_update _ _ _ _ _ _ _ _ _ _ _ _ _ Hp Hn' Hs' Hf1) as Hp'.
  apply partial_tree in Hp'; [|done]. apply tree_ok_cut in Hp'. simpl in Hp'.
  unfold wp, update, node, bind, gets, ret, modify. rewrite Hn, Hf, Nat2Z.id. cbn [fst snd ok].
  split; [done|]. split; [by eexists|]. unfold set_recs. cbn [bn_recs bn_id bn_type bn_prev bn_next].
  rewrite mid_insert by done. eexists. split; [exact Hp'|]. split; [|split].
  - simpl. rewrite Efl, mid_insert by done. rewrite flat_app, flat_cons. simpl. by rewrite <- !app_assoc.
  - eexists _, up, (length A). split; [done|]. exists A, (q1 ++ x' :: q2), B, (length q1).
    split; [done|]. split; [len|]. split; [done|]. split; [len|done].
  - unfold all_ids, ids. cbn [app map concat]. by rewrite !map_app.
Qed.

(** What the floor says of the insertion: the key is there, or its place is
    behind the floor. *)
Lemma floor_insert l r q x : sorted comp_fn l -> keys_ok key_ok l -> key_ok r -> le (first_rec l) r ->
  l !! q = Some x -> floor_pos comp_fn l r q -> comp_fn x r <> 0 ->
  sorted comp_fn (behind q r l) /\ Forall (fun y => comp_fn y r <> 0) l.
Proof using KeyOrder0.
  intros Hs Hk Hr Hfirst Hx [(y & Hy & Hle) Hhi] Hne. rewrite Hx in Hy. injection Hy as <-.
  assert (key_ok x) as Hkx by (by eapply Forall_lookup_1).
  assert (lt x r) as Hlt.
  { assert (le x r) as H; [|unfold BtreeInv.le, BtreeInv.lt in *; lia].
    destruct Hle as [|Hq]; [done|]. rewrite Hq in Hx. destruct l; [done|]. simpl in *. by simplify_eq. }
  rewrite <- (take_drop_middle l q x Hx) in Hs, Hk |- *.
  pose proof (lookup_lt_Some _ _ _ Hx) as Hql. set (l1 := take q l) in *. set (l2 := drop (S q) l) in *.
  assert (length l1 = q) as Hl1 by (unfold l1; rewrite length_take; lia).
  assert (Forall (lt r) l2) as Hl2.
  { apply Forall_lookup. intros i z Hz. unfold l2 in Hz. rewrite lookup_drop in Hz. eapply Hhi; [|exact Hz]. lia. }
  apply SSorted_app in Hs as (Hs1 & [Hs2 Hx2]%SSorted_cons & Hs12).
  apply Forall_app in Hk as [Hk1 [_ Hk2]%Forall_cons].
  assert (Forall (fun z => lt z r) l1) as Hl1r.
  { apply Forall_forall. intros z Hz. rewrite Forall_forall in Hs12. specialize (Hs12 z Hz).
    apply Forall_cons in Hs12 as [Hzx _]. unfold keys_ok in *. rewrite Forall_forall in Hk1.
    apply (lt_trans comp_fn key_ok z x r); auto. }
  split.
  - rewrite <- Hl1, behind_mid. apply SSorted_app. split; [done|]. split.
    + apply SSorted_cons. split; [by apply SSorted_cons|]. by apply Forall_cons.
    + apply Forall_forall. intros z Hz. rewrite Forall_forall in Hs12, Hl1r. specialize (Hs12 z Hz).
      apply Forall_cons in Hs12 as [Hzx Hzl]. apply Forall_cons. split; [done|]. apply Forall_cons. auto.
  - apply Forall_app. split; [|apply Forall_cons; split; [done|]].
    + eapply Forall_impl; [exact Hl1r|]. unfold BtreeInv.lt. simpl. intros; lia.
    + apply Forall_forall. intros z Hz E. unfold keys_ok in *. rewrite Forall_forall in Hl2, Hk2.
      pose proof (proj1 (ko_sym r z Hr (Hk2 z Hz)) (Hl2 z Hz)). lia.
Qed.

Lemma wp_insert t lv r (P : outcome unit -> btree -> Prop) :
  node_size_ok N -> max_record_len + 31 <= N / 2 ->
  tree_ok t lv -> calm t -> rec_valid r -> le (first_rec (elements lv)) r ->
  btree_height t + 1 < 2 ^ 16 -> 2 * btree_height t <= free_num t ->
  (Exists (fun x => comp_fn x r = 0) (elements lv) -> forall t', t' ≈ t -> calm t' -> P (Err (- EEXIST)) t') ->
  (Forall (fun x => comp_fn x r <> 0) (elements lv) -> forall t' lv', calm t' -> tree_ok t' lv' ->
    elements lv' ≡ₚ r :: elements lv -> account t' lv' = account t lv -> P (Ok tt) t') ->
  wp (insert r) t P.
Proof using KeyOrder0.
  intros HN Hmax Ht Hc Hr Hfirst Hh Hroom Hex Hok.
  destruct (to_top _ _ _ _ _ _ Ht) as [tr Htop]. destruct lv as [|L up]; [done|].
  unfold emmcfs_btree_insert, btree_insert_at_level, EMMCFS_BTREE_LEAF_LVL.
  apply wp_bind_ok, wp_kmalloc_ok; [done|]. intros t1 S1 C1.
  assert (tree_ok t1 (L :: up)) as Ht1 by (by eapply tree_ok_sim; [symmetry|]).
  apply wp_bind. eapply wp_mono; [apply (wp_find_path N max_record_len comp_fn key_ok);
    [exact Ht1|apply Hr|simpl; lia]|].
  intros [path|e|] t2 H; [|by destruct H as [_ []]|by destruct H as [[] _]]. destruct H as (S2 & C2 & q & Hq). simpl in Hq.
  specialize (C2 C1). destruct path as [|[h pos] path]; [done|].
  assert (tree_ok t2 (L :: up)) as Ht2 by (by eapply tree_ok_sim; [symmetry|]).
  destruct (path_record t2 (L :: up) [] L true r path h pos q Ht2 eq_refl Hq) as (x & Hx & Hat & Hfl).
  pose proof Hq as (Hrw & _ & j & Hpl & Hrest).
  pose proof Hpl as (A & recs & B & p & EL & Hp & Epos & _ & _). subst pos.
  rewrite EL in Ht2. destruct (tree_node N max_record_len comp_fn key_ok t2 [] _ _ _ _ _ Ht2) as (_ & Hn & _).
  rewrite <- EL in Ht2. unfold record_at in Hat. rewrite Hn in Hat. simpl in Hat. rewrite Nat2Z.id in Hat.
  eapply wp_node; [exact Hn|]. eapply get_rec_ok; [exact Hat| |].
  { pose proof (tree_level N max_record_len comp_fn key_ok t2 [] _ _ Ht2) as HL.
    pose proof (lo_nodes _ _ _ _ _ _ _ HL) as Hns. rewrite EL in Hns.
    apply Forall_app in Hns as [_ [Hns _]%Forall_cons]. eapply (node_count N max_record_len key_ok); eauto. }
  pose proof (tree_level N max_record_len comp_fn key_ok t2 [] _ _ Ht2) as HL.
  pose proof (lo_sorted _ _ _ _ _ _ _ HL) as Hs. pose proof (level_keys_ok _ _ _ _ _ _ _ HL) as Hk.
  destruct (Z.eqb_spec (comp_fn x r) 0) as [E0|Hne].
  - apply wp_fail. apply Hex; [|by rewrite S2|done]. apply Exists_exists. exists x. split; [|done].
    apply list_elem_of_lookup. eauto.
  - destruct (floor_insert _ _ _ _ Hs Hk (rv_key _ _ _ Hr) Hfirst Hx Hfl Hne) as [Hsb Hall].
    apply wp_bind_ok, wp_kmalloc_ok; [done|]. intros t3 S3 C3.
    apply wp_bind_ok, wp_kmalloc_ok; [done|]. intros t4 S4 C4.
    assert (t4 ≈ t) as S by (by rewrite S4, S3, S2).
    apply wp_BUG_ON. { rewrite (ro_len _ (rv_ok _ _ _ Hr)), Z.gtb_ltb. apply Z.ltb_ge. apply Hr. }
    assert (tree_ok t4 (L :: up)) as Ht4 by (eapply tree_ok_sim; [symmetry; exact S|done]).
    eapply (wp_mono _ _ (ok (fun _ t' => P (Ok tt) t'))).
    + eapply (wp_insert_loop N max_record_len log_pages_per_node comp_fn key_ok mounted beyond grow 0 HN Hmax
        up L [] _ q r None t4); try done.
      * by apply tree_partial.
      * eapply path_ok_pos. split; [exact Hrw|]. split; [exact Hfl|]. exists j. split; [exact Hpl|exact Hrest].
      * by rewrite (sim_height _ _ S).
      * rewrite (sim_num _ _ S). pose proof (to_height _ _ _ _ _ _ Ht) as Eh. simpl in Eh. lia.
      * split; [done|]. split; [simpl; lia|done].
      * intros t' lv' C' T' El _ _ Hl. apply tree_ok_cut in T'. apply (Hok Hall t' lv' C' T').
        -- rewrite (El eq_refl). simpl. unfold behind. rewrite <- Permutation_middle. by rewrite take_drop.
        -- etrans; [exact Hl|]. by apply account_sim.
    + intros [[]|e|] t'; simpl; [done|done|done].
Qed.

(** A tree that a removal leaves well-formed: something is left in it, no index
    node has a single record, and the root has room for an index record per
    level below it, as the bitmap has ids for the nodes that those split. *)
Record removable (t : btree) lv : Prop := {
  rm_two : (2 <= length (elements lv))%nat;
  rm_bushy : bushy (tail lv);
  rm_root : roomy N max_record_len (length (tail lv)) (tail lv);
  rm_num : Z.of_nat (length (tail lv)) * (Z.of_nat (length (tail lv)) + 1) <= free_num t;
  rm_height : btree_height t + 1 < 2 ^ 16
}.

Lemma wp_remove address levels t lv key (P : outcome unit -> btree -> Prop) :
  node_size_ok N -> max_record_len + 31 <= N / 2 -> big_nodes N max_record_len ->
  tree_ok t lv -> calm t -> key_ok key -> removable t lv -> (length lv <= levels)%nat ->
  (Forall (fun x => comp_fn x key <> 0) (elements lv) -> forall t', t' ≈ t -> calm t' -> P (Err (- ENOENT)) t') ->
  (forall l1 r l2, elements lv = l1 ++ r :: l2 -> comp_fn r key = 0 -> forall t' lv', calm t' -> tree_ok t' lv' ->
    elements lv' = l1 ++ l2 -> account t' lv' = account t lv -> P (Ok tt) t') ->
  wp (emmcfs_btree_remove N max_record_len log_pages_per_node comp_fn mounted beyond grow address levels key) t P.
Proof using KeyOrder0.
  intros HN Hmax Hbig Ht Hc Hkey [Htwo Hb Hroot Hnum Hh] Hlevels Hno Hyes.
  destruct lv as [|L up]; [by destruct (to_top _ _ _ _ _ _ Ht)|]. simpl in Htwo, Hb, Hroot, Hnum, Hlevels.
  destruct (elements_sorted _ _ Ht) as [Hs Hk]. simpl in Hs, Hk.
  assert (Forall (fun x => comp_fn x key <> 0) (flat L) \/
    exists l1 r l2, flat L = l1 ++ r :: l2 /\ comp_fn r key = 0) as [Hall|(l1 & r & l2 & E & E0)].
  { destruct (decide (Exists (fun x => comp_fn x key = 0) (flat L))) as [He|Hn]; [right|left].
    - apply Exists_exists in He as (r & Hr & E). apply list_elem_of_split in Hr as (l1 & l2 & ->). by exists l1, r, l2.
    - apply Forall_forall. intros x Hx E. apply Hn, Exists_exists. eauto. }
  - destruct levels as [|levels]; [lia|]. unfold emmcfs_btree_remove. cbn [btree_remove]. apply wp_gets.
    pose proof (to_height _ _ _ _ _ _ Ht) as Eh. simpl in Eh.
    apply wp_BUG_ON; [rewrite Z.gtb_ltb; apply Z.ltb_ge; lia|].
    apply wp_bind. eapply wp_mono; [apply (wp_find t (L :: up) key true Ht Hkey)|].
    intros [[h pos]|e|] t1 H; [|by destruct H as [_ []]|by destruct H as [[] _]].
    destruct H as (S1 & C1 & q & x & Hx & Hat & Hfl & _ & Hpl).
    assert (tree_ok t1 (L :: up)) as Ht1 by (eapply tree_ok_sim; [symmetry; exact S1|done]).
    assert (record_at t1 h pos = Some x) as Hat1 by (unfold record_at in *; by rewrite (sim_nodes _ _ S1)).
    destruct (record_at_node t1 (L :: up) h pos q x HN Ht1 Hpl Hat1) as (n & Hn & Hi & Hlen & Epos).
    rewrite <- Epos. eapply wp_node; [exact Hn|]. eapply get_rec_ok; [exact Hi|done|].
    rewrite Forall_forall in Hall. rewrite (proj2 (Z.eqb_neq (comp_fn x key) 0)) by (apply Hall, list_elem_of_lookup; eauto).
    simpl. apply wp_fail, Hno; [by apply Forall_forall|done|auto].
  - eapply wp_mono; [apply (wp_btree_remove N max_record_len log_pages_per_node comp_fn key_ok mounted beyond grow address
      HN Hmax Hbig up levels 0 [] L key (length l1) t
      (fun _ => removed N max_record_len comp_fn key_ok [] L (length l1) (account t (L :: up))))|].
    + constructor; try done.
      * by apply tree_ok_cut.
      * rewrite E. rewrite E in Hs, Hk. by apply (floor_eq comp_fn key_ok).
      * simpl. exists r. split; [rewrite E; by apply list_lookup_middle|done].
      * intros _. rewrite E, delete_middle. simpl in Htwo. rewrite E, length_app in Htwo. simpl in Htwo.
        intros E2. apply (f_equal length) in E2. rewrite length_app in E2. simpl in E2. lia.
    + done.
    + simpl. lia.
    + done.
    + intros [[]|e|] t' H; [|done|done]. destruct H as (C' & lv' & T' & El & Hl). apply (Hyes l1 r l2 E E0 t' lv'); try done.
      by rewrite El, E, delete_middle.
Qed.

End spec.

(** ** A tree of one leaf *)
Definition one_leaf (recs : list record) : btree :=
  Btree 1 1 [true; true; false; false; false; false] 2 4 ∅ ∅
    {[1 := Bnode 1 EMMCFS_NODE_LEAF 0 0 recs]} 6 [].

Lemma one_leaf_ok N max_record_len comp_fn key_ok recs :
  recs <> [] -> 27 + room recs <= N -> Forall (rec_valid max_record_len key_ok) recs -> sorted comp_fn recs ->
  tree_ok N max_record_len comp_fn key_ok (one_leaf recs) [[(1, recs)]].
Proof.
  intros Hne Hroom Hv Hs. constructor.
  - constructor.
    + done.
    + split; [by vm_compute|]. split; [|done]. intros j Hj. simpl in Hj.
      assert (j = 0 \/ j = 1) as [->| ->] by lia; done.
    + done.
    + intros id [Hp Hu]. destruct (decide (id = 1)) as [->|H1]; [by eexists|]. exfalso. simpl in Hu.
      destruct (decide (id < 6)) as [Hlt|]; [|by rewrite lookup_ge_None_2 in Hu by (simpl; lia)].
      assert (id = 2 \/ id = 3 \/ id = 4 \/ id = 5) as [->|[->|[->| ->]]] by lia; done.
  - split; [|done]. constructor.
    + done.
    + apply Forall_singleton. constructor; [done|done|done|simpl; lia].
    + rewrite flat_cons. simpl. by rewrite app_nil_r.
  - by exists recs.
  - done.
  - apply NoDup_singleton.
  - apply Forall_singleton. by split.
  - by vm_compute.
Qed.
