(* ===== verification/BtreeTheorems.v ===== *)
(** * The properties of the B-tree

    Search and insertion for any comparison function that orders the keys
    ([KeyOrder]), the walk over the records, and what the code does at the
    edges of the tree. *)

From S2P Require Import Prelude Monad BnodeBytes BnodeRepr BnodePool BnodePoolProofs Btree BtreeInv BtreeFind BtreeInsert BtreeUpdateKey BtreeRemove BtreeSpec BnodeTheorems.
Open Scope Z_scope.

(** ** Search and insertion *)
Section properties.
Context (N max_record_len log_pages_per_node : Z) (comp_fn : record -> record -> Z) (key_ok : record -> Prop)
  `{!KeyOrder comp_fn key_ok} (mounted : bool) (beyond : Z -> bool) (grow : Z -> Z -> Z).
Abbreviation tree_ok := (tree_ok N max_record_len comp_fn key_ok).
Abbreviation rec_valid := (rec_valid max_record_len key_ok).
Abbreviation find := (emmcfs_btree_find comp_fn mounted beyond grow).
Abbreviation insert := (emmcfs_btree_insert N max_record_len log_pages_per_node comp_fn mounted beyond grow).
Abbreviation remove address levels := (emmcfs_btree_remove N max_record_len log_pages_per_node comp_fn mounted beyond grow address levels).
Abbreviation le := (le comp_fn).
Abbreviation lt := (lt comp_fn).

(** C16: [emmcfs_btree_find] gives the last record that is not after the key,
    the first record of the tree if every record is after it, and leaves the
    tree as it was; a failure is one of the kernel, and stops it only once the
    mount is finished. *)
Theorem emmcfs_btree_find_correct t lv key rw :
  tree_ok t lv -> key_ok key ->
  match find key rw t with
  | (Ok (h, pos), t') => t' ≈ t /\
      exists l1 r l2, elements lv = l1 ++ r :: l2 /\ record_at t h pos = Some r /\
        (le r key \/ l1 = []) /\ Forall (lt key) l2
  | (Err _, t') => t' ≈ t /\ ~ calm t
  | (Bug, _) => ~ calm t /\ mounted = true
  end.
Proof using KeyOrder0.
  intros Ht Hkey. pose proof (wp_find N max_record_len comp_fn key_ok mounted beyond grow t lv key rw Ht Hkey) as H. unfold wp in H.
  destruct (find key rw t) as [[[h pos]|e|] t']; simpl in H; try done.
  destruct H as (St & _ & q & x & Hx & Hat & [(y & Hy & Hle) Hhi] & _). split; [done|].
  rewrite Hy in Hx. injection Hx as ->.
  exists (take q (elements lv)), x, (drop (S q) (elements lv)).
  split; [by rewrite take_drop_middle|]. split; [done|]. split.
  - destruct Hle as [| ->]; [by left|right]. done.
  - apply Forall_lookup. intros i z Hz. rewrite lookup_drop in Hz. eapply Hhi; [|exact Hz]. lia.
Qed.

(** C2: [emmcfs_btree_insert] adds a record whose key is not below the first
    key of the tree: it fails with [-EEXIST] and changes nothing when the key
    is there, and otherwise returns 0 and leaves a well-formed tree with the
    records of the old one and the new record, in the order of the keys,
    whatever nodes it has to split.  The bitmap must have two free ids per
    level. *)
Theorem emmcfs_btree_insert_correct t lv r :
  node_size_ok N -> max_record_len + 31 <= N / 2 ->
  tree_ok t lv -> calm t -> rec_valid r -> le (first_rec (elements lv)) r ->
  btree_height t + 1 < 2 ^ 16 -> 2 * btree_height t <= free_num t ->
  (Exists (fun x => comp_fn x r = 0) (elements lv) /\
   exists t', insert r t = (Err (- EEXIST), t') /\ t' ≈ t) \/
  (Forall (fun x => comp_fn x r <> 0) (elements lv) /\
   exists t' lv', insert r t = (Ok tt, t') /\ tree_ok t' lv' /\ elements lv' ≡ₚ r :: elements lv).
Proof using KeyOrder0.
  intros HN Hmax Ht Hc Hr Hf Hh Hroom.
  pose proof (wp_insert N max_record_len log_pages_per_node comp_fn key_ok mounted beyond grow t lv r (fun o t' =>
    Exists (fun x => comp_fn x r = 0) (elements lv) /\ o = Err (- EEXIST) /\ t' ≈ t \/
    Forall (fun x => comp_fn x r <> 0) (elements lv) /\ o = Ok tt /\
      exists lv', tree_ok t' lv' /\ elements lv' ≡ₚ r :: elements lv)
    HN Hmax Ht Hc Hr Hf Hh Hroom) as H.
  unfold wp in H. destruct (insert r t) as [o t'] eqn:E. simpl in H.
  destruct H as [(H1 & -> & H2)|(H1 & -> & lv' & H2 & H3)].
  - intros He t1 S1 _. left. done.
  - intros Ha t1 lv1 _ T1 P1. right. split; [done|]. split; [done|]. by exists lv1.
  - left. split; [done|]. by exists t'.
  - right. split; [done|]. by exists t', lv'.
Qed.

(** A record that was inserted is what a search for its key finds. *)
Theorem insert_find_roundtrip t lv r rw :
  node_size_ok N -> max_record_len + 31 <= N / 2 ->
  tree_ok t lv -> calm t -> rec_valid r -> le (first_rec (elements lv)) r ->
  btree_height t + 1 < 2 ^ 16 -> 2 * btree_height t <= free_num t ->
  Forall (fun x => comp_fn x r <> 0) (elements lv) ->
  exists t1 t2 h pos, insert r t = (Ok tt, t1) /\ find r rw t1 = (Ok (h, pos), t2) /\
    record_at t2 h pos = Some r.
Proof using KeyOrder0.
  intros HN Hmax Ht Hc Hr Hf Hh Hroom Hnew.
  pose proof (wp_insert N max_record_len log_pages_per_node comp_fn key_ok mounted beyond grow t lv r (fun o t' => o = Ok tt /\ calm t' /\
    exists lv', tree_ok t' lv' /\ elements lv' ≡ₚ r :: elements lv) HN Hmax Ht Hc Hr Hf Hh Hroom) as H.
  unfold wp in H. destruct (insert r t) as [o t1] eqn:E. simpl in H.
  destruct H as (-> & C1 & lv' & T1 & P1).
  { intros He. exfalso. apply Exists_exists in He as (x & Hx & E0). rewrite Forall_forall in Hnew.
    by apply (Hnew x Hx). }
  { intros _ t' lv' C' T' P'. split; [done|]. split; [done|]. by exists lv'. }
  pose proof (wp_find N max_record_len comp_fn key_ok mounted beyond grow t1 lv' r rw T1 (rv_key _ _ _ Hr)) as H2. unfold wp in H2.
  destruct (find r rw t1) as [[[h pos]|e|] t2] eqn:E2; simpl in H2; [|by destruct H2|by destruct H2].
  destruct H2 as (S2 & _ & q & x & Hx & Hat & [(y & Hy & Hle) Hhi] & _). rewrite Hx in Hy. injection Hy as <-.
  exists t1, t2, h, pos. split; [done|]. split; [done|].
  unfold record_at in *. rewrite (sim_nodes _ _ S2), Hat. f_equal.
  assert (r ∈ elements lv') as Hin by (rewrite P1; apply elem_of_cons; by left).
  apply list_elem_of_lookup in Hin as [i Hi].
  destruct (to_top _ _ _ _ _ _ T1) as [tr Htop]. destruct lv' as [|L up]; [done|]. simpl in *.
  pose proof (tree_level N max_record_len comp_fn key_ok t1 [] _ _ T1) as HL.
  pose proof (lo_sorted _ _ _ _ _ _ _ HL) as Hs. pose proof (level_keys_ok _ _ _ _ _ _ _ HL) as Hk.
  pose proof (Forall_lookup_1 _ _ _ _ Hk Hx) as Hkx. pose proof (rv_key _ _ _ Hr) as Hkr.
  destruct (Nat.lt_trichotomy i q) as [Hlt|[->|Hgt]]; [|congruence|].
  - exfalso. pose proof (sorted_lookup comp_fn _ _ _ _ _ Hs Hi Hx Hlt) as H.
    destruct Hle as [Hle|Hq]; [|lia].
    pose proof (lt_le_trans comp_fn key_ok r x r Hkr Hkx Hkr H Hle) as H'. unfold BtreeInv.lt in H'.
    rewrite ko_refl in H' by done. lia.
  - exfalso. pose proof (Hhi i r Hgt Hi) as H. unfold BtreeInv.lt in H. rewrite ko_refl in H by done. lia.
Qed.

(** [emmcfs_get_next_btree_record] walks over all the records of the tree
    in the order of their keys, from node to node, and ends with [-ENOENT]. *)
Theorem emmcfs_get_next_btree_record_correct t lv L up id pos q j rw :
  node_size_ok N -> tree_ok t lv -> lv = L :: up -> place L id pos q j ->
  match emmcfs_get_next_btree_record mounted beyond grow (Handle id rw) pos t with
  | (Ok (h, pos', r), t') => t' ≈ t /\ elements lv !! S q = Some r /\
      exists j', place L (h_id h) pos' (S q) j'
  | (Err e, t') => t' ≈ t /\ (calm t -> e = - ENOENT /\ S q = length (elements lv))
  | (Bug, _) => ~ calm t /\ mounted = true
  end.
Proof using.
  intros HN Ht E Hpl. pose proof (wp_next_record N max_record_len comp_fn key_ok mounted beyond grow t lv L up id pos q j rw HN Ht E Hpl) as H.
  unfold wp in H. destruct (emmcfs_get_next_btree_record _ _ _ _ _ t) as [[[[h pos'] r]|e|] t']; [| |done].
  - by destruct H as (H1 & _ & H2).
  - destruct H as [H1 H2]. split; [done|]. by intros (_ & ?)%H2.
Qed.

(** C3: [emmcfs_btree_remove] fails with [-ENOENT] and changes nothing when no
    record has the key; otherwise it returns 0 and leaves a well-formed tree
    with all the records but that one, whatever index records it has to
    replace, nodes to merge and levels to give up.  At least one record must be
    left, every index node must have two records, and the root and the bitmap
    room for an index record per level ([removable]); [levels] bounds the
    recursion. *)
Theorem emmcfs_btree_remove_correct address levels t lv key :
  node_size_ok N -> max_record_len + 31 <= N / 2 -> big_nodes N max_record_len ->
  tree_ok t lv -> calm t -> key_ok key -> removable N max_record_len t lv -> (length lv <= levels)%nat ->
  (Forall (fun x => comp_fn x key <> 0) (elements lv) /\
   exists t', remove address levels key t = (Err (- ENOENT), t') /\ t' ≈ t) \/
  (exists l1 r l2, elements lv = l1 ++ r :: l2 /\ comp_fn r key = 0 /\
   exists t' lv', remove address levels key t = (Ok tt, t') /\ tree_ok t' lv' /\ elements lv' = l1 ++ l2).
Proof using KeyOrder0.
  intros HN Hmax Hbig Ht Hc Hkey Hrm Hlevels.
  pose proof (wp_remove N max_record_len log_pages_per_node comp_fn key_ok mounted beyond grow address levels t lv key
    (fun o t' => Forall (fun x => comp_fn x key <> 0) (elements lv) /\ o = Err (- ENOENT) /\ t' ≈ t \/
      exists l1 r l2, elements lv = l1 ++ r :: l2 /\ comp_fn r key = 0 /\ o = Ok tt /\
        exists lv', tree_ok t' lv' /\ elements lv' = l1 ++ l2) HN Hmax Hbig Ht Hc Hkey Hrm Hlevels) as H.
  unfold wp in H. destruct (emmcfs_btree_remove _ _ _ _ _ _ _ _ _ _ t) as [o t'] eqn:E. simpl in H.
  destruct H as [(H1 & -> & H2)|(l1 & r & l2 & H1 & H2 & -> & lv' & H3 & H4)].
  - intros Ha t1 S1 _. by left.
  - intros l1 r l2 El E0 t1 lv1 _ T1 E1. right. exists l1, r, l2. split; [done|]. split; [done|]. split; [done|]. by exists lv1.
  - left. split; [done|]. by exists t'.
  - right. exists l1, r, l2. split; [done|]. split; [done|]. by exists t', lv'.
Qed.
End properties.

(** ** A tree of one full node *)
(** Records are compared by the first byte behind the lengths. *)
Definition sample_cmp (r s : record) : Z :=
  default 0 (head (key_bytes r)) - default 0 (head (key_bytes s)).

#[export] Instance sample_order : KeyOrder sample_cmp (fun _ => True).
Proof.
  split; unfold sample_cmp; try done; try lia. intros r s x [_ E]. by rewrite E.
Qed.

Definition full_recs : list record := map sample_record [1; 3; 5; 7].
Definition full_tree : btree := one_leaf full_recs.

Lemma sample_valid k : rec_valid 33 (fun _ => True) (sample_record k).
Proof. constructor; [apply sample_ok|by vm_compute|by vm_compute|done]. Qed.

Lemma full_tree_ok : tree_ok 128 33 sample_cmp (fun _ => True) full_tree [[(1, full_recs)]].
Proof.
  apply one_leaf_ok; [done|by vm_compute| |].
  - repeat (apply Forall_cons; split; [apply sample_valid|]). done.
  - repeat (apply SSorted_cons; split; [|repeat (apply Forall_cons; split; [by vm_compute|]); done]). constructor.
Qed.

Abbreviation sample_find := (emmcfs_btree_find sample_cmp true (fun _ => false) Z.max).
Abbreviation sample_insert := (emmcfs_btree_insert 128 33 0 sample_cmp true (fun _ => false) Z.max).

Lemma emmcfs_btree_find_correct_witness :
  match sample_find (sample_record 4) false full_tree with
  | (Ok (h, pos), t') => t' ≈ full_tree /\
      exists l1 r l2, full_recs = l1 ++ r :: l2 /\ record_at full_tree h pos = Some r /\
        (le sample_cmp r (sample_record 4) \/ l1 = []) /\ Forall (lt sample_cmp (sample_record 4)) l2
  | (Err _, t') => t' ≈ full_tree /\ ~ calm full_tree
  | (Bug, _) => ~ calm full_tree /\ true = true
  end.
Proof.
  exact (emmcfs_btree_find_correct 128 33 sample_cmp (fun _ => True) true (fun _ => false) Z.max
    full_tree [[(1, full_recs)]] (sample_record 4) false full_tree_ok I).
Defined.

(** The root is full: it is split and the tree grows. *)
Lemma emmcfs_btree_insert_correct_witness :
  exists t', fst (sample_insert (sample_record 4) full_tree) = Ok tt /\
    t' = snd (sample_insert (sample_record 4) full_tree) /\ btree_height t' = 2 /\
    exists lv', tree_ok 128 33 sample_cmp (fun _ => True) t' lv' /\
      elements lv' ≡ₚ map sample_record [4; 1; 3; 5; 7].
Proof.
  eexists. split; [by vm_compute|]. split; [reflexivity|]. split; [by vm_compute|].
  destruct (emmcfs_btree_insert_correct 128 33 0 sample_cmp (fun _ => True) true (fun _ => false) Z.max
    full_tree [[(1, full_recs)]] (sample_record 4)) as [(_ & t' & E & _)|(_ & t' & lv' & E & H1 & H2)].
  - unfold node_size_ok. lia.
  - by vm_compute.
  - exact full_tree_ok.
  - constructor.
  - apply sample_valid.
  - by vm_compute.
  - simpl. lia.
  - simpl. lia.
  - exfalso. apply (f_equal fst) in E. revert E. by vm_compute.
  - rewrite E. by exists lv'.
Defined.

Lemma insert_find_roundtrip_witness :
  exists t1 t2 h pos, sample_insert (sample_record 4) full_tree = (Ok tt, t1) /\
    sample_find (sample_record 4) false t1 = (Ok (h, pos), t2) /\ record_at t2 h pos = Some (sample_record 4).
Proof.
  apply (insert_find_roundtrip 128 33 0 sample_cmp (fun _ => True) true (fun _ => false) Z.max
    full_tree [[(1, full_recs)]] (sample_record 4) false).
  - unfold node_size_ok. lia.
  - by vm_compute.
  - exact full_tree_ok.
  - constructor.
  - apply sample_valid.
  - by vm_compute.
  - simpl. lia.
  - simpl. lia.
  - simpl. repeat (apply Forall_cons; split; [by vm_compute|]). done.
Defined.

Lemma emmcfs_get_next_btree_record_correct_witness :
  exists h pos r t', emmcfs_get_next_btree_record true (fun _ => false) Z.max (Handle 1 false) 0 full_tree = (Ok (h, pos, r), t') /\
    elements [[(1, full_recs)]] !! 1%nat = Some r.
Proof.
  pose proof (emmcfs_get_next_btree_record_correct 128 33 sample_cmp (fun _ => True) true (fun _ => false) Z.max
    full_tree [[(1, full_recs)]] [(1, full_recs)] [] 1 0 0 0 false) as H.
  do 4 eexists. split; [reflexivity|]. simpl in H. apply H.
  - unfold node_size_ok. lia.
  - exact full_tree_ok.
  - done.
  - exists [], full_recs, [], 0%nat. split; [done|]. split; [simpl; lia|done].
Defined.

(** ** A tree of two leaves *)
Definition two_leaves (r1 r2 : list record) : btree :=
  Btree 2 3 [true; true; true; true; false; false] 4 2 ∅ ∅
    (<[1 := Bnode 1 EMMCFS_NODE_LEAF 0 2 r1]> (<[2 := Bnode 2 EMMCFS_NODE_LEAF 1 0 r2]>
      {[3 := Bnode 3 EMMCFS_NODE_INDEX 0 0 [form_record (first_rec r1) 1; form_record (first_rec r2) 2]]})) 6 [].

Definition two_levels (r1 r2 : list record) : list (list (Z * list record)) :=
  [[(1, r1); (2, r2)]; [(3, [form_record (first_rec r1) 1; form_record (first_rec r2) 2])]].

Lemma sample_sorted l : StronglySorted Z.lt l -> sorted sample_cmp (map sample_record l).
Proof.
  induction 1 as [|k l Hs IH Hk]; [constructor|]. simpl. constructor; [done|].
  apply Forall_map. eapply Forall_impl; [exact Hk|]. intros j Hj. unfold lt, sample_cmp.
  change (default 0 (head (key_bytes (sample_record k)))) with k. change (default 0 (head (key_bytes (sample_record j)))) with j. lia.
Qed.

Definition pair_tree : btree := two_leaves (map sample_record [1; 3]) (map sample_record [5; 7]).

Lemma pair_tree_ok : tree_ok 276 33 sample_cmp (fun _ => True) pair_tree
  (two_levels (map sample_record [1; 3]) (map sample_record [5; 7])).
Proof.
  constructor.
  - constructor.
    + done.
    + split; [by vm_compute|]. split; [|done]. intros j Hj. simpl in Hj.
      assert (j = 0 \/ j = 1 \/ j = 2 \/ j = 3) as [->|[->|[->| ->]]] by lia; done.
    + done.
    + intros id [Hp Hu]. simpl in Hu. assert (id < 6) as Hlt.
      { apply lookup_lt_Some in Hu. simpl in Hu. lia. }
      assert (id = 1 \/ id = 2 \/ id = 3 \/ id = 4 \/ id = 5) as [->|[->|[->|[->| ->]]]] by lia; try done; by eexists.
  - assert (forall k, rec_valid 33 (fun _ => True) (sample_record k)) as Hv by apply sample_valid.
    assert (forall k id, rec_valid 33 (fun _ => True) (form_record (sample_record k) id)) as Hw.
    { intros k id. constructor; [apply form_record_ok; [apply sample_ok|by vm_compute]| | |done].
      - rewrite form_record_len by apply sample_ok. by vm_compute.
      - rewrite (proj1 (form_record_key (sample_record k) id (sample_ok k))). by vm_compute. }
    split; [|split; [|split; [|done]]].
    + constructor; [done| |by apply (sample_sorted [1; 3; 5; 7]); repeat constructor].
      repeat (apply Forall_cons; split; [constructor; [done|by vm_compute| |simpl; lia]|]); [..|done];
        (repeat (apply Forall_cons; split; [apply Hv|]); done).
    + repeat (apply Forall2_cons; split; [by vm_compute|]). constructor.
    + constructor; [done| |].
      * apply Forall_singleton. constructor; [done|by vm_compute| |].
        -- repeat (apply Forall_cons; split; [apply Hw|]). done.
        -- intros _. repeat (apply Forall_cons; split; [by vm_compute|]). done.
      * repeat (constructor; [|repeat (apply Forall_cons; split; [by vm_compute|]); done]). constructor.
  - eexists. reflexivity.
  - done.
  - vm_compute. repeat (apply NoDup_cons; split; [set_solver|]). apply NoDup_nil_2.
  - repeat (apply Forall_cons; split; [by split|]). constructor.
  - by vm_compute.
Qed.

(** The first record of the second leaf goes: its index record is replaced, the
    leaves are merged and the root gives way to the one that is left. *)
Lemma emmcfs_btree_remove_correct_witness :
  exists t', emmcfs_btree_remove 276 33 0 sample_cmp true (fun _ => false) Z.max (fun _ => 0) 2 (sample_record 5) pair_tree = (Ok tt, t') /\
    btree_height t' = 1 /\ exists lv', tree_ok 276 33 sample_cmp (fun _ => True) t' lv' /\
      elements lv' = map sample_record [1; 3; 7].
Proof.
  destruct (emmcfs_btree_remove_correct 276 33 0 sample_cmp (fun _ => True) true (fun _ => false) Z.max (fun _ => 0) 2
    pair_tree (two_levels (map sample_record [1; 3]) (map sample_record [5; 7])) (sample_record 5))
    as [[Hall _]|(l1 & r & l2 & E & E0 & t' & lv' & Er & T' & E')].
  - unfold node_size_ok. lia.
  - by vm_compute.
  - by vm_compute.
  - exact pair_tree_ok.
  - constructor.
  - done.
  - constructor; [simpl; lia| |by vm_compute|by vm_compute|by vm_compute].
    repeat constructor; simpl; lia.
  - simpl. lia.
  - exfalso. rewrite Forall_forall in Hall. apply (Hall (sample_record 5)); [|done].
    apply list_elem_of_lookup. by exists 2%nat.
  - exists t'. split; [exact Er|]. split.
    + apply (f_equal (fun p => btree_height (snd p))) in Er. simpl in Er. rewrite <- Er. by vm_compute.
    + exists lv'. split; [exact T'|]. rewrite E'.
      change (elements _) with (map sample_record [1; 3; 5; 7]) in E.
      assert (map sample_record [1; 3; 5; 7] !! length l1 = Some r) as Hr by (rewrite E; by apply list_lookup_middle).
      apply list_lookup_fmap_Some in Hr as (k & -> & Hk).
      assert (k = 5) as -> by (change (k - 5 = 0) in E0; lia).
      assert (length l1 = 2%nat) as El by (by destruct (length l1) as [|[|[|[|[]]]]]).
      apply (f_equal (delete 2%nat)) in E. rewrite <- El in E at 2. by rewrite delete_middle in E.
Defined.

(** ** At the edges of the tree *)

(** Records inserted and removed one after the other. *)
Fixpoint in_turn (f : record -> M unit) (l : list Z) : M unit :=
  match l with
  | [] => ret tt
  | k :: l => do_ f (sample_record k); in_turn f l
  end.

(** An index node may be left with a single record, when its neighbour is too
    full to be merged with it: the next removal below it finds no neighbour in
    [rebalance] and stops the kernel.  A tree of 121 records that were inserted
    in the order of their keys loses the first 68 of them; the removal of the
    next one stops, with 53 records left. *)
Theorem remove_below_single_child_stops :
  let keys n m := map Z.of_nat (seq n m) in
  let insert := emmcfs_btree_insert 276 33 0 sample_cmp true (fun _ => false) Z.max in
  let remove := emmcfs_btree_remove 276 33 0 sample_cmp true (fun _ => false) Z.max (fun _ => 0) 6 in
  let t0 := Btree 1 1 ([true; true] ++ replicate 60 false) 2 60 ∅ ∅
    {[1 := Bnode 1 EMMCFS_NODE_LEAF 0 0 [sample_record 1]]} 62 [] in
  let '(r1, t1) := in_turn insert (keys 2 120)%nat t0 in
  let '(r2, t2) := in_turn remove (keys 1 68)%nat t1 in
  r1 = Ok tt /\ r2 = Ok tt /\ btree_height t2 = 3 /\ fst (remove (sample_record 69) t2) = Bug.
Proof. by vm_compute. Qed.

(** A record whose key is before all others is not put in front of them:
    the insertion reports success and leaves the leaf out of order, and a
    search for the key gives another record.  The callers of the search expect
    the position -1 for a key below the first, which it never returns. *)
Theorem insert_below_first_is_lost :
  let t := one_leaf (map sample_record [5; 7]) in
  let '(r, t1) := sample_insert (sample_record 3) t in
  let '(f, t2) := sample_find (sample_record 3) false t1 in
  r = Ok tt /\ bn_recs <$> nodes t1 !! 1 = Some (map sample_record [5; 3; 7]) /\
  f = Ok (Handle 1 false, 0) /\ record_at t2 (Handle 1 false) 0 = Some (sample_record 5).
Proof. by vm_compute. Qed.

(** The removal of the only record of a tree stops the kernel: the empty
    root is destroyed and its key is then looked for one level above it. *)
Theorem remove_only_record_stops :
  let t := one_leaf [sample_record 5] in
  fst (emmcfs_btree_remove 128 33 0 sample_cmp true (fun _ => false) Z.max (fun _ => 0) 4 (sample_record 5) t) = Bug.
Proof. by vm_compute. Qed.

(** [emmcfs_verify_btree] stops at the first node that has no right
    neighbour, which the root never has: it reads the root and accepts any
    tree. *)
Theorem verify_accepts_any_tree mounted beyond grow t n fuel :
  pool_inv t -> calm t -> used t (root_bnode_id t) -> nodes t !! root_bnode_id t = Some n -> bn_next n = 0 ->
  exists t', emmcfs_verify_btree mounted beyond grow (S fuel) t = (Ok 0, t') /\ t' ≈ t.
Proof.
  intros Hp Hc Hu Hn Hnext.
  assert (wp (emmcfs_verify_btree mounted beyond grow (S fuel)) t (fun r t' => r = Ok 0 /\ t' ≈ t)) as H.
  { unfold emmcfs_verify_btree. apply wp_gets. eapply wp_try_ok.
    { apply (wp_get_ok _ _ _ _ _ _ (fun h t' => h = Handle (root_bnode_id t) false /\ t' ≈ t)); try done. }
    intros h t1 [-> S1]. cbn [verify_loop]. unfold emmcfs_push_query, emmcfs_pop_query. simpl.
    eapply wp_node; [simpl; rewrite (sim_nodes _ _ S1); exact Hn|]. rewrite Hnext. simpl. by apply wp_ret. }
  unfold wp in H. destruct (emmcfs_verify_btree _ _ _ _ t) as [r t']. simpl in H. destruct H as [-> H].
  by exists t'.
Qed.

Lemma verify_accepts_any_tree_witness :
  exists t', emmcfs_verify_btree true (fun _ => false) Z.max 1 full_tree = (Ok 0, t') /\ t' ≈ full_tree.
Proof.
  apply (verify_accepts_any_tree true (fun _ => false) Z.max full_tree
    (Bnode 1 EMMCFS_NODE_LEAF 0 0 full_recs) 0).
  - apply full_tree_ok.
  - constructor.
  - by split.
  - done.
  - done.
Defined.
