(* ===== verification/Exttree.v ===== *)
(** * The extents overflow tree (extents.c) and the orphan inodes (orphan.c)

    Extents of a file that do not fit in its inode are records of a B-tree,
    ordered by the inode number and the first logical block.  The records of
    orphan inodes, keys without an extent, are in the same tree under an inode
    number of their own.  The locks of the tree are not represented. *)

From S2P Require Import Prelude Data Monad Blocks BnodeBytes BnodeRepr BnodePool Btree.
Open Scope Z_scope.

(** ** Records *)
Definition EMMCFS_ORPHAN_INODES_INO : Z := 8.
Definition IBLOCK_DOES_NOT_MATTER : Z := 0xFFFFFFFF.
Definition IBLOCK_MAX_NUMBER : Z := 0xFFFFFFFE.
(** "ExtK" *)
Definition EMMCFS_EXTTREE_KEY_MAGIC : list Z := [0x45; 0x78; 0x74; 0x4B].

Definition sizeof_exttree_key : Z := 28.
Definition sizeof_exttree_record : Z := 40.

Definition object_id (r : record) : Z := le_combine (take 8 (drop 12 r)).
Definition iblock (r : record) : Z := le_combine (take 8 (drop 20 r)).
Definition lextent_begin (r : record) : Z := le_combine (take 8 (drop 28 r)).
Definition lextent_length (r : record) : Z := le_combine (take 4 (drop 36 r)).

(** [struct emmcfs_exttree_key] with a key part of 28 bytes in a record of
    [len]; [struct emmcfs_exttree_record]. *)
Definition exttree_key (len ino ib : Z) : record :=
  EMMCFS_EXTTREE_KEY_MAGIC ++ le_split 4 sizeof_exttree_key ++ le_split 4 len ++
  le_split 8 ino ++ le_split 8 ib.
Definition exttree_record (ino ib start_block block_count : Z) : record :=
  exttree_key sizeof_exttree_record ino ib ++ le_split 8 start_block ++ le_split 4 block_count.

(** A key for a search, in memory of the cache whose generic part, 12 bytes,
    is that of an earlier use. *)
Definition search_key (stale : list Z) (ino ib : Z) : record :=
  stale ++ le_split 8 ino ++ le_split 8 ib.

(** [record->lextent.length = len] *)
Definition set_lextent_length (r : record) (len : Z) : record :=
  take 36 r ++ le_split 4 len ++ drop 40 r.

(** ** The order of the keys *)
Definition cmp_2_le64 (a b : Z) : Z := if a =? b then 0 else if a >? b then 1 else -1.

Definition emmcfs_exttree_cmpfn (key1 key2 : record) : Z :=
  if negb (object_id key1 =? object_id key2) || (iblock key2 =? IBLOCK_DOES_NOT_MATTER)
  then cmp_2_le64 (object_id key1) (object_id key2)
  else cmp_2_le64 (iblock key1) (iblock key2).

Section exttree.
(** What the B-tree leaves open (Btree.v). *)
Context (N max_record_len log_pages_per_node : Z) (mounted : bool) (beyond : Z -> bool)
  (grow : Z -> Z -> Z) (address : Z -> Z) (stale : list Z).
Abbreviation find := (emmcfs_btree_find emmcfs_exttree_cmpfn mounted beyond grow).
Abbreviation insert := (emmcfs_btree_insert N max_record_len log_pages_per_node emmcfs_exttree_cmpfn
  mounted beyond grow).
Abbreviation remove := (emmcfs_btree_remove N max_record_len log_pages_per_node emmcfs_exttree_cmpfn
  mounted beyond grow address).

(** [emmcfs_exttree_add] *)
Definition emmcfs_exttree_add (ino ib start_block block_count : Z) : M unit :=
  do_ kmalloc;
  insert (exttree_record ino ib start_block block_count).

(** [emmcfs_extent_find]: the node and the position. *)
Definition emmcfs_extent_find (ino ib : Z) (rw : bool) : M (handle * Z) :=
  do_ kmalloc;
  find (search_key stale ino ib) rw.

(** [emmcfs_exttree_get_block]: the block, 0 if there is none, and the value
    of [max_blocks] if it is stored. *)
Definition emmcfs_exttree_get_block (ino ib : Z) : M (Z * option Z) :=
  do e <- try (emmcfs_extent_find ino ib false);
  match e with
  | Ok (h, pos) =>
    do r <- try (emmcfs_get_btree_record h pos);
    do rc <- match r with
             | Ok r =>
               if negb (object_id r =? ino) then ret (0, None)
               else
                 let delta := u64 (ib - iblock r) in
                 ret (u64 (lextent_begin r + delta), Some (u32 (lextent_length r - delta)))
             | _ => ret (0, None)
             end;
    do_ emmcfs_put_bnode h;
    ret rc
  | _ => ret (0, None)
  end.

(** The store into the extent of the record at [pos]. *)
Definition store_length (h : handle) (pos : Z) (r : record) (len : Z) : M unit :=
  update h (fun n => set_recs n (<[Z.to_nat pos := set_lextent_length r len]> (bn_recs n))).

(** ** Together with the blocks of the volume *)
Context `{BlockAlloc A} (free_space_start : Z).
Abbreviation V := (St (btree * A)).

Definition in_tree {X} (x : M X) : V X := zoom fst (fun t s => (t, snd s)) x.
Definition in_alloc {X} (x : St A X) : V X := zoom snd (fun a s => (fst s, a)) x.

(** [err = emmcfs_exttree_add(...); if (err) rc = 0] *)
Definition add_extent (ino ib rc cnt : Z) : V Z :=
  do err <- in_tree (try (emmcfs_exttree_add ino ib rc cnt));
  match err with Ok _ => ret rc | _ => ret 0 end.

(** [emmcfs_exttree_add_block] *)
Definition emmcfs_exttree_add_block (ino ib cnt : Z) : V Z :=
  do e <- in_tree (try (emmcfs_extent_find ino ib true));
  match e with
  | Ok (h, pos) =>
    do r <- in_tree (try (emmcfs_get_btree_record h pos));
    match r with
    | Ok r =>
      if object_id r =? ino then
        let next_block_after := u64 (lextent_begin r + lextent_length r) in
        do rc <- in_alloc (get_free_block next_block_after cnt);
        if rc =? 0 then do_ in_tree (emmcfs_put_bnode h); ret rc
        else if rc =? next_block_after then
          do_ in_tree (store_length h pos r (u32 (lextent_length r + cnt)));
          do_ in_tree (emmcfs_mark_bnode_dirty h);
          do_ in_tree (emmcfs_put_bnode h);
          ret rc
        else
          do_ in_tree (emmcfs_put_bnode h);
          add_extent ino ib rc cnt
      else
        do_ in_tree (emmcfs_put_bnode h);
        do rc <- in_alloc (get_free_block free_space_start cnt);
        if rc =? 0 then ret rc else add_extent ino ib rc cnt
    | _ => do_ in_tree (emmcfs_put_bnode h); ret 0
    end
  | _ => ret 0
  end.

(** ** Orphan inodes *)

(** [emmcfs_add_orphan_inode] *)
Definition emmcfs_add_orphan_inode (ino : Z) : M unit :=
  do_ kmalloc;
  insert (exttree_key sizeof_exttree_key EMMCFS_ORPHAN_INODES_INO ino).
End exttree.
