(* ===== verification/ExttreeProofs.v ===== *)
(** * The order of the extents and the translation of logical blocks

    [emmcfs_exttree_cmpfn] orders the keys of the extents tree; what the
    records of a file say of its blocks, and how a longer or a new extent
    changes it. *)

From S2P Require Import Prelude Monad Data Blocks BnodeBytes BnodeRepr BnodePool BnodePoolProofs.
From S2P Require Import Btree BtreeInv BtreeFind BtreeInsert BtreeSpec Exttree.
Open Scope Z_scope.

(** ** The order of the keys *)
Record ext_key_ok (r : record) : Prop := {
  ek_len : 28 <= rlen r;
  ek_key_len : key_len r = sizeof_exttree_key;
  ek_iblock : iblock r <> IBLOCK_DOES_NOT_MATTER
}.

Lemma cmp_2_le64_spec a b :
  (cmp_2_le64 a b = 0 <-> a = b) /\ (cmp_2_le64 a b < 0 <-> a < b) /\ (0 < cmp_2_le64 a b <-> b < a).
Proof. unfold cmp_2_le64. rewrite Z.gtb_ltb. destruct (Z.eqb_spec a b), (Z.ltb_spec b a); lia. Qed.

Lemma exttree_cmp_lex x y : iblock y <> IBLOCK_DOES_NOT_MATTER ->
  emmcfs_exttree_cmpfn x y =
    if object_id x =? object_id y then cmp_2_le64 (iblock x) (iblock y)
    else cmp_2_le64 (object_id x) (object_id y).
Proof.
  intros H. unfold emmcfs_exttree_cmpfn. rewrite (proj2 (Z.eqb_neq _ _) H), orb_false_r.
  by destruct (_ =? _).
Qed.

(** Case analysis on the two comparisons. *)
Ltac lex :=
  repeat match goal with
  | |- context [object_id ?x =? object_id ?y] => destruct (Z.eqb_spec (object_id x) (object_id y))
  | H : context [object_id ?x =? object_id ?y] |- _ => destruct (Z.eqb_spec (object_id x) (object_id y))
  end;
  repeat match goal with
  | |- context [cmp_2_le64 ?a ?b] =>
      lazymatch goal with H : (cmp_2_le64 a b = 0 <-> _) /\ _ |- _ => fail | _ => pose proof (cmp_2_le64_spec a b) end
  | _ : context [cmp_2_le64 ?a ?b] |- _ =>
      lazymatch goal with H : (cmp_2_le64 a b = 0 <-> _) /\ _ |- _ => fail | _ => pose proof (cmp_2_le64_spec a b) end
  end;
  lia.

Lemma cmp_neg x y : ext_key_ok y -> emmcfs_exttree_cmpfn x y < 0 <->
  object_id x < object_id y \/ object_id x = object_id y /\ iblock x < iblock y.
Proof. intros []. rewrite exttree_cmp_lex by done. lex. Qed.

Lemma cmp_le x y : ext_key_ok y -> emmcfs_exttree_cmpfn x y <= 0 <->
  object_id x < object_id y \/ object_id x = object_id y /\ iblock x <= iblock y.
Proof. intros []. rewrite exttree_cmp_lex by done. lex. Qed.

Lemma cmp_zero x y : ext_key_ok y -> emmcfs_exttree_cmpfn x y = 0 <->
  object_id x = object_id y /\ iblock x = iblock y.
Proof. intros []. rewrite exttree_cmp_lex by done. lex. Qed.

(** The fields of the key are in the bytes that the B-tree copies. *)
Lemma key_fields r s : same_key r s -> key_len r = sizeof_exttree_key ->
  object_id r = object_id s /\ iblock r = iblock s.
Proof.
  intros [Ek E] Hk. unfold key_bytes in E. rewrite <- Ek, Hk in E. change (Z.to_nat sizeof_exttree_key) with 28%nat in E.
  unfold object_id, iblock.
  assert (forall l : list Z, take 8 (drop 12 l) = take 8 (drop 12 (take 28 l)) /\
                 take 8 (drop 20 l) = take 8 (drop 8 (drop 12 (take 28 l)))) as H.
  { intros l. rewrite drop_drop, !skipn_firstn_comm, !take_take. done. }
  rewrite (proj1 (H r)), (proj2 (H r)), (proj1 (H s)), (proj2 (H s)). by rewrite E.
Qed.

#[export] Instance exttree_order : KeyOrder emmcfs_exttree_cmpfn ext_key_ok.
Proof.
  split.
  - intros r s x H [_ Hk _]. destruct (key_fields r s H Hk) as [E1 E2].
    unfold emmcfs_exttree_cmpfn. by rewrite E1, E2.
  - intros r s H [Hl Hk Hb]. destruct (key_fields r s H Hk) as [E1 E2]. destruct H as [Ek E].
    split; [|congruence..]. unfold key_bytes in E. rewrite <- Ek, Hk in E. apply (f_equal length) in E.
    change (Z.to_nat sizeof_exttree_key) with 28%nat in E. unfold rlen in *.
    rewrite !length_drop, !length_take in E. lia.
  - intros x Hx. by apply cmp_zero.
  - intros x y [] []. rewrite !exttree_cmp_lex by done. lex.
  - intros x y z [] [] []. rewrite !exttree_cmp_lex by done. lex.
Qed.

(** ** The fields of the records that are formed *)
Abbreviation key_head len := (EMMCFS_EXTTREE_KEY_MAGIC ++ le_split 4 sizeof_exttree_key ++ le_split 4 len).

Lemma exttree_key_fields len ino ib rest : 0 <= len < 2 ^ 32 -> 0 <= ino < 2 ^ 64 -> 0 <= ib < 2 ^ 64 ->
  let r := exttree_key len ino ib ++ rest in
  key_len r = sizeof_exttree_key /\ record_len r = len /\ object_id r = ino /\ iblock r = ib.
Proof.
  intros Hl Hi Hb r. subst r. split; [done|split; [|split]].
  - by apply (le_field 4 len 8 _ (EMMCFS_EXTTREE_KEY_MAGIC ++ le_split 4 sizeof_exttree_key)
      (le_split 8 ino ++ le_split 8 ib ++ rest)).
  - by apply (le_field 8 ino 12 _ (key_head len) (le_split 8 ib ++ rest)).
  - by apply (le_field 8 ib 20 _ (key_head len ++ le_split 8 ino) rest).
Qed.

Lemma exttree_record_fields ino ib start cnt : 0 <= ino < 2 ^ 64 -> 0 <= ib < 2 ^ 64 ->
  0 <= start < 2 ^ 64 -> 0 <= cnt < 2 ^ 32 ->
  let r := exttree_record ino ib start cnt in
  rlen r = sizeof_exttree_record /\ key_len r = sizeof_exttree_key /\ record_len r = sizeof_exttree_record /\
  object_id r = ino /\ iblock r = ib /\ lextent_begin r = start /\ lextent_length r = cnt.
Proof.
  intros Hi Hb Hs Hc r. destruct (exttree_key_fields sizeof_exttree_record ino ib (le_split 8 start ++ le_split 4 cnt))
    as (E1 & E2 & E3 & E4); try done.
  do 5 (split; [done|]). split.
  - by apply (le_field 8 start 28 _ (exttree_key sizeof_exttree_record ino ib) (le_split 4 cnt)).
  - by apply (le_field 4 cnt 36 _ (exttree_key sizeof_exttree_record ino ib ++ le_split 8 start) []).
Qed.

Lemma search_key_fields stale ino ib : length stale = 12%nat -> 0 <= ino < 2 ^ 64 -> 0 <= ib < 2 ^ 64 ->
  object_id (search_key stale ino ib) = ino /\ iblock (search_key stale ino ib) = ib.
Proof.
  intros Hl Hi Hb. split.
  - by apply (le_field 8 ino 12 _ stale (le_split 8 ib)).
  - apply (le_field 8 ib 20 _ (stale ++ le_split 8 ino) []); [|len|done]. unfold search_key. by rewrite app_nil_r, app_assoc.
Qed.

Lemma set_lextent_length_fields r len : rlen r = sizeof_exttree_record -> key_len r = sizeof_exttree_key ->
  0 <= len < 2 ^ 32 ->
  let r' := set_lextent_length r len in
  same_key r r' /\ rlen r' = rlen r /\ record_len r' = record_len r /\
  object_id r' = object_id r /\ iblock r' = iblock r /\ lextent_begin r' = lextent_begin r /\
  lextent_length r' = len.
Proof.
  intros Hr Hk Hlen r'. unfold rlen in Hr. change sizeof_exttree_record with 40 in Hr.
  assert (length r = 40%nat) as Hr' by lia. clear Hr.
  assert (take 36 r' = take 36 r) as E.
  { unfold r', set_lextent_length. rewrite take_app_le by (rewrite length_take; lia). by rewrite take_take. }
  assert (forall n k, (k + n <= 36)%nat -> take n (drop k r') = take n (drop k r)) as Hf.
  { intros n k Hn. rewrite !take_drop_commute.
    replace (take (k + n) r') with (take (k + n) (take 36 r')) by (rewrite take_take; f_equal; lia).
    rewrite E, take_take. by rewrite Nat.min_l by lia. }
  assert (length r' = 40%nat) as Hl by (unfold r', set_lextent_length; rewrite !length_app, length_take, length_drop, length_le_split; lia).
  assert (key_len r' = key_len r) as Ek by (unfold key_len; by rewrite Hf by lia).
  split; [split; [done|]|].
  { unfold key_bytes. rewrite Ek, Hk. change (Z.to_nat sizeof_exttree_key) with (12 + 16)%nat.
    rewrite <- !take_drop_commute. symmetry. apply Hf. lia. }
  split; [unfold rlen; lia|].
  unfold record_len, object_id, iblock, lextent_begin. rewrite !Hf by lia. do 4 (split; [done|]).
  apply (le_field 4 len 36 _ (take 36 r) (drop 40 r)); [done|rewrite length_take; lia|done].
Qed.

(** ** The blocks of a file *)

(** [r] places the logical block [ib] of its file at [p]. *)
Definition extent_maps (r : record) (ib p : Z) : Prop :=
  iblock r <= ib < iblock r + lextent_length r /\ p = lextent_begin r + (ib - iblock r).

(** The block [ib] of the file [ino] is at [p]. *)
Definition maps (l : list record) (ino ib p : Z) : Prop :=
  exists r, r ∈ l /\ object_id r = ino /\ extent_maps r ib p.

(** The extents of the file [ino] do not overlap; its last one ends before the
    block [last]. *)
Record extents_ok (l : list record) (ino last : Z) : Prop := {
  xo_shape r : r ∈ l -> object_id r = ino ->
    rlen r = sizeof_exttree_record /\ 0 <= iblock r /\ 0 < lextent_length r /\ 0 < lextent_begin r /\
    lextent_begin r + lextent_length r <= 2 ^ 32 /\ iblock r + lextent_length r <= last;
  xo_disjoint r s : r ∈ l -> s ∈ l -> object_id r = ino -> object_id s = ino -> iblock r < iblock s ->
    iblock r + lextent_length r <= iblock s;
  xo_last r : r ∈ l -> object_id r = ino ->
    exists s, s ∈ l /\ object_id s = ino /\ iblock s + lextent_length s = last
}.

Lemma extents_ok_perm l l' ino last : l ≡ₚ l' -> extents_ok l ino last -> extents_ok l' ino last.
Proof.
  intros P [H1 H2 H3]. split.
  - intros r Hr. apply H1. by rewrite P.
  - intros r s Hr Hs. apply H2; by rewrite P.
  - intros r Hr Ho. destruct (H3 r) as (s & Hs & ?); [by rewrite P|done|]. exists s. by rewrite <- P.
Qed.

Lemma maps_perm l l' ino ib p : l ≡ₚ l' -> maps l ino ib p <-> maps l' ino ib p.
Proof. intros P. unfold maps. by setoid_rewrite P. Qed.

(** A new extent behind the others. *)
Lemma extents_ok_new l ino last r cnt : extents_ok l ino last -> rlen r = sizeof_exttree_record ->
  object_id r = ino -> iblock r = last -> 0 <= last -> lextent_length r = cnt -> 0 < cnt ->
  0 < lextent_begin r -> lextent_begin r + cnt <= 2 ^ 32 -> extents_ok (r :: l) ino (last + cnt).
Proof.
  intros [H1 H2 H3] Hl Ho Hb H0 Hc Hcnt Hp Hlim. split.
  - intros s [->|Hs]%elem_of_cons Hos; [lia|]. specialize (H1 s Hs Hos). lia.
  - intros s1 s2 [->|Hs1]%elem_of_cons [->|Hs2]%elem_of_cons Ho1 Ho2 Hlt; [lia| | |by apply H2].
    + specialize (H1 s2 Hs2 Ho2). lia.
    + specialize (H1 s1 Hs1 Ho1). lia.
  - intros s _ _. exists r. split; [set_solver|]. split; [done|lia].
Qed.

Lemma maps_cons l r ino ib p : maps (r :: l) ino ib p <-> maps l ino ib p \/ object_id r = ino /\ extent_maps r ib p.
Proof. unfold maps. setoid_rewrite elem_of_cons. naive_solver. Qed.

(** The last extent made longer. *)
Lemma extents_ok_longer l ino last r r' cnt : extents_ok (r :: l) ino last -> object_id r = ino ->
  iblock r + lextent_length r = last -> 0 < cnt -> lextent_begin r + lextent_length r + cnt <= 2 ^ 32 ->
  rlen r' = rlen r -> object_id r' = object_id r -> iblock r' = iblock r ->
  lextent_begin r' = lextent_begin r -> lextent_length r' = lextent_length r + cnt ->
  extents_ok (r' :: l) ino (last + cnt).
Proof.
  intros [H1 H2 H3] Ho He Hcnt Hlim E1 E2 E3 E4 E5.
  assert (r ∈ r :: l) as Hr by set_solver. pose proof (H1 r Hr Ho) as Hsr.
  assert (forall s, s ∈ l -> s ∈ r :: l) as Hin by set_solver. split.
  - intros s [->|Hs]%elem_of_cons Hos; [|specialize (H1 s (Hin s Hs) Hos)]; lia.
  - intros s1 s2 [->|Hs1]%elem_of_cons [->|Hs2]%elem_of_cons Ho1 Ho2 Hlt; [lia| | |by apply H2; auto].
    + specialize (H2 r s2 Hr (Hin s2 Hs2) Ho Ho2). specialize (H1 s2 (Hin s2 Hs2) Ho2). lia.
    + specialize (H2 s1 r (Hin s1 Hs1) Hr Ho1 Ho). lia.
  - intros s _ _. exists r'. split; [set_solver|]. split; [congruence|lia].
Qed.

Lemma maps_longer l ino last r r' cnt i ib p : object_id r = ino -> iblock r + lextent_length r = last -> 0 < cnt ->
  0 < lextent_length r -> object_id r' = object_id r -> iblock r' = iblock r ->
  lextent_begin r' = lextent_begin r -> lextent_length r' = lextent_length r + cnt ->
  maps (r' :: l) i ib p <-> maps (r :: l) i ib p \/
    i = ino /\ last <= ib < last + cnt /\ p = lextent_begin r + lextent_length r + (ib - last).
Proof.
  intros Ho He Hcnt Hlen E2 E3 E4 E5. rewrite !maps_cons. unfold extent_maps. rewrite E2, E3, E4, E5, Ho.
  split; [|naive_solver lia]. intros [?|(-> & H & ->)]; [auto|].
  destruct (decide (ib < last)); [left|]; right; repeat split; lia.
Qed.

(** The last extent made shorter. *)
Lemma extents_ok_shorter l ino last r r' n : extents_ok (r :: l) ino last -> object_id r = ino ->
  iblock r + lextent_length r = last -> iblock r < n <= last ->
  rlen r' = rlen r -> object_id r' = object_id r -> iblock r' = iblock r ->
  lextent_begin r' = lextent_begin r -> lextent_length r' = n - iblock r ->
  (forall s, s ∈ l -> object_id s = ino -> iblock s <> iblock r) -> extents_ok (r' :: l) ino n.
Proof.
  intros [H1 H2 H3] Ho He Hn E1 E2 E3 E4 E5 Hne.
  assert (r ∈ r :: l) as Hr by set_solver. pose proof (H1 r Hr Ho) as Hsr.
  assert (forall s, s ∈ l -> s ∈ r :: l) as Hin by set_solver.
  assert (forall s, s ∈ l -> object_id s = ino -> iblock s + lextent_length s <= iblock r) as Hbelow.
  { intros s Hs Hos. specialize (Hne s Hs Hos). pose proof (H1 s (Hin s Hs) Hos).
    destruct (Z.lt_trichotomy (iblock s) (iblock r)) as [Hlt|[?|Hlt]]; [by apply H2; auto|done|].
    pose proof (H2 r s Hr (Hin s Hs) Ho Hos Hlt). lia. }
  split.
  - intros s [->|Hs]%elem_of_cons Hos; [|specialize (H1 s (Hin s Hs) Hos); specialize (Hbelow s Hs Hos)]; lia.
  - intros s1 s2 [->|Hs1]%elem_of_cons [->|Hs2]%elem_of_cons Ho1 Ho2 Hlt; [lia| | |by apply H2; auto].
    + specialize (Hbelow s2 Hs2 Ho2). specialize (H1 s2 (Hin s2 Hs2) Ho2). lia.
    + specialize (Hbelow s1 Hs1 Ho1). lia.
  - intros s _ _. exists r'. split; [set_solver|]. split; [congruence|lia].
Qed.

Lemma maps_shorter l ino last r r' n i ib p : extents_ok (r :: l) ino last -> object_id r = ino ->
  iblock r + lextent_length r = last -> iblock r < n <= last ->
  object_id r' = object_id r -> iblock r' = iblock r -> lextent_begin r' = lextent_begin r ->
  lextent_length r' = n - iblock r -> (forall s, s ∈ l -> object_id s = ino -> iblock s <> iblock r) ->
  maps (r' :: l) i ib p <-> maps (r :: l) i ib p /\ (i = ino -> ib < n).
Proof.
  intros [H1 H2 H3] Ho He Hn E2 E3 E4 E5 Hne. rewrite !maps_cons. unfold extent_maps. rewrite E2, E3, E4, E5, Ho.
  assert (maps l i ib p -> i = ino -> ib < n) as Hbelow.
  { intros (s & Hs & Hos & Hb & _) ->. specialize (Hne s Hs Hos).
    assert (s ∈ r :: l) as Hs' by set_solver. assert (r ∈ r :: l) as Hr by set_solver.
    pose proof (H1 s Hs' Hos). destruct (Z.lt_trichotomy (iblock s) (iblock r)) as [Hlt|[?|Hlt]]; [|done|].
    - pose proof (H2 s r Hs' Hr Hos Ho Hlt). lia.
    - pose proof (H2 r s Hr Hs' Ho Hos Hlt). lia. }
  split; [intros [?|(-> & ? & ->)]; [tauto|split; [right|lia]; repeat split; lia]|].
  intros [[?|(-> & ? & ->)] Hlt]; [by left|right]. specialize (Hlt eq_refl). repeat split; lia.
Qed.

Section floor.
Context (l : list record) (Hs : sorted emmcfs_exttree_cmpfn l) (Hk : keys_ok ext_key_ok l).

Lemma extent_unique r s : r ∈ l -> s ∈ l -> object_id r = object_id s -> iblock r = iblock s -> r = s.
Proof using Hs Hk.
  intros [i Hi]%list_elem_of_lookup [j Hj]%list_elem_of_lookup E1 E2.
  assert (forall i j x y, l !! i = Some x -> l !! j = Some y -> object_id x = object_id y ->
    iblock x = iblock y -> ~ (i < j)%nat) as H.
  { clear - Hs Hk. intros i j x y Hi Hj E1 E2 Hlt. pose proof (sorted_lookup _ _ _ _ _ _ Hs Hi Hj Hlt) as H.
    unfold lt in H. apply cmp_neg in H; [lia|]. by eapply Forall_lookup_1. }
  destruct (Nat.lt_trichotomy i j) as [Hlt|[->|Hlt]]; [|congruence|].
  - by destruct (H i j r s).
  - by destruct (H j i s r).
Qed.

(** The floor of a block that has an extent is this extent. *)
Lemma floor_covers key q x r ino ib last : extents_ok l ino last -> ext_key_ok key -> object_id key = ino -> iblock key = ib ->
  floor_pos emmcfs_exttree_cmpfn l key q -> l !! q = Some x ->
  r ∈ l -> object_id r = ino -> iblock r <= ib < iblock r + lextent_length r -> x = r.
Proof using Hs Hk.
  intros Hx Hkey Eo Eb [(y & Hy & Hle) Hhi] Hq Hr Ho Hb. rewrite Hq in Hy. injection Hy as <-.
  pose proof Hr as [i Hi]%list_elem_of_lookup.
  assert (ext_key_ok r) as Hkr by (by eapply Forall_lookup_1).
  destruct (Nat.lt_trichotomy i q) as [Hlt|[->|Hgt]]; [|congruence|].
  - destruct Hle as [Hle|Hq0]; [|lia]. apply cmp_le in Hle; [|done].
    pose proof (sorted_lookup _ _ _ _ _ _ Hs Hi Hq Hlt) as Hrx. apply cmp_neg in Hrx; [|by eapply Forall_lookup_1].
    assert (object_id x = ino) as Eox by lia.
    pose proof (xo_disjoint _ _ _ Hx r x Hr (list_elem_of_lookup_2 _ _ _ Hq) Ho Eox). lia.
  - specialize (Hhi i r Hgt Hi). apply cmp_neg in Hhi; [lia|done].
Qed.

Lemma sorted_nodup x l' : l ≡ₚ x :: l' -> x ∉ l'.
Proof using Hs Hk.
  intros P. assert (NoDup l) as Hnd.
  { apply NoDup_alt. intros i j y Hi Hj.
    assert (forall i j, l !! i = Some y -> l !! j = Some y -> ~ (i < j)%nat) as H.
    { clear - Hs Hk. intros i j Hi Hj Hlt. pose proof (sorted_lookup _ _ _ _ _ _ Hs Hi Hj Hlt) as H.
      unfold lt in H. apply cmp_neg in H; [lia|]. by eapply Forall_lookup_1. }
    destruct (Nat.lt_trichotomy i j) as [Hlt|[?|Hlt]]; [|done|]; [by destruct (H i j)|by destruct (H j i)]. }
  rewrite P in Hnd. by apply NoDup_cons in Hnd as [].
Qed.

(** The floor of a block that comes behind an extent of the file is of the
    file. *)
Lemma floor_same key q x r : ext_key_ok key -> floor_pos emmcfs_exttree_cmpfn l key q -> l !! q = Some x ->
  r ∈ l -> object_id r = object_id key -> iblock r <= iblock key -> object_id x = object_id key.
Proof using Hs Hk.
  intros Hkey [(y & Hy & Hle) Hhi] Hq Hr Ho Hb. rewrite Hq in Hy. injection Hy as <-.
  pose proof Hr as [i Hi]%list_elem_of_lookup.
  destruct (Nat.lt_trichotomy i q) as [Hlt|[->|Hgt]]; [|congruence|].
  - destruct Hle as [Hle|Hq0]; [|lia]. apply cmp_le in Hle; [|done].
    pose proof (sorted_lookup _ _ _ _ _ _ Hs Hi Hq Hlt) as Hrx. apply cmp_neg in Hrx; [lia|by eapply Forall_lookup_1].
  - specialize (Hhi i r Hgt Hi). apply cmp_neg in Hhi; [lia|by eapply Forall_lookup_1].
Qed.

(** The floor of the end of the file. *)
Lemma floor_last key q x ino last : extents_ok l ino last -> ext_key_ok key -> object_id key = ino -> last <= iblock key ->
  floor_pos emmcfs_exttree_cmpfn l key q -> l !! q = Some x -> object_id x = ino ->
  iblock x + lextent_length x = last.
Proof using Hs Hk.
  intros Hx Hkey Eo Eb [(y & Hy & Hle) Hhi] Hq Ho. rewrite Hq in Hy. injection Hy as <-.
  pose proof (list_elem_of_lookup_2 _ _ _ Hq) as Hin.
  destruct (xo_last _ _ _ Hx x Hin Ho) as (s & Hs1 & Hos & Hend).
  pose proof (xo_shape _ _ _ Hx x Hin Ho) as Hsx. pose proof (xo_shape _ _ _ Hx s Hs1 Hos) as Hss.
  destruct (Z.lt_trichotomy (iblock s) (iblock x)) as [Hlt|[E|Hlt]].
  - pose proof (xo_disjoint _ _ _ Hx s x Hs1 Hin Hos Ho Hlt). lia.
  - assert (s = x) as -> by (apply extent_unique; congruence || done). done.
  - pose proof Hs1 as [i Hi]%list_elem_of_lookup.
    destruct (Nat.lt_trichotomy i q) as [Hiq|[->|Hiq]]; [|simplify_eq; lia|].
    + pose proof (sorted_lookup _ _ _ _ _ _ Hs Hi Hq Hiq) as H. apply cmp_neg in H; [lia|by eapply Forall_lookup_1].
    + specialize (Hhi i s Hiq Hi). apply cmp_neg in Hhi; [lia|by eapply Forall_lookup_1].
Qed.

(** Where the file has no extent up to a block, the floor is of another file. *)
Lemma floor_other key q x ino ib : ext_key_ok key -> object_id key = ino -> iblock key = ib ->
  floor_pos emmcfs_exttree_cmpfn l key q -> l !! q = Some x -> le emmcfs_exttree_cmpfn (first_rec l) key ->
  (forall r, r ∈ l -> object_id r = ino -> ib < iblock r) -> object_id x <> ino.
Proof using Hs Hk.
  intros Hkey Eo Eb [(y & Hy & Hle) Hhi] Hq Hfirst Hno Ho. rewrite Hq in Hy. injection Hy as <-.
  assert (le emmcfs_exttree_cmpfn x key) as Hx.
  { destruct Hle as [|Hq0]; [done|]. subst q. by destruct l; simplify_eq/=. }
  apply cmp_le in Hx; [|done]. pose proof (Hno x (list_elem_of_lookup_2 _ _ _ Hq) Ho). lia.
Qed.

(** Where the floor is of another file, the file has no extent up to the
    block. *)
Lemma floor_no_extent key q x ino ib : ext_key_ok key -> object_id key = ino -> iblock key = ib ->
  floor_pos emmcfs_exttree_cmpfn l key q -> l !! q = Some x -> object_id x <> ino ->
  forall y, y ∈ l -> object_id y = ino -> ib < iblock y.
Proof using Hs Hk.
  intros Hkey Eo Eb [(z & Hz & Hle) Hhi] Hq Ho y Hy Hoy. rewrite Hq in Hz. injection Hz as <-.
  apply Z.nle_gt. intros Hb. pose proof Hy as [i Hi]%list_elem_of_lookup.
  destruct (Nat.lt_trichotomy i q) as [Hlt|[->|Hgt]]; [|congruence|].
  - destruct Hle as [Hle|Hq0]; [|lia]. apply cmp_le in Hle; [|done].
    pose proof (sorted_lookup _ _ _ _ _ _ Hs Hi Hq Hlt) as Hyx. apply cmp_neg in Hyx; [lia|by eapply Forall_lookup_1].
  - specialize (Hhi i y Hgt Hi). apply cmp_neg in Hhi; [lia|by eapply Forall_lookup_1].
Qed.

(** A file has one last extent. *)
Lemma last_unique x ino last : extents_ok l ino last -> x ∈ l -> object_id x = ino -> iblock x + lextent_length x = last ->
  forall y, y ∈ l -> object_id y = ino -> iblock y <= iblock x /\ (iblock x <= iblock y -> y = x).
Proof using Hs Hk.
  intros Hx Hin Ho Hend y Hy Hoy. pose proof (xo_shape _ _ _ Hx y Hy Hoy) as Hsy.
  assert (iblock y <= iblock x) as Hle.
  { apply Z.nlt_ge. intros Hlt. pose proof (xo_disjoint _ _ _ Hx x y Hin Hy Ho Hoy Hlt). lia. }
  split; [done|]. intros Hge. apply extent_unique; [done|done|congruence|lia].
Qed.
End floor.
