(* ===== verification/ExttreeTheorems.v ===== *)
(** * The properties of the extents tree

    The translation of the blocks of a file, and its growth at the end with
    blocks of the volume that nobody used. *)

From S2P Require Import Prelude Monad Data FsmBtree FsmBtreeInv FsmAlloc Fsm FsmProofs FsmMount FsmTheorems Blocks BnodeBytes BnodeRepr BnodePool BnodePoolProofs.
From S2P Require Import Btree BtreeInv BtreeFind BtreeInsert BtreeSpec Exttree ExttreeProofs.
Open Scope Z_scope.

Section properties.
Context (N max_record_len log_pages_per_node : Z) (mounted : bool) (beyond : Z -> bool)
  (grow : Z -> Z -> Z) (stale : list Z) (Hstale : length stale = 12%nat).
Context (HN : node_size_ok N) (Hmax : max_record_len + 31 <= N / 2) (Hrec : sizeof_exttree_record <= max_record_len).
Abbreviation exttree_ok := (tree_ok N max_record_len emmcfs_exttree_cmpfn ext_key_ok).
Abbreviation get_block := (emmcfs_exttree_get_block mounted beyond grow stale).
Abbreviation find := (emmcfs_extent_find mounted beyond grow stale).

(** A block of a file, as a key. *)
Definition block_key (ino ib : Z) : record := exttree_record ino ib 0 0.

Lemma block_key_ok ino ib : 0 <= ino < 2 ^ 64 -> 0 <= ib < 2 ^ 64 -> ib <> IBLOCK_DOES_NOT_MATTER ->
  ext_key_ok (block_key ino ib) /\ object_id (block_key ino ib) = ino /\ iblock (block_key ino ib) = ib.
Proof using.
  intros Hi Hb Hd. destruct (exttree_record_fields ino ib 0 0) as (E1 & E2 & _ & E3 & E4 & _); try done.
  split; [|done]. constructor; [unfold block_key; rewrite E1; by vm_compute|done|]. unfold block_key. by rewrite E4.
Qed.

Lemma tree_sorted t lv : exttree_ok t lv -> sorted emmcfs_exttree_cmpfn (elements lv) /\ keys_ok ext_key_ok (elements lv).
Proof using. apply elements_sorted. Qed.

Lemma wp_extent_find t lv ino ib rw : exttree_ok t lv -> 0 <= ino < 2 ^ 64 -> 0 <= ib < 2 ^ 64 ->
  ib <> IBLOCK_DOES_NOT_MATTER ->
  wp (find ino ib rw) t (fun r t' => match r with
    | Ok (h, pos) => t' ≈ t /\ (calm t -> calm t') /\
        exists q x, elements lv !! q = Some x /\ record_at t' h pos = Some x /\
          floor_pos emmcfs_exttree_cmpfn (elements lv) (block_key ino ib) q /\ h_rw h = rw /\ leaf_place lv h pos q
    | Err _ => t' ≈ t /\ ~ calm t
    | Bug => ~ calm t /\ mounted = true
    end).
Proof using Hstale.
  intros Ht Hi Hb Hd. destruct (block_key_ok ino ib Hi Hb Hd) as (Hk & Eo & Eb).
  destruct (search_key_fields stale ino ib Hstale Hi Hb) as [Eo' Eb'].
  unfold emmcfs_extent_find. apply wp_bind, wp_kmalloc. intros [[]|e|] t1 S1 _ _ C1 Hr; [| |done].
  - assert (exttree_ok t1 lv) as Ht1 by (by eapply tree_ok_sim; [symmetry|]).
    unfold wp. rewrite (find_ext emmcfs_exttree_cmpfn mounted beyond grow _ (block_key ino ib)).
    2:{ intros x. unfold emmcfs_exttree_cmpfn. by rewrite Eo', Eb', Eo, Eb. }
    eapply wp_mono; [by apply (wp_find N max_record_len emmcfs_exttree_cmpfn ext_key_ok)|].
    intros [[h pos]|e|] t2 H; [|split; [|intros C; apply H, C1, C]|split; [intros C; apply H, C1, C|apply H]].
    + destruct H as (S2 & C2 & q & x & H1 & H2 & H3). split; [by rewrite S2|]. split; [intros C; apply C2, C1, C|].
      exists q, x. split; [done|]. split; [|done]. unfold record_at. by rewrite (sim_nodes _ _ S2).
    + destruct H as [-> _]. done.
  - split; [done|]. intros C. by destruct (C1 C).
Qed.

(** What the answer says of a block: its place and the number of blocks up to
    the end of its extent; 0 if no extent of the file begins at it or before. *)
Definition translation (l : list record) (ino ib : Z) (res : Z * option Z) : Prop :=
  (forall r, r ∈ l -> object_id r = ino -> iblock r <= ib < iblock r + lextent_length r ->
     res = (lextent_begin r + (ib - iblock r), Some (lextent_length r - (ib - iblock r)))) /\
  ((forall r, r ∈ l -> object_id r = ino -> ib < iblock r) -> res = (0, None)).

Lemma wp_exttree_get_block t lv ino ib last :
  exttree_ok t lv -> 0 <= ino < 2 ^ 64 -> 0 <= ib < 2 ^ 32 - 1 -> extents_ok (elements lv) ino last ->
  le emmcfs_exttree_cmpfn (first_rec (elements lv)) (block_key ino ib) ->
  wp (get_block ino ib) t (fun r t' => match r with
    | Ok res => t' ≈ t /\ (calm t -> calm t' /\ translation (elements lv) ino ib res)
    | Err _ => False
    | Bug => ~ calm t /\ mounted = true
    end).
Proof using Hstale HN.
  intros Ht Hi Hb Hx Hfirst.
  assert (ib <> IBLOCK_DOES_NOT_MATTER) as Hd by (unfold IBLOCK_DOES_NOT_MATTER; lia).
  destruct (block_key_ok ino ib Hi ltac:(lia) Hd) as (Hk & Eo & Eb).
  destruct (tree_sorted t lv Ht) as [Hsort Hkeys].
  unfold emmcfs_exttree_get_block. apply wp_try. eapply wp_mono; [apply (wp_extent_find t lv); try done; lia|].
  intros [[h pos]|e|] t1 H; [|apply wp_ret; by destruct H as [S1 C1]|done].
  destruct H as (S1 & C1 & q & x & Hq & Hat & Hfl & _ & Hpl).
  eapply (wp_try_ok _ _ _ (fun r t' => r = x /\ t' = t1)); [apply (wp_get_btree_record N max_record_len emmcfs_exttree_cmpfn ext_key_ok t1 lv h pos q x); try done|].
  { by eapply tree_ok_sim; [symmetry|]. }
  intros r t2 [-> ->].
  assert (forall res, translation (elements lv) ino ib res ->
    wp (do_ emmcfs_put_bnode h; ret res) t1 (fun r t' => match r with
    | Ok res => t' ≈ t /\ (calm t -> calm t' /\ translation (elements lv) ino ib res)
    | Err _ => False
    | Bug => ~ calm t /\ mounted = true
    end)) as Hend.
  { intros res Hres. apply wp_put_bnode. intros t3 S3 C3. apply wp_ret. split; [by rewrite S3|]. auto. }
  apply wp_bind. destruct (Z.eqb_spec (object_id x) ino) as [Ho|Ho]; simpl; apply wp_ret, Hend.
  - destruct (xo_shape _ _ _ Hx x (list_elem_of_lookup_2 _ _ _ Hq) Ho) as (_ & H0 & Hl & Hp & Hlim & _).
    split.
    + intros r Hr Hor Hbr. pose proof (floor_covers _ Hsort Hkeys _ q x r ino ib last Hx Hk Eo Eb Hfl Hq Hr Hor Hbr).
      subst r. rewrite (uwrap_small 64 (ib - iblock x)), !uwrap_small by lia. done.
    + intros Hno. by destruct (floor_other _ Hsort Hkeys _ q x ino ib Hk Eo Eb Hfl Hq Hfirst Hno).
  - split; [|done]. intros r Hr Hor Hbr.
    pose proof (floor_covers _ Hsort Hkeys _ q x r ino ib last Hx Hk Eo Eb Hfl Hq Hr Hor Hbr). by subst r.
Qed.

(** [emmcfs_exttree_get_block] gives the place of every block that an
    extent of the file covers, with the number of blocks up to the end of the
    extent, and 0 when no extent of the file begins at the block or before it.
    It leaves the tree as it was and has no error of its own: without
    memory the answer is 0. *)
Theorem emmcfs_exttree_get_block_correct t lv ino ib last :
  exttree_ok t lv -> 0 <= ino < 2 ^ 64 -> 0 <= ib < 2 ^ 32 - 1 -> extents_ok (elements lv) ino last ->
  le emmcfs_exttree_cmpfn (first_rec (elements lv)) (block_key ino ib) ->
  let '(r, t') := get_block ino ib t in
  match r with
  | Ok res => t' ≈ t /\ (calm t -> calm t' /\ translation (elements lv) ino ib res)
  | Err _ => False
  | Bug => ~ calm t /\ mounted = true
  end.
Proof using Hstale HN.
  intros Ht Hi Hb Hx Hfirst. pose proof (wp_exttree_get_block t lv ino ib last Ht Hi Hb Hx Hfirst) as W.
  unfold wp in W. by destruct (get_block ino ib t).
Qed.

(** ** Growth *)
Context `{BlockAlloc A} (free_space_start : Z).
Abbreviation add_extent := (add_extent (A := A) N max_record_len log_pages_per_node mounted beyond grow).
Abbreviation add_block := (emmcfs_exttree_add_block N max_record_len log_pages_per_node mounted beyond grow stale
  free_space_start).

Lemma wp_in_tree {X} (x : M X) t (a : A) Q : wp x t (fun r t' => Q r (t', a)) -> wp (in_tree x) (t, a) Q.
Proof using. intros Hx. by apply wp_zoom. Qed.

Lemma wp_in_alloc {X} (x : St A X) (t : btree) a Q : wp x a (fun r a' => Q r (t, a')) -> wp (in_alloc x) (t, a) Q.
Proof using. intros Hx. by apply wp_zoom. Qed.

Lemma wp_put_in h t (a : A) {X} (k : unit -> St (btree * A) X) Q : calm t ->
  (forall t', t' ≈ t -> calm t' -> wp (k tt) (t', a) Q) -> wp (bind (in_tree (emmcfs_put_bnode h)) k) (t, a) Q.
Proof using.
  intros Hc Hk. apply wp_bind_ok, wp_in_tree. apply (wp_put_last h t (fun x t' => wp (k x) (t', a) Q)); [done|].
  intros t' S' C'. by apply Hk.
Qed.

Lemma wp_dirty_in h t (a : A) {X} (k : unit -> St (btree * A) X) Q : h_rw h = true -> calm t ->
  (forall t', t' ≈ t -> calm t' -> wp (k tt) (t', a) Q) -> wp (bind (in_tree (emmcfs_mark_bnode_dirty h)) k) (t, a) Q.
Proof using.
  intros Hrw Hc Hk. apply wp_bind_ok, wp_in_tree. unfold emmcfs_mark_bnode_dirty. apply wp_BUG_ON; [by rewrite Hrw|].
  unfold wp, modify. simpl. by apply Hk.
Qed.

(** The growth of the file [ino] by [cnt] blocks from [ib] on, put at [rc]. *)
Definition grown (l l' : list record) (ino ib cnt rc : Z) : Prop :=
  extents_ok l' ino (ib + cnt) /\ (forall r, object_id r <> ino -> r ∈ l' <-> r ∈ l) /\
  forall i b p, maps l' i b p <-> maps l i b p \/ i = ino /\ ib <= b < ib + cnt /\ p = rc + (b - ib).

(** The last extent of the file, and the place behind it; a file without an
    extent in the tree has the start of the free space. *)
Definition last_extent (l : list record) (ino : Z) (x : record) : Prop :=
  x ∈ l /\ object_id x = ino /\ forall y, y ∈ l -> object_id y = ino -> iblock y <= iblock x.
Definition place_behind (x : record) : Z := lextent_begin x + lextent_length x.
Definition next_place (l : list record) (ino hint : Z) : Prop :=
  (forall x, last_extent l ino x -> hint = place_behind x) /\
  ((forall x, x ∈ l -> object_id x <> ino) -> hint = free_space_start).

(** The record of the new blocks: the last extent longer, or one more. *)
Definition longer (l l' : list record) (x : record) (cnt : Z) : Prop := exists rest x',
  l ≡ₚ x :: rest /\ l' ≡ₚ x' :: rest /\ object_id x' = object_id x /\ iblock x' = iblock x /\
  lextent_begin x' = lextent_begin x /\ lextent_length x' = lextent_length x + cnt.
Definition recorded (l l' : list record) (ino ib cnt rc : Z) : Prop :=
  (exists x, last_extent l ino x /\ rc = place_behind x /\ longer l l' x cnt) \/
  (forall x, last_extent l ino x -> rc <> place_behind x) /\ l' ≡ₚ exttree_record ino ib rc cnt :: l.

(** There is room in the tree for one more record. *)
Definition spacious (t : btree) : Prop := btree_height t + 1 < 2 ^ 16 /\ 2 * btree_height t <= free_num t.

(** The new extent of a file as a record of its own. *)
Lemma wp_add_extent t lv a ino ib cnt rc : exttree_ok t lv -> calm t -> spacious t ->
  0 <= ino < 2 ^ 64 -> 0 <= ib < 2 ^ 32 - 1 -> 0 < cnt < 2 ^ 32 -> 0 < rc -> rc + cnt <= 2 ^ 32 ->
  extents_ok (elements lv) ino ib -> le emmcfs_exttree_cmpfn (first_rec (elements lv)) (block_key ino ib) ->
  wp (add_extent ino ib rc cnt) (t, a) (ok (fun r s =>
    r = rc /\ snd s = a /\ calm (fst s) /\
    exists lv', exttree_ok (fst s) lv' /\ grown (elements lv) (elements lv') ino ib cnt rc /\
      elements lv' ≡ₚ exttree_record ino ib rc cnt :: elements lv)).
Proof using HN Hmax Hrec Hstale.
  intros Ht Hc [Hh Hroom] Hi Hb Hcnt Hrc Hlim Hx Hfirst.
  assert (ib <> IBLOCK_DOES_NOT_MATTER) as Hd by (unfold IBLOCK_DOES_NOT_MATTER; lia).
  destruct (block_key_ok ino ib Hi ltac:(lia) Hd) as (Hk & Eo & Eb).
  destruct (tree_sorted t lv Ht) as [Hsort Hkeys].
  destruct (exttree_record_fields ino ib rc cnt) as (E1 & E2 & E3 & E4 & E5 & E6 & E7); try lia.
  set (r := exttree_record ino ib rc cnt) in *.
  assert (ext_key_ok r) as Hkr by (constructor; [rewrite E1; by vm_compute|done|by rewrite E5]).
  assert (forall x, emmcfs_exttree_cmpfn x r = emmcfs_exttree_cmpfn x (block_key ino ib)) as Ecmp.
  { intros x. unfold emmcfs_exttree_cmpfn. by rewrite E4, E5, Eo, Eb. }
  unfold add_extent. apply wp_bind, wp_in_tree, wp_try_last. unfold emmcfs_exttree_add.
  apply wp_bind_ok, wp_kmalloc_ok; [done|]. intros t1 S1 C1.
  apply (wp_insert N max_record_len log_pages_per_node emmcfs_exttree_cmpfn ext_key_ok mounted beyond grow t1 lv r);
    try done.
  - by eapply tree_ok_sim; [symmetry|].
  - constructor; [constructor; rewrite ?E1, ?E2, ?E3; by vm_compute|lia| |done].
    rewrite E2. unfold sizeof_exttree_key, sizeof_exttree_record in *. lia.
  - by rewrite (sim_height _ _ S1).
  - by rewrite (sim_height _ _ S1), (sim_num _ _ S1).
  - intros (x & Hin & E0)%Exists_exists. exfalso. apply cmp_zero in E0 as [Hox Hbx]; [|done].
    pose proof (xo_shape _ _ _ Hx x Hin ltac:(congruence)). lia.
  - intros _ t2 lv' C2 T2 P2 _. apply wp_ret. split; [done|]. split; [done|]. split; [done|].
    exists lv'. split; [done|]. split; [|exact P2]. split_and!.
    + eapply extents_ok_perm; [symmetry; exact P2|]. apply extents_ok_new; try done; lia.
    + intros x Hx'. rewrite P2, elem_of_cons. split; [|auto]. intros [->|?]; [congruence|done].
    + intros i b p. rewrite (maps_perm _ _ _ _ _ P2), maps_cons, E4. unfold extent_maps. rewrite E5, E6, E7.
      naive_solver.
Qed.

(** The length of an extent changed in place. *)
Lemma wp_set_length t lv (a : A) h pos q x len : exttree_ok t lv -> calm t -> leaf_place lv h pos q ->
  elements lv !! q = Some x -> rlen x = sizeof_exttree_record -> 0 <= len < 2 ^ 32 ->
  wp (in_tree (store_length h pos x len)) (t, a) (ok (fun _ s => snd s = a /\ calm (fst s) /\
    exists lv' l x', exttree_ok (fst s) lv' /\ elements lv ≡ₚ x :: l /\ elements lv' ≡ₚ x' :: l /\
      rlen x' = rlen x /\ object_id x' = object_id x /\ iblock x' = iblock x /\
      lextent_begin x' = lextent_begin x /\ lextent_length x' = len)).
Proof using Hstale.
  intros Ht Hc Hpl Hq Hxl Hlen.
  assert (rec_valid max_record_len ext_key_ok x) as [Hrok _ _ Hkey].
  { destruct lv as [|L up]; [done|]. pose proof (tree_level N max_record_len _ _ t [] _ _ Ht) as HL.
    apply level_valid in HL. rewrite Forall_forall in HL. apply HL, (list_elem_of_lookup_2 _ _ _ Hq). }
  destruct (set_lextent_length_fields x len) as (Hsk & E1 & E2 & E3 & E4 & E5 & E6); [done|apply Hkey|lia|].
  set (x' := set_lextent_length x len) in *.
  apply wp_in_tree. eapply wp_ok_mono.
  { apply (wp_set_record N max_record_len emmcfs_exttree_cmpfn ext_key_ok t lv h pos q x x'); try done.
    destruct Hrok as [R1 R2]. constructor; [congruence|]. destruct Hsk as [<- _]. by rewrite E1. }
  intros _ t' (C' & _ & lv' & T' & El & _ & _). split; [done|]. split; [auto|].
  exists lv', (delete q (elements lv)), x'. split; [done|]. split; [by apply delete_Permutation|]. split; [|done].
  rewrite El, <- (take_drop_middle _ _ _ Hq) at 1. pose proof (lookup_lt_Some _ _ _ Hq).
  rewrite mid_insert by (rewrite length_take; lia). by rewrite <- Permutation_middle, delete_take_drop.
Qed.

(** The last extent of a file made longer in place. *)
Lemma wp_store_length t lv a h pos q x ino ib cnt : exttree_ok t lv -> calm t -> leaf_place lv h pos q ->
  elements lv !! q = Some x -> object_id x = ino -> extents_ok (elements lv) ino ib ->
  iblock x + lextent_length x = ib -> 0 < cnt -> lextent_begin x + lextent_length x + cnt <= 2 ^ 32 ->
  wp (in_tree (A := A) (store_length h pos x (lextent_length x + cnt))) (t, a) (ok (fun _ s => snd s = a /\ calm (fst s) /\
    exists lv', exttree_ok (fst s) lv' /\
      grown (elements lv) (elements lv') ino ib cnt (place_behind x) /\ longer (elements lv) (elements lv') x cnt)).
Proof using Hstale.
  intros Ht Hc Hpl Hq Ho Hx Hend Hcnt Hlim.
  destruct (xo_shape _ _ _ Hx x (list_elem_of_lookup_2 _ _ _ Hq) Ho) as (Hxl & H0 & Hl & Hp & _).
  eapply wp_ok_mono; [apply (wp_set_length t lv a h pos q x); try done; lia|].
  intros _ s (E & C & lv' & l & x' & T & P & P' & E1 & E2 & E3 & E4 & E5). split; [done|]. split; [done|].
  exists lv'. split; [done|]. split; [|by exists l, x']. split_and!.
  - eapply extents_ok_perm; [symmetry; exact P'|].
    eapply (extents_ok_longer _ _ _ x); try done. by eapply extents_ok_perm.
  - intros y Hy. rewrite P, P', !elem_of_cons. split; (intros [->|?]; [congruence|by right]).
  - intros i b p. rewrite (maps_perm _ _ _ _ _ P), (maps_perm _ _ _ _ _ P').
    by rewrite (maps_longer _ ino ib x x' cnt).
Qed.

(** What the growth leaves: nothing changed as there is no room from the place
    behind the file on, or new blocks taken, mapped and recorded. *)
Definition add_post (t : btree) (l : list record) (a : A) (ino ib cnt rc : Z) (s : btree * A) : Prop :=
  calm (fst s) /\ alloc_ok (snd s) /\
  (rc = 0 /\ (exists hint, next_place l ino hint /\ refuses a hint cnt) /\ fst s ≈ t /\ (forall b, in_use (snd s) b = in_use a b) \/
   0 < rc /\ (forall b, rc <= b < rc + cnt -> in_use a b = false) /\
   (forall b, in_use (snd s) b = in_chunk rc cnt b || in_use a b) /\
   exists lv', exttree_ok (fst s) lv' /\ grown l (elements lv') ino ib cnt rc /\ recorded l (elements lv') ino ib cnt rc).

(** An extent that cannot be extended in place becomes a new record. *)
Lemma wp_alloc_extent t0 t lv a hint ino ib cnt (k : Z -> St (btree * A) Z) :
  exttree_ok t lv -> calm t -> alloc_ok a -> 0 < cnt ->
  (forall a', alloc_ok a' -> refuses a hint cnt -> (forall b, in_use a' b = in_use a b) ->
     wp (k 0) (t, a') (ok (fun rc s => add_post t0 (elements lv) a ino ib cnt rc s))) ->
  (forall rc a', alloc_ok a' -> 0 < rc -> rc + cnt <= 2 ^ 32 -> (forall b, rc <= b < rc + cnt -> in_use a b = false) ->
     (forall b, in_use a' b = in_chunk rc cnt b || in_use a b) ->
     wp (k rc) (t, a') (ok (fun rc s => add_post t0 (elements lv) a ino ib cnt rc s))) ->
  wp (do rc <- in_alloc (get_free_block hint cnt); k rc) (t, a)
    (ok (fun rc s => add_post t0 (elements lv) a ino ib cnt rc s)).
Proof using Hstale.
  intros Ht Hc Ha Hcnt H0 H1. apply wp_bind_ok, wp_in_alloc.
  eapply wp_ok_mono; [by apply get_free_block_ok|]. intros rc a' (Ha' & [(-> & Hno & Hu)|(Hrc & Hfree & Hu)]).
  - by apply H0.
  - apply H1; try done.
    pose proof (in_use_bound a' (rc + cnt - 1) Ha') as Hb. rewrite Hu in Hb.
    destruct (in_chunk_spec rc cnt (rc + cnt - 1)); [|lia]. specialize (Hb eq_refl). lia.
Qed.

Lemma wp_exttree_add_block t lv a ino ib cnt :
  exttree_ok t lv -> calm t -> spacious t -> alloc_ok a ->
  0 <= ino < 2 ^ 64 -> 0 <= ib < 2 ^ 32 - 1 -> 0 < cnt < 2 ^ 32 -> extents_ok (elements lv) ino ib ->
  le emmcfs_exttree_cmpfn (first_rec (elements lv)) (block_key ino ib) ->
  wp (add_block ino ib cnt) (t, a) (ok (fun rc s => add_post t (elements lv) a ino ib cnt rc s)).
Proof using HN Hmax Hrec Hstale.
  intros Ht Hc Hsp Ha Hi Hb Hcnt Hx Hfirst.
  assert (ib <> IBLOCK_DOES_NOT_MATTER) as Hd by (unfold IBLOCK_DOES_NOT_MATTER; lia).
  destruct (block_key_ok ino ib Hi ltac:(lia) Hd) as (Hk & Eo & Eb).
  destruct (tree_sorted t lv Ht) as [Hsort Hkeys].
  unfold emmcfs_exttree_add_block. apply wp_bind, wp_in_tree, wp_try_last.
  eapply wp_mono; [apply (wp_extent_find t lv); try done; lia|].
  intros [[h pos]|e|] t1 W; [|by destruct W as [_ []]|by destruct W as [[] _]].
  destruct W as (S1 & C1 & q & x & Hq & Hat & Hfl & Hrw & Hpl). specialize (C1 Hc).
  assert (exttree_ok t1 lv) as Ht1 by (by eapply tree_ok_sim; [symmetry|]).
  apply wp_bind, wp_in_tree, wp_try_last.
  eapply wp_mono; [by apply (wp_get_btree_record N max_record_len emmcfs_exttree_cmpfn ext_key_ok t1 lv h pos q x)|].
  intros [r|e|] t1' W; [destruct W as [-> ->]|done|done].
  assert (forall t2 a' hint, t2 ≈ t1 -> calm t2 -> alloc_ok a' -> next_place (elements lv) ino hint -> refuses a hint cnt ->
    (forall b, in_use a' b = in_use a b) -> add_post t (elements lv) a ino ib cnt 0 (t2, a')) as Hnone.
  { intros t2 a' hint S2 C2 Ha' Hnext Hno Hu. split; [done|]. split; [done|]. left. split; [done|]. split; [by exists hint|].
    simpl. by rewrite S2. }
  assert (forall t2 rc a', t2 ≈ t1 -> calm t2 -> alloc_ok a' -> (forall y, last_extent (elements lv) ino y -> rc <> place_behind y) -> 0 < rc -> rc + cnt <= 2 ^ 32 ->
    (forall b, rc <= b < rc + cnt -> in_use a b = false) ->
    (forall b, in_use a' b = in_chunk rc cnt b || in_use a b) ->
    wp (add_extent ino ib rc cnt) (t2, a') (ok (fun rc s => add_post t (elements lv) a ino ib cnt rc s))) as Hnew.
  { intros t2 rc a' S2 C2 Ha' Hnew Hrc Hlim Hfree Hu.
    assert (t2 ≈ t) as S by (by rewrite S2).
    eapply wp_ok_mono; [apply (wp_add_extent t2 lv a'); try done|].
    - by eapply tree_ok_sim; [symmetry|].
    - unfold spacious. by rewrite (sim_height _ _ S), (sim_num _ _ S).
    - intros rc' [t3 a3]. simpl. intros (-> & -> & C3 & lv' & T3 & G & P3). split; [done|]. split; [done|].
      right. do 3 (split; [done|]). exists lv'. split; [done|]. split; [done|]. by right. }
  destruct (Z.eqb_spec (object_id x) ino) as [Ho|Ho].
  - destruct (xo_shape _ _ _ Hx x (list_elem_of_lookup_2 _ _ _ Hq) Ho) as (Hxl & H0 & Hl & Hp & Hlim & _).
    pose proof (floor_last _ Hsort Hkeys _ q x ino ib Hx Hk Eo ltac:(lia) Hfl Hq Ho) as Hend.
    assert (last_extent (elements lv) ino x /\ forall y, last_extent (elements lv) ino y -> y = x) as [Hlast Huniq].
    { pose proof (list_elem_of_lookup_2 _ _ _ Hq) as Hin. pose proof (last_unique _ Hsort Hkeys x ino ib Hx Hin Ho Hend) as Hl1.
      split; [split; [done|split; [done|]]; intros y Hy Hoy; by apply Hl1|].
      intros y (Hy & Hoy & Hmax'). apply (Hl1 y Hy Hoy), Hmax'; done. }
    assert (next_place (elements lv) ino (place_behind x)) as Hnext.
    { split; [by intros y ->%Huniq|]. intros Hn. exfalso. apply (Hn x); [by eapply list_elem_of_lookup_2|done]. }
    rewrite (uwrap_small 64) by lia. apply wp_alloc_extent; try done; [lia| |].
    + intros a' Ha' Hno Hu. simpl. apply wp_put_in; [done|]. intros t2 S2 C2. by apply wp_ret, (Hnone _ _ (place_behind x)).
    + intros rc a' Ha' Hrc Hlim' Hfree Hu. rewrite (proj2 (Z.eqb_neq _ _)) by lia.
      destruct (Z.eqb_spec rc (lextent_begin x + lextent_length x)) as [Erc|Hne].
      * subst rc. rewrite (uwrap_small 32) by lia. apply wp_bind_ok.
        eapply wp_ok_mono; [apply (wp_store_length t1 lv a' h pos q x ino ib cnt); done || lia|].
        intros _ [t2 a2]. simpl. intros (-> & C2 & lv' & T2 & G & Hlg).
        apply wp_dirty_in; [done|done|]. intros t3 S3 C3.
        apply wp_put_in; [done|]. intros t4 S4 C4. apply wp_ret. split; [done|]. split; [done|].
        right. do 3 (split; [done|]). exists lv'. split; [eapply tree_ok_sim; [symmetry; simpl; rewrite S4; exact S3|done]|].
        split; [done|]. left. by exists x.
      * apply wp_put_in; [done|]. intros t2 S2 C2. apply Hnew; try done. by intros y ->%Huniq.
  - assert (forall y, y ∈ elements lv -> object_id y <> ino) as Hother.
    { intros y Hy Hoy. pose proof (floor_no_extent _ Hsort Hkeys _ q x ino ib Hk Eo Eb Hfl Hq Ho y Hy Hoy).
      pose proof (xo_shape _ _ _ Hx y Hy Hoy). lia. }
    apply wp_put_in; [done|]. intros t2 S2 C2. apply wp_alloc_extent; try done; [|lia| |].
    + by eapply tree_ok_sim; [symmetry|].
    + intros a' Ha' Hno Hu. simpl. apply wp_ret, (Hnone _ _ free_space_start); try done. split; [|done].
      intros y (Hy & Hoy & _). by destruct (Hother y Hy).
    + intros rc a' Ha' Hrc Hlim' Hfree Hu. rewrite (proj2 (Z.eqb_neq _ _)) by lia. apply Hnew; try done.
      intros y (Hy & Hoy & _). by destruct (Hother y Hy).
Qed.
(** C23: with memory and room in the tree for a record,
    [emmcfs_exttree_add_block] grows a file at its end by [cnt] blocks that
    nobody used: they become the places of the blocks from [ib] on, the last
    extent of the file in the tree gets longer if they follow it and a record of
    their own is added otherwise, and no other block of any file moves.  It
    returns 0, with nothing changed, only when the allocator refuses [cnt] blocks
    from the place behind that extent on (from the start of the free space on for
    the first extent). *)
Theorem emmcfs_exttree_add_block_correct t lv a ino ib cnt :
  exttree_ok t lv -> calm t -> spacious t -> alloc_ok a ->
  0 <= ino < 2 ^ 64 -> 0 <= ib < 2 ^ 32 - 1 -> 0 < cnt < 2 ^ 32 -> extents_ok (elements lv) ino ib ->
  le emmcfs_exttree_cmpfn (first_rec (elements lv)) (block_key ino ib) ->
  exists rc s, add_block ino ib cnt (t, a) = (Ok rc, s) /\ add_post t (elements lv) a ino ib cnt rc s.
Proof using HN Hmax Hrec Hstale.
  intros Ht Hc Hsp Ha Hi Hb Hcnt Hx Hfirst.
  pose proof (wp_exttree_add_block t lv a ino ib cnt Ht Hc Hsp Ha Hi Hb Hcnt Hx Hfirst) as W.
  unfold wp, ok in W. destruct (add_block ino ib cnt (t, a)) as [[rc|e|] s]; [|done|done]. by exists rc, s.
Qed.
End properties.

(** ** A tree with one file *)

(** The file 20 has the blocks 4 to 7 of [mounted_fsm]; the blocks from 8 on are
    free. *)
Definition extent_tree : btree := one_leaf [exttree_record 0 0 1 1; exttree_record 20 0 4 4].
Definition block_store : allocator (T := froot) (J := page_log) := Allocator mounted_fsm [] [].
#[local] Instance block_store_alloc : BlockAlloc (allocator (T := froot) (J := page_log)) :=
  fsm_block_alloc true 32 example_inode eq_refl page_log_ok.

Lemma extent_tree_ok : tree_ok 256 40 emmcfs_exttree_cmpfn ext_key_ok extent_tree
  [[(1, [exttree_record 0 0 1 1; exttree_record 20 0 4 4])]].
Proof.
  apply one_leaf_ok; [done|by vm_compute| |].
  - repeat (apply Forall_cons; split; [constructor; [constructor| | |constructor]; by vm_compute|]). done.
  - repeat (apply SSorted_cons; split; [|repeat (apply Forall_cons; split; [by vm_compute|]); done]). constructor.
Qed.

Lemma extent_tree_file : extents_ok [exttree_record 0 0 1 1; exttree_record 20 0 4 4] 20 4.
Proof.
  assert (forall r, r ∈ [exttree_record 0 0 1 1; exttree_record 20 0 4 4] -> object_id r = 20 ->
    r = exttree_record 20 0 4 4) as H.
  { intros r [->|[->|[]%elem_of_nil]%elem_of_cons]%elem_of_cons Ho; [by vm_compute in Ho|done]. }
  split.
  - intros r Hr Ho. rewrite (H r Hr Ho). by vm_compute.
  - intros r s Hr Hs Hor Hos Hlt. rewrite (H r Hr Hor), (H s Hs Hos) in Hlt. lia.
  - intros r Hr Ho. exists (exttree_record 20 0 4 4). split; [set_solver|]. split; by vm_compute.
Qed.

Lemma emmcfs_exttree_get_block_correct_witness :
  exists t', emmcfs_exttree_get_block true (fun _ => false) Z.max (replicate 12 7) 20 1 extent_tree =
    (Ok (5, Some 3), t') /\ t' ≈ extent_tree.
Proof.
  pose proof (emmcfs_exttree_get_block_correct 256 40 true (fun _ => false) Z.max (replicate 12 7) eq_refl
    ltac:(unfold node_size_ok; lia) extent_tree _ 20 1 4 extent_tree_ok ltac:(lia) ltac:(lia) extent_tree_file
    ltac:(by vm_compute)) as W.
  destruct (emmcfs_exttree_get_block _ _ _ _ 20 1 extent_tree) as [[res|e|] t'] eqn:E; [|done|by destruct W as [[] _]].
  destruct W as [S H]. destruct (H ltac:(constructor)) as [_ [H1 _]].
  exists t'. split; [|done]. rewrite (H1 (exttree_record 20 0 4 4)); [by vm_compute| |by vm_compute..].
  apply list_elem_of_lookup. by exists 1%nat.
Defined.

(** Two blocks are taken behind the file, and make its extent longer; for 100
    there is no room. *)
Lemma emmcfs_exttree_add_block_correct_witness :
  exists s s', emmcfs_exttree_add_block 256 40 0 true (fun _ => false) Z.max (replicate 12 7) 1 20 4 2
    (extent_tree, block_store) = (Ok 8, s) /\
    add_post 256 40 1 extent_tree [exttree_record 0 0 1 1; exttree_record 20 0 4 4] block_store 20 4 2 8 s /\
    emmcfs_exttree_add_block 256 40 0 true (fun _ => false) Z.max (replicate 12 7) 1 20 4 100
      (extent_tree, block_store) = (Ok 0, s') /\ fst s' ≈ extent_tree.
Proof.
  pose proof (fun cnt : Z => emmcfs_exttree_add_block_correct 256 40 0 true (fun _ => false) Z.max (replicate 12 7) eq_refl
    ltac:(unfold node_size_ok; lia) ltac:(by vm_compute) ltac:(by vm_compute) 1 extent_tree _ block_store 20 4 cnt extent_tree_ok
    ltac:(constructor) ltac:(by vm_compute) (conj mounted_inv (conj mounted_geometry plenty_nil))) as W.
  destruct (W 2 ltac:(lia) ltac:(lia) ltac:(lia) extent_tree_file ltac:(by vm_compute)) as (rc & s & E & H).
  destruct (W 100 ltac:(lia) ltac:(lia) ltac:(lia) extent_tree_file ltac:(by vm_compute)) as (rc' & s' & E' & H').
  assert (rc = 8) as -> by (apply (f_equal fst) in E; vm_compute in E; congruence).
  assert (rc' = 0) as -> by (apply (f_equal fst) in E'; vm_compute in E'; congruence).
  exists s, s'. split; [exact E|]. split; [exact H|]. split; [exact E'|].
  destruct H' as (_ & _ & [(_ & _ & S & _)|(H0 & _)]); [exact S|lia].
Defined.
