(* ===== verification/Fork.v ===== *)
(** * The blocks of a file: its fork (inode.c, file.c, emmcfs.h)

    An inode has nine extents of its own; further extents are records of the
    extents tree.  The layout of a fork on the device, the translation of the
    blocks of a file, its expansion and its truncation, on the inode, the
    extents tree and the blocks of the volume.  The locks are not
    represented. *)

From S2P Require Import Prelude Monad Data FsmBtree FsmAlloc Fsm Blocks BnodeBytes BnodeRepr BnodePool Btree Exttree.
Open Scope Z_scope.

Definition EMMCFS_CAT_TREE_INO : Z := 2.
Definition EMMCFS_LEB_BITMAP_INO : Z := 3.
Definition EMMCFS_EXTENTS_TREE_INO : Z := 4.
Definition EMMCFS_EXTENTS_COUNT_IN_FORK : Z := 9.
Definition EMMCFS_FORK_MAGIC : Z := 0x46.
Definition TREE_EXPAND_STEP (x : Z) : Z := Z.shiftr x 7.

(** ** State *)

(** [struct emmcfs_extent_info], and [struct emmcfs_extent] of the layout. *)
Record extent_info := Extent { first_block : Z; block_count : Z }.

(** [struct emmcfs_fork_info] *)
Record fork_info := ForkInfo {
  fork_blocks : Z;
  fork_prealloc_count : Z;
  fork_prealloc_start : Z;
  fork_extents : list extent_info;
  used_extents : Z
}.

(** [struct emmcfs_fork] *)
Record emmcfs_fork := LayoutFork {
  fork_magic : Z;
  size_in_bytes : Z;
  total_blocks_count : Z;
  layout_extents : list extent_info
}.

(** The types of [i_mode]. *)
Inductive file_type := S_IFREG | S_IFDIR | S_IFLNK | S_IFCHR | S_IFBLK | S_IFIFO | S_IFSOCK.

(** The fields of [struct inode] and [struct emmcfs_inode_info] that say where
    the contents are; [i_bytes] is what [inode_add_bytes] counts. *)
Record inode := Inode {
  ino : Z;
  i_mode : file_type;
  i_size : Z;
  i_rdev : Z;
  i_blocks : Z;
  i_bytes : Z;
  i_fork : fork_info
}.

Definition set_fork (i : inode) f := Inode (ino i) (i_mode i) (i_size i) (i_rdev i) (i_blocks i) (i_bytes i) f.
Definition add_bytes (i : inode) n := Inode (ino i) (i_mode i) (i_size i) (i_rdev i) (i_blocks i) (i_bytes i + n) (i_fork i).
Definition set_i_size (i : inode) s := Inode (ino i) (i_mode i) s (i_rdev i) (i_blocks i) (i_bytes i) (i_fork i).

Definition is_device (i : inode) : bool := match i_mode i with S_IFCHR | S_IFBLK => true | _ => false end.

Definition null_extent : extent_info := Extent 0 0.
Definition blank_extents : list extent_info := replicate (Z.to_nat EMMCFS_EXTENTS_COUNT_IN_FORK) null_extent.

(** ** The layout *)
Definition is_fork_valid (fork : option emmcfs_fork) : bool :=
  match fork with
  | None => false
  | Some fork => fork_magic fork =? EMMCFS_FORK_MAGIC
  end.

(** [emmcfs_lfork_to_rfork] *)
Definition emmcfs_lfork_to_rfork (lfork : emmcfs_fork) (rfork : fork_info) : fork_info :=
  ForkInfo (fork_blocks rfork) (fork_prealloc_count rfork) (fork_prealloc_start rfork)
    (layout_extents lfork)
    (Z.of_nat (length (filter (fun e => first_block e <> 0) (layout_extents lfork)))).

(** [emmcfs_parse_fork]: the error code and the inode. *)
Definition emmcfs_parse_fork (block_size_shift : Z) (i : inode) (lfork : option emmcfs_fork) : Z * inode :=
  match lfork with
  | Some lf =>
    if negb (is_fork_valid lfork) then (- EINVAL, i)
    else
      let size := s64 (size_in_bytes lf) in
      let '(size, rdev) := if is_device i then (0, u32 size) else (size, i_rdev i) in
      let total := total_blocks_count lf in
      let fork := ForkInfo total 0 0 (fork_extents (i_fork i)) (used_extents (i_fork i)) in
      let i := Inode (ino i) (i_mode i) size rdev (u32 (Z.shiftl total (block_size_shift - 9))) (i_bytes i) fork in
      if u64 (Z.shiftl total block_size_shift) <? u64 size then (- EINVAL, i)
      else (0, set_fork i (emmcfs_lfork_to_rfork lf fork))
  | None => (- EINVAL, i)
  end.

(** [emmcfs_form_fork] *)
Definition emmcfs_form_fork (block_size_shift : Z) (i : inode) : emmcfs_fork :=
  if is_device i then LayoutFork EMMCFS_FORK_MAGIC (u64 (i_rdev i)) 0 blank_extents
  else
    let partial := if Z.land (i_size i) (Z.shiftl 1 block_size_shift - 1) =? 0 then 0 else 1 in
    let used := Z.to_nat (used_extents (i_fork i)) in
    LayoutFork EMMCFS_FORK_MAGIC (u64 (i_size i))
      (u32 (Z.shiftr (i_size i) block_size_shift + partial))
      (take used (fork_extents (i_fork i)) ++ drop used blank_extents).

(** ** Expansion and translation *)
Definition align_up (val gran_log2 : Z) : Z :=
  Z.land (u64 (val + Z.shiftl 1 gran_log2 - 1)) (Z.lnot (Z.shiftl 1 gran_log2 - 1)).

(** The result of [emmcfs_get_block] in a [struct buffer_head]. *)
Record buffer_head := BufferHead { b_mapped : bool; b_new : bool; b_blocknr : Z; b_size : Z }.

Section file.
(** What the B-tree leaves open (Btree.v). *)
Context (N max_record_len log_pages_per_node : Z) (mounted : bool) (beyond : Z -> bool)
  (grow : Z -> Z -> Z) (address : Z -> Z) (stale : list Z).
(** [sbi->fsm_info]: [free_space_start], [page_count]; [sbi]: the number of the
    blocks of the volume ([total_leb_count << log_blocks_in_leb]) and the sizes;
    [bdev_blocks], the size of the device in blocks. *)
Context `{BlockAlloc A} (free_space_start page_count total_leb_count log_blocks_in_leb block_size_shift
  bdev_blocks : Z).
(** [emmcfs_write_inode_to_bnode]: the code it returns; the catalog, which it
    changes, is not part of the state here. *)
Context (write_inode_to_bnode : inode -> Z).
Abbreviation W := (St (inode * (btree * A))).
Definition blocks_of_volume : Z := u64 (Z.shiftl total_leb_count log_blocks_in_leb).
Definition s_blocksize : Z := Z.shiftl 1 block_size_shift.

Definition in_volume {X} (x : St (btree * A) X) : W X := zoom snd (fun v s => (fst s, v)) x.
Definition in_blocks {X} (x : St A X) : W X := in_volume (in_alloc x).
Definition fork : W fork_info := gets (fun s => i_fork (fst s)).
Definition put_inode (f : inode -> inode) : W unit := modify (fun s => (f (fst s), snd s)).
Definition put_fork (f : fork_info) : W unit := put_inode (fun i => set_fork i f).

(** [fork->extents[k] = e] with the counters. *)
Definition with_extent (f : fork_info) (k : nat) (e : extent_info) (used total : Z) : fork_info :=
  ForkInfo (u32 total) (fork_prealloc_count f) (fork_prealloc_start f) (<[k := e]> (fork_extents f)) used.

(** [expand_fork]: the first of the new blocks. *)
Definition expand_fork (bcnt : Z) : W Z :=
  do f <- fork;
  let total := fork_blocks f in
  let used := used_extents f in
  if (total =? 0) && (used =? 0) then
    if Z.shiftr (u64 (free_space_start + bcnt)) (PAGE_SHIFT + 3) >=? page_count then fail (- ENOSPC)
    else
      do result <- in_blocks (get_free_block free_space_start bcnt);
      if result =? 0 then fail (- ENOSPC)
      else
        do_ put_fork (with_extent f 0 (Extent result (u32 bcnt)) 1 (total + bcnt));
        ret result
  else if used =? 0 then bug
  else
    match fork_extents f !! Z.to_nat (used - 1) with
    | None => bug
    | Some last =>
      let offset := u64 (first_block last + block_count last) in
      if u64 (offset + bcnt) >=? blocks_of_volume then fail (- ENOSPC)
      else if Z.shiftr (u64 (offset + bcnt)) (PAGE_SHIFT + 3) >=? page_count then fail (- ENOSPC)
      else
        do result <- in_blocks (get_free_block offset bcnt);
        if result =? 0 then fail (- ENOSPC)
        else if result =? offset then
          do_ put_fork (with_extent f (Z.to_nat (used - 1))
                          (Extent (first_block last) (u32 (block_count last + bcnt))) used (total + bcnt));
          ret result
        else if used >=? EMMCFS_EXTENTS_COUNT_IN_FORK then
          do err <- in_blocks (put_free_block result bcnt);
          do_ BUG_ON (negb (err =? 0));
          fail (- EPERM)
        else
          do_ put_fork (with_extent f (Z.to_nat used) (Extent result (u32 bcnt)) (used + 1) (total + bcnt));
          ret result
    end.

Definition sum_blocks (l : list extent_info) : Z := foldr (fun e n => block_count e + n) 0 l.

(** [rc = emmcfs_exttree_add_block(...); if (rc) fork->total_block_count += blk_cnt] *)
Definition expand_exttree (blk_cnt : Z) : W Z :=
  do i <- gets fst;
  let f := i_fork i in
  do_ BUG_ON (ino i =? EMMCFS_EXTENTS_TREE_INO);
  do rc <- in_volume (emmcfs_exttree_add_block N max_record_len log_pages_per_node mounted beyond grow stale
                        free_space_start (ino i) (fork_blocks f) blk_cnt);
  if rc =? 0 then ret 0
  else
    do_ put_fork (ForkInfo (u32 (fork_blocks f + blk_cnt)) (fork_prealloc_count f) (fork_prealloc_start f)
                    (fork_extents f) (used_extents f));
    ret rc.

(** [find_new_block]: 0 for a failure. *)
Definition find_new_block (iblock blk_cnt : Z) : W Z :=
  do f <- fork;
  let delta := u64 (iblock - fork_blocks f) in
  do rc <- (if used_extents f <? EMMCFS_EXTENTS_COUNT_IN_FORK then
              do r <- try (expand_fork blk_cnt);
              match r with Ok rc => ret rc | _ => ret 0 end
            else if sum_blocks (fork_extents f) =? fork_blocks f then
              do r <- try (expand_fork blk_cnt);
              match r with
              | Ok rc => ret rc
              | Err e => if e =? - EPERM then expand_exttree blk_cnt else ret 0
              | Bug => bug
              end
            else expand_exttree blk_cnt);
  if rc =? 0 then ret 0 else ret (u64 (rc + delta)).

(** The loop of [emmcfs_find_old_block] over the extents of the fork. *)
Fixpoint find_in_fork (l : list extent_info) (iblock : Z) : option (Z * Z) :=
  match l with
  | [] => None
  | e :: l =>
    if iblock <? block_count e then Some (u64 (first_block e + iblock), u32 (block_count e - iblock))
    else find_in_fork l (u64 (iblock - block_count e))
  end.

(** [emmcfs_find_old_block]: the block and [max_blocks] if it is stored. *)
Definition emmcfs_find_old_block (iblock : Z) : W (Z * option Z) :=
  do f <- fork;
  match find_in_fork (take (Z.to_nat (used_extents f)) (fork_extents f)) iblock with
  | Some (b, max) => ret (b, Some max)
  | None =>
    do i <- gets fst;
    in_volume (in_tree (emmcfs_exttree_get_block mounted beyond grow stale (ino i) iblock))
  end.

(** The steps of the expansion of a file: [expand_gran_log2], [expand_min] and
    the first [expand_req]. *)
Definition expand_gran_log2 (i : inode) : Z := if ino i <? EMMCFS_1ST_FILE_INO then log_blocks_in_leb else 0.

Definition expand_min (i : inode) (iblock : Z) : Z :=
  align_up (if ino i =? EMMCFS_EXTENTS_TREE_INO then TREE_EXPAND_STEP blocks_of_volume
            else u64 (iblock - fork_blocks (i_fork i) + 1)) (expand_gran_log2 i).

Definition expand_req (i : inode) (iblock : Z) : Z :=
  align_up (Z.max (if ino i =? EMMCFS_CAT_TREE_INO then TREE_EXPAND_STEP blocks_of_volume else 1)
              (expand_min i iblock)) (expand_gran_log2 i).

(** The loop of [expand_file]: the block and the number of blocks taken. *)
Fixpoint expand_loop (fuel : nat) (iblock min gran req : Z) : W (Z * Z) :=
  match fuel with
  | O => bug
  | S fuel =>
    if req >=? min then
      do res <- find_new_block iblock req;
      if negb (res =? 0) then ret (res, req)
      else
        let req := Z.shiftr req 1 in
        if req <? Z.shiftl 1 gran then fail (- ENOSPC)
        else expand_loop fuel iblock min gran (align_up req gran)
    else fail (- ENOSPC)
  end.

(** Enough turns for a request that is halved. *)
Definition expand_fuel (req : Z) : nat := Z.to_nat (Z.log2 req) + 3.

(** [expand_file]; the flags of the superblock that it sets are not
    represented. *)
Definition expand_file (iblock : Z) : W Z :=
  do i <- gets fst;
  let gran := expand_gran_log2 i in
  let min := expand_min i iblock in
  let req := expand_req i iblock in
  do free <- gets (fun s => free_blocks (snd (snd s)));
  if min >? free then fail (- ENOSPC)
  else
    do '(res, req) <- expand_loop (expand_fuel req) iblock min gran req;
    do_ put_inode (fun i => add_bytes i (s_blocksize * req));
    if ino i <? EMMCFS_1ST_FILE_INO then
      do_ put_inode (fun i => set_i_size i (i_size i + s_blocksize * req));
      ret res
    else
      do i <- gets fst;
      let err := write_inode_to_bnode i in
      if err =? 0 then ret res else fail err.

(** [emmcfs_get_block] *)
Definition emmcfs_get_block (iblock : Z) (bh : buffer_head) (create : bool) : W buffer_head :=
  do i <- gets fst;
  let buffer_size := u32 (Z.shiftr (b_size bh) block_size_shift) in
  do found <- (if iblock >=? fork_blocks (i_fork i) then
                 if negb create then ret None
                 else
                   do_ BUG_ON (ino i =? EMMCFS_LEB_BITMAP_INO);
                   do res <- expand_file iblock;
                   ret (Some (res, 1, true))
               else
                 do '(res, max) <- emmcfs_find_old_block iblock;
                 if res =? 0 then fail (- ENOSPC) else ret (Some (res, default 1 max, false)));
  match found with
  | None => ret bh
  | Some (res, max_blocks, alloc) =>
    if res >? bdev_blocks then (if mounted then bug else fail (- EFAULT))
    else ret (BufferHead true alloc res (s_blocksize * Z.min max_blocks buffer_size))
  end.
End file.
