(* ===== verification/ForkProofs.v ===== *)
(** * The invariant of a file

    The extents of a fork as the list of those in use; the map from the blocks
    of a file to the blocks of the volume, and the invariant that ties it to
    the extents tree and to the blocks in use. *)

From S2P Require Import Prelude Monad Data FsmBtree FsmAlloc Fsm Blocks BnodeBytes BnodeRepr BnodePool BnodePoolProofs.
From S2P Require Import Btree BtreeInv BtreeFind BtreeInsert BtreeSpec Exttree ExttreeProofs ExttreeTheorems Fork.
Open Scope Z_scope.

(** ** The extents of a fork *)
Definition extent_ok (e : extent_info) : Prop :=
  0 < first_block e /\ 0 < block_count e /\ first_block e + block_count e <= 2 ^ 32.

Record fork_is (f : fork_info) (es : list extent_info) : Prop := {
  fi_extents : fork_extents f = es ++ replicate (9 - length es) null_extent;
  fi_used : used_extents f = Z.of_nat (length es);
  fi_length : (length es <= 9)%nat;
  fi_ok : Forall extent_ok es
}.

(** The place of a block of the file in its fork. *)
Fixpoint nth_block (es : list extent_info) (ib : Z) : option Z :=
  match es with
  | [] => None
  | e :: es => if ib <? block_count e then Some (first_block e + ib) else nth_block es (ib - block_count e)
  end.

Lemma sum_blocks_app l1 l2 : sum_blocks (l1 ++ l2) = sum_blocks l1 + sum_blocks l2.
Proof. induction l1 as [|e l1 IH]; simpl; [done|]. rewrite IH. lia. Qed.

Lemma sum_blocks_null n : sum_blocks (replicate n null_extent) = 0.
Proof. by induction n. Qed.

Lemma sum_blocks_nonneg es : Forall extent_ok es -> 0 <= sum_blocks es.
Proof. induction 1 as [|e es [? ?] _ IH]; simpl; lia. Qed.

Lemma nth_block_app es1 es2 ib : Forall extent_ok es1 -> 0 <= ib ->
  nth_block (es1 ++ es2) ib = if ib <? sum_blocks es1 then nth_block es1 ib else nth_block es2 (ib - sum_blocks es1).
Proof.
  intros H. revert ib. induction H as [|e es1 (_ & Hc & _) Hes IH]; intros ib Hib; simpl.
  - rewrite (proj2 (Z.ltb_ge _ _)) by done. by rewrite Z.sub_0_r.
  - pose proof (sum_blocks_nonneg _ Hes). destruct (Z.ltb_spec ib (block_count e)).
    + by rewrite (proj2 (Z.ltb_lt _ _)) by lia.
    + rewrite IH by lia. replace (ib - block_count e <? sum_blocks es1) with (ib <? block_count e + sum_blocks es1).
      * by replace (ib - block_count e - sum_blocks es1) with (ib - (block_count e + sum_blocks es1)) by lia.
      * destruct (Z.ltb_spec ib (block_count e + sum_blocks es1)), (Z.ltb_spec (ib - block_count e) (sum_blocks es1)); lia.
Qed.

Lemma nth_block_Some es ib : Forall extent_ok es -> 0 <= ib ->
  is_Some (nth_block es ib) <-> ib < sum_blocks es.
Proof.
  intros H. revert ib. induction H as [|e es (_ & Hc & _) Hes IH]; intros ib Hib; simpl.
  - split; [by intros []|lia].
  - destruct (Z.ltb_spec ib (block_count e)).
    + split; [|done]. intros _. pose proof (sum_blocks_nonneg _ Hes). lia.
    + rewrite IH by lia. lia.
Qed.

Lemma nth_block_bound es ib p : Forall extent_ok es -> 0 <= ib -> nth_block es ib = Some p -> 0 < p < 2 ^ 32.
Proof.
  intros H. revert ib. induction H as [|e es (Hf & Hc & Hl) Hes IH]; intros ib Hib; simpl; [done|].
  destruct (Z.ltb_spec ib (block_count e)); [intros [= <-]; lia|]. apply IH. lia.
Qed.

(** The search of the code, with the distance to the end of the extent. *)
Lemma find_in_fork_ok es ib : Forall extent_ok es -> 0 <= ib < 2 ^ 64 ->
  match find_in_fork es ib with
  | Some (p, max) => 0 < max /\ (forall k, 0 <= k < max -> nth_block es (ib + k) = Some (p + k))
  | None => sum_blocks es <= ib
  end.
Proof.
  intros H. revert ib. induction H as [|e es (Hf & Hc & Hl) Hes IH]; intros ib Hib; simpl; [lia|].
  destruct (Z.ltb_spec ib (block_count e)) as [Hlt|Hge].
  - rewrite !uwrap_small by lia. split; [lia|]. intros k Hk.
    rewrite (proj2 (Z.ltb_lt _ _)) by lia. f_equal. lia.
  - rewrite uwrap_small by lia. specialize (IH (ib - block_count e) ltac:(lia)).
    destruct (find_in_fork es (ib - block_count e)) as [[p max]|]; [|lia].
    destruct IH as [H0 H1]. split; [done|]. intros k Hk. rewrite (proj2 (Z.ltb_ge _ _)) by lia.
    rewrite <- (H1 k Hk). f_equal. lia.
Qed.

(** *** Changes *)
Lemma fork_is_sum f es : fork_is f es -> sum_blocks (fork_extents f) = sum_blocks es.
Proof. intros [-> _ _ _]. rewrite sum_blocks_app, sum_blocks_null. lia. Qed.

Lemma fork_is_used f es : fork_is f es -> take (Z.to_nat (used_extents f)) (fork_extents f) = es.
Proof. intros [-> -> _ _]. by rewrite Nat2Z.id, take_app_length. Qed.

(** A new extent behind those in use. *)
Lemma fork_is_snoc f es e total : fork_is f es -> (length es < 9)%nat -> extent_ok e ->
  fork_is (with_extent f (length es) e (Z.of_nat (length es) + 1) total) (es ++ [e]).
Proof.
  intros [E1 E2 E3 E4] Hlt He. unfold with_extent. constructor; simpl.
  - rewrite E1. replace (9 - length es)%nat with (S (9 - length (es ++ [e]))) by len. simpl.
    rewrite mid_insert by done. by rewrite <- app_assoc.
  - len.
  - len.
  - apply Forall_app. split; [done|]. by apply Forall_singleton.
Qed.

(** The last extent replaced. *)
Lemma fork_is_last f es e e' used total : fork_is f (es ++ [e]) -> extent_ok e' -> used = used_extents f ->
  fork_is (with_extent f (length es) e' used total) (es ++ [e']).
Proof.
  intros [E1 E2 E3 E4] He ->. unfold with_extent. constructor; simpl.
  - rewrite E1, <- !app_assoc. simpl. rewrite mid_insert by done. by rewrite !length_app.
  - rewrite E2. len.
  - len.
  - apply Forall_app in E4 as [E4 _]. apply Forall_app. split; [done|]. by apply Forall_singleton.
Qed.

(** ** The map of a file *)
Definition file_maps (es : list extent_info) (l : list record) (ino ib p : Z) : Prop :=
  0 <= ib /\ (nth_block es ib = Some p \/ sum_blocks es <= ib /\ maps l ino ib p).

Section invariant.
Context (N max_record_len : Z) `{BlockAlloc A}.
Abbreviation exttree_ok := (tree_ok N max_record_len emmcfs_exttree_cmpfn ext_key_ok).

(** What is true of a file, its records in the extents tree and the blocks of
    the volume: the extents of the fork come before those of the tree, which
    are used when the fork is full only; they place every block of the file;
    the places are in use, and no two blocks have the same. *)
Record file_ok (i : inode) (t : btree) (a : A) (lv : list (list (Z * list record))) (es : list extent_info) : Prop := {
  fo_tree : exttree_ok t lv;
  fo_alloc : alloc_ok a;
  fo_ino : 0 <= ino i < 2 ^ 64;
  fo_fork : fork_is (i_fork i) es;
  fo_blocks : 0 <= fork_blocks (i_fork i) < 2 ^ 32 - 1;
  fo_sum : sum_blocks es <= fork_blocks (i_fork i);
  fo_full : sum_blocks es < fork_blocks (i_fork i) -> length es = 9%nat;
  fo_extents : extents_ok (elements lv) (ino i) (fork_blocks (i_fork i));
  fo_behind r : r ∈ elements lv -> object_id r = ino i -> sum_blocks es <= iblock r;
  fo_total ib : sum_blocks es <= ib < fork_blocks (i_fork i) -> exists p, maps (elements lv) (ino i) ib p;
  fo_used ib p : file_maps es (elements lv) (ino i) ib p -> in_use a p = true;
  fo_inj ib ib' p : file_maps es (elements lv) (ino i) ib p -> file_maps es (elements lv) (ino i) ib' p -> ib = ib';
  fo_first : exists r, r ∈ elements lv /\ object_id r < ino i
}.

Lemma maps_bound l ino ib p last : extents_ok l ino last -> maps l ino ib p -> 0 <= ib < last /\ 0 < p < 2 ^ 32.
Proof. intros Hx (r & Hr & Ho & Hb & ->). destruct (xo_shape _ _ _ Hx r Hr Ho) as (_ & ? & ? & ? & ? & ?). lia. Qed.

Lemma maps_fun l ino ib p q last : sorted emmcfs_exttree_cmpfn l -> keys_ok ext_key_ok l -> extents_ok l ino last ->
  maps l ino ib p -> maps l ino ib q -> p = q.
Proof.
  intros Hs Hk Hx (r & Hr & Ho & Hb & ->) (s & Hs' & Ho' & Hb' & ->).
  assert (r = s) as ->; [|done]. apply (extent_unique l Hs Hk); [done|done|congruence|].
  destruct (Z.lt_trichotomy (iblock r) (iblock s)) as [Hlt|[?|Hlt]]; [|done|].
  - pose proof (xo_disjoint _ _ _ Hx r s Hr Hs' Ho Ho' Hlt). lia.
  - pose proof (xo_disjoint _ _ _ Hx s r Hs' Hr Ho' Ho Hlt). lia.
Qed.

Lemma file_maps_bound i t a lv es ib p : file_ok i t a lv es -> file_maps es (elements lv) (ino i) ib p ->
  0 <= ib < fork_blocks (i_fork i) /\ 0 < p < 2 ^ 32.
Proof.
  intros F [Hib [Hp|[_ Hp]]].
  - pose proof (fi_ok _ _ (fo_fork _ _ _ _ _ F)) as Hes. pose proof (fo_sum _ _ _ _ _ F).
    pose proof (nth_block_bound es ib p Hes Hib Hp).
    assert (ib < sum_blocks es) by (apply nth_block_Some; eauto). lia.
  - eapply maps_bound; [apply F|done].
Qed.

(** The keys of the file are behind the first record of the tree. *)
Lemma file_first i t a lv es ib : file_ok i t a lv es -> 0 <= ib < 2 ^ 32 - 1 ->
  le emmcfs_exttree_cmpfn (first_rec (elements lv)) (block_key (ino i) ib).
Proof.
  intros F Hib. destruct (fo_first _ _ _ _ _ F) as (r & Hr & Ho).
  destruct (tree_sorted N max_record_len t lv (fo_tree _ _ _ _ _ F)) as [Hs Hk].
  destruct (block_key_ok (ino i) ib) as (Hkey & Eo & Eb);
    [apply F|lia|unfold IBLOCK_DOES_NOT_MATTER; lia|].
  unfold le. apply cmp_le; [done|]. left. rewrite Eo.
  destruct (elements lv) as [|h l]; [by apply elem_of_nil in Hr|].
  change (first_rec (h :: l)) with h. apply elem_of_cons in Hr as [->|Hr]; [done|]. apply SSorted_cons in Hs as [_ Hs].
  rewrite Forall_forall in Hs. specialize (Hs r Hr). apply cmp_neg in Hs; [lia|].
  unfold keys_ok in Hk. rewrite Forall_forall in Hk. apply Hk. set_solver.
Qed.

(** What is said of a file depends on its number and its fork only. *)
Lemma file_ok_inode i i' t a lv es : file_ok i t a lv es -> ino i' = ino i -> i_fork i' = i_fork i ->
  file_ok i' t a lv es.
Proof. intros [] E1 E2. constructor; rewrite ?E1, ?E2; done. Qed.

(** ** Growth *)

(** The file has [cnt] more blocks, from [b] on; they were free, and the others
    have not moved. *)
Record file_grown (i : inode) (t : btree) (a : A) (lv : list (list (Z * list record))) (es : list extent_info)
    (i' : inode) (t' : btree) (a' : A) (lv' : list (list (Z * list record))) (es' : list extent_info)
    (cnt b : Z) : Prop := {
  fg_ok : file_ok i' t' a' lv' es';
  fg_ino : ino i' = ino i;
  fg_mode : i_mode i' = i_mode i;
  fg_blocks : fork_blocks (i_fork i') = fork_blocks (i_fork i) + cnt;
  fg_maps ib p : file_maps es' (elements lv') (ino i) ib p <->
    file_maps es (elements lv) (ino i) ib p \/
    fork_blocks (i_fork i) <= ib < fork_blocks (i_fork i) + cnt /\ p = b + (ib - fork_blocks (i_fork i));
  fg_others r : object_id r <> ino i -> r ∈ elements lv' <-> r ∈ elements lv;
  fg_free p : b <= p < b + cnt -> in_use a p = false;
  fg_used p : in_use a' p = in_chunk b cnt p || in_use a p
}.

(** The new blocks do not meet the old ones. *)
Lemma grown_inj i t a lv es (new : Z -> Z -> Prop) b cnt : file_ok i t a lv es ->
  (forall p, b <= p < b + cnt -> in_use a p = false) ->
  (forall ib p, new ib p <-> file_maps es (elements lv) (ino i) ib p \/
     fork_blocks (i_fork i) <= ib < fork_blocks (i_fork i) + cnt /\ p = b + (ib - fork_blocks (i_fork i))) ->
  forall ib ib' p, new ib p -> new ib' p -> ib = ib'.
Proof.
  intros F Hfree Hnew ib ib' p. rewrite !Hnew. intros [H1|[H1 E1]] [H2|[H2 E2]].
  - by eapply (fo_inj _ _ _ _ _ F).
  - exfalso. apply (fo_used _ _ _ _ _ F) in H1. rewrite Hfree in H1; [done|lia].
  - exfalso. apply (fo_used _ _ _ _ _ F) in H2. rewrite Hfree in H2; [done|lia].
  - lia.
Qed.

(** A file whose fork is not full has no records in the extents tree. *)
Lemma no_records i t a lv es : file_ok i t a lv es -> sum_blocks es = fork_blocks (i_fork i) ->
  forall r, r ∈ elements lv -> object_id r <> ino i.
Proof.
  intros F Hsum r Hr Ho. pose proof (fo_behind _ _ _ _ _ F r Hr Ho).
  destruct (xo_shape _ _ _ (fo_extents _ _ _ _ _ F) r Hr Ho) as (_ & ? & ? & ? & ? & ?). lia.
Qed.

Lemma no_maps l ino ib p : (forall r, r ∈ l -> object_id r <> ino) -> ~ maps l ino ib p.
Proof. intros H0 (r & Hr & Ho & _). by apply (H0 r). Qed.

Lemma fork_grown i t t' a a' lv es f' es' cnt b : file_ok i t a lv es -> t' ≈ t ->
  sum_blocks es = fork_blocks (i_fork i) -> fork_is f' es' -> fork_blocks f' = fork_blocks (i_fork i) + cnt ->
  0 < cnt -> fork_blocks (i_fork i) + cnt < 2 ^ 32 - 1 -> sum_blocks es' = sum_blocks es + cnt ->
  (forall ib, 0 <= ib -> nth_block es' ib =
     if ib <? sum_blocks es then nth_block es ib
     else if ib <? sum_blocks es + cnt then Some (b + (ib - sum_blocks es)) else None) ->
  alloc_ok a' -> (forall p, b <= p < b + cnt -> in_use a p = false) ->
  (forall p, in_use a' p = in_chunk b cnt p || in_use a p) ->
  file_grown i t a lv es (set_fork i f') t' a' lv es' cnt b.
Proof.
  intros F St Hsum Hf' Eb Hcnt Hlim Esum Hnth Ha' Hfree Hu.
  pose proof (no_records _ _ _ _ _ F Hsum) as Hno.
  assert (forall ib p, file_maps es' (elements lv) (ino i) ib p <->
    file_maps es (elements lv) (ino i) ib p \/
    fork_blocks (i_fork i) <= ib < fork_blocks (i_fork i) + cnt /\ p = b + (ib - fork_blocks (i_fork i))) as Hmaps.
  { intros ib p. unfold file_maps. pose proof (no_maps (elements lv) (ino i) ib p Hno) as Hnm.
    destruct (decide (0 <= ib)) as [Hib|]; [|split; [by intros []|intros [[]|[]]; [done|]; pose proof (fo_blocks _ _ _ _ _ F); lia]].
    rewrite (Hnth ib Hib), <- Hsum.
    assert (nth_block es ib = None \/ ib < sum_blocks es) as Hn.
    { destruct (nth_block es ib) eqn:E; [right|by left]. apply (nth_block_Some es ib); [apply (fi_ok _ _ (fo_fork _ _ _ _ _ F))|done|eauto]. }
    destruct (Z.ltb_spec ib (sum_blocks es)), (Z.ltb_spec ib (sum_blocks es + cnt)); try lia;
      (split; [intros [_ [E|[_ ?]]]; [|done]|intros [[_ [E|[_ ?]]]|[? E]]; try done]);
      try (split; [done|]); try (by left); try lia; try (destruct Hn; [congruence|lia]).
    - left. split; [done|]. by left.
    - right. injection E as <-. lia.
    - left. by subst p. }
  constructor; simpl; try done.
  pose proof F as [F1 F2 F3 F4 F5 F6 F7 F8 F9 F10 F11 F12 F13].
  assert (forall ib p, file_maps es' (elements lv) (ino i) ib p -> in_use a' p = true) as Huse.
  { intros ib p [Hm|[Hb ->]]%Hmaps; rewrite Hu.
    - rewrite (F11 _ _ Hm). apply orb_true_r.
    - destruct (in_chunk_spec b cnt (b + (ib - fork_blocks (i_fork i)))); [done|lia]. }
  constructor; simpl; try done; try lia.
  - by eapply tree_ok_sim; [symmetry|].
  - rewrite Eb. split; [intros r Hr Ho|intros r s Hr _ Ho _ _|intros r Hr Ho]; by destruct (Hno r Hr Ho).
  - intros r Hr Ho. by destruct (Hno r Hr Ho).
  - exact (grown_inj _ _ _ _ _ _ _ _ F Hfree Hmaps).
Qed.

(** Growth in the extents tree. *)
Lemma tree_grown i t t' a a' lv lv' es f' cnt b : file_ok i t a lv es -> length es = 9%nat ->
  exttree_ok t' lv' -> grown (elements lv) (elements lv') (ino i) (fork_blocks (i_fork i)) cnt b ->
  fork_extents f' = fork_extents (i_fork i) -> used_extents f' = used_extents (i_fork i) ->
  fork_blocks f' = fork_blocks (i_fork i) + cnt ->
  0 < cnt -> fork_blocks (i_fork i) + cnt < 2 ^ 32 - 1 ->
  alloc_ok a' -> (forall p, b <= p < b + cnt -> in_use a p = false) ->
  (forall p, in_use a' p = in_chunk b cnt p || in_use a p) ->
  file_grown i t a lv es (set_fork i f') t' a' lv' es cnt b.
Proof.
  intros F Hfull Ht' (Hx' & Hothers & Hm) Ee Eu Eb Hcnt Hlim Ha' Hfree Hu.
  pose proof F as [F1 F2 F3 F4 F5 F6 F7 F8 F9 F10 F11 F12 F13].
  assert (forall ib p, file_maps es (elements lv') (ino i) ib p <->
    file_maps es (elements lv) (ino i) ib p \/
    fork_blocks (i_fork i) <= ib < fork_blocks (i_fork i) + cnt /\ p = b + (ib - fork_blocks (i_fork i))) as Hmaps.
  { intros ib p. unfold file_maps. rewrite Hm. split; [|intros [?|?]; [tauto|split; [lia|]; right; split; [lia|by right]]].
    intros (Hib & [Hn|(Hs & [?|(_ & ?)])]); [left; tauto|left; tauto|by right]. }
  constructor; simpl; try done.
  constructor; simpl; try done; try lia.
  - destruct F4 as [G1 G2 G3 G4]. constructor; [congruence|congruence|done|done].
  - rewrite Eb. done.
  - intros r Hr Ho. destruct (xo_shape _ _ _ Hx' r Hr Ho) as (_ & H0 & Hl & _).
    destruct (proj1 (Hm (ino i) (iblock r) (lextent_begin r))) as [(r0 & Hr0 & Ho0 & Hb0 & _)|(_ & Hb & _)].
    + exists r. split; [done|]. split; [done|]. split; lia.
    + specialize (F9 r0 Hr0 Ho0). lia.
    + lia.
  - intros ib Hib. destruct (decide (ib < fork_blocks (i_fork i))) as [Hlt|Hge].
    + destruct (F10 ib) as [p Hp]; [lia|]. exists p. apply Hm. by left.
    + eexists. apply Hm. right. split; [done|]. split; [lia|done].
  - intros ib p [Hp|[Hib ->]]%Hmaps; rewrite Hu.
    + rewrite (F11 _ _ Hp). apply orb_true_r.
    + destruct (in_chunk_spec b cnt (b + (ib - fork_blocks (i_fork i)))); [done|lia].
  - exact (grown_inj _ _ _ _ _ _ _ _ F Hfree Hmaps).
  - destruct F13 as (r & Hr & Ho). exists r. split; [|done]. apply Hothers; [lia|done].
Qed.

(** The file on an equal tree, with the same blocks in use. *)
Lemma file_ok_sim i t t' a a' lv es : file_ok i t a lv es -> t' ≈ t -> alloc_ok a' ->
  (forall p, in_use a' p = in_use a p) -> file_ok i t' a' lv es.
Proof.
  intros [F1 F2 F3 F4 F5 F6 F7 F8 F9 F10 F11 F12 F13] St Ha' Hu. constructor; try done.
  - by eapply tree_ok_sim; [symmetry|].
  - intros ib p Hp. rewrite Hu. by eapply F11.
Qed.
End invariant.

(** ** The steps of the code *)
Section steps.
Context (N max_record_len log_pages_per_node : Z) (mounted : bool) (beyond : Z -> bool)
  (grow : Z -> Z -> Z) (stale : list Z).
Context `{BlockAlloc A} (free_space_start page_count total_leb_count log_blocks_in_leb : Z).
Abbreviation file_ok := (file_ok N max_record_len).
Abbreviation file_grown := (file_grown N max_record_len).
Abbreviation expand_fork := (expand_fork (A := A) free_space_start page_count total_leb_count log_blocks_in_leb).
Abbreviation state := (inode * (btree * A))%type.

(** A failure leaves the file as it was. *)
Definition unchanged (i : inode) (t : btree) (a : A) (s : state) : Prop :=
  fst s = i /\ fst (snd s) ≈ t /\ calm (fst (snd s)) /\ alloc_ok (snd (snd s)) /\
  forall p, in_use (snd (snd s)) p = in_use a p.

(** The place from which the blocks of a file go on: behind the last extent of
    the fork, or behind the records of the extents tree when the fork is full. *)
Definition continued es (l : list record) (ino hint : Z) : Prop :=
  match last es with
  | None => hint = free_space_start
  | Some e => hint = first_block e + block_count e
  end \/ length es = 9%nat /\ next_place free_space_start l ino hint.

(** The file cannot have [n] more blocks: the allocator refuses them, or they
    would reach the end of the volume or of its bitmap. *)
Definition refused (a : A) es (l : list record) (ino n : Z) : Prop := exists a' hint,
  (forall p, in_use a' p = in_use a p) /\ continued es l ino hint /\
  (refuses a' hint n \/ blocks_of_volume total_leb_count log_blocks_in_leb <= u64 (hint + n) \/
   page_count <= Z.shiftr (u64 (hint + n)) (PAGE_SHIFT + 3)).

Definition grown_by (i : inode) (t : btree) (a : A) lv es (cnt b : Z) (s : state) : Prop :=
  calm (fst (snd s)) /\
  exists lv' es', file_grown i t a lv es (fst s) (fst (snd s)) (snd (snd s)) lv' es' cnt b.

Lemma wp_in_blocks {X} (x : St A X) i t a Q :
  wp x a (fun r a' => Q r (i, (t, a'))) -> wp (in_blocks x) (i, (t, a)) Q.
Proof. intros Hx. by apply wp_zoom, wp_zoom. Qed.

(** The blocks that [get_free_block] gives. *)
Definition fresh (a a' : A) (cnt b : Z) : Prop :=
  alloc_ok a' /\ 0 < b /\ b + cnt <= 2 ^ 32 /\ (forall p, b <= p < b + cnt -> in_use a p = false) /\
  (forall p, in_use a' p = in_chunk b cnt p || in_use a p).

Lemma wp_get_blocks i t a hint cnt {X} (k : Z -> St state X) Q : alloc_ok a -> 0 < cnt ->
  (forall a', alloc_ok a' -> refuses a hint cnt -> (forall p, in_use a' p = in_use a p) -> wp (k 0) (i, (t, a')) Q) ->
  (forall b a', fresh a a' cnt b -> wp (k b) (i, (t, a')) Q) ->
  wp (do b <- in_blocks (get_free_block hint cnt); k b) (i, (t, a)) Q.
Proof using.
  intros Ha Hcnt H0 H1. apply wp_bind_ok, wp_in_blocks.
  eapply wp_ok_mono; [by apply get_free_block_ok|]. intros b a' (Ha' & [(-> & Hno & Hu)|(Hb & Hfree & Hu)]).
  - by apply H0.
  - apply H1. split_and!; try done.
    pose proof (in_use_bound a' (b + cnt - 1) Ha') as Hlim. rewrite Hu in Hlim.
    destruct (in_chunk_spec b cnt (b + cnt - 1)); [|lia]. specialize (Hlim eq_refl). lia.
Qed.

(** The last extent of a fork made longer. *)
Lemma nth_block_longer es e e' cnt ib : Forall extent_ok (es ++ [e]) -> 0 <= ib -> 0 < cnt ->
  first_block e' = first_block e -> block_count e' = block_count e + cnt ->
  nth_block (es ++ [e']) ib =
    if ib <? sum_blocks (es ++ [e]) then nth_block (es ++ [e]) ib
    else if ib <? sum_blocks (es ++ [e]) + cnt
    then Some (first_block e + block_count e + (ib - sum_blocks (es ++ [e]))) else None.
Proof using.
  intros [He [(_ & Hc & _) _]%Forall_cons]%Forall_app Hib Hcnt E1 E2. rewrite !nth_block_app, sum_blocks_app by done.
  simpl. rewrite E1, E2. destruct (Z.ltb_spec ib (sum_blocks es)).
  - by rewrite (proj2 (Z.ltb_lt _ _)) by lia.
  - destruct (Z.ltb_spec (ib - sum_blocks es) (block_count e)), (Z.ltb_spec (ib - sum_blocks es) (block_count e + cnt)),
      (Z.ltb_spec ib (sum_blocks es + (block_count e + 0)));
      try lia; [done| |]; destruct (Z.ltb_spec ib (sum_blocks es + (block_count e + 0) + cnt)); try lia; f_equal; lia.
Qed.

Lemma nth_block_snoc es b cnt ib : Forall extent_ok es -> 0 <= ib -> 0 < cnt ->
  nth_block (es ++ [Extent b cnt]) ib =
    if ib <? sum_blocks es then nth_block es ib
    else if ib <? sum_blocks es + cnt then Some (b + (ib - sum_blocks es)) else None.
Proof using.
  intros He Hib Hcnt. rewrite nth_block_app by done. simpl. destruct (Z.ltb_spec ib (sum_blocks es)); [done|].
  destruct (Z.ltb_spec (ib - sum_blocks es) cnt), (Z.ltb_spec ib (sum_blocks es + cnt)); done || lia.
Qed.

Lemma wp_put_fork f i v {X} (k : unit -> St state X) Q : wp (k tt) (set_fork i f, v) Q ->
  wp (bind (put_fork f) k) (i, v) Q.
Proof using. done. Qed.

(** A new extent of the fork on fresh blocks. *)
Lemma snoc_grown i t a a' lv es cnt b used : file_ok i t a lv es -> calm t -> sum_blocks es = fork_blocks (i_fork i) ->
  0 < cnt -> fork_blocks (i_fork i) + cnt < 2 ^ 32 - 1 -> (length es < 9)%nat -> fresh a a' cnt b ->
  used = Z.of_nat (length es) + 1 ->
  grown_by i t a lv es cnt b
    (set_fork i (with_extent (i_fork i) (length es) (Extent b (u32 cnt)) used (fork_blocks (i_fork i) + cnt)), (t, a')).
Proof using.
  intros F Hc Hsum Hcnt Hlim Hl (Ha' & Hb & Hbl & Hfree & Hu) ->. pose proof (fo_fork _ _ _ _ _ _ _ F) as Hf.
  pose proof (fo_blocks _ _ _ _ _ _ _ F) as H0. pose proof (fi_ok _ _ Hf) as Hes.
  split; [done|]. exists lv, (es ++ [Extent b cnt]). rewrite (uwrap_small 32 cnt) by lia. apply fork_grown; try done.
  - by apply fork_is_snoc.
  - simpl. by rewrite uwrap_small by lia.
  - rewrite sum_blocks_app. simpl. lia.
  - intros ib Hib. by apply nth_block_snoc.
Qed.

(** The last extent of the fork with fresh blocks behind it. *)
Lemma last_grown i t a a' lv es e cnt : file_ok i t a lv (es ++ [e]) -> calm t ->
  sum_blocks (es ++ [e]) = fork_blocks (i_fork i) ->
  0 < cnt -> fork_blocks (i_fork i) + cnt < 2 ^ 32 - 1 -> fresh a a' cnt (first_block e + block_count e) ->
  grown_by i t a lv (es ++ [e]) cnt (first_block e + block_count e)
    (set_fork i (with_extent (i_fork i) (length es) (Extent (first_block e) (u32 (block_count e + cnt)))
       (used_extents (i_fork i)) (fork_blocks (i_fork i) + cnt)), (t, a')).
Proof using.
  intros F Hc Hsum Hcnt Hlim (Ha' & Hb & Hbl & Hfree & Hu). pose proof (fo_fork _ _ _ _ _ _ _ F) as Hf.
  pose proof (fo_blocks _ _ _ _ _ _ _ F) as H0. pose proof (fi_ok _ _ Hf) as Hes.
  pose proof Hes as [_ [(H1 & H2 & H3) _]%Forall_cons]%Forall_app.
  split; [done|]. rewrite (uwrap_small 32 (block_count e + cnt)) by lia.
  exists lv, (es ++ [Extent (first_block e) (block_count e + cnt)]). apply fork_grown; try done.
  - apply (fork_is_last _ es e); [done| |done]. split; simpl; lia.
  - simpl. by rewrite uwrap_small by lia.
  - rewrite !sum_blocks_app. simpl. lia.
  - intros ib Hib. by apply nth_block_longer.
Qed.

(** [expand_fork] on a file without records in the extents tree. *)
Lemma wp_expand_fork i t a lv es cnt : file_ok i t a lv es -> calm t -> sum_blocks es = fork_blocks (i_fork i) ->
  0 < cnt -> fork_blocks (i_fork i) + cnt < 2 ^ 32 - 1 ->
  wp (expand_fork cnt) (i, (t, a)) (fun r s => match r with
    | Ok b => 0 < b /\ grown_by i t a lv es cnt b s
    | Err e => unchanged i t a s /\
        (e = - EPERM /\ length es = 9%nat \/ e = - ENOSPC /\ refused a es (elements lv) (ino i) cnt)
    | Bug => False
    end).
Proof using.
  intros F Hc Hsum Hcnt Hlim. pose proof (fo_fork _ _ _ _ _ _ _ F) as Hf.
  pose proof (fo_alloc _ _ _ _ _ _ _ F) as Ha. pose proof (fo_blocks _ _ _ _ _ _ _ F) as Hb.
  destruct Hf as [E1 E2 E3 E4] eqn:Ef. clear Ef.
  assert (forall a', alloc_ok a' -> (forall p, in_use a' p = in_use a p) -> unchanged i t a (i, (t, a'))) as Hun by done.
  assert (forall a', refused a es (elements lv) (ino i) cnt -> alloc_ok a' -> (forall p, in_use a' p = in_use a p) ->
    wp (fail (- ENOSPC) : St state Z) (i, (t, a')) (fun r s => match r with
    | Ok b => 0 < b /\ grown_by i t a lv es cnt b s
    | Err e => unchanged i t a s /\
        (e = - EPERM /\ length es = 9%nat \/ e = - ENOSPC /\ refused a es (elements lv) (ino i) cnt)
    | Bug => False
    end)) as Hnospc by (intros a' Hr Ha' Hu; apply wp_fail; split; [by apply Hun|by right]).
  unfold Fork.expand_fork. apply wp_gets. cbn [fst].
  destruct ((fork_blocks (i_fork i) =? 0) && (used_extents (i_fork i) =? 0)) eqn:E0.
  - apply andb_true_iff in E0 as [_ E0%Z.eqb_eq]. assert (es = []) as -> by (destruct es; [done|simpl in *; lia]).
    rewrite Z.geb_leb. destruct (Z.leb_spec page_count (Z.shiftr (u64 (free_space_start + cnt)) (PAGE_SHIFT + 3))).
    { apply Hnospc; [|done|done]. exists a, free_space_start. split; [done|]. split; [by left|]. by right; right. }
    apply wp_get_blocks; [done|done| |].
    { intros a' Ha' Hr Hu. apply Hnospc; [|done|done]. exists a, free_space_start. split; [done|]. split; [by left|by left]. }
    intros b a' Hfr. pose proof Hfr as (_ & Hb0 & _). rewrite (proj2 (Z.eqb_neq _ _)) by lia.
    apply wp_put_fork, wp_ret. split; [done|]. apply (snoc_grown i t a a' lv [] cnt b); done || (simpl; lia).
  - destruct es as [|e es _] using rev_ind.
    { exfalso. simpl in *. rewrite E2, <- Hsum in E0. done. }
    rewrite length_app in *. simpl in *.
    rewrite (proj2 (Z.eqb_neq (used_extents _) 0)) by lia.
    replace (Z.to_nat (used_extents (i_fork i) - 1)) with (length es) by lia.
    rewrite E1, <- app_assoc. simpl. rewrite list_lookup_middle by done.
    pose proof E4 as [_ [(H1 & H2 & H3) _]%Forall_cons]%Forall_app.
    rewrite (uwrap_small 64 (first_block e + _)) by lia.
    assert (forall r : Prop, r -> (r -> refuses a (first_block e + block_count e) cnt \/
      blocks_of_volume total_leb_count log_blocks_in_leb <= u64 (first_block e + block_count e + cnt) \/
      page_count <= Z.shiftr (u64 (first_block e + block_count e + cnt)) (PAGE_SHIFT + 3)) ->
      refused a (es ++ [e]) (elements lv) (ino i) cnt) as Href.
    { intros r Hr Himp. exists a, (first_block e + block_count e). split; [done|]. split; [|by apply Himp].
      left. by rewrite last_snoc. }
    rewrite !Z.geb_leb. destruct (Z.leb_spec (blocks_of_volume total_leb_count log_blocks_in_leb) (u64 (first_block e + block_count e + cnt))).
    { apply Hnospc; [|done|done]. eapply Href; [eassumption|auto]. }
    destruct (Z.leb_spec page_count (Z.shiftr (u64 (first_block e + block_count e + cnt)) (PAGE_SHIFT + 3))).
    { apply Hnospc; [|done|done]. eapply Href; [eassumption|auto]. }
    apply wp_get_blocks; [done|done| |].
    { intros a' Ha' Hr Hu. apply Hnospc; [|done|done]. eapply Href; [exact Hr|auto]. }
    intros b a' Hfr. pose proof Hfr as (Ha' & Hb0 & Hbl & Hfree & Hu). rewrite (proj2 (Z.eqb_neq _ _)) by lia.
    destruct (Z.eqb_spec b (first_block e + block_count e)) as [->|Hne].
    + apply wp_put_fork, wp_ret. split; [done|]. by apply last_grown.
    + destruct (Z.leb_spec EMMCFS_EXTENTS_COUNT_IN_FORK (used_extents (i_fork i))) as [Hge|Hlt];
        unfold EMMCFS_EXTENTS_COUNT_IN_FORK in *.
      * apply wp_bind_ok, wp_in_blocks. eapply wp_ok_mono; [apply put_free_block_ok; try done|].
        { intros p Hp. rewrite Hu. destruct (in_chunk_spec b cnt p); [done|lia]. }
        intros err a2 (-> & Ha2 & Hu2). apply wp_BUG_ON; [done|]. apply wp_fail. split; [|left; split; [done|try rewrite length_app; simpl in *; lia]].
        apply Hun; [done|]. intros p. rewrite Hu2, Hu. destruct (in_chunk_spec b cnt p) as [Hp|Hp]; [|done].
        simpl. by rewrite Hfree.
      * apply wp_put_fork, wp_ret. split; [done|].
        replace (Z.to_nat (used_extents (i_fork i))) with (length (es ++ [e])) by len.
        apply snoc_grown; try done; len.
Qed.

Lemma grown_bound i t a lv es cnt b s : grown_by i t a lv es cnt b s -> 0 < cnt -> b + cnt <= 2 ^ 32.
Proof using.
  intros (_ & lv' & es' & [F' _ _ _ _ _ _ Hu]) Hcnt.
  pose proof (in_use_bound _ (b + cnt - 1) (fo_alloc _ _ _ _ _ _ _ F')) as Hlim. rewrite Hu in Hlim.
  destruct (in_chunk_spec b cnt (b + cnt - 1)); [|lia]. specialize (Hlim eq_refl). lia.
Qed.

Lemma grown_by_inode i t a lv es cnt b i' i'' v : grown_by i t a lv es cnt b (i', v) ->
  ino i'' = ino i' -> i_mode i'' = i_mode i' -> i_fork i'' = i_fork i' -> grown_by i t a lv es cnt b (i'', v).
Proof using.
  intros (Hc & lv' & es' & [F E1 E2 E3 Hm Hf Hu]) Ei Em Ef. simpl in *. split; [done|].
  exists lv', es'. constructor; simpl; try done; [|congruence..]. by eapply file_ok_inode.
Qed.

(** *** Alignment *)
Lemma align_up_eq v g : 0 <= g -> 0 <= v -> v + 2 ^ g < 2 ^ 64 ->
  align_up v g = 2 ^ g * ((v + 2 ^ g - 1) / 2 ^ g).
Proof using.
  intros Hg Hv Hlim. unfold align_up. rewrite Z.shiftl_mul_pow2, Z.mul_1_l by done.
  pose proof (Z.pow_pos_nonneg 2 g ltac:(lia) Hg). rewrite uwrap_small by lia.
  replace (2 ^ g - 1) with (Z.ones g) by (rewrite Z.ones_equiv; lia).
  rewrite <- Z.ldiff_land, Z.ldiff_ones_r, Z.shiftl_mul_pow2, Z.shiftr_div_pow2 by done. lia.
Qed.

Lemma align_up_bounds v g : 0 <= g -> 0 <= v -> v + 2 ^ g < 2 ^ 64 -> v <= align_up v g < v + 2 ^ g.
Proof using.
  intros Hg Hv Hlim. rewrite align_up_eq by done. pose proof (Z.pow_pos_nonneg 2 g ltac:(lia) Hg).
  pose proof (Z.div_mod (v + 2 ^ g - 1) (2 ^ g) ltac:(lia)).
  pose proof (Z.mod_pos_bound (v + 2 ^ g - 1) (2 ^ g) ltac:(lia)). lia.
Qed.

Lemma align_up_le v g m : 0 <= g -> 0 <= v -> v + 2 ^ g < 2 ^ 64 -> v <= m * 2 ^ g -> align_up v g <= m * 2 ^ g.
Proof using.
  intros Hg Hv Hlim Hm. rewrite align_up_eq by done. pose proof (Z.pow_pos_nonneg 2 g ltac:(lia) Hg).
  rewrite (Z.mul_comm m). apply Z.mul_le_mono_nonneg_l; [lia|].
  apply Z.lt_succ_r, Z.div_lt_upper_bound; lia.
Qed.

(** ** Together with the extents tree *)
Context (Hstale : length stale = 12%nat) (HN : node_size_ok N) (Hmax : max_record_len + 31 <= N / 2)
  (Hrec : sizeof_exttree_record <= max_record_len).
Abbreviation expand_exttree := (expand_exttree N max_record_len log_pages_per_node mounted beyond grow stale
  free_space_start).
Abbreviation find_new_block := (find_new_block N max_record_len log_pages_per_node mounted beyond grow stale
  free_space_start page_count total_leb_count log_blocks_in_leb).
Abbreviation emmcfs_find_old_block := (emmcfs_find_old_block mounted beyond grow stale).

(** The file is as it was, or has [cnt] more blocks. *)
Definition expanded (i : inode) (t : btree) (a : A) lv es (cnt b : Z) (s : state) : Prop :=
  b = 0 /\ unchanged i t a s /\ refused a es (elements lv) (ino i) cnt \/ 0 < b /\ grown_by i t a lv es cnt b s.

Lemma wp_expand_exttree i t a lv es cnt : file_ok i t a lv es -> calm t -> spacious t -> length es = 9%nat ->
  ino i <> EMMCFS_EXTENTS_TREE_INO -> 0 < cnt -> fork_blocks (i_fork i) + cnt < 2 ^ 32 - 1 ->
  wp (expand_exttree cnt) (i, (t, a)) (ok (expanded i t a lv es cnt)).
Proof using Hstale HN Hmax Hrec.
  intros F Hc Hsp Hfull Hino Hcnt Hlim. pose proof (fo_blocks _ _ _ _ _ _ _ F) as Hb.
  unfold Fork.expand_exttree. apply wp_gets. apply wp_BUG_ON; [by apply Z.eqb_neq|]. cbn [fst].
  apply wp_bind_ok. unfold in_volume. apply wp_zoom. cbn [fst snd]. eapply wp_ok_mono.
  { apply (wp_exttree_add_block N max_record_len log_pages_per_node mounted beyond grow stale Hstale HN Hmax Hrec
      free_space_start t lv a); try done; try apply F; try lia. eapply (file_first N max_record_len); [exact F|lia]. }
  intros rc [t' a'] (C' & Ha' & [(-> & (hint & Hnext & Hno) & S' & Hu)|(Hrc & Hfree & Hu & lv' & T' & G & _)]).
  - simpl. apply wp_ret. left. split; [done|]. split; [done|]. exists a, hint. split; [done|]. split; [by right|by left].
  - rewrite (proj2 (Z.eqb_neq _ _)) by lia. apply wp_put_fork, wp_ret. right. split; [done|].
    split; [done|]. exists lv', es. apply tree_grown; try done. simpl. by rewrite uwrap_small by lia.
Qed.

Lemma expanded_more i t a i' t' a' lv es cnt : unchanged i t a (i', (t', a')) ->
  forall b s, expanded i' t' a' lv es cnt b s -> expanded i t a lv es cnt b s.
Proof using.
  intros (Ei & St & Ct & Ha & Hu) b s. simpl in *. subst i'.
  intros [(-> & (H1 & H2 & H3 & H4 & H5) & a1 & hint & R1 & R2 & R3)|(Hb & H1 & lv' & es' & [])].
  - left. split; [done|]. split; [split; [done|]; split; [by rewrite H2|]; split; [done|]; split; [done|]; intros p; by rewrite H5|].
    exists a1, hint. split; [intros p; by rewrite R1|done].
  - right. split; [done|]. split; [done|]. exists lv', es'. constructor; try done.
    + intros p Hp. rewrite <- Hu. auto.
    + intros p. rewrite <- Hu. auto.
Qed.

(** [find_new_block]: 0, or the place of the block that was asked for. *)
Lemma wp_find_new_block i t a lv es ib cnt : file_ok i t a lv es -> calm t -> spacious t ->
  ino i <> EMMCFS_EXTENTS_TREE_INO -> fork_blocks (i_fork i) <= ib < fork_blocks (i_fork i) + cnt ->
  fork_blocks (i_fork i) + cnt < 2 ^ 32 - 1 ->
  wp (find_new_block ib cnt) (i, (t, a)) (ok (fun r s =>
    exists b, expanded i t a lv es cnt b s /\ r = if b =? 0 then 0 else b + (ib - fork_blocks (i_fork i)))).
Proof using Hstale HN Hmax Hrec.
  intros F Hc Hsp Hino Hib Hlim. pose proof (fo_blocks _ _ _ _ _ _ _ F) as Hb.
  pose proof (fo_fork _ _ _ _ _ _ _ F) as Hf. pose proof Hf as [E1 E2 E3 E4].
  unfold Fork.find_new_block. apply wp_gets. cbn [fst]. apply wp_bind_ok.
  eapply wp_ok_mono with (P := expanded i t a lv es cnt).
  2:{ intros b s Hs. destruct (Z.eqb_spec b 0) as [->|Hne]; apply wp_ret; [by exists 0|].
      exists b. split; [done|]. rewrite (proj2 (Z.eqb_neq _ _)) by done. rewrite (uwrap_small 64 (ib - _)) by lia.
      destruct Hs as [(-> & _)|(Hb0 & Hg)]; [done|]. apply uwrap_small.
      pose proof (grown_bound _ _ _ _ _ _ _ _ Hg). lia. }
  assert (sum_blocks es = fork_blocks (i_fork i) \/ length es = 9%nat) as Hcase.
  { destruct (decide (sum_blocks es = fork_blocks (i_fork i))); [by left|right].
    apply (fo_full _ _ _ _ _ _ _ F). pose proof (fo_sum _ _ _ _ _ _ _ F). lia. }
  assert (sum_blocks es = fork_blocks (i_fork i) -> forall err_case,
    (length es = 9%nat -> forall s, unchanged i t a s -> wp (err_case (- EPERM)) s (ok (expanded i t a lv es cnt))) ->
    (forall e s, e <> - EPERM -> unchanged i t a s -> refused a es (elements lv) (ino i) cnt ->
       wp (err_case e) s (ok (expanded i t a lv es cnt))) ->
    wp (do r <- try (expand_fork cnt); match r with Ok rc => ret rc | Err e => err_case e | Bug => bug end)
      (i, (t, a)) (ok (expanded i t a lv es cnt))) as Hfork.
  { intros Hsum err_case H1 H2. apply wp_try. eapply wp_mono; [apply (wp_expand_fork i t a lv es); try done; lia|].
    intros [b|e|] s W; [apply wp_ret; by right| |done]. destruct W as [Hun [[-> He]|[-> He]]]; [auto|].
    by apply H2. }
  destruct (Z.ltb_spec (used_extents (i_fork i)) EMMCFS_EXTENTS_COUNT_IN_FORK) as [Hlt|Hge];
    unfold EMMCFS_EXTENTS_COUNT_IN_FORK in *.
  - apply wp_try. eapply wp_mono; [apply (wp_expand_fork i t a lv es); try done; lia|].
    intros [b|e|] s W; [| |done].
    + apply wp_ret. by right.
    + destruct W as [Hun [[_ He]|[_ He]]]; [exfalso; lia|]. apply wp_ret. by left.
  - assert (length es = 9%nat) as Hfull by lia. rewrite (fork_is_sum _ _ Hf).
    destruct (Z.eqb_spec (sum_blocks es) (fork_blocks (i_fork i))) as [Hsum|Hne].
    + apply (Hfork Hsum (fun e => if e =? - EPERM then expand_exttree cnt else ret 0)).
      * intros _ [i' [t' a']] Hun. simpl. pose proof Hun as (Ei & St & Ct & Ha & Hu). simpl in *. subst i'.
        eapply wp_ok_mono; [apply (wp_expand_exttree i t' a' lv es); try done|].
        -- by eapply file_ok_sim.
        -- unfold spacious. by rewrite (sim_height _ _ St), (sim_num _ _ St).
        -- lia.
        -- by apply (expanded_more i t a i t').
      * intros e s He Hun Hr. rewrite (proj2 (Z.eqb_neq _ _)) by done. apply wp_ret. by left.
    + apply (wp_expand_exttree i t a lv es); try done. lia.
Qed.

(** [emmcfs_find_old_block]: the place of a block, and how many blocks follow it
    in the same extent. *)
Lemma wp_find_old_block i t a lv es ib : file_ok i t a lv es -> calm t -> 0 <= ib < fork_blocks (i_fork i) ->
  wp (emmcfs_find_old_block ib) (i, (t, a)) (ok (fun '(p, max) s =>
    unchanged i t a s /\ exists m, max = Some m /\ 0 < m /\
      forall k, 0 <= k < m -> file_maps es (elements lv) (ino i) (ib + k) (p + k))).
Proof using Hstale HN Hmax Hrec.
  intros F Hc Hib. pose proof (fo_blocks _ _ _ _ _ _ _ F) as Hb. pose proof (fo_fork _ _ _ _ _ _ _ F) as Hf.
  pose proof (find_in_fork_ok es ib (fi_ok _ _ Hf) ltac:(lia)) as Hfind.
  unfold Fork.emmcfs_find_old_block. apply wp_gets. cbn [fst]. rewrite (fork_is_used _ _ Hf).
  destruct (find_in_fork es ib) as [[p m]|].
  - destruct Hfind as [Hm Hp]. apply wp_ret. split; [by split_and!; try done; apply F|].
    exists m. split; [done|]. split; [done|]. intros k Hk. split; [lia|]. left. by apply Hp.
  - apply wp_gets. cbn [fst]. unfold in_volume. apply wp_zoom. cbn [snd]. apply wp_in_tree.
    eapply wp_mono; [apply (wp_exttree_get_block N max_record_len mounted beyond grow stale Hstale HN t lv (ino i) ib
      (fork_blocks (i_fork i))); try apply F; try lia; eapply file_first; [exact F|lia]|].
    intros [[p max]|e|] t' W; [|done|by destruct W as [[] _]]. destruct W as [S' C'].
    destruct (C' Hc) as [Hc' [Htr _]]. split; [by split_and!; try done; apply F|].
    destruct (fo_total _ _ _ _ _ _ _ F ib) as (p0 & r & Hr & Ho & Hbr & _); [lia|].
    pose proof (Htr r Hr Ho Hbr) as [= -> ->]. eexists. split; [done|]. split; [lia|].
    intros k Hk. split; [lia|]. right. split; [lia|]. exists r. split; [done|]. split; [done|]. split; lia.
Qed.

(** The loop of [expand_file] ends: the request is halved until a file of that
    size fits, or until it is smaller than the granularity. *)
Abbreviation expand_loop := (expand_loop N max_record_len log_pages_per_node mounted beyond grow stale
  free_space_start page_count total_leb_count log_blocks_in_leb).

(** A request that cannot be halved any more is refused. *)
Definition out_of_room (a : A) es l (ino min gran req : Z) : Prop := exists n,
  min <= n <= req /\ refused a es l ino n /\ (n / 2 < 2 ^ gran \/ align_up (n / 2) gran < min).

Lemma wp_expand_loop ib min gran lv es i : 0 <= gran < 31 -> 0 < min -> ino i <> EMMCFS_EXTENTS_TREE_INO ->
  fork_blocks (i_fork i) <= ib < fork_blocks (i_fork i) + min -> forall fuel (m : nat) req t a,
  file_ok i t a lv es -> calm t -> spacious t -> req <= 2 ^ Z.of_nat m * 2 ^ gran -> (m < fuel)%nat ->
  0 <= req -> fork_blocks (i_fork i) + req < 2 ^ 32 - 1 ->
  wp (expand_loop fuel ib min gran req) (i, (t, a)) (fun r s => match r with
    | Ok (res, n) => exists b, min <= n /\ res = b + (ib - fork_blocks (i_fork i)) /\ 0 < b /\
        grown_by i t a lv es n b s
    | Err e => e = - ENOSPC /\ unchanged i t a s /\ (req < min \/ out_of_room a es (elements lv) (ino i) min gran req)
    | Bug => False
    end).
Proof using Hstale HN Hmax Hrec.
  intros Hg Hmin Hino Hib. induction fuel as [|fuel IH]; intros m req t a F Hc Hsp Hm Hfuel Hreq Hlim; [lia|].
  assert (unchanged i t a (i, (t, a))) as Hun by (by split_and!; try done; apply F).
  pose proof (fo_blocks _ _ _ _ _ _ _ F) as Hb0.
  cbn [Fork.expand_loop]. rewrite Z.geb_leb. destruct (Z.leb_spec min req) as [Hle|Hgt];
    [|by apply wp_fail; split; [|split; [|left]]].
  apply wp_bind_ok. eapply wp_ok_mono; [apply (wp_find_new_block i t a lv es); try done; lia|].
  intros r s (b & Hs & ->). destruct Hs as [(-> & Hun' & Href)|(Hb & Hs)].
  2:{ rewrite (proj2 (Z.eqb_neq b 0)), (proj2 (Z.eqb_neq _ 0)) by lia. apply wp_ret. by exists b. }
  rewrite !Z.eqb_refl. cbn [negb]. rewrite !Z.shiftr_div_pow2, Z.shiftl_mul_pow2, Z.mul_1_l by lia.
  change (2 ^ 1) with 2. pose proof (Z.div_mod req 2 ltac:(lia)). pose proof (Z.mod_pos_bound req 2 ltac:(lia)).
  pose proof (Z.pow_pos_nonneg 2 gran ltac:(lia) ltac:(lia)).
  pose proof (Z.pow_le_mono_r 2 gran 31 ltac:(lia) ltac:(lia)).
  destruct (Z.ltb_spec (req / 2) (2 ^ gran)) as [Hsmall|Hbig].
  { apply wp_fail. split; [done|]. split; [done|]. right. exists req. split; [lia|]. by split; [|left]. }
  destruct m as [|m]; [simpl in Hm; lia|]. rewrite Nat2Z.inj_succ, Z.pow_succ_r in Hm by lia.
  pose proof (align_up_bounds (req / 2) gran ltac:(lia) ltac:(lia) ltac:(lia)).
  pose proof (align_up_le (req / 2) gran (2 ^ Z.of_nat m) ltac:(lia) ltac:(lia) ltac:(lia) ltac:(lia)).
  destruct s as [i' [t' a']]. pose proof Hun' as (Ei & St & Ct & Ha & Hu). simpl in Ei, St, Ct, Ha, Hu. subst i'.
  eapply wp_mono; [apply (IH m _ t' a'); try done; try lia|].
  - by eapply file_ok_sim.
  - unfold spacious. by rewrite (sim_height _ _ St), (sim_num _ _ St).
  - intros [[res n]|e|] s Hs; [| |done].
    + destruct Hs as (b & Hn & Hr & Hb & Hgr). exists b. split_and!; try done.
      destruct (expanded_more i t a i t' a' lv es n Hun' b s) as [(-> & _)|[_ ?]]; [by right|lia|done].
    + destruct Hs as (-> & (G1 & G2 & G3 & G4 & G5) & Hs). split; [done|]. split.
      { split; [done|]. split; [by rewrite G2|]. split; [done|]. split; [done|]. intros p. by rewrite G5. }
      right. destruct Hs as [Hlt|(n & Hn & (a1 & hint & R1 & R2) & Hlast)].
      * exists req. split; [lia|]. split; [done|]. by right.
      * exists n. split; [lia|]. split; [|done].
        exists a1, hint. split; [intros p; by rewrite R1|done].
Qed.

(** ** A whole expansion *)
Context (block_size_shift : Z) (write_inode_to_bnode : inode -> Z) (Hleb : 0 <= log_blocks_in_leb < 31).
Abbreviation expand_file := (expand_file N max_record_len log_pages_per_node mounted beyond grow stale
  free_space_start page_count total_leb_count log_blocks_in_leb block_size_shift write_inode_to_bnode).
Abbreviation expand_req := (expand_req total_leb_count log_blocks_in_leb).
Abbreviation expand_min := (expand_min total_leb_count log_blocks_in_leb).

Lemma expand_bounds i ib : ino i <> EMMCFS_EXTENTS_TREE_INO -> 0 <= fork_blocks (i_fork i) <= ib -> ib < 2 ^ 32 - 1 ->
  ib - fork_blocks (i_fork i) < expand_min i ib <= expand_req i ib.
Proof using Hstale HN Hmax Hrec Hleb.
  intros Hino Hb Hib.
  assert (expand_min i ib = align_up (ib - fork_blocks (i_fork i) + 1) (expand_gran_log2 log_blocks_in_leb i)) as Em.
  { unfold Fork.expand_min. rewrite (proj2 (Z.eqb_neq (ino i) EMMCFS_EXTENTS_TREE_INO)) by done.
    by rewrite uwrap_small by lia. }
  unfold Fork.expand_req. rewrite Em.
  assert (0 <= expand_gran_log2 log_blocks_in_leb i < 31) as Hg by (unfold expand_gran_log2; destruct (_ <? _); lia).
  set (g := expand_gran_log2 log_blocks_in_leb i) in *.
  pose proof (Z.pow_pos_nonneg 2 g ltac:(lia) ltac:(lia)).
  pose proof (Z.pow_le_mono_r 2 g 31 ltac:(lia) ltac:(lia)).
  pose proof (align_up_bounds (ib - fork_blocks (i_fork i) + 1) g ltac:(lia) ltac:(lia) ltac:(lia)).
  split; [lia|]. set (x := Z.max _ _).
  assert (align_up (ib - fork_blocks (i_fork i) + 1) g <= x) as Hle by apply Z.le_max_r.
  assert (0 <= x < 2 ^ 57) as Hx.
  { unfold x, TREE_EXPAND_STEP, blocks_of_volume. rewrite Z.shiftr_div_pow2 by lia.
    pose proof (uwrap_bound 64 (Z.shiftl total_leb_count log_blocks_in_leb) ltac:(lia)) as Hu.
    set (u := u64 _) in *. pose proof (Z.div_pos u (2 ^ 7) ltac:(lia) ltac:(lia)).
    pose proof (Z.div_lt_upper_bound u (2 ^ 7) (2 ^ 57) ltac:(lia) ltac:(lia)).
    destruct (ino i =? EMMCFS_CAT_TREE_INO); lia. }
  pose proof (align_up_bounds x g ltac:(lia) ltac:(lia) ltac:(lia)). etrans; [exact Hle|]. lia.
Qed.

(** Too few blocks are free, or the file cannot have them. *)
Definition no_space (i : inode) (a : A) lv es (ib : Z) : Prop :=
  free_blocks a < expand_min i ib \/
  out_of_room a es (elements lv) (ino i) (expand_min i ib) (expand_gran_log2 log_blocks_in_leb i) (expand_req i ib).

Lemma wp_expand_file i t a lv es ib : file_ok i t a lv es -> calm t -> spacious t ->
  ino i <> EMMCFS_EXTENTS_TREE_INO -> fork_blocks (i_fork i) <= ib < 2 ^ 32 - 1 ->
  fork_blocks (i_fork i) + expand_req i ib < 2 ^ 32 - 1 ->
  wp (expand_file ib) (i, (t, a)) (fun r s => match r with
    | Ok res => exists n b, ib - fork_blocks (i_fork i) < n /\ res = b + (ib - fork_blocks (i_fork i)) /\
        grown_by i t a lv es n b s
    | Err e => e = - ENOSPC /\ unchanged i t a s /\ no_space i a lv es ib \/
        EMMCFS_1ST_FILE_INO <= ino i /\ e = write_inode_to_bnode (fst s) /\ e <> 0 /\
          exists n b, 0 < n /\ grown_by i t a lv es n b s
    | Bug => False
    end).
Proof using Hstale HN Hmax Hrec Hleb.
  intros F Hc Hsp Hino Hib Hlim. pose proof (fo_blocks _ _ _ _ _ _ _ F) as Hb.
  destruct (expand_bounds i ib Hino ltac:(lia) ltac:(lia)) as [Hmin Hreq].
  assert (unchanged i t a (i, (t, a))) as Hun by (by split_and!; try done; apply F).
  unfold Fork.expand_file. apply wp_gets, wp_gets. cbn [fst snd]. rewrite Z.gtb_ltb.
  destruct (Z.ltb_spec (free_blocks a) (expand_min i ib)); [apply wp_fail; left; split; [done|]; split; [done|by left]|].
  set (req := expand_req i ib) in *. apply wp_bind. eapply wp_mono.
  { apply (wp_expand_loop ib (expand_min i ib) (expand_gran_log2 log_blocks_in_leb i) lv es i)
      with (m := S (Z.to_nat (Z.log2 req))); try done; try lia.
    - unfold expand_gran_log2. destruct (_ <? _); lia.
    - pose proof (Z.pow_pos_nonneg 2 (expand_gran_log2 log_blocks_in_leb i) ltac:(lia)
        ltac:(unfold expand_gran_log2; destruct (_ <? _); lia)).
      destruct (decide (req = 0)) as [->|Hne]; [simpl; lia|].
      pose proof (Z.log2_spec req ltac:(lia)) as [_ Hlog]. rewrite Nat2Z.inj_succ, Z2Nat.id by apply Z.log2_nonneg.
      pose proof (Z.pow_pos_nonneg 2 (Z.succ (Z.log2 req)) ltac:(lia) ltac:(pose proof (Z.log2_nonneg req); lia)). nia.
    - unfold expand_fuel. lia. }
  intros [[res n]|e|] s Hs; [| |done].
  - destruct Hs as (b & Hn & -> & Hb0 & Hgr). destruct s as [i' v]. apply wp_modify. cbn [fst snd].
    assert (grown_by i t a lv es n b (add_bytes i' (s_blocksize block_size_shift * n), v)) as Hgr2
      by (by eapply grown_by_inode).
    destruct (Z.ltb_spec (ino i) EMMCFS_1ST_FILE_INO).
    + apply wp_modify, wp_ret. exists n, b. split; [lia|]. split; [done|]. by eapply grown_by_inode.
    + apply wp_gets. cbn [fst]. destruct (Z.eqb_spec (write_inode_to_bnode (add_bytes i' (s_blocksize block_size_shift * n))) 0); [apply wp_ret|apply wp_fail; right].
      * exists n, b. split; [lia|]. by split.
      * split; [lia|]. split; [done|]. split; [done|]. exists n, b. split; [lia|done].
  - left. destruct Hs as (-> & Hun' & [Hlt|Hs]); [exfalso; lia|]. split; [done|]. split; [done|]. by right.
Qed.
End steps.
