(* ===== verification/ForkTheorems.v ===== *)
(** * The properties of the blocks of a file

    The translation of the blocks of a file with its expansion, what it leaves
    of other files, and the layout of a fork on the device. *)

From S2P Require Import Prelude Monad Data FsmBtree FsmBtreeInv FsmAlloc Fsm FsmProofs FsmMount FsmTheorems Blocks.
From S2P Require Import BnodeBytes BnodeRepr BnodePool BnodePoolProofs Btree BtreeInv BtreeFind BtreeInsert BtreeSpec.
From S2P Require Import Exttree ExttreeProofs ExttreeTheorems Fork ForkProofs.
Open Scope Z_scope.

Section properties.
Context (N max_record_len log_pages_per_node : Z) (mounted : bool) (beyond : Z -> bool)
  (grow : Z -> Z -> Z) (stale : list Z).
Context `{BlockAlloc A} (free_space_start page_count total_leb_count log_blocks_in_leb block_size_shift bdev_blocks : Z)
  (write_inode_to_bnode : inode -> Z).
Abbreviation file_ok := (file_ok N max_record_len).
Abbreviation state := (inode * (btree * A))%type.
Abbreviation get_block := (emmcfs_get_block N max_record_len log_pages_per_node mounted beyond grow stale
  free_space_start page_count total_leb_count log_blocks_in_leb block_size_shift bdev_blocks write_inode_to_bnode).
Abbreviation expand_req := (expand_req total_leb_count log_blocks_in_leb).

(** ** Translation and expansion *)

(** The state [s] holds the file with all its blocks where they were; other
    blocks that it has now were free. *)
Record kept (i : inode) (a : A) (lv : list (list (Z * list record))) es (s : state) lv' es' : Prop := {
  kp_ok : file_ok (fst s) (fst (snd s)) (snd (snd s)) lv' es';
  kp_ino : ino (fst s) = ino i;
  kp_old ib p : file_maps es (elements lv) (ino i) ib p -> file_maps es' (elements lv') (ino i) ib p;
  kp_new ib p : file_maps es' (elements lv') (ino i) ib p ->
    file_maps es (elements lv) (ino i) ib p \/ fork_blocks (i_fork i) <= ib /\ in_use a p = false;
  kp_records r : object_id r <> ino i -> r ∈ elements lv' <-> r ∈ elements lv;
  kp_used p : in_use a p = true -> in_use (snd (snd s)) p = true
}.

Lemma unchanged_kept i t a lv es s : file_ok i t a lv es -> unchanged i t a s -> kept i a lv es s lv es.
Proof using.
  intros F (Ei & St & _ & Ha & Hu). destruct s as [i' [t' a']]. simpl in *. subst i'.
  constructor; simpl; auto; [by eapply file_ok_sim|]. intros p. by rewrite Hu.
Qed.

Lemma grown_kept i t a lv es cnt b s : grown_by N max_record_len i t a lv es cnt b s ->
  exists lv' es', kept i a lv es s lv' es' /\
    forall k, 0 <= k < cnt -> file_maps es' (elements lv') (ino i) (fork_blocks (i_fork i) + k) (b + k).
Proof using.
  intros (_ & lv' & es' & [F Ei _ _ Hm Hrec Hfree Hu]). exists lv', es'. split.
  - constructor; try done.
    + intros ib p. rewrite Hm. auto.
    + intros ib p. rewrite Hm. intros [?|[Hb ->]]; [by left|right]. split; [lia|]. apply Hfree. lia.
    + intros p Hp. rewrite Hu, Hp. apply orb_true_r.
  - intros k Hk. apply Hm. right. lia.
Qed.

(** Another file keeps its blocks, and the two do not meet. *)
Lemma kept_other i t a lv es s lv' es' j ejs : kept i a lv es s lv' es' -> file_ok i t a lv es ->
  file_ok j t a lv ejs -> ino j <> ino i ->
  (forall ib p, file_maps ejs (elements lv') (ino j) ib p <-> file_maps ejs (elements lv) (ino j) ib p) /\
  file_ok j (fst (snd s)) (snd (snd s)) lv' ejs.
Proof using.
  intros [K1 K2 K3 K4 K5 K6] F [F1 F2 F3 F4 F5 F6 F7 F8 F9 F10 F11 F12 F13] Hne.
  assert (forall r, object_id r = ino j -> r ∈ elements lv' <-> r ∈ elements lv) as Hrec by (intros r Hr; apply K5; congruence).
  assert (forall ib p, maps (elements lv') (ino j) ib p <-> maps (elements lv) (ino j) ib p) as Hmaps.
  { intros ib p. unfold maps. split; intros (r & Hr & Ho & Hx); exists r; (split; [by apply Hrec|done]). }
  assert (forall ib p, file_maps ejs (elements lv') (ino j) ib p <-> file_maps ejs (elements lv) (ino j) ib p) as Hfm.
  { intros ib p. unfold file_maps. by rewrite Hmaps. }
  split; [done|]. constructor; try done.
  - apply (fo_tree _ _ _ _ _ _ _ K1).
  - apply (fo_alloc _ _ _ _ _ _ _ K1).
  - destruct F8 as [X1 X2 X3]. split.
    + intros r Hr Ho. apply X1; [by apply Hrec|done].
    + intros r r' Hr Hr' Ho Ho'. apply X2; try done; by apply Hrec.
    + intros r Hr Ho. destruct (X3 r) as (r' & Hr' & Ho' & ?); [by apply Hrec|done|].
      exists r'. split; [by apply Hrec|done].
  - intros r Hr Ho. apply F9; [by apply Hrec|done].
  - intros ib Hib. destruct (F10 ib Hib) as [p Hp]. exists p. by apply Hmaps.
  - intros ib p Hp%Hfm. by eapply K6, F11.
  - intros ib ib' p Hp%Hfm Hp'%Hfm. by eapply F12.
  - destruct F13 as (r & Hr & Ho). destruct (decide (object_id r = ino i)) as [E|E].
    + destruct (fo_first _ _ _ _ _ _ _ K1) as (r' & Hr' & Ho'). rewrite K2 in Ho'. exists r'. split; [done|lia].
    + exists r. split; [by apply K5|done].
Qed.

Context (Hstale : length stale = 12%nat) (HN : node_size_ok N) (Hmax : max_record_len + 31 <= N / 2)
  (Hrec : sizeof_exttree_record <= max_record_len) (Hleb : 0 <= log_blocks_in_leb < 31).

(** The answer of the translation: a buffer on the place of the block and on
    those of the blocks behind it, no more than the caller has asked for. *)
Definition mapped es l (i : inode) (ib : Z) (asked bh : buffer_head) : Prop :=
  b_mapped bh = true /\ (b_new bh = true <-> fork_blocks (i_fork i) <= ib) /\ b_blocknr bh <= bdev_blocks /\
  exists m, 0 < m /\
    b_size bh = s_blocksize block_size_shift * Z.min m (u32 (Z.shiftr (b_size asked) block_size_shift)) /\
    forall k, 0 <= k < m -> file_maps es l (ino i) (ib + k) (b_blocknr bh + k).

(** The place of the block [ib] is not on the device. *)
Definition off_device es l (i : inode) (ib : Z) : Prop :=
  exists p, file_maps es l (ino i) ib p /\ bdev_blocks < p.

Definition get_block_post i t a lv es ib bh create (r : outcome buffer_head) (s : state) : Prop :=
  (create = false \/ ib < fork_blocks (i_fork i) -> unchanged i t a s) /\
  exists lv' es', kept i a lv es s lv' es' /\
  match r with
  | Ok bh' => if (fork_blocks (i_fork i) <=? ib) && negb create then bh' = bh
              else mapped es' (elements lv') i ib bh bh'
  | Err e =>
    create = true /\ fork_blocks (i_fork i) <= ib /\
      (e = - ENOSPC /\ unchanged i t a s /\
         no_space free_space_start page_count total_leb_count log_blocks_in_leb i a lv es ib \/
       EMMCFS_1ST_FILE_INO <= ino i /\ e = write_inode_to_bnode (fst s) /\ e <> 0) \/
    e = - EFAULT /\ mounted = false /\ off_device es' (elements lv') i ib
  | Bug => mounted = true /\ off_device es' (elements lv') i ib
  end.

Lemma wp_get_block i t a lv es ib bh create :
  file_ok i t a lv es -> calm t -> spacious t ->
  ino i <> EMMCFS_EXTENTS_TREE_INO -> ino i <> EMMCFS_LEB_BITMAP_INO ->
  0 <= ib < 2 ^ 32 - 1 -> fork_blocks (i_fork i) + expand_req i ib < 2 ^ 32 - 1 ->
  wp (get_block ib bh create) (i, (t, a)) (get_block_post i t a lv es ib bh create).
Proof using Hstale HN Hmax Hrec Hleb.
  intros F Hc Hsp Hino Hbit Hib Hlim. pose proof (fo_blocks _ _ _ _ _ _ _ F) as Hb.
  assert (unchanged i t a (i, (t, a))) as Hun by (by split_and!; try done; apply F).
  unfold Fork.emmcfs_get_block. apply wp_gets. cbn [fst].
  set (bs := u32 (Z.shiftr (b_size bh) block_size_shift)).
  assert (forall s lv' es' res m (new : bool), (create = false \/ ib < fork_blocks (i_fork i) -> unchanged i t a s) ->
    kept i a lv es s lv' es' ->
    (fork_blocks (i_fork i) <=? ib) && negb create = false -> (new = true <-> fork_blocks (i_fork i) <= ib) -> 0 < m ->
    (forall k, 0 <= k < m -> file_maps es' (elements lv') (ino i) (ib + k) (res + k)) ->
    wp (if res >? bdev_blocks then (if mounted then bug else fail (- EFAULT))
        else ret (BufferHead true new res (s_blocksize block_size_shift * Z.min m bs))) s
      (get_block_post i t a lv es ib bh create)) as Hend.
  { intros s lv' es' res m new Hs Hk Hcase Hnew Hm Hmaps.
    assert (bdev_blocks < res -> off_device es' (elements lv') i ib) as Hoff.
    { intros Hlt. exists res. split; [|done]. specialize (Hmaps 0 ltac:(lia)). by rewrite !Z.add_0_r in Hmaps. }
    unfold get_block_post. rewrite Z.gtb_ltb. destruct (Z.ltb_spec bdev_blocks res).
    - destruct mounted; [|apply wp_fail]; (split; [done|]; exists lv', es'; split; [done|]); [|right; split; [done|]]; (split; [done|by apply Hoff]).
    - apply wp_ret. split; [done|]. exists lv', es'. split; [done|]. rewrite Hcase. split; [done|]. split; [done|].
      split; [done|]. exists m. split; [done|]. by split. }
  rewrite Z.geb_leb. destruct (Z.leb_spec (fork_blocks (i_fork i)) ib) as [Hge|Hlt].
  - destruct create; cbn [negb].
    + apply wp_bind. apply wp_BUG_ON; [by apply Z.eqb_neq|]. apply wp_bind.
      eapply wp_mono; [eapply (wp_expand_file N max_record_len log_pages_per_node mounted beyond grow stale
        free_space_start page_count total_leb_count log_blocks_in_leb Hstale HN Hmax Hrec block_size_shift write_inode_to_bnode Hleb i t a lv es ib); done || lia|].
      intros [res|e|] s W; [| |done].
      * destruct W as (n & b & Hn & -> & Hgr). apply wp_ret.
        destruct (grown_kept _ _ _ _ _ _ _ _ Hgr) as (lv' & es' & Hk & Hmaps).
        apply (Hend s lv' es' _ 1 true); [intros [?|?]; [done|lia]|done|apply andb_false_r|done|lia|].
        intros k Hk1. assert (k = 0) as -> by lia. rewrite !Z.add_0_r.
        replace ib with (fork_blocks (i_fork i) + (ib - fork_blocks (i_fork i))) at 1 by lia. apply Hmaps. lia.
      * split; [intros [Hf|Hf]; [discriminate Hf|exfalso; lia]|]. destruct W as [(He & Hw & Hn)|(Hfile & He & Hne & n & b & Hn & Hgr)].
        -- exists lv, es. split; [by eapply unchanged_kept|]. left. split; [done|]. split; [done|]. left. by split.
        -- destruct (grown_kept _ _ _ _ _ _ _ _ Hgr) as (lv' & es' & Hk & _). exists lv', es'. split; [done|].
           left. split; [done|]. split; [done|]. by right.
    + apply wp_bind, wp_ret, wp_ret. split; [done|]. exists lv, es. split; [by eapply unchanged_kept|].
      by rewrite (proj2 (Z.leb_le _ _)).
  - apply wp_bind, wp_bind_ok. eapply wp_ok_mono; [apply (wp_find_old_block N max_record_len mounted beyond grow stale
      Hstale HN Hmax Hrec i t a lv es ib); done || lia|].
    intros [p max] s (Hun' & m & -> & Hm & Hmaps).
    assert (kept i a lv es s lv es) as Hk by (by eapply unchanged_kept).
    destruct (file_maps_bound _ _ _ _ _ _ _ _ _ F (Hmaps 0 ltac:(lia))) as [_ Hp].
    rewrite (proj2 (Z.eqb_neq _ _)) by lia. apply wp_ret. apply (Hend s lv es p m false); [done|done| |split; [done|lia]|done|done].
    done.
Qed.


End properties.

(** ** The layout *)

(** The number of blocks that [size] bytes take. *)
Definition blocks_of_size (size shift : Z) : Z := (size + 2 ^ shift - 1) / 2 ^ shift.

Lemma form_fork_blocks size shift : 0 <= size -> 0 <= shift ->
  Z.shiftr size shift + (if Z.land size (Z.shiftl 1 shift - 1) =? 0 then 0 else 1) = blocks_of_size size shift.
Proof.
  intros Hs Hk. unfold blocks_of_size. pose proof (Z.pow_pos_nonneg 2 shift ltac:(lia) Hk) as Hp.
  rewrite Z.shiftl_mul_pow2, Z.shiftr_div_pow2, Z.mul_1_l by done.
  replace (2 ^ shift - 1) with (Z.ones shift) by (rewrite Z.ones_equiv; lia). rewrite Z.land_ones by done.
  pose proof (Z.div_mod size (2 ^ shift) ltac:(lia)) as Hd. pose proof (Z.mod_pos_bound size (2 ^ shift) Hp) as Hm.
  set (q := size / 2 ^ shift) in *. set (r := size mod 2 ^ shift) in *. clearbody q r. subst size.
  destruct (Z.eqb_spec r 0) as [->|Hr].
  - apply (Z.div_unique_pos _ _ _ (2 ^ shift - 1)); lia.
  - apply (Z.div_unique_pos _ _ _ (r - 1)); lia.
Qed.

Lemma parse_form_fork shift i i0 es :
  fork_is (i_fork i) es -> is_device i = false -> i_mode i0 = i_mode i ->
  0 <= i_size i < 2 ^ 63 -> 0 <= shift <= 31 -> blocks_of_size (i_size i) shift < 2 ^ 32 ->
  emmcfs_parse_fork shift i0 (Some (emmcfs_form_fork shift i)) =
    (0, Inode (ino i0) (i_mode i0) (i_size i) (i_rdev i0) (u32 (Z.shiftl (blocks_of_size (i_size i) shift) (shift - 9)))
          (i_bytes i0)
          (ForkInfo (blocks_of_size (i_size i) shift) 0 0 (fork_extents (i_fork i)) (used_extents (i_fork i)))).
Proof.
  intros [E1 E2 E3 E4] Hdev Hmode Hsize Hshift Hblocks.
  assert (is_device i0 = false) as Hdev0 by (unfold is_device in *; by rewrite Hmode).
  pose proof (Z.pow_pos_nonneg 2 shift ltac:(lia) ltac:(lia)) as Hp.
  pose proof (Z.pow_le_mono_r 2 shift 31 ltac:(lia) ltac:(lia)) as Hp31.
  assert (i_size i <= blocks_of_size (i_size i) shift * 2 ^ shift < i_size i + 2 ^ shift) as Hb.
  { unfold blocks_of_size. pose proof (Z.div_mod (i_size i + 2 ^ shift - 1) (2 ^ shift) ltac:(lia)).
    pose proof (Z.mod_pos_bound (i_size i + 2 ^ shift - 1) (2 ^ shift) Hp). lia. }
  assert (0 <= blocks_of_size (i_size i) shift) as Hb0 by (apply Z.div_pos; lia).
  unfold emmcfs_form_fork. rewrite Hdev, form_fork_blocks by lia.
  unfold emmcfs_parse_fork. cbn [is_fork_valid fork_magic size_in_bytes total_blocks_count]. rewrite Hdev0.
  cbn [negb]. rewrite Z.eqb_refl. cbn [negb].
  rewrite (uwrap_small 64 (i_size i)), (uwrap_small 32 (blocks_of_size _ _)) by lia. rewrite swrap_small by lia.
  rewrite Z.shiftl_mul_pow2, (uwrap_small 64 (i_size i)), uwrap_small by lia.
  rewrite (proj2 (Z.ltb_ge _ _)) by lia.
  unfold emmcfs_lfork_to_rfork, set_fork.
  cbn [ino i_mode i_size i_rdev i_blocks i_bytes i_fork layout_extents fork_blocks fork_prealloc_count fork_prealloc_start].
  rewrite E1, E2, Nat2Z.id, take_app_length. unfold blank_extents. rewrite drop_replicate.
  do 3 f_equal. change (Z.to_nat EMMCFS_EXTENTS_COUNT_IN_FORK) with 9%nat.
  rewrite filter_app, length_app, (filter_all_in _ es), (filter_none_in _ (replicate _ _)); [simpl; lia| |].
  - intros e He%elem_of_replicate. destruct He as [-> _]. simpl. lia.
  - intros e He. rewrite Forall_forall in E4. destruct (E4 e He) as [? _]. lia.
Qed.

(** What [emmcfs_form_fork] writes for a file [emmcfs_parse_fork] accepts
    and reads back: the size and the extents of the fork.  The number of blocks
    comes from the size: it is that of the file if the file has no blocks
    behind its end. *)
Theorem fork_layout_roundtrip shift i i0 es :
  fork_is (i_fork i) es -> is_device i = false -> i_mode i0 = i_mode i ->
  0 <= i_size i < 2 ^ 63 -> 0 <= shift <= 31 -> blocks_of_size (i_size i) shift < 2 ^ 32 ->
  exists r, emmcfs_parse_fork shift i0 (Some (emmcfs_form_fork shift i)) = (0, r) /\
    i_size r = i_size i /\
    i_fork r = ForkInfo (blocks_of_size (i_size i) shift) 0 0 (fork_extents (i_fork i)) (used_extents (i_fork i)).
Proof. intros. eexists. split; [by apply (parse_form_fork shift i i0 es)|]. done. Qed.

(** ** Two files *)

(** The files 20 and 30 with the blocks 4 and 5, and 6 and 7, of the volume of
    [mounted_fsm] in their forks. *)
Definition file_20 : inode :=
  Inode 20 S_IFREG 8000 0 16 0 (ForkInfo 2 0 0 (Extent 4 2 :: replicate 8 null_extent) 1).
Definition file_30 : inode :=
  Inode 30 S_IFREG 8000 0 16 0 (ForkInfo 2 0 0 (Extent 6 2 :: replicate 8 null_extent) 1).
Definition bare_tree : btree := one_leaf [exttree_record 0 0 1 1].
Abbreviation bare_levels := [[(1, [exttree_record 0 0 1 1])]].
#[local] Instance store_alloc : BlockAlloc (allocator (T := froot) (J := page_log)) :=
  fsm_block_alloc true 32 example_inode eq_refl page_log_ok.

Lemma fork_of_two i b : i_fork i = ForkInfo 2 0 0 (Extent b 2 :: replicate 8 null_extent) 1 -> 0 < b < 1000 ->
  fork_is (i_fork i) [Extent b 2].
Proof.
  intros -> Hb. constructor; [done|done|simpl; lia|]. apply Forall_singleton. unfold extent_ok. simpl. lia.
Qed.

Lemma file_of_two N i b : 256 <= N -> i_fork i = ForkInfo 2 0 0 (Extent b 2 :: replicate 8 null_extent) 1 -> 0 < ino i < 1000 ->
  0 < b < 1000 -> in_use block_store b = true -> in_use block_store (b + 1) = true ->
  file_ok N 40 i bare_tree block_store bare_levels [Extent b 2].
Proof.
  intros HN Ef Hi Hb Hu1 Hu2. pose proof (fork_of_two i b Ef Hb) as Hf.
  assert (forall r, r ∈ elements bare_levels -> object_id r = 0) as Hrec.
  { intros r [->|[]%elem_of_nil]%elem_of_cons. by vm_compute. }
  assert (forall r, r ∈ elements bare_levels -> object_id r <> ino i) as Hno by (intros r Hr; rewrite (Hrec r Hr); lia).
  assert (forall ib p, file_maps [Extent b 2] (elements bare_levels) (ino i) ib p -> 0 <= ib < 2 /\ p = b + ib) as Hm.
  { intros ib p [Hib [Hn|[_ (r & Hr & Ho & _)]]]; [|by destruct (Hno r Hr)].
    simpl in Hn. destruct (Z.ltb_spec ib 2); simplify_eq. lia. }
  constructor; rewrite ?Ef; simpl fork_blocks; try done; try lia.
  - apply one_leaf_ok; [done|etrans; [|exact HN]; by vm_compute| |].
    + apply Forall_singleton. constructor; [constructor| | |constructor]; by vm_compute.
    + apply SSorted_cons. split; [constructor|done].
  - split; [apply mounted_inv|]. split; [apply mounted_geometry|apply plenty_nil].
  - by rewrite <- Ef.
  - split; [intros r Hr Ho|intros r s Hr _ Ho _ _|intros r Hr Ho]; by destruct (Hno r Hr).
  - intros r Hr Ho. by destruct (Hno r Hr).
  - simpl. lia.
  - intros ib p [Hib ->]%Hm. assert (ib = 0 \/ ib = 1) as [->| ->] by lia; [by rewrite Z.add_0_r|done].
  - intros ib ib' p [_ ->]%Hm [_ E]%Hm. lia.
  - exists (exttree_record 0 0 1 1). split; [set_solver|].
    rewrite (Hrec (exttree_record 0 0 1 1)) by set_solver. lia.
Qed.

Lemma file_20_ok : file_ok 256 40 file_20 bare_tree block_store bare_levels [Extent 4 2].
Proof. by apply file_of_two. Qed.

Lemma file_30_ok : file_ok 256 40 file_30 bare_tree block_store bare_levels [Extent 6 2].
Proof. by apply file_of_two. Qed.

Abbreviation sample_get_block := (emmcfs_get_block 256 40 0 true (fun _ => false) Z.max (replicate 12 7)
  1 1 4 3 12 32 (fun _ => 0)).



Lemma fork_layout_roundtrip_witness :
  exists r, emmcfs_parse_fork 12 file_20 (Some (emmcfs_form_fork 12 file_20)) = (0, r) /\
    i_size r = 8000 /\ i_fork r = i_fork file_20.
Proof.
  apply (fork_layout_roundtrip 12 file_20 file_20 [Extent 4 2]);
    [by apply fork_of_two|done|done|simpl; lia|lia|by vm_compute].
Defined.
