(* ===== verification/InodeIds.v ===== *)
(** * The numbers of inodes and of hard links (inode.c)

    Both are bits of bitmaps in files of the volume, 32768 in each page.  The
    pages of the bitmap of the hard links are among the pages with their data.
    A page is its 1024 words; the locks and the cache of the pages are not
    represented. *)

From S2P Require Import Prelude Monad FsmBtree FsmAlloc Fsm.
Open Scope Z_scope.

Definition EMMCFS_LOG_BITS_PER_PAGE : Z := 3 + PAGE_SHIFT.
Definition EMMCFS_BITMAP_PAGE_MASK : Z := Z.shiftl 1 EMMCFS_LOG_BITS_PER_PAGE - 1.
Definition EMMCFS_LOG_HLINKS_PER_PAGE : Z := 2.
Definition EMMCFS_LOG_ONE_HLINK_DATA_SZ : Z := PAGE_SHIFT - EMMCFS_LOG_HLINKS_PER_PAGE.
Definition EMMCFS_HLINK_IN_PAGE_MASK : Z := Z.shiftl 1 EMMCFS_LOG_HLINKS_PER_PAGE - 1.
Definition INVALID_HLINK_ID : Z := u64 (-1).

Definition bits_per_page : Z := Z.shiftl 1 EMMCFS_LOG_BITS_PER_PAGE.

(** ** State *)

(** A bitmap file with the number from which the search starts
    ([free_inode_bitmap.last_used], [hard_links.last_used_id]); [id_answers] are
    the results of the coming calls to the kernel, successes past the end. *)
Record id_map := IdMap { id_pages : gmap Z (list Z); last_used : Z; id_answers : list Z }.

Definition blank_words : list Z := replicate 1024 0.
Definition id_page (m : id_map) (index : Z) : list Z := default blank_words (id_pages m !! index).

Definition kernel : St id_map unit := fun m =>
  match id_answers m with
  | [] => (Ok tt, m)
  | a :: l => ((if a =? 0 then Ok tt else Err a), IdMap (id_pages m) (last_used m) l)
  end.

(** [emmcfs_read_create_page] *)
Definition emmcfs_read_create_page (index : Z) : St id_map (list Z) :=
  do_ kernel; gets (fun m => id_page m index).

Definition put_page (index : Z) (page : list Z) (last : Z) : St id_map unit :=
  modify (fun m => IdMap (<[index := page]> (id_pages m)) last (id_answers m)).

(** The first clear bit from [i] on among the next [n], [i + n] if all are
    set. *)
Fixpoint next_zero (n : nat) (page : list Z) (i : Z) : Z :=
  match n with
  | O => i
  | S n => if bit page i then next_zero n page (i + 1) else i
  end.
Definition find_next_zero_bit (page : list Z) (size from : Z) : Z :=
  if from >=? size then size else next_zero (Z.to_nat (size - from)) page from.

Section ids.
(** [IS_MOUNT_FINISHED] *)
Context (mounted : bool).

(** [EMMCFS_ADD_CHUNK] *)
Definition journal_page : St id_map unit :=
  do r <- try kernel;
  match r with Ok _ => ret tt | Err e => if mounted then bug else fail e | Bug => bug end.

(** ** Inodes *)

(** The loop of [get_free_inode]. *)
Fixpoint free_inode_loop (fuel : nat) (page_index id_offset find_from : Z) : St id_map Z :=
  match fuel with
  | O => bug
  | S fuel =>
    do page <- emmcfs_read_create_page page_index;
    do_ journal_page;
    let i := find_next_zero_bit page bits_per_page find_from in
    if i <? bits_per_page then
      do_ BUG_ON (i + id_offset <? EMMCFS_1ST_FILE_INO);
      match test_and_set_bit i page with
      | Some (old, page) =>
        do_ BUG_ON old;
        do_ put_page page_index page (i + id_offset);
        ret (i + id_offset)
      | None => bug
      end
    else
      let page_index := u32 (page_index + 1) in
      free_inode_loop fuel page_index (u32 (Z.shiftl page_index EMMCFS_LOG_BITS_PER_PAGE)) 0
  end.

Definition get_free_inode (fuel : nat) : St id_map Z :=
  do last <- gets last_used;
  let page_index := u32 (Z.shiftr last EMMCFS_LOG_BITS_PER_PAGE) in
  let id_offset := u32 (Z.ldiff last EMMCFS_BITMAP_PAGE_MASK) in
  free_inode_loop fuel page_index id_offset (last - id_offset).

Definition emmcfs_free_inode_n (inode_n : Z) : St id_map unit :=
  let page_index := u32 (Z.shiftr inode_n EMMCFS_LOG_BITS_PER_PAGE) in
  let id_offset := u32 (Z.ldiff inode_n EMMCFS_BITMAP_PAGE_MASK) in
  do page <- emmcfs_read_create_page page_index;
  do_ journal_page;
  match test_and_clear_bit (inode_n - id_offset) page with
  | Some (old, page) =>
    do_ BUG_ON (negb old);
    do last <- gets last_used;
    put_page page_index page (if last >? inode_n then inode_n else last)
  | None => bug
  end.

(** ** Hard links *)

(** The page with the bits of a chunk: it is followed by the pages with the
    data of the hard links of the chunk. *)
Definition chunk_page (chunk_n : Z) : Z :=
  Z.shiftl chunk_n (EMMCFS_LOG_BITS_PER_PAGE - EMMCFS_LOG_HLINKS_PER_PAGE) + chunk_n.

(** The loop of [obtain_hlink_id]. *)
Fixpoint obtain_loop (fuel : nat) (chunk_n find_from : Z) : St id_map Z :=
  match fuel with
  | O => bug
  | S fuel =>
    let page_index := u64 (chunk_page chunk_n) in
    let id_offset := u64 (Z.shiftl chunk_n EMMCFS_LOG_BITS_PER_PAGE) in
    do r <- try (emmcfs_read_create_page page_index);
    match r with
    | Ok page =>
      let res := find_next_zero_bit page bits_per_page find_from in
      if res <? bits_per_page then
        do_ or_bug journal_page;
        match test_and_set_bit res page with
        | Some (old, page) =>
          do_ BUG_ON old;
          do_ put_page page_index page (u64 (res + id_offset));
          ret (u64 (res + id_offset))
        | None => bug
        end
      else obtain_loop fuel (u64 (chunk_n + 1)) 0
    | _ => ret INVALID_HLINK_ID
    end
  end.

Definition obtain_hlink_id (fuel : nat) : St id_map Z :=
  do last <- gets last_used;
  obtain_loop fuel (Z.shiftr last EMMCFS_LOG_BITS_PER_PAGE) (Z.land last EMMCFS_BITMAP_PAGE_MASK).

Definition free_hlink_data (hlink_id : Z) : St id_map unit :=
  let chunk_n := s32 (Z.shiftr hlink_id EMMCFS_LOG_BITS_PER_PAGE) in
  let page_index := s32 (chunk_page chunk_n) in
  let id_offset := u64 (Z.shiftl chunk_n EMMCFS_LOG_BITS_PER_PAGE) in
  do page <- emmcfs_read_create_page page_index;
  do_ journal_page;
  match test_and_clear_bit (hlink_id - id_offset) page with
  | Some (old, page) =>
    do_ BUG_ON (negb old);
    do last <- gets last_used;
    put_page page_index page (if last >? hlink_id then hlink_id else last)
  | None => bug
  end.

(** [get_hlink_value_page]: the page with the data of a hard link and the offset
    of the data in it. *)
Definition hlink_value_page (hlink_id : Z) : Z * Z :=
  let chunk_n := s32 (Z.shiftr hlink_id EMMCFS_LOG_BITS_PER_PAGE) in
  let page_index := chunk_page chunk_n + 1 in
  (page_index + Z.shiftr (Z.land hlink_id EMMCFS_BITMAP_PAGE_MASK) EMMCFS_LOG_HLINKS_PER_PAGE,
   u16 (Z.shiftl (Z.land hlink_id EMMCFS_HLINK_IN_PAGE_MASK) EMMCFS_LOG_ONE_HLINK_DATA_SZ)).
End ids.
