(* ===== verification/InodeIdsTheorems.v ===== *)
(** * The properties of the numbers of inodes and hard links

    A number that is given was the lowest one not in use; the pages of the
    bitmap of the hard links and those of their data do not meet. *)

From S2P Require Import Prelude Monad FsmBtree FsmAlloc Fsm FsmProofs InodeIds.
Open Scope Z_scope.

(** ** Searching a page *)
Lemma next_zero_spec n page i :
  let r := next_zero n page i in
  i <= r <= i + Z.of_nat n /\ (forall j, i <= j < r -> bit page j = true) /\
  (r < i + Z.of_nat n -> bit page r = false).
Proof.
  revert i. induction n as [|n IH]; intros i; [split; [simpl; lia|split; [simpl; lia|simpl; lia]]|].
  cbn [next_zero]. destruct (bit page i) eqn:E.
  - destruct (IH (i + 1)) as (H1 & H2 & H3). split; [lia|]. split.
    + intros j Hj. destruct (decide (j = i)) as [->|]; [done|]. apply H2. lia.
    + intros Hr. apply H3. lia.
  - split; [lia|]. split; [lia|done].
Qed.

Lemma find_zero_spec page from : 0 <= from <= bits_per_page ->
  let r := find_next_zero_bit page bits_per_page from in
  from <= r <= bits_per_page /\ (forall j, from <= j < r -> bit page j = true) /\
  (r < bits_per_page -> bit page r = false).
Proof.
  intros Hf. unfold find_next_zero_bit. rewrite Z.geb_leb. destruct (Z.leb_spec bits_per_page from).
  - split; [lia|]. split; lia.
  - pose proof (next_zero_spec (Z.to_nat (bits_per_page - from)) page from) as Hz. rewrite Z2Nat.id in Hz by lia.
    replace (from + (bits_per_page - from)) with bits_per_page in Hz by lia. exact Hz.
Qed.

(** ** The set of the numbers in use *)
Section area.
(** The page of the bitmap that has the bits of a chunk. *)
Context (page_of : Z -> Z) (page_inj : forall c d, 0 <= c -> 0 <= d -> page_of c = page_of d -> c = d).

Definition id_used (m : id_map) (n : Z) : bool := bit (id_page m (page_of (n / bits_per_page))) (n mod bits_per_page).

(** Every number below [last_used] is in use. *)
Record packed (m : id_map) : Prop := {
  pk_pages i p : id_pages m !! i = Some p -> length p = 1024%nat;
  pk_last : 0 <= last_used m;
  pk_used n : 0 <= n < last_used m -> id_used m n = true
}.

Definition quiet (m : id_map) : Prop := Forall (fun a => a = 0) (id_answers m).

Lemma id_page_length m i : packed m -> length (id_page m i) = 1024%nat.
Proof.
  intros [H _ _]. unfold id_page. destruct (id_pages m !! i) eqn:E; [by apply (H i)|]. by apply length_replicate.
Qed.

Lemma bits_per_page_eq : bits_per_page = 2 ^ 15.
Proof. done. Qed.

Lemma chunk_bit c b : 0 <= b < bits_per_page -> (c * bits_per_page + b) / bits_per_page = c /\
  (c * bits_per_page + b) mod bits_per_page = b.
Proof.
  intros Hb. rewrite Z.add_comm, Z.div_add, Z.mod_add by done. rewrite Z.div_small, Z.mod_small by done. lia.
Qed.

(** The bit of one number changed. *)
Lemma id_used_put m c b page v last : packed m -> 0 <= c -> 0 <= b < bits_per_page ->
  length page = 1024%nat ->
  (forall j, 0 <= j -> bit page j = if j =? b then v else bit (id_page m (page_of c)) j) ->
  forall n a, 0 <= n -> id_used (IdMap (<[page_of c := page]> (id_pages m)) last a) n =
    if n =? c * bits_per_page + b then v else id_used m n.
Proof.
  intros Hp Hc Hb Hl Hbit n a Hn. unfold id_used, id_page at 1. cbn [id_pages].
  pose proof (Z.div_mod n bits_per_page ltac:(done)) as Hd.
  pose proof (Z.mod_pos_bound n bits_per_page ltac:(done)) as Hm.
  pose proof (Z.div_pos n bits_per_page Hn ltac:(done)) as Hq.
  destruct (decide (n / bits_per_page = c)) as [E|E].
  - rewrite E, lookup_insert_eq. cbn [default]. rewrite Hbit by lia. rewrite E in Hd.
    destruct (Z.eqb_spec (n mod bits_per_page) b), (Z.eqb_spec n (c * bits_per_page + b)); try done; lia.
  - rewrite lookup_insert_ne by (intros Hpage; apply E; symmetry; by apply page_inj).
    destruct (Z.eqb_spec n (c * bits_per_page + b)) as [->|]; [|done].
    exfalso. apply E. by apply chunk_bit.
Qed.

Lemma packed_put m c page last a : packed m -> length page = 1024%nat -> 0 <= last ->
  (forall n, 0 <= n < last -> id_used (IdMap (<[page_of c := page]> (id_pages m)) last a) n = true) ->
  packed (IdMap (<[page_of c := page]> (id_pages m)) last a).
Proof.
  intros [H1 H2 H3] Hl Hlast Hu. constructor; cbn [id_pages last_used]; [|done|done].
  intros i p. destruct (decide (page_of c = i)) as [<-|Hne].
  - rewrite lookup_insert_eq. by intros [= <-].
  - rewrite lookup_insert_ne by done. apply H1.
Qed.

(** What the calls to the kernel leave alone. *)
Definition same_ids (m m' : id_map) : Prop :=
  id_pages m' = id_pages m /\ last_used m' = last_used m /\ (quiet m -> quiet m').

Lemma same_ids_packed m m' : same_ids m m' -> packed m -> packed m'.
Proof.
  intros (E1 & E2 & _) [H1 H2 H3]. constructor; rewrite ?E1, ?E2; [done|done|].
  intros n Hn. unfold id_used, id_page. rewrite E1. by apply H3.
Qed.

Lemma wp_kernel m (Q : outcome unit -> id_map -> Prop) :
  (forall m', same_ids m m' -> Q (Ok tt) m') -> (forall e m', same_ids m m' -> ~ quiet m -> Q (Err e) m') ->
  wp kernel m Q.
Proof.
  intros Hok Herr. unfold wp, kernel, quiet in *. destruct (id_answers m) as [|a l] eqn:E; simpl; [by apply Hok|].
  assert (same_ids m (IdMap (id_pages m) (last_used m) l)) as Hs.
  { split; [done|]. split; [done|]. unfold quiet. rewrite E. by intros [_ ?]%Forall_cons. }
  destruct (Z.eqb_spec a 0) as [->|Hne]; simpl; [by apply Hok|]. apply Herr; [done|]. by intros [? _]%Forall_cons.
Qed.

(** The lowest number that is not in use. *)
Definition lowest (m : id_map) (n : Z) : Prop :=
  0 <= n /\ id_used m n = false /\ forall k, 0 <= k < n -> id_used m k = true.

Lemma scan_page m c from : 0 <= c -> 0 <= from <= bits_per_page ->
  (forall k, 0 <= k < c * bits_per_page + from -> id_used m k = true) ->
  let r := find_next_zero_bit (id_page m (page_of c)) bits_per_page from in
  0 <= r <= bits_per_page /\ (r < bits_per_page -> lowest m (c * bits_per_page + r)) /\
  (r = bits_per_page -> forall k, 0 <= k < (c + 1) * bits_per_page -> id_used m k = true).
Proof.
  intros Hc Hf Hu r. destruct (find_zero_spec (id_page m (page_of c)) from Hf) as (Hr & Hset & Hclear).
  fold r in Hr, Hset, Hclear.
  assert (forall k, 0 <= k < c * bits_per_page + r -> id_used m k = true) as Hbelow.
  { intros k Hk. destruct (decide (k < c * bits_per_page + from)); [by apply Hu; lia|].
    assert (0 <= k - c * bits_per_page < bits_per_page) as Hb by lia.
    destruct (chunk_bit c (k - c * bits_per_page) Hb) as [E1 E2].
    replace (c * bits_per_page + (k - c * bits_per_page)) with k in E1, E2 by lia.
    unfold id_used. rewrite E1, E2. apply Hset. lia. }
  split; [lia|]. split.
  - intros Hlt. split; [pose proof bits_per_page_eq; nia|]. split; [|done].
    destruct (chunk_bit c r ltac:(lia)) as [E1 E2]. unfold id_used. rewrite E1, E2. by apply Hclear.
  - intros E k Hk. apply Hbelow. lia.
Qed.

(** What is left when a number has been taken. *)
Definition taken (m m' : id_map) (n : Z) : Prop :=
  packed m' /\ last_used m' = n /\ forall k, 0 <= k -> id_used m' k = (k =? n) || id_used m k.

(** The bit of the lowest number is set. *)
Lemma wp_take m m1 c r {X} (k : unit -> St id_map X) Q : packed m -> same_ids m m1 -> 0 <= c -> 0 <= r < bits_per_page ->
  lowest m (c * bits_per_page + r) ->
  (forall m', taken m m' (c * bits_per_page + r) -> (quiet m -> quiet m') -> wp (k tt) m' Q) ->
  wp (match test_and_set_bit r (id_page m (page_of c)) with
      | Some (old, page) => do_ BUG_ON old; do_ put_page (page_of c) page (c * bits_per_page + r); k tt
      | None => bug
      end) m1 Q.
Proof.
  intros Hp (E1 & E2 & Eq) Hc Hr Hlow Hk. pose proof (id_page_length m (page_of c) Hp) as Hl.
  destruct (test_and_set_bit_spec r (id_page m (page_of c))) as (page & -> & Hl' & Hbit).
  { rewrite Hl. pose proof bits_per_page_eq as Eb. change (2 ^ 15) with (32 * Z.of_nat 1024) in Eb. lia. }
  destruct Hlow as (H0 & Hfree & Hbelow).
  assert (bit (id_page m (page_of c)) r = false) as ->.
  { unfold id_used in Hfree. destruct (chunk_bit c r Hr) as [D1 D2]. by rewrite D1, D2 in Hfree. }
  apply wp_BUG_ON; [done|]. apply wp_modify. rewrite E1.
  assert (forall n a, 0 <= n -> id_used (IdMap (<[page_of c := page]> (id_pages m)) (c * bits_per_page + r) a) n =
    (n =? c * bits_per_page + r) || id_used m n) as Hu.
  { intros n a Hn. rewrite (id_used_put m c r page true) by (done || congruence). by destruct (_ =? _). }
  apply Hk; [|done]. split; [|split; [done|intros n Hn; by apply Hu]].
  apply packed_put; [done|congruence|done|]. intros n Hn. rewrite Hu by lia. rewrite (Hbelow n Hn). apply orb_true_r.
Qed.

(** The bit of a number in use is cleared. *)
Definition given_back (m m' : id_map) (n : Z) : Prop :=
  packed m' /\ last_used m' = Z.min (last_used m) n /\
  forall k, 0 <= k -> id_used m' k = negb (k =? n) && id_used m k.

Lemma wp_give m m1 n (Q : outcome unit -> id_map -> Prop) : packed m -> same_ids m m1 -> 0 <= n ->
  let c := n / bits_per_page in
  (id_used m n = true -> forall m', given_back m m' n -> Q (Ok tt) m') ->
  (id_used m n = false -> forall m', Q Bug m') ->
  wp (match test_and_clear_bit (n mod bits_per_page) (id_page m (page_of c)) with
      | Some (old, page) =>
        do_ BUG_ON (negb old);
        do last <- gets last_used;
        put_page (page_of c) page (if last >? n then n else last)
      | None => bug
      end) m1 Q.
Proof.
  intros Hp (E1 & E2 & Eq) Hn c Hok Hbug. pose proof (id_page_length m (page_of c) Hp) as Hl.
  pose proof (Z.mod_pos_bound n bits_per_page ltac:(done)) as Hr.
  pose proof (Z.div_mod n bits_per_page ltac:(done)) as Hd. fold c in Hd.
  assert (0 <= c) as Hc by (by apply Z.div_pos).
  destruct (test_and_clear_bit_spec (n mod bits_per_page) (id_page m (page_of c))) as (page & -> & Hl' & Hbit).
  { rewrite Hl. pose proof bits_per_page_eq as Eb. change (2 ^ 15) with (32 * Z.of_nat 1024) in Eb. lia. }
  change (bit (id_page m (page_of c)) (n mod bits_per_page)) with (id_used m n).
  destruct (id_used m n) eqn:Eu; [|by apply Hbug].
  apply wp_BUG_ON; [done|]. apply wp_gets. rewrite E2. unfold wp, put_page, modify. cbn [fst snd]. rewrite E1.
  apply Hok; [done|].
  assert (forall k last a, 0 <= k -> id_used (IdMap (<[page_of c := page]> (id_pages m)) last a) k =
    negb (k =? n) && id_used m k) as Hu.
  { intros k last a Hk. rewrite (id_used_put m c (n mod bits_per_page) page false) by (done || congruence).
    replace (c * bits_per_page + n mod bits_per_page) with n by lia. by destruct (_ =? _). }
  pose proof (pk_last _ Hp). rewrite Z.gtb_ltb.
  assert ((if n <? last_used m then n else last_used m) = Z.min (last_used m) n) as ->
    by (destruct (Z.ltb_spec n (last_used m)); lia).
  split; [|split; [done|intros k Hk; by apply Hu]].
  apply packed_put; [done|congruence|lia|]. intros k Hk. rewrite Hu by lia.
  rewrite (proj2 (Z.eqb_neq _ _)) by lia. apply (pk_used _ Hp). lia.
Qed.
End area.

(** Simplification of the numbers of pages and bits. *)
Lemma split_id n : 0 <= n < 2 ^ 32 ->
  u32 (Z.shiftr n EMMCFS_LOG_BITS_PER_PAGE) = n / bits_per_page /\
  u32 (Z.ldiff n EMMCFS_BITMAP_PAGE_MASK) = n / bits_per_page * bits_per_page /\
  n - n / bits_per_page * bits_per_page = n mod bits_per_page.
Proof.
  intros Hn. pose proof (Z.div_mod n bits_per_page ltac:(done)). pose proof (Z.mod_pos_bound n bits_per_page ltac:(done)).
  pose proof (Z.div_pos n bits_per_page ltac:(lia) ltac:(done)). rewrite bits_per_page_eq in *.
  change EMMCFS_BITMAP_PAGE_MASK with (Z.ones 15). change EMMCFS_LOG_BITS_PER_PAGE with 15.
  rewrite Z.ldiff_ones_r, Z.shiftl_mul_pow2, Z.shiftr_div_pow2 by done. rewrite !uwrap_small by lia. lia.
Qed.

Section inodes.
Context (mounted : bool).

Lemma wp_journal_page m (Q : outcome unit -> id_map -> Prop) :
  (forall m', same_ids m m' -> Q (Ok tt) m') -> (forall e m', same_ids m m' -> ~ quiet m -> Q (Err e) m') ->
  (forall m', ~ quiet m -> mounted = true -> Q Bug m') -> wp (journal_page mounted) m Q.
Proof.
  intros Hok Herr Hbug. unfold journal_page. apply wp_try, wp_kernel; [by intros; apply wp_ret, Hok|].
  intros e m' Hs Hq. destruct mounted; [by apply Hbug|by apply wp_fail, Herr].
Qed.

Lemma same_ids_trans m m1 m2 : same_ids m m1 -> same_ids m1 m2 -> same_ids m m2.
Proof. intros (E1 & E2 & Eq) (E1' & E2' & Eq'). split; [congruence|]. split; [congruence|auto]. Qed.

(** A page is read and journalled. *)
Lemma wp_open_page m m0 i {X} (f : list Z -> St id_map X) (Q : outcome X -> id_map -> Prop) : same_ids m m0 ->
  (forall m', same_ids m m' -> wp (f (id_page m i)) m' Q) ->
  (forall e m', same_ids m m' -> ~ quiet m -> Q (Err e) m') ->
  (forall m', ~ quiet m -> mounted = true -> Q Bug m') ->
  wp (do page <- emmcfs_read_create_page i; do_ journal_page mounted; f page) m0 Q.
Proof.
  intros Hs0 Hok Herr Hbug. assert (~ quiet m0 -> ~ quiet m) as Hq by (destruct Hs0 as (_ & _ & ?); auto).
  unfold emmcfs_read_create_page. apply wp_bind, wp_bind, wp_kernel.
  - intros m1 Hs1. apply wp_gets, wp_ret || (unfold wp, gets; cbn [fst snd]).
    assert (same_ids m m1) as Hs by (by eapply same_ids_trans).
    assert (id_page m1 i = id_page m i) as -> by (unfold id_page; by destruct Hs as [-> _]).
    apply (wp_bind (journal_page mounted) (fun _ => f (id_page m i))), wp_journal_page.
    + intros m2 Hs2. apply Hok. by eapply same_ids_trans.
    + intros e m2 Hs2 Hq2. apply Herr; [by eapply same_ids_trans|]. intros Hq'. apply Hq2. by apply Hs.
    + intros m2 Hq2 Hm. apply Hbug; [|done]. intros Hq'. apply Hq2. by apply Hs.
  - intros e m1 Hs1 Hq1. apply Herr; [by eapply same_ids_trans|auto].
Qed.

(** Inodes: the page of a chunk is its number. *)
Abbreviation used := (id_used id).
Abbreviation packed := (packed id).
Abbreviation lowest := (lowest id).

Definition get_post (m : id_map) (r : outcome Z) (m' : id_map) : Prop :=
  match r with
  | Ok i => (EMMCFS_1ST_FILE_INO <= i /\ lowest m i /\ taken id m m' i) /\ (quiet m -> quiet m')
  | Err _ => same_ids m m' /\ ~ quiet m
  | Bug => ~ quiet m /\ mounted = true
  end.

Lemma wp_free_inode_loop m n : packed m -> (forall k, 0 <= k < EMMCFS_1ST_FILE_INO -> used m k = true) ->
  0 <= n < 2 ^ 32 -> used m n = false -> forall fuel c from m0, same_ids m m0 -> 0 <= c -> 0 <= from <= bits_per_page ->
  (forall k, 0 <= k < c * bits_per_page + from -> used m k = true) -> n / bits_per_page - c < Z.of_nat fuel ->
  wp (free_inode_loop mounted fuel c (c * bits_per_page) from) m0 (get_post m).
Proof.
  intros Hp H10 Hn Hfree. induction fuel as [|fuel IH]; intros c from m0 Hs Hc Hfrom Hbelow Hfuel.
  - exfalso. pose proof (Z.div_mod n bits_per_page ltac:(done)). pose proof (Z.mod_pos_bound n bits_per_page ltac:(done)).
    rewrite Hbelow in Hfree; [done|]. rewrite bits_per_page_eq in *. lia.
  - cbn [free_inode_loop]. eapply (wp_open_page m); [done| |done|done]. intros m1 Hs1.
    destruct (scan_page id m c from Hc Hfrom Hbelow) as (Hr & Hlow & Hall). cbn [id] in *.
    set (r := find_next_zero_bit _ _ _) in *. destruct (Z.ltb_spec r bits_per_page) as [Hlt|Hge].
    + specialize (Hlow Hlt). rewrite Z.add_comm. apply wp_BUG_ON.
      { apply Z.ltb_ge. destruct Hlow as (H0 & Hf & _). destruct (Z.le_gt_cases EMMCFS_1ST_FILE_INO (c * bits_per_page + r)); [done|].
        rewrite H10 in Hf by lia. done. }
      apply (wp_take id ltac:(by intros) m m1 c r (fun _ => ret (c * bits_per_page + r))); try done; [lia|].
      intros m' Ht Hq. apply wp_ret. split; [|exact Hq]. split; [|by split].
      destruct Hlow as (H0 & Hf & _). destruct (Z.le_gt_cases EMMCFS_1ST_FILE_INO (c * bits_per_page + r)); [done|].
      rewrite H10 in Hf by lia. done.
    + specialize (Hall ltac:(lia)).
      assert (c + 1 <= n / bits_per_page) as Hnext.
      { destruct (Z.le_gt_cases (c + 1) (n / bits_per_page)); [done|].
        pose proof (Z.div_mod n bits_per_page ltac:(done)). pose proof (Z.mod_pos_bound n bits_per_page ltac:(done)).
        rewrite Hall in Hfree; [done|]. rewrite bits_per_page_eq in *. lia. }
      assert (n / bits_per_page < 2 ^ 17) as Hn17 by (apply Z.div_lt_upper_bound; [done|rewrite bits_per_page_eq; lia]).
      rewrite (uwrap_small 32 (c + 1)) by lia. rewrite Z.shiftl_mul_pow2 by done.
      change (2 ^ EMMCFS_LOG_BITS_PER_PAGE) with bits_per_page. rewrite uwrap_small by (rewrite bits_per_page_eq; lia).
      apply IH; try done; try lia. intros k Hk. apply Hall. lia.
Qed.

Lemma wp_get_free_inode m fuel n :
  packed m -> (forall k, 0 <= k < EMMCFS_1ST_FILE_INO -> used m k = true) ->
  0 <= n < 2 ^ 32 -> used m n = false -> n / bits_per_page < Z.of_nat fuel ->
  wp (get_free_inode mounted fuel) m (get_post m).
Proof.
  intros Hp H10 Hn Hfree Hfuel. assert (last_used m <= n) as Hlast.
  { destruct (Z.le_gt_cases (last_used m) n); [done|]. rewrite (pk_used _ _ Hp) in Hfree; [done|lia]. }
  pose proof (pk_last _ _ Hp) as H0.
  unfold get_free_inode. apply wp_gets. destruct (split_id (last_used m) ltac:(lia)) as (-> & -> & ->).
  apply (wp_free_inode_loop m n); try done.
  - by apply Z.div_pos.
  - pose proof (Z.mod_pos_bound (last_used m) bits_per_page ltac:(done)). lia.
  - intros k Hk. apply (pk_used _ _ Hp). pose proof (Z.div_mod (last_used m) bits_per_page ltac:(done)).
    rewrite bits_per_page_eq in *. lia.
  - pose proof (Z.div_pos (last_used m) bits_per_page H0 ltac:(done)). lia.
Qed.

(** C40: [get_free_inode] gives the lowest number that is not in use and marks
    it; the search ends within the pages up to that of any free number.  An
    error of the kernel changes no bit, and stops it once the mount is
    finished. *)
Theorem get_free_inode_correct m fuel n :
  packed m -> (forall k, 0 <= k < EMMCFS_1ST_FILE_INO -> used m k = true) ->
  0 <= n < 2 ^ 32 -> used m n = false -> n / bits_per_page < Z.of_nat fuel ->
  let '(r, m') := get_free_inode mounted fuel m in
  match r with
  | Ok i => EMMCFS_1ST_FILE_INO <= i /\ lowest m i /\ taken id m m' i
  | Err _ => same_ids m m' /\ ~ quiet m
  | Bug => ~ quiet m /\ mounted = true
  end.
Proof.
  intros Hp H10 Hn Hfree Hfuel. pose proof (wp_get_free_inode m fuel n Hp H10 Hn Hfree Hfuel) as W. unfold wp in W.
  destruct (get_free_inode mounted fuel m) as [[i|e|] m']; [apply W|done|done].
Qed.

Definition free_post (m : id_map) (n : Z) (r : outcome unit) (m' : id_map) : Prop :=
  match r with
  | Ok _ => used m n = true /\ given_back id m m' n
  | Err _ => same_ids m m' /\ ~ quiet m
  | Bug => used m n = false \/ ~ quiet m /\ mounted = true
  end.

Lemma wp_free_inode_n m n : packed m -> 0 <= n < 2 ^ 32 -> wp (emmcfs_free_inode_n mounted n) m (free_post m n).
Proof.
  intros Hp Hn. unfold emmcfs_free_inode_n. destruct (split_id n Hn) as (-> & -> & ->).
  eapply (wp_open_page m); [by split_and!| |done|by right]. intros m1 Hs1.
  apply (wp_give id ltac:(by intros) m m1 n); [done|done|lia|done|by left].
Qed.

(** [emmcfs_free_inode_n] gives a number in use back; for a number that is
    not in use it stops the kernel. *)
Theorem emmcfs_free_inode_n_correct m n : packed m -> 0 <= n < 2 ^ 32 ->
  let '(r, m') := emmcfs_free_inode_n mounted n m in
  match r with
  | Ok _ => used m n = true /\ given_back id m m' n
  | Err _ => same_ids m m' /\ ~ quiet m
  | Bug => used m n = false \/ ~ quiet m /\ mounted = true
  end.
Proof.
  intros Hp Hn. pose proof (wp_free_inode_n m n Hp Hn) as W. unfold wp in W.
  by destruct (emmcfs_free_inode_n mounted n m).
Qed.

(** ** Hard links *)
Lemma chunk_page_eq c : 0 <= c -> chunk_page c = c * 8193.
Proof.
  intros Hc. unfold chunk_page. rewrite Z.shiftl_mul_pow2 by done.
  change (2 ^ (EMMCFS_LOG_BITS_PER_PAGE - EMMCFS_LOG_HLINKS_PER_PAGE)) with 8192. lia.
Qed.

Lemma chunk_page_inj c d : 0 <= c -> 0 <= d -> chunk_page c = chunk_page d -> c = d.
Proof. intros Hc Hd. rewrite !chunk_page_eq by done. lia. Qed.

Definition obtain_post (m : id_map) (r : outcome Z) (m' : id_map) : Prop :=
  match r with
  | Ok i => InodeIdsTheorems.lowest chunk_page m i /\ taken chunk_page m m' i \/
            i = INVALID_HLINK_ID /\ same_ids m m' /\ ~ quiet m
  | Err _ => False
  | Bug => ~ quiet m
  end.
Abbreviation hused := (id_used chunk_page).

Lemma wp_obtain_loop m n : InodeIdsTheorems.packed chunk_page m -> 0 <= n < 2 ^ 32 -> hused m n = false ->
  forall fuel c from m0, same_ids m m0 -> 0 <= c -> 0 <= from <= bits_per_page ->
  (forall k, 0 <= k < c * bits_per_page + from -> hused m k = true) -> n / bits_per_page - c < Z.of_nat fuel ->
  wp (obtain_loop mounted fuel c from) m0 (obtain_post m).
Proof.
  intros Hp Hn Hfree. pose proof (Z.div_mod n bits_per_page ltac:(done)) as Hd.
  pose proof (Z.mod_pos_bound n bits_per_page ltac:(done)) as Hm.
  assert (n / bits_per_page < 2 ^ 17) as Hn17 by (apply Z.div_lt_upper_bound; [done|rewrite bits_per_page_eq; lia]).
  pose proof bits_per_page_eq as Eb.
  induction fuel as [|fuel IH]; intros c from m0 Hs Hc Hfrom Hbelow Hfuel.
  - exfalso. rewrite Hbelow in Hfree; [done|]. rewrite Eb in *. lia.
  - cbn [obtain_loop].
    assert (c <= n / bits_per_page) as Hcn.
    { destruct (Z.le_gt_cases c (n / bits_per_page)); [done|]. rewrite Hbelow in Hfree; [done|]. rewrite Eb in *. lia. }
    rewrite chunk_page_eq, (uwrap_small 64 (c * 8193)), <- chunk_page_eq by lia.
    rewrite Z.shiftl_mul_pow2 by done. change (2 ^ EMMCFS_LOG_BITS_PER_PAGE) with bits_per_page.
    rewrite (uwrap_small 64 (c * bits_per_page)) by (rewrite Eb; lia).
    assert (~ quiet m0 -> ~ quiet m) as Hq by (destruct Hs as (_ & _ & ?); auto).
    apply wp_try. unfold emmcfs_read_create_page. apply wp_bind, wp_kernel.
    2:{ intros e m1 Hs1 Hq1. apply wp_ret. right. split; [done|]. split; [by eapply same_ids_trans|auto]. }
    intros m1 Hs1. unfold wp at 1, gets. cbn [fst snd].
    assert (same_ids m m1) as Hs' by (by eapply same_ids_trans).
    assert (id_page m1 (chunk_page c) = id_page m (chunk_page c)) as -> by (unfold id_page; by destruct Hs' as [-> _]).
    destruct (scan_page chunk_page m c from Hc Hfrom Hbelow) as (Hr & Hlow & Hall).
    set (r := find_next_zero_bit _ _ _) in *. destruct (Z.ltb_spec r bits_per_page) as [Hlt|Hge].
    + specialize (Hlow Hlt). rewrite uwrap_small by (rewrite Eb in *; lia). rewrite (Z.add_comm r).
      unfold or_bug. apply wp_bind, wp_try, wp_journal_page.
      * intros m2 Hs2. apply wp_ret.
        apply (wp_take chunk_page chunk_page_inj m m2 c r (fun _ => ret (c * bits_per_page + r))); try done;
          [by eapply same_ids_trans|lia|]. intros m' Ht _. apply wp_ret. by left.
      * intros e m2 Hs2 Hq2. intros Hq3. apply Hq2. by apply Hs'.
      * intros m2 Hq2 _ Hq3. apply Hq2. by apply Hs'.
    + specialize (Hall ltac:(lia)). rewrite uwrap_small by lia.
      apply IH; try done; try lia. intros k Hk. apply Hall. lia.
Qed.

(** [obtain_hlink_id] gives the lowest number of a hard link that is not in
    use and marks it, or [INVALID_HLINK_ID] if a page cannot be read. *)
Theorem obtain_hlink_id_correct m fuel n :
  InodeIdsTheorems.packed chunk_page m -> 0 <= n < 2 ^ 32 -> hused m n = false -> n / bits_per_page < Z.of_nat fuel ->
  let '(r, m') := obtain_hlink_id mounted fuel m in
  match r with
  | Ok i => InodeIdsTheorems.lowest chunk_page m i /\ taken chunk_page m m' i \/
            i = INVALID_HLINK_ID /\ same_ids m m' /\ ~ quiet m
  | Err _ => False
  | Bug => ~ quiet m
  end.
Proof.
  intros Hp Hn Hfree Hfuel. assert (last_used m <= n) as Hlast.
  { destruct (Z.le_gt_cases (last_used m) n); [done|]. rewrite (pk_used _ _ Hp) in Hfree; [done|lia]. }
  pose proof (pk_last _ _ Hp) as H0.
  assert (wp (obtain_hlink_id mounted fuel) m (obtain_post m)) as W.
  { unfold obtain_hlink_id. apply wp_gets. rewrite Z.shiftr_div_pow2 by done.
    change EMMCFS_BITMAP_PAGE_MASK with (Z.ones 15). rewrite Z.land_ones by done.
    change (2 ^ EMMCFS_LOG_BITS_PER_PAGE) with bits_per_page. change (2 ^ 15) with bits_per_page.
    pose proof (Z.mod_pos_bound (last_used m) bits_per_page ltac:(done)).
    pose proof (Z.div_mod (last_used m) bits_per_page ltac:(done)).
    pose proof (Z.div_pos (last_used m) bits_per_page H0 ltac:(done)).
    apply (wp_obtain_loop m n); try done; [lia| |lia].
    intros k Hk. apply (pk_used _ _ Hp). rewrite bits_per_page_eq in *. lia. }
  unfold wp in W. by destruct (obtain_hlink_id mounted fuel m).
Qed.

(** [free_hlink_data] gives the number of a hard link back; for a number
    that is not in use it stops the kernel. *)
Theorem free_hlink_data_correct m n : InodeIdsTheorems.packed chunk_page m -> 0 <= n < 2 ^ 32 ->
  let '(r, m') := free_hlink_data mounted n m in
  match r with
  | Ok _ => hused m n = true /\ given_back chunk_page m m' n
  | Err _ => same_ids m m' /\ ~ quiet m
  | Bug => hused m n = false \/ ~ quiet m /\ mounted = true
  end.
Proof.
  intros Hp Hn.
  assert (wp (free_hlink_data mounted n) m (fun r m' => match r with
    | Ok _ => hused m n = true /\ given_back chunk_page m m' n
    | Err _ => same_ids m m' /\ ~ quiet m
    | Bug => hused m n = false \/ ~ quiet m /\ mounted = true
    end)) as W.
  { unfold free_hlink_data.
    pose proof (Z.div_mod n bits_per_page ltac:(done)) as Hd.
    pose proof (Z.mod_pos_bound n bits_per_page ltac:(done)) as Hm.
    pose proof (Z.div_pos n bits_per_page ltac:(lia) ltac:(done)) as Hc.
    assert (n / bits_per_page < 2 ^ 17) as Hn17 by (apply Z.div_lt_upper_bound; [done|rewrite bits_per_page_eq; lia]).
    rewrite Z.shiftr_div_pow2 by done. change (2 ^ EMMCFS_LOG_BITS_PER_PAGE) with bits_per_page.
    rewrite (swrap_small 32 (n / bits_per_page)) by (done || (simpl Z.sub; lia)).
    rewrite chunk_page_eq, (swrap_small 32 (_ * 8193)), <- chunk_page_eq by (done || lia || (simpl Z.sub; lia)).
    rewrite Z.shiftl_mul_pow2 by done. change (2 ^ EMMCFS_LOG_BITS_PER_PAGE) with bits_per_page.
    rewrite uwrap_small by (rewrite bits_per_page_eq in *; lia).
    replace (n - n / bits_per_page * bits_per_page) with (n mod bits_per_page) by lia.
    eapply (wp_open_page m); [by split_and!| |done|auto]. intros m1 Hs1.
    apply (wp_give chunk_page chunk_page_inj m m1 n); [done|done|lia|done|by left]. }
  unfold wp in W. by destruct (free_hlink_data mounted n m).
Qed.
End inodes.

(** The data of a hard link are a quarter of a page of their own: the page
    is none of those of the bitmap, and no other hard link has the same
    quarter. *)
Theorem hlink_value_page_correct a :
  0 <= a < 2 ^ 32 ->
  (forall c, 0 <= c -> fst (hlink_value_page a) <> chunk_page c) /\
  (exists k, 0 <= k < 4 /\ snd (hlink_value_page a) = k * 2 ^ EMMCFS_LOG_ONE_HLINK_DATA_SZ) /\
  forall b, 0 <= b < 2 ^ 32 -> hlink_value_page a = hlink_value_page b -> a = b.
Proof.
  assert (forall x, 0 <= x < 2 ^ 32 -> exists c q k, x = c * 2 ^ 15 + q * 4 + k /\ 0 <= c < 2 ^ 17 /\ 0 <= q < 8192 /\
    0 <= k < 4 /\ hlink_value_page x = (c * 8193 + 1 + q, k * 1024)) as Hsplit.
  { intros x Hx. exists (x / 2 ^ 15), (x mod 2 ^ 15 / 4), (x mod 4).
    pose proof (Z.div_mod x (2 ^ 15) ltac:(done)). pose proof (Z.mod_pos_bound x (2 ^ 15) ltac:(done)).
    pose proof (Z.div_mod (x mod 2 ^ 15) 4 ltac:(done)). pose proof (Z.mod_pos_bound (x mod 2 ^ 15) 4 ltac:(done)).
    pose proof (Z.mod_pos_bound x 4 ltac:(done)).
    assert (x mod 2 ^ 15 mod 4 = x mod 4) as Em.
    { apply (Z.mod_unique_pos _ _ (x / 2 ^ 15 * 8192 + x mod 2 ^ 15 / 4)); lia. }
    pose proof (Z.div_pos x (2 ^ 15) ltac:(lia) ltac:(done)).
    pose proof (Z.div_pos (x mod 2 ^ 15) 4 ltac:(lia) ltac:(done)).
    split; [lia|]. split; [lia|]. split; [lia|]. split; [done|].
    unfold hlink_value_page. rewrite Z.shiftr_div_pow2 by done. change (2 ^ EMMCFS_LOG_BITS_PER_PAGE) with (2 ^ 15).
    rewrite swrap_small by (lia || (simpl Z.sub; lia)). rewrite chunk_page_eq by done.
    change EMMCFS_BITMAP_PAGE_MASK with (Z.ones 15). change EMMCFS_HLINK_IN_PAGE_MASK with (Z.ones 2).
    rewrite !Z.land_ones, Z.shiftr_div_pow2, Z.shiftl_mul_pow2 by done.
    change (2 ^ 2) with 4. change (2 ^ EMMCFS_LOG_HLINKS_PER_PAGE) with 4.
    change (2 ^ EMMCFS_LOG_ONE_HLINK_DATA_SZ) with 1024. rewrite uwrap_small by lia. f_equal. }
  intros Ha. destruct (Hsplit a Ha) as (c & q & k & Ea & Hc & Hq & Hk & ->). cbn [fst snd].
  split; [|split].
  - intros d Hd. rewrite chunk_page_eq by done. lia.
  - by exists k.
  - intros b Hb. destruct (Hsplit b Hb) as (c' & q' & k' & Eb & Hc' & Hq' & Hk' & ->). intros [= E1 E2]. lia.
Qed.

(** ** At work *)
Definition example_ids : id_map := IdMap {[0 := 0x13FF :: replicate 1023 0]} 10 [].

Lemma example_ids_packed : packed id example_ids.
Proof.
  constructor; [|done|].
  - intros i p. destruct (decide (i = 0)) as [->|Hne]; [intros [= <-]; by vm_compute|].
    unfold example_ids; cbn [id_pages]; by rewrite lookup_singleton_ne.
  - intros n Hn. cbn [last_used example_ids] in Hn.
    assert (forallb (id_used id example_ids) (seqZ 0 10) = true) as Hall by by vm_compute.
    rewrite forallb_forall in Hall. apply Hall, list_elem_of_In, elem_of_seqZ. lia.
Qed.

Lemma get_free_inode_correct_witness :
  exists m', get_free_inode true 1 example_ids = (Ok 10, m') /\ taken id example_ids m' 10.
Proof.
  pose proof (get_free_inode_correct true example_ids 1 10 example_ids_packed) as W.
  destruct (get_free_inode true 1 example_ids) as [r m'] eqn:E.
  assert (r = Ok 10) as -> by (apply (f_equal fst) in E; vm_compute in E; congruence).
  exists m'. split; [done|]. apply W; [|lia|by vm_compute|by vm_compute].
  intros k Hk. by apply (pk_used _ _ example_ids_packed).
Defined.

Lemma emmcfs_free_inode_n_correct_witness :
  exists m', emmcfs_free_inode_n true 9 example_ids = (Ok tt, m') /\ given_back id example_ids m' 9.
Proof.
  pose proof (emmcfs_free_inode_n_correct true example_ids 9 example_ids_packed ltac:(lia)) as W.
  destruct (emmcfs_free_inode_n true 9 example_ids) as [r m'] eqn:E.
  assert (r = Ok tt) as -> by (apply (f_equal fst) in E; vm_compute in E; congruence).
  exists m'. split; [done|]. apply W.
Defined.

Lemma example_links_packed : packed chunk_page (IdMap ∅ 0 []).
Proof. constructor; [done|done|]. intros n Hn. cbn in Hn. lia. Qed.

Lemma example_one_link_packed : packed chunk_page (IdMap {[0 := 1 :: replicate 1023 0]} 1 []).
Proof.
  constructor; [|done|].
  - intros i p. destruct (decide (i = 0)) as [->|Hne]; [intros [= <-]; by vm_compute|].
    cbn [id_pages]. by rewrite lookup_singleton_ne.
  - intros n Hn. cbn [last_used] in Hn. by assert (n = 0) as -> by lia.
Qed.

Lemma obtain_hlink_id_correct_witness :
  exists m', obtain_hlink_id true 1 (IdMap ∅ 0 []) = (Ok 0, m') /\ taken chunk_page (IdMap ∅ 0 []) m' 0.
Proof.
  pose proof (obtain_hlink_id_correct true (IdMap ∅ 0 []) 1 0 example_links_packed ltac:(lia)) as W.
  destruct (obtain_hlink_id true 1 (IdMap ∅ 0 [])) as [r m'] eqn:E.
  assert (r = Ok 0) as -> by (apply (f_equal fst) in E; vm_compute in E; congruence).
  exists m'. split; [done|]. destruct W as [[_ W]|(W & _)]; [by vm_compute|by vm_compute|done|].
  by vm_compute in W.
Defined.

Lemma hlink_value_page_correct_witness :
  hlink_value_page 6 = (2, 2048) /\ forall c, 0 <= c -> 2 <> chunk_page c.
Proof. split; [reflexivity|]. apply (hlink_value_page_correct 6). lia. Defined.

Lemma free_hlink_data_correct_witness :
  exists m', free_hlink_data true 0 (IdMap {[0 := 1 :: replicate 1023 0]} 1 []) = (Ok tt, m') /\
  given_back chunk_page (IdMap {[0 := 1 :: replicate 1023 0]} 1 []) m' 0.
Proof.
  pose proof (free_hlink_data_correct true (IdMap {[0 := 1 :: replicate 1023 0]} 1 []) 0 example_one_link_packed ltac:(lia)) as W.
  destruct (free_hlink_data true 0 _) as [r m'] eqn:E.
  assert (r = Ok tt) as -> by (apply (f_equal fst) in E; vm_compute in E; congruence).
  exists m'. split; [done|]. apply W.
Defined.
