(* ===== verification/Truncate.v ===== *)
(** * Giving the blocks of a file back (file.c, orphan.c)

    The truncation of a file, in its fork and in the extents tree, and its
    removal: [unlink] frees the blocks of the fork, and leaves the inode among
    the orphans if the extents tree has more of them; the last close, or the
    next mount, frees those.  The locks and the bounds of the transactions are
    not represented. *)

From S2P Require Import Prelude Monad Data FsmBtree FsmAlloc Fsm Blocks BnodeBytes BnodeRepr BnodePool Btree Exttree Fork InodeIds.
Open Scope Z_scope.

Section truncate.
(** What the B-tree leaves open (Btree.v), and the fuel of the removals. *)
Context (N max_record_len log_pages_per_node : Z) (mounted : bool) (beyond : Z -> bool)
  (grow : Z -> Z -> Z) (address : Z -> Z) (stale : list Z) (levels : nat).
Context `{BlockAlloc A} (block_size_shift : Z).
Abbreviation W := (St (inode * (btree * A))).
Abbreviation V := (St (btree * A)).
Abbreviation find := (emmcfs_btree_find emmcfs_exttree_cmpfn mounted beyond grow).
Abbreviation remove := (emmcfs_btree_remove N max_record_len log_pages_per_node emmcfs_exttree_cmpfn
  mounted beyond grow address levels).
Abbreviation exttree_find := (emmcfs_extent_find mounted beyond grow stale).
Abbreviation add_orphan_inode := (emmcfs_add_orphan_inode N max_record_len log_pages_per_node mounted beyond grow).

(** The code of a call. *)
Definition code {S} (x : St S unit) : St S Z :=
  do r <- try x; match r with Ok _ => ret 0 | Err e => ret e | Bug => bug end.

(** ** Truncation *)

(** [fork->total_block_count -= n] *)
Definition lower_total (f : fork_info) (n : Z) : fork_info :=
  ForkInfo (u32 (fork_blocks f - n)) (fork_prealloc_count f) (fork_prealloc_start f) (fork_extents f) (used_extents f).

(** The loop of [truncate_exttree]. *)
Fixpoint truncate_exttree_loop (fuel : nat) (new_size : Z) : W Z :=
  match fuel with
  | O => bug
  | S fuel =>
    do i <- gets fst;
    let tree {X} (x : M X) : W X := in_volume (in_tree x) in
    do e <- tree (try (exttree_find (ino i) IBLOCK_MAX_NUMBER true));
    match e with
    | Ok (h, pos) =>
      do r <- tree (or_bug (emmcfs_get_btree_record h pos));
      if negb (object_id r =? ino i) then do_ tree (emmcfs_put_bnode h); ret 0
      else
        let ext_off := lextent_begin r in
        let ext_len := lextent_length r in
        if iblock r >=? new_size then
          do rc <- in_blocks (put_free_block ext_off ext_len);
          if negb (rc =? 0) then do_ tree (emmcfs_put_bnode h); ret rc
          else
            do_ put_fork (lower_total (i_fork i) ext_len);
            do_ tree (emmcfs_put_bnode h);
            do_ tree (try (remove (search_key stale (ino i) (iblock r))));
            truncate_exttree_loop fuel new_size
        else if u64 (iblock r + ext_len) >? new_size then
          let delta := u64 (iblock r + ext_len - new_size) in
          do rc <- in_blocks (put_free_block (u64 (ext_off + ext_len - delta)) delta);
          if negb (rc =? 0) then do_ tree (emmcfs_put_bnode h); ret rc
          else
            do_ tree (store_length h pos r (u32 (ext_len - delta)));
            do_ put_fork (lower_total (i_fork i) delta);
            do_ tree (emmcfs_mark_bnode_dirty h);
            do_ tree (emmcfs_put_bnode h);
            ret 0
        else do_ tree (emmcfs_put_bnode h); ret 0
    | _ => ret 0
    end
  end.

Definition truncate_exttree (fuel : nat) (new_size : Z) : W Z :=
  do r <- in_volume (in_tree (try kmalloc));
  match r with
  | Ok _ => truncate_exttree_loop fuel new_size
  | _ => ret (- ENOMEM)
  end.

(** The loop of [truncate_fork], for the extents below [n]. *)
Fixpoint truncate_fork_loop (n : nat) (new_size : Z) : W Z :=
  match n with
  | O => ret 0
  | S i =>
    do f <- fork;
    match fork_extents f !! Z.to_nat (used_extents f - 1), fork_extents f !! i with
    | Some last, Some e =>
      if fork_blocks f - new_size >=? block_count e then
        do err <- in_blocks (put_free_block (first_block last) (block_count last));
        if negb (err =? 0) then ret err
        else
          let total := u32 (fork_blocks f - block_count e) in
          do_ put_fork (with_extent f i null_extent (u32 (used_extents f - 1)) total);
          if total <=? new_size then ret 0 else truncate_fork_loop i new_size
      else
        let delta := u64 (fork_blocks f - new_size) in
        do err <- in_blocks (put_free_block (u64 (first_block last + block_count last - delta)) delta);
        if negb (err =? 0) then ret err
        else
          do_ put_fork (with_extent f i (Extent (first_block e) (u32 (block_count e - delta)))
                          (used_extents f) (fork_blocks f - delta));
          ret 0
    | _, _ => bug
    end
  end.

Definition truncate_fork (new_size : Z) : W Z :=
  do f <- fork;
  truncate_fork_loop (Z.to_nat (used_extents f)) new_size.

(** [emmcfs_truncate_blocks]; [fuel] bounds the records that are removed. *)
Definition emmcfs_truncate_blocks (fuel : nat) (new_size : Z) : W Z :=
  do i <- gets fst;
  do_ BUG_ON (ino i <? EMMCFS_1ST_FILE_INO);
  match i_mode i with
  | S_IFREG | S_IFLNK =>
    let new_size := Z.shiftr (s64 (new_size + Z.shiftl 1 block_size_shift - 1)) block_size_shift in
    let f := i_fork i in
    if fork_blocks f <=? new_size then ret 0
    else
      let internal_extents_bcnt := sum_blocks (take (Z.to_nat (used_extents f)) (fork_extents f)) in
      do rc <- (if internal_extents_bcnt <? fork_blocks f then truncate_exttree fuel new_size else ret 0);
      if negb (rc =? 0) then ret rc
      else
        do f <- fork;
        if fork_blocks f <=? new_size then ret 0 else truncate_fork new_size
  | _ => ret (- EPERM)
  end.

(** ** Removal of a file *)
Abbreviation X := (St (inode * (btree * A) * id_map)).
Definition in_file {Y} (x : W Y) : X Y := zoom fst (fun w s => (w, snd s)) x.
Definition in_ids {S Y} (x : St id_map Y) : St (S * id_map) Y := zoom snd (fun m s => (fst s, m)) x.

(** The loop of [emmcfs_fsm_free_runtime_fork]: the extents from the last on. *)
Fixpoint free_fork_loop (n : nat) : W Z :=
  do f <- fork;
  if (used_extents f =? 0) || (fork_blocks f =? 0) then ret 0
  else
    match n with
    | O => bug
    | S n =>
      let k := Z.to_nat (used_extents f - 1) in
      match fork_extents f !! k with
      | Some e =>
        if block_count e =? 0 then
          do_ put_fork (with_extent f k e (used_extents f - 1) (fork_blocks f));
          free_fork_loop n
        else
          do_ put_fork (with_extent f k e (used_extents f - 1) (fork_blocks f));
          do err <- in_blocks (put_free_block (first_block e) (block_count e));
          if negb (err =? 0) then ret err
          else
            do_ put_fork (with_extent f k null_extent (used_extents f - 1) (fork_blocks f - block_count e));
            free_fork_loop n
      | None => bug
      end
    end.

(** [emmcfs_fsm_free_runtime_fork] *)
Definition emmcfs_fsm_free_runtime_fork : X Z :=
  do err <- in_file (do f <- fork; free_fork_loop (Z.to_nat (used_extents f)));
  if negb (err =? 0) then ret err
  else
    do i <- gets (fun s => fst (fst s));
    if negb (fork_blocks (i_fork i) =? 0)
    then in_file (in_volume (in_tree (code (add_orphan_inode (ino i)))))
    else in_ids (code (emmcfs_free_inode_n mounted (ino i))).

(** The loop of [emmcfs_fsm_free_exttree]. *)
Fixpoint free_exttree_loop (fuel : nat) (ino : Z) : V Z :=
  match fuel with
  | O => bug
  | S fuel =>
    do e <- in_tree (try (find (search_key stale ino IBLOCK_DOES_NOT_MATTER) false));
    match e with
    | Ok (h, pos) =>
      do r <- in_tree (or_bug (emmcfs_get_btree_record h pos));
      do_ in_tree (emmcfs_put_bnode h);
      if negb (object_id r =? ino) then ret 0
      else
        do rc <- in_tree (code (remove (search_key stale ino (iblock r))));
        if negb (rc =? 0) then ret rc
        else
          do rc <- in_alloc (free_extent (lextent_begin r) (lextent_length r));
          if negb (rc =? 0) then ret rc else free_exttree_loop fuel ino
    | Err e => ret e
    | Bug => bug
    end
  end.

(** [emmcfs_fsm_free_exttree] *)
Definition emmcfs_fsm_free_exttree (fuel : nat) (ino : Z) : St (btree * A * id_map) Z :=
  let vol {Y} (x : V Y) : St (btree * A * id_map) Y := zoom fst (fun v s => (v, snd s)) x in
  do k <- vol (in_tree (try kmalloc));
  match k with
  | Ok _ =>
    do rc <- vol (free_exttree_loop fuel ino);
    do rc <- (if rc =? 0 then vol (in_tree (code (remove (search_key stale EMMCFS_ORPHAN_INODES_INO ino)))) else ret rc);
    if rc =? 0 then in_ids (code (emmcfs_free_inode_n mounted ino)) else ret rc
  | _ => ret (- ENOMEM)
  end.

(** The loop of [emmcfs_process_orphan_inodes]: [orphans] bounds the orphans,
    [fuel] the records of each. *)
Fixpoint process_loop (orphans fuel : nat) : St (btree * A * id_map) Z :=
  match orphans with
  | O => bug
  | S orphans =>
    let tree {Y} (x : M Y) : St (btree * A * id_map) Y := zoom fst (fun v s => (v, snd s)) (in_tree x) in
    do e <- tree (try (find (search_key stale EMMCFS_ORPHAN_INODES_INO IBLOCK_DOES_NOT_MATTER) false));
    match e with
    | Ok (h, pos) =>
      do r <- tree (or_bug (emmcfs_get_btree_record h pos));
      do_ tree (emmcfs_put_bnode h);
      if negb (object_id r =? EMMCFS_ORPHAN_INODES_INO) then ret 0
      else
        do rc <- emmcfs_fsm_free_exttree fuel (iblock r);
        if negb (rc =? 0) then ret rc else process_loop orphans fuel
    | Err e => ret e
    | Bug => bug
    end
  end.

Definition emmcfs_process_orphan_inodes (orphans fuel : nat) : St (btree * A * id_map) Z :=
  do k <- zoom fst (fun v s => (v, snd s)) (in_tree (try kmalloc));
  match k with
  | Ok _ => process_loop orphans fuel
  | _ => ret (- ENOMEM)
  end.
End truncate.
