(* ===== verification/TruncateTheorems.v ===== *)
(** * The properties of truncation and removal

    A truncated file keeps the places of the blocks it keeps, and the others
    are given back to the volume; a file that is unlinked gives all the blocks
    of its fork back. *)

From S2P Require Import Prelude Monad Data FsmBtree FsmBtreeInv FsmAlloc Fsm FsmProofs FsmMount FsmTheorems Blocks.
From S2P Require Import BnodeBytes BnodeRepr BnodePool BnodePoolProofs Btree BtreeInv BtreeFind BtreeInsert BtreeSpec.
From S2P Require Import Exttree ExttreeProofs ExttreeTheorems Fork ForkProofs ForkTheorems InodeIds InodeIdsTheorems Truncate.
Open Scope Z_scope.

(** ** The fork *)

(** The blocks of [es] lie on the volume in use, each at a place of its own. *)
Definition places (used : Z -> bool) (es : list extent_info) : Prop :=
  (forall ib p, 0 <= ib -> nth_block es ib = Some p -> used p = true) /\
  (forall ib ib' p, 0 <= ib -> 0 <= ib' -> nth_block es ib = Some p -> nth_block es ib' = Some p -> ib = ib').

Lemma nth_block_l es e ib p : Forall extent_ok es -> 0 <= ib -> nth_block es ib = Some p -> nth_block (es ++ [e]) ib = Some p.
Proof.
  intros H Hib Hp. rewrite nth_block_app by done.
  assert (ib < sum_blocks es) by (apply nth_block_Some; eauto). by rewrite (proj2 (Z.ltb_lt _ _)).
Qed.

Lemma nth_block_r es e k : Forall extent_ok es -> 0 <= k < block_count e ->
  nth_block (es ++ [e]) (sum_blocks es + k) = Some (first_block e + k).
Proof.
  intros H Hk. pose proof (sum_blocks_nonneg _ H). rewrite nth_block_app by (done || lia).
  rewrite (proj2 (Z.ltb_ge _ _)) by lia. simpl. replace (sum_blocks es + k - sum_blocks es) with k by lia.
  by rewrite (proj2 (Z.ltb_lt _ _)) by lia.
Qed.

Lemma nth_block_last es e ib p : Forall extent_ok es -> sum_blocks es <= ib -> nth_block (es ++ [e]) ib = Some p ->
  ib < sum_blocks es + block_count e /\ p = first_block e + (ib - sum_blocks es).
Proof.
  intros H Hib. pose proof (sum_blocks_nonneg _ H). rewrite nth_block_app by (done || lia).
  rewrite (proj2 (Z.ltb_ge _ _)) by lia. simpl. destruct (Z.ltb_spec (ib - sum_blocks es) (block_count e)); [|done].
  intros [= <-]. lia.
Qed.

(** The last [len] blocks of the last extent are given back. *)
Lemma places_given used used' es e len : Forall extent_ok (es ++ [e]) -> places used (es ++ [e]) -> 0 < len <= block_count e ->
  (forall p, used' p = negb (in_chunk (first_block e + block_count e - len) len p) && used p) ->
  forall ib p, 0 <= ib < sum_blocks es + block_count e - len -> nth_block (es ++ [e]) ib = Some p -> used' p = true.
Proof.
  intros [Hes He]%Forall_app [Hu Hi] Hlen Hu' ib p Hib Hp. rewrite Hu', (Hu ib p) by (done || lia).
  destruct (in_chunk_spec (first_block e + block_count e - len) len p) as [Hin|]; [|done]. exfalso.
  pose proof (nth_block_r es e (p - first_block e) Hes ltac:(lia)) as Hq.
  replace (first_block e + (p - first_block e)) with p in Hq by lia.
  pose proof (sum_blocks_nonneg _ Hes). pose proof (Hi ib (sum_blocks es + (p - first_block e)) p ltac:(lia) ltac:(lia) Hp Hq). lia.
Qed.

Lemma places_l used es e : Forall extent_ok es -> places used (es ++ [e]) -> places used es.
Proof.
  intros H [H1 H2]. split.
  - intros ib p Hib Hp. by eapply H1; [|by apply nth_block_l].
  - intros ib ib' p Hib Hib' Hp Hp'. by eapply H2; [..|by apply nth_block_l|by apply nth_block_l].
Qed.

(** The places in use after a truncation to [n] blocks. *)
Definition given_up (used used' : Z -> bool) (mapped : Z -> Z -> Prop) (n : Z) : Prop :=
  forall p, used' p = true <-> used p = true /\ ~ exists ib, n <= ib /\ mapped ib p.

Section cut.
Context (N max_record_len : Z) `{BlockAlloc A}.
Abbreviation file_ok := (file_ok N max_record_len).
Abbreviation exttree_ok := (tree_ok N max_record_len emmcfs_exttree_cmpfn ext_key_ok).
Abbreviation state := (inode * (btree * A))%type.

(** The fork holds the first [n] blocks of [es]. *)
Definition fork_cut (i : inode) (t : btree) (a : A) (es : list extent_info) (n : Z) (s : state) : Prop :=
  exists f' a' es', s = (set_fork i f', (t, a')) /\ fork_is f' es' /\ fork_blocks f' = n /\ sum_blocks es' = n /\
    (forall ib, 0 <= ib -> nth_block es' ib = if ib <? n then nth_block es ib else None) /\ alloc_ok a' /\
    given_up (in_use a) (in_use a') (fun ib p => nth_block es ib = Some p) n.

Lemma wp_free_blocks off len i (t : btree) (a : A) {X} (k : Z -> St state X) Q : alloc_ok a -> 0 < off -> 0 < len ->
  (forall b, off <= b < off + len -> in_use a b = true) ->
  (forall a', alloc_ok a' -> (forall b, in_use a' b = negb (in_chunk off len b) && in_use a b) -> wp (k 0) (i, (t, a')) Q) ->
  wp (bind (in_blocks (put_free_block off len)) k) (i, (t, a)) Q.
Proof using.
  intros Ha Hoff Hlen Hu Hk. apply wp_bind_ok, wp_in_blocks.
  eapply wp_mono; [by apply put_free_block_ok|]. intros [r|e|] a'; simpl; [|done|done]. intros (-> & Ha' & Hu'). by apply Hk.
Qed.

Lemma given_up_step used used1 used' es e n m : Forall extent_ok es -> places used (es ++ [e]) -> n <= m -> sum_blocks es <= m ->
  m < sum_blocks es + block_count e ->
  (forall p, used1 p = negb (in_chunk (first_block e + (m - sum_blocks es)) (sum_blocks es + block_count e - m) p) && used p) ->
  (forall p, used' p = true <-> used1 p = true /\ ~ exists ib, n <= ib < m /\ nth_block (es ++ [e]) ib = Some p) ->
  given_up used used' (fun ib p => nth_block (es ++ [e]) ib = Some p) n.
Proof using.
  intros Hes [Hu Hi] Hnm Hm1 Hm2 E1 E2 p. rewrite E2, E1, andb_true_iff, negb_true_iff.
  pose proof (sum_blocks_nonneg _ Hes).
  split.
  - intros [[Hc Hp] Hno]. split; [done|]. intros (ib & Hib & Hn).
    destruct (decide (ib < m)); [apply Hno; exists ib; split; [lia|done]|].
    apply nth_block_last in Hn as [Hl ->]; [|done|lia].
    destruct (in_chunk_spec (first_block e + (m - sum_blocks es)) (sum_blocks es + block_count e - m)
      (first_block e + (ib - sum_blocks es))); [done|lia].
  - intros [Hp Hno]. split; [split; [|done]|].
    + destruct (in_chunk_spec (first_block e + (m - sum_blocks es)) (sum_blocks es + block_count e - m) p); [exfalso|done].
      apply Hno. exists (sum_blocks es + (p - first_block e)). split; [lia|].
      rewrite nth_block_r by (done || lia). f_equal. lia.
    + intros (ib & Hib & Hn). apply Hno. exists ib. split; [lia|done].
Qed.

Lemma wp_truncate_fork_loop es : forall i t a n, fork_is (i_fork i) es -> fork_blocks (i_fork i) = sum_blocks es ->
  sum_blocks es < 2 ^ 32 -> 0 <= n < sum_blocks es -> alloc_ok a -> places (in_use a) es ->
  wp (truncate_fork_loop (length es) n) (i, (t, a)) (ok (fun r s => r = 0 /\ fork_cut i t a es n s)).
Proof using.
  induction es as [|e es IH] using rev_ind; intros i t a n Hf Eb Hlim Hn Ha Hpl; [simpl in Hn; lia|].
  pose proof Hf as [E1 E2 E3 E4]. pose proof E4 as [Hes He]%Forall_app. pose proof (proj1 (Forall_singleton _ _) He) as He'.
  destruct He' as (Hfb & Hcnt & Hend).
  rewrite sum_blocks_app in Eb, Hlim, Hn. simpl in Eb, Hlim, Hn. rewrite Z.add_0_r in Eb, Hlim, Hn.
  pose proof (sum_blocks_nonneg _ Hes) as Hs0.
  rewrite length_app. simpl. replace (length es + 1)%nat with (S (length es)) by lia. cbn [truncate_fork_loop].
  apply wp_gets. cbn [fst].
  assert (fork_extents (i_fork i) !! length es = Some e) as Hlast.
  { rewrite E1, <- app_assoc. by apply list_lookup_middle. }
  replace (Z.to_nat (used_extents (i_fork i) - 1)) with (length es) by (rewrite E2, length_app; simpl; lia).
  rewrite Hlast, Eb, Z.geb_leb. destruct (Z.leb_spec (block_count e) (sum_blocks es + block_count e - n)) as [Hall|Hcut].
  - (* the whole extent *)
    apply wp_free_blocks; [done|done|done| |].
    { intros b Hb. destruct Hpl as [Hu _]. apply (Hu (sum_blocks es + (b - first_block e))); [lia|].
      rewrite nth_block_r by (done || lia). f_equal. lia. }
    intros a1 Ha1 Hu1. cbn [Z.eqb negb].
    assert (fork_is (with_extent (i_fork i) (length es) null_extent (u32 (used_extents (i_fork i) - 1))
      (u32 (sum_blocks es + block_count e - block_count e))) es) as Hf'.
    { rewrite length_app in E2, E3. simpl in E2, E3.
      constructor; cbn [fork_extents used_extents with_extent]; [|rewrite E2, uwrap_small; lia|lia|done].
      rewrite E1, <- app_assoc, length_app. simpl. rewrite mid_insert by done.
      by replace (9 - length es)%nat with (S (9 - (length es + 1)))%nat by lia. }
    replace (sum_blocks es + block_count e - block_count e) with (sum_blocks es) in * by lia.
    rewrite (uwrap_small 32 (sum_blocks es)) in * by lia.
    assert (places (in_use a1) es) as Hpl1.
    { destruct (places_l _ _ _ Hes Hpl) as [_ Hi]. split; [|done]. intros ib p Hib Hp.
      assert (ib < sum_blocks es) by (apply nth_block_Some; eauto).
      apply (places_given (in_use a) (in_use a1) es e (block_count e) E4 Hpl ltac:(lia)) with (ib := ib); [|lia|by apply nth_block_l].
      intros q. rewrite Hu1. by replace (first_block e + block_count e - block_count e) with (first_block e) by lia. }
    unfold put_fork, put_inode. apply wp_modify. cbn [fst snd]. set (i1 := set_fork i _).
    destruct (Z.leb_spec (sum_blocks es) n) as [Hle|Hgt].
    + assert (n = sum_blocks es) as -> by lia. apply wp_ret. split; [done|].
      eexists _, a1, es. split; [done|]. split; [exact Hf'|].
      split; [cbn; by rewrite !uwrap_small by lia|]. split; [done|]. split; [|split; [done|]].
      * intros ib Hib. rewrite nth_block_app by done. destruct (Z.ltb_spec ib (sum_blocks es)); [done|].
        destruct (nth_block es ib) eqn:E; [|done]. assert (ib < sum_blocks es) by (apply nth_block_Some; eauto). lia.
      * eapply (given_up_step (in_use a) (in_use a1) (in_use a1) es e _ (sum_blocks es)); try done; try lia.
        -- intros p. rewrite Hu1. rewrite Z.sub_diag, Z.add_0_r. by replace (sum_blocks es + block_count e - sum_blocks es) with (block_count e) by lia.
        -- intros p. split; [|by intros []]. intros ?. split; [done|]. intros (ib & ? & _). lia.
    + eapply wp_ok_mono; [apply (IH i1 t a1 n); try done; try lia; cbn; by rewrite ?uwrap_small by lia|].
      intros r s (-> & f' & a' & es' & -> & Hf2 & B2 & S2 & N2 & A2 & G2). split; [done|].
      exists f', a', es'. split; [done|]. split; [done|]. split; [done|]. split; [done|]. split; [|split; [done|]].
      * intros ib Hib. rewrite N2 by done. destruct (Z.ltb_spec ib n); [|done].
        rewrite nth_block_app by done. by rewrite (proj2 (Z.ltb_lt _ _)) by lia.
      * eapply (given_up_step (in_use a) (in_use a1) (in_use a') es e n (sum_blocks es)); try done; try lia.
        -- intros p. rewrite Hu1, Z.sub_diag, Z.add_0_r. by replace (sum_blocks es + block_count e - sum_blocks es) with (block_count e) by lia.
        -- intros p. rewrite (G2 p). assert ((exists ib, n <= ib /\ nth_block es ib = Some p) <->
             (exists ib, n <= ib < sum_blocks es /\ nth_block (es ++ [e]) ib = Some p)) as Hiff; [|by rewrite Hiff].
           split; intros (ib & Hib & Hp); exists ib.
           ++ assert (ib < sum_blocks es) by (apply nth_block_Some; eauto; lia). split; [lia|]. apply nth_block_l; [done|lia|done].
           ++ split; [lia|]. rewrite nth_block_app in Hp by (done || lia). by rewrite (proj2 (Z.ltb_lt _ _)) in Hp by lia.
  - (* the end of the extent *)
    rewrite (uwrap_small 64 (sum_blocks es + block_count e - n)) by lia.
    set (delta := sum_blocks es + block_count e - n) in *.
    rewrite (uwrap_small 64) by lia.
    apply wp_free_blocks; [done|lia|lia| |].
    { intros b Hb. destruct Hpl as [Hu _]. apply (Hu (sum_blocks es + (b - first_block e))); [lia|].
      rewrite nth_block_r by (done || lia). f_equal. lia. }
    intros a1 Ha1 Hu1. cbn [Z.eqb negb].
    unfold put_fork, put_inode. apply wp_modify. cbn [fst snd]. apply wp_ret. split; [done|].
    rewrite (uwrap_small 32 (block_count e - delta)) by lia.
    eexists _, a1, (es ++ [Extent (first_block e) (block_count e - delta)]). split; [done|]. split.
    { apply (fork_is_last _ es e); [done|unfold extent_ok; simpl; lia|done]. }
    split; [cbn; rewrite uwrap_small by lia; lia|].
    split; [rewrite sum_blocks_app; simpl; lia|]. split; [|split; [done|]].
    + intros ib Hib. rewrite !nth_block_app by done. simpl.
      destruct (Z.ltb_spec ib (sum_blocks es)), (Z.ltb_spec ib n); try done; try lia.
      * rewrite !(proj2 (Z.ltb_lt _ _)) by lia. done.
      * by rewrite (proj2 (Z.ltb_ge _ _)) by lia.
    + eapply (given_up_step (in_use a) (in_use a1) (in_use a1) es e n n); try done; try lia.
      * intros p. rewrite Hu1. by replace (first_block e + (n - sum_blocks es)) with (first_block e + block_count e - delta) by lia.
      * intros p. split; [|by intros []]. intros ?. split; [done|]. intros (ib & ? & _). lia.
Qed.

(** ** A file *)

(** The state [s] holds the first [n] blocks of the file; the places of the
    others are free, and the records of other files are as they were. *)
Record file_cut (i : inode) (a : A) (lv : list (list (Z * list record))) es (n : Z) (s : state) lv' es' : Prop := {
  fc_ok : file_ok (fst s) (fst (snd s)) (snd (snd s)) lv' es';
  fc_ino : ino (fst s) = ino i;
  fc_blocks : fork_blocks (i_fork (fst s)) = n;
  fc_maps ib p : file_maps es' (elements lv') (ino i) ib p <-> file_maps es (elements lv) (ino i) ib p /\ ib < n;
  fc_others r : object_id r <> ino i -> r ∈ elements lv' <-> r ∈ elements lv;
  fc_used : given_up (in_use a) (in_use (snd (snd s))) (file_maps es (elements lv) (ino i)) n
}.

Lemma file_places i t (a : A) lv es : file_ok i t a lv es -> places (in_use a) es.
Proof using.
  intros F. split.
  - intros ib p Hib Hp. apply (fo_used _ _ _ _ _ _ _ F ib). split; [done|]. by left.
  - intros ib ib' p Hib Hib' Hp Hp'. apply (fo_inj _ _ _ _ _ _ _ F ib ib' p); (split; [done|]; by left).
Qed.

(** What is left when only the first [n] blocks are mapped. *)
Lemma cut_kept i a lv es n s lv' es' : (forall ib p, file_maps es (elements lv) (ino i) ib p -> in_use a p = true) ->
  (forall ib ib' p, file_maps es (elements lv) (ino i) ib p -> file_maps es (elements lv) (ino i) ib' p -> ib = ib') ->
  (forall ib p, file_maps es' (elements lv') (ino i) ib p <-> file_maps es (elements lv) (ino i) ib p /\ ib < n) ->
  given_up (in_use a) (in_use (snd (snd (s : state)))) (file_maps es (elements lv) (ino i)) n ->
  (forall ib p, file_maps es' (elements lv') (ino i) ib p -> in_use (snd (snd s)) p = true) /\
  (forall ib ib' p, file_maps es' (elements lv') (ino i) ib p -> file_maps es' (elements lv') (ino i) ib' p -> ib = ib').
Proof using.
  intros Hu Hi Hm Hg. split.
  - intros ib p [Hp Hlt]%Hm. apply Hg. split; [by eapply Hu|]. intros (ib' & Hib' & Hp').
    pose proof (Hi _ _ _ Hp Hp'). lia.
  - intros ib ib' p [Hp _]%Hm [Hp' _]%Hm. by eapply Hi.
Qed.

Lemma cut_in_fork i t a lv es n s : file_ok i t a lv es -> sum_blocks es = fork_blocks (i_fork i) ->
  0 <= n < fork_blocks (i_fork i) -> fork_cut i t a es n s -> exists es', file_cut i a lv es n s lv es'.
Proof using.
  intros F Hsum Hn (f' & a' & es' & -> & Hf' & Eb & Es & Hnth & Ha' & Hg). exists es'.
  pose proof (no_records _ _ _ _ _ _ _ F Hsum) as Hno.
  assert (forall l ib p, file_maps l (elements lv) (ino i) ib p <-> 0 <= ib /\ nth_block l ib = Some p) as Hfm.
  { intros l ib p. unfold file_maps. pose proof (no_maps (elements lv) (ino i) ib p Hno). tauto. }
  assert (forall ib p, file_maps es' (elements lv) (ino i) ib p <-> file_maps es (elements lv) (ino i) ib p /\ ib < n) as Hm.
  { intros ib p. rewrite !Hfm. split.
    - intros [Hib Hp]. rewrite Hnth in Hp by done. by destruct (Z.ltb_spec ib n).
    - intros [[Hib Hp] Hlt]. split; [done|]. rewrite Hnth by done. by rewrite (proj2 (Z.ltb_lt _ _)). }
  assert (given_up (in_use a) (in_use a') (file_maps es (elements lv) (ino i)) n) as Hg'.
  { intros p. rewrite (Hg p). assert ((exists ib, n <= ib /\ nth_block es ib = Some p) <->
      (exists ib, n <= ib /\ file_maps es (elements lv) (ino i) ib p)) as Hiff; [|by rewrite Hiff].
    split; intros (ib & Hib & Hp); exists ib; (split; [done|]); [apply Hfm; split; [lia|done]|by apply Hfm in Hp as []]. }
  destruct F as [F1 F2 F3 F4 F5 F6 F7 F8 F9 F10 F11 F12 F13].
  destruct (cut_kept i a lv es n (set_fork i f', (t, a')) lv es' F11 F12 Hm Hg') as [Hu Hi].
  constructor; simpl; try done. constructor; simpl; rewrite ?Eb, ?Es; try done; try lia.
  - split; [intros r Hr Ho|intros r r' Hr _ Ho _ _|intros r Hr Ho]; by destruct (Hno r Hr).
  - intros r Hr Ho. by destruct (Hno r Hr).
Qed.

Lemma cut_in_tree i t t' a a' lv lv' es x x' l n f' : file_ok i t a lv es ->
  exttree_ok t' lv' -> elements lv ≡ₚ x :: l -> elements lv' ≡ₚ x' :: l -> object_id x = ino i ->
  iblock x + lextent_length x = fork_blocks (i_fork i) -> iblock x < n < fork_blocks (i_fork i) ->
  rlen x' = rlen x -> object_id x' = object_id x -> iblock x' = iblock x ->
  lextent_begin x' = lextent_begin x -> lextent_length x' = n - iblock x ->
  fork_extents f' = fork_extents (i_fork i) -> used_extents f' = used_extents (i_fork i) -> fork_blocks f' = n ->
  alloc_ok a' -> (forall p, in_use a' p = negb (in_chunk (lextent_begin x + (n - iblock x)) (fork_blocks (i_fork i) - n) p) && in_use a p) ->
  file_cut i a lv es n (set_fork i f', (t', a')) lv' es.
Proof using.
  intros F Ht' P P' Ho Hend Hn E1 E2 E3 E4 E5 Ee Eu Eb Ha' Hu.
  destruct (tree_sorted N max_record_len t lv (fo_tree _ _ _ _ _ _ _ F)) as [Hsort Hkeys].
  assert (x ∈ elements lv) as Hx by (rewrite P; set_solver).
  assert (forall s, s ∈ l -> object_id s = ino i -> iblock s <> iblock x) as Hne.
  { intros s Hs Hos Eq. assert (s ∈ elements lv) as Hs' by (rewrite P; set_solver).
    pose proof (extent_unique _ Hsort Hkeys s x Hs' Hx ltac:(congruence) Eq) as ->.
    by apply (sorted_nodup _ Hsort Hkeys) in P. }
  pose proof F as [F1 F2 F3 F4 F5 F6 F7 F8 F9 F10 F11 F12 F13].
  pose proof (extents_ok_perm _ _ _ _ P F8) as F8'.
  pose proof (xo_shape _ _ _ F8 x Hx Ho) as Hsx. pose proof (F9 x Hx Ho) as Hbx.
  assert (forall ino' ib p, maps (elements lv') ino' ib p <-> maps (elements lv) ino' ib p /\ (ino' = ino i -> ib < n)) as Hmaps.
  { intros ino' ib p. rewrite (maps_perm _ _ _ _ _ P), (maps_perm _ _ _ _ _ P').
    apply (maps_shorter l (ino i) (fork_blocks (i_fork i)) x x'); try done. lia. }
  assert (forall ib p, file_maps es (elements lv') (ino i) ib p <-> file_maps es (elements lv) (ino i) ib p /\ ib < n) as Hm.
  { intros ib p. unfold file_maps. rewrite Hmaps. split; [|tauto].
    intros (Hib & [Hp|(Hs & Hp & Hlt)]); [split; [tauto|]|split; [tauto|auto]].
    assert (ib < sum_blocks es) by (apply nth_block_Some; [apply F4|done|eauto]). lia. }
  assert (given_up (in_use a) (in_use a') (file_maps es (elements lv) (ino i)) n) as Hg.
  { intros p. rewrite Hu, andb_true_iff, negb_true_iff.
    assert (forall k, 0 <= k < fork_blocks (i_fork i) - n ->
      file_maps es (elements lv) (ino i) (n + k) (lextent_begin x + (n - iblock x) + k)) as Hin.
    { intros k Hk. split; [lia|]. right. split; [lia|]. exists x. split; [done|]. split; [done|]. split; lia. }
    split.
    - intros [Hc Hp]. split; [done|]. intros (ib & Hib & Hp').
      destruct (file_maps_bound _ _ _ _ _ _ _ _ _ F Hp') as [Hlt _].
      destruct Hp' as [_ [Hp'|[_ (y & Hy & Hoy & Hb & ->)]]].
      + assert (ib < sum_blocks es) by (apply nth_block_Some; [apply F4|lia|eauto]). lia.
      + assert (y = x) as ->.
        { pose proof Hy as Hy0. rewrite P in Hy0. apply elem_of_cons in Hy0 as [->|Hy0]; [done|]. exfalso. specialize (Hne y Hy0 Hoy).
          pose proof (xo_shape _ _ _ F8 y Hy Hoy).
          destruct (Z.lt_trichotomy (iblock y) (iblock x)) as [Hlt'|[?|Hlt']]; [|done|].
          - pose proof (xo_disjoint _ _ _ F8 y x Hy Hx Hoy Ho Hlt'). lia.
          - pose proof (xo_disjoint _ _ _ F8 x y Hx Hy Ho Hoy Hlt'). lia. }
        destruct (in_chunk_spec (lextent_begin x + (n - iblock x)) (fork_blocks (i_fork i) - n)
          (lextent_begin x + (ib - iblock x))); [done|lia].
    - intros [Hp Hno]. split; [|done].
      destruct (in_chunk_spec (lextent_begin x + (n - iblock x)) (fork_blocks (i_fork i) - n) p); [|done].
      exfalso. apply Hno. exists (n + (p - (lextent_begin x + (n - iblock x)))). split; [lia|].
      replace p with (lextent_begin x + (n - iblock x) + (p - (lextent_begin x + (n - iblock x)))) at 2 by lia.
      apply Hin. lia. }
  assert (forall r, object_id r <> ino i -> r ∈ elements lv' <-> r ∈ elements lv) as Hoth.
  { intros r Hr. rewrite P, P', !elem_of_cons. split; (intros [->|?]; [congruence|by right]). }
  destruct (cut_kept i a lv es n (set_fork i f', (t', a')) lv' es F11 F12 Hm Hg) as [Hu' Hi'].
  constructor; simpl; try done. constructor; simpl; rewrite ?Eb; try done; try lia.
  - destruct F4 as [G1 G2 G3 G4]. constructor; congruence || done.
  - eapply extents_ok_perm; [symmetry; exact P'|]. eapply (extents_ok_shorter l (ino i) _ x); try done. lia.
  - intros r Hr Hor. rewrite P' in Hr. apply elem_of_cons in Hr as [->|Hr]; [lia|].
    apply F9; [|done]. rewrite P. set_solver.
  - intros ib Hib. destruct (F10 ib ltac:(lia)) as [p Hp]. exists p. apply Hmaps. split; [done|lia].
  - destruct F13 as (r & Hr & Hor). exists r. split; [|done]. apply Hoth; [lia|done].
Qed.
End cut.

Section free_fork.
Context `{BlockAlloc A}.
Abbreviation state := (inode * (btree * A))%type.

(** The extents of the fork are given back from the last on. *)
Lemma wp_free_fork_loop es : forall i t (a : A) rest, fork_is (i_fork i) es -> fork_blocks (i_fork i) = sum_blocks es + rest ->
  0 <= rest -> sum_blocks es + rest < 2 ^ 32 -> alloc_ok a -> places (in_use a) es ->
  wp (free_fork_loop (length es)) (i, (t, a)) (ok (fun r s => r = 0 /\ exists f' a',
    s = (set_fork i f', (t, a')) /\ fork_is f' [] /\ fork_blocks f' = rest /\ alloc_ok a' /\
    given_up (in_use a) (in_use a') (fun ib p => nth_block es ib = Some p) 0)).
Proof using.
  induction es as [|e es IH] using rev_ind; intros i t a rest Hf Eb Hrest Hlim Ha Hpl; pose proof Hf as [E1 E2 E3 E4].
  - cbn [free_fork_loop length]. apply wp_gets. cbn [fst]. rewrite E2. cbn [length Z.of_nat Z.eqb orb].
    apply wp_ret. split; [done|]. exists (i_fork i), a. split; [by destruct i|]. split; [done|].
    split; [by rewrite Eb|]. split; [done|]. intros p. split; [|by intros []]. intros Hp. split; [done|]. by intros (ib & _ & ?).
  - pose proof E4 as [Hes He]%Forall_app. pose proof (proj1 (Forall_singleton _ _) He) as (Hfb & Hcnt & Hend).
    rewrite sum_blocks_app in Eb, Hlim. simpl in Eb, Hlim. rewrite Z.add_0_r in Eb, Hlim.
    pose proof (sum_blocks_nonneg _ Hes) as Hs0. rewrite length_app in *. simpl in E2, E3 |- *.
    replace (length es + 1)%nat with (S (length es)) in * by lia. cbn [free_fork_loop].
    apply wp_gets. cbn [fst]. rewrite E2, Eb, (proj2 (Z.eqb_neq _ 0)), (proj2 (Z.eqb_neq _ 0)) by lia. cbn [orb].
    replace (Z.to_nat (Z.of_nat (S (length es)) - 1)) with (length es) by lia.
    replace (Z.of_nat (S (length es)) - 1) with (Z.of_nat (length es)) by lia.
    assert (fork_extents (i_fork i) !! length es = Some e) as Hlast.
    { rewrite E1, <- app_assoc. by apply list_lookup_middle. }
    rewrite Hlast, (proj2 (Z.eqb_neq _ 0)) by lia.
    unfold put_fork, put_inode. apply wp_modify. cbn [fst snd].
    apply wp_free_blocks; [done|done|done| |].
    { intros b Hb. destruct Hpl as [Hu _]. apply (Hu (sum_blocks es + (b - first_block e))); [lia|].
      rewrite nth_block_r by (done || lia). f_equal. lia. }
    intros a1 Ha1 Hu1. cbn [Z.eqb negb]. apply wp_modify. cbn [fst snd].
    assert (places (in_use a1) es) as Hpl1.
    { destruct (places_l _ _ _ Hes Hpl) as [_ Hi]. split; [|done]. intros ib p Hib Hp.
      assert (ib < sum_blocks es) by (apply nth_block_Some; eauto).
      apply (places_given (in_use a) (in_use a1) es e (block_count e) E4 Hpl ltac:(lia)) with (ib := ib); [|lia|by apply nth_block_l].
      intros q. rewrite Hu1. by replace (first_block e + block_count e - block_count e) with (first_block e) by lia. }
    set (i1 := set_fork _ _).
    assert (fork_is (i_fork i1) es) as Hf1.
    { constructor; [|done|lia|done]. cbn. rewrite E1, <- app_assoc. simpl. rewrite mid_insert by done.
      f_equal. change (length [e]) with 1%nat. by replace (9 - length es)%nat with (S (9 - (length es + 1)))%nat by lia. }
    assert (fork_blocks (i_fork i1) = sum_blocks es + rest) as Eb1 by (cbn; rewrite uwrap_small; lia).
    eapply wp_ok_mono; [apply (IH i1 t a1 rest); done || lia|].
    intros r s (-> & f' & a' & -> & Hf2 & B2 & A2 & G2). split; [done|].
    exists f', a'. split; [done|]. split; [done|]. split; [done|]. split; [done|].
    eapply (given_up_step (in_use a) (in_use a1) (in_use a') es e 0 (sum_blocks es)); try done; try lia.
    + intros p. rewrite Hu1, Z.sub_diag, Z.add_0_r. by replace (sum_blocks es + block_count e - sum_blocks es) with (block_count e) by lia.
    + intros p. rewrite (G2 p). assert ((exists ib, 0 <= ib /\ nth_block es ib = Some p) <->
         (exists ib, 0 <= ib < sum_blocks es /\ nth_block (es ++ [e]) ib = Some p)) as Hiff; [|by rewrite Hiff].
      split; intros (ib & Hib & Hp); exists ib.
      * assert (ib < sum_blocks es) by (apply nth_block_Some; eauto; lia). split; [lia|]. apply nth_block_l; [done|lia|done].
      * split; [lia|]. rewrite nth_block_app in Hp by (done || lia). by rewrite (proj2 (Z.ltb_lt _ _)) in Hp by lia.
Qed.
End free_fork.

Section truncate.
Context (N max_record_len log_pages_per_node : Z) (mounted : bool) (beyond : Z -> bool)
  (grow : Z -> Z -> Z) (address : Z -> Z) (stale : list Z) (levels : nat).
Context `{BlockAlloc A} (block_size_shift : Z).
Abbreviation file_ok := (file_ok N max_record_len).
Abbreviation state := (inode * (btree * A))%type.
Abbreviation truncate_exttree := (truncate_exttree N max_record_len log_pages_per_node mounted beyond grow address stale levels).
Abbreviation truncate_blocks := (emmcfs_truncate_blocks N max_record_len log_pages_per_node mounted beyond grow address stale
  levels block_size_shift).
Lemma wp_truncate_fork i t a lv es n : file_ok i t a lv es -> sum_blocks es = fork_blocks (i_fork i) ->
  0 <= n < fork_blocks (i_fork i) ->
  wp (truncate_fork n) (i, (t, a)) (ok (fun r s => r = 0 /\ exists es', file_cut N max_record_len i a lv es n s lv es')).
Proof using.
  intros F Hsum Hn. pose proof (fo_fork _ _ _ _ _ _ _ F) as Hf. pose proof Hf as [_ Eu _ _].
  unfold truncate_fork. apply wp_gets. cbn [fst]. rewrite Eu, Nat2Z.id.
  eapply wp_ok_mono; [apply (wp_truncate_fork_loop es i t a n); try done; try lia|].
  - pose proof (fo_blocks _ _ _ _ _ _ _ F). lia.
  - apply F.
  - by eapply file_places.
  - intros r s [-> Hs]. split; [done|]. by eapply cut_in_fork.
Qed.

(** A truncation that cuts nothing off. *)
Lemma file_not_cut i t a lv es : file_ok i t a lv es -> file_cut N max_record_len i a lv es (fork_blocks (i_fork i)) (i, (t, a)) lv es.
Proof using.
  intros F.
  assert (forall ib p, file_maps es (elements lv) (ino i) ib p -> ib < fork_blocks (i_fork i)) as Hlt.
  { intros ib p Hp. eapply file_maps_bound in Hp as [? _]; [lia|done]. }
  constructor; try done.
  - intros ib p. split; [|by intros []]. intros Hp. split; [done|]. by eapply Hlt.
  - intros p. split; [|by intros []]. intros Hp. split; [done|]. intros (ib & Hib & Hm). specialize (Hlt ib p Hm). lia.
Qed.

Lemma blocks_of_size_eq size : 0 <= size -> 0 <= block_size_shift <= 31 -> size + 2 ^ block_size_shift < 2 ^ 63 ->
  Z.shiftr (s64 (size + Z.shiftl 1 block_size_shift - 1)) block_size_shift = blocks_of_size size block_size_shift /\
  0 <= blocks_of_size size block_size_shift.
Proof using.
  intros Hs Hb Hlim. pose proof (Z.pow_pos_nonneg 2 block_size_shift ltac:(lia) ltac:(lia)).
  rewrite Z.shiftl_mul_pow2, Z.mul_1_l by lia. rewrite swrap_small by (done || (simpl Z.sub; lia)).
  rewrite Z.shiftr_div_pow2 by lia. split; [done|]. apply Z.div_pos; lia.
Qed.

Context (Hstale : length stale = 12%nat) (HN : node_size_ok N) (Hmax : max_record_len + 31 <= N / 2)
  (Hrec : sizeof_exttree_record <= max_record_len).

Lemma wp_tree {X Y} (x : M X) (k : X -> St state Y) i t (a : A) P Q : wp x t (ok P) ->
  (forall r t', P r t' -> wp (k r) (i, (t', a)) Q) -> wp (bind (in_volume (in_tree x)) k) (i, (t, a)) Q.
Proof using.
  intros Hx Hk. apply wp_bind_ok. unfold in_volume. apply wp_zoom. cbn [snd]. apply wp_in_tree.
  eapply wp_mono; [exact Hx|]. intros [r|e|] t' Hp; [by apply Hk|done|done].
Qed.

Lemma wp_tree_try {X Y} (x : M X) (k : outcome X -> St state Y) i t (a : A) P Q : wp x t (ok P) ->
  (forall r t', P r t' -> wp (k (Ok r)) (i, (t', a)) Q) -> wp (bind (in_volume (in_tree (try x))) k) (i, (t, a)) Q.
Proof using.
  intros Hx Hk. eapply (wp_tree _ _ _ _ _ (fun r t' => match r with Ok r => P r t' | _ => False end)).
  - apply wp_try_last. eapply wp_mono; [exact Hx|]. by intros [r|e|] t'.
  - intros [r|e|] t' Hp; [by apply Hk|done|done].
Qed.

Definition still (t t' : btree) : Prop := t' ≈ t /\ calm t'.

(** The end of the file is in its last record, which is made shorter. *)
Lemma wp_truncate_exttree i t a lv es fuel n : file_ok i t a lv es -> calm t -> (0 < fuel)%nat ->
  sum_blocks es < fork_blocks (i_fork i) -> n < fork_blocks (i_fork i) ->
  (forall r, r ∈ elements lv -> object_id r = ino i -> iblock r < n) ->
  wp (truncate_exttree fuel n) (i, (t, a)) (ok (fun r s => r = 0 /\
    exists lv', file_cut N max_record_len i a lv es n s lv' es)).
Proof using Hstale HN Hmax Hrec.
  intros F Hc Hfuel Hsum Hn Hlow. destruct fuel as [|fuel]; [lia|].
  pose proof (fo_blocks _ _ _ _ _ _ _ F) as Hb. pose proof (fo_extents _ _ _ _ _ _ _ F) as Hx.
  pose proof (fo_tree _ _ _ _ _ _ _ F) as Ht. pose proof (fo_ino _ _ _ _ _ _ _ F) as Hi.
  destruct (tree_sorted N max_record_len t lv Ht) as [Hsort Hkeys].
  pose proof (sum_blocks_nonneg _ (fi_ok _ _ (fo_fork _ _ _ _ _ _ _ F))) as Hs0.
  destruct (fo_total _ _ _ _ _ _ _ F (fork_blocks (i_fork i) - 1) ltac:(lia)) as (p0 & r0 & Hr0 & Ho0 & Hb0 & _).
  destruct (block_key_ok (ino i) IBLOCK_MAX_NUMBER Hi) as (Hkey & Eo & Eb); [done|done|].
  unfold Truncate.truncate_exttree. eapply (wp_tree_try _ _ _ _ _ (fun _ => still t)).
  { apply wp_kmalloc_ok; [done|]. by intros t1 S1 C1. }
  intros _ t1 [S1 C1]. cbn [truncate_exttree_loop]. apply wp_gets. cbn [fst].
  assert (tree_ok N max_record_len emmcfs_exttree_cmpfn ext_key_ok t1 lv) as Ht1 by (by eapply tree_ok_sim; [symmetry|]).
  eapply (wp_tree_try _ _ _ _ _ (fun '(h, pos) t2 => still t1 t2 /\ exists q x, elements lv !! q = Some x /\
    record_at t2 h pos = Some x /\ floor_pos emmcfs_exttree_cmpfn (elements lv) (block_key (ino i) IBLOCK_MAX_NUMBER) q /\
    h_rw h = true /\ leaf_place lv h pos q)).
  { eapply wp_mono; [apply (wp_extent_find N max_record_len mounted beyond grow stale Hstale t1 lv (ino i) IBLOCK_MAX_NUMBER true Ht1 Hi); done|].
    intros [[h pos]|e|] t2 W; [|by destruct W|by destruct W]. destruct W as (S2 & C2 & W). by split; [split; [|apply C2]|]. }
  intros [h pos] t2 ([S2 C2] & q & x & Hq & Hat & Hfl & Hrw & Hpl).
  assert (tree_ok N max_record_len emmcfs_exttree_cmpfn ext_key_ok t2 lv) as Ht2 by (by eapply tree_ok_sim; [symmetry|]).
  eapply wp_tree. { apply wp_or_bug. by apply (wp_get_btree_record N max_record_len emmcfs_exttree_cmpfn ext_key_ok t2 lv h pos q x). }
  intros r t3 [-> ->].
  pose proof (list_elem_of_lookup_2 _ _ _ Hq) as Hin.
  assert (object_id x = ino i) as Hox.
  { rewrite <- Eo. eapply (floor_same _ Hsort Hkeys _ q x r0); try done; [congruence|].
    rewrite Eb. pose proof (xo_shape _ _ _ Hx r0 Hr0 Ho0). unfold IBLOCK_MAX_NUMBER. lia. }
  assert (iblock x + lextent_length x = fork_blocks (i_fork i)) as Hend.
  { eapply (floor_last _ Hsort Hkeys _ q x (ino i)); try done. rewrite Eb. unfold IBLOCK_MAX_NUMBER. lia. }
  destruct (xo_shape _ _ _ Hx x Hin Hox) as (Hxl & H0 & Hl & Hp & Hpl2 & _). specialize (Hlow x Hin Hox) as Hlowx.
  rewrite (proj2 (Z.eqb_eq _ _) Hox). cbn [negb].
  rewrite Z.geb_leb, (proj2 (Z.leb_gt _ _)) by lia. rewrite (uwrap_small 64 (iblock x + lextent_length x)), Z.gtb_ltb by lia.
  rewrite (proj2 (Z.ltb_lt _ _)) by lia. rewrite (uwrap_small 64 (iblock x + lextent_length x - n)) by lia.
  set (delta := iblock x + lextent_length x - n).
  rewrite (uwrap_small 64), (uwrap_small 32) by lia.
  apply wp_free_blocks; [apply F|lia|lia| |].
  { intros b Hbb. apply (fo_used _ _ _ _ _ _ _ F (iblock x + (b - lextent_begin x))).
    split; [lia|]. right. pose proof (fo_behind _ _ _ _ _ _ _ F x Hin Hox). split; [lia|].
    exists x. split; [done|]. split; [done|]. split; lia. }
  intros a1 Ha1 Hu1. cbn [Z.eqb negb].
  apply wp_bind_ok. unfold in_volume at 1. apply wp_zoom. cbn [snd].
  eapply wp_mono; [apply (wp_set_length N max_record_len stale Hstale t2 lv a1 h pos q x (lextent_length x - delta)); try done; lia|].
  intros [[]|e|] [t4 a4]; [|done|done]. simpl. intros (-> & C4 & lv' & l & x' & T4 & P & P' & E1 & E2 & E3 & E4 & E5).
  unfold put_fork, put_inode. apply wp_modify. cbn [fst snd].
  eapply (wp_tree _ _ _ _ _ (fun _ => still t4)).
  { apply wp_dirty_last; [done|done|]. by intros t5 S5 C5. }
  intros _ t5 [S5 C5]. eapply (wp_tree _ _ _ _ _ (fun _ => still t5)).
  { apply wp_put_last; [done|]. by intros t6 S6 C6. }
  intros _ t6 [S6 C6]. apply wp_ret. split; [done|]. exists lv'.
  eapply (cut_in_tree N max_record_len i t t6 a a1 lv lv' es x x' l); try done; try lia.
  - eapply tree_ok_sim; [symmetry; exact S6|]. by eapply tree_ok_sim; [symmetry; exact S5|].
  - unfold lower_total. cbn [fork_blocks]. rewrite uwrap_small by lia. lia.
  - intros p. rewrite Hu1. f_equal. f_equal. f_equal; lia.
Qed.

Lemma wp_truncate_blocks i t a lv es fuel size : file_ok i t a lv es -> calm t -> (0 < fuel)%nat ->
  EMMCFS_1ST_FILE_INO <= ino i -> i_mode i = S_IFREG \/ i_mode i = S_IFLNK ->
  0 <= size -> 0 <= block_size_shift <= 31 -> size + 2 ^ block_size_shift < 2 ^ 63 ->
  (forall r, r ∈ elements lv -> object_id r = ino i -> iblock r < blocks_of_size size block_size_shift) ->
  wp (truncate_blocks fuel size) (i, (t, a)) (ok (fun r s => r = 0 /\ exists lv' es',
    file_cut N max_record_len i a lv es (Z.min (fork_blocks (i_fork i)) (blocks_of_size size block_size_shift)) s lv' es')).
Proof using Hstale HN Hmax Hrec.
  intros F Hc Hfuel Hino Hmode Hsize Hshift Hlim Hlow.
  destruct (blocks_of_size_eq size Hsize Hshift Hlim) as [En Hn0].
  set (n := blocks_of_size size block_size_shift) in *. pose proof (fo_blocks _ _ _ _ _ _ _ F) as Hb.
  unfold emmcfs_truncate_blocks. apply wp_gets. cbn [fst]. apply wp_BUG_ON; [by apply Z.ltb_ge|].
  assert (wp (let f := i_fork i in
    if fork_blocks f <=? n then ret 0
    else
      do rc <- (if sum_blocks (take (Z.to_nat (used_extents f)) (fork_extents f)) <? fork_blocks f
                then truncate_exttree fuel n else ret 0);
      if negb (rc =? 0) then ret rc
      else do f <- fork; if fork_blocks f <=? n then ret 0 else truncate_fork n) (i, (t, a))
    (ok (fun r s => r = 0 /\ exists lv' es', file_cut N max_record_len i a lv es (Z.min (fork_blocks (i_fork i)) n) s lv' es'))) as W.
  { cbn zeta. destruct (Z.leb_spec (fork_blocks (i_fork i)) n) as [Hle|Hgt].
    - apply wp_ret. split; [done|]. exists lv, es. rewrite Z.min_l by done. by eapply file_not_cut.
    - rewrite Z.min_r by lia. rewrite (fork_is_used _ _ (fo_fork _ _ _ _ _ _ _ F)).
      destruct (Z.ltb_spec (sum_blocks es) (fork_blocks (i_fork i))) as [Hlt|Hge].
      + eapply wp_seq; [by apply (wp_truncate_exttree i t a lv es fuel n)|]. intros r s (-> & lv' & Hcut).
        cbn [Z.eqb negb]. apply wp_gets. rewrite (fc_blocks _ _ _ _ _ _ _ _ _ _ Hcut), Z.leb_refl.
        apply wp_ret. split; [done|]. by exists lv', es.
      + pose proof (fo_sum _ _ _ _ _ _ _ F). apply wp_bind, wp_ret. cbn [Z.eqb negb]. apply wp_gets. cbn [fst].
        rewrite (proj2 (Z.leb_gt _ _)) by lia.
        eapply wp_ok_mono; [apply (wp_truncate_fork i t a lv es n); done || lia|].
        intros r s (-> & es' & Hcut). split; [done|]. by exists lv, es'. }
  rewrite En. by destruct Hmode as [-> | ->].
Qed.

(** C24: [emmcfs_truncate_blocks] keeps the places of the blocks that the new size
    needs and gives all the others back to the volume, from the extents of the
    fork or from the end of the last record in the extents tree; nothing else
    changes.  No record of the extents tree may lie behind the new end. *)
Theorem emmcfs_truncate_blocks_correct i t a lv es fuel size : file_ok i t a lv es -> calm t -> (0 < fuel)%nat ->
  EMMCFS_1ST_FILE_INO <= ino i -> i_mode i = S_IFREG \/ i_mode i = S_IFLNK ->
  0 <= size -> 0 <= block_size_shift <= 31 -> size + 2 ^ block_size_shift < 2 ^ 63 ->
  (forall r, r ∈ elements lv -> object_id r = ino i -> iblock r < blocks_of_size size block_size_shift) ->
  exists s lv' es', truncate_blocks fuel size (i, (t, a)) = (Ok 0, s) /\
    file_cut N max_record_len i a lv es (Z.min (fork_blocks (i_fork i)) (blocks_of_size size block_size_shift)) s lv' es'.
Proof using Hstale HN Hmax Hrec.
  intros F Hc Hfuel Hino Hmode Hsize Hshift Hlim Hlow.
  pose proof (wp_truncate_blocks i t a lv es fuel size F Hc Hfuel Hino Hmode Hsize Hshift Hlim Hlow) as W.
  unfold wp in W. destruct (truncate_blocks fuel size (i, (t, a))) as [[r|e|] s]; [|done|done].
  destruct W as (-> & lv' & es' & Hcut). by exists s, lv', es'.
Qed.

(** ** Removal *)
Abbreviation exttree_ok := (tree_ok N max_record_len emmcfs_exttree_cmpfn ext_key_ok).
Definition orphan_record (ino : Z) : record := exttree_key sizeof_exttree_key EMMCFS_ORPHAN_INODES_INO ino.

Lemma wp_add_orphan_inode t lv ino : exttree_ok t lv -> calm t -> spacious t -> 0 <= ino < 2 ^ 32 - 1 ->
  le emmcfs_exttree_cmpfn (first_rec (elements lv)) (orphan_record ino) ->
  (forall r, r ∈ elements lv -> object_id r = EMMCFS_ORPHAN_INODES_INO -> iblock r <> ino) ->
  wp (emmcfs_add_orphan_inode N max_record_len log_pages_per_node mounted beyond grow ino) t (ok (fun _ t' => calm t' /\
    exists lv', exttree_ok t' lv' /\ elements lv' ≡ₚ orphan_record ino :: elements lv)).
Proof using Hstale HN Hmax Hrec.
  intros Ht Hc [Hh Hroom] Hi Hfirst Hnew.
  destruct (exttree_key_fields sizeof_exttree_key EMMCFS_ORPHAN_INODES_INO ino []) as (E1 & E2 & E3 & E4); try done; try lia.
  rewrite app_nil_r in E1, E2, E3, E4. fold (orphan_record ino) in E1, E2, E3, E4.
  assert (rlen (orphan_record ino) = 28) as El.
  { unfold rlen, orphan_record, exttree_key. rewrite !length_app, !length_le_split. done. }
  assert (ext_key_ok (orphan_record ino)) as Hk.
  { constructor; [lia|done|]. rewrite E4. unfold IBLOCK_DOES_NOT_MATTER. lia. }
  unfold emmcfs_add_orphan_inode. apply wp_bind_ok, wp_kmalloc_ok; [done|]. intros t1 S1 C1.
  apply (wp_insert N max_record_len log_pages_per_node emmcfs_exttree_cmpfn ext_key_ok mounted beyond grow t1 lv (orphan_record ino));
    try done.
  - by eapply tree_ok_sim; [symmetry|].
  - constructor; [constructor; rewrite ?E1, ?E2, El; by vm_compute| | |done];
      rewrite ?El, ?E1; unfold sizeof_exttree_key, sizeof_exttree_record in *; lia.
  - by rewrite (sim_height _ _ S1).
  - by rewrite (sim_height _ _ S1), (sim_num _ _ S1).
  - intros (x & Hin & E0)%Exists_exists. exfalso. apply cmp_zero in E0 as [Hox Hbx]; [|done].
    apply (Hnew x Hin); congruence.
  - intros _ t2 lv' C2 T2 P2 _. split; [done|]. by exists lv'.
Qed.

Abbreviation free_runtime_fork := (emmcfs_fsm_free_runtime_fork N max_record_len log_pages_per_node mounted beyond grow).

(** The blocks of the fork are free, and what else is left of the file [i] is in
    [t'] and [m']. *)
Definition unlinked (i : inode) (t : btree) (a : A) lv es (m : id_map) (s : state * id_map) : Prop :=
  exists t' a' m' f', s = (set_fork i f', (t', a'), m') /\ fork_is f' [] /\
    fork_blocks f' = fork_blocks (i_fork i) - sum_blocks es /\ alloc_ok a' /\
    given_up (in_use a) (in_use a') (fun ib p => nth_block es ib = Some p) 0 /\
    if sum_blocks es =? fork_blocks (i_fork i) then t' = t /\ given_back id m m' (ino i)
    else m' = m /\ exists lv', exttree_ok t' lv' /\ elements lv' ≡ₚ orphan_record (ino i) :: elements lv.

Lemma wp_code_end {S} (x : St S unit) s (Q : Z -> S -> Prop) : wp x s (ok (fun _ s => Q 0 s)) -> wp (code x) s (ok Q).
Proof using. intros Hx. unfold code. eapply wp_try_ok; [exact Hx|]. intros [] s' HQ. by apply wp_ret. Qed.

(** What an inode asks for to become an orphan. *)
Definition can_be_orphan (t : btree) (lv : list (list (Z * list record))) (ino : Z) : Prop :=
  spacious t /\ le emmcfs_exttree_cmpfn (first_rec (elements lv)) (orphan_record ino) /\
  forall r, r ∈ elements lv -> object_id r = EMMCFS_ORPHAN_INODES_INO -> iblock r <> ino.

Lemma wp_free_runtime_fork i t a lv es m : file_ok i t a lv es -> calm t -> ino i < 2 ^ 32 - 1 ->
  packed id m -> quiet m -> id_used id m (ino i) = true ->
  (sum_blocks es <> fork_blocks (i_fork i) -> can_be_orphan t lv (ino i)) ->
  wp free_runtime_fork (i, (t, a), m) (ok (fun r s => r = 0 /\ unlinked i t a lv es m s)).
Proof using Hstale HN Hmax Hrec.
  intros F Hc Hlt Hp Hq Hid Hrest. pose proof (fo_fork _ _ _ _ _ _ _ F) as Hf. pose proof Hf as [_ Eu _ Hes].
  pose proof (fo_blocks _ _ _ _ _ _ _ F) as Hb. pose proof (fo_sum _ _ _ _ _ _ _ F) as Hsum.
  pose proof (fo_ino _ _ _ _ _ _ _ F) as Hi.
  unfold emmcfs_fsm_free_runtime_fork. apply wp_bind_ok. unfold in_file at 1. apply wp_zoom. cbn [fst snd].
  eapply wp_mono.
  { apply wp_gets. cbn [fst]. rewrite Eu, Nat2Z.id.
    apply (wp_free_fork_loop es i t a (fork_blocks (i_fork i) - sum_blocks es)); try done; try lia; [apply F|by eapply file_places]. }
  intros [r|e|] s W; [|done|done]. destruct W as (-> & f' & a' & -> & Hf' & Eb & Ha' & Hg). simpl. apply wp_gets. cbn [fst].
  change (i_fork (set_fork i f')) with f'. rewrite Eb. change (ino (set_fork i f')) with (ino i).
  destruct (decide (sum_blocks es = fork_blocks (i_fork i))) as [E|Hne].
  - rewrite E, Z.sub_diag. cbn [Z.eqb negb]. unfold in_ids. apply wp_zoom. cbn [fst snd].
    eapply wp_mono with (P := ok (fun r m' => r = 0 /\ given_back id m m' (ino i))).
    + apply wp_code_end. eapply wp_mono; [apply wp_free_inode_n; done || lia|]. intros [[]|e|] m' W.
      * by destruct W.
      * by destruct W.
      * destruct W as [W|[W _]]; [congruence|done].
    + intros [r|e|] m' W; [|done|done]. destruct W as [-> W]. split; [done|].
      exists t, a', m', f'. by rewrite (proj2 (Z.eqb_eq _ _) E).
  - destruct (Hrest Hne) as (Hsp & Hfirst & Hnew).
    rewrite (proj2 (Z.eqb_neq _ 0)) by lia. cbn [negb]. unfold in_file. apply wp_zoom. cbn [fst snd].
    unfold in_volume. apply wp_zoom. cbn [fst snd]. apply wp_in_tree.
    eapply wp_mono with (P := ok (fun r t' => r = 0 /\ exists lv', exttree_ok t' lv' /\
      elements lv' ≡ₚ orphan_record (ino i) :: elements lv)).
    + apply wp_code_end. eapply wp_ok_mono; [apply (wp_add_orphan_inode t lv (ino i)); try done; [apply F|lia]|].
      intros [] t' [_ W]. by split.
    + intros [r|e|] t' W; [|done|done]. destruct W as [-> W]. split; [done|].
      exists t', a', m, f'. by rewrite (proj2 (Z.eqb_neq _ _) Hne).
Qed.

(** [emmcfs_fsm_free_runtime_fork] gives all the blocks of the fork back.  If
    they were all the blocks of the file it gives its number back, too;
    otherwise the inode becomes an orphan, and its number stays in use. *)
Theorem emmcfs_fsm_free_runtime_fork_correct i t a lv es m : file_ok i t a lv es -> calm t -> spacious t -> ino i < 2 ^ 32 - 1 ->
  packed id m -> quiet m -> id_used id m (ino i) = true ->
  le emmcfs_exttree_cmpfn (first_rec (elements lv)) (orphan_record (ino i)) ->
  (forall r, r ∈ elements lv -> object_id r = EMMCFS_ORPHAN_INODES_INO -> iblock r <> ino i) ->
  exists s, free_runtime_fork (i, (t, a), m) = (Ok 0, s) /\ unlinked i t a lv es m s.
Proof using Hstale HN Hmax Hrec.
  intros F Hc Hsp Hlt Hp Hq Hid Hfirst Hnew.
  pose proof (wp_free_runtime_fork i t a lv es m F Hc Hlt Hp Hq Hid ltac:(by intros _; split_and!)) as W.
  unfold wp in W. destruct (free_runtime_fork _) as [[r|e|] s]; [|done|done]. destruct W as [-> W]. by exists s.
Qed.
End truncate.

(** ** At work *)
#[local] Instance cut_store_alloc : BlockAlloc (allocator (T := froot) (J := page_log)) :=
  fsm_block_alloc true 32 example_inode eq_refl page_log_ok.

Abbreviation sample_truncate := (emmcfs_truncate_blocks 256 40 0 true (fun _ => false) Z.max id (replicate 12 7) 5 12).

(** The file 20 is cut to one byte: it keeps the block 4, the block 5 is free. *)
Lemma emmcfs_truncate_blocks_correct_witness :
  exists s lv' es', sample_truncate 1 1 (file_20, (bare_tree, block_store)) = (Ok 0, s) /\
    file_maps es' (elements lv') 20 0 4 /\ in_use (snd (snd s)) 5 = false.
Proof.
  destruct (emmcfs_truncate_blocks_correct 256 40 0 true (fun _ => false) Z.max id (replicate 12 7) 5 12
    eq_refl ltac:(unfold node_size_ok; lia) ltac:(by vm_compute) ltac:(by vm_compute)
    file_20 bare_tree block_store [[(1, [exttree_record 0 0 1 1])]] [Extent 4 2] 1 1 file_20_ok)
    as (s & lv' & es' & E & Hcut); try done; try lia.
  - constructor.
  - by left.
  - intros r [->|[]%elem_of_nil]%elem_of_cons Ho. by vm_compute in Ho.
  - exists s, lv', es'. split; [exact E|]. split.
    + apply (fc_maps _ _ _ _ _ _ _ _ _ _ Hcut). split; [|by vm_compute]. split; [done|by left].
    + apply not_true_iff_false. intros Hu. apply (fc_used _ _ _ _ _ _ _ _ _ _ Hcut) in Hu as [_ Hno].
      apply Hno. exists 1. split; [by vm_compute|]. split; [done|by left].
Defined.

Definition ids_to_20 : id_map := IdMap {[0 := 0x1FFFFF :: replicate 1023 0]} 21 [].

Lemma ids_to_20_packed : packed id ids_to_20.
Proof.
  constructor; [|done|].
  - intros i p. destruct (decide (i = 0)) as [->|Hne]; [intros [= <-]; by vm_compute|].
    unfold ids_to_20; cbn [id_pages]; by rewrite lookup_singleton_ne.
  - intros n Hn. cbn [last_used ids_to_20] in Hn.
    assert (forallb (id_used id ids_to_20) (seqZ 0 21) = true) as Hall by by vm_compute.
    rewrite forallb_forall in Hall. apply Hall, list_elem_of_In, elem_of_seqZ. lia.
Qed.

Lemma emmcfs_fsm_free_runtime_fork_correct_witness :
  exists s, emmcfs_fsm_free_runtime_fork 256 40 0 true (fun _ => false) Z.max (file_20, (bare_tree, block_store), ids_to_20) =
    (Ok 0, s) /\ unlinked 256 40 file_20 bare_tree block_store [[(1, [exttree_record 0 0 1 1])]] [Extent 4 2] ids_to_20 s.
Proof.
  apply (emmcfs_fsm_free_runtime_fork_correct 256 40 0 true (fun _ => false) Z.max (replicate 12 7)
    eq_refl ltac:(unfold node_size_ok; lia) ltac:(by vm_compute) ltac:(by vm_compute)); try done.
  - apply file_20_ok.
  - constructor.
  - apply ids_to_20_packed.
  - constructor.
  - intros r [->|[]%elem_of_nil]%elem_of_cons Ho. by vm_compute in Ho.
Defined.
