(* ===== verification/Cattree.v ===== *)
(** * The catalog tree (cattree.c)

    The names of the volume: a B-tree of records ordered by the number of the
    parent directory and the name.  A record is a file, a directory or a hard
    link.  The lock of the tree is part of the state in
    [Vfs]. *)

From S2P Require Import Prelude Data Monad BnodeBytes BnodeRepr BnodePool Btree FsmBtree Fsm Fork InodeIds.
Open Scope Z_scope.

(** ** Records *)
Definition EMMCFS_CATALOG_FOLDER_RECORD : Z := 0x0100.
Definition EMMCFS_CATALOG_FILE_RECORD : Z := 0x0200.
Definition EMMCFS_CATALOG_HLINK_RECORD : Z := 0x0400.
Definition EMMCFS_CATALOG_FILE_RECORD_SYMLINK : Z := 0x0001.
Definition EMMCFS_CATALOG_FILE_RECORD_FIFO : Z := 0x0002.
Definition EMMCFS_CATALOG_FILE_RECORD_SOCKET : Z := 0x0004.
Definition EMMCFS_CATALOG_FILE_RECORD_CHR : Z := 0x0008.
Definition EMMCFS_CATALOG_FILE_RECORD_BLK : Z := 0x0010.
Definition EMMCFS_UNICODE_STRING_MAX_LEN : Z := 255.

Definition sizeof_generic_key : Z := 12.
Definition sizeof_unicode_string : Z := 4 + EMMCFS_UNICODE_STRING_MAX_LEN.
Definition sizeof_cattree_key : Z := sizeof_generic_key + 2 + 8 + sizeof_unicode_string.
Definition sizeof_folder_record : Z := 76.
Definition sizeof_fork : Z := 13 + 12 * EMMCFS_EXTENTS_COUNT_IN_FORK.
Definition sizeof_file_record : Z := sizeof_folder_record + sizeof_fork.

(** [key->parent_id], [key->name.length], and the bytes from
    [key->name.unicode_str] on. *)
Definition parent_id (r : record) : Z := le_combine (take 8 (drop 14 r)).
Definition name_length (r : record) : Z := u32 (le_combine (take 4 (drop 22 r))).
Definition name_chars (r : record) : list Z := drop 26 r.

(** ** The order of the keys *)
Section compare.
(** The characters as they are compared: themselves, or [tolower] of them. *)
Context (fold : Z -> Z).

(** The loop: the first difference, as a signed byte; 0 if there is none. *)
Fixpoint cmp_chars (i : nat) (ch1 ch2 : list Z) : Z :=
  match i with
  | O => 0
  | S i =>
    let diff := s8 (fold (hd 0 ch1) - fold (hd 0 ch2)) in
    if negb (diff =? 0) then diff else cmp_chars i (tl ch1) (tl ch2)
  end.

Definition cattree_cmp (key1 key2 : record) : Z :=
  if negb (parent_id key1 =? parent_id key2) then s32 (s64 (parent_id key1) - s64 (parent_id key2))
  else
    let i := s32 (Z.min (name_length key1) (name_length key2)) in
    let diff := cmp_chars (Z.to_nat i) (name_chars key1) (name_chars key2) in
    if negb (diff =? 0) then diff else s32 (name_length key1 - name_length key2).
End compare.

Definition emmcfs_cattree_cmpfn : record -> record -> Z := cattree_cmp (fun c => c).
Definition emmcfs_cattree_cmpfn_ci (tolower : Z -> Z) : record -> record -> Z := cattree_cmp tolower.

(** ** Keys *)

(** A key for a search: memory of zeros, the parent and the name. *)
Definition cattree_search_key (parent : Z) (name : list Z) : record :=
  replicate 14 0 ++ le_split 8 parent ++ le_split 4 (Z.of_nat (length name)) ++ name ++
  replicate (Z.to_nat EMMCFS_UNICODE_STRING_MAX_LEN - length name) 0.

(** The lengths that [emmcfs_alloc_cattree_key] computes. *)
Definition cattree_key_len (name_len : Z) : Z :=
  u32 (sizeof_cattree_key - sizeof_unicode_string + 4 + (name_len + 1) * 1).
Definition value_len (record_type : Z) : Z :=
  if negb (Z.land record_type EMMCFS_CATALOG_FILE_RECORD =? 0) then sizeof_file_record
  else if record_type =? EMMCFS_CATALOG_FOLDER_RECORD then sizeof_folder_record
  else if record_type =? EMMCFS_CATALOG_HLINK_RECORD then sizeof_folder_record
  else 0.

Definition emmcfs_alloc_cattree_key (name_len record_type : Z) : M record :=
  let key_len := cattree_key_len name_len in
  let record_len := value_len record_type in
  do_ kmalloc;
  ret (replicate 4 0 ++ le_split 4 key_len ++ le_split 4 (key_len + record_len) ++
       replicate (Z.to_nat (key_len + record_len - sizeof_generic_key)) 0).

(** The bytes [b] written to the record from [off] on. *)
Definition write_at (off : nat) (b : list Z) (r : record) : record :=
  take off r ++ b ++ drop (off + length b) r.

Definition emmcfs_fill_cattree_key (r : record) (parent : Z) (name : list Z) : record :=
  write_at 14 (le_split 8 parent) (write_at 26 name (write_at 22 (le_split 4 (Z.of_nat (length name))) r)).

(** ** Values *)

(** The attributes of an inode that Fork.v leaves out. *)
Record attributes := Attributes {
  i_perm : Z;
  i_uid : Z;
  i_gid : Z;
  i_nlink : Z;
  ctime : Z * Z;
  mtime : Z * Z;
  atime : Z * Z;
  hlink_id : Z
}.

(** [i_mode] as a number: the type and the permissions. *)
Definition type_bits (ty : file_type) : Z :=
  match ty with
  | S_IFSOCK => 0xC000 | S_IFLNK => 0xA000 | S_IFREG => 0x8000 | S_IFBLK => 0x6000
  | S_IFDIR => 0x4000 | S_IFCHR => 0x2000 | S_IFIFO => 0x1000
  end.

Definition get_record_type_on_mode (ty : file_type) : Z :=
  match ty with
  | S_IFDIR => EMMCFS_CATALOG_FOLDER_RECORD
  | S_IFREG => EMMCFS_CATALOG_FILE_RECORD
  | S_IFLNK => Z.lor EMMCFS_CATALOG_FILE_RECORD EMMCFS_CATALOG_FILE_RECORD_SYMLINK
  | S_IFIFO => Z.lor EMMCFS_CATALOG_FILE_RECORD EMMCFS_CATALOG_FILE_RECORD_FIFO
  | S_IFSOCK => Z.lor EMMCFS_CATALOG_FILE_RECORD EMMCFS_CATALOG_FILE_RECORD_SOCKET
  | S_IFCHR => Z.lor EMMCFS_CATALOG_FILE_RECORD EMMCFS_CATALOG_FILE_RECORD_CHR
  | S_IFBLK => Z.lor EMMCFS_CATALOG_FILE_RECORD EMMCFS_CATALOG_FILE_RECORD_BLK
  end.

Definition encode_extent (e : extent_info) : list Z := le_split 8 (first_block e) ++ le_split 4 (block_count e).
Definition encode_fork (f : emmcfs_fork) : list Z :=
  le_split 1 (fork_magic f) ++ le_split 8 (size_in_bytes f) ++ le_split 4 (total_blocks_count f) ++
  concat (map encode_extent (layout_extents f)).
Definition encode_date (d : Z * Z) : list Z := le_split 8 (u64 (fst d)) ++ le_split 4 (u32 (snd d)).

(** [emmcfs_fill_cattree_value]: the bytes of the value; the flags are left as
    zeros. *)
Definition emmcfs_fill_cattree_value (block_size_shift : Z) (i : inode) (at_ : attributes) : list Z :=
  let rec_type := get_record_type_on_mode (i_mode i) in
  le_split 2 rec_type ++ replicate 4 0 ++ le_split 8 (u64 (i_size i)) ++ le_split 8 (i_nlink at_) ++
  le_split 8 (ino i) ++
  le_split 2 (Z.lor (type_bits (i_mode i)) (i_perm at_)) ++ le_split 4 (i_uid at_) ++ le_split 4 (i_gid at_) ++
  encode_date (ctime at_) ++ encode_date (mtime at_) ++ encode_date (atime at_) ++
  (if negb (Z.land rec_type EMMCFS_CATALOG_FILE_RECORD =? 0)
   then encode_fork (emmcfs_form_fork block_size_shift i) else []).

Definition emmcfs_fill_hlink_value (at_ : attributes) : list Z :=
  le_split 2 EMMCFS_CATALOG_HLINK_RECORD ++ le_split 8 (hlink_id at_).

Section cattree.
(** What the B-tree leaves open (Btree.v), the comparison function of the
    volume, and [block_size_shift]. *)
Context (N max_record_len log_pages_per_node : Z) (cmpfn : record -> record -> Z) (mounted : bool)
  (beyond : Z -> bool) (grow : Z -> Z -> Z) (block_size_shift : Z).
Abbreviation find := (emmcfs_btree_find cmpfn mounted beyond grow).
Abbreviation insert := (emmcfs_btree_insert N max_record_len log_pages_per_node cmpfn mounted beyond grow).

(** [emmcfs_cattree_find], with [fd->bnode]: the node and the position. *)
Definition emmcfs_cattree_find (fd_bnode : option handle) (parent : Z) (name : list Z) (rw : bool) : M (handle * Z) :=
  match fd_bnode with
  | Some _ => if mounted then bug else fail (- EINVAL)
  | None =>
    do_ kmalloc;
    let key := cattree_search_key parent name in
    do '(h, pos) <- find key rw;
    do_ (if (pos =? -1) && mounted then bug else ret tt);
    do found_key <- emmcfs_get_btree_record h pos;
    if negb (cmpfn key found_key =? 0) then do_ emmcfs_put_bnode h; fail (- ENOENT)
    else ret (h, pos)
  end.

(** [emmcfs_add_new_cattree_object] *)
Definition emmcfs_add_new_cattree_object (i : inode) (at_ : attributes) (parent : Z) (name : list Z) : M unit :=
  do_ BUG_ON (ino i <? EMMCFS_1ST_FILE_INO);
  let is_hlink := negb (hlink_id at_ =? INVALID_HLINK_ID) in
  let record_type := if is_hlink then EMMCFS_CATALOG_HLINK_RECORD else get_record_type_on_mode (i_mode i) in
  do r <- emmcfs_alloc_cattree_key (Z.of_nat (length name)) record_type;
  let r := emmcfs_fill_cattree_key r parent name in
  let value := if is_hlink then emmcfs_fill_hlink_value at_ else emmcfs_fill_cattree_value block_size_shift i at_ in
  insert (write_at (Z.to_nat (key_len r)) value r).

(** [emmcfs_find_first_catalog_child] *)
Definition emmcfs_find_first_catalog_child (dir : Z) : M (handle * Z) :=
  do_ kmalloc;
  do '(h, pos) <- find (cattree_search_key dir []) false;
  do n <- node h;
  do_ BUG_ON (pos >=? Z.of_nat (length (bn_recs n)));
  do found_key <- emmcfs_get_btree_record h pos;
  if parent_id found_key =? dir then ret (h, pos)
  else
    do r <- try (emmcfs_get_next_btree_record mounted beyond grow h pos);
    match r with
    | Ok (h, pos, _) =>
      do found_key <- or_bug (emmcfs_get_btree_record h pos);
      if negb (parent_id found_key =? dir) then do_ emmcfs_put_bnode h; fail (- ENOENT)
      else ret (h, pos)
    | Err e => do_ emmcfs_put_bnode h; fail e
    | Bug => bug
    end.

(** [inode_i->bnode_hint] *)
Record bnode_hint := Hint { hint_id : Z; hint_pos : Z }.
Abbreviation HM := (St (bnode_hint * btree)).
Definition in_catalog {X} (x : M X) : HM X := zoom snd (fun t s => (fst s, t)) x.
Definition set_hint (b : bnode_hint) : HM unit := modify (fun s => (b, snd s)).

(** The hint, if the record is still there. *)
Definition try_hint (key : record) (rw : bool) (b : bnode_hint) : M (option (outcome (handle * Z))) :=
  if (hint_id b =? 0) || (hint_pos b <? 0) then ret None
  else
    do e <- try (emmcfs_get_bnode mounted beyond grow (hint_id b) rw);
    match e with
    | Ok h =>
      do n <- node h;
      if negb (bn_type n =? EMMCFS_NODE_LEAF) then do_ emmcfs_put_bnode h; ret None
      else if hint_pos b >=? Z.of_nat (length (bn_recs n)) then do_ emmcfs_put_bnode h; ret None
      else
        do r <- try (emmcfs_get_btree_record h (hint_pos b));
        match r with
        | Ok found_key =>
          if cmpfn key found_key =? 0 then ret (Some (Ok (h, hint_pos b)))
          else do_ emmcfs_put_bnode h; ret None
        | Err e => ret (Some (Err e))
        | Bug => bug
        end
    | Err _ => ret None
    | Bug => bug
    end.

(** [emmcfs_get_from_cattree], with [fd->bnode] empty, for an inode with the
    parent and the name; the node that a failed search gives is read. *)
Definition emmcfs_get_from_cattree (parent : Z) (name : list Z) (rw : bool) : HM (handle * Z) :=
  do_ in_catalog kmalloc;
  let key := cattree_search_key parent name in
  do b <- gets fst;
  do hinted <- in_catalog (try_hint key rw b);
  match hinted with
  | Some (Ok hp) => ret hp
  | Some (Err e) => fail e
  | Some Bug => bug
  | None =>
    do '(h, pos) <- in_catalog (or_bug (find key rw));
    if pos =? -1 then fail (- ENOENT)
    else
      do found_key <- in_catalog (emmcfs_get_btree_record h pos);
      if negb (cmpfn key found_key =? 0) then
        do_ in_catalog (emmcfs_put_bnode h);
        do_ set_hint (Hint 0 (-1));
        fail (- ENOENT)
      else
        do_ set_hint (Hint (h_id h) pos);
        ret (h, pos)
  end.
End cattree.
