(* ===== verification/CattreeProofs.v ===== *)
(** * The order of the catalog

    On names of characters below 128 and numbers of parents below 2^31 the
    comparison functions of the catalog are the lexicographic order of the
    parent and the name, so the theorems of the B-tree hold for the catalog. *)

From stdpp Require Import lexico.
From S2P Require Import Prelude Monad Data BnodeBytes BnodeRepr BnodePool BnodePoolProofs.
From S2P Require Import Btree BtreeInv BtreeFind BtreeInsert BtreeSpec Cattree.
Open Scope Z_scope.

(** ** Names *)
Section order.
Context (fold : Z -> Z).

(** A character that can be compared. *)
Definition plain (c : Z) : Prop := 0 <= fold c < 128.

Definition name_bytes (r : record) : list Z := take (Z.to_nat (name_length r)) (name_chars r).
Definition name_of (r : record) : list Z := map fold (name_bytes r).

Record cat_key_ok (r : record) : Prop := {
  ck_key_len : key_len r = 27 + name_length r;
  ck_len : 27 + name_length r <= rlen r;
  ck_name : name_length r <= EMMCFS_UNICODE_STRING_MAX_LEN;
  ck_parent : 0 <= parent_id r < 2 ^ 31;
  ck_chars : Forall plain (name_bytes r)
}.

Lemma name_length_bound r : 0 <= name_length r < 2 ^ 32.
Proof using. by apply uwrap_bound. Qed.

Lemma name_bytes_length r : cat_key_ok r -> Z.of_nat (length (name_bytes r)) = name_length r.
Proof using.
  intros [_ Hl _ _ _]. pose proof (name_length_bound r). unfold name_bytes, name_chars, rlen in *.
  rewrite length_take, length_drop. lia.
Qed.

(** The loop looks at as many characters as it counts. *)
Lemma cmp_chars_take i m ch1 ch2 : (i <= m)%nat -> cmp_chars fold i (take m ch1) ch2 = cmp_chars fold i ch1 ch2.
Proof using.
  revert m ch1 ch2. induction i as [|i IH]; intros m ch1 ch2 Hm; [done|]. destruct m as [|m]; [lia|].
  destruct ch1 as [|c ch1]; [done|]. cbn [take cmp_chars hd tl]. by rewrite IH by lia.
Qed.

Lemma cmp_chars_take_r i m ch1 ch2 : (i <= m)%nat -> cmp_chars fold i ch1 (take m ch2) = cmp_chars fold i ch1 ch2.
Proof using.
  revert m ch1 ch2. induction i as [|i IH]; intros m ch1 ch2 Hm; [done|]. destruct m as [|m]; [lia|].
  destruct ch2 as [|c ch2]; [done|]. cbn [take cmp_chars hd tl]. by rewrite IH by lia.
Qed.

(** The comparison of two names: the characters, then the lengths. *)
Definition name_diff (l1 l2 : list Z) : Z :=
  let d := cmp_chars fold (Nat.min (length l1) (length l2)) l1 l2 in
  if negb (d =? 0) then d else Z.of_nat (length l1) - Z.of_nat (length l2).

Lemma name_diff_cons c1 l1 c2 l2 : plain c1 -> plain c2 ->
  name_diff (c1 :: l1) (c2 :: l2) = if fold c1 =? fold c2 then name_diff l1 l2 else fold c1 - fold c2.
Proof using.
  intros H1 H2. unfold plain in *. unfold name_diff. cbn [length Nat.min cmp_chars hd tl].
  rewrite swrap_small by (done || (simpl Z.sub; simpl Z.pow; lia)).
  destruct (Z.eqb_spec (fold c1) (fold c2)) as [E|E].
  - rewrite E, Z.sub_diag. cbn [Z.eqb negb]. destruct (negb _); lia.
  - rewrite (proj2 (Z.eqb_neq (fold c1 - fold c2) 0)) by lia. cbn [negb].
    by rewrite (proj2 (Z.eqb_neq (fold c1 - fold c2) 0)) by lia.
Qed.

Lemma lexico_cons (x y : Z) l k : lexico (x :: l) (y :: k) <-> x < y \/ x = y /\ lexico l k.
Proof using. done. Qed.

Lemma name_diff_spec l1 : forall l2, Forall plain l1 -> Forall plain l2 ->
  (name_diff l1 l2 < 0 <-> lexico (map fold l1) (map fold l2)) /\
  (name_diff l1 l2 = 0 <-> map fold l1 = map fold l2) /\
  (0 < name_diff l1 l2 <-> lexico (map fold l2) (map fold l1)).
Proof using.
  induction l1 as [|c1 l1 IH]; intros [|c2 l2] H1 H2.
  - done.
  - change (name_diff [] (c2 :: l2)) with (0 - Z.of_nat (S (length l2))).
    split_and!; split; try done; intros; exfalso; lia || done.
  - change (name_diff (c1 :: l1) []) with (Z.of_nat (S (length l1)) - 0).
    split_and!; split; try done; intros; exfalso; lia || done.
  - apply Forall_cons in H1 as [Hc1 H1]. apply Forall_cons in H2 as [Hc2 H2].
    rewrite name_diff_cons by done. destruct (IH l2 H1 H2) as (A & B & C). cbn [map].
    rewrite !lexico_cons.
    destruct (Z.eqb_spec (fold c1) (fold c2)) as [E|E].
    + rewrite E, A, B, C. split; [|split].
      * split; [by right|]. intros [?|[_ ?]]; [lia|done].
      * split; [by intros ->|by intros [= ?]].
      * split; [by right|]. intros [?|[_ ?]]; [lia|done].
    + split; [|split].
      * split; [left; lia|]. intros [?|[? _]]; [lia|done].
      * split; [lia|]. intros [= ? _]. done.
      * split; [left; lia|]. intros [?|[? _]]; [lia|congruence].
Qed.

(** ** Keys *)
Definition key_of (r : record) : Z * list Z := (parent_id r, name_of r).

Lemma cattree_cmp_eq x y : cat_key_ok x -> cat_key_ok y ->
  cattree_cmp fold x y = if parent_id x =? parent_id y then name_diff (name_bytes x) (name_bytes y)
                         else parent_id x - parent_id y.
Proof using.
  intros Hx Hy. pose proof (name_bytes_length x Hx) as Lx. pose proof (name_bytes_length y Hy) as Ly.
  destruct Hx as [_ _ Nx Px _], Hy as [_ _ Ny Py _]. unfold EMMCFS_UNICODE_STRING_MAX_LEN in *.
  pose proof (name_length_bound x). pose proof (name_length_bound y).
  unfold cattree_cmp. destruct (Z.eqb_spec (parent_id x) (parent_id y)) as [E|E]; cbn [negb].
  - rewrite (swrap_small 32 (Z.min _ _)) by (done || (simpl Z.sub; lia)).
    rewrite (swrap_small 32 (_ - _)) by (done || (simpl Z.sub; lia)).
    unfold name_diff. rewrite Lx, Ly.
    replace (Nat.min (length (name_bytes x)) (length (name_bytes y))) with (Z.to_nat (Z.min (name_length x) (name_length y))) by lia.
    unfold name_bytes. by rewrite cmp_chars_take, cmp_chars_take_r by lia.
  - rewrite !swrap_small; try done; simpl Z.sub; try lia; rewrite !swrap_small; try done; simpl Z.sub; lia.
Qed.

Lemma cattree_cmp_spec x y : cat_key_ok x -> cat_key_ok y ->
  (cattree_cmp fold x y < 0 <-> lexico (key_of x) (key_of y)) /\
  (cattree_cmp fold x y = 0 <-> key_of x = key_of y) /\
  (0 < cattree_cmp fold x y <-> lexico (key_of y) (key_of x)).
Proof using.
  intros Hx Hy. rewrite cattree_cmp_eq by done.
  destruct (name_diff_spec (name_bytes x) (name_bytes y) (ck_chars _ Hx) (ck_chars _ Hy)) as (A & B & C).
  assert (forall u v, lexico (key_of u) (key_of v) <->
    parent_id u < parent_id v \/ parent_id u = parent_id v /\ lexico (name_of u) (name_of v)) as Hlex by done.
  rewrite !Hlex. unfold name_of in *. destruct (Z.eqb_spec (parent_id x) (parent_id y)) as [E|E].
  - rewrite A, B, C. split; [|split].
    + split; [by right|]. intros [?|[_ ?]]; [lia|done].
    + unfold key_of, name_of. split; [by intros ->; rewrite E|by intros [= ?]].
    + split; [by right|]. intros [?|[_ ?]]; [lia|done].
  - split; [|split].
    + split; [left; lia|]. intros [?|[? _]]; [lia|done].
    + unfold key_of. split; [lia|]. intros [= ? _]. done.
    + split; [left; lia|]. intros [?|[? _]]; [lia|congruence].
Qed.

Lemma take_drop_key n k K (l : list Z) : (12 <= k)%nat -> (n + k <= K)%nat ->
  take n (drop k l) = take n (drop (k - 12) (drop 12 (take K l))).
Proof using.
  intros H1 H2. rewrite drop_drop.
  replace (12 + (k - 12))%nat with k by lia. rewrite skipn_firstn_comm, take_take. f_equal. lia.
Qed.

(** The key is in the bytes that the B-tree copies. *)
Lemma cat_fields r s : same_key r s -> key_len r = 27 + name_length r ->
  parent_id r = parent_id s /\ name_length r = name_length s /\ name_bytes r = name_bytes s.
Proof using.
  intros [Ek E] Hk. unfold key_bytes in E. rewrite <- Ek, Hk in E. pose proof (name_length_bound r).
  set (K := Z.to_nat (27 + name_length r)) in *.
  assert (forall n k, (12 <= k)%nat -> (n + k <= K)%nat -> take n (drop k r) = take n (drop k s)) as Heq.
  { intros n k H1 H2. by rewrite (take_drop_key n k K r H1 H2), (take_drop_key n k K s H1 H2), E. }
  assert (name_length r = name_length s) as En by (unfold name_length; by rewrite Heq by (subst K; lia)).
  split; [unfold parent_id; by rewrite Heq by (subst K; lia)|]. split; [done|].
  unfold name_bytes, name_chars. rewrite <- En. apply Heq; subst K; lia.
Qed.

(** The comparison looks at the parent, the length and the characters of the
    name. *)
Lemma cattree_cmp_ext r s x : parent_id r = parent_id s -> name_length r = name_length s ->
  name_bytes r = name_bytes s -> name_length r <= EMMCFS_UNICODE_STRING_MAX_LEN ->
  cattree_cmp fold r x = cattree_cmp fold s x /\ cattree_cmp fold x r = cattree_cmp fold x s.
Proof using.
  intros E1 E2 E3 Hn. pose proof (name_length_bound r). pose proof (name_length_bound x).
  unfold EMMCFS_UNICODE_STRING_MAX_LEN in Hn. unfold name_bytes in E3. rewrite <- E2 in E3.
  unfold cattree_cmp. rewrite <- E1, <- E2.
  rewrite !(swrap_small 32 (Z.min _ _)) by (done || (simpl Z.sub; lia)). split.
  - rewrite <- (cmp_chars_take _ (Z.to_nat (name_length r)) (name_chars r)) by lia.
    rewrite <- (cmp_chars_take _ (Z.to_nat (name_length r)) (name_chars s)) by lia. by rewrite E3.
  - rewrite <- (cmp_chars_take_r _ (Z.to_nat (name_length r)) _ (name_chars r)) by lia.
    rewrite <- (cmp_chars_take_r _ (Z.to_nat (name_length r)) _ (name_chars s)) by lia. by rewrite E3.
Qed.

#[export] Instance cattree_order : KeyOrder (cattree_cmp fold) cat_key_ok.
Proof using.
  split.
  - intros r s x H Hr. destruct (cat_fields r s H (ck_key_len _ Hr)) as (E1 & E2 & E3).
    apply cattree_cmp_ext; try done. apply Hr.
  - intros r s H Hr. destruct (cat_fields r s H (ck_key_len _ Hr)) as (E1 & E2 & E3). pose proof (name_length_bound r).
    destruct Hr as [H1 H2 H3 H4 H5]. destruct H as [Ek E].
    constructor; rewrite <- ?E1, <- ?E2, <- ?E3; try done; [congruence|].
    unfold key_bytes in E. rewrite <- Ek, H1 in E. apply (f_equal length) in E. unfold rlen in *.
    rewrite !length_drop, !length_take in E. lia.
  - intros x Hx. by apply cattree_cmp_spec.
  - intros x y Hx Hy. rewrite (proj1 (cattree_cmp_spec x y Hx Hy)). by rewrite (proj2 (proj2 (cattree_cmp_spec y x Hy Hx))).
  - intros x y z Hx Hy Hz.
    assert (forall u v, cat_key_ok u -> cat_key_ok v -> cattree_cmp fold u v <= 0 <->
      lexico (key_of u) (key_of v) \/ key_of u = key_of v) as Hle.
    { intros u v Hu Hv. destruct (cattree_cmp_spec u v Hu Hv) as (A & B & _). rewrite <- A, <- B. lia. }
    rewrite !Hle by done. intros [H1|H1] [H2|H2].
    + left. by etrans.
    + left. by rewrite <- H2.
    + left. by rewrite H1.
    + right. by rewrite H1.
Qed.
(** ** Names and entries *)

(** A name that can be stored: short enough, of characters that can be
    compared. *)
Record name_ok (name : list Z) : Prop := {
  nk_len : Z.of_nat (length name) <= EMMCFS_UNICODE_STRING_MAX_LEN;
  nk_chars : Forall plain name
}.

(** The record of a name: the key, and [size] bytes that begin with [value]. *)
Definition entry (parent : Z) (name : list Z) (size : Z) (value : list Z) : record :=
  let key := 27 + Z.of_nat (length name) in
  (replicate 4 0 ++ le_split 4 key ++ le_split 4 (key + size) ++ replicate 2 0) ++
  le_split 8 parent ++ le_split 4 (Z.of_nat (length name)) ++ name ++
  0 :: value ++ replicate (Z.to_nat size - length value) 0.

(** A key without a value. *)
Definition name_key (parent : Z) (name : list Z) : record := entry parent name 0 [].

(** The parts of a key, whatever is before and behind them. *)
Lemma name_fields pre parent name rest : length pre = 14%nat -> 0 <= parent < 2 ^ 64 ->
  Z.of_nat (length name) <= EMMCFS_UNICODE_STRING_MAX_LEN ->
  let r := pre ++ le_split 8 parent ++ le_split 4 (Z.of_nat (length name)) ++ name ++ rest in
  parent_id r = parent /\ name_length r = Z.of_nat (length name) /\ name_bytes r = name.
Proof using.
  intros Hpre Hp Hn r. unfold EMMCFS_UNICODE_STRING_MAX_LEN in Hn.
  assert (name_length r = Z.of_nat (length name)) as E.
  { unfold name_length. rewrite (le_field 4 (Z.of_nat (length name)) 22 r (pre ++ le_split 8 parent) (name ++ rest)).
    - apply uwrap_small. lia.
    - unfold r. by rewrite <- app_assoc.
    - rewrite length_app, Hpre, length_le_split. done.
    - simpl Z.of_nat. lia. }
  split; [|split; [done|]].
  - by apply (le_field 8 parent 14 r pre (le_split 4 (Z.of_nat (length name)) ++ name ++ rest)).
  - unfold name_bytes, name_chars. rewrite E, Nat2Z.id. unfold r. rewrite !app_assoc.
    rewrite <- (app_assoc _ name rest), drop_app_length' by (rewrite !length_app, !length_le_split, Hpre; done).
    by apply take_app_length'.
Qed.

Lemma entry_name parent name size value : 0 <= parent < 2 ^ 64 -> Z.of_nat (length name) <= EMMCFS_UNICODE_STRING_MAX_LEN ->
  let r := entry parent name size value in
  parent_id r = parent /\ name_length r = Z.of_nat (length name) /\ name_bytes r = name.
Proof using. intros Hp Hn. by apply name_fields. Qed.

Lemma entry_fields parent name size value : 0 <= parent < 2 ^ 31 -> name_ok name ->
  Z.of_nat (length value) <= size < 2 ^ 31 ->
  let r := entry parent name size value in
  cat_key_ok r /\ key_of r = (parent, map fold name) /\ record_ok r /\
  key_len r = 27 + Z.of_nat (length name) /\ rlen r = 27 + Z.of_nat (length name) + size.
Proof using.
  intros Hp [Hn Hch] Hv r. unfold EMMCFS_UNICODE_STRING_MAX_LEN in Hn.
  destruct (entry_name parent name size value) as (E1 & E2 & E3); [lia|done|]. fold r in E1, E2, E3.
  assert (key_len r = 27 + Z.of_nat (length name)) as Ek.
  { apply (le_field 4 _ 4 r (replicate 4 0) (drop 8 r)); [done|done|simpl Z.of_nat; lia]. }
  assert (record_len r = 27 + Z.of_nat (length name) + size) as Er.
  { apply (le_field 4 _ 8 r (take 8 r) (drop 12 r)); [done|done|simpl Z.of_nat; lia]. }
  assert (rlen r = 27 + Z.of_nat (length name) + size) as El.
  { unfold rlen, r, entry. rewrite !length_app, !length_le_split. simpl length.
    rewrite length_app, length_replicate. lia. }
  split; [|split; [|split; [|split; [done|done]]]].
  - constructor; [lia|lia|by rewrite E2|by rewrite E1|by rewrite E3].
  - unfold key_of, name_of. by rewrite E1, E3.
  - constructor; lia.
Qed.

Lemma name_key_fields parent name : 0 <= parent < 2 ^ 31 -> name_ok name ->
  cat_key_ok (name_key parent name) /\ key_of (name_key parent name) = (parent, map fold name).
Proof using. intros Hp Hn. by destruct (entry_fields parent name 0 []) as (H1 & H2 & _). Qed.

(** A search for a name is a search for its key. *)
Lemma search_key_cmp parent name x : 0 <= parent < 2 ^ 31 -> name_ok name ->
  cattree_cmp fold (cattree_search_key parent name) x = cattree_cmp fold (name_key parent name) x /\
  cattree_cmp fold x (cattree_search_key parent name) = cattree_cmp fold x (name_key parent name).
Proof using.
  intros Hp [Hn Hch].
  destruct (name_fields (replicate 14 0) parent name
    (replicate (Z.to_nat EMMCFS_UNICODE_STRING_MAX_LEN - length name) 0)) as (E1 & E2 & E3); [done|lia|done|].
  destruct (entry_name parent name 0 []) as (F1 & F2 & F3); [lia|done|].
  apply cattree_cmp_ext.
  - exact (eq_trans E1 (eq_sym F1)).
  - exact (eq_trans E2 (eq_sym F2)).
  - exact (eq_trans E3 (eq_sym F3)).
  - etrans; [apply Z.eq_le_incl; exact E2|done].
Qed.

(** ** The catalog as a map *)
Definition catalog (l : list record) : gmap (Z * list Z) record := list_to_map (map (fun r => (key_of r, r)) l).

Lemma keys_nodup l : sorted (cattree_cmp fold) l -> keys_ok cat_key_ok l -> NoDup (map key_of l).
Proof using.
  induction l as [|r l IH]; intros Hs Hk; [constructor|].
  apply SSorted_cons in Hs as [Hs Hlt]. apply Forall_cons in Hk as [Hr Hk]. cbn [map]. constructor; [|by apply IH].
  intros (s & E & Hin)%list_elem_of_fmap. unfold keys_ok in Hk. rewrite Forall_forall in Hlt, Hk. specialize (Hlt s Hin).
  unfold BtreeInv.lt in Hlt. apply (cattree_cmp_spec r s Hr (Hk s Hin)) in E. lia.
Qed.

Lemma catalog_Some l k r : NoDup (map key_of l) -> catalog l !! k = Some r <-> r ∈ l /\ key_of r = k.
Proof using.
  intros Hnd. unfold catalog. rewrite <- elem_of_list_to_map.
  - rewrite list_elem_of_fmap. split.
    + by intros (s & [= -> ->] & Hs).
    + intros [Hr <-]. by exists r.
  - by rewrite <- list_fmap_compose.
Qed.

Lemma catalog_None l k : catalog l !! k = None <-> Forall (fun r => key_of r <> k) l.
Proof using.
  unfold catalog. rewrite <- not_elem_of_list_to_map, <- list_fmap_compose, Forall_forall. split.
  - intros H r Hr <-. apply H, list_elem_of_fmap. by exists r.
  - intros H (r & -> & Hr)%list_elem_of_fmap. by apply (H r Hr).
Qed.
End order.
