(* ===== verification/CattreeTheorems.v ===== *)
(** * The properties of the catalog

    The catalog is a map from the number of a directory and a name to a record:
    the search is its lookup, a new object its insertion.  The hint of an inode
    does not change what is found.  Where the order of the names fails. *)

From S2P Require Import Prelude Monad Data FsmBtree Fsm BnodeBytes BnodeRepr BnodePool BnodePoolProofs.
From S2P Require Import Btree BtreeInv BtreeFind BtreeInsert BtreeSpec Fork InodeIds Cattree CattreeProofs.
Open Scope Z_scope.

(** ** The bytes of a new record *)
Lemma write_at_mid A X B off b : length A = off -> length X = length b -> write_at off b (A ++ X ++ B) = A ++ b ++ B.
Proof.
  intros HA HX. unfold write_at. rewrite take_app_length' by done.
  rewrite (app_assoc A X B), drop_app_length' by (rewrite length_app; lia). done.
Qed.

Lemma fill_key_mid pre parent name post : length pre = 14%nat ->
  emmcfs_fill_cattree_key (pre ++ replicate 8 0 ++ replicate 4 0 ++ replicate (length name) 0 ++ post) parent name =
    pre ++ le_split 8 parent ++ le_split 4 (Z.of_nat (length name)) ++ name ++ post.
Proof.
  intros Lp. unfold emmcfs_fill_cattree_key.
  rewrite (app_assoc pre (replicate 8 0)).
  rewrite write_at_mid by (rewrite ?length_app, ?length_replicate, ?Lp, ?length_le_split; done).
  rewrite (app_assoc (pre ++ _)).
  rewrite write_at_mid by (rewrite ?length_app, ?length_replicate, ?Lp, ?length_le_split; done).
  rewrite <- !app_assoc. by rewrite write_at_mid by (rewrite ?length_replicate, ?length_le_split; done).
Qed.

(** The record that [emmcfs_add_new_cattree_object] puts together. *)
Lemma new_record_entry parent name size value : Z.of_nat (length value) <= size < 2 ^ 31 ->
  Z.of_nat (length name) <= EMMCFS_UNICODE_STRING_MAX_LEN ->
  let key_len' := cattree_key_len (Z.of_nat (length name)) in
  let r := emmcfs_fill_cattree_key (replicate 4 0 ++ le_split 4 key_len' ++ le_split 4 (key_len' + size) ++
    replicate (Z.to_nat (key_len' + size - sizeof_generic_key)) 0) parent name in
  write_at (Z.to_nat (key_len r)) value r = entry parent name size value.
Proof.
  intros Hv Hn. unfold EMMCFS_UNICODE_STRING_MAX_LEN in Hn.
  assert (cattree_key_len (Z.of_nat (length name)) = 27 + Z.of_nat (length name)) as ->.
  { unfold cattree_key_len. rewrite uwrap_small; change sizeof_cattree_key with 281; change sizeof_unicode_string with 259; lia. }
  intros kl r. subst kl. change sizeof_generic_key with 12 in r.
  set (k := 27 + Z.of_nat (length name)) in *.
  assert (replicate (Z.to_nat (k + size - 12)) 0 = replicate 2 0 ++ replicate 8 0 ++ replicate 4 0 ++
    replicate (length name) 0 ++ replicate 1 0 ++ replicate (length value) 0 ++
    replicate (Z.to_nat size - length value) 0) as E.
  { rewrite <- !replicate_add. f_equal. subst k. lia. }
  assert (r = (replicate 4 0 ++ le_split 4 k ++ le_split 4 (k + size) ++ replicate 2 0) ++
    le_split 8 parent ++ le_split 4 (Z.of_nat (length name)) ++ name ++ replicate 1 0 ++
    replicate (length value) 0 ++ replicate (Z.to_nat size - length value) 0) as Er.
  { unfold r. rewrite E.
    set (post := replicate 1 0 ++ replicate (length value) 0 ++ replicate (Z.to_nat size - length value) 0).
    rewrite <- (fill_key_mid _ parent name post) by done. by rewrite <- !app_assoc. }
  assert (key_len r = k) as ->.
  { rewrite Er. apply (le_field 4 k 4 _ (replicate 4 0) (drop 8 r)); [by rewrite Er|done|subst k; simpl Z.of_nat; lia]. }
  rewrite Er. unfold entry. fold k. rewrite !app_assoc, <- (app_assoc _ (replicate (length value) 0)).
  rewrite write_at_mid.
  - rewrite <- !app_assoc. done.
  - subst k. rewrite !length_app, !length_le_split, !length_replicate. simpl length. lia.
  - by rewrite length_replicate.
Qed.

Section properties.
(** The kernel's [tolower], or the identity, and what the B-tree leaves open. *)
Context (N max_record_len log_pages_per_node : Z) (fold : Z -> Z) (mounted : bool) (beyond : Z -> bool)
  (grow : Z -> Z -> Z) (block_size_shift : Z).
Abbreviation cmpfn := (cattree_cmp fold).
Abbreviation cat_ok := (tree_ok N max_record_len cmpfn (cat_key_ok fold)).
Abbreviation catalog := (catalog fold).
Abbreviation find := (emmcfs_cattree_find cmpfn mounted beyond grow).
Abbreviation add := (emmcfs_add_new_cattree_object N max_record_len log_pages_per_node cmpfn mounted beyond grow block_size_shift).

(** The key of a name in the catalog. *)
Definition place_of (parent : Z) (name : list Z) : Z * list Z := (parent, map fold name).

Lemma cat_nodup t lv : cat_ok t lv -> NoDup (map (key_of fold) (elements lv)).
Proof using. intros Ht. destruct (elements_sorted _ _ _ _ _ _ Ht). by apply keys_nodup. Qed.

Lemma found_entry t lv r k : cat_ok t lv -> r ∈ elements lv -> key_of fold r = k -> catalog (elements lv) !! k = Some r.
Proof using. intros Ht Hr Hk. apply catalog_Some; [by eapply cat_nodup|done]. Qed.

Lemma cmp_name t lv r parent name : cat_ok t lv -> 0 <= parent < 2 ^ 31 -> name_ok fold name -> r ∈ elements lv ->
  cmpfn (cattree_search_key parent name) r = 0 <-> key_of fold r = place_of parent name.
Proof using.
  intros Ht Hp Hn Hr. destruct (elements_sorted _ _ _ _ _ _ Ht) as [_ Hk].
  rewrite (proj1 (search_key_cmp fold parent name r Hp Hn)).
  destruct (name_key_fields fold parent name Hp Hn) as [Hok Ek].
  unfold keys_ok in Hk. rewrite Forall_forall in Hk.
  rewrite (proj1 (proj2 (cattree_cmp_spec fold _ r Hok (Hk r Hr)))), Ek. unfold place_of. done.
Qed.

(** A search for the key of a name. *)
Lemma wp_find_name t lv parent name rw : cat_ok t lv -> 0 <= parent < 2 ^ 31 -> name_ok fold name ->
  wp (emmcfs_btree_find cmpfn mounted beyond grow (cattree_search_key parent name) rw) t (fun r t' => match r with
    | Ok (h, pos) => t' ≈ t /\ (calm t -> calm t') /\ 0 <= pos /\ h_rw h = rw /\
        exists q x, elements lv !! q = Some x /\ record_at t' h pos = Some x /\
          floor_pos cmpfn (elements lv) (name_key parent name) q /\ leaf_place lv h pos q /\
          (key_of fold x <> place_of parent name -> catalog (elements lv) !! place_of parent name = None)
    | Err _ => t' ≈ t /\ ~ calm t
    | Bug => ~ calm t /\ mounted = true
    end).
Proof using.
  intros Ht Hp Hn. destruct (name_key_fields fold parent name Hp Hn) as [Hok Ek].
  destruct (elements_sorted _ _ _ _ _ _ Ht) as [Hs Hk].
  unfold wp. rewrite (find_ext cmpfn mounted beyond grow _ (name_key parent name)) by (intros x; by apply search_key_cmp).
  eapply wp_mono; [by apply (wp_find N max_record_len cmpfn (cat_key_ok fold))|].
  intros [[h pos]|e|] t' H; [|done|done]. destruct H as (S & C & q & x & Hq & Hat & Hfl & Hrw & Hpl).
  split; [done|]. split; [done|]. split.
  { destruct Hpl as (L & up & j & -> & A & recs & B & p & _ & _ & -> & _). lia. }
  split; [done|]. exists q, x. split; [done|]. split; [unfold record_at; by rewrite (sim_nodes _ _ S)|].
  split; [done|]. split; [done|]. intros Hne. apply catalog_None.
  pose proof (Forall_lookup_1 _ _ _ _ Hk Hq) as Hkx.
  eapply Forall_impl; [apply Forall_and; split; [exact Hk|]|].
  - eapply (floor_absent cmpfn (cat_key_ok fold)); [exact Hs|exact Hk|exact Hok|exact Hq|exact Hfl|].
    intros E. apply Hne. apply (cattree_cmp_spec fold x _ Hkx Hok) in E. by rewrite E.
  - intros r [Hr Hner] E. apply Hner. apply (cattree_cmp_spec fold r _ Hr Hok). by rewrite E.
Qed.

Context (HN : node_size_ok N).

(** The record of a name, and the place of it that a search has found. *)
Definition located (lv : list level) (t : btree) (h : handle) (pos : Z) (k : Z * list Z) (x : record) : Prop :=
  catalog (elements lv) !! k = Some x /\ record_at t h pos = Some x /\
  exists q, elements lv !! q = Some x /\ leaf_place lv h pos q.

Lemma wp_cattree_find t lv parent name rw : cat_ok t lv -> 0 <= parent < 2 ^ 31 -> name_ok fold name ->
  wp (find None parent name rw) t (fun r t' => match r with
    | Ok (h, pos) => t' ≈ t /\ (calm t -> calm t') /\ h_rw h = rw /\ exists x, located lv t' h pos (place_of parent name) x
    | Err e => t' ≈ t /\ (calm t -> calm t' /\ e = - ENOENT /\ catalog (elements lv) !! place_of parent name = None)
    | Bug => ~ calm t /\ mounted = true
    end).
Proof using HN.
  intros Ht Hp Hn. unfold emmcfs_cattree_find.
  apply wp_bind, wp_kmalloc. intros [[]|e|] t1 S1 _ _ C1 B1; [|split; [done|]; by intros [_ ?]%C1|done].
  assert (cat_ok t1 lv) as Ht1 by (by eapply tree_ok_sim; [symmetry|]).
  apply wp_bind. eapply wp_mono; [by apply (wp_find_name t1 lv)|].
  intros [[h pos]|e|] t2 H; cycle 1.
  { destruct H as [S2 C2]. split; [by rewrite S2|]. intros Hc. destruct C2. by apply C1. }
  { destruct H as [C2 Hm]. split; [|done]. intros Hc. by apply C2, C1. }
  destruct H as (S2 & C2 & Hpos & Hrw & q & x & Hq & Hat & Hfl & Hpl & Hno).
  assert (cat_ok t2 lv) as Ht2 by (by eapply tree_ok_sim; [symmetry|]).
  rewrite (proj2 (Z.eqb_neq pos (-1))) by lia. cbn [andb]. apply wp_bind, wp_ret.
  eapply (wp_seq _ _ _ (fun r t' => r = x /\ t' = t2)).
  { by apply (wp_get_btree_record N max_record_len cmpfn (cat_key_ok fold) t2 lv h pos q x). }
  intros r t3 [-> ->]. assert (x ∈ elements lv) as Hin by (by eapply list_elem_of_lookup_2).
  destruct (Z.eqb_spec (cmpfn (cattree_search_key parent name) x) 0) as [E|E]; cbn [negb].
  - apply wp_ret. split; [by rewrite S2|]. split; [intros Hc; by apply C2, C1|]. split; [done|].
    exists x. split; [|split; [done|by exists q]]. eapply found_entry; [done|done|]. by eapply cmp_name.
  - apply wp_put_bnode. intros t3 S3 C3. apply wp_fail. split; [by rewrite S3, S2|].
    intros Hc. split; [by apply C3, C2, C1|]. split; [done|]. apply Hno. intros E'. by apply E, (cmp_name t lv x parent name).
Qed.

(** C25: [emmcfs_cattree_find] is the lookup of the name in the catalog: it
    gives the place of the record of the name, and [-ENOENT] when the
    directory has no such name; it leaves the tree as it was. *)
Theorem emmcfs_cattree_find_correct t lv parent name rw :
  cat_ok t lv -> 0 <= parent < 2 ^ 31 -> name_ok fold name ->
  match find None parent name rw t with
  | (Ok (h, pos), t') => t' ≈ t /\
      exists x, catalog (elements lv) !! place_of parent name = Some x /\ record_at t' h pos = Some x
  | (Err e, t') => t' ≈ t /\ (calm t -> e = - ENOENT /\ catalog (elements lv) !! place_of parent name = None)
  | (Bug, _) => ~ calm t /\ mounted = true
  end.
Proof using HN.
  intros Ht Hp Hn. pose proof (wp_cattree_find t lv parent name rw Ht Hp Hn) as H. unfold wp in H.
  destruct (find None parent name rw t) as [[[h pos]|e|] t']; [| |done].
  - destruct H as (H1 & _ & _ & x & H2 & H3 & _). split; [done|]. by exists x.
  - destruct H as [H1 H2]. split; [done|]. by intros (_ & ? & ?)%H2.
Qed.

(** ** New objects *)

(** The type and the value of the record of an inode. *)
Definition new_type (i : inode) (at_ : attributes) : Z :=
  if hlink_id at_ =? INVALID_HLINK_ID then get_record_type_on_mode (i_mode i) else EMMCFS_CATALOG_HLINK_RECORD.
Definition new_value (i : inode) (at_ : attributes) : list Z :=
  if hlink_id at_ =? INVALID_HLINK_ID then emmcfs_fill_cattree_value block_size_shift i at_ else emmcfs_fill_hlink_value at_.

(** The value fits behind the key. *)
Lemma encode_extents_length es : length (concat (map encode_extent es)) = (12 * length es)%nat.
Proof using.
  induction es as [|e es IH]; [done|]. cbn [map concat]. rewrite length_app, IH. unfold encode_extent.
  rewrite length_app, !length_le_split. simpl length. lia.
Qed.

Lemma form_fork_extents i : 0 <= used_extents (i_fork i) <= EMMCFS_EXTENTS_COUNT_IN_FORK ->
  (length (layout_extents (emmcfs_form_fork block_size_shift i)) <= 9)%nat.
Proof using.
  unfold EMMCFS_EXTENTS_COUNT_IN_FORK. intros Hu. unfold emmcfs_form_fork. destruct (is_device i).
  - by vm_compute.
  - cbn [layout_extents]. rewrite length_app, length_take, length_drop. unfold blank_extents. rewrite length_replicate.
    change (Z.to_nat EMMCFS_EXTENTS_COUNT_IN_FORK) with 9%nat. lia.
Qed.

Lemma new_value_fits i at_ : 0 <= used_extents (i_fork i) <= EMMCFS_EXTENTS_COUNT_IN_FORK ->
  Z.of_nat (length (new_value i at_)) <= value_len (new_type i at_) <= sizeof_file_record.
Proof using.
  intros Hu. unfold new_value, new_type. destruct (hlink_id at_ =? INVALID_HLINK_ID); [|by vm_compute].
  unfold emmcfs_fill_cattree_value, encode_date. pose proof (form_fork_extents i Hu) as Hf.
  rewrite !length_app, !length_le_split, length_replicate.
  destruct (i_mode i); cbn [get_record_type_on_mode]; (split; [|by vm_compute]);
    match goal with |- context [negb ?b] => let v := eval vm_compute in (negb b) in change (negb b) with v end;
    match goal with |- context [value_len ?b] => let v := eval vm_compute in (value_len b) in change (value_len b) with v end;
    cbn match; try (simpl length; lia); unfold encode_fork; rewrite !length_app, !length_le_split, encode_extents_length; lia.
Qed.

Lemma wp_add t lv i at_ parent name (P : outcome unit -> btree -> Prop) :
  max_record_len + 31 <= N / 2 -> 282 + sizeof_file_record <= max_record_len ->
  cat_ok t lv -> calm t -> btree_height t + 1 < 2 ^ 16 -> 2 * btree_height t <= free_num t ->
  0 <= parent < 2 ^ 31 -> name_ok fold name -> EMMCFS_1ST_FILE_INO <= ino i ->
  0 <= used_extents (i_fork i) <= EMMCFS_EXTENTS_COUNT_IN_FORK ->
  le cmpfn (first_rec (elements lv)) (name_key parent name) ->
  (forall x, catalog (elements lv) !! place_of parent name = Some x ->
    forall t', t' ≈ t -> calm t' -> P (Err (- EEXIST)) t') ->
  (catalog (elements lv) !! place_of parent name = None ->
    forall t' lv', calm t' -> cat_ok t' lv' ->
    elements lv' ≡ₚ entry parent name (value_len (new_type i at_)) (new_value i at_) :: elements lv ->
    account t' lv' = account t lv -> P (Ok tt) t') ->
  wp (add i at_ parent name) t P.
Proof using HN.
  intros Hmax Hrec Ht Hc Hh Hroom Hp Hn Hi Hu Hfirst Hex Hok.
  pose proof (new_value_fits i at_ Hu) as [Hfit Hsz].
  destruct (elements_sorted _ _ _ _ _ _ Ht) as [Hs Hk].
  set (size := value_len (new_type i at_)) in *. set (value := new_value i at_) in *.
  assert (Z.of_nat (length value) <= size < 2 ^ 31) as Hv by (change sizeof_file_record with 197 in Hsz; lia).
  destruct (entry_fields fold parent name size value Hp Hn Hv) as (E1 & E2 & E3 & E4 & E5).
  destruct (name_key_fields fold parent name Hp Hn) as [K1 K2].
  unfold emmcfs_add_new_cattree_object. apply wp_BUG_ON; [by apply Z.ltb_ge|].
  unfold emmcfs_alloc_cattree_key. apply wp_bind, wp_bind_ok, wp_kmalloc_ok; [done|]. intros t1 S1 C1. apply wp_ret.
  assert ((if negb (hlink_id at_ =? INVALID_HLINK_ID) then EMMCFS_CATALOG_HLINK_RECORD
           else get_record_type_on_mode (i_mode i)) = new_type i at_) as ->.
  { unfold new_type. by destruct (_ =? _). }
  assert ((if negb (hlink_id at_ =? INVALID_HLINK_ID) then emmcfs_fill_hlink_value at_
           else emmcfs_fill_cattree_value block_size_shift i at_) = value) as ->.
  { unfold value, new_value. by destruct (_ =? _). }
  fold size. rewrite new_record_entry by (done || apply Hn).
  assert (forall x, x ∈ elements lv -> cmpfn x (entry parent name size value) = 0 <-> key_of fold x = place_of parent name) as Hcmp.
  { intros x Hx. unfold keys_ok in Hk. rewrite Forall_forall in Hk.
    rewrite (proj1 (proj2 (cattree_cmp_spec fold x _ (Hk x Hx) E1))), E2. done. }
  apply (wp_insert N max_record_len log_pages_per_node cmpfn (cat_key_ok fold) mounted beyond grow t1 lv); try done.
  - by eapply tree_ok_sim; [symmetry|].
  - pose proof (nk_len _ _ Hn) as Hl. unfold EMMCFS_UNICODE_STRING_MAX_LEN in Hl.
    change sizeof_file_record with 197 in *. constructor; [done|lia|lia|done].
  - unfold le in *. enough (cmpfn (first_rec (elements lv)) (entry parent name size value) =
      cmpfn (first_rec (elements lv)) (name_key parent name)) as -> by done.
    destruct (entry_name parent name size value) as (F1 & F2 & F3); [lia|apply Hn|].
    destruct (entry_name parent name 0 []) as (G1 & G2 & G3); [lia|apply Hn|].
    apply cattree_cmp_ext; [exact (eq_trans F1 (eq_sym G1))|exact (eq_trans F2 (eq_sym G2))|exact (eq_trans F3 (eq_sym G3))|].
    rewrite F2. apply Hn.
  - by rewrite (sim_height _ _ S1).
  - by rewrite (sim_height _ _ S1), (sim_num _ _ S1).
  - intros (x & Hin & E0)%Exists_exists t2 S2 C2. apply (Hex x); [|by rewrite S2|done].
    eapply found_entry; [done|done|]. by apply Hcmp.
  - intros Hall t2 lv' C2 T2 P2 A2. rewrite (account_sim _ _ _ S1) in A2. apply (fun H => Hok H t2 lv' C2 T2 P2 A2).
    apply catalog_None. rewrite Forall_forall in *. intros x Hx E. by apply (Hall x Hx), Hcmp.
Qed.

(** What a new object asks of the volume: room in the tree for a record, the
    number of an ordinary file, and a directory behind the first record. *)
Record can_add (t : btree) (lv : list level) (i : inode) (parent : Z) (name : list Z) : Prop := {
  ca_tree : cat_ok t lv;
  ca_calm : calm t;
  ca_height : btree_height t + 1 < 2 ^ 16;
  ca_room : 2 * btree_height t <= free_num t;
  ca_parent : 0 <= parent < 2 ^ 31;
  ca_name : name_ok fold name;
  ca_ino : EMMCFS_1ST_FILE_INO <= ino i;
  ca_used : 0 <= used_extents (i_fork i) <= EMMCFS_EXTENTS_COUNT_IN_FORK;
  ca_first : le cmpfn (first_rec (elements lv)) (name_key parent name)
}.

Lemma catalog_insert t lv t' lv' r : cat_ok t lv -> cat_ok t' lv' -> elements lv' ≡ₚ r :: elements lv ->
  catalog (elements lv') = <[key_of fold r := r]> (catalog (elements lv)).
Proof using.
  intros Ht Ht' P. unfold CattreeProofs.catalog. change (<[key_of fold r := r]> _) with
    (list_to_map (M := gmap (Z * list Z) record) (map (fun r => (key_of fold r, r)) (r :: elements lv))).
  apply list_to_map_proper; [|by rewrite P].
  pose proof (cat_nodup _ _ Ht') as Hnd. by rewrite <- list_fmap_compose.
Qed.

(** The record of the inode [i] under a name. *)
Definition new_entry (i : inode) (at_ : attributes) (parent : Z) (name : list Z) : record :=
  entry parent name (value_len (new_type i at_)) (new_value i at_).

Context (Hmax : max_record_len + 31 <= N / 2) (Hrec : 282 + sizeof_file_record <= max_record_len).

(** What is left of [wp_add] for the map. *)
Lemma wp_add_map t lv i at_ parent name : can_add t lv i parent name ->
  wp (add i at_ parent name) t (fun r t' =>
    (r = Err (- EEXIST) /\ t' ≈ t /\ calm t' /\ is_Some (catalog (elements lv) !! place_of parent name)) \/
    (r = Ok tt /\ calm t' /\ catalog (elements lv) !! place_of parent name = None /\
     exists lv', cat_ok t' lv' /\ account t' lv' = account t lv /\
      catalog (elements lv') = <[place_of parent name := new_entry i at_ parent name]> (catalog (elements lv)))).
Proof using HN Hmax Hrec.
  intros [H1 H2 H3 H4 H5 H6 H7 H8 H9]. apply (wp_add t lv); try done.
  - intros x Hx t' S' C'. left. rewrite Hx. by split_and!.
  - intros Hx t' lv' C' T' P' A'. right. do 3 (split; [done|]). exists lv'. split; [done|]. split; [done|].
    rewrite (catalog_insert t lv t' lv' _ H1 T' P'). f_equal.
    pose proof (new_value_fits i at_ H8) as [Hfit Hsz]. change sizeof_file_record with 197 in Hsz.
    by apply entry_fields; [|done|lia].
Qed.

(** C26: [emmcfs_add_new_cattree_object] is an insertion into the catalog: the
    name is added with the record of the inode (a link to the area of the hard
    links for an inode that is there), all other names stay; the name that
    is there already is refused with [-EEXIST]. *)
Theorem emmcfs_add_new_cattree_object_correct t lv i at_ parent name : can_add t lv i parent name ->
  let '(r, t') := add i at_ parent name t in
  match catalog (elements lv) !! place_of parent name with
  | Some _ => r = Err (- EEXIST) /\ t' ≈ t
  | None => r = Ok tt /\ exists lv', cat_ok t' lv' /\
      catalog (elements lv') = <[place_of parent name := new_entry i at_ parent name]> (catalog (elements lv))
  end.
Proof using HN Hmax Hrec.
  intros Hadd. pose proof (wp_add_map t lv i at_ parent name Hadd) as H. unfold wp in H.
  destruct (add i at_ parent name t) as [r t']. simpl in H.
  destruct H as [(-> & S & _ & [x ->])|(-> & _ & -> & lv' & H1 & _ & H2)]; [done|]. split; [done|]. by exists lv'.
Qed.

(** A name that was added is found, and its record is that of the inode. *)
Theorem add_find_roundtrip t lv i at_ parent name rw : can_add t lv i parent name ->
  catalog (elements lv) !! place_of parent name = None ->
  exists t1 t2 h pos, add i at_ parent name t = (Ok tt, t1) /\ find None parent name rw t1 = (Ok (h, pos), t2) /\
    record_at t2 h pos = Some (new_entry i at_ parent name).
Proof using HN Hmax Hrec.
  intros Hadd Hnew. pose proof (wp_add_map t lv i at_ parent name Hadd) as H. unfold wp in H.
  destruct (add i at_ parent name t) as [r t1]. simpl in H.
  destruct H as [(_ & _ & _ & [x E])|(-> & C1 & _ & lv' & T1 & _ & E1)]; [congruence|].
  pose proof (wp_cattree_find t1 lv' parent name rw T1 (ca_parent _ _ _ _ _ Hadd) (ca_name _ _ _ _ _ Hadd)) as H.
  unfold wp, located in H. rewrite E1, lookup_insert_eq in H.
  destruct (find None parent name rw t1) as [[[h pos]|e|] t2] eqn:E2; simpl in H.
  - destruct H as (_ & _ & _ & x & [= <-] & Hat & _). by exists t1, t2, h, pos.
  - destruct H as [_ H]. by destruct (H C1) as (_ & _ & ?).
  - by destruct H.
Qed.

(** ** The first child of a directory *)
Abbreviation first_child := (emmcfs_find_first_catalog_child cmpfn mounted beyond grow).

(** The records of a directory, in the order of the tree. *)
Definition children (dir : Z) (l : list record) : list record := filter (fun r => parent_id r = dir) l.

Lemma empty_name_ok : name_ok fold [].
Proof using. by constructor. Qed.

Lemma dir_order dir y : 0 <= dir < 2 ^ 31 -> cat_key_ok fold y ->
  (lt cmpfn y (name_key dir []) -> parent_id y < dir) /\ (lt cmpfn (name_key dir []) y -> dir <= parent_id y).
Proof using.
  intros Hd Hy. destruct (name_key_fields fold dir [] Hd empty_name_ok) as [Hk Ek]. unfold lt. split; intros H.
  - apply (cattree_cmp_spec fold y _ Hy Hk) in H. rewrite Ek in H. destruct H as [?|[_ H]]; [done|].
    change (lexico (name_of fold y) (@nil Z)) in H. by destruct (name_of fold y).
  - apply (cattree_cmp_spec fold _ y Hk Hy) in H. rewrite Ek in H.
    destruct H as [H|[H _]]; [change (dir < parent_id y) in H|simpl in H]; lia.
Qed.

Section children.
Context (l : list record) (dir : Z) (q : nat) (Hs : sorted cmpfn l) (Hk : keys_ok (cat_key_ok fold) l)
  (Hdir : 0 <= dir < 2 ^ 31) (Hfl : floor_pos cmpfn l (name_key dir []) q).

Lemma children_before x : l !! q = Some x -> children dir (take q l) = [].
Proof using Hs Hk Hdir Hfl.
  intros Hx. apply filter_none_in. intros y Hy E. apply elem_of_take in Hy as (i & Hi & Hlt).
  destruct Hfl as [(x' & Hx' & Hle) _]. rewrite Hx in Hx'. injection Hx' as <-. destruct Hle as [Hle|]; [|lia].
  pose proof (Forall_lookup_1 _ _ _ _ Hk Hi) as Hky.
  pose proof (sorted_lookup cmpfn _ _ _ _ _ Hs Hi Hx Hlt) as H.
  destruct (name_key_fields fold dir [] Hdir empty_name_ok) as [Hd _].
  pose proof (lt_le_trans cmpfn (cat_key_ok fold) y x _ Hky (Forall_lookup_1 _ _ _ _ Hk Hx) Hd H Hle) as H'.
  apply (dir_order dir y Hdir Hky) in H'. lia.
Qed.

(** Behind the floor the children of the directory are in front. *)
Lemma children_after z : l !! S q = Some z -> parent_id z <> dir -> children dir (drop (S q) l) = [].
Proof using Hs Hk Hdir Hfl.
  intros Hz Hne. apply filter_none_in. intros y Hy E. apply list_elem_of_lookup in Hy as [i Hi].
  rewrite lookup_drop in Hi. destruct Hfl as [_ Hhi].
  pose proof (Forall_lookup_1 _ _ _ _ Hk Hz) as Hkz. pose proof (Forall_lookup_1 _ _ _ _ Hk Hi) as Hky.
  pose proof (proj2 (dir_order dir z Hdir Hkz) (Hhi (S q) z ltac:(lia) Hz)) as Hge.
  destruct i as [|i]; [rewrite Nat.add_0_r in Hi; congruence|].
  pose proof (sorted_lookup cmpfn _ _ _ _ _ Hs Hz Hi ltac:(lia)) as H.
  apply (cattree_cmp_spec fold z y Hkz Hky) in H.
  destruct H as [H|[H _]]; [change (parent_id z < parent_id y) in H|simpl in H]; lia.
Qed.

Lemma children_at x : l !! q = Some x -> children dir l = children dir (x :: drop (S q) l).
Proof using Hs Hk Hdir Hfl.
  intros Hx. rewrite <- (take_drop_middle l q x Hx) at 1.
  etrans; [apply filter_app|].
  change (children dir (take q l) ++ children dir (x :: drop (S q) l) = children dir (x :: drop (S q) l)).
  by rewrite (children_before x Hx).
Qed.
End children.

(** A record in its place in the tree. *)
Definition placed (lv : list level) (t : btree) (h : handle) (pos : Z) (q : nat) (x : record) : Prop :=
  elements lv !! q = Some x /\ record_at t h pos = Some x /\ leaf_place lv h pos q.

Lemma wp_first_child t lv dir : cat_ok t lv -> 0 <= dir < 2 ^ 31 ->
  wp (first_child dir) t (fun r t' => match r with
    | Ok (h, pos) => t' ≈ t /\ (calm t -> calm t') /\ exists q r, placed lv t' h pos q r /\ parent_id r = dir /\
        children dir (take q (elements lv)) = []
    | Err e => t' ≈ t /\ (calm t -> calm t' /\ e = - ENOENT /\ children dir (elements lv) = [])
    | Bug => ~ calm t end).
Proof using HN.
  intros Ht Hd.
  destruct (elements_sorted _ _ _ _ _ _ Ht) as [Hs Hk].
  unfold emmcfs_find_first_catalog_child.
  apply wp_bind, wp_kmalloc. intros [[]|e|] t1 S1 _ _ C1 B1; [|split; [done|]; by intros [_ ?]%C1|done].
  assert (cat_ok t1 lv) as Ht1 by (by eapply tree_ok_sim; [symmetry|]).
  apply wp_bind. eapply wp_mono; [apply (wp_find_name t1 lv dir []); [done|done|apply empty_name_ok]|].
  intros [[h pos]|e|] t2 H; cycle 1.
  { destruct H as [S2 C2]. split; [by rewrite S2|]. intros Hc. destruct C2. by apply C1. }
  { destruct H as [C2 _]. intros Hc. by apply C2, C1. }
  destruct H as (S2 & C2 & Hpos & _ & q & x & Hq & Hat & Hfl & Hpl & _).
  assert (cat_ok t2 lv) as Ht2 by (by eapply tree_ok_sim; [symmetry|]).
  pose proof Hat as Hat'. unfold record_at in Hat'. destruct (nodes t2 !! h_id h) as [n|] eqn:Hn; [|done].
  simpl in Hat'. eapply wp_node; [exact Hn|]. apply lookup_lt_Some in Hat'.
  apply wp_BUG_ON; [rewrite Z.geb_leb; apply Z.leb_gt; lia|].
  eapply (wp_seq _ _ _ (fun r t' => r = x /\ t' = t2)).
  { by apply (wp_get_btree_record N max_record_len cmpfn (cat_key_ok fold) t2 lv h pos q x). }
  intros r t3 [-> ->]. pose proof (children_before (elements lv) dir q Hs Hk Hd Hfl x Hq) as Hbefore.
  destruct (Z.eqb_spec (parent_id x) dir) as [E|E].
  { apply wp_ret. split; [by rewrite S2|]. split; [by intros []%C1; apply C2|]. by exists q, x. }
  assert (children dir (elements lv) = children dir (drop (S q) (elements lv))) as Hch.
  { rewrite (children_at (elements lv) dir q Hs Hk Hd Hfl x Hq). unfold children. by rewrite filter_cons_False. }
  destruct Hpl as (L & up & j & Elv & Hpl). destruct h as [id hrw].
  apply wp_try. eapply wp_mono.
  { apply (wp_next_record N max_record_len cmpfn (cat_key_ok fold) mounted beyond grow t2 lv L up id pos q j hrw); done. }
  intros [[[h2 pos2] z]|e|] t4 H; cycle 1.
  { destruct H as [S4 H]. apply wp_put_bnode. intros t5 S5 C5. apply wp_fail. split; [by rewrite S5, S4, S2|].
    intros Hc. pose proof (C2 (proj1 (C1 Hc))) as Hc2. destruct (H Hc2) as (C4 & -> & Hlen). split; [by apply C5|].
    split; [done|]. by rewrite Hch, drop_ge by lia. }
  { destruct H as [H _]. intros Hc. by apply H, C2, C1. }
  destruct H as (S4 & C4 & Hz & j2 & Hpl2). 
  assert (cat_ok t4 lv) as Ht4 by (by eapply tree_ok_sim; [symmetry|]).
  assert (record_at t4 h2 pos2 = Some z) as Hat2 by (eapply place_record; [exact Ht4|exact Elv|exact Hpl2|by subst lv]).
  eapply wp_seq.
  { apply wp_or_bug. apply (wp_get_btree_record N max_record_len cmpfn (cat_key_ok fold) t4 lv h2 pos2 (S q) z); try done.
    by exists L, up, j2. }
  intros r t5 [-> ->]. destruct (Z.eqb_spec (parent_id z) dir) as [Ez|Ez]; cbn [negb].
  - apply wp_ret. split; [by rewrite S4, S2|]. split; [by intros []%C1; apply C4, C2|]. exists (S q), z.
    split; [split; [done|]; split; [done|]; by exists L, up, j2|]. split; [done|].
    rewrite (take_S_r _ _ x) by done. unfold children. etrans; [apply filter_app|]. fold (children dir (take q (elements lv))).
    rewrite Hbefore. cbn [app]. by rewrite filter_cons_False.
  - apply wp_put_bnode. intros t5 S5 C5. apply wp_fail. split; [by rewrite S5, S4, S2|].
    intros Hc. split; [by apply C5, C4, C2, C1|]. split; [done|]. rewrite Hch. by eapply children_after.
Qed.

(** [emmcfs_find_first_catalog_child] gives the first record of a
    directory in the order of the names, and [-ENOENT] for an empty one. *)
Theorem emmcfs_find_first_catalog_child_correct t lv dir : cat_ok t lv -> 0 <= dir < 2 ^ 31 ->
  match first_child dir t with
  | (Ok (h, pos), t') => t' ≈ t /\
      exists r, head (children dir (elements lv)) = Some r /\ record_at t' h pos = Some r
  | (Err e, t') => t' ≈ t /\ (calm t -> e = - ENOENT /\ children dir (elements lv) = [])
  | (Bug, _) => ~ calm t
  end.
Proof using HN.
  intros Ht Hd. pose proof (wp_first_child t lv dir Ht Hd) as H. unfold wp in H.
  destruct (first_child dir t) as [[[h pos]|e|] t']; [| |done].
  - destruct H as (H1 & _ & q & r & (Hq & Hat & _) & Hr & Hb). split; [done|]. exists r. split; [|done].
    rewrite <- (take_drop_middle _ _ _ Hq). unfold children. rewrite filter_app. unfold children in Hb. rewrite Hb.
    cbn [app]. by rewrite filter_cons_True.
  - destruct H as [H1 H2]. split; [done|]. by intros (_ & ?)%H2.
Qed.

(** ** The hint *)

(** A hint names a node of the tree, or no node in use: nodes change their
    place in the tree, and leave it. *)
Definition hint_ok (t : btree) (lv : list level) (b : bnode_hint) : Prop :=
  hint_id b = 0 \/ hint_id b ∈ all_ids lv \/ 0 < hint_id b < bits_num t /\ ~ used t (hint_id b).

(** A hint that stays good while other records come and go: one that is not
    set, or any where no id is lost. *)
Definition hint_lasts (t : btree) (lv : list level) (b : bnode_hint) : Prop :=
  hint_id b = 0 \/ hint_ok t lv b /\ snd (account t lv) = 0.

Lemma hint_lasts_ok t lv b : hint_lasts t lv b -> hint_ok t lv b.
Proof using. intros [?|[? _]]; [by left|done]. Qed.

Lemma hint_lasts_step t lv t' lv' b : cat_ok t lv -> cat_ok t' lv' -> account t' lv' = account t lv ->
  hint_lasts t lv b -> hint_lasts t' lv' b.
Proof using.
  intros Ht Ht' Ha [H0|[Hb Hl]]; [by left|right]. split; [|by rewrite Ha].
  assert (bits_num t' = bits_num t) as Eb by (by injection Ha).
  assert (hint_id b = 0 \/ 0 < hint_id b < bits_num t') as [|Hr]; [|by left|].
  - destruct Hb as [?|[Hin|[? _]]]; [by left|right|right; lia]. rewrite Eb.
    pose proof (to_used _ _ _ _ _ _ Ht) as Hu. rewrite Forall_forall in Hu. destruct (Hu _ Hin) as [H0 Hbit].
    apply lookup_lt_Some in Hbit. unfold bits_num. lia.
  - right. destruct (bits t' !! Z.to_nat (hint_id b)) as [[]|] eqn:E.
    + left. eapply used_in_tree; [exact Ht'|by rewrite Ha|by split; [lia|]].
    + right. split; [done|]. intros [_ ?]. congruence.
    + right. split; [done|]. intros [_ ?]. congruence.
Qed.

Lemma wp_try_hint t lv parent name rw b : cat_ok t lv -> hint_ok t lv b -> 0 <= parent < 2 ^ 31 -> name_ok fold name ->
  wp (try_hint cmpfn mounted beyond grow (cattree_search_key parent name) rw b) t (fun r t' => match r with
    | Ok (Some (Ok (h, pos))) => t' ≈ t /\ (calm t -> calm t') /\ h_rw h = rw /\ b = Hint (h_id h) pos /\
        exists x, located lv t' h pos (place_of parent name) x
    | Ok None => t' ≈ t /\ (calm t -> calm t')
    | Bug => ~ calm t
    | _ => False
    end).
Proof using HN.
  intros Ht Hb Hp Hn. unfold try_hint.
  destruct (Z.eqb_spec (hint_id b) 0) as [|H0]; [by apply wp_ret|].
  destruct (Z.ltb_spec (hint_pos b) 0) as [|Hpos]; [by apply wp_ret|]. cbn [orb].
  destruct Hb as [?|[Hin|[Hid Hu]]]; [done| |]; cycle 1.
  { unfold wp, bind, try. by rewrite get_bnode_unused. }
  apply all_ids_split in Hin as (lo & A & recs & B & up & ->).
  destruct (tree_node N max_record_len cmpfn (cat_key_ok fold) t lo _ _ _ _ _ Ht) as (Hu & Hnode & _).
  apply wp_try. apply wp_get_bnode; [apply Ht|done| | |done].
  2:{ intros e t1 S1 C1. apply wp_ret. split; [done|]. by intros ?%C1. }
  intros t1 S1 C1. eapply wp_node; [simpl; rewrite (sim_nodes _ _ S1); exact Hnode|]. cbn [bn_type bn_recs].
  destruct lo as [|L0 lo]; [|simpl; apply wp_put_bnode; intros t2 S2 C2; apply wp_ret; split; [by rewrite S2|auto]].
  cbn [length level_type Z.eqb negb]. simpl app in *.
  destruct (Z.geb_spec (hint_pos b) (Z.of_nat (length recs))) as [|Hlt];
    [apply wp_put_bnode; intros t2 S2 C2; apply wp_ret; split; [by rewrite S2|auto]|].
  destruct (lookup_lt_is_Some_2 recs (Z.to_nat (hint_pos b)) ltac:(lia)) as [x Hx].
  assert (cat_ok t1 ((A ++ (hint_id b, recs) :: B) :: up)) as Ht1 by (by eapply tree_ok_sim; [symmetry|]).
  set (q := (length (flat A) + Z.to_nat (hint_pos b))%nat).
  assert (leaf_place ((A ++ (hint_id b, recs) :: B) :: up) (Handle (hint_id b) rw) (hint_pos b) q) as Hpl.
  { eexists _, up, (length A). split; [done|]. exists A, recs, B, (Z.to_nat (hint_pos b)).
    split; [done|]. split; [lia|]. split; [lia|done]. }
  assert (record_at t1 (Handle (hint_id b) rw) (hint_pos b) = Some x) as Hat.
  { unfold record_at. simpl. by rewrite (sim_nodes _ _ S1), Hnode. }
  eapply wp_try_ok.
  { by apply (wp_get_btree_record N max_record_len cmpfn (cat_key_ok fold) t1 _ _ _ q x HN Ht1 Hpl Hat). }
  intros r t2 [-> ->]. assert (elements ((A ++ (hint_id b, recs) :: B) :: up) !! q = Some x) as Hq.
  { by apply (flat_at A (hint_id b) recs B (Z.to_nat (hint_pos b))). }
  assert (x ∈ elements ((A ++ (hint_id b, recs) :: B) :: up)) as Hin by (by eapply list_elem_of_lookup_2).
  destruct (Z.eqb_spec (cmpfn (cattree_search_key parent name) x) 0) as [E|E].
  - apply wp_ret. split; [done|]. split; [done|]. split; [done|]. split; [by destruct b|]. exists x.
    split; [|split; [done|by exists q]]. eapply found_entry; [done|done|]. by eapply cmp_name.
  - apply wp_put_bnode. intros t3 S3 C3. apply wp_ret. split; [by rewrite S3|auto].
Qed.

(** The place that a hint says is one of the tree. *)
Lemma located_hint lv t h pos k x : located lv t h pos k x -> forall t', hint_ok t' lv (Hint (h_id h) pos).
Proof using.
  intros (_ & _ & q & _ & L & up & j & -> & A & recs & B & p & -> & _). intros t'. right. left. cbn [hint_id].
  unfold all_ids. cbn [map concat]. apply elem_of_app. left. unfold ids. rewrite map_app. apply elem_of_app. right. left.
Qed.

Lemma wp_get_from_cattree t lv parent name rw b : cat_ok t lv -> hint_ok t lv b -> 0 <= parent < 2 ^ 31 -> name_ok fold name ->
  wp (emmcfs_get_from_cattree cmpfn mounted beyond grow parent name rw) (b, t) (fun r s => match r with
    | Ok (h, pos) => snd s ≈ t /\ (calm t -> calm (snd s)) /\ h_rw h = rw /\ fst s = Hint (h_id h) pos /\
        exists x, located lv (snd s) h pos (place_of parent name) x
    | Err e => snd s ≈ t /\ (calm t -> calm (snd s) /\
        e = - ENOENT /\ catalog (elements lv) !! place_of parent name = None /\ fst s = Hint 0 (-1))
    | Bug => ~ calm t end).
Proof using HN.
  intros Ht Hb Hp Hn. unfold emmcfs_get_from_cattree, in_catalog.
  apply wp_bind, wp_zoom, wp_kmalloc. intros [[]|e|] t1 S1 _ _ C1 B1; [|split; [done|]; by intros [_ ?]%C1|done].
  cbn [fst snd]. assert (cat_ok t1 lv) as Ht1 by (by eapply tree_ok_sim; [symmetry|]).
  apply wp_gets. cbn [fst]. apply wp_bind, wp_zoom. cbn [snd].
  eapply wp_mono; [apply (wp_try_hint t1 lv); try done|].
  { destruct Hb as [?|[?|[? ?]]]; [by left|by right; left|right; right]. unfold bits_num.
    rewrite (sim_bits _ _ S1). split; [done|]. by rewrite S1. }
  intros [[[[h pos]|e|]|]|e|] t2 H; try done; cycle 1.
  2:{ intros Hc. by apply H, C1. }
  2:{ destruct H as (S2 & C2 & Hrw & -> & H). apply wp_ret. split; [by rewrite S2|].
      split; [by intros []%C1; apply C2|]. by split_and!. }
  destruct H as [S2 C2]. assert (cat_ok t2 lv) as Ht2 by (by eapply tree_ok_sim; [symmetry|]).
  apply wp_bind, wp_zoom. cbn [fst snd]. unfold or_bug. apply wp_try.
  eapply wp_mono; [by apply (wp_find_name t2 lv)|].
  intros [[h pos]|e|] t3 H; cycle 1.
  { destruct H as [_ H]. intros Hc. by apply H, C2, C1. }
  { destruct H as [H _]. intros Hc. by apply H, C2, C1. }
  destruct H as (S3 & C3 & Hpos & Hrw & q & x & Hq & Hat & Hfl & Hpl & Hno).
  assert (cat_ok t3 lv) as Ht3 by (by eapply tree_ok_sim; [symmetry|]).
  apply wp_ret. rewrite (proj2 (Z.eqb_neq pos (-1))) by lia.
  apply wp_bind, wp_zoom. cbn [fst snd]. eapply wp_mono.
  { by apply (wp_get_btree_record N max_record_len cmpfn (cat_key_ok fold) t3 lv h pos q x). }
  intros [r|e|] t4 H; [|done|done]. destruct H as [-> ->].
  assert (x ∈ elements lv) as Hin by (by eapply list_elem_of_lookup_2).
  destruct (Z.eqb_spec (cmpfn (cattree_search_key parent name) x) 0) as [E|E]; cbn [negb].
  - apply wp_modify, wp_ret. cbn [fst snd]. split; [by rewrite S3, S2|]. split; [by intros []%C1; apply C3, C2|].
    split; [done|]. split; [done|]. exists x. split; [|split; [done|by exists q]].
    eapply found_entry; [done|done|]. by eapply cmp_name.
  - apply wp_bind, wp_zoom. cbn [fst snd]. apply (wp_mono _ _ (fun r t' => r = Ok tt /\ t' = t3)).
    { unfold emmcfs_put_bnode, __put_bnode. rewrite andb_false_r. by apply wp_ret. }
    intros r t5 [-> ->]. apply wp_modify, wp_fail. cbn [fst snd]. split; [by rewrite S3, S2|].
    intros Hc. split; [by apply C3, C2, C1|]. split; [done|]. split; [|done]. apply Hno. intros E'. by apply E, (cmp_name t lv x parent name).
Qed.
(** [emmcfs_get_from_cattree] gives the record of the inode's name, whether
    the hint is right, out of date or not set: the hint saves the search and
    changes nothing else.  Afterwards the hint is the place that was found,
    and no place if there is none. *)
Theorem emmcfs_get_from_cattree_correct t lv parent name rw b :
  cat_ok t lv -> hint_ok t lv b -> 0 <= parent < 2 ^ 31 -> name_ok fold name ->
  match emmcfs_get_from_cattree cmpfn mounted beyond grow parent name rw (b, t) with
  | (Ok (h, pos), (b', t')) => t' ≈ t /\ b' = Hint (h_id h) pos /\
      exists x, catalog (elements lv) !! place_of parent name = Some x /\ record_at t' h pos = Some x
  | (Err e, (b', t')) => t' ≈ t /\
      (calm t -> e = - ENOENT /\ catalog (elements lv) !! place_of parent name = None /\ b' = Hint 0 (-1))
  | (Bug, _) => ~ calm t
  end.
Proof using HN.
  intros Ht Hb Hp Hn. pose proof (wp_get_from_cattree t lv parent name rw b Ht Hb Hp Hn) as H. unfold wp in H.
  destruct (emmcfs_get_from_cattree _ _ _ _ _ _ _ _) as [[[h pos]|e|] [b' t']]; [| |done].
  - destruct H as (H1 & _ & _ & H2 & x & H3 & H4 & _). do 2 (split; [done|]). by exists x.
  - destruct H as [H1 H2]. split; [done|]. by intros (_ & ?)%H2.
Qed.
End properties.

(** ** A catalog of one directory *)

(** The root directory has the names "a" and "d". *)
Definition example_recs : list record := [entry 0 [114; 111; 111; 116] 76 []; entry 1 [97] 76 []; entry 1 [100] 76 []].
Definition example_catalog : btree := one_leaf example_recs.
Definition example_file : inode := Inode 12 S_IFREG 0 0 0 0 (ForkInfo 0 0 0 blank_extents 0).
Definition example_attributes : attributes := Attributes 0 0 0 1 (0, 0) (0, 0) (0, 0) INVALID_HLINK_ID.
Abbreviation same := (fun c : Z => c).
Abbreviation example_add := (emmcfs_add_new_cattree_object 4096 479 0 emmcfs_cattree_cmpfn true (fun _ => false) Z.max 12
  example_file example_attributes).
Abbreviation example_find := (emmcfs_cattree_find emmcfs_cattree_cmpfn true (fun _ => false) Z.max).

Lemma ascii_name_ok name : forallb (fun c => (0 <=? c) && (c <? 128)) name = true -> (length name <= 255)%nat -> name_ok same name.
Proof.
  intros H Hn. constructor; [unfold EMMCFS_UNICODE_STRING_MAX_LEN; lia|].
  apply Forall_forall. intros c Hc. unfold plain. rewrite forallb_forall in H.
  specialize (H c (proj1 (list_elem_of_In _ _) Hc)). lia.
Qed.

Lemma example_entry_valid parent name : 0 <= parent < 2 ^ 31 -> name_ok same name ->
  rec_valid 479 (cat_key_ok same) (entry parent name 76 []).
Proof.
  intros Hp Hn. destruct (entry_fields same parent name 76 [] Hp Hn) as (E1 & _ & E3 & E4 & E5); [simpl; lia|].
  pose proof (nk_len _ _ Hn) as Hl. unfold EMMCFS_UNICODE_STRING_MAX_LEN in Hl. constructor; [done|lia|lia|done].
Qed.

Lemma example_catalog_ok : tree_ok 4096 479 (cattree_cmp same) (cat_key_ok same) example_catalog [[(1, example_recs)]].
Proof.
  apply one_leaf_ok; [done|by vm_compute| |].
  - repeat (apply Forall_cons; split; [apply example_entry_valid; [lia|by apply ascii_name_ok; [vm_compute|simpl; lia]]|]). done.
  - repeat (apply SSorted_cons; split; [|repeat (apply Forall_cons; split; [by vm_compute|]); done]). constructor.
Qed.

Lemma example_can_add : can_add 4096 479 same example_catalog [[(1, example_recs)]] example_file 1 [98].
Proof.
  constructor.
  - exact example_catalog_ok.
  - constructor.
  - by vm_compute.
  - by vm_compute.
  - lia.
  - by apply ascii_name_ok; [vm_compute|simpl; lia].
  - by vm_compute.
  - by vm_compute.
  - by vm_compute.
Qed.

Lemma emmcfs_cattree_find_correct_witness :
  exists h pos t', example_find None 1 [100] false example_catalog = (Ok (h, pos), t') /\
    record_at t' h pos = Some (entry 1 [100] 76 []).
Proof.
  pose proof (emmcfs_cattree_find_correct 4096 479 same true (fun _ => false) Z.max ltac:(unfold node_size_ok; lia)
    example_catalog _ 1 [100] false example_catalog_ok ltac:(lia) ltac:(by apply ascii_name_ok; [vm_compute|simpl; lia])) as W.
  change (emmcfs_cattree_find (cattree_cmp same)) with (emmcfs_cattree_find emmcfs_cattree_cmpfn) in W.
  destruct (example_find None 1 [100] false example_catalog) as [[[h pos]|e|] t'] eqn:E.
  - exists h, pos, t'. split; [done|]. destruct W as (_ & x & Hx & Hat). rewrite Hat. rewrite <- Hx. by vm_compute.
  - exfalso. apply (f_equal fst) in E. vm_compute in E. discriminate.
  - exfalso. apply (proj1 W). constructor.
Defined.

Lemma emmcfs_add_new_cattree_object_correct_witness :
  exists t' lv', example_add 1 [98] example_catalog = (Ok tt, t') /\
    catalog same (elements lv') = <[(1, [98]) := new_entry 12 example_file example_attributes 1 [98]]>
      (catalog same (elements [[(1, example_recs)]])).
Proof.
  pose proof (emmcfs_add_new_cattree_object_correct 4096 479 0 same true (fun _ => false) Z.max 12
    ltac:(unfold node_size_ok; lia) ltac:(by vm_compute) ltac:(by vm_compute)
    example_catalog _ example_file example_attributes 1 [98] example_can_add) as W.
  change (emmcfs_add_new_cattree_object 4096 479 0 (cattree_cmp same)) with
    (emmcfs_add_new_cattree_object 4096 479 0 emmcfs_cattree_cmpfn) in W.
  destruct (example_add 1 [98] example_catalog) as [r t'].
  assert (catalog same (elements [[(1, example_recs)]]) !! place_of same 1 [98] = None) as Hno by (by vm_compute).
  rewrite Hno in W. destruct W as (-> & lv' & _ & W).
  exists t', lv'. split; [reflexivity|exact W].
Defined.

Lemma add_find_roundtrip_witness :
  exists t1 t2 h pos, example_add 1 [98] example_catalog = (Ok tt, t1) /\ example_find None 1 [98] false t1 = (Ok (h, pos), t2) /\
    record_at t2 h pos = Some (new_entry 12 example_file example_attributes 1 [98]).
Proof.
  apply (add_find_roundtrip 4096 479 0 same true (fun _ => false) Z.max 12
    ltac:(unfold node_size_ok; lia) ltac:(by vm_compute) ltac:(by vm_compute)
    example_catalog _ example_file example_attributes 1 [98] false example_can_add).
  by vm_compute.
Defined.

Lemma emmcfs_find_first_catalog_child_correct_witness :
  exists h pos t', emmcfs_find_first_catalog_child emmcfs_cattree_cmpfn true (fun _ => false) Z.max 1 example_catalog =
    (Ok (h, pos), t') /\ record_at t' h pos = Some (entry 1 [97] 76 []).
Proof.
  pose proof (emmcfs_find_first_catalog_child_correct 4096 479 same true (fun _ => false) Z.max ltac:(unfold node_size_ok; lia)
    example_catalog _ 1 example_catalog_ok ltac:(lia)) as W.
  change (emmcfs_find_first_catalog_child (cattree_cmp same)) with (emmcfs_find_first_catalog_child emmcfs_cattree_cmpfn) in W.
  destruct (emmcfs_find_first_catalog_child _ _ _ _ 1 example_catalog) as [[[h pos]|e|] t'] eqn:E.
  - exists h, pos, t'. split; [done|]. destruct W as (_ & x & Hx & Hat). rewrite Hat. rewrite <- Hx. by vm_compute.
  - exfalso. apply (f_equal fst) in E. vm_compute in E. discriminate.
  - exfalso. apply W. constructor.
Defined.

(** A hint that is out of date: the record is at the position 1. *)
Lemma emmcfs_get_from_cattree_correct_witness :
  exists h t', emmcfs_get_from_cattree emmcfs_cattree_cmpfn true (fun _ => false) Z.max 1 [97] true (Hint 1 2, example_catalog) =
    (Ok (h, 1), (Hint 1 1, t')) /\ record_at t' h 1 = Some (entry 1 [97] 76 []).
Proof.
  pose proof (emmcfs_get_from_cattree_correct 4096 479 same true (fun _ => false) Z.max ltac:(unfold node_size_ok; lia)
    example_catalog _ 1 [97] true (Hint 1 2) example_catalog_ok ltac:(by right; left; apply list_elem_of_singleton) ltac:(lia)
    ltac:(by apply ascii_name_ok; [vm_compute|simpl; lia])) as W.
  change (emmcfs_get_from_cattree (cattree_cmp same)) with (emmcfs_get_from_cattree emmcfs_cattree_cmpfn) in W.
  destruct (emmcfs_get_from_cattree _ _ _ _ 1 [97] true _) as [[[h pos]|e|] [b' t']] eqn:E.
  - assert (h_id h = 1 /\ pos = 1) as [Eh ->] by (apply (f_equal fst) in E; vm_compute in E; by injection E as <- <-).
    destruct W as (_ & -> & x & Hx & Hat). rewrite Eh in *. exists h, t'. split; [done|]. rewrite Hat, <- Hx. by vm_compute.
  - exfalso. apply (f_equal fst) in E. vm_compute in E. discriminate.
  - exfalso. apply W. constructor.
Defined.

(** ** Where the order fails *)

(** The difference of two characters is cut to a signed byte, so the order
    of the names is not one: "1" is before "d", "d" before the letter e with
    acute in UTF-8 (195, 169), and that before "1".  The three names are added to a
    directory with success, and the first of them is not found again.  The
    difference of two parents is cut to an [int]: directories whose numbers
    differ by 2^32 compare as one. *)
Theorem non_ascii_names_are_lost :
  let cmp x y := emmcfs_cattree_cmpfn (name_key 1 x) (name_key 1 y) in
  let t0 := one_leaf [entry 0 [114; 111; 111; 116] 76 []] in
  let '(r1, t1) := example_add 1 [49] t0 in
  let '(r2, t2) := example_add 1 [100] t1 in
  let '(r3, t3) := example_add 1 [195; 169] t2 in
  cmp [49] [100] < 0 /\ cmp [100] [195; 169] < 0 /\ cmp [195; 169] [49] < 0 /\
  r1 = Ok tt /\ r2 = Ok tt /\ r3 = Ok tt /\ fst (example_find None 1 [49] false t3) = Err (- ENOENT) /\
  emmcfs_cattree_cmpfn (name_key 1 [49]) (name_key (1 + 2 ^ 32) [49]) = 0.
Proof. by vm_compute. Qed.
