(* ===== verification/Vfs.v ===== *)
(** * The mounted volume and its inodes (inode.c, super.c)

    What the operations of the VFS share: the inodes in memory, the catalog
    with its lock, the numbers, the data of the hard links, the blocks, and the
    transaction of the task.  The transfer of an inode between memory and the
    catalog: [emmcfs_write_inode_to_bnode], [emmcfs_read_inode],
    [emmcfs_iget].

    Inodes are known by their numbers: the map [icache] is the inode cache of
    the kernel, so two users of a number see the same inode.  References are
    not counted. *)

From S2P Require Import Prelude Monad Data FsmBtree FsmAlloc Fsm Blocks BnodeBytes BnodeRepr BnodePool Btree.
From S2P Require Import Exttree Fork InodeIds Truncate Cattree.
Open Scope Z_scope.

Definition ENOTDIR : Z := 20.
Definition EMMCFS_ROOT_INO : Z := 1.
Definition EMMCFS_FREE_INODE_BITMAP_INO : Z := 6.
Definition EMMCFS_HARDLINKS_AREA_INO : Z := 7.
Definition EMMCFS_ROOTDIR_OBJ_ID : Z := 0.
Definition EMMCFS_ROOTDIR_NAME : list Z := [114; 111; 111; 116].
Definition EMMCFS_CAT_MAX_NAME : Z := 255.

(** ** State *)

(** [struct inode] with [struct emmcfs_inode_info]; the name is a null pointer
    for a hard link. *)
Record vfs_inode := VfsInode {
  v_inode : inode;
  v_attr : attributes;
  v_parent : Z;
  v_name : option (list Z);
  v_hint : bnode_hint
}.

(** The lock of the catalog tree ([rw_tree_lock], a semaphore of
    mutex_on_sem.h) as the one task of the model holds it.  A task that waits
    for itself is [Deadlocked]. *)
Inductive lock_state := Unlocked | ReadLocked (n : nat) | WriteLocked | Deadlocked.

#[export] Instance file_type_eq_dec : EqDecision file_type.
Proof. solve_decision. Defined.

#[export] Instance lock_state_eq_dec : EqDecision lock_state.
Proof. solve_decision. Defined.

Record fs (A : Type) := Fs {
  icache : gmap Z vfs_inode;
  catalog_tree : btree;
  tree_lock : lock_state;
  nesting : nat;
  free_inode_bitmap : id_map;
  hard_links : id_map;
  hlink_pages : gmap Z (list Z);
  volume : btree * A;
  files_count : Z;
  ticks : nat
}.
Arguments Fs {A}.
Arguments icache {A}.
Arguments catalog_tree {A}.
Arguments tree_lock {A}.
Arguments nesting {A}.
Arguments free_inode_bitmap {A}.
Arguments hard_links {A}.
Arguments hlink_pages {A}.
Arguments volume {A}.
Arguments files_count {A}.
Arguments ticks {A}.

Section state.
Context {A : Type}.
Implicit Types (s : fs A).

Definition set_icache c s : fs A := Fs c (catalog_tree s) (tree_lock s) (nesting s) (free_inode_bitmap s)
  (hard_links s) (hlink_pages s) (volume s) (files_count s) (ticks s).
Definition set_catalog t s : fs A := Fs (icache s) t (tree_lock s) (nesting s) (free_inode_bitmap s)
  (hard_links s) (hlink_pages s) (volume s) (files_count s) (ticks s).
Definition set_lock l n s : fs A := Fs (icache s) (catalog_tree s) l n (free_inode_bitmap s)
  (hard_links s) (hlink_pages s) (volume s) (files_count s) (ticks s).
Definition set_inums m s : fs A := Fs (icache s) (catalog_tree s) (tree_lock s) (nesting s) m
  (hard_links s) (hlink_pages s) (volume s) (files_count s) (ticks s).
Definition set_links m s : fs A := Fs (icache s) (catalog_tree s) (tree_lock s) (nesting s) (free_inode_bitmap s)
  m (hlink_pages s) (volume s) (files_count s) (ticks s).
Definition set_link_pages p s : fs A := Fs (icache s) (catalog_tree s) (tree_lock s) (nesting s) (free_inode_bitmap s)
  (hard_links s) p (volume s) (files_count s) (ticks s).
Definition set_volume v s : fs A := Fs (icache s) (catalog_tree s) (tree_lock s) (nesting s) (free_inode_bitmap s)
  (hard_links s) (hlink_pages s) v (files_count s) (ticks s).
Definition set_counts n k s : fs A := Fs (icache s) (catalog_tree s) (tree_lock s) (nesting s) (free_inode_bitmap s)
  (hard_links s) (hlink_pages s) (volume s) n k.

(** ** Computations on the parts of the state *)
Abbreviation F := (St (fs A)).
Definition in_cat {X} (x : M X) : F X := zoom catalog_tree set_catalog x.
Definition in_inums {X} (x : St id_map X) : F X := zoom free_inode_bitmap set_inums x.
Definition in_links {X} (x : St id_map X) : F X := zoom hard_links set_links x.

(** An inode, which exists as long as a caller has its pointer. *)
Definition inode_of (n : Z) : F vfs_inode :=
  do c <- gets icache;
  match c !! n with Some v => ret v | None => bug end.
Definition put_vfs (n : Z) (v : vfs_inode) : F unit := modify (fun s => set_icache (<[n := v]> (icache s)) s).
Definition change (n : Z) (f : vfs_inode -> vfs_inode) : F unit := do v <- inode_of n; put_vfs n (f v).

(** A computation on the hint of an inode and the tree. *)
Definition with_hint (b : bnode_hint) (v : vfs_inode) : vfs_inode :=
  VfsInode (v_inode v) (v_attr v) (v_parent v) (v_name v) b.
Definition in_hint {X} (n : Z) (x : St (bnode_hint * btree) X) : F X :=
  do v <- inode_of n;
  do t <- gets catalog_tree;
  let '(r, (b, t)) := x (v_hint v, t) in
  do_ put_vfs n (with_hint b v);
  do_ modify (set_catalog t);
  match r with Ok a => ret a | Err e => fail e | Bug => bug end.

(** ** Locks and transactions *)
Definition lock_to (next : lock_state -> option lock_state) : F unit := fun s =>
  match next (tree_lock s) with
  | Some l => (Ok tt, set_lock l (nesting s) s)
  | None => (Bug, set_lock Deadlocked (nesting s) s)
  end.
Definition mutex_r_lock : F unit :=
  lock_to (fun l => match l with Unlocked => Some (ReadLocked 1) | ReadLocked n => Some (ReadLocked (S n)) | _ => None end).
Definition mutex_w_lock : F unit :=
  lock_to (fun l => match l with Unlocked => Some WriteLocked | _ => None end).

(** To give back a lock that is not held is an error of the program. *)
Definition unlock (next : lock_state -> option lock_state) : F unit := fun s =>
  match next (tree_lock s) with
  | Some l => (Ok tt, set_lock l (nesting s) s)
  | None => (Bug, s)
  end.
Definition mutex_r_unlock : F unit :=
  unlock (fun l => match l with ReadLocked 1 => Some Unlocked | ReadLocked (S n) => Some (ReadLocked n) | _ => None end).
Definition mutex_w_unlock : F unit :=
  unlock (fun l => match l with WriteLocked => Some Unlocked | _ => None end).

(** [EMMCFS_START_TRANSACTION], [EMMCFS_STOP_TRANSACTION]: the depth of the
    transactions of the task (Transaction.v). *)
Definition start_transaction : F unit := modify (fun s => set_lock (tree_lock s) (S (nesting s)) s).
Definition stop_transaction : F unit :=
  do n <- gets nesting;
  match n with O => bug | S n => modify (fun s => set_lock (tree_lock s) n s) end.
End state.

(** ** Values of the catalog *)

(** [get_value_pointer] *)
Definition value_of (r : record) : list Z := drop (Z.to_nat (key_len r)) r.
Definition field (n k : nat) (value : list Z) : Z := le_combine (take n (drop k value)).

(** The fields of [struct emmcfs_catalog_folder_record] and
    [struct emmcfs_catalog_hlink_record]. *)
Definition rec_type (value : list Z) : Z := field 2 0 value.
Definition total_items_count (value : list Z) : Z := field 8 6 value.
Definition links_count (value : list Z) : Z := field 8 14 value.
Definition val_object_id (value : list Z) : Z := field 8 22 value.
Definition file_mode (value : list Z) : Z := field 2 30 value.
Definition val_uid (value : list Z) : Z := field 4 32 value.
Definition val_gid (value : list Z) : Z := field 4 36 value.
Definition decode_date (k : nat) (value : list Z) : Z * Z := (s64 (field 8 k value), field 4 (k + 8) value).
Definition val_hlink_id (value : list Z) : Z := field 8 2 value.

Definition decode_extent (b : list Z) : extent_info := Extent (field 8 0 b) (field 4 8 b).
Definition decode_fork (b : list Z) : emmcfs_fork :=
  LayoutFork (field 1 0 b) (field 8 1 b) (field 4 9 b)
    (map (fun k => decode_extent (drop (13 + 12 * k) b)) (seq 0 (Z.to_nat EMMCFS_EXTENTS_COUNT_IN_FORK))).

(** The type in [i_mode]; a mode without one of the seven types is not
    represented. *)
Definition type_of_mode (mode : Z) : option file_type :=
  let ty := Z.land mode 0xF000 in
  if ty =? type_bits S_IFSOCK then Some S_IFSOCK
  else if ty =? type_bits S_IFLNK then Some S_IFLNK
  else if ty =? type_bits S_IFREG then Some S_IFREG
  else if ty =? type_bits S_IFBLK then Some S_IFBLK
  else if ty =? type_bits S_IFDIR then Some S_IFDIR
  else if ty =? type_bits S_IFCHR then Some S_IFCHR
  else if ty =? type_bits S_IFIFO then Some S_IFIFO
  else None.

(** [emmcfs_fill_cattree_value] over an old value, whose flags stay. *)
Definition refill (block_size_shift : Z) (v : vfs_inode) (old : list Z) : list Z :=
  let new := emmcfs_fill_cattree_value block_size_shift (v_inode v) (v_attr v) in
  take 2 new ++ take 4 (drop 2 old) ++ drop 6 new.

Section inodes.
(** What the B-tree leaves open (Btree.v), the comparison function of the
    volume and [block_size_shift]; the contents of the memory that the cache of
    inodes hands out; the forks in the extended super block. *)
Context (N max_record_len log_pages_per_node : Z) (cmpfn : record -> record -> Z) (mounted : bool)
  (beyond : Z -> bool) (grow : Z -> Z -> Z) (block_size_shift : Z).
Context {A : Type} (slab : vfs_inode) (exsb_fork : Z -> option emmcfs_fork) (lebs_bm_size : Z).
Abbreviation F := (St (fs A)).

(** ** Hard links *)
Definition blank_page : list Z := replicate 4096 0.

(** [get_hlink_value_page]: the page and the offset in it. *)
Definition get_hlink_value_page (id : Z) : F (Z * Z) :=
  do_ in_links kernel; ret (hlink_value_page id).
Definition hlink_value (place : Z * Z) : F (list Z) :=
  gets (fun s => drop (Z.to_nat (snd place)) (default blank_page (hlink_pages s !! fst place))).
Definition put_hlink_value (place : Z * Z) (value : list Z) : F unit :=
  modify (fun s => set_link_pages
    (<[fst place := write_at (Z.to_nat (snd place)) value (default blank_page (hlink_pages s !! fst place))]> (hlink_pages s)) s).

(** [get_params_on_hlink_id]: the object and the type of the record. *)
Definition get_params_on_hlink_id (id : Z) : F (Z * Z) :=
  do place <- get_hlink_value_page id;
  do value <- hlink_value place;
  ret (val_object_id value, rec_type value).

(** ** Writing *)

(** The value written into a record; behind the record is other memory. *)
Definition store_value (h : handle) (pos : Z) (v : vfs_inode) : M unit :=
  do r <- emmcfs_get_btree_record h pos;
  let new := refill block_size_shift v (value_of r) in
  if key_len r + Z.of_nat (length new) >? rlen r then bug
  else update h (fun n => set_recs n (<[Z.to_nat pos := write_at (Z.to_nat (key_len r)) new r]> (bn_recs n))).

Definition write_to_hlink (v : vfs_inode) : F unit :=
  do place <- get_hlink_value_page (hlink_id (v_attr v));
  do_ or_bug (in_links (journal_page mounted));
  do old <- hlink_value place;
  put_hlink_value place (refill block_size_shift v old).

Definition write_to_catalog (n : Z) (v : vfs_inode) : F unit :=
  match v_name v with
  | None => bug
  | Some name =>
    do '(h, pos) <- in_hint n (emmcfs_get_from_cattree cmpfn mounted beyond grow (v_parent v) name true);
    in_cat (do_ store_value h pos v; do_ emmcfs_mark_bnode_dirty h; emmcfs_put_bnode h)
  end.

Definition emmcfs_write_inode_to_bnode (n : Z) : F Z :=
  do v <- inode_of n;
  if ino (v_inode v) <? EMMCFS_1ST_FILE_INO then ret 0
  else
    do_ mutex_w_lock;
    do err <- code (if negb (hlink_id (v_attr v) =? INVALID_HLINK_ID) then write_to_hlink v else write_to_catalog n v);
    do_ mutex_w_unlock;
    ret err.

(** ** Reading *)

(** [emmcfs_alloc_inode], and what the kernel and [emmcfs_iget] set in a new
    inode.  The mode is 0 until a type is set; [S_IFSOCK] stands for it, the type
    that is asked for only where a record is written. *)
Definition emmcfs_alloc_inode (n : Z) : F vfs_inode :=
  do_ in_cat kmalloc;
  let f := i_fork (v_inode slab) in
  let a := v_attr slab in
  ret (VfsInode
    (Inode n S_IFSOCK 0 0 0 0 (ForkInfo 0 0 0 (fork_extents f) (used_extents f)))
    (Attributes 0 0 0 1 (ctime a) (mtime a) (atime a) (hlink_id a))
    (v_parent slab) None (Hint 0 (-1))).

(** The fields of the inode from a value. *)
Definition from_value (n : Z) (value : list Z) (v : vfs_inode) (hlink : Z) : option vfs_inode :=
  match type_of_mode (file_mode value) with
  | None => None
  | Some ty =>
    let i := v_inode v in
    let nlink := if n =? EMMCFS_ROOT_INO then 1 else u32 (links_count value) in
    Some (VfsInode (Inode (ino i) ty (i_size i) (i_rdev i) (i_blocks i) (i_bytes i) (i_fork i))
      (Attributes (Z.land (file_mode value) 0xFFF) (val_uid value) (val_gid value) nlink
        (decode_date 40 value) (decode_date 52 value) (decode_date 64 value) hlink)
      (v_parent v) (v_name v) (v_hint v))
  end.

(** The contents: a fork or the number of names of a directory. *)
Definition contents_of (rec_type : Z) (value : list Z) (v : vfs_inode) : F (Z * vfs_inode) :=
  let with_inode i := VfsInode i (v_attr v) (v_parent v) (v_name v) (v_hint v) in
  if negb (Z.land rec_type EMMCFS_CATALOG_FILE_RECORD =? 0) then
    let '(err, i) := emmcfs_parse_fork block_size_shift (v_inode v) (Some (decode_fork (drop 76 value))) in
    ret (err, with_inode i)
  else
    do_ BUG_ON (negb (rec_type =? EMMCFS_CATALOG_FOLDER_RECORD));
    ret (0, with_inode (set_i_size (v_inode v) (s64 (total_items_count value)))).

(** [emmcfs_read_inode] behind the search: the code and the inode.  A failed
    allocation of the name leaves the code at 0. *)
Definition read_record (n : Z) (v : vfs_inode) (r : record) : F (Z * vfs_inode) :=
  let comm_val := value_of r in
  do '(value, type, hlink) <-
    (if rec_type comm_val =? EMMCFS_CATALOG_HLINK_RECORD then
       do place <- get_hlink_value_page (val_hlink_id comm_val);
       do value <- hlink_value place;
       ret (value, rec_type value, val_hlink_id comm_val)
     else ret (comm_val, rec_type comm_val, INVALID_HLINK_ID));
  do name <- (if hlink =? INVALID_HLINK_ID then
                do k <- try (in_cat kmalloc);
                match k with
                | Ok _ => ret (Some (Some (take (Z.to_nat (Z.min (name_length r) EMMCFS_CAT_MAX_NAME)) (name_chars r))))
                | _ => ret None
                end
              else ret (Some None));
  match name with
  | None => ret (0, v)
  | Some name =>
    let v := match name with
             | Some _ => VfsInode (v_inode v) (v_attr v) (parent_id r) name (v_hint v)
             | None => v
             end in
    match from_value n value v hlink with
    | Some v => contents_of type value v
    | None => bug
    end
  end.

Definition get_root_folder (fd_bnode : option handle) : M (handle * Z) :=
  emmcfs_cattree_find cmpfn mounted beyond grow fd_bnode EMMCFS_ROOTDIR_OBJ_ID EMMCFS_ROOTDIR_NAME false.

Definition emmcfs_read_inode (n : Z) (v : vfs_inode) (fd : option (handle * Z)) : F (Z * vfs_inode) :=
  do '(h, pos) <- (if n =? EMMCFS_ROOT_INO then in_cat (get_root_folder (option_map fst fd))
                   else match fd with Some hp => ret hp | None => bug end);
  let v := VfsInode (v_inode v) (v_attr v) (v_parent v) (v_name v) (Hint (h_id h) pos) in
  do r <- try (in_cat (emmcfs_get_btree_record h pos));
  let put := if n =? EMMCFS_ROOT_INO then in_cat (emmcfs_put_bnode h) else ret tt in
  match r with
  | Ok r =>
    do res <- read_record n v r;
    do_ put;
    ret res
  | Err e => do_ put; ret (e, v)
  | Bug => bug
  end.

(** The inodes of the special files. *)
Definition read_special (n : Z) (v : vfs_inode) : Z * vfs_inode :=
  let v := if n =? EMMCFS_LEB_BITMAP_INO
           then VfsInode (set_i_size (v_inode v) lebs_bm_size) (v_attr v) (v_parent v) (v_name v) (v_hint v) else v in
  let '(err, i) := emmcfs_parse_fork block_size_shift (v_inode v) (exsb_fork n) in
  (err, VfsInode i (v_attr v) (v_parent v) (v_name v) (v_hint v)).

Definition is_special (n : Z) : bool :=
  (n =? EMMCFS_CAT_TREE_INO) || (n =? EMMCFS_LEB_BITMAP_INO) || (n =? EMMCFS_EXTENTS_TREE_INO) ||
  (n =? EMMCFS_FREE_INODE_BITMAP_INO) || (n =? EMMCFS_HARDLINKS_AREA_INO).

Definition set_hlink (id : Z) (v : vfs_inode) : vfs_inode :=
  let a := v_attr v in
  VfsInode (v_inode v) (Attributes (i_perm a) (i_uid a) (i_gid a) (i_nlink a) (ctime a) (mtime a) (atime a) id)
    (v_parent v) (v_name v) (v_hint v).

(** [emmcfs_iget]: afterwards the inode is in the cache. *)
Definition emmcfs_iget (n : Z) (find_data : option (handle * Z)) : F unit :=
  do_ (match find_data with None => in_cat kmalloc | Some _ => ret tt end);
  do c <- gets icache;
  if bool_decide (is_Some (c !! n)) then ret tt
  else
    do v <- emmcfs_alloc_inode n;
    do '(err, v) <- (if is_special n then ret (read_special n v)
                     else emmcfs_read_inode n v find_data);
    if negb (err =? 0) then fail err
    else put_vfs n (if n <? EMMCFS_1ST_FILE_INO then set_hlink INVALID_HLINK_ID v else v).
End inodes.
