(* ===== verification/VfsProofs.v ===== *)
(** * Inodes in the catalog

    The bytes of an inode in its record: what [emmcfs_write_inode_to_bnode]
    writes, [emmcfs_read_inode] reads.  The rules for the computations on the
    mounted volume, and for the transfer of an inode to its record. *)

From S2P Require Import Prelude Monad Data FsmBtree FsmAlloc Fsm Blocks BnodeBytes BnodeRepr BnodePool BnodePoolProofs.
From S2P Require Import Btree BtreeInv BtreeFind BtreeInsert BtreeSpec Exttree Fork ForkProofs ForkTheorems InodeIds Truncate.
From S2P Require Import Cattree CattreeProofs CattreeTheorems Vfs.
Open Scope Z_scope.

(** ** Rules for the parts of the state *)
Section rules.
Context {A : Type}.
Abbreviation F := (St (fs A)).
Implicit Types (s : fs A).

Lemma wp_in_cat {X Y} (x : M X) (f : X -> F Y) s (P : X -> btree -> Prop) Q : wp x (catalog_tree s) (ok P) ->
  (forall a t, P a t -> wp (f a) (set_catalog t s) Q) -> wp (bind (in_cat x) f) s Q.
Proof using.
  intros Hx Hf. eapply (wp_seq _ _ _ (fun a s' => exists t, s' = set_catalog t s /\ P a t)).
  - apply wp_zoom. eapply wp_mono; [exact Hx|]. intros [a|e|] t H; [by exists t|done|done].
  - intros a s' (t & -> & Ht). by apply Hf.
Qed.

Lemma wp_try_kmalloc {Y} (f : outcome unit -> F Y) s Q : calm (catalog_tree s) ->
  (forall t, t ≈ catalog_tree s -> calm t -> wp (f (Ok tt)) (set_catalog t s) Q) -> wp (bind (try (in_cat kmalloc)) f) s Q.
Proof using.
  intros Hc Hf. eapply (wp_try_ok _ _ _ (fun _ s' => exists t, s' = set_catalog t s /\ t ≈ catalog_tree s /\ calm t)).
  - apply wp_zoom. apply wp_kmalloc_ok; [done|]. intros t S C. by exists t.
  - intros [] s' (t & -> & S & C). by apply Hf.
Qed.

Lemma wp_inode_of {Y} n v (f : vfs_inode -> F Y) s Q : icache s !! n = Some v -> wp (f v) s Q -> wp (bind (inode_of n) f) s Q.
Proof using. intros Hv Hf. unfold wp, inode_of, bind, gets in *. by rewrite Hv. Qed.

Lemma wp_code {T Y} (x : St T unit) (f : Z -> St T Y) (t : T) Q :
  wp x t (fun r t' => match r with Ok _ => wp (f 0) t' Q | Err e => wp (f e) t' Q | Bug => Q Bug t' end) ->
  wp (bind (code x) f) t Q.
Proof using. unfold wp, code, bind, try. by destruct (x t) as [[[]|e|] t']. Qed.

Lemma wp_w_lock {Y} (f : unit -> F Y) s Q : tree_lock s = Unlocked ->
  wp (f tt) (set_lock WriteLocked (nesting s) s) Q -> wp (bind mutex_w_lock f) s Q.
Proof using. intros El Hf. unfold wp, mutex_w_lock, lock_to, bind in *. by rewrite El. Qed.

Lemma wp_w_unlock {Y} (f : unit -> F Y) s Q : tree_lock s = WriteLocked ->
  wp (f tt) (set_lock Unlocked (nesting s) s) Q -> wp (bind mutex_w_unlock f) s Q.
Proof using. intros El Hf. unfold wp, mutex_w_unlock, unlock, bind in *. by rewrite El. Qed.

(** A computation on the hint of an inode and the tree. *)
Lemma wp_in_hint {X Y} n v (x : St (bnode_hint * btree) X) (f : X -> F Y) s (P : X -> bnode_hint * btree -> Prop) Q :
  icache s !! n = Some v -> wp x (v_hint v, catalog_tree s) (ok P) ->
  (forall a b t, P a (b, t) ->
     wp (f a) (set_catalog t (set_icache (<[n := with_hint b v]> (icache s)) s)) Q) ->
  wp (bind (in_hint n x) f) s Q.
Proof using.
  intros Hv Hx Hf. apply wp_bind. unfold in_hint. apply (wp_inode_of n v); [done|]. apply wp_gets.
  unfold wp in Hx. destruct (x (v_hint v, catalog_tree s)) as [[a|e|] [b t]]; [|done|done].
  unfold put_vfs. apply wp_modify, wp_modify, wp_ret. by apply Hf.
Qed.
End rules.

(** ** The bytes of a value *)
Lemma field_skip n k l (r : list Z) : (length l <= k)%nat -> field n k (l ++ r) = field n (k - length l) r.
Proof. intros H. unfold field. rewrite drop_app, drop_ge by lia. done. Qed.

Lemma field_here n x (r : list Z) : 0 <= x < 256 ^ Z.of_nat n -> field n 0 (le_split n x ++ r) = x.
Proof.
  intros Hx. unfold field. rewrite drop_0, take_app_length' by (by rewrite length_le_split).
  by apply le_combine_split_small.
Qed.

Lemma field_last n x : 0 <= x < 256 ^ Z.of_nat n -> field n 0 (le_split n x) = x.
Proof. intros Hx. by rewrite <- (app_nil_r (le_split n x)), field_here. Qed.

Ltac skip_field :=
  rewrite field_skip by (rewrite ?length_le_split; simpl; lia);
  rewrite length_le_split; cbn [Nat.sub].

(** The parts of a mode, for all 4096 permissions. *)
Definition mode_ok (ty : file_type) (perm : Z) : bool :=
  let mode := Z.lor (type_bits ty) perm in
  (0 <=? mode) && (mode <? 2 ^ 16) && bool_decide (type_of_mode mode = Some ty) && (Z.land mode 0xFFF =? perm).

Lemma mode_parts ty perm : 0 <= perm < 2 ^ 12 ->
  let mode := Z.lor (type_bits ty) perm in
  0 <= mode < 2 ^ 16 /\ type_of_mode mode = Some ty /\ Z.land mode 0xFFF = perm.
Proof.
  intros Hp mode.
  assert (forallb (mode_ok ty) (seqZ 0 4096) = true) as H by (destruct ty; by vm_compute).
  rewrite forallb_forall in H. specialize (H perm (proj1 (list_elem_of_In _ _) (proj2 (elem_of_seqZ 0 4096 perm) ltac:(lia)))).
  unfold mode_ok in H. rewrite !andb_true_iff, bool_decide_eq_true in H. fold mode in H. destruct H as [[[H1 H2] H3] H4]; split; [lia|]; split; [done|lia].
Qed.

(** A signed number, stored and read back. *)
Lemma swrap_uwrap w x : 0 <= w -> swrap w (uwrap w x) = swrap w x.
Proof. intros Hw. unfold swrap, uwrap. by rewrite Z.add_mod_idemp_l by lia. Qed.

Section values.
Context (block_size_shift : Z).
Abbreviation fill := (emmcfs_fill_cattree_value block_size_shift).
Abbreviation refill := (refill block_size_shift).

(** The bytes behind the flags. *)
Definition body_of (i : inode) (at_ : attributes) : list Z :=
  le_split 8 (u64 (i_size i)) ++ le_split 8 (i_nlink at_) ++ le_split 8 (ino i) ++
  le_split 2 (Z.lor (type_bits (i_mode i)) (i_perm at_)) ++ le_split 4 (i_uid at_) ++ le_split 4 (i_gid at_) ++
  encode_date (ctime at_) ++ encode_date (mtime at_) ++ encode_date (atime at_) ++
  (if negb (Z.land (get_record_type_on_mode (i_mode i)) EMMCFS_CATALOG_FILE_RECORD =? 0)
   then encode_fork (emmcfs_form_fork block_size_shift i) else []).

Lemma refill_split v old : (6 <= length old)%nat ->
  refill v old = le_split 2 (get_record_type_on_mode (i_mode (v_inode v))) ++ take 4 (drop 2 old) ++
    body_of (v_inode v) (v_attr v).
Proof using.
  intros Hold. unfold Vfs.refill, emmcfs_fill_cattree_value.
  by rewrite take_app_length' by (by rewrite length_le_split).
Qed.

(** A fork with its nine extents. *)
Definition fork_shape (f : fork_info) : Prop :=
  length (fork_extents f) = 9%nat /\ 0 <= used_extents f <= EMMCFS_EXTENTS_COUNT_IN_FORK.

Lemma form_fork_length i : fork_shape (i_fork i) -> length (layout_extents (emmcfs_form_fork block_size_shift i)) = 9%nat.
Proof using.
  unfold fork_shape, EMMCFS_EXTENTS_COUNT_IN_FORK. intros [Hl Hu]. unfold emmcfs_form_fork. destruct (is_device i); [done|].
  cbn [layout_extents]. rewrite length_app, length_take, length_drop. unfold blank_extents. rewrite length_replicate, Hl.
  change (Z.to_nat EMMCFS_EXTENTS_COUNT_IN_FORK) with 9%nat. lia.
Qed.

Lemma refill_length v old : (6 <= length old)%nat -> fork_shape (i_fork (v_inode v)) ->
  Z.of_nat (length (refill v old)) = value_len (get_record_type_on_mode (i_mode (v_inode v))).
Proof using.
  intros Hold Hf. rewrite refill_split by done. unfold body_of, encode_date.
  pose proof (form_fork_length (v_inode v) Hf) as Hl.
  rewrite !length_app, !length_le_split, length_take, length_drop.
  destruct (i_mode (v_inode v)); cbn [get_record_type_on_mode];
    match goal with |- context [negb ?b] => let v := eval vm_compute in (negb b) in change (negb b) with v end;
    match goal with |- context [value_len ?b] => let v := eval vm_compute in (value_len b) in change (value_len b) with v end;
    cbn match; try (simpl length; lia); unfold encode_fork;
    rewrite !length_app, !length_le_split, encode_extents_length, Hl; lia.
Qed.

(** ** Reading a value *)
Definition extent_fits (e : extent_info) : Prop := 0 <= first_block e < 2 ^ 64 /\ 0 <= block_count e < 2 ^ 32.

Lemma decode_extents es rest : Forall extent_fits es ->
  map (fun k => decode_extent (drop (12 * k) (concat (map encode_extent es) ++ rest))) (seq 0 (length es)) = es.
Proof using.
  induction 1 as [|e es [H1 H2] _ IH]; [done|]. cbn [length seq map concat]. rewrite <- app_assoc. f_equal.
  - rewrite Nat.mul_0_r, drop_0. unfold decode_extent, encode_extent. rewrite <- app_assoc.
    rewrite field_here by done. skip_field. rewrite field_here by done. by destruct e.
  - rewrite <- seq_shift, map_map. etrans; [|exact IH]. apply map_ext. intros k.
    rewrite drop_app_ge by (unfold encode_extent; rewrite length_app, !length_le_split; lia).
    do 2 f_equal. unfold encode_extent. rewrite length_app, !length_le_split. lia.
Qed.

Lemma decode_encode_fork f rest : 0 <= fork_magic f < 2 ^ 8 -> 0 <= size_in_bytes f < 2 ^ 64 ->
  0 <= total_blocks_count f < 2 ^ 32 -> length (layout_extents f) = 9%nat -> Forall extent_fits (layout_extents f) ->
  decode_fork (encode_fork f ++ rest) = f.
Proof using.
  intros H1 H2 H3 Hl He. unfold decode_fork, encode_fork. rewrite <- !app_assoc.
  rewrite field_here by done. skip_field. rewrite field_here by done. do 2 skip_field. rewrite field_here by done.
  destruct f as [magic size total es]. cbn [fork_magic size_in_bytes total_blocks_count layout_extents] in *. f_equal.
  etrans; [|exact (decode_extents es rest He)]. rewrite Hl. change (Z.to_nat EMMCFS_EXTENTS_COUNT_IN_FORK) with 9%nat.
  by apply map_ext.
Qed.

(** What an inode must be for its record to have room for it: numbers in their
    ranges. *)
Record inode_fits (v : vfs_inode) : Prop := {
  if_ino : 0 <= ino (v_inode v) < 2 ^ 64;
  if_size : 0 <= i_size (v_inode v) < 2 ^ 63;
  if_perm : 0 <= i_perm (v_attr v) < 2 ^ 12;
  if_uid : 0 <= i_uid (v_attr v) < 2 ^ 32;
  if_gid : 0 <= i_gid (v_attr v) < 2 ^ 32;
  if_nlink : 0 <= i_nlink (v_attr v) < 2 ^ 32;
  if_ctime : - 2 ^ 63 <= (ctime (v_attr v)).1 < 2 ^ 63 /\ 0 <= (ctime (v_attr v)).2 < 2 ^ 32;
  if_mtime : - 2 ^ 63 <= (mtime (v_attr v)).1 < 2 ^ 63 /\ 0 <= (mtime (v_attr v)).2 < 2 ^ 32;
  if_atime : - 2 ^ 63 <= (atime (v_attr v)).1 < 2 ^ 63 /\ 0 <= (atime (v_attr v)).2 < 2 ^ 32
}.

Lemma decode_encode_date k l d r : length l = k -> - 2 ^ 63 <= d.1 < 2 ^ 63 /\ 0 <= d.2 < 2 ^ 32 ->
  decode_date k (l ++ encode_date d ++ r) = d.
Proof using.
  intros Hk [H1 H2]. unfold decode_date, encode_date. rewrite <- app_assoc.
  rewrite (field_skip 8 k), (field_skip 4 (k + 8)) by lia. rewrite Hk, Nat.sub_diag.
  replace (k + 8 - k)%nat with 8%nat by lia.
  pose proof (uwrap_bound 64 d.1 ltac:(lia)). rewrite field_here by done. skip_field.
  rewrite (uwrap_small 32) by done. rewrite field_here by done. destruct d as [sec nsec]. cbn [fst snd] in *. f_equal.
  by rewrite swrap_uwrap, swrap_small.
Qed.

(** The record of [v]: what was written can be read, whatever follows it. *)
Lemma value_fields v old rest : (6 <= length old)%nat -> inode_fits v ->
  let value := refill v old ++ rest in
  rec_type value = get_record_type_on_mode (i_mode (v_inode v)) /\
  total_items_count value = u64 (i_size (v_inode v)) /\ links_count value = i_nlink (v_attr v) /\
  val_object_id value = ino (v_inode v) /\
  file_mode value = Z.lor (type_bits (i_mode (v_inode v))) (i_perm (v_attr v)) /\
  val_uid value = i_uid (v_attr v) /\ val_gid value = i_gid (v_attr v).
Proof using.
  intros Hold [H1 H2 H3 H4 H5 H6 _ _ _] value. subst value. rewrite refill_split by done. unfold body_of.
  destruct (mode_parts (i_mode (v_inode v)) (i_perm (v_attr v)) H3) as [Hm _].
  pose proof (uwrap_bound 64 (i_size (v_inode v)) ltac:(lia)) as Hs.
  set (pre := take 4 (drop 2 old)). assert (length pre = 4%nat) as Hpre by (unfold pre; rewrite length_take, length_drop; lia).
  rewrite <- !app_assoc.
  assert (forall n k b, (4 <= k)%nat -> field n k (pre ++ b) = field n (k - 4) b) as Hskip.
  { intros n k b Hk. rewrite field_skip by lia. by rewrite Hpre. }
  unfold rec_type, total_items_count, links_count, val_object_id, file_mode, val_uid, val_gid.
  split; [by rewrite field_here by (by destruct (i_mode (v_inode v)))|].
  split_and!; skip_field; rewrite Hskip by lia; cbn [Nat.sub]; repeat skip_field; (rewrite field_here; [done|simpl Z.of_nat; lia]).
Qed.

Lemma value_dates v old rest : (6 <= length old)%nat -> inode_fits v ->
  let value := refill v old ++ rest in
  decode_date 40 value = ctime (v_attr v) /\ decode_date 52 value = mtime (v_attr v) /\ decode_date 64 value = atime (v_attr v).
Proof using.
  intros Hold Hv value. subst value. rewrite refill_split by done. unfold body_of.
  set (pre := take 4 (drop 2 old)). assert (length pre = 4%nat) as Hpre by (unfold pre; rewrite length_take, length_drop; lia).
  set (i := v_inode v). set (a := v_attr v).
  match goal with |- context [decode_date 40 (?l ++ rest)] => set (value := l ++ rest) end.
  set (h := le_split 2 (get_record_type_on_mode (i_mode i)) ++ pre ++ le_split 8 (u64 (i_size i)) ++ le_split 8 (i_nlink a) ++
    le_split 8 (ino i) ++ le_split 2 (Z.lor (type_bits (i_mode i)) (i_perm a)) ++ le_split 4 (i_uid a) ++ le_split 4 (i_gid a)).
  set (fork := (if negb (Z.land (get_record_type_on_mode (i_mode i)) EMMCFS_CATALOG_FILE_RECORD =? 0)
     then encode_fork (emmcfs_form_fork block_size_shift i) else []) ++ rest).
  assert (value = h ++ encode_date (ctime a) ++ encode_date (mtime a) ++ encode_date (atime a) ++ fork) as ->.
  { subst value h fork. by rewrite <- !app_assoc. }
  assert (length h = 40%nat) as Hh by (unfold h; rewrite !length_app, !length_le_split, Hpre; done).
  assert (forall d, length (encode_date d) = 12%nat) as Hd by (intros; unfold encode_date; by rewrite length_app, !length_le_split).
  destruct Hv as [_ _ _ _ _ _ Hc Hm Ha]. split; [by apply decode_encode_date|]. rewrite app_assoc.
  split; [apply decode_encode_date; [by rewrite length_app, Hh, Hd|done]|]. rewrite app_assoc.
  apply decode_encode_date; [by rewrite !length_app, Hh, !Hd|done].
Qed.

(** Behind the common part is the fork. *)
Lemma value_fork v old rest : (6 <= length old)%nat ->
  drop 76 (refill v old ++ rest) =
    (if negb (Z.land (get_record_type_on_mode (i_mode (v_inode v))) EMMCFS_CATALOG_FILE_RECORD =? 0)
     then encode_fork (emmcfs_form_fork block_size_shift (v_inode v)) else []) ++ rest.
Proof using.
  intros Hold. rewrite refill_split by done. unfold body_of.
  set (pre := take 4 (drop 2 old)). assert (length pre = 4%nat) as Hpre by (unfold pre; rewrite length_take, length_drop; lia).
  match goal with |- context [if ?b then _ else _] => set (K := if b then encode_fork (emmcfs_form_fork block_size_shift (v_inode v)) else []) end.
  rewrite !app_assoc. rewrite <- (app_assoc _ K rest). apply drop_app_length'.
  unfold encode_date. rewrite !length_app, !length_le_split, Hpre. done.
Qed.

Lemma form_fork_fits i : 0 <= i_rdev i < 2 ^ 32 -> Forall extent_fits (fork_extents (i_fork i)) ->
  let f := emmcfs_form_fork block_size_shift i in
  0 <= fork_magic f < 2 ^ 8 /\ 0 <= size_in_bytes f < 2 ^ 64 /\ 0 <= total_blocks_count f < 2 ^ 32 /\
  Forall extent_fits (layout_extents f).
Proof using.
  intros Hr He f. assert (Forall extent_fits blank_extents) as Hb by (apply Forall_replicate; by split).
  unfold f, emmcfs_form_fork. destruct (is_device i); cbn [fork_magic size_in_bytes total_blocks_count layout_extents].
  - split; [done|]. split; [by apply uwrap_bound|]. split; [done|done].
  - split; [done|]. split; [by apply uwrap_bound|]. split; [by apply uwrap_bound|].
    apply Forall_app. split; [by apply Forall_take|by apply Forall_drop].
Qed.
End values.

(** ** The record of an inode *)
Section records.
Context (N max_record_len log_pages_per_node : Z) (fold : Z -> Z) (mounted : bool) (beyond : Z -> bool)
  (grow : Z -> Z -> Z) (block_size_shift : Z).
Context (HN : node_size_ok N).
Abbreviation cmpfn := (cattree_cmp fold).
Abbreviation cat_ok := (tree_ok N max_record_len cmpfn (cat_key_ok fold)).
Abbreviation catalog := (catalog fold).
Abbreviation refill := (refill block_size_shift).

(** The record [x] with the value of the inode. *)
Definition with_value (v : vfs_inode) (x : record) : record := write_at (Z.to_nat (key_len x)) (refill v (value_of x)) x.

(** A record with room for the value of the inode. *)
Definition has_room (v : vfs_inode) (x : record) : Prop :=
  record_ok x /\ key_len x + value_len (get_record_type_on_mode (i_mode (v_inode v))) <= rlen x.

Lemma value_len_min ty : 76 <= value_len (get_record_type_on_mode ty).
Proof using. destruct ty; by vm_compute. Qed.

Section with_value.
Context (v : vfs_inode) (x : record) (Hx : has_room v x) (Hf : fork_shape (i_fork (v_inode v))).

Lemma old_value_length : (76 <= length (value_of x))%nat.
Proof using Hx.
  destruct Hx as [[R1 R2] Hr]. pose proof (value_len_min (i_mode (v_inode v))). unfold value_of, rlen in *.
  rewrite length_drop. lia.
Qed.

Lemma new_value_length : Z.of_nat (length (refill v (value_of x))) = value_len (get_record_type_on_mode (i_mode (v_inode v))).
Proof using Hx Hf. apply refill_length; [pose proof old_value_length; lia|done]. Qed.

Lemma with_value_split : exists rest, with_value v x = take (Z.to_nat (key_len x)) x ++ refill v (value_of x) ++ rest /\
  rlen (with_value v x) = rlen x.
Proof using Hx Hf.
  destruct Hx as [[R1 R2] Hr]. pose proof new_value_length as Hl. unfold with_value, write_at, rlen in *. eexists. split; [done|].
  rewrite !length_app, length_take, length_drop. lia.
Qed.

Lemma with_value_key : same_key (with_value v x) x.
Proof using Hx Hf.
  destruct Hx as [[R1 R2] Hr]. destruct with_value_split as (rest & E & _).
  assert (length (take (Z.to_nat (key_len x)) x) = Z.to_nat (key_len x)) as Hl.
  { unfold rlen in *. rewrite length_take. lia. }
  assert (12 <= Z.to_nat (key_len x))%nat as HK by lia.
  assert (key_len (with_value v x) = key_len x) as Ek.
  { rewrite E. clear E. set (K := Z.to_nat (key_len x)) in *. clearbody K. unfold key_len. f_equal. rewrite drop_app_le by lia. rewrite take_app_le by (rewrite length_drop; lia).
    rewrite (take_drop_commute _ 4 4), (take_drop_commute x 4 4). f_equal. rewrite take_take. f_equal. lia. }
  split; [done|]. unfold key_bytes. by rewrite Ek, E, take_app_length'.
Qed.

Lemma with_value_ok : record_ok (with_value v x).
Proof using Hx Hf.
  destruct Hx as [[R1 R2] Hr]. destruct with_value_split as (rest & E & El). destruct with_value_key as [Ek _].
  constructor; rewrite ?Ek, El; [|done]. rewrite <- R1. rewrite E. clear E. unfold rlen in *.
  assert (12 <= Z.to_nat (key_len x) <= length x)%nat as HK by lia.
  set (K := Z.to_nat (key_len x)) in *. clearbody K. unfold record_len. f_equal.
  rewrite drop_app_le by (rewrite length_take; lia). rewrite take_app_le by (rewrite length_drop, length_take; lia).
  rewrite (take_drop_commute _ 4 8), (take_drop_commute x 4 8). f_equal. rewrite take_take. f_equal. lia.
Qed.

Lemma with_value_value : exists rest, value_of (with_value v x) = refill v (value_of x) ++ rest.
Proof using Hx Hf.
  destruct Hx as [[R1 R2] Hr]. destruct with_value_split as (rest & E & El). destruct with_value_key as [Ek _].
  exists rest. unfold value_of at 1. rewrite Ek, E. apply drop_app_length'. unfold rlen in *. rewrite length_take. lia.
Qed.
End with_value.

Lemma catalog_update l q x x' : l !! q = Some x -> key_of fold x' = key_of fold x -> NoDup (map (key_of fold) l) ->
  catalog (<[q := x']> l) = <[key_of fold x := x']> (catalog l).
Proof using.
  intros Hq Ek Hnd. assert (map (key_of fold) (<[q := x']> l) = map (key_of fold) l) as E.
  { change (map ?f ?l) with (f <$> l). rewrite list_fmap_insert, Ek. apply list_insert_id. by rewrite list_lookup_fmap, Hq. }
  apply map_eq. intros k. apply option_eq. intros r.
  rewrite catalog_Some by (by rewrite E). rewrite lookup_insert_Some, catalog_Some by done.
  pose proof (lookup_lt_Some _ _ _ Hq) as Hlt.
  assert (forall i y, l !! i = Some y -> key_of fold y = key_of fold x -> i = q) as Huniq.
  { intros i y Hy Ey. eapply (NoDup_lookup (map (key_of fold) l)); [done| |]; change (map ?f ?l) with (f <$> l);
      rewrite list_lookup_fmap; [by rewrite Hy|by rewrite Hq, Ey]. }
  split.
  - intros [(i & Hi)%list_elem_of_lookup <-]. destruct (decide (i = q)) as [->|Hne].
    + rewrite list_lookup_insert_eq in Hi by done. injection Hi as <-. by left.
    + rewrite list_lookup_insert_ne in Hi by done. right. split.
      * intros Ey. by apply Hne, (Huniq i r).
      * split; [by eapply list_elem_of_lookup_2|done].
  - intros [[<- <-]|[Hne [(i & Hi)%list_elem_of_lookup <-]]].
    + split; [|done]. apply list_elem_of_lookup. exists q. by apply list_lookup_insert_eq.
    + split; [|done]. apply list_elem_of_lookup. exists i. rewrite list_lookup_insert_ne; [done|].
      intros <-. rewrite Hq in Hi. by injection Hi as <-.
Qed.

Lemma key_of_same x x' : cat_key_ok fold x -> same_key x' x -> key_of fold x' = key_of fold x.
Proof using.
  intros Hx Hs. destruct (cat_fields x x' (same_key_sym _ _ Hs) (ck_key_len _ _ Hx)) as (E1 & E2 & E3).
  unfold key_of, name_of. by rewrite E1, E3.
Qed.

(** What a change of a value leaves of the tree. *)
Record value_stored (t t' : btree) (lv lv' : list level) (k : Z * list Z) (x' : record) : Prop := {
  vs_tree : cat_ok t' lv';
  vs_calm : calm t';
  vs_catalog : catalog (elements lv') = <[k := x']> (catalog (elements lv));
  vs_hints : forall b, hint_ok t lv b -> hint_ok t' lv' b;
  vs_height : btree_height t' = btree_height t;
  vs_num : free_num t' = free_num t;
  vs_account : account t' lv' = account t lv
}.

Lemma wp_store_value t lv h pos k x v : cat_ok t lv -> calm t -> located fold lv t h pos k x -> h_rw h = true ->
  has_room v x -> fork_shape (i_fork (v_inode v)) ->
  wp (do_ store_value block_size_shift h pos v; do_ emmcfs_mark_bnode_dirty h; emmcfs_put_bnode h) t
    (ok (fun _ t' => exists lv', value_stored t t' lv lv' k (with_value v x))).
Proof using HN.
  intros Ht Hc (Hcat & Hat & q & Hq & Hpl) Hrw Hroom Hf.
  destruct (with_value_split v x Hroom Hf) as (_ & _ & El).
  pose proof (with_value_key v x Hroom Hf) as Hk. pose proof (new_value_length v x Hroom Hf) as Hl.
  destruct (elements_sorted _ _ _ _ _ _ Ht) as [_ Hkeys]. pose proof (Forall_lookup_1 _ _ _ _ Hkeys Hq) as Hkx.
  pose proof (cat_nodup N max_record_len fold t lv Ht) as Hnd.
  assert (key_of fold x = k) as <- by (by apply (catalog_Some fold) in Hcat as [_ ?]).
  eapply wp_seq.
  { unfold store_value. eapply (wp_seq _ _ _ (fun r t' => r = x /\ t' = t)).
    { by apply (wp_get_btree_record N max_record_len cmpfn (cat_key_ok fold) t lv h pos q x). }
    intros r t1 [-> ->]. cbv zeta. rewrite Hl. destruct (Z.gtb_spec (key_len x + value_len (get_record_type_on_mode (i_mode (v_inode v)))) (rlen x)) as [Hgt|_].
    { destruct Hroom. lia. }
    eapply (wp_set_record N max_record_len cmpfn (cat_key_ok fold) t lv h pos q x (with_value v x)); try done.
    - by apply same_key_sym.
    - by apply with_value_ok. }
  intros [] t1 (C1 & (ns & ->) & lv' & T1 & E1 & Hpl1 & Eids). specialize (C1 Hc).
  apply wp_dirty; [done|done|]. intros t2 S2 C2. apply wp_put_last; [done|]. intros t3 S3 C3.
  assert (t3 ≈ set_nodes t ns) as S by (by rewrite S3). exists lv'. constructor.
  - eapply tree_ok_sim; [symmetry; exact S|done].
  - done.
  - rewrite E1. by apply catalog_update; [|apply key_of_same|].
  - intros b [?|[?|[? Hu]]]; [by left|by right; left; rewrite Eids|right; right].
    unfold bits_num, used in *. rewrite (sim_bits _ _ S). done.
  - by rewrite (sim_height _ _ S).
  - by rewrite (sim_num _ _ S).
  - rewrite (account_sim _ _ _ S). unfold account, bits_num. by rewrite Eids.
Qed.

(** An inode with its record in the catalog. *)
Record backed (lv : list level) (v : vfs_inode) (name : list Z) (x : record) : Prop := {
  bk_name : v_name v = Some name;
  bk_name_ok : name_ok fold name;
  bk_parent : 0 <= v_parent v < 2 ^ 31;
  bk_plain : hlink_id (v_attr v) = INVALID_HLINK_ID;
  bk_ino : EMMCFS_1ST_FILE_INO <= ino (v_inode v);
  bk_rec : catalog (elements lv) !! place_of fold (v_parent v) name = Some x;
  bk_room : has_room v x;
  bk_fork : fork_shape (i_fork (v_inode v))
}.

(** The state after the value of the inode [n] has been written. *)
Definition inode_written {A} (s s' : fs A) (lv : list level) (n : Z) (v : vfs_inode) (name : list Z) (x : record) : Prop :=
  exists t' lv' b, s' = set_catalog t' (set_icache (<[n := with_hint b v]> (icache s)) s) /\
    value_stored (catalog_tree s) t' lv lv' (place_of fold (v_parent v) name) (with_value v x) /\ hint_ok t' lv' b.

Lemma wp_write_inode {A} (s : fs A) lv n v name x : cat_ok (catalog_tree s) lv -> calm (catalog_tree s) ->
  tree_lock s = Unlocked -> icache s !! n = Some v -> hint_ok (catalog_tree s) lv (v_hint v) -> backed lv v name x ->
  wp (emmcfs_write_inode_to_bnode cmpfn mounted beyond grow block_size_shift n) s
    (ok (fun r s' => r = 0 /\ inode_written s s' lv n v name x)).
Proof using HN.
  intros Ht Hc Hl Hv Hb [B1 B2 B3 B4 B5 B6 B7 B8]. unfold emmcfs_write_inode_to_bnode.
  apply (wp_inode_of n v); [done|]. rewrite (proj2 (Z.ltb_ge _ _)) by done.
  apply wp_w_lock; [done|]. rewrite B4, Z.eqb_refl. cbn [negb].
  apply wp_code. unfold write_to_catalog. rewrite B1. cbn [fst snd].
  eapply (wp_in_hint n v _ _ _ (fun hp bt => snd bt ≈ catalog_tree s /\ calm (snd bt) /\ h_rw hp.1 = true /\
    fst bt = Hint (h_id hp.1) hp.2 /\ exists x, located fold lv (snd bt) hp.1 hp.2 (place_of fold (v_parent v) name) x)); [done| |].
  { eapply wp_mono; [by apply (wp_get_from_cattree N max_record_len fold mounted beyond grow HN)|].
    intros [[h pos]|e|] [b t] H; cbn [fst snd] in *.
    - destruct H as (H1 & H2 & H3). split; [done|]. split; [by apply H2|done].
    - destruct H as (_ & H). destruct (H Hc) as (_ & _ & E & _). congruence.
    - by destruct H. }
  intros [h pos] b t (S1 & C1 & Hrw & Eb & y & Hy). cbn [fst snd] in *.
  assert (y = x) as -> by (destruct Hy as (E & _); congruence).
  assert (cat_ok t lv) as Ht1 by (by eapply tree_ok_sim; [symmetry|]).
  apply wp_zoom. eapply wp_mono; [by apply wp_store_value|].
  intros [[]|e|] t' H; [|done|done]. destruct H as (lv' & Hst). cbn [set_catalog catalog_tree].
  apply wp_w_unlock; [done|]. apply wp_ret. split; [done|]. exists t', lv', b. split.
  { destruct s. simpl in *. by subst. }
  destruct Hst as [V1 V2 V3 V4 V5 V6 V7]. cbn [set_catalog catalog_tree] in *. split.
  - constructor; try done.
    + intros b' Hb'. apply V4. destruct Hb' as [?|[?|[? ?]]]; [by left|by right; left|right; right].
      unfold bits_num, used in *. by rewrite (sim_bits _ _ S1).
    + by rewrite V5, (sim_height _ _ S1).
    + by rewrite V6, (sim_num _ _ S1).
    + by rewrite V7, (account_sim _ _ _ S1).
  - apply V4. subst b. by eapply located_hint.
Qed.

(** ** Reading the record back *)

(** An inode whose fields have room in its record; [es] are the extents of its
    fork. *)
Record storable (v : vfs_inode) (es : list extent_info) : Prop := {
  st_fits : inode_fits v;
  st_fork : fork_is (i_fork (v_inode v)) es;
  st_extents : Forall extent_fits (fork_extents (i_fork (v_inode v)));
  st_blocks : blocks_of_size (i_size (v_inode v)) block_size_shift < 2 ^ 32;
  st_rdev : 0 <= i_rdev (v_inode v) < 2 ^ 32
}.

(** What a reading gives of it: everything but the counters that the fork does
    not hold. *)
Record reread (v v1 : vfs_inode) : Prop := {
  rr_ino : ino (v_inode v1) = ino (v_inode v);
  rr_mode : i_mode (v_inode v1) = i_mode (v_inode v);
  rr_attr : v_attr v1 = v_attr v;
  rr_parent : v_parent v1 = v_parent v;
  rr_name : v_name v1 = v_name v;
  rr_rdev : is_device (v_inode v) = true -> i_rdev (v_inode v1) = i_rdev (v_inode v);
  rr_size : is_device (v_inode v) = false -> i_size (v_inode v1) = i_size (v_inode v);
  rr_fork : is_device (v_inode v) = false -> i_mode (v_inode v) <> S_IFDIR ->
    i_fork (v_inode v1) = ForkInfo (blocks_of_size (i_size (v_inode v)) block_size_shift) 0 0
      (fork_extents (i_fork (v_inode v))) (used_extents (i_fork (v_inode v)))
}.

Lemma parse_form_device i i0 : is_device i = true -> i_mode i0 = i_mode i -> 0 <= i_rdev i < 2 ^ 32 ->
  exists r, emmcfs_parse_fork block_size_shift i0 (Some (emmcfs_form_fork block_size_shift i)) = (0, r) /\
    ino r = ino i0 /\ i_mode r = i_mode i0 /\ i_rdev r = i_rdev i.
Proof using.
  intros Hdev Hmode Hr. assert (is_device i0 = true) as Hdev0 by (unfold is_device in *; by rewrite Hmode).
  unfold emmcfs_form_fork. rewrite Hdev. unfold emmcfs_parse_fork. cbn [is_fork_valid fork_magic size_in_bytes total_blocks_count].
  rewrite Hdev0. cbn [negb]. rewrite Z.eqb_refl. cbn [negb]. rewrite Z.shiftl_0_l. change (u64 0 <? u64 0) with false. cbn [negb].
  eexists. split; [done|]. cbn [set_fork ino i_mode i_rdev]. do 2 (split; [done|]).
  rewrite (uwrap_small 64), swrap_small, uwrap_small; lia.
Qed.

Context (Hshift : 0 <= block_size_shift <= 31).

Lemma storable_shape v es : storable v es -> fork_shape (i_fork (v_inode v)).
Proof using.
  intros [_ [E1 E2 E3 _] _ _ _]. unfold fork_shape, EMMCFS_EXTENTS_COUNT_IN_FORK. rewrite E1, E2, length_app, length_replicate. lia.
Qed.

Definition same_but_contents (v v1 : vfs_inode) : Prop :=
  v_attr v1 = v_attr v /\ v_parent v1 = v_parent v /\ v_name v1 = v_name v /\ v_hint v1 = v_hint v /\
  ino (v_inode v1) = ino (v_inode v) /\ i_mode (v_inode v1) = i_mode (v_inode v).

(** The contents from a value that [v] has written. *)
Lemma contents_written {A} v es old rest v0 (s : fs A) : storable v es -> (6 <= length old)%nat ->
  i_mode (v_inode v0) = i_mode (v_inode v) ->
  exists v1, contents_of block_size_shift (get_record_type_on_mode (i_mode (v_inode v))) (refill v old ++ rest) v0 s = (Ok (0, v1), s) /\
    same_but_contents v0 v1 /\
    (is_device (v_inode v) = true -> i_rdev (v_inode v1) = i_rdev (v_inode v)) /\
    (is_device (v_inode v) = false -> i_size (v_inode v1) = i_size (v_inode v)) /\
    (is_device (v_inode v) = false -> i_mode (v_inode v) <> S_IFDIR ->
      i_fork (v_inode v1) = ForkInfo (blocks_of_size (i_size (v_inode v)) block_size_shift) 0 0
        (fork_extents (i_fork (v_inode v))) (used_extents (i_fork (v_inode v)))).
Proof using Hshift.
  intros Hst Hold Hmode. pose proof (storable_shape v es Hst) as Hsh. destruct Hst as [Hfit Hf He Hb Hr]. unfold contents_of.
  rewrite value_fork by done.
  destruct (value_fields block_size_shift v old rest Hold Hfit) as (_ & Esize & _).
  destruct (form_fork_fits block_size_shift (v_inode v) Hr He) as (F1 & F2 & F3 & F4).
  pose proof (form_fork_length block_size_shift (v_inode v) Hsh) as F5.
  pose proof (if_size _ Hfit) as Hsize.
  destruct (decide (i_mode (v_inode v) = S_IFDIR)) as [Hd|Hd].
  - assert (is_device (v_inode v) = false) as Hdev by (unfold is_device; by rewrite Hd).
    rewrite Hd. cbn [get_record_type_on_mode]. change (negb (Z.land EMMCFS_CATALOG_FOLDER_RECORD EMMCFS_CATALOG_FILE_RECORD =? 0)) with false.
    cbn iota. rewrite Z.eqb_refl. cbn [negb BUG_ON]. rewrite Esize. eexists. split; [done|].
    split; [by split_and!|]. split; [by rewrite Hdev|]. split; [|done]. intros _. cbn [v_inode set_i_size i_size].
    rewrite swrap_uwrap by lia. apply swrap_small; simpl; lia.
  - assert (negb (Z.land (get_record_type_on_mode (i_mode (v_inode v))) EMMCFS_CATALOG_FILE_RECORD =? 0) = true) as ->
      by (by destruct (i_mode (v_inode v))).
    rewrite decode_encode_fork by done.
    destruct (is_device (v_inode v)) eqn:Hdev.
    + destruct (parse_form_device (v_inode v) (v_inode v0) Hdev Hmode Hr) as (r & E & R1 & R2 & R3).
      rewrite E. eexists. split; [done|]. split; [by split_and!|]. by split_and!.
    + rewrite (parse_form_fork block_size_shift (v_inode v) (v_inode v0) es) by (done || lia).
      eexists. split; [done|]. by split_and!.
Qed.

(** A record with the very name and parent of the inode. *)
Record names (v : vfs_inode) (x : record) : Prop := {
  nm_key : cat_key_ok fold x;
  nm_name : v_name v = Some (name_bytes x);
  nm_parent : v_parent v = parent_id x;
  nm_plain : hlink_id (v_attr v) = INVALID_HLINK_ID
}.

Lemma wp_read_written {A} v es x v0 (s : fs A) n : storable v es -> has_room v x -> names v x -> calm (catalog_tree s) ->
  n = ino (v_inode v) -> ino (v_inode v0) = n -> n <> EMMCFS_ROOT_INO ->
  wp (read_record block_size_shift n v0 (with_value v x)) s (ok (fun res s' => res.1 = 0 /\ reread v res.2 /\
    v_hint res.2 = v_hint v0 /\ exists t', s' = set_catalog t' s /\ t' ≈ catalog_tree s /\ calm t')).
Proof using Hshift.
  intros Hst Hroom [Hkey Hname Hpar Hplain] Hc Hn Hn0 Hroot. pose proof (storable_shape v es Hst) as Hsh.
  pose proof (st_fits _ _ Hst) as Hfit. pose proof (old_value_length v x Hroom) as Hold.
  destruct (with_value_value v x Hroom Hsh) as [rest Ev].
  pose proof (with_value_key v x Hroom Hsh) as Hsk.
  destruct (cat_fields x _ (same_key_sym _ _ Hsk) (ck_key_len _ _ Hkey)) as (Ep & El & En).
  destruct (value_fields block_size_shift v (value_of x) rest ltac:(lia) Hfit) as (Et & Esz & Eln & Eob & Emd & Eu & Eg).
  destruct (value_dates block_size_shift v (value_of x) rest ltac:(lia) Hfit) as (Ec & Em & Ea).
  destruct (mode_parts (i_mode (v_inode v)) (i_perm (v_attr v)) (if_perm _ Hfit)) as (_ & Ety & Epm).
  unfold read_record. rewrite Ev, Et.
  assert (get_record_type_on_mode (i_mode (v_inode v)) =? EMMCFS_CATALOG_HLINK_RECORD = false) as -> by (by destruct (i_mode (v_inode v))).
  apply wp_bind, wp_ret. rewrite Z.eqb_refl. apply wp_bind, wp_try_kmalloc; [done|]. intros t S C. apply wp_ret.
  assert (take (Z.to_nat (name_length (with_value v x) `min` EMMCFS_CAT_MAX_NAME)) (name_chars (with_value v x)) = name_bytes x) as ->.
  { pose proof (ck_name _ _ Hkey) as Hle. rewrite En, El in *. unfold name_bytes. f_equal.
    rewrite <- El. unfold EMMCFS_CAT_MAX_NAME, EMMCFS_UNICODE_STRING_MAX_LEN in *. lia. }
  unfold from_value. rewrite Emd, Ety, Epm, Eln, Eu, Eg, Ec, Em, Ea. rewrite (proj2 (Z.eqb_neq n _)) by done.
  rewrite (uwrap_small 32) by apply Hfit.
  match goal with |- wp (contents_of _ _ _ ?w) _ _ =>
    destruct (contents_written v es (value_of x) rest w (set_catalog t s) Hst ltac:(lia) eq_refl) as (v1 & E & Hs & H1 & H2 & H3)
  end.
  unfold wp. rewrite E. cbn [fst snd ok]. split; [done|]. destruct Hs as (Sa & Sp & Sn & Sh & Si & Sm).
  cbn [v_attr v_parent v_name v_hint v_inode ino i_mode] in *. split; [|split; [done|by exists t]].
  constructor; try done; try congruence.
  rewrite Sa. destruct (v_attr v). cbn in *. by subst.
Qed.

Context {A : Type} (slab : vfs_inode) (exsb_fork : Z -> option emmcfs_fork) (lebs_bm_size : Z).
Abbreviation iget := (emmcfs_iget cmpfn mounted beyond grow block_size_shift slab exsb_fork lebs_bm_size (A := A)).

Lemma not_special n : EMMCFS_1ST_FILE_INO <= n -> is_special n = false /\ (n =? EMMCFS_ROOT_INO) = false /\ (n <? EMMCFS_1ST_FILE_INO) = false.
Proof using.
  unfold EMMCFS_1ST_FILE_INO, is_special, EMMCFS_CAT_TREE_INO, EMMCFS_LEB_BITMAP_INO, EMMCFS_EXTENTS_TREE_INO,
    EMMCFS_FREE_INODE_BITMAP_INO, EMMCFS_HARDLINKS_AREA_INO, EMMCFS_ROOT_INO. intros H.
  rewrite !(proj2 (Z.eqb_neq n _)) by lia. by rewrite (proj2 (Z.ltb_ge n _)) by lia.
Qed.

(** An inode that is not in memory comes from the record that it has written. *)
Lemma wp_iget_written (s : fs A) lv h pos k v es x : cat_ok (catalog_tree s) lv -> calm (catalog_tree s) ->
  located fold lv (catalog_tree s) h pos k (with_value v x) -> storable v es -> has_room v x -> names v x ->
  EMMCFS_1ST_FILE_INO <= ino (v_inode v) -> icache s !! ino (v_inode v) = None ->
  wp (iget (ino (v_inode v)) (Some (h, pos))) s (ok (fun _ s' => exists t' v1,
    s' = set_catalog t' (set_icache (<[ino (v_inode v) := v1]> (icache s)) s) /\ t' ≈ catalog_tree s /\ calm t' /\
    reread v v1 /\ v_hint v1 = Hint (h_id h) pos)).
Proof using HN Hshift.
  intros Ht Hc (Hcat & Hat & q & Hq & Hpl) Hst Hroom Hnm Hino Hno. destruct (not_special _ Hino) as (E1 & E2 & E3).
  unfold emmcfs_iget. apply wp_bind, wp_ret. apply wp_gets. rewrite bool_decide_eq_false_2 by (rewrite Hno; by intros []).
  unfold emmcfs_alloc_inode. apply wp_bind. eapply (wp_in_cat _ _ _ (fun _ t => t ≈ catalog_tree s /\ calm t)).
  { apply wp_kmalloc_ok; [done|]. by intros. }
  intros [] t (S & C). apply wp_ret. rewrite E1, E3. unfold emmcfs_read_inode. rewrite E2.
  apply wp_bind, wp_bind, wp_ret. cbv zeta.
  eapply (wp_try_ok _ _ _ (fun r s' => r = with_value v x /\ s' = set_catalog t s)).
  { apply wp_zoom. eapply wp_mono.
    - apply (wp_get_btree_record N max_record_len cmpfn (cat_key_ok fold) t lv h pos q (with_value v x)); try done.
      + by eapply tree_ok_sim; [symmetry|].
      + unfold record_at in *. by rewrite (sim_nodes _ _ S).
    - intros [r|e|] t1 H; [|done|done]. by destruct H as [-> ->]. }
  intros r s' [-> ->]. eapply wp_seq.
  { apply (wp_read_written v es x _ (set_catalog t s) (ino (v_inode v)) Hst Hroom Hnm C eq_refl); [done|].
    by apply Z.eqb_neq. }
  intros [err v1] s' (Herr & Hrr & Hh & t' & -> & S' & C'). cbn [fst snd] in *. subst err. apply wp_bind, wp_ret, wp_ret.
  cbn [Z.eqb negb]. unfold put_vfs. apply (wp_modify _ (fun _ => ret tt)) || (unfold wp, modify; cbn [fst snd ok]).
  exists t', v1. cbn [set_catalog icache catalog_tree] in *. split; [by destruct s|]. split; [by rewrite S'|]. by split_and!.
Qed.
End records.
