(* ===== verification/VfsExample.v ===== *)
(** * A small mounted volume for the examples

    The root directory with the names "a", "b" and "d"; "b" is the file 20 of
    ForkTheorems.v, with its inode in memory and its blocks 4 and 5 in use. *)

From S2P Require Import Prelude Monad Data FsmBtree FsmAlloc Fsm FsmTheorems Blocks BnodeBytes BnodeRepr BnodePool BnodePoolProofs.
From S2P Require Import Btree BtreeInv BtreeFind BtreeInsert BtreeSpec Exttree Fork ExttreeTheorems ForkProofs ForkTheorems InodeIds.
From S2P Require Import Truncate TruncateTheorems Cattree CattreeProofs CattreeTheorems Vfs VfsProofs.
Open Scope Z_scope.

Definition root_inode : vfs_inode :=
  VfsInode (Inode 1 S_IFDIR 3 0 0 0 (ForkInfo 0 0 0 blank_extents 0))
    (Attributes 0x1ED 0 0 1 (5, 0) (5, 0) (5, 0) INVALID_HLINK_ID) 0 (Some EMMCFS_ROOTDIR_NAME) (Hint 0 (-1)).
Definition vfs_20 : vfs_inode :=
  VfsInode file_20 (Attributes 0x1A4 7 8 1 (100, 1) (200, 2) (300, 3) INVALID_HLINK_ID) 1 (Some [98]) (Hint 1 3).

Definition entry_20 : record := new_entry 12 file_20 (v_attr vfs_20) 1 [98].
Definition dir_entry (parent : Z) (name : list Z) (n : Z) : record :=
  new_entry 12 (Inode n S_IFDIR 0 0 0 0 (ForkInfo 0 0 0 blank_extents 0)) (v_attr root_inode) parent name.
Definition volume_recs : list record :=
  [dir_entry 0 EMMCFS_ROOTDIR_NAME 1; dir_entry 1 [97] 18; entry_20; dir_entry 1 [100] 19].
Abbreviation volume_levels := [[(1, volume_recs)]].

Definition mounted_fs : fs (allocator (T := froot) (J := page_log)) :=
  Fs {[1 := root_inode; 20 := vfs_20]} (one_leaf volume_recs) Unlocked 0 ids_to_20 (IdMap ∅ 0 []) ∅ (bare_tree, block_store) 3 0.

Lemma entry_20_eq : entry_20 = entry 1 [98] 197 (emmcfs_fill_cattree_value 12 file_20 (v_attr vfs_20)).
Proof. by vm_compute. Qed.

Lemma b_ok : name_ok same [98].
Proof. by apply ascii_name_ok; [vm_compute|simpl; lia]. Qed.

Lemma entry_20_fields : cat_key_ok same entry_20 /\ key_of same entry_20 = (1, [98]) /\ record_ok entry_20 /\
  key_len entry_20 = 28 /\ rlen entry_20 = 225.
Proof.
  rewrite entry_20_eq. apply (entry_fields same 1 [98] 197 (emmcfs_fill_cattree_value 12 file_20 (v_attr vfs_20)));
    [lia|apply b_ok|by vm_compute].
Qed.

Lemma dir_entry_valid parent name n : 0 <= parent < 2 ^ 31 -> name_ok same name ->
  rec_valid 479 (cat_key_ok same) (dir_entry parent name n).
Proof.
  intros Hp Hn. unfold dir_entry, new_entry.
  match goal with |- rec_valid _ _ (entry _ _ _ ?value) =>
    destruct (entry_fields same parent name 76 value Hp Hn) as (E1 & _ & E3 & E4 & E5); [by vm_compute|]
  end.
  pose proof (nk_len _ _ Hn) as Hl. unfold EMMCFS_UNICODE_STRING_MAX_LEN in Hl. change (value_len _) with 76 in *. constructor; [done|lia|lia|done].
Qed.

Lemma volume_catalog_ok : tree_ok 4096 479 (cattree_cmp same) (cat_key_ok same) (one_leaf volume_recs) volume_levels.
Proof.
  assert (rec_valid 479 (cat_key_ok same) entry_20) as H20.
  { destruct entry_20_fields as (H1 & _ & H2 & H3 & H4). constructor; [done|lia|lia|done]. }
  apply one_leaf_ok; [done|by vm_compute| |].
  - repeat (apply Forall_cons; split; [by apply H20 || (apply dir_entry_valid; [lia|by apply ascii_name_ok; [vm_compute|simpl; lia]])|]). done.
  - repeat (apply SSorted_cons; split; [|repeat (apply Forall_cons; split; [by vm_compute|]); done]). constructor.
Qed.

Lemma vfs_20_storable : storable 12 vfs_20 [Extent 4 2].
Proof.
  constructor.
  - constructor; cbn; lia.
  - by apply fork_of_two.
  - apply Forall_cons. split; [unfold extent_fits; simpl; lia|]. apply Forall_replicate. unfold extent_fits; simpl; lia.
  - by vm_compute.
  - simpl. lia.
Qed.

Lemma vfs_20_room : has_room vfs_20 entry_20.
Proof. destruct entry_20_fields as (_ & _ & H & E1 & E2). split; [done|]. rewrite E1, E2. by vm_compute. Qed.

Lemma vfs_20_names : names same vfs_20 entry_20.
Proof. constructor; [apply entry_20_fields|by vm_compute|by vm_compute|done]. Qed.

Lemma vfs_20_backed : backed same volume_levels vfs_20 [98] entry_20.
Proof.
  constructor; [done|apply b_ok|simpl; lia|done|by vm_compute|by vm_compute|apply vfs_20_room|done].
Qed.

Lemma vfs_20_hint : hint_ok (one_leaf volume_recs) volume_levels (v_hint vfs_20).
Proof. right. left. apply list_elem_of_singleton. done. Qed.

(** ** A volume with a hard link

    The file 20 is the hard link 0, "b" one of its names; its value is in the
    first page of the area of the hard links. *)
Definition linked_20 (links : Z) : vfs_inode :=
  VfsInode file_20 (Attributes 0x1A4 7 8 links (100, 1) (200, 2) (300, 3) 0) 0 None (Hint 1 2).
Definition entry_link : record := new_entry 12 file_20 (v_attr (linked_20 2)) 1 [98].
Definition linked_recs : list record :=
  [dir_entry 0 EMMCFS_ROOTDIR_NAME 1; dir_entry 1 [97] 18; entry_link; dir_entry 1 [100] 19].
Abbreviation linked_levels := [[(1, linked_recs)]].
Definition one_link : id_map := IdMap {[0 := 1 :: replicate 1023 0]} 1 [].

Definition linked_fs (links : Z) : fs (allocator (T := froot) (J := page_log)) :=
  Fs {[1 := root_inode; 20 := linked_20 links]} (one_leaf linked_recs) Unlocked 0 ids_to_20 one_link
    {[1 := write_at 0 (refill 12 (linked_20 links) blank_page) blank_page]} (bare_tree, block_store) 3 0.

Lemma linked_catalog_ok : tree_ok 4096 479 (cattree_cmp same) (cat_key_ok same) (one_leaf linked_recs) linked_levels.
Proof.
  assert (rec_valid 479 (cat_key_ok same) entry_link) as Hlink.
  { destruct (entry_fields same 1 [98] 76 (emmcfs_fill_hlink_value (v_attr (linked_20 2)))) as (H1 & _ & H2 & H3 & H4);
      [lia|apply b_ok|by vm_compute|].
    assert (entry_link = entry 1 [98] 76 (emmcfs_fill_hlink_value (v_attr (linked_20 2)))) as -> by by vm_compute.
    cbn [length] in H3, H4. constructor; [done|lia|lia|done]. }
  apply one_leaf_ok; [done|by vm_compute| |].
  - repeat (apply Forall_cons; split; [by apply Hlink || (apply dir_entry_valid; [lia|by apply ascii_name_ok; [vm_compute|simpl; lia]])|]). done.
  - repeat (apply SSorted_cons; split; [|repeat (apply Forall_cons; split; [by vm_compute|]); done]). constructor.
Qed.
