(* ===== verification/Namei.v ===== *)
(** * The names of directories (inode.c)

    The operations that the VFS calls on directories and inodes: search,
    listing, creation, removal, renaming and hard links, and the change of
    attributes.  A directory entry is a name and, if it stands for a file, the
    number of its inode. *)

From S2P Require Import Prelude Monad Data FsmBtree FsmAlloc Fsm Blocks BnodeBytes BnodeRepr BnodePool Btree.
From S2P Require Import Exttree Fork InodeIds Truncate Cattree Vfs.
Open Scope Z_scope.

Definition EMLINK : Z := 31.
Definition ENAMETOOLONG : Z := 36.
Definition ENOTEMPTY : Z := 39.
Definition EMMCFS_LINK_MAX : Z := 32.
Definition EMMCFS_FULL_PATH_LEN : Z := 1023.

(** ** Entries of a listing (linux/fs.h) *)
Inductive dirent_type := DT_LNK | DT_REG | DT_DIR.
Record dirent := Dirent { d_name : list Z; d_off : Z; d_ino : Z; d_type : dirent_type }.

(** [struct file] of an open directory: the key in [private_data] is the one of
    the next entry. *)
Record dir_file := DirFile { f_pos : Z; private_data : option record }.

(** What the VFS asks to change. *)
Record iattr := Iattr { ia_size : option Z; ia_attr : attributes -> attributes }.

(** The lengths of [struct generic_key] in a copy of a key. *)
Definition copy_of_key (r : record) : record := take (Z.to_nat (key_len r)) r.

(** ** Changes of an inode *)
Section changes.
Implicit Types (v : vfs_inode).

Definition set_attr a v : vfs_inode := VfsInode (v_inode v) a (v_parent v) (v_name v) (v_hint v).
Definition set_ctime t v : vfs_inode :=
  let a := v_attr v in
  set_attr (Attributes (i_perm a) (i_uid a) (i_gid a) (i_nlink a) t (mtime a) (atime a) (hlink_id a)) v.
Definition set_mtime t v : vfs_inode :=
  let a := v_attr v in
  set_attr (Attributes (i_perm a) (i_uid a) (i_gid a) (i_nlink a) (ctime a) t (atime a) (hlink_id a)) v.
Definition set_nlink n v : vfs_inode :=
  let a := v_attr v in
  set_attr (Attributes (i_perm a) (i_uid a) (i_gid a) n (ctime a) (mtime a) (atime a) (hlink_id a)) v.
Definition set_place parent name v : vfs_inode := VfsInode (v_inode v) (v_attr v) parent name (v_hint v).
Definition set_inode i v : vfs_inode := VfsInode i (v_attr v) (v_parent v) (v_name v) (v_hint v).
Definition size_of v : Z := i_size (v_inode v).
Definition set_size n v : vfs_inode := set_inode (set_i_size (v_inode v) n) v.
Definition nlink v : Z := i_nlink (v_attr v).
End changes.

(** What the B-tree leaves open (Btree.v) for the tree of the extents; its other
    parameters are those of the catalog. *)
Record extents_env := ExtentsEnv {
  x_max_record_len : Z;
  x_beyond : Z -> bool;
  x_grow : Z -> Z -> Z;
  x_address : Z -> Z;
  x_levels : nat
}.

Section operations.
(** What the B-trees leave open (Btree.v), the comparison function of the
    volume and [block_size_shift]; the contents of the memory for inodes; the
    forks in the extended super block; the fuel of the search for a free number
    and of a removal; the clock. *)
Context (N max_record_len log_pages_per_node : Z) (cmpfn : record -> record -> Z) (mounted : bool)
  (beyond : Z -> bool) (grow : Z -> Z -> Z) (address : Z -> Z) (levels : nat) (ext : extents_env) (block_size_shift : Z).
Context (slab : vfs_inode) (exsb_fork : Z -> option emmcfs_fork) (lebs_bm_size : Z).
Context (fuel : nat) (clock : nat -> Z * Z) (stale : list Z).
Context `{BlockAlloc A}.
(** [inode_init_owner] of the kernel: user, group and permissions of a new inode
    from those of the directory, the type and the permissions asked for. *)
Context (inode_init_owner : attributes -> file_type -> Z -> Z * Z * Z).
Abbreviation F := (St (fs A)).
Abbreviation write_inode := (emmcfs_write_inode_to_bnode cmpfn mounted beyond grow block_size_shift (A := A)).
Abbreviation add_object := (emmcfs_add_new_cattree_object N max_record_len log_pages_per_node cmpfn mounted beyond grow block_size_shift).
Abbreviation remove := (emmcfs_btree_remove N max_record_len log_pages_per_node cmpfn mounted beyond grow address levels).
Abbreviation insert := (emmcfs_btree_insert N max_record_len log_pages_per_node cmpfn mounted beyond grow).
Abbreviation find := (emmcfs_btree_find cmpfn mounted beyond grow).
Abbreviation cattree_find := (emmcfs_cattree_find cmpfn mounted beyond grow).

(** [emmcfs_current_time] *)
Definition current_time : F (Z * Z) :=
  do k <- gets ticks;
  do_ modify (fun s => set_counts (files_count s) (S k) s);
  ret (clock k).

(** [inode->i_ctime = emmcfs_current_time(inode)] and the like. *)
Definition touch_ctime (n : Z) : F unit := do t <- current_time; change n (set_ctime t).
Definition touch_mtime (n : Z) : F unit := do t <- current_time; change n (set_mtime t).

(** The end of an operation inside a transaction. *)
Definition stop {X} (x : X) : F X := do_ stop_transaction; ret x.

(** ** Search and listing *)

(** The object that a record stands for, and the type of its record. *)
Definition object_of (r : record) : F (Z * Z) :=
  let value := value_of r in
  if negb (rec_type value =? EMMCFS_CATALOG_HLINK_RECORD) then ret (val_object_id value, rec_type value)
  else get_params_on_hlink_id (val_hlink_id value).

(** [emmcfs_lookup]: the number of the inode, or none.  The errors before
    [emmcfs_iget] return with the lock. *)
Definition emmcfs_lookup (dir : Z) (name : list Z) : F (option Z) :=
  if Z.of_nat (length name) >? EMMCFS_CAT_MAX_NAME then fail (- ENAMETOOLONG)
  else
    do d <- inode_of dir;
    if negb (bool_decide (i_mode (v_inode d) = S_IFDIR)) then fail (- ENOTDIR)
    else
      do_ in_cat kmalloc;
      let key := cattree_search_key dir name in
      do_ mutex_r_lock;
      do '(h, pos) <- in_cat (find key false);
      do found_key <- in_cat (emmcfs_get_btree_record h pos);
      if negb (cmpfn found_key key =? 0) then
        do_ in_cat (emmcfs_put_bnode h);
        do_ mutex_r_unlock;
        ret None
      else
        do '(obj_id, _) <- object_of found_key;
        do found <- try (emmcfs_iget cmpfn mounted beyond grow block_size_shift slab exsb_fork lebs_bm_size obj_id (Some (h, pos)));
        do_ in_cat (emmcfs_put_bnode h);
        do_ mutex_r_unlock;
        match found with Ok _ => ret (Some obj_id) | _ => ret None end.

Definition get_entry_type (rec_type : Z) : option dirent_type :=
  if negb (Z.land rec_type EMMCFS_CATALOG_FILE_RECORD =? 0) then
    if negb (Z.land rec_type EMMCFS_CATALOG_FILE_RECORD_SYMLINK =? 0) then Some DT_LNK else Some DT_REG
  else if rec_type =? EMMCFS_CATALOG_FOLDER_RECORD then Some DT_DIR
  else None.

(** The copy of the key of the next entry, in the buffer for it if that is
    large enough. *)
Definition store_key (f : dir_file) (key : record) : F (option record) :=
  let new := copy_of_key key in
  match private_data f with
  | Some prev_key =>
    if key_len prev_key <=? key_len key then
      do k <- try (in_cat kmalloc);
      match k with Ok _ => ret (Some new) | _ => ret None end
    else ret (Some new)
  | None =>
    do k <- try (in_cat kmalloc);
    match k with Ok _ => ret (Some new) | _ => ret None end
  end.

Section readdir.
(** The callback of the kernel: whether the buffer with these entries takes one
    more. *)
Context (filldir : list dirent -> dirent -> bool).

(** The loop of [emmcfs_readdir], from the record at [pos]: the code, the
    entries, the file, and the node that is given back.  [turns] bounds the
    entries. *)
Fixpoint readdir_loop (turns : nat) (dir : Z) (h : handle) (pos : Z) (key : record) (f : dir_file) (out : list dirent)
    : F (Z * list dirent * dir_file * handle) :=
  match turns with
  | O => bug
  | S turns =>
    if negb (parent_id key =? dir) then ret (0, out, f, h)
    else
      do o <- try (object_of key);
      match o with
      | Bug => bug
      | Err e => ret (e, out, f, h)
      | Ok (obj_id, type) =>
        let str := take (Z.to_nat (Z.min (name_length key) (2 * EMMCFS_CAT_MAX_NAME))) (name_chars key) in
        match get_entry_type type with
        | None => bug
        | Some d_type =>
          let e := Dirent str (f_pos f) obj_id d_type in
          if negb (filldir out e) then
            do k <- store_key f key;
            match k with
            | Some k => ret (0, out, DirFile (f_pos f) (Some k), h)
            | None => ret (- ENOMEM, out, DirFile (f_pos f) None, h)
            end
          else
            let out := out ++ [e] in
            do next <- try (in_cat (emmcfs_get_next_btree_record mounted beyond grow h pos));
            match next with
            | Bug => bug
            | Err err =>
              (* any other error pointer is read *)
              if err =? - ENOENT then ret (0, out, DirFile (f_pos f) None, h) else bug
            | Ok (h, pos, key) =>
              if negb (parent_id key =? dir) then ret (0, out, DirFile (f_pos f) None, h)
              else readdir_loop turns dir h pos key f out
            end
        end
      end
  end.

(** The records of the directory, from the key in the file or from the first
    one on. *)
Definition readdir_records (turns : nat) (dir : Z) (f : dir_file) (out : list dirent) : F (Z * list dirent * dir_file) :=
  do_ mutex_r_lock;
  do r <- try (match private_data f with
               | None => in_cat (emmcfs_find_first_catalog_child cmpfn mounted beyond grow dir)
               | Some key => in_cat (find key false)
               end);
  match r with
  | Bug => bug
  | Err e => do_ mutex_r_unlock; ret (e, out, f)
  | Ok (h, pos) =>
    do k <- try (in_cat (emmcfs_get_btree_record h pos));
    match k with
    | Bug => bug
    | Err e => do_ in_cat (emmcfs_put_bnode h); do_ mutex_r_unlock; ret (e, out, f)
    | Ok key =>
      do '(err, out, f, h) <- readdir_loop turns dir h pos key f out;
      do_ in_cat (emmcfs_put_bnode h);
      do_ mutex_r_unlock;
      ret (err, out, f)
    end
  end.

(** [emmcfs_readdir]; [parent_ino] is the number of the parent directory.  When
    the buffer has no room for "." or "..", a lock is given back that was not
    taken. *)
Definition emmcfs_readdir (turns : nat) (dir parent_ino : Z) (f : dir_file) : F (Z * list dirent * dir_file) :=
  let next := DirFile (f_pos f + 1) (private_data f) in
  let dotdot (f next : dir_file) (out : list dirent) : F (Z * list dirent * dir_file) :=
    let e := Dirent [46; 46] (f_pos f) parent_ino DT_DIR in
    if negb (filldir out e) then do_ mutex_r_unlock; ret (0, out, next)
    else readdir_records turns dir next (out ++ [e]) in
  if f_pos f =? 0 then
    let e := Dirent [46] 0 dir DT_DIR in
    if negb (filldir [] e) then do_ mutex_r_unlock; ret (0, [], next)
    else dotdot next (DirFile 2 (private_data f)) [e]
  else if f_pos f =? 1 then dotdot f next []
  else
    match private_data f with
    | None => ret (0, [], f)
    | Some _ => readdir_records turns dir f []
    end.
End readdir.

(** ** Creation *)

(** [emmcfs_new_inode]: the number of the inode, which is then in the cache.
    The cache refuses a number that it has. *)
Definition emmcfs_new_inode (dir : Z) (ty : file_type) (perm : Z) : F Z :=
  do n <- in_inums (get_free_inode mounted fuel);
  do v <- emmcfs_alloc_inode slab n;
  do d <- inode_of dir;
  do t <- current_time;
  let '(uid, gid, perm) := inode_init_owner (v_attr d) ty perm in
  let v := VfsInode (Inode n ty 0 0 0 0 (ForkInfo 0 0 0 blank_extents 0))
             (Attributes perm uid gid 1 t t t (hlink_id (v_attr v))) 0 None (v_hint v) in
  do c <- gets icache;
  if bool_decide (is_Some (c !! n)) then
    do_ code (in_inums (emmcfs_free_inode_n mounted n));
    fail (- EINVAL)
  else
    do_ put_vfs n v;
    ret n.

(** [iput] of the only reference: an inode with links stays in the cache until
    the kernel needs the memory. *)
Definition iput (n : Z) : F unit :=
  do v <- inode_of n;
  if nlink v =? 0 then modify (fun s => set_icache (delete n (icache s)) s) else ret tt.

(** [emmcfs_create]: the code, and the inode of the new entry. *)
Definition emmcfs_create (dir : Z) (name : list Z) (ty : file_type) (perm : Z) : F (Z * option Z) :=
  if Z.of_nat (length name) >? EMMCFS_UNICODE_STRING_MAX_LEN then ret (- ENAMETOOLONG, None)
  else
    do_ start_transaction;
    do r <- try (emmcfs_new_inode dir ty perm);
    match r with
    | Bug => bug
    | Err e => stop (e, None)
    | Ok n =>
      do saved_name <- try (in_cat kmalloc);
      match saved_name with
      | Ok _ =>
        do_ mutex_w_lock;
        do_ change n (fun v => set_hlink INVALID_HLINK_ID (set_place dir (Some name) v));
        do v <- inode_of n;
        do err <- code (in_cat (add_object (v_inode v) (v_attr v) dir name));
        if negb (err =? 0) then
          do_ iput n;
          do_ code (in_inums (emmcfs_free_inode_n mounted n));
          do_ mutex_w_unlock;
          stop (err, None)
        else
          do_ mutex_w_unlock;
          do_ change dir (fun d => set_size (s64 (size_of d + 1)) d);
          do_ modify (fun s => set_counts (u64 (files_count s + 1)) (ticks s) s);
          do_ touch_ctime dir;
          do_ touch_mtime dir;
          do err <- write_inode dir;
          stop (err, Some n)
      | _ => do_ iput n; stop (- ENOMEM, None)
      end
    end.

Definition emmcfs_mkdir (dir : Z) (name : list Z) (perm : Z) : F (Z * option Z) :=
  emmcfs_create dir name S_IFDIR perm.

(** [emmcfs_mknod]; [new_valid_dev] is the kernel's test of a device number. *)
Definition emmcfs_mknod (new_valid_dev : Z -> bool) (dir : Z) (name : list Z) (ty : file_type) (perm rdev : Z) : F Z :=
  do_ start_transaction;
  if negb (new_valid_dev rdev) then stop (- EINVAL)
  else
    do '(err, created) <- emmcfs_create dir name ty perm;
    if negb (err =? 0) then stop err
    else
      match created with
      | None => bug
      | Some n =>
        do_ change n (fun v =>
          let i := v_inode v in
          if is_device i then set_inode (Inode (ino i) (i_mode i) (i_size i) rdev (i_blocks i) (i_bytes i) (i_fork i)) v else v);
        do err <- write_inode n;
        stop err
      end.

(** [emmcfs_symlink]; [page_symlink] is the kernel's write of the target and its
    terminating zero to the file. *)
Definition emmcfs_symlink (page_symlink : Z -> list Z -> F Z) (dir : Z) (name symname : list Z) : F Z :=
  if (Z.of_nat (length symname) >? EMMCFS_FULL_PATH_LEN) || (Z.of_nat (length name) >? EMMCFS_CAT_MAX_NAME)
  then ret (- ENAMETOOLONG)
  else
    do_ start_transaction;
    do '(err, created) <- emmcfs_create dir name S_IFLNK 0x1FF;
    if negb (err =? 0) then stop err
    else
      match created with
      | None => bug
      | Some n => do err <- page_symlink n (symname ++ [0]); stop err
      end.

(** ** Removal *)

(** The entry leaves the directory and the link the inode:
    [dir->i_size--], the times and [inode_dec_link_count]. *)
Definition drop_entry (dir n : Z) : F unit :=
  do_ change dir (fun d => if size_of d =? 0 then d else set_size (size_of d - 1) d);
  do_ touch_ctime dir;
  do_ touch_mtime dir;
  change n (fun v => set_nlink (u32 (nlink v - 1)) v).

(** The last link is gone: the inode leaves the cache ([remove_inode_hash]) and
    gives its blocks and its number back. *)
Definition delete_inode (n : Z) : F Z :=
  do v <- inode_of n;
  do ret1 <- (if negb (hlink_id (v_attr v) =? INVALID_HLINK_ID)
              then code (in_links (free_hlink_data mounted (hlink_id (v_attr v)))) else ret 0);
  if negb (ret1 =? 0) then stop ret1
  else
    let i := set_i_size (v_inode v) 0 in
    do_ modify (fun s => set_icache (delete n (icache s)) s);
    match i_mode i with
    | S_IFREG | S_IFLNK =>
      do s <- gets (fun s => s);
      let '(r, (i, vol, ids)) :=
        emmcfs_fsm_free_runtime_fork N (x_max_record_len ext) log_pages_per_node mounted (x_beyond ext) (x_grow ext)
          (i, volume s, free_inode_bitmap s) in
      do_ modify (fun s => set_inums ids (set_volume vol s));
      match r with
      | Ok err =>
        if (fork_blocks (i_fork i) =? 0) || negb (err =? 0) then stop err
        else
          do_ stop_transaction;
          match i_mode i with
          | S_IFREG =>
            do s <- gets (fun s => s);
            let '(r, (vol, ids)) :=
              emmcfs_fsm_free_exttree N (x_max_record_len ext) log_pages_per_node mounted (x_beyond ext) (x_grow ext)
                (x_address ext) stale (x_levels ext) fuel n
                (volume s, free_inode_bitmap s) in
            do_ modify (fun s => set_inums ids (set_volume vol s));
            match r with Ok e => do_ BUG_ON (negb (e =? 0)); ret err | _ => bug end
          | _ => ret err
          end
      | _ => bug
      end
    | _ =>
      do err <- code (in_inums (emmcfs_free_inode_n mounted n));
      do_ BUG_ON (negb (err =? 0));
      stop ret1
    end.

(** [emmcfs_unlink] of the entry [name], which stands for the inode [n]. *)
Definition emmcfs_unlink (dir : Z) (name : list Z) (n : Z) : F Z :=
  do key <- try (in_cat (emmcfs_alloc_cattree_key (Z.of_nat (length name)) 0));
  match key with
  | Bug => bug
  | Err e => ret e
  | Ok rm_key =>
    do_ start_transaction;
    let rm_key := emmcfs_fill_cattree_key rm_key dir name in
    do_ mutex_w_lock;
    do err <- code (in_cat (remove rm_key));
    if negb (err =? 0) then do_ mutex_w_unlock; stop err
    else
      do_ drop_entry dir n;
      do_ mutex_w_unlock;
      do_ write_inode dir;
      do v <- inode_of n;
      if negb (nlink v =? 0) then
        do_ touch_ctime n;
        do_ write_inode n;
        stop 0
      else delete_inode n
  end.

(** A directory counts its entries. *)
Definition emmcfs_rmdir (dir : Z) (name : list Z) (n : Z) : F Z :=
  do v <- inode_of n;
  if negb (size_of v =? 0) then ret (- ENOTEMPTY) else emmcfs_unlink dir name n.

(** ** Renaming *)

(** [emmcfs_rename] of the entry of the inode [n]; [target] is the inode that
    the new name stands for. *)
Definition rename_entry (old_dir : Z) (old_name : list Z) (n : Z) (new_dir : Z) (new_name : list Z) : F Z :=
  do_ start_transaction;
  do_ mutex_w_lock;
  do found <- try (in_cat (cattree_find None old_dir old_name true));
  match found with
  | Bug => bug
  | Err e => do_ mutex_w_unlock; stop e
  | Ok (h, pos) =>
    do r <- try (in_cat (emmcfs_get_btree_record h pos));
    match r with
    | Bug => bug
    | Err e => stop e
    | Ok rm_key =>
      do k <- try (in_cat kmalloc);
      match k with
      | Ok _ =>
        let key := copy_of_key rm_key in
        do_ in_cat (emmcfs_put_bnode h);
        do v <- inode_of n;
        do err <- code (in_cat (add_object (v_inode v) (v_attr v) new_dir new_name));
        if negb (err =? 0) then do_ mutex_w_unlock; stop err
        else
          do err <- code (in_cat (remove key));
          do_ BUG_ON (negb (err =? 0));
          do_ change old_dir (fun d => if size_of d =? 0 then d else set_size (size_of d - 1) d);
          do_ change new_dir (fun d => set_size (s64 (size_of d + 1)) d);
          do named <- (if hlink_id (v_attr v) =? INVALID_HLINK_ID then
                         do_ change n (set_place new_dir None);
                         do saved_name <- try (in_cat kmalloc);
                         match saved_name with
                         | Ok _ => do_ change n (set_place new_dir (Some new_name)); ret true
                         | _ => do_ iput n; ret false
                         end
                       else ret true);
          if negb named then stop (- ENOMEM)
          else
            do_ touch_ctime n;
            do_ mutex_w_unlock;
            do err <- write_inode old_dir;
            if negb (err =? 0) then stop err
            else do err <- write_inode new_dir; stop err
      | _ => do_ in_cat (emmcfs_put_bnode h); do_ mutex_w_unlock; stop (- ENOMEM)
      end
    end
  end.

Definition emmcfs_rename (old_dir : Z) (old_name : list Z) (n : Z) (new_dir : Z) (new_name : list Z) (target : option Z) : F Z :=
  if Z.of_nat (length new_name) >? EMMCFS_CAT_MAX_NAME then ret (- ENAMETOOLONG)
  else
    match target with
    | None => rename_entry old_dir old_name n new_dir new_name
    | Some m =>
      do v <- inode_of m;
      if bool_decide (i_mode (v_inode v) = S_IFDIR) && (size_of v >? 0) then ret (- ENOTEMPTY)
      else
        do err <- emmcfs_unlink new_dir new_name m;
        if negb (err =? 0) then ret err else rename_entry old_dir old_name n new_dir new_name
    end.

(** ** Hard links *)

(** [form_hlink_record], [add_hlink_record] *)
Definition hlink_value_bytes (id : Z) : list Z := le_split 2 EMMCFS_CATALOG_HLINK_RECORD ++ le_split 8 id.

Definition form_hlink_record (id par_ino_n : Z) (name : list Z) : M record :=
  do r <- emmcfs_alloc_cattree_key (Z.of_nat (length name)) EMMCFS_CATALOG_HLINK_RECORD;
  let r := emmcfs_fill_cattree_key r par_ino_n name in
  ret (write_at (Z.to_nat (key_len r)) (hlink_value_bytes id) r).

Definition add_hlink_record (id par_ino_n : Z) (name : list Z) : M unit :=
  do r <- form_hlink_record id par_ino_n name; insert r.

(** [clone_data_into_hlink_area]: [INVALID_HLINK_ID] for a failure. *)
Definition clone_data_into_hlink_area (data : list Z) : F Z :=
  do id <- in_links (obtain_hlink_id mounted fuel);
  if id =? INVALID_HLINK_ID then ret id
  else
    do place <- try (get_hlink_value_page id);
    match place with
    | Bug => bug
    | Err _ => ret INVALID_HLINK_ID
    | Ok place =>
      do_ or_bug (in_links (journal_page mounted));
      do_ BUG_ON (Z.of_nat (length data) >? Z.shiftl 1 EMMCFS_LOG_ONE_HLINK_DATA_SZ);
      do_ put_hlink_value place data;
      ret id
    end.

(** The record of the old name becomes one of a hard link, unless it is one:
    the number of the link. *)
Definition make_hlink (n par : Z) (old_name : list Z) : F (Z + Z) :=
  do found <- try (in_cat (cattree_find None par old_name true));
  match found with
  | Bug => bug
  | Err e => ret (inl e)
  | Ok (h, pos) =>
    do r <- try (in_cat (emmcfs_get_btree_record h pos));
    match r with
    | Bug => bug
    | Err e => do_ in_cat (emmcfs_put_bnode h); ret (inl e)
    | Ok found_key =>
      let data := value_of found_key in
      if negb (rec_type data =? EMMCFS_CATALOG_HLINK_RECORD) then
        do id <- clone_data_into_hlink_area (take (Z.to_nat (record_len found_key - key_len found_key)) data);
        if id =? INVALID_HLINK_ID then do_ in_cat (emmcfs_put_bnode h); ret (inl (- EIO))
        else
          do k <- try (in_cat kmalloc);
          match k with
          | Ok _ =>
            do_ in_cat (emmcfs_put_bnode h);
            do err <- code (in_cat (remove (copy_of_key found_key)));
            if negb (err =? 0) then ret (inl err)
            else
              do err <- code (in_cat (add_hlink_record id par old_name));
              do_ BUG_ON (negb (err =? 0));
              do_ change n (fun v => set_hlink id (set_place (v_parent v) None v));
              ret (inr id)
          | _ => do_ in_cat (emmcfs_put_bnode h); ret (inl (- ENOMEM))
          end
      else do_ in_cat (emmcfs_put_bnode h); ret (inr (val_hlink_id data))
    end
  end.

(** [emmcfs_link]: [name] in [dir] becomes a name of the inode [n], which has
    the name [old_name] in the directory [par]. *)
Definition emmcfs_link (n par : Z) (old_name : list Z) (dir : Z) (name : list Z) : F Z :=
  if Z.of_nat (length name) >? EMMCFS_CAT_MAX_NAME then ret (- ENAMETOOLONG)
  else
    do v <- inode_of n;
    do_ BUG_ON (bool_decide (i_mode (v_inode v) = S_IFDIR));
    if nlink v >=? EMMCFS_LINK_MAX then ret (- EMLINK)
    else
      do_ mutex_r_lock;
      do found <- try (in_cat (cattree_find None dir name false));
      do_ (match found with Ok (h, _) => in_cat (emmcfs_put_bnode h) | _ => ret tt end);
      do_ mutex_r_unlock;
      if negb (match found with Err e => e =? - ENOENT | _ => false end) then ret (- EEXIST)
      else
        do_ start_transaction;
        do_ mutex_w_lock;
        do id <- make_hlink n par old_name;
        do err <- (match id with
                   | inl e => ret e
                   | inr id => code (in_cat (add_hlink_record id dir name))
                   end);
        if negb (err =? 0) then do_ mutex_w_unlock; stop err
        else
          do_ touch_ctime n;
          do_ touch_ctime dir;
          do_ touch_mtime dir;
          do_ change n (fun v => set_nlink (u32 (nlink v + 1)) v);
          do_ change dir (fun d => set_size (s64 (size_of d + 1)) d);
          do_ modify (fun s => set_counts (u64 (files_count s + 1)) (ticks s) s);
          do_ mutex_w_unlock;
          do_ write_inode dir;
          do_ write_inode n;
          stop 0.

(** ** Attributes and sizes *)
Section attributes.
(** Answers of the kernel: [inode_change_ok], [inode_newsize_ok],
    [block_truncate_page] (codes), and the flags [S_APPEND] and [S_IMMUTABLE]. *)
Context (inode_change_ok : vfs_inode -> iattr -> Z) (inode_newsize_ok : vfs_inode -> Z -> Z)
  (block_truncate_page : vfs_inode -> Z -> Z) (append_or_immutable : Z -> bool).

(** [setsize] *)
Definition setsize (n newsize : Z) : F Z :=
  do v <- inode_of n;
  if size_of v <=? newsize then ret (- EPERM)
  else if negb (inode_newsize_ok v newsize =? 0) then ret (inode_newsize_ok v newsize)
  else if negb (bool_decide (i_mode (v_inode v) = S_IFREG) || bool_decide (i_mode (v_inode v) = S_IFDIR) ||
                bool_decide (i_mode (v_inode v) = S_IFLNK)) then ret (- EINVAL)
  else if append_or_immutable n then ret (- EPERM)
  else if negb (block_truncate_page v newsize =? 0) then ret (block_truncate_page v newsize)
  else
    let i := set_i_size (v_inode v) newsize in
    do s <- gets (fun s => s);
    let '(r, (i, vol)) :=
      emmcfs_truncate_blocks N (x_max_record_len ext) log_pages_per_node mounted (x_beyond ext) (x_grow ext)
        (x_address ext) stale (x_levels ext)
        block_size_shift fuel newsize (i, volume s) in
    do_ modify (set_volume vol);
    do_ change n (set_inode i);
    match r with
    | Ok err =>
      if negb (err =? 0) then ret err
      else do_ touch_ctime n; do v <- inode_of n; do_ change n (set_mtime (ctime (v_attr v))); ret 0
    | _ => bug
    end.

(** [emmcfs_setattr] *)
Definition emmcfs_setattr (n : Z) (attr : iattr) : F Z :=
  do_ start_transaction;
  do v <- inode_of n;
  if negb (inode_change_ok v attr =? 0) then stop (inode_change_ok v attr)
  else
    do err <- (match ia_size attr with
               | Some size => if negb (size =? size_of v) then setsize n size else ret 0
               | None => ret 0
               end);
    if negb (err =? 0) then stop err
    else
      do_ change n (fun v => set_attr (ia_attr attr (v_attr v)) v);
      do err <- write_inode n;
      stop err.

(** [emmcfs_write_begin], [emmcfs_write_end]: the kernel writes the page in
    between, and says by the code of [block_write_begin] whether it can and how
    many bytes it has copied; the bytes copied are returned. *)
Definition emmcfs_write_begin (rc : Z) : F Z :=
  do_ start_transaction;
  if negb (rc =? 0) then stop rc else ret rc.

Definition emmcfs_write_end (n pos copied : Z) : F Z :=
  do v <- inode_of n;
  if pos + copied >? size_of v then
    do_ change n (set_size (pos + copied));
    do_ write_inode n;
    stop copied
  else stop copied.

(** [emmcfs_direct_IO]; [rc] is the answer of [blockdev_direct_IO]: the bytes
    that it has transferred, or an error. *)
Definition emmcfs_direct_IO (n offset rc : Z) : F Z :=
  do_ start_transaction;
  do v <- inode_of n;
  let i := v_inode v in
  let blocks := u32 (Z.shiftr (i_size i + Z.shiftl 1 block_size_shift - 1) block_size_shift) in
  let new_size :=
    if 0 <=? rc then (if offset + rc >? i_size i then offset + rc else 0)
    else if fork_blocks (i_fork i) >? blocks then u32 (Z.shiftl (fork_blocks (i_fork i)) block_size_shift) else 0 in
  if negb (new_size =? 0) then
    do_ change n (set_size new_size);
    do_ write_inode n;
    stop rc
  else stop rc.
End attributes.
End operations.

(** ** The calls of the VFS *)

(** A call with its arguments, and the answers of the kernel that are not part
    of the state; a write is [emmcfs_write_begin] and, if that succeeds,
    [emmcfs_write_end]. *)
Inductive vfs_call :=
| Create (dir : Z) (name : list Z) (ty : file_type) (perm : Z)
| Mknod (valid : bool) (dir : Z) (name : list Z) (ty : file_type) (perm rdev : Z)
| Unlink (dir : Z) (name : list Z) (n : Z)
| Rmdir (dir : Z) (name : list Z) (n : Z)
| Link (n par : Z) (old_name : list Z) (dir : Z) (name : list Z)
| Readdir (filldir : list dirent -> dirent -> bool) (turns : nat) (dir parent : Z) (f : dir_file)
| Setattr (attr : iattr) (change_ok newsize_ok truncate_page : Z) (append : bool) (n : Z)
| Write (n pos rc copied : Z)
| DirectIO (n offset rc : Z)
| Rename (old_dir : Z) (old_name : list Z) (n new_dir : Z) (new_name : list Z) (target : option Z)
| Lookup (dir : Z) (name : list Z).

Section calls.
Context (N max_record_len log_pages_per_node : Z) (cmpfn : record -> record -> Z) (mounted : bool)
  (beyond : Z -> bool) (grow : Z -> Z -> Z) (address : Z -> Z) (levels : nat) (ext : extents_env) (block_size_shift : Z).
Context (slab : vfs_inode) (exsb_fork : Z -> option emmcfs_fork) (lebs_bm_size : Z).
Context (fuel : nat) (clock : nat -> Z * Z) (stale : list Z).
Context `{BlockAlloc A}.
Context (inode_init_owner : attributes -> file_type -> Z -> Z * Z * Z).
Abbreviation F := (St (fs A)).

(** The result of a call is that it returns. *)
Definition returns {X} (x : F X) : F unit := do_ try x; ret tt.

Definition run_call (c : vfs_call) : F unit :=
  match c with
  | Create dir name ty perm =>
    returns (emmcfs_create N max_record_len log_pages_per_node cmpfn mounted beyond grow block_size_shift slab fuel clock
      inode_init_owner dir name ty perm)
  | Mknod valid dir name ty perm rdev =>
    returns (emmcfs_mknod N max_record_len log_pages_per_node cmpfn mounted beyond grow block_size_shift slab fuel clock
      inode_init_owner (fun _ => valid) dir name ty perm rdev)
  | Unlink dir name n =>
    returns (emmcfs_unlink N max_record_len log_pages_per_node cmpfn mounted beyond grow address levels ext block_size_shift
      fuel clock stale dir name n)
  | Rmdir dir name n =>
    returns (emmcfs_rmdir N max_record_len log_pages_per_node cmpfn mounted beyond grow address levels ext block_size_shift
      fuel clock stale dir name n)
  | Link n par old_name dir name =>
    returns (emmcfs_link N max_record_len log_pages_per_node cmpfn mounted beyond grow address levels block_size_shift
      fuel clock n par old_name dir name)
  | Readdir filldir turns dir parent f => returns (emmcfs_readdir cmpfn mounted beyond grow filldir turns dir parent f)
  | Setattr attr change_ok newsize_ok truncate_page append n =>
    returns (emmcfs_setattr N log_pages_per_node cmpfn mounted beyond grow ext block_size_shift
      fuel clock stale (fun _ _ => change_ok) (fun _ _ => newsize_ok) (fun _ _ => truncate_page) (fun _ => append) n attr)
  | Write n pos rc copied =>
    returns (if rc =? 0 then
               do_ emmcfs_write_begin rc; emmcfs_write_end cmpfn mounted beyond grow block_size_shift n pos copied
             else emmcfs_write_begin rc)
  | DirectIO n offset rc => returns (emmcfs_direct_IO cmpfn mounted beyond grow block_size_shift n offset rc)
  | Rename old_dir old_name n new_dir new_name target =>
    returns (emmcfs_rename N max_record_len log_pages_per_node cmpfn mounted beyond grow address levels ext block_size_shift
      fuel clock stale old_dir old_name n new_dir new_name target)
  | Lookup dir name =>
    returns (emmcfs_lookup cmpfn mounted beyond grow block_size_shift slab exsb_fork lebs_bm_size dir name)
  end.

(** Calls one after the other, whatever they answer. *)
Fixpoint run_calls (l : list vfs_call) : F unit :=
  match l with
  | [] => ret tt
  | c :: l => do_ run_call c; run_calls l
  end.
End calls.
