(* ===== verification/NameiLocks.v ===== *)
(** * The lock of the catalog and the transactions in the operations of the VFS

    A small logic for where a computation takes and gives back the lock of the
    catalog: [moves a b x] says that [x], started in the lock state [a], ends
    in [b] with every answer of the kernel and in every state of the trees, or
    stops at a [BUG_ON], but never waits for itself. *)

From S2P Require Import Prelude Monad Data FsmBtree FsmAlloc Fsm Blocks BnodeBytes BnodeRepr BnodePool Btree.
From S2P Require Import FsmTheorems ExttreeTheorems Exttree Fork InodeIds Truncate Cattree Vfs VfsExample Namei.
Open Scope Z_scope.

Section logic.
Context {A : Type}.
Abbreviation F := (St (fs A)).
Implicit Types (s : fs A).

(** The lock and the depth of the transactions. *)
Definition held s : lock_state * nat := (tree_lock s, nesting s).

(** A computation that does not touch them. *)
Definition quiet {X} (x : F X) : Prop := forall s, held (snd (x s)) = held s.
Definition moves {X} (a b : lock_state * nat) (x : F X) : Prop := forall s, held s = a ->
  match x s with
  | (Ok _, s') => held s' = b
  | (Err _, _) => False
  | (Bug, s') => tree_lock s' <> Deadlocked
  end.

(** ** Computations that do not touch the lock *)
Lemma quiet_ret {X} (a : X) : quiet (ret a).
Proof using. done. Qed.

Lemma quiet_fail {X} e : quiet (fail e : F X).
Proof using. done. Qed.

Lemma quiet_bug {X} : quiet (bug : F X).
Proof using. done. Qed.

Lemma quiet_gets {X} (f : fs A -> X) : quiet (gets f).
Proof using. done. Qed.

Lemma quiet_modify f : (forall s, held (f s) = held s) -> quiet (modify f).
Proof using. intros H s. apply H. Qed.

Lemma quiet_bind {X Y} (x : F X) (f : X -> F Y) : quiet x -> (forall a, quiet (f a)) -> quiet (bind x f).
Proof using.
  intros Hx Hf s. specialize (Hx s). unfold bind. destruct (x s) as [[a|e|] s']; simpl in *; [|done..].
  by rewrite (Hf a s').
Qed.

Lemma quiet_zoom {T X} (get : fs A -> T) set (x : St T X) : (forall t s, held (set t s) = held s) -> quiet (zoom get set x).
Proof using. intros H s. unfold zoom. destruct (x (get s)). apply H. Qed.

Lemma quiet_try {X} (x : F X) : quiet x -> quiet (try x).
Proof using. intros H s. specialize (H s). unfold try. by destruct (x s) as [[a|e|] s']. Qed.

Lemma quiet_inode_of n : quiet (inode_of n : F _).
Proof using. intros s. unfold inode_of, bind, gets. by destruct (icache s !! n). Qed.

Lemma quiet_put n v : quiet (put_vfs n v : F _).
Proof using. done. Qed.

Lemma quiet_change n f : quiet (change n f : F _).
Proof using. apply quiet_bind; [apply quiet_inode_of|intros; apply quiet_put]. Qed.

Lemma quiet_in_hint {X} n (x : St (bnode_hint * btree) X) : quiet (in_hint n x : F X).
Proof using.
  apply quiet_bind; [apply quiet_inode_of|intros v]. apply quiet_bind; [apply quiet_gets|intros t].
  destruct (x (v_hint v, t)) as [r [b t']]. apply quiet_bind; [apply quiet_put|intros _].
  apply quiet_bind; [by apply quiet_modify|intros _]. by destruct r.
Qed.

(** ** Composition *)
Lemma moves_ret {X} a (x : X) : moves a a (ret x : F X).
Proof using. by intros s. Qed.

Lemma moves_bug {X} a b : a.1 <> Deadlocked -> moves a b (bug : F X).
Proof using. intros Ha s <-. exact Ha. Qed.

Lemma moves_bind {X Y} a b c (x : F X) (f : X -> F Y) : moves a b x -> (forall r, moves b c (f r)) -> moves a c (bind x f).
Proof using.
  intros Hx Hf s Hs. specialize (Hx s Hs). unfold bind. destruct (x s) as [[r|e|] s']; [|done..]. by apply Hf.
Qed.

Lemma moves_try {X} a (x : F X) : a.1 <> Deadlocked -> quiet x -> moves a a (try x).
Proof using.
  intros Ha Hx s <-. specialize (Hx s). unfold try, held in *. destruct (x s) as [[r|e|] s']; simpl in *; [done|done|].
  injection Hx as -> _. done.
Qed.

(** The answer of a [try] is not the stop of the kernel. *)
Lemma moves_bind_try {X Y} a c (x : F X) (f : outcome X -> F Y) : a.1 <> Deadlocked -> quiet x ->
  (forall r, r <> Bug -> moves a c (f r)) -> moves a c (bind (try x) f).
Proof using.
  intros Ha Hx Hf s Hs. specialize (Hx s). unfold bind, try. rewrite Hs in Hx.
  destruct (x s) as [[r|e|] s']; simpl in *; [by apply Hf..|].
  destruct a as [l n]. injection Hx as -> _. exact Ha.
Qed.

Lemma moves_code a (x : F unit) : a.1 <> Deadlocked -> quiet x -> moves a a (code x).
Proof using.
  intros Ha Hx. apply moves_bind_try; [done..|]. intros [[]|e|] Hr; [apply moves_ret..|done].
Qed.

Lemma moves_or_bug {X} a (x : F X) : a.1 <> Deadlocked -> quiet x -> moves a a (or_bug x).
Proof using.
  intros Ha Hx. apply moves_bind_try; [done..|].
  intros [r|e|] Hr; [apply moves_ret|by apply moves_bug|done].
Qed.

Lemma moves_gets {X} a (f : fs A -> X) : moves a a (gets f).
Proof using. by intros s. Qed.

Lemma moves_modify a f : (forall s, held (f s) = held s) -> moves a a (modify f).
Proof using. intros H s Hs. unfold modify. simpl. by rewrite H. Qed.

Lemma moves_inode_of a n : a.1 <> Deadlocked -> moves a a (inode_of n : F _).
Proof using. intros Ha s <-. unfold inode_of, bind, gets. by destruct (icache s !! n). Qed.

Lemma moves_put a n v : moves a a (put_vfs n v : F _).
Proof using. by apply moves_modify. Qed.

Lemma moves_change a n f : a.1 <> Deadlocked -> moves a a (change n f : F _).
Proof using. intros Ha. eapply moves_bind; [by apply moves_inode_of|intros; apply moves_put]. Qed.

Lemma moves_BUG_ON a b : a.1 <> Deadlocked -> moves a a (BUG_ON b : F _).
Proof using. intros Ha. destruct b; [by apply moves_bug|apply moves_ret]. Qed.

Lemma moves_if {X} a b (c : bool) (x y : F X) : moves a b x -> moves a b y -> moves a b (if c then x else y).
Proof using. by destruct c. Qed.

(** [emmcfs_put_bnode] has no effect on the tree. *)
Lemma moves_put_bnode a h : moves a a (in_cat (emmcfs_put_bnode h) : F unit).
Proof using.
  intros s <-. unfold in_cat, zoom, emmcfs_put_bnode, __put_bnode. rewrite andb_false_r. done.
Qed.

(** ** The lock and the transactions *)
Lemma moves_w_lock n : moves (Unlocked, n) (WriteLocked, n) (mutex_w_lock : F unit).
Proof using. intros s [= El En]. unfold mutex_w_lock, lock_to. rewrite El. unfold held. simpl. by rewrite En. Qed.

Lemma moves_w_unlock n : moves (WriteLocked, n) (Unlocked, n) (mutex_w_unlock : F unit).
Proof using. intros s [= El En]. unfold mutex_w_unlock, unlock. rewrite El. unfold held. simpl. by rewrite En. Qed.

Lemma moves_r_lock n : moves (Unlocked, n) (ReadLocked 1, n) (mutex_r_lock : F unit).
Proof using. intros s [= El En]. unfold mutex_r_lock, lock_to. rewrite El. unfold held. simpl. by rewrite En. Qed.

Lemma moves_r_unlock n : moves (ReadLocked 1, n) (Unlocked, n) (mutex_r_unlock : F unit).
Proof using. intros s [= El En]. unfold mutex_r_unlock, unlock. rewrite El. unfold held. simpl. by rewrite En. Qed.

Lemma moves_start l n : moves (l, n) (l, S n) (start_transaction : F unit).
Proof using. intros s [= El En]. unfold start_transaction, modify, held. simpl. by rewrite El, En. Qed.

Lemma moves_stop {X} l n (x : X) : moves (l, S n) (l, n) (stop x : F X).
Proof using.
  intros s [= El En]. unfold stop, stop_transaction, bind, gets, modify. rewrite En. unfold held. simpl. by rewrite El.
Qed.

Lemma moves_stop_transaction l n : moves (l, S n) (l, n) (stop_transaction : F unit).
Proof using.
  intros s [= El En]. unfold stop_transaction, bind, gets, modify. rewrite En. unfold held. simpl. by rewrite El.
Qed.
End logic.

(** ** Automation *)
Create HintDb locks.
#[export] Hint Resolve quiet_ret quiet_fail quiet_bug quiet_gets quiet_inode_of quiet_put quiet_change quiet_in_hint : locks.
#[export] Hint Resolve moves_ret moves_put_bnode moves_w_lock moves_w_unlock moves_r_lock moves_r_unlock
  moves_start moves_stop moves_stop_transaction moves_gets moves_put : locks.

Ltac quiet_step :=
  match goal with
  | |- forall _, _ => intros ?
  | |- quiet (modify _) => apply quiet_modify; by intros
  | |- quiet (bind _ _) => apply quiet_bind
  | |- quiet (in_cat _) => apply quiet_zoom; by intros
  | |- quiet (in_inums _) => apply quiet_zoom; by intros
  | |- quiet (in_links _) => apply quiet_zoom; by intros
  | |- quiet (try _) => apply quiet_try
  | |- quiet (or_bug _) => unfold or_bug; apply quiet_bind
  | |- quiet (code _) => unfold code; apply quiet_bind
  | |- quiet (BUG_ON _) => unfold BUG_ON
  | |- quiet (match ?x with _ => _ end) => destruct x
  | |- quiet (let _ := _ in _) => cbv zeta
  | |- quiet _ => solve [eauto with locks nocore]
  end.
Ltac quiet := repeat quiet_step.

Ltac moves_step :=
  match goal with
  | |- forall _, _ <> Bug -> _ => let r := fresh "r" in let H := fresh in intros r H; destruct r; [..|by destruct (H eq_refl)]
  | |- forall _, _ => intros ?
  | |- _ <> Deadlocked => done
  | |- moves _ _ (bind (try _) _) => apply moves_bind_try; [done|quiet|]
  | |- moves _ _ (bind _ _) => eapply moves_bind
  | |- moves _ _ (code (if ?c then _ else _)) => destruct c
  | |- moves _ _ (code _) => apply moves_code; [done|quiet]
  | |- moves _ _ (try _) => apply moves_try; [done|quiet]
  | |- moves _ _ (or_bug _) => apply moves_or_bug; [done|quiet]
  | |- moves _ _ (modify _) => apply moves_modify; by intros
  | |- moves _ _ (inode_of _) => apply moves_inode_of; done
  | |- moves _ _ (change _ _) => apply moves_change; done
  | |- moves _ _ (BUG_ON _) => apply moves_BUG_ON; done
  | |- moves _ _ bug => apply moves_bug; done
  | |- moves _ _ (match ?x with _ => _ end) => destruct x
  | |- moves _ _ (let _ := _ in _) => cbv zeta
  | |- moves _ _ _ => solve [eauto with locks nocore]
  end.
Ltac moves := repeat moves_step.

Section operations.
Context (N max_record_len log_pages_per_node : Z) (cmpfn : record -> record -> Z) (mounted : bool)
  (beyond : Z -> bool) (grow : Z -> Z -> Z) (address : Z -> Z) (levels : nat) (ext : extents_env) (block_size_shift : Z).
Context (slab : vfs_inode) (exsb_fork : Z -> option emmcfs_fork) (lebs_bm_size : Z).
Context (fuel : nat) (clock : nat -> Z * Z) (stale : list Z).
Context `{BlockAlloc A}.
Context (inode_init_owner : attributes -> file_type -> Z -> Z * Z * Z).
Abbreviation write_inode := (emmcfs_write_inode_to_bnode cmpfn mounted beyond grow block_size_shift (A := A)).
Abbreviation create := (emmcfs_create N max_record_len log_pages_per_node cmpfn mounted beyond grow block_size_shift
  slab fuel clock inode_init_owner (A := A)).
Abbreviation unlink := (emmcfs_unlink N max_record_len log_pages_per_node cmpfn mounted beyond grow address levels ext
  block_size_shift fuel clock stale (A := A)).
Abbreviation free := (Unlocked : lock_state).

Lemma write_inode_moves n k : moves (free, k) (free, k) (write_inode n).
Proof using. unfold emmcfs_write_inode_to_bnode, write_to_hlink, write_to_catalog, get_hlink_value_page, hlink_value, put_hlink_value. moves. Qed.

Lemma current_time_moves a : moves a a (current_time clock : St (fs A) _).
Proof using. unfold current_time. moves. Qed.

Lemma iput_moves a n : a.1 <> Deadlocked -> moves a a (iput n : St (fs A) _).
Proof using. intros Ha. unfold iput. moves. Qed.

Lemma new_inode_quiet dir ty perm :
  quiet (emmcfs_new_inode mounted slab fuel clock inode_init_owner dir ty perm : St (fs A) _).
Proof using.
  unfold emmcfs_new_inode, emmcfs_alloc_inode, current_time, code. quiet.
Qed.

Hint Resolve write_inode_moves current_time_moves new_inode_quiet : locks.
Hint Extern 1 (moves _ _ (iput _)) => (apply iput_moves; done) : locks.

Lemma create_moves dir name ty perm k : moves (free, k) (free, k) (create dir name ty perm).
Proof using. unfold emmcfs_create, touch_ctime, touch_mtime. moves. Qed.

Lemma drop_entry_moves dir n a : a.1 <> Deadlocked -> moves a a (drop_entry clock dir n : St (fs A) _).
Proof using. intros Ha. unfold drop_entry, touch_ctime, touch_mtime. moves. Qed.

Lemma delete_inode_moves n k : moves (free, S k) (free, k)
  (delete_inode N log_pages_per_node mounted ext fuel stale n).
Proof using. unfold delete_inode. moves. Qed.

Hint Resolve create_moves delete_inode_moves : locks.
Hint Extern 1 (moves _ _ (drop_entry _ _ _)) => (apply drop_entry_moves; done) : locks.

Lemma unlink_moves dir name n k : moves (free, k) (free, k) (unlink dir name n).
Proof using. unfold emmcfs_unlink, touch_ctime. moves. Qed.

(** A number of a hard link is given, or [INVALID_HLINK_ID], but no error. *)
Lemma obtain_loop_no_error turns c f m e m' : obtain_loop mounted turns c f m <> (Err e, m').
Proof using.
  revert c f m. induction turns as [|turns IH]; intros c f m; [done|]. cbn [obtain_loop].
  unfold bind at 1. unfold try. destruct (emmcfs_read_create_page _ m) as [[page|e'|] m1]; try done.
  destruct (_ <? _); [|apply IH]. unfold or_bug, bind, try.
  destruct (journal_page mounted m1) as [[[]|e'|] m2]; try done.
  destruct (test_and_set_bit _ page) as [[[] page']|]; done.
Qed.

Lemma obtain_moves a : a.1 <> Deadlocked -> moves a a (in_links (obtain_hlink_id mounted fuel) : St (fs A) _).
Proof using.
  intros Ha s <-. unfold in_links, zoom, obtain_hlink_id, bind, gets.
  destruct (obtain_loop _ _ _ _ _) as [[id|e|] m] eqn:E; [done|by apply obtain_loop_no_error in E|done].
Qed.

Lemma clone_moves a data : a.1 <> Deadlocked ->
  moves a a (clone_data_into_hlink_area mounted fuel data : St (fs A) _).
Proof using.
  intros Ha. unfold clone_data_into_hlink_area, get_hlink_value_page, put_hlink_value.
  eapply moves_bind; [by apply obtain_moves|]. moves.
Qed.

Lemma object_of_quiet r : quiet (object_of r : St (fs A) _).
Proof using. unfold object_of, get_params_on_hlink_id, get_hlink_value_page, hlink_value. quiet. Qed.

Lemma store_key_moves a f key : a.1 <> Deadlocked -> moves a a (store_key f key : St (fs A) _).
Proof using. intros Ha. unfold store_key. moves. Qed.

Hint Resolve object_of_quiet : locks.
Hint Extern 1 (moves _ _ (store_key _ _)) => (apply store_key_moves; done) : locks.

Lemma readdir_loop_moves filldir turns dir k : forall h pos key f out,
  moves (ReadLocked 1, k) (ReadLocked 1, k) (readdir_loop mounted beyond grow filldir turns dir h pos key f out : St (fs A) _).
Proof using.
  induction turns as [|turns IH]; intros h pos key f out; cbn [readdir_loop]; [by apply moves_bug|].
  moves.
Qed.

Hint Resolve readdir_loop_moves : locks.

Lemma readdir_records_moves filldir turns dir f out k :
  moves (free, k) (free, k) (readdir_records cmpfn mounted beyond grow filldir turns dir f out : St (fs A) _).
Proof using. unfold readdir_records. moves. Qed.

Hint Resolve readdir_records_moves : locks.
Hint Extern 1 (moves _ _ (clone_data_into_hlink_area _ _ _)) => (apply clone_moves; done) : locks.

Lemma make_hlink_moves n par old_name a : a.1 <> Deadlocked -> moves a a
  (make_hlink N max_record_len log_pages_per_node cmpfn mounted beyond grow address levels fuel n par old_name : St (fs A) _).
Proof using. intros Ha. unfold make_hlink. moves. Qed.

Hint Extern 1 (moves _ _ (make_hlink _ _ _ _ _ _ _ _ _ _ _ _ _)) => (apply make_hlink_moves; done) : locks.

Lemma link_moves n par old_name dir name k : moves (free, k) (free, k)
  (emmcfs_link N max_record_len log_pages_per_node cmpfn mounted beyond grow address levels block_size_shift
     fuel clock n par old_name dir name : St (fs A) _).
Proof using. unfold emmcfs_link, touch_ctime, touch_mtime. moves. Qed.

Lemma setsize_moves newsize_ok truncate_page append n size k : moves (free, k) (free, k)
  (setsize N log_pages_per_node mounted ext block_size_shift fuel clock stale
     newsize_ok truncate_page append n size).
Proof using. unfold setsize, touch_ctime. moves. Qed.

Hint Resolve setsize_moves link_moves unlink_moves : locks.

Lemma setattr_moves attr a1 a2 a3 a4 n k : moves (free, k) (free, k)
  (emmcfs_setattr N log_pages_per_node cmpfn mounted beyond grow ext block_size_shift
     fuel clock stale a1 a2 a3 a4 n attr).
Proof using. unfold emmcfs_setattr. moves. Qed.

Lemma mknod_moves valid dir name ty perm rdev k : moves (free, k) (free, k)
  (emmcfs_mknod N max_record_len log_pages_per_node cmpfn mounted beyond grow block_size_shift slab fuel clock
     inode_init_owner valid dir name ty perm rdev : St (fs A) _).
Proof using. unfold emmcfs_mknod. moves. Qed.

(** [emmcfs_symlink], for a write of the target that uses the lock properly. *)
Lemma symlink_moves page_symlink dir name symname k : (forall n l, moves (free, S k) (free, S k) (page_symlink n l)) ->
  moves (free, k) (free, k)
  (emmcfs_symlink N max_record_len log_pages_per_node cmpfn mounted beyond grow block_size_shift slab fuel clock
     inode_init_owner page_symlink dir name symname : St (fs A) _).
Proof using. intros Hp. unfold emmcfs_symlink. moves. Qed.

Lemma direct_IO_moves n offset rc k : moves (free, k) (free, k)
  (emmcfs_direct_IO cmpfn mounted beyond grow block_size_shift n offset rc : St (fs A) _).
Proof using. unfold emmcfs_direct_IO. moves. Qed.

Lemma write_moves n pos rc copied k : moves (free, k) (free, k)
  (if rc =? 0 then
     do_ emmcfs_write_begin rc; emmcfs_write_end cmpfn mounted beyond grow block_size_shift n pos copied
   else emmcfs_write_begin rc : St (fs A) _).
Proof using.
  unfold emmcfs_write_begin, emmcfs_write_end.
  destruct (rc =? 0); cbn [negb]; [eapply moves_bind|]; [eapply (moves_bind _ (free, S k))| |]; moves.
Qed.

Lemma readdir_moves filldir turns dir parent f k : 2 <= f_pos f \/ (forall out e, filldir out e = true) ->
  moves (free, k) (free, k) (emmcfs_readdir cmpfn mounted beyond grow filldir turns dir parent f : St (fs A) _).
Proof using.
  intros Hf. unfold emmcfs_readdir. destruct Hf as [Hf|Hf].
  - rewrite (proj2 (Z.eqb_neq _ 0)), (proj2 (Z.eqb_neq _ 1)) by lia. moves.
  - cbv zeta beta. rewrite !Hf. cbn [negb]. moves.
Qed.

(** A call that gives the lock back on every path: not the search for a name and
    not the renaming, and the listing only if "." and ".." find room. *)
Definition gives_lock_back (c : vfs_call) : Prop :=
  match c with
  | Readdir filldir _ _ _ f => 2 <= f_pos f \/ (forall out e, filldir out e = true)
  | Rename _ _ _ _ _ _ | Lookup _ _ => False
  | _ => True
  end.

Abbreviation run := (run_call N max_record_len log_pages_per_node cmpfn mounted beyond grow address levels ext block_size_shift
  slab exsb_fork lebs_bm_size fuel clock stale inode_init_owner (A := A)).
Abbreviation run_all := (run_calls N max_record_len log_pages_per_node cmpfn mounted beyond grow address levels ext block_size_shift
  slab exsb_fork lebs_bm_size fuel clock stale inode_init_owner (A := A)).

Lemma returns_moves {X} a b (x : St (fs A) X) : moves a b x -> moves a b (returns x).
Proof using.
  intros Hx s Hs. specialize (Hx s Hs). unfold returns, bind, try. by destruct (x s) as [[r|e|] s'].
Qed.

Lemma call_moves c k : gives_lock_back c -> moves (free, k) (free, k) (run c).
Proof using.
  intros Hc. destruct c; try done; apply returns_moves.
  - apply create_moves.
  - apply mknod_moves.
  - apply unlink_moves.
  - unfold emmcfs_rmdir. moves.
  - apply link_moves.
  - by apply readdir_moves.
  - apply setattr_moves.
  - apply write_moves.
  - apply direct_IO_moves.
Qed.


End operations.

(** ** Calls on a volume *)
#[local] Instance calls_store : BlockAlloc (allocator (T := froot) (J := page_log)) :=
  fsm_block_alloc true 32 example_inode eq_refl page_log_ok.

Definition example_extents_env : extents_env := ExtentsEnv 40 (fun _ => false) Z.max id 5.

(** The clock counts seconds; new inodes belong to the user 7; the memory of an
    inode was one of a file; a removal has five levels to go through. *)
Abbreviation example_calls := (run_calls 4096 479 0 emmcfs_cattree_cmpfn true (fun _ => false) Z.max id 5 example_extents_env 12 vfs_20 (fun _ => None) 0
  5 (fun k => (1000 + Z.of_nat k, 0)) (replicate 12 7) (fun _ _ perm => (7, 8, perm))).

(** A file is created, the file 20 gets a second name and loses the first one,
    it is listed, cut, and removed. *)
Definition day : list vfs_call :=
  [Create 1 [99] S_IFREG 0x1A4; Link 20 1 [98] 1 [101]; Unlink 1 [98] 20;
   Readdir (fun _ _ => true) 10 1 1 (DirFile 0 None);
   Setattr (Iattr (Some 1) (fun a => a)) 0 0 0 false 20; Write 20 0 0 100; Unlink 1 [101] 20].


(** The call number [k] to the kernel is refused. *)
Definition without_memory (k : nat) (s : fs (allocator (T := froot) (J := page_log))) : fs (allocator (T := froot) (J := page_log)) :=
  set_catalog (set_answers (catalog_tree s) (replicate k 0 ++ [- ENOMEM])) s.

Abbreviation example_rename := (emmcfs_rename 4096 479 0 emmcfs_cattree_cmpfn true (fun _ => false) Z.max id 5 example_extents_env 12
  5 (fun k => (1000 + Z.of_nat k, 0)) (replicate 12 7) 1 [98] 20 1 [120] None).
Abbreviation example_search := (emmcfs_lookup emmcfs_cattree_cmpfn true (fun _ => false) Z.max 12 vfs_20 (fun _ => None) 0 1 [98]).

(** Two calls break the rule.  [emmcfs_rename] without memory for the copy of
    the new name returns [-ENOMEM] with the lock of the catalog held for
    writing, [emmcfs_lookup] whose search is refused with the lock held for
    reading; the next creation waits for it forever. *)
Theorem failed_calls_keep_the_lock :
  let '(r1, s1) := example_rename (without_memory 12 mounted_fs) in
  let '(r2, s2) := example_search (without_memory 1 mounted_fs) in
  let next s := example_calls [Create 1 [121] S_IFREG 0x1A4] s in
  r1 = Ok (- ENOMEM) /\ tree_lock s1 = WriteLocked /\ tree_lock (snd (next s1)) = Deadlocked /\
  r2 = Err (- ENOMEM) /\ tree_lock s2 = ReadLocked 1 /\ tree_lock (snd (next s2)) = Deadlocked /\
  fst (example_rename mounted_fs) = Ok 0.
Proof. by vm_compute. Qed.
