(* ===== verification/NameiTheorems.v ===== *)
(** * The properties of the operations on names

    Search, creation, removal, renaming and listing as operations on the map
    from a directory and a name to a record; the round trip of an inode through
    its record. *)

From S2P Require Import Prelude Monad Data FsmBtree FsmAlloc Fsm Blocks BnodeBytes BnodeRepr BnodePool BnodePoolProofs.
From S2P Require Import Btree BtreeInv BtreeFind BtreeInsert BtreeSpec Exttree Fork ForkProofs ForkTheorems InodeIds Truncate.
From S2P Require Import FsmTheorems Cattree CattreeProofs CattreeTheorems Vfs VfsProofs VfsExample Namei NameiLocks.
Open Scope Z_scope.

Section search.
Context (N max_record_len log_pages_per_node : Z) (fold : Z -> Z) (mounted : bool) (beyond : Z -> bool)
  (grow : Z -> Z -> Z) (block_size_shift : Z).
Context (HN : node_size_ok N) (Hshift : 0 <= block_size_shift <= 31).
Context {A : Type} (slab : vfs_inode) (exsb_fork : Z -> option emmcfs_fork) (lebs_bm_size : Z).
Abbreviation cmpfn := (cattree_cmp fold).
Abbreviation cat_ok := (tree_ok N max_record_len cmpfn (cat_key_ok fold)).
Abbreviation catalog := (catalog fold).
Abbreviation write_inode := (emmcfs_write_inode_to_bnode cmpfn mounted beyond grow block_size_shift (A := A)).
Abbreviation lookup := (emmcfs_lookup cmpfn mounted beyond grow block_size_shift slab exsb_fork lebs_bm_size (A := A)).
Abbreviation iget := (emmcfs_iget cmpfn mounted beyond grow block_size_shift slab exsb_fork lebs_bm_size (A := A)).
Implicit Types (s : fs A).

(** A state between two operations, and a directory in memory. *)
Record at_rest s (lv : list level) : Prop := {
  ar_tree : cat_ok (catalog_tree s) lv;
  ar_calm : calm (catalog_tree s);
  ar_lock : tree_lock s = Unlocked
}.

Definition is_dir s (dir : Z) : Prop := 0 <= dir < 2 ^ 31 /\ exists d, icache s !! dir = Some d /\ i_mode (v_inode d) = S_IFDIR.

(** The search up to the object of the record that is found. *)
Lemma wp_lookup s lv dir name Q : at_rest s lv -> is_dir s dir -> name_ok fold name ->
  (catalog (elements lv) !! place_of fold dir name = None -> forall t, t ≈ catalog_tree s -> calm t ->
     Q (Ok None) (set_catalog t s)) ->
  (forall x h pos t, located fold lv t h pos (place_of fold dir name) x -> t ≈ catalog_tree s -> calm t ->
     wp (do '(obj_id, _) <- object_of x;
         do found <- try (iget obj_id (Some (h, pos)));
         do_ in_cat (emmcfs_put_bnode h);
         do_ mutex_r_unlock;
         match found with Ok _ => ret (Some obj_id) | _ => ret None end)
       (set_catalog t (set_lock (ReadLocked 1) (nesting s) s)) Q) ->
  wp (lookup dir name) s Q.
Proof using HN.
  intros [Ht Hc Hl] (Hdir & d & Hd & Hmode) Hname Hnone Hsome. unfold emmcfs_lookup.
  pose proof (nk_len _ _ Hname) as Hlen. unfold EMMCFS_UNICODE_STRING_MAX_LEN in Hlen.
  destruct (Z.gtb_spec (Z.of_nat (length name)) EMMCFS_CAT_MAX_NAME) as [H|_]; [unfold EMMCFS_CAT_MAX_NAME in H; lia|].
  apply (wp_inode_of dir d); [done|]. rewrite bool_decide_eq_true_2 by done. cbn [negb].
  eapply (wp_in_cat _ _ _ (fun _ t => t ≈ catalog_tree s /\ calm t)).
  { apply wp_kmalloc_ok; [done|]. by intros. }
  intros [] t1 [S1 C1]. cbv zeta. apply wp_bind.
  unfold wp at 1, mutex_r_lock, lock_to. cbn [set_catalog tree_lock]. rewrite Hl. cbn [fst snd].
  assert (cat_ok t1 lv) as Ht1 by (by eapply tree_ok_sim; [symmetry|]).
  destruct (elements_sorted _ _ _ _ _ _ Ht) as [_ Hk].
  eapply (wp_in_cat _ _ _ (fun hp t => t ≈ t1 /\ calm t /\ exists q x, elements lv !! q = Some x /\
    record_at t hp.1 hp.2 = Some x /\ leaf_place lv hp.1 hp.2 q /\
    (key_of fold x <> place_of fold dir name -> catalog (elements lv) !! place_of fold dir name = None))).
  { eapply wp_mono; [by apply (wp_find_name N max_record_len fold mounted beyond grow t1 lv)|].
    intros [[h pos]|e|] t2 H; [|by destruct H as [_ []]|by destruct H as [[] _]].
    destruct H as (S2 & C2 & _ & _ & q & x & H1 & H2 & _ & H3 & H4). split; [done|]. split; [by apply C2|].
    by exists q, x. }
  intros [h pos] t2 (S2 & C2 & q & x & Hq & Hat & Hpl & Hno). cbn [fst snd] in *.
  assert (cat_ok t2 lv) as Ht2 by (by eapply tree_ok_sim; [symmetry|]).
  eapply (wp_in_cat _ _ _ (fun r t => r = x /\ t = t2)).
  { by apply (wp_get_btree_record N max_record_len cmpfn (cat_key_ok fold) t2 lv h pos q x). }
  intros r t3 [-> ->]. pose proof (Forall_lookup_1 _ _ _ _ Hk Hq) as Hkx.
  rewrite (proj2 (search_key_cmp fold dir name x Hdir Hname)).
  destruct (name_key_fields fold dir name Hdir Hname) as [Hkk Ek].
  destruct (cattree_cmp_spec fold x _ Hkx Hkk) as (_ & Heq & _). rewrite Ek in Heq.
  destruct (Z.eqb_spec (cmpfn x (name_key dir name)) 0) as [E|E]; cbn [negb].
  - replace (set_catalog t2 (set_catalog t2 (set_lock (ReadLocked 1) (nesting (set_catalog t1 s)) (set_catalog t1 s))))
      with (set_catalog t2 (set_lock (ReadLocked 1) (nesting s) s)) by (by destruct s).
    apply (Hsome x h pos); [|by rewrite S2|done]. split; [|split; [done|by exists q]].
    apply (found_entry N max_record_len fold t2); [done|by eapply list_elem_of_lookup_2|by apply Heq].
  - eapply (wp_in_cat _ _ _ (fun _ t => t = t2)).
    { unfold emmcfs_put_bnode, __put_bnode. rewrite andb_false_r. by apply wp_ret. }
    intros [] t3 ->. apply wp_bind. unfold wp at 1, mutex_r_unlock, unlock. cbn [set_catalog set_lock tree_lock fst snd].
    apply wp_ret.
    replace (set_lock _ _ _) with (set_catalog t2 s) by (destruct s; simpl in *; by subst).
    apply Hnone; [|by rewrite S2|done]. apply Hno. intros E'. by apply E, Heq.
Qed.

(** A record that is not one of a hard link. *)
Definition plain_entry (x : record) : Prop := rec_type (value_of x) <> EMMCFS_CATALOG_HLINK_RECORD.

Lemma object_of_plain x : plain_entry x -> object_of x = ret (A := Z * Z) (S := fs A) (val_object_id (value_of x), rec_type (value_of x)).
Proof using. intros Hx. unfold object_of. by rewrite (proj2 (Z.eqb_neq _ _)). Qed.

(** The end of the search once the inode is there. *)
Lemma wp_lookup_found s (P : gmap Z vfs_inode -> Prop) obj h pos t :
  wp (iget obj (Some (h, pos))) (set_catalog t (set_lock (ReadLocked 1) (nesting s) s))
    (ok (fun _ s' => exists t' c, s' = set_catalog t' (set_icache c (set_lock (ReadLocked 1) (nesting s) s)) /\
       t' ≈ catalog_tree s /\ calm t' /\ P c)) ->
  tree_lock s = Unlocked ->
  wp (do found <- try (iget obj (Some (h, pos)));
      do_ in_cat (emmcfs_put_bnode h);
      do_ mutex_r_unlock;
      match found with Ok _ => ret (Some obj) | _ => ret None end)
    (set_catalog t (set_lock (ReadLocked 1) (nesting s) s))
    (ok (fun r s' => r = Some obj /\ exists t' c, s' = set_catalog t' (set_icache c s) /\ t' ≈ catalog_tree s /\ calm t' /\ P c)).
Proof using.
  intros Hi Hl. eapply wp_try_ok; [exact Hi|]. intros [] s' (t' & c & -> & S & C & HP).
  eapply (wp_in_cat _ _ _ (fun _ t => t = t')).
  { unfold emmcfs_put_bnode, __put_bnode. rewrite andb_false_r. by apply wp_ret. }
  intros [] t3 ->. apply wp_bind. unfold wp at 1, mutex_r_unlock, unlock. cbn [set_catalog set_icache set_lock tree_lock fst snd].
  apply wp_ret. split; [done|]. exists t', c. split; [by destruct s; simpl in *; subst|done].
Qed.

Lemma at_rest_catalog s lv c t : at_rest s lv -> t ≈ catalog_tree s -> calm t -> at_rest (set_catalog t (set_icache c s)) lv.
Proof using. intros [H1 H2 H3] S C. constructor; [by eapply tree_ok_sim; [symmetry|]|done|done]. Qed.

Lemma wp_lookup_none s lv dir name : at_rest s lv -> is_dir s dir -> name_ok fold name ->
  catalog (elements lv) !! place_of fold dir name = None ->
  wp (lookup dir name) s (ok (fun r s' => r = None /\ icache s' = icache s /\ at_rest s' lv)).
Proof using HN.
  intros Hs Hdir Hname Hno. apply (wp_lookup s lv); try done.
  - intros _ t S C. split; [done|]. split; [done|].
    destruct Hs as [H1 H2 H3]. constructor; [by eapply tree_ok_sim; [symmetry|]|done|done].
  - intros x h pos t (E & _) _ _. congruence.
Qed.

Lemma wp_lookup_cached s lv dir name x : at_rest s lv -> is_dir s dir -> name_ok fold name ->
  catalog (elements lv) !! place_of fold dir name = Some x -> plain_entry x ->
  is_Some (icache s !! val_object_id (value_of x)) ->
  wp (lookup dir name) s (ok (fun r s' => r = Some (val_object_id (value_of x)) /\ icache s' = icache s /\ at_rest s' lv)).
Proof using HN.
  intros Hs Hdir Hname Hx Hplain Hin. apply (wp_lookup s lv); try done; [congruence|].
  intros y h pos t (E & _) S C. assert (y = x) as -> by congruence. rewrite object_of_plain by done. apply wp_bind, wp_ret.
  eapply wp_ok_mono.
  - apply (wp_lookup_found s (fun c => c = icache s)); [|apply Hs]. unfold emmcfs_iget. apply wp_bind, wp_ret, wp_gets.
    cbn [set_catalog set_lock icache]. rewrite bool_decide_eq_true_2 by done. apply wp_ret. exists t, (icache s).
    split; [by destruct s|done].
  - intros r s' (-> & t' & c & -> & S' & C' & ->). split; [done|]. split; [done|]. by apply at_rest_catalog.
Qed.

Lemma written_object v y es : has_room v y -> storable block_size_shift v es ->
  val_object_id (value_of (with_value block_size_shift v y)) = ino (v_inode v) /\
  plain_entry (with_value block_size_shift v y).
Proof using.
  intros Hroom Hst. pose proof (storable_shape block_size_shift v es Hst) as Hsh.
  destruct (with_value_value block_size_shift v y Hroom Hsh) as [rest E].
  pose proof (old_value_length v y Hroom) as Hold.
  destruct (value_fields block_size_shift v (value_of y) rest ltac:(lia) (st_fits _ _ _ Hst)) as (Et & _ & _ & Eo & _).
  unfold plain_entry. rewrite E, Et, Eo. split; [done|]. by destruct (i_mode (v_inode v)).
Qed.

Lemma wp_lookup_written s lv dir name v es y : at_rest s lv -> is_dir s dir -> name_ok fold name ->
  catalog (elements lv) !! place_of fold dir name = Some (with_value block_size_shift v y) ->
  has_room v y -> names fold v y -> storable block_size_shift v es ->
  EMMCFS_1ST_FILE_INO <= ino (v_inode v) -> icache s !! ino (v_inode v) = None ->
  wp (lookup dir name) s (ok (fun r s' => r = Some (ino (v_inode v)) /\ at_rest s' lv /\
    exists v1, icache s' = <[ino (v_inode v) := v1]> (icache s) /\ reread block_size_shift v v1)).
Proof using HN Hshift.
  intros Hs Hdir Hname Hx Hroom Hnm Hst Hino Hno. apply (wp_lookup s lv); try done; [congruence|].
  intros x h pos t Hloc S C. assert (x = with_value block_size_shift v y) as -> by (destruct Hloc as (E & _); congruence).
  destruct (written_object v y es Hroom Hst) as [Eo Hplain].
  rewrite object_of_plain by done. apply wp_bind, wp_ret. rewrite Eo.
  assert (cat_ok t lv) as Ht by (destruct Hs; by eapply tree_ok_sim; [symmetry|]).
  eapply wp_ok_mono.
  - apply (wp_lookup_found s (fun c => exists v1, c = <[ino (v_inode v) := v1]> (icache s) /\ reread block_size_shift v v1)); [|apply Hs].
    eapply wp_ok_mono.
    + apply (wp_iget_written N max_record_len fold mounted beyond grow block_size_shift HN Hshift slab exsb_fork lebs_bm_size
        _ lv h pos (place_of fold dir name) v es y); done.
    + intros [] s' (t' & v1 & -> & S' & C' & Hrr & _). cbn [set_catalog set_lock catalog_tree icache] in *.
      exists t', (<[ino (v_inode v) := v1]> (icache s)). split; [by destruct s|]. split; [by rewrite S'|].
      split; [done|]. by exists v1.
  - intros r s' (-> & t' & c & -> & S' & C' & v1 & -> & Hrr). split; [done|]. split; [by apply at_rest_catalog|].
    by exists v1.
Qed.

(** C6: [emmcfs_lookup] answers for the name in the catalog: none if the
    directory has no such name; for a record that is no hard link the number of
    its object, whose inode it leaves in memory: the one that was there, or the
    one that was written to the record.  The lock is given back. *)
Theorem emmcfs_lookup_correct s lv dir name : at_rest s lv -> is_dir s dir -> name_ok fold name ->
  match catalog (elements lv) !! place_of fold dir name with
  | None => exists s', lookup dir name s = (Ok None, s') /\ icache s' = icache s /\ at_rest s' lv
  | Some x =>
    (plain_entry x -> is_Some (icache s !! val_object_id (value_of x)) ->
      exists s', lookup dir name s = (Ok (Some (val_object_id (value_of x))), s') /\ icache s' = icache s /\ at_rest s' lv) /\
    (forall v es y, x = with_value block_size_shift v y -> has_room v y -> names fold v y -> storable block_size_shift v es ->
      EMMCFS_1ST_FILE_INO <= ino (v_inode v) -> icache s !! ino (v_inode v) = None ->
      exists s' v1, lookup dir name s = (Ok (Some (ino (v_inode v))), s') /\
        icache s' = <[ino (v_inode v) := v1]> (icache s) /\ reread block_size_shift v v1 /\ at_rest s' lv)
  end.
Proof using HN Hshift.
  intros Hs Hdir Hname. destruct (catalog (elements lv) !! place_of fold dir name) as [x|] eqn:Hx.
  - split.
    + intros Hplain Hin. pose proof (wp_lookup_cached s lv dir name x Hs Hdir Hname Hx Hplain Hin) as H. unfold wp in H.
      destruct (lookup dir name s) as [[r|e|] s']; [|done|done]. destruct H as (-> & H). by exists s'.
    + intros v es y -> Hroom Hnm Hst Hino Hno.
      pose proof (wp_lookup_written s lv dir name v es y Hs Hdir Hname Hx Hroom Hnm Hst Hino Hno) as H. unfold wp in H.
      destruct (lookup dir name s) as [[r|e|] s']; [|done|done]. destruct H as (-> & H1 & v1 & H2 & H3). by exists s', v1.
  - pose proof (wp_lookup_none s lv dir name Hs Hdir Hname Hx) as H. unfold wp in H.
    destruct (lookup dir name s) as [[r|e|] s']; [|done|done]. destruct H as (-> & H). by exists s'.
Qed.

(** Out of memory, as the kernel does with inodes that nobody uses. *)
Definition forget (n : Z) : St (fs A) unit := modify (fun s => set_icache (delete n (icache s)) s).

(** C27: an inode survives in its record: after [emmcfs_write_inode_to_bnode] it
    can be dropped from memory, and the next [emmcfs_lookup] of its name brings
    it back with its mode, owner, links, times, name, size and extents (a device
    with its number); blocks that are allocated behind the end are lost. *)
Theorem write_lookup_roundtrip s lv n v es name x : at_rest s lv -> icache s !! n = Some v -> n = ino (v_inode v) ->
  hint_ok (catalog_tree s) lv (v_hint v) -> backed fold lv v name x -> names fold v x -> storable block_size_shift v es ->
  is_dir s (v_parent v) -> v_parent v <> n ->
  exists s' v1, (do_ write_inode n; do_ forget n; lookup (v_parent v) name) s = (Ok (Some n), s') /\
    icache s' !! n = Some v1 /\ reread block_size_shift v v1.
Proof using HN Hshift.
  intros [Ht Hc Hl] Hv Hn Hb Hbk Hnm Hst (Hp & d & Hd & Hmode) Hne.
  enough (wp (do_ write_inode n; do_ forget n; lookup (v_parent v) name) s (ok (fun r s' => r = Some n /\
    exists v1, icache s' !! n = Some v1 /\ reread block_size_shift v v1))) as H.
  { unfold wp in H. destruct (bind _ _ s) as [[r|e|] s']; [|done|done]. destruct H as (-> & v1 & H). by exists s', v1. }
  eapply wp_seq; [by apply (wp_write_inode N max_record_len fold mounted beyond grow block_size_shift HN s lv n v name x)|].
  intros r s1 [-> (t' & lv' & b & -> & Hvs & _)]. unfold forget. apply wp_modify.
  cbn [set_catalog set_icache icache catalog_tree].
  match goal with |- wp _ ?s2 _ => assert (at_rest s2 lv') as Hrest end.
  { constructor; [apply Hvs|apply Hvs|done]. }
  eapply wp_ok_mono.
  - apply (wp_lookup_written _ lv' (v_parent v) name v es x); try done.
    + split; [done|]. exists d. split; [|done]. cbn [set_catalog set_icache icache].
      by rewrite lookup_delete_ne, lookup_insert_ne.
    + apply Hbk.
    + rewrite (vs_catalog _ _ _ _ _ _ _ _ _ Hvs). by rewrite lookup_insert_eq.
    + apply Hbk.
    + apply Hbk.
    + cbn [set_catalog set_icache icache]. rewrite <- Hn. apply lookup_delete_eq.
  - intros r s' (-> & _ & v1 & E & Hrr). rewrite <- Hn in *. split; [done|]. exists v1. rewrite E. by rewrite lookup_insert_eq.
Qed.
End search.

(** ** At work *)
Lemma mounted_at_rest : at_rest 4096 479 same mounted_fs volume_levels.
Proof. constructor; [apply volume_catalog_ok|constructor|done]. Qed.

Lemma linked_at_rest links : at_rest 4096 479 same (linked_fs links) linked_levels.
Proof. constructor; [apply linked_catalog_ok|constructor|done]. Qed.

Lemma root_is_dir : is_dir mounted_fs 1.
Proof. split; [lia|]. by exists root_inode. Qed.

Abbreviation example_lookup := (emmcfs_lookup emmcfs_cattree_cmpfn true (fun _ => false) Z.max 12 root_inode (fun _ => None) 0).

(** The name "b" stands for the file 20, which is in memory; "c" for nothing. *)
Lemma emmcfs_lookup_correct_witness :
  (exists s', example_lookup 1 [98] mounted_fs = (Ok (Some 20), s') /\ icache s' = icache mounted_fs) /\
  exists s', example_lookup 1 [99] mounted_fs = (Ok None, s').
Proof.
  pose proof (emmcfs_lookup_correct 4096 479 same true (fun _ => false) Z.max 12 ltac:(unfold node_size_ok; lia) ltac:(lia)
    root_inode (fun _ => None) 0 mounted_fs volume_levels 1) as W.
  split.
  - destruct (W [98] mounted_at_rest root_is_dir b_ok) as [Hin _].
    destruct Hin as (s' & E & Hc & _); [by vm_compute|by vm_compute; eexists|]. exists s'. split; [exact E|exact Hc].
  - specialize (W [99] mounted_at_rest root_is_dir ltac:(by apply ascii_name_ok; [vm_compute|simpl; lia])).
    assert (catalog same (elements volume_levels) !! place_of same 1 [99] = None) as Hno by (vm_compute; reflexivity).
    rewrite Hno in W. destruct W as (s' & E & _). exists s'. exact E.
Defined.

Lemma write_lookup_roundtrip_witness :
  exists s' v1, (do_ emmcfs_write_inode_to_bnode emmcfs_cattree_cmpfn true (fun _ => false) Z.max 12 20; do_ forget 20; example_lookup 1 [98])
      mounted_fs = (Ok (Some 20), s') /\ icache s' !! 20 = Some v1 /\ i_size (v_inode v1) = 8000 /\ v_attr v1 = v_attr vfs_20.
Proof.
  destruct (write_lookup_roundtrip 4096 479 same true (fun _ => false) Z.max 12 ltac:(unfold node_size_ok; lia) ltac:(lia)
    root_inode (fun _ => None) 0 mounted_fs volume_levels 20 vfs_20 [Extent 4 2] [98] entry_20 mounted_at_rest)
    as (s' & v1 & E & E1 & Hr); [reflexivity|reflexivity|apply vfs_20_hint|apply vfs_20_backed|apply vfs_20_names|
      apply vfs_20_storable|apply root_is_dir|done|].
  exists s', v1. split; [exact E|]. split; [exact E1|]. split; [apply (rr_size _ _ _ Hr); reflexivity|apply (rr_attr _ _ _ Hr)].
Defined.
