(* ===== verification/NameiCreate.v ===== *)
(** * The creation of an entry

    [emmcfs_create] as an operation on the map of the catalog, the numbers in
    use and the inodes in memory. *)

From S2P Require Import Prelude Monad Data FsmBtree FsmAlloc Fsm Blocks BnodeBytes BnodeRepr BnodePool BnodePoolProofs.
From S2P Require Import Btree BtreeInv BtreeFind BtreeInsert BtreeSpec Exttree Fork ForkProofs ForkTheorems InodeIds InodeIdsTheorems.
From S2P Require Import Truncate TruncateTheorems FsmTheorems ExttreeTheorems Cattree CattreeProofs CattreeTheorems Vfs VfsProofs VfsExample.
From S2P Require Import Namei NameiLocks NameiTheorems.
Open Scope Z_scope.

(** ** Rules for the changes of an inode *)
Section rules.
Context {A : Type} (clock : nat -> Z * Z).
Abbreviation F := (St (fs A)).
Implicit Types (s : fs A) (v : vfs_inode).

Definition put_inode (n : Z) v s : fs A := set_icache (<[n := v]> (icache s)) s.
Definition tick s : fs A := set_counts (files_count s) (S (ticks s)) s.

Lemma wp_change {Y} n v g (f : unit -> F Y) s Q : icache s !! n = Some v -> wp (f tt) (put_inode n (g v) s) Q ->
  wp (bind (change n g) f) s Q.
Proof using. intros Hv Hf. unfold change. apply wp_bind, (wp_inode_of n v); [done|]. exact Hf. Qed.

Lemma wp_current_time {Y} (f : Z * Z -> F Y) s Q : wp (f (clock (ticks s))) (tick s) Q -> wp (bind (current_time clock) f) s Q.
Proof using. intros Hf. exact Hf. Qed.

(** [i_ctime] and [i_mtime], one after the other. *)
Definition touched (k : nat) v : vfs_inode := set_mtime (clock (S k)) (set_ctime (clock k) v).

Lemma wp_touch {Y} n v (k : F Y) s Q : icache s !! n = Some v ->
  wp k (put_inode n (touched (ticks s) v) (tick (tick s))) Q ->
  wp (do_ touch_ctime clock n; do_ touch_mtime clock n; k) s Q.
Proof using.
  intros Hv Hf. unfold touch_ctime, touch_mtime. apply wp_bind, wp_current_time.
  unfold change at 1. apply (wp_inode_of n v); [done|]. unfold put_vfs. unfold wp at 1, modify. cbn [fst snd].
  apply wp_bind, wp_current_time. unfold change. eapply wp_inode_of; [apply lookup_insert_eq|].
  unfold put_vfs, wp at 1, modify. cbn [fst snd]. unfold put_inode, touched in Hf. unfold set_icache, tick, set_counts in *.
  cbn in *. by rewrite insert_insert_eq.
Qed.

Lemma wp_stop {X} (x : X) s k (Q : outcome X -> fs A -> Prop) : nesting s = S k -> Q (Ok x) (set_lock (tree_lock s) k s) -> wp (stop x) s Q.
Proof using. intros E HQ. unfold wp, stop, stop_transaction, bind, gets, modify, ret. by rewrite E. Qed.

Lemma wp_in_inums {X Y} (x : St id_map X) (f : X -> F Y) s (P : X -> id_map -> Prop) Q : wp x (free_inode_bitmap s) (ok P) ->
  (forall a m, P a m -> wp (f a) (set_inums m s) Q) -> wp (bind (in_inums x) f) s Q.
Proof using.
  intros Hx Hf. eapply (wp_seq _ _ _ (fun a s' => exists m, s' = set_inums m s /\ P a m)).
  - apply wp_zoom. eapply wp_mono; [exact Hx|]. intros [a|e|] m H; [by exists m|done|done].
  - intros a s' (m & -> & Hm). by apply Hf.
Qed.
End rules.

Ltac fields := cbn [put_inode set_icache tick set_counts set_catalog set_inums set_lock icache catalog_tree tree_lock nesting
  free_inode_bitmap hard_links hlink_pages volume files_count ticks] in *.

Section create.
Context (N max_record_len log_pages_per_node : Z) (fold : Z -> Z) (mounted : bool) (beyond : Z -> bool)
  (grow : Z -> Z -> Z) (block_size_shift : Z).
Context (HN : node_size_ok N) (Hmax : max_record_len + 31 <= N / 2) (Hrec : 282 + sizeof_file_record <= max_record_len).
Context {A : Type} (slab : vfs_inode) (fuel : nat) (clock : nat -> Z * Z)
  (inode_init_owner : attributes -> file_type -> Z -> Z * Z * Z).
Abbreviation cmpfn := (cattree_cmp fold).
Abbreviation cat_ok := (tree_ok N max_record_len cmpfn (cat_key_ok fold)).
Abbreviation catalog := (catalog fold).
Abbreviation at_rest := (at_rest N max_record_len fold (A := A)).
Abbreviation used := (id_used id).
Abbreviation write_inode := (emmcfs_write_inode_to_bnode cmpfn mounted beyond grow block_size_shift (A := A)).
Abbreviation new_inode := (emmcfs_new_inode mounted slab fuel clock inode_init_owner (A := A)).
Abbreviation create := (emmcfs_create N max_record_len log_pages_per_node cmpfn mounted beyond grow block_size_shift slab fuel clock
  inode_init_owner (A := A)).
Implicit Types (s : fs A) (v d : vfs_inode).

(** ** The record of a directory that has changed *)

(** The catalog with the value of the inode in its record; the inodes below
    [EMMCFS_1ST_FILE_INO], the root among them, are never written. *)
Definition save_record v (c : gmap (Z * list Z) record) : gmap (Z * list Z) record :=
  if ino (v_inode v) <? EMMCFS_1ST_FILE_INO then c
  else
    match v_name v with
    | Some name =>
      match c !! place_of fold (v_parent v) name with
      | Some x => <[place_of fold (v_parent v) name := with_value block_size_shift v x]> c
      | None => c
      end
    | None => c
    end.

(** An inode that can be saved after the tree has changed: the root, or one with
    its record in the catalog and a hint that lasts. *)
Definition saved (t : btree) lv d : Prop :=
  ino (v_inode d) < EMMCFS_1ST_FILE_INO \/ hint_lasts t lv (v_hint d) /\ exists name x, backed fold lv d name x.

(** What the tree of the volume, the hard links and the transactions keep. *)
Definition others s s' : Prop :=
  volume s' = volume s /\ hard_links s' = hard_links s /\ hlink_pages s' = hlink_pages s /\ nesting s' = nesting s.

Definition dir_saved s s' lv n d : Prop := exists lv' b,
  at_rest s' lv' /\ account (catalog_tree s') lv' = account (catalog_tree s) lv /\
  catalog (elements lv') = save_record d (catalog (elements lv)) /\
  icache s' = <[n := with_hint b d]> (icache s) /\
  s' = Fs (icache s') (catalog_tree s') Unlocked (nesting s) (free_inode_bitmap s) (hard_links s) (hlink_pages s)
         (volume s) (files_count s) (ticks s).

Lemma wp_save s lv n d : at_rest s lv -> icache s !! n = Some d -> saved (catalog_tree s) lv d ->
  wp (write_inode n) s (ok (fun r s' => r = 0 /\ dir_saved s s' lv n d)).
Proof using HN.
  intros Hs Hd [Hlt|(Hh & name & x & Hb)].
  - unfold emmcfs_write_inode_to_bnode. apply (wp_inode_of n d); [done|]. rewrite (proj2 (Z.ltb_lt _ _)) by done.
    apply wp_ret. split; [done|]. exists lv, (v_hint d). split; [done|]. split; [done|]. unfold save_record.
    rewrite (proj2 (Z.ltb_lt _ _)) by done. split; [done|]. split; [|destruct Hs as [_ _ Hl], s; simpl in *; by subst].
    replace (with_hint (v_hint d) d) with d by (by destruct d). by rewrite insert_id.
  - destruct Hs as [Ht Hc Hl]. eapply wp_ok_mono.
    { apply (wp_write_inode N max_record_len fold mounted beyond grow block_size_shift HN s lv n d name x); try done.
      by apply hint_lasts_ok. }
    intros r s' [-> (t' & lv' & b & -> & Hst & Hhint)]. split; [done|]. exists lv', b.
    destruct Hst as [V1 V2 V3 V4 V5 V6 V7]. destruct Hb as [B1 B2 B3 B4 B5 B6 B7 B8]. split; [by constructor|].
    split; [exact V7|]. split.
    + rewrite V3. unfold save_record. rewrite (proj2 (Z.ltb_ge _ _)) by done. by rewrite B1, B6.
    + split; [done|]. destruct s; simpl in *; by subst.
Qed.

(** ** A new inode *)

(** An operation that takes a new number. *)
Record can_number s : Prop := {
  cn_packed : packed id (free_inode_bitmap s);
  cn_quiet : InodeIdsTheorems.quiet (free_inode_bitmap s);
  cn_first : forall k, 0 <= k < EMMCFS_1ST_FILE_INO -> used (free_inode_bitmap s) k = true;
  cn_free : exists k, 0 <= k < 2 ^ 32 /\ used (free_inode_bitmap s) k = false /\ k / bits_per_page < Z.of_nat fuel;
  cn_memory : forall k, 0 <= k -> is_Some (icache s !! k) -> used (free_inode_bitmap s) k = true
}.

(** The inode as the kernel and [emmcfs_new_inode] fill it. *)
Definition blank_inode (n : Z) (ty : file_type) (owner : Z * Z * Z) (now : Z * Z) : vfs_inode :=
  VfsInode (Inode n ty 0 0 0 0 (ForkInfo 0 0 0 blank_extents 0))
    (Attributes (snd owner) (fst (fst owner)) (snd (fst owner)) 1 now now now (hlink_id (v_attr slab))) 0 None (Hint 0 (-1)).

Lemma wp_new_inode s dir d ty perm : calm (catalog_tree s) -> icache s !! dir = Some d -> can_number s ->
  wp (new_inode dir ty perm) s (ok (fun n s' => EMMCFS_1ST_FILE_INO <= n < 2 ^ 32 /\ lowest id (free_inode_bitmap s) n /\
    exists t m, t ≈ catalog_tree s /\ calm t /\ taken id (free_inode_bitmap s) m n /\ InodeIdsTheorems.quiet m /\
      s' = put_inode n (blank_inode n ty (inode_init_owner (v_attr d) ty perm) (clock (ticks s)))
             (tick (set_catalog t (set_inums m s))))).
Proof using.
  intros Hc Hd [C1 C2 C3 (k & Hk & Hfree & Hfuel) C5]. unfold emmcfs_new_inode.
  eapply (wp_in_inums _ _ _ (fun n m => (EMMCFS_1ST_FILE_INO <= n < 2 ^ 32 /\ lowest id (free_inode_bitmap s) n) /\
    taken id (free_inode_bitmap s) m n /\ InodeIdsTheorems.quiet m)).
  { eapply wp_mono; [by apply (wp_get_free_inode mounted (free_inode_bitmap s) fuel k)|].
    intros [n|e|] m H; simpl in H; [|by destruct H|by destruct H]. destruct H as ((H1 & H2 & H3) & H4).
    split; [|split; [done|by apply H4]]. split; [|done]. split; [done|].
    destruct H2 as (_ & _ & H2). destruct (Z.le_gt_cases n k); [lia|]. rewrite H2 in Hfree; [done|lia]. }
  intros n m ([Hn Hlow] & Htaken & Hq). unfold emmcfs_alloc_inode. apply wp_bind.
  eapply (wp_in_cat _ _ _ (fun _ t => t ≈ catalog_tree s /\ calm t)).
  { apply wp_kmalloc_ok; [done|]. by intros. }
  intros [] t (S & C). apply wp_ret. apply (wp_inode_of dir d); [done|]. apply wp_current_time. cbn [set_catalog set_inums ticks].
  destruct (inode_init_owner (v_attr d) ty perm) as [[uid gid] perm'] eqn:Eo. apply wp_gets.
  cbn [tick set_counts set_catalog set_inums icache]. rewrite bool_decide_eq_false_2.
  - unfold put_vfs. apply wp_modify, wp_ret. split; [done|]. split; [done|]. by exists t, m.
  - intros Hin. destruct Hlow as (H0 & Hno & _). rewrite C5 in Hno by done. done.
Qed.

(** ** The entry *)
Record creatable s lv dir d name : Prop := {
  cr_rest : at_rest s lv;
  cr_dir : icache s !! dir = Some d;
  cr_num : 0 <= dir < 2 ^ 31;
  cr_name : name_ok fold name;
  cr_height : btree_height (catalog_tree s) + 1 < 2 ^ 16;
  cr_room : 2 * btree_height (catalog_tree s) <= free_num (catalog_tree s);
  cr_first : le cmpfn (first_rec (elements lv)) (name_key dir name);
  cr_saved : saved (catalog_tree s) lv d;
  cr_ids : can_number s
}.

(** The new inode in memory, and its directory. *)
Definition new_file (n dir : Z) name ty owner now : vfs_inode :=
  set_hlink INVALID_HLINK_ID (set_place dir (Some name) (blank_inode n ty owner now)).
Definition grown k d : vfs_inode := touched clock k (set_size (s64 (size_of d + 1)) d).

Record created s s' lv dir d name n v : Prop := {
  cd_lowest : EMMCFS_1ST_FILE_INO <= n /\ lowest id (free_inode_bitmap s) n;
  cd_taken : taken id (free_inode_bitmap s) (free_inode_bitmap s') n;
  cd_catalog : exists lv', at_rest s' lv' /\ account (catalog_tree s') lv' = account (catalog_tree s) lv /\ catalog (elements lv') =
    save_record (grown (S (ticks s)) d)
      (<[place_of fold dir name := new_entry block_size_shift (v_inode v) (v_attr v) dir name]> (catalog (elements lv)));
  cd_inodes : exists b, icache s' = <[dir := with_hint b (grown (S (ticks s)) d)]> (<[n := v]> (icache s));
  cd_count : files_count s' = u64 (files_count s + 1);
  cd_others : others s s'
}.

(** The name is there: the number is free again, but the inode stays in
    memory. *)
Record refused s s' lv n v : Prop := {
  rf_rest : at_rest s' lv;
  rf_ids : forall k, 0 <= k -> used (free_inode_bitmap s') k = used (free_inode_bitmap s) k;
  rf_number : used (free_inode_bitmap s) n = false;
  rf_inodes : icache s' = <[n := v]> (icache s);
  rf_count : files_count s' = files_count s;
  rf_others : others s s'
}.

Lemma can_add_entry s lv dir d name t i : creatable s lv dir d name -> t ≈ catalog_tree s -> calm t ->
  EMMCFS_1ST_FILE_INO <= ino i -> used_extents (i_fork i) = 0 ->
  can_add N max_record_len fold t lv i dir name.
Proof using.
  intros Hcr S C Hi Hu. destruct Hcr as [[H1 H2 H3] _ H4 H5 H6 H7 H8 _ _]. constructor; try done.
  - by eapply tree_ok_sim; [symmetry|].
  - by rewrite (sim_height _ _ S).
  - by rewrite (sim_height _ _ S), (sim_num _ _ S).
  - by rewrite Hu.
Qed.

(** The records that were there have their places. *)
Lemma saved_grown t t' lv lv' d k key r : saved t lv d -> cat_ok t lv -> cat_ok t' lv' ->
  account t' lv' = account t lv -> catalog (elements lv) !! key = None ->
  catalog (elements lv') = <[key := r]> (catalog (elements lv)) -> saved t' lv' (grown k d).
Proof using.
  intros [Hlt|(Hh & name & x & [B1 B2 B3 B4 B5 B6 B7 B8])] Ht Ht' Ha Hno E; [by left|right].
  split; [by apply (hint_lasts_step N max_record_len fold t lv)|]. exists name, x. constructor; try done. rewrite E. cbn [grown touched v_parent set_mtime set_ctime set_size set_attr set_inode].
  rewrite lookup_insert_ne; [done|]. intros ->. congruence.
Qed.

Lemma wp_create s lv dir d name ty perm : creatable s lv dir d name ->
  wp (create dir name ty perm) s (ok (fun r s' =>
    exists n, let v := new_file n dir name ty (inode_init_owner (v_attr d) ty perm) (clock (ticks s)) in
    match catalog (elements lv) !! place_of fold dir name with
    | None => r = (0, Some n) /\ created s s' lv dir d name n v
    | Some _ => r = (- EEXIST, None) /\ refused s s' lv n v
    end)).
Proof using HN Hmax Hrec.
  intros Hcr. pose proof Hcr as [Hrest Hd Hdir Hname _ _ _ Hsaved Hids]. pose proof Hrest as [Ht Hc Hl].
  pose proof (nk_len _ _ Hname) as Hlen. unfold emmcfs_create.
  destruct (Z.gtb_spec (Z.of_nat (length name)) EMMCFS_UNICODE_STRING_MAX_LEN) as [?|_]; [lia|].
  unfold start_transaction. apply wp_modify.
  eapply wp_try_ok; [apply (wp_new_inode (set_lock (tree_lock s) (S (nesting s)) s) dir d ty perm Hc Hd); by destruct Hids|].
  intros n s1 ([Hn1 Hn2] & Hlow & t & m & S & C & Htaken & Hq & ->).
  cbn [set_lock free_inode_bitmap ticks catalog_tree icache] in *.
  set (v0 := blank_inode n ty (inode_init_owner (v_attr d) ty perm) (clock (ticks s))).
  apply wp_try_kmalloc; [done|]. intros t1 S1 C1. cbn [put_inode set_icache tick set_counts set_catalog set_inums catalog_tree] in S1.
  apply wp_w_lock; [done|].
  assert (icache s !! n = None) as Hno.
  { destruct (icache s !! n) eqn:E; [|done]. destruct Hlow as (H0 & Hf & _). rewrite (cn_memory _ Hids) in Hf; [done|done|by rewrite E]. }
  assert (n <> dir) as Hnd by (intros ->; congruence).
  assert (0 <= n < 2 ^ 32) as Hn0 by (unfold EMMCFS_1ST_FILE_INO in *; lia).
  eapply (wp_change n v0); [apply lookup_insert_eq|].
  set (v := new_file n dir name ty (inode_init_owner (v_attr d) ty perm) (clock (ticks s))).
  change (set_hlink INVALID_HLINK_ID (set_place dir (Some name) v0)) with v.
  eapply (wp_inode_of n v); [apply lookup_insert_eq|].
  assert (can_add N max_record_len fold t1 lv (v_inode v) dir name) as Hadd.
  { apply (can_add_entry s lv dir d); try done. by rewrite S1. }
  apply wp_code, wp_zoom. eapply wp_mono; [by apply (wp_add_map N max_record_len log_pages_per_node fold mounted beyond grow block_size_shift HN)|].
  intros r t2 [(-> & S2 & C2 & [x Hx])|(-> & C2 & Hnone & lv' & T2 & Eacc & Ecat)]; cbn [fst snd].
  - (* the name is there *)
    change (- EEXIST =? 0) with false. cbn [negb]. apply wp_bind. unfold iput.
    eapply (wp_inode_of n v); [apply lookup_insert_eq|]. change (nlink v =? 0) with false. cbn iota. apply wp_ret.
    apply wp_code, wp_zoom. eapply wp_mono.
    { eapply wp_free_inode_n; [apply Htaken|lia]. }
    intros [[]|e|] m' H; simpl in H.
    + apply wp_w_unlock; [done|]. eapply wp_stop; [done|]. cbn [ok]. exists n. rewrite Hx. split; [done|].
      destruct H as (Hused & Hback). fields. constructor; fields; try done.
      * constructor; fields; [|done|done]. eapply tree_ok_sim; [|exact Ht]. symmetry. by rewrite S2, S1.
      * intros k Hk. destruct Hback as (_ & _ & ->); [|done]. destruct Htaken as (_ & _ & ->); [|done].
        destruct (Z.eqb_spec k n) as [->|]; [|done]. by destruct Hlow as (_ & -> & _).
      * by destruct Hlow as (_ & -> & _).
      * by rewrite insert_insert_eq.
    + by destruct H.
    + destruct H as [H|[H _]]; [|done]. destruct Htaken as (_ & _ & Hu). fields. rewrite Hu, Z.eqb_refl in H by lia. done.
  - (* the name is new *)
    rewrite (account_sim _ _ _ S1), (account_sim _ _ _ S) in Eacc. cbn [Z.eqb negb]. apply wp_w_unlock; [done|]. fields.
    eapply (wp_change dir d); [fields; rewrite !lookup_insert_ne by done; exact Hd|].
    apply wp_modify. eapply wp_touch; [apply lookup_insert_eq|]. fields.
    change (touched clock _ _) with (grown (Datatypes.S (ticks s)) d).
    match goal with |- wp _ ?s1 _ => set (s3 := s1) end.
    assert (at_rest s3 lv') as Hrest3 by (constructor; done).
    eapply wp_seq; [apply (wp_save s3 lv' dir (grown (Datatypes.S (ticks s)) d) Hrest3 (lookup_insert_eq _ _ _))|].
    { by apply (saved_grown (catalog_tree s) t2 lv lv' d _ (place_of fold dir name) _ Hsaved Ht T2 Eacc Hnone Ecat). }
    intros r s4 [-> (lv4 & b & Hrest4 & Eacc4 & Ecat4 & Eic & Es4)]. eapply wp_stop; [by rewrite Es4|].
    cbn [ok]. exists n. rewrite Hnone. split; [done|]. subst s3. rewrite Es4. fields. constructor; fields; try done.
    + exists lv4. split; [destruct Hrest4; by constructor|]. split; [|by rewrite Ecat4, Ecat].
      by rewrite Eacc4.
    + exists b. rewrite Eic. by rewrite !insert_insert_eq.
Qed.


(** ** The record of a new inode *)
Lemma entry_value parent name size value : 0 <= parent < 2 ^ 31 -> name_ok fold name -> Z.of_nat (length value) <= size < 2 ^ 31 ->
  exists key, entry parent name size value = key ++ value ++ replicate (Z.to_nat size - length value) 0 /\
    Z.to_nat (key_len (entry parent name size value)) = length key.
Proof using.
  intros Hp Hn Hv. destruct (entry_fields fold parent name size value Hp Hn Hv) as (_ & _ & _ & Ek & _).
  exists ((replicate 4 0 ++ le_split 4 (27 + Z.of_nat (length name)) ++ le_split 4 (27 + Z.of_nat (length name) + size) ++ replicate 2 0) ++
    le_split 8 parent ++ le_split 4 (Z.of_nat (length name)) ++ name ++ [0]).
  split; [unfold entry; by rewrite <- !app_assoc|]. rewrite Ek.
  rewrite !length_app, !length_le_split. simpl length. lia.
Qed.

(** A record that [emmcfs_write_inode_to_bnode] would not change. *)
Lemma new_entry_written v parent name : hlink_id (v_attr v) = INVALID_HLINK_ID -> fork_shape (i_fork (v_inode v)) ->
  0 <= parent < 2 ^ 31 -> name_ok fold name ->
  let x := new_entry block_size_shift (v_inode v) (v_attr v) parent name in
  with_value block_size_shift v x = x /\ has_room v x.
Proof using.
  intros Hh Hf Hp Hn x. pose proof (new_value_fits block_size_shift (v_inode v) (v_attr v) (proj2 Hf)) as [Hfit Hsz].
  change sizeof_file_record with 197 in Hsz. subst x. unfold new_entry in *.
  destruct (entry_fields fold parent name (value_len (new_type (v_inode v) (v_attr v))) (new_value block_size_shift (v_inode v) (v_attr v)) Hp Hn)
    as (_ & _ & Hrok & Ek & Er); [lia|].
  destruct (entry_value parent name (value_len (new_type (v_inode v) (v_attr v))) (new_value block_size_shift (v_inode v) (v_attr v)) Hp Hn)
    as (key & E & Hkey); [lia|].
  assert (new_type (v_inode v) (v_attr v) = get_record_type_on_mode (i_mode (v_inode v))) as Et
    by (unfold new_type; by rewrite Hh, Z.eqb_refl).
  set (x := entry _ _ _ _) in *. split; [|split; [done|rewrite <- Et; lia]].
  assert (value_of x = new_value block_size_shift (v_inode v) (v_attr v) ++
    replicate (Z.to_nat (value_len (new_type (v_inode v) (v_attr v))) - length (new_value block_size_shift (v_inode v) (v_attr v))) 0) as Ev.
  { unfold value_of. rewrite E at 2. by rewrite drop_app_length'. }
  assert (refill block_size_shift v (value_of x) = new_value block_size_shift (v_inode v) (v_attr v)) as Erf.
  { rewrite Ev. unfold new_value, refill. rewrite Hh. cbn [Z.eqb]. rewrite Z.eqb_refl.
    set (new := emmcfs_fill_cattree_value _ _ _). set (pad := replicate _ 0).
    assert (6 <= length new)%nat as Hl by (unfold new, emmcfs_fill_cattree_value; rewrite !length_app, !length_le_split, length_replicate; lia).
    assert (take 4 (drop 2 (new ++ pad)) = take 4 (drop 2 new)) as ->
      by (rewrite drop_app_le by lia; apply take_app_le; rewrite length_drop; lia).
    replace (drop 6 new) with (drop 4 (drop 2 new)) by (by rewrite drop_drop). by rewrite !take_drop. }
  unfold with_value. rewrite Erf. unfold write_at. rewrite Hkey. rewrite E at 1 2.
  rewrite take_app_length' by done. f_equal. f_equal. rewrite E.
  by rewrite <- drop_drop, drop_app_length', drop_app_length'.
Qed.

Lemma save_record_other t lv k d key r : saved t lv d -> catalog (elements lv) !! key = None ->
  save_record (grown k d) (<[key := r]> (catalog (elements lv))) !! key = Some r.
Proof using.
  intros Hd Hno. unfold save_record. destruct (Z.ltb_spec (ino (v_inode (grown k d))) EMMCFS_1ST_FILE_INO) as [|Hge]; [apply lookup_insert_eq|].
  destruct Hd as [Hlt|(_ & name & x & [B1 B2 B3 B4 B5 B6 B7 B8])]; [by apply Z.lt_nge in Hlt|].
  change (v_name (grown k d)) with (v_name d). change (v_parent (grown k d)) with (v_parent d). rewrite B1.
  assert (place_of fold (v_parent d) name <> key) as Hne by congruence.
  rewrite lookup_insert_ne, B6 by done. rewrite lookup_insert_ne by done. apply lookup_insert_eq.
Qed.

(** What the kernel sets in a new inode fits into a record. *)
Definition owner_fits (owner : Z * Z * Z) (now : Z * Z) : Prop :=
  0 <= fst (fst owner) < 2 ^ 32 /\ 0 <= snd (fst owner) < 2 ^ 32 /\ 0 <= snd owner < 2 ^ 12 /\
  - 2 ^ 63 <= fst now < 2 ^ 63 /\ 0 <= snd now < 2 ^ 32.

Lemma new_file_storable n dir name ty owner now : 0 <= n < 2 ^ 64 -> owner_fits owner now -> 0 <= block_size_shift <= 31 ->
  storable block_size_shift (new_file n dir name ty owner now) [].
Proof using.
  intros Hn (H1 & H2 & H3 & H4 & H5) Hshift. constructor; cbn [new_file v_inode v_attr set_hlink set_place blank_inode i_fork fork_extents i_size i_rdev].
  - constructor; cbn [new_file v_inode v_attr set_hlink set_place blank_inode ino i_size i_perm i_uid i_gid i_nlink ctime mtime atime]; done || lia.
  - constructor; [done|done|simpl; lia|constructor].
  - apply Forall_replicate. by split.
  - unfold blocks_of_size. pose proof (Z.pow_pos_nonneg 2 block_size_shift ltac:(lia) ltac:(lia)).
    rewrite Z.div_small by lia. done.
  - lia.
Qed.

Context (exsb_fork : Z -> option emmcfs_fork) (lebs_bm_size : Z).
Abbreviation lookup := (emmcfs_lookup cmpfn mounted beyond grow block_size_shift slab exsb_fork lebs_bm_size (A := A)).

(** C28: a name that was created is found, even when its inode has left memory:
    the next [emmcfs_lookup] makes the inode again from its record, with the
    type, the owner, the times and the size it was created with. *)
Theorem create_lookup_roundtrip s lv dir d name ty perm : creatable s lv dir d name -> 0 <= block_size_shift <= 31 ->
  i_mode (v_inode d) = S_IFDIR -> catalog (elements lv) !! place_of fold dir name = None ->
  owner_fits (inode_init_owner (v_attr d) ty perm) (clock (ticks s)) ->
  exists n s1 s2 v1, create dir name ty perm s = (Ok (0, Some n), s1) /\
    (do_ forget n; lookup dir name) s1 = (Ok (Some n), s2) /\ icache s2 !! n = Some v1 /\
    reread block_size_shift (new_file n dir name ty (inode_init_owner (v_attr d) ty perm) (clock (ticks s))) v1.
Proof using HN Hmax Hrec.
  intros Hcr Hshift Hmode Hnone Hown. pose proof (wp_create s lv dir d name ty perm Hcr) as H. unfold wp in H. rewrite Hnone in H.
  destruct (create dir name ty perm s) as [[r|e|] s1]; [|done|done]. destruct H as (n & -> & Hcd). cbn [snd] in Hcd.
  set (v := new_file n dir name ty (inode_init_owner (v_attr d) ty perm) (clock (ticks s))) in *.
  destruct Hcd as [[Hn Hlow] _ (lv' & Hrest & _ & Ecat) (b & Ein) _ _].
  destruct Hcr as [_ Hd Hdir Hname _ _ _ Hsaved Hids].
  assert (n < 2 ^ 32) as Hn32.
  { destruct Hids as [_ _ _ (k & Hk & Hfree & _) _]. destruct Hlow as (_ & _ & Hlow).
    destruct (Z.le_gt_cases n k); [lia|]. rewrite Hlow in Hfree; [done|lia]. }
  assert (n <> dir) as Hne.
  { intros ->. destruct Hlow as (H0 & Hno & _). by rewrite (cn_memory _ Hids) in Hno by (done || by rewrite Hd). }
  assert (storable block_size_shift v []) as Hst by (apply new_file_storable; [unfold EMMCFS_1ST_FILE_INO in Hn; lia|done|done]).
  destruct (new_entry_written v dir name) as [Efix Hroom]; [done|by apply (storable_shape block_size_shift v [])|done|done|].
  destruct (entry_fields fold dir name (value_len (new_type (v_inode v) (v_attr v))) (new_value block_size_shift (v_inode v) (v_attr v)) Hdir Hname)
    as (Hkey & _); [pose proof (new_value_fits block_size_shift (v_inode v) (v_attr v) ltac:(done)) as W; change sizeof_file_record with 197 in W; lia|].
  destruct (entry_name dir name (value_len (new_type (v_inode v) (v_attr v))) (new_value block_size_shift (v_inode v) (v_attr v)))
    as (Epar & _ & Ename); [lia|apply Hname|].
  assert (wp (do_ forget n; lookup dir name) s1 (ok (fun r s2 => r = Some n /\ exists v1, icache s2 !! n = Some v1 /\
    reread block_size_shift v v1))) as W.
  { unfold forget. apply wp_modify. eapply wp_ok_mono.
    - apply (wp_lookup_written N max_record_len fold mounted beyond grow block_size_shift HN Hshift slab exsb_fork lebs_bm_size
        _ lv' dir name v [] (new_entry block_size_shift (v_inode v) (v_attr v) dir name)); try done.
      + by destruct Hrest.
      + split; [done|]. exists (with_hint b (grown (Datatypes.S (ticks s)) d)). split; [|done]. cbn [set_icache icache].
        rewrite Ein, lookup_delete_ne by done. apply lookup_insert_eq.
      + rewrite Ecat, Efix. by apply (save_record_other (catalog_tree s) lv).
      + constructor; [exact Hkey|change (Some name = Some (name_bytes (new_entry block_size_shift (v_inode v) (v_attr v) dir name))); by f_equal|by symmetry|done].
      + apply lookup_delete_eq.
    - intros r s2 (-> & _ & v1 & E & Hrr). split; [done|]. exists v1. rewrite E. by rewrite lookup_insert_eq. }
  unfold wp in W. destruct ((do_ forget n; lookup dir name) s1) as [[r|e|] s2] eqn:E2; [|done|done].
  destruct W as (-> & v1 & E & Hrr). by exists n, s1, s2, v1.
Qed.
End create.

(** ** At work *)
Abbreviation example_create := (emmcfs_create 4096 479 0 emmcfs_cattree_cmpfn true (fun _ => false) Z.max 12 vfs_20 5
  (fun k => (1000 + Z.of_nat k, 0)) (fun _ _ perm => (7, 8, perm))).

Lemma example_creatable name : name_ok same name -> le (cattree_cmp same) (dir_entry 0 EMMCFS_ROOTDIR_NAME 1) (name_key 1 name) ->
  creatable 4096 479 same 5 mounted_fs volume_levels 1 root_inode name.
Proof.
  intros Hname Hfirst. constructor; [apply mounted_at_rest|done|lia|done|by vm_compute|by vm_compute|done|by left|].
  constructor.
  - apply ids_to_20_packed.
  - constructor.
  - intros k Hk. unfold EMMCFS_1ST_FILE_INO in Hk.
    apply (pk_used _ _ ids_to_20_packed). cbn [last_used ids_to_20]. lia.
  - exists 21. split; [lia|]. split; [by vm_compute|by vm_compute].
  - intros k Hk [v Hv]. cbn [icache mounted_fs] in Hv. apply lookup_insert_Some in Hv as [[<- _]|[_ Hv]]; [by vm_compute|].
    apply lookup_singleton_Some in Hv as [<- _]. by vm_compute.
Qed.

Lemma c_ok : name_ok same [99].
Proof. by apply ascii_name_ok; [vm_compute|simpl; lia]. Qed.

(** The directory "d" in memory, as it was read: it has a hint. *)
Definition dir_19 : vfs_inode :=
  VfsInode (Inode 19 S_IFDIR 0 0 0 0 (ForkInfo 0 0 0 blank_extents 0)) (v_attr root_inode) 1 (Some [100]) (Hint 1 3).
Definition fs_with_dir : fs (allocator (T := froot) (J := page_log)) := put_inode 19 dir_19 mounted_fs.

Lemma dir_19_saved : saved same (catalog_tree fs_with_dir) volume_levels dir_19.
Proof.
  right. split.
  - right. split; [right; left; by apply list_elem_of_singleton|by vm_compute].
  - exists [100], (dir_entry 1 [100] 19).
    assert (name_ok same [100]) as Hn by (by apply ascii_name_ok; [vm_compute|simpl; lia]).
    destruct (new_entry_written same 12 dir_19 1 [100]) as [_ Hroom]; [done|done|lia|done|].
    constructor; done || (simpl; lia) || by vm_compute.
Qed.

Lemma fs_with_dir_creatable : creatable 4096 479 same 5 fs_with_dir volume_levels 19 dir_19 [99].
Proof.
  pose proof (example_creatable [99] c_ok ltac:(by vm_compute)) as [[H1 H2 H3] _ _ H4 H5 H6 _ _ [C1 C2 C3 C4 C5]].
  constructor; [by constructor|done|lia|done|done|done|by vm_compute|apply dir_19_saved|].
  constructor; [done|done|done|done|].
  intros k Hk [v Hv]. unfold fs_with_dir, put_inode in Hv. cbn [set_icache icache] in Hv.
  apply lookup_insert_Some in Hv as [[<- _]|[_ Hv]]; [by vm_compute|]. apply (C5 k Hk). by exists v.
Qed.


Lemma create_lookup_roundtrip_witness :
  exists n s1 s2 v1, example_create 1 [99] S_IFREG 0x1A4 mounted_fs = (Ok (0, Some n), s1) /\
    (do_ forget n; emmcfs_lookup emmcfs_cattree_cmpfn true (fun _ => false) Z.max 12 vfs_20 (fun _ => None) 0 1 [99]) s1 = (Ok (Some n), s2) /\
    icache s2 !! n = Some v1 /\ i_uid (v_attr v1) = 7.
Proof.
  destruct (create_lookup_roundtrip 4096 479 0 same true (fun _ => false) Z.max 12 ltac:(unfold node_size_ok; lia)
    ltac:(by vm_compute) ltac:(by vm_compute) vfs_20 5 (fun k => (1000 + Z.of_nat k, 0)) (fun _ _ perm => (7, 8, perm)) (fun _ => None) 0
    mounted_fs volume_levels 1 root_inode [99] S_IFREG 0x1A4 (example_creatable [99] c_ok ltac:(by vm_compute)))
    as (n & s1 & s2 & v1 & E1 & E2 & E3 & Hr); [lia|reflexivity|vm_compute; reflexivity|unfold owner_fits; cbn; lia|].
  exists n, s1, s2, v1. split; [exact E1|]. split; [exact E2|]. split; [exact E3|]. rewrite (rr_attr _ _ _ Hr). reflexivity.
Defined.

(** A refused creation does damage: the inode of the free number stays in
    memory, so the next creation, which gets the same number, is refused with
    [-EINVAL] although its name is new; and it gives the number back, so
    the one after it fares no better. *)
Theorem failed_create_blocks_the_next :
  let '(r1, s1) := example_create 1 [98] S_IFREG 0x1A4 mounted_fs in
  let '(r2, s2) := example_create 1 [99] S_IFREG 0x1A4 s1 in
  let '(r3, _) := example_create 1 [99] S_IFREG 0x1A4 s2 in
  r1 = Ok (- EEXIST, None) /\ r2 = Ok (- EINVAL, None) /\ r3 = Ok (- EINVAL, None) /\
  fst (example_create 1 [99] S_IFREG 0x1A4 mounted_fs) = Ok (0, Some 21).
Proof. by vm_compute. Qed.
