(* ===== verification/NameiUnlink.v ===== *)
(** * The removal of an entry

    [emmcfs_unlink] as an operation on the map of the catalog, the numbers and
    the blocks in use, and the inodes in memory. *)

From S2P Require Import Prelude Monad Data FsmBtree FsmAlloc Fsm Blocks BnodeBytes BnodeRepr BnodePool BnodePoolProofs.
From S2P Require Import Btree BtreeInv BtreeFind BtreeInsert BtreeSpec Exttree ExttreeProofs ExttreeTheorems Fork ForkProofs ForkTheorems.
From S2P Require Import InodeIds InodeIdsTheorems Truncate TruncateTheorems FsmTheorems Cattree CattreeProofs CattreeTheorems.
From S2P Require Import Vfs VfsProofs VfsExample Namei NameiLocks NameiTheorems NameiCreate.
Open Scope Z_scope.

(** ** The record of a name *)
Lemma catalog_delete fold l1 r l2 : NoDup (map (key_of fold) (l1 ++ r :: l2)) ->
  catalog fold (l1 ++ l2) = delete (key_of fold r) (catalog fold (l1 ++ r :: l2)).
Proof.
  intros Hnd. assert (NoDup (map (key_of fold) (l1 ++ l2))) as Hnd2.
  { rewrite map_app in *. cbn [map] in Hnd. rewrite <- Permutation_middle in Hnd. by apply NoDup_cons in Hnd as [_ ?]. }
  assert (key_of fold r ∉ map (key_of fold) (l1 ++ l2)) as Hr.
  { rewrite map_app in *. cbn [map] in Hnd. rewrite <- Permutation_middle in Hnd. by apply NoDup_cons in Hnd as [? _]. }
  apply map_eq. intros k. apply option_eq. intros x. rewrite lookup_delete_Some, !catalog_Some by done. split.
  - intros [Hx <-]. split; [|split; [|done]].
    + intros E. apply Hr. rewrite E. by apply list_elem_of_fmap_2.
    + rewrite elem_of_app, elem_of_cons in *. tauto.
  - intros (Hne & Hx & <-). split; [|done]. rewrite elem_of_app, elem_of_cons in *. destruct Hx as [?|[->|?]]; [by left|done|by right].
Qed.

Section unlink.
Context (N max_record_len log_pages_per_node : Z) (fold : Z -> Z) (mounted : bool) (beyond : Z -> bool)
  (grow : Z -> Z -> Z) (address : Z -> Z) (levels : nat) (ext : extents_env) (block_size_shift : Z).
Context (HN : node_size_ok N) (Hmax : max_record_len + 31 <= N / 2) (Hbig : big_nodes N max_record_len).
Context (Hxmax : x_max_record_len ext + 31 <= N / 2) (Hxrec : sizeof_exttree_record <= x_max_record_len ext).
Context (fuel : nat) (clock : nat -> Z * Z) (stale : list Z) (Hstale : length stale = 12%nat).
Context `{BlockAlloc A}.
Abbreviation cmpfn := (cattree_cmp fold).
Abbreviation cat_ok := (tree_ok N max_record_len cmpfn (cat_key_ok fold)).
Abbreviation catalog := (catalog fold).
Abbreviation at_rest := (at_rest N max_record_len fold (A := A)).
Abbreviation write_inode := (emmcfs_write_inode_to_bnode cmpfn mounted beyond grow block_size_shift (A := A)).
Abbreviation remove := (emmcfs_btree_remove N max_record_len log_pages_per_node cmpfn mounted beyond grow address levels).
Abbreviation delete := (delete_inode N log_pages_per_node mounted ext fuel stale (A := A)).
Abbreviation unlink := (emmcfs_unlink N max_record_len log_pages_per_node cmpfn mounted beyond grow address levels ext
  block_size_shift fuel clock stale (A := A)).
Abbreviation ext_file_ok := (file_ok N (x_max_record_len ext)).
Abbreviation used := (id_used id).
Implicit Types (s : fs A) (v d : vfs_inode).

Lemma wp_remove_name t lv dir name (P : outcome unit -> btree -> Prop) : cat_ok t lv -> calm t ->
  removable N max_record_len t lv -> (length lv <= levels)%nat -> 0 <= dir < 2 ^ 31 -> name_ok fold name ->
  (catalog (elements lv) !! place_of fold dir name = None -> forall t', t' ≈ t -> calm t' -> P (Err (- ENOENT)) t') ->
  (forall x, catalog (elements lv) !! place_of fold dir name = Some x -> forall t' lv', calm t' -> cat_ok t' lv' ->
     account t' lv' = account t lv ->
     catalog (elements lv') = base.delete (place_of fold dir name) (catalog (elements lv)) -> P (Ok tt) t') ->
  wp (remove (name_key dir name)) t P.
Proof using HN Hmax Hbig.
  intros Ht Hc Hrm Hlv Hdir Hname Hno Hyes. destruct (name_key_fields fold dir name Hdir Hname) as [Hk Ek].
  destruct (elements_sorted _ _ _ _ _ _ Ht) as [Hs Hkeys].
  assert (forall x, x ∈ elements lv -> cmpfn x (name_key dir name) = 0 <-> key_of fold x = place_of fold dir name) as Hcmp.
  { intros x Hx. unfold keys_ok in Hkeys. rewrite Forall_forall in Hkeys.
    rewrite (proj1 (proj2 (cattree_cmp_spec fold x _ (Hkeys x Hx) Hk))), Ek. done. }
  pose proof (cat_nodup N max_record_len fold t lv Ht) as Hnd.
  apply (wp_remove N max_record_len log_pages_per_node cmpfn (cat_key_ok fold) mounted beyond grow address levels t lv); try done.
  - intros Hall. apply Hno, catalog_None. rewrite Forall_forall in *. intros x Hx E. by apply (Hall x Hx), Hcmp.
  - intros l1 r l2 E E0 t' lv' C' T' E' A'. rewrite E in Hcmp, Hnd. assert (r ∈ l1 ++ r :: l2) as Hr by (apply elem_of_app; right; left).
    apply Hcmp in E0; [|done].
    apply (Hyes r) with (lv' := lv'); [|done|done|done|].
    + rewrite E. apply catalog_Some; [done|]. done.
    + rewrite E', E, <- E0. by apply catalog_delete.
Qed.

(** The key that [emmcfs_unlink] builds. *)
Lemma wp_unlink_key {Y} dir name s (f : outcome record -> St (fs A) Y) Q : calm (catalog_tree s) ->
  Z.of_nat (length name) <= EMMCFS_UNICODE_STRING_MAX_LEN ->
  (forall t r, t ≈ catalog_tree s -> calm t -> emmcfs_fill_cattree_key r dir name = name_key dir name ->
     wp (f (Ok r)) (set_catalog t s) Q) ->
  wp (bind (try (in_cat (emmcfs_alloc_cattree_key (Z.of_nat (length name)) 0))) f) s Q.
Proof using.
  intros Hc Hn Hf. unfold emmcfs_alloc_cattree_key.
  eapply (wp_try_ok _ _ _ (fun r s' => emmcfs_fill_cattree_key r dir name = name_key dir name /\
    exists t, s' = set_catalog t s /\ t ≈ catalog_tree s /\ calm t)).
  - apply wp_zoom. apply wp_bind. apply wp_kmalloc_ok; [done|]. intros t S C. apply wp_ret. split; [|by exists t].
    unfold name_key. change (value_len 0) with 0. rewrite <- (new_record_entry dir name 0 []) by done.
    unfold write_at at 1. cbn [length app]. rewrite Nat.add_0_r, take_drop. done.
  - intros r s' (E & t & -> & S & C). by apply Hf.
Qed.

(** ** The inode without links *)
Definition holds_blocks v : Prop := i_mode (v_inode v) = S_IFREG \/ i_mode (v_inode v) = S_IFLNK.

(** The number of the hard link of an inode, if it has one, is in use. *)
Definition link_used s v : Prop := hlink_id (v_attr v) <> INVALID_HLINK_ID ->
  0 <= hlink_id (v_attr v) < 2 ^ 32 /\ packed chunk_page (hard_links s) /\ InodeIdsTheorems.quiet (hard_links s) /\
  id_used chunk_page (hard_links s) (hlink_id (v_attr v)) = true.

(** An inode that can leave the volume: its numbers are in use, and the blocks
    of a file are in its fork. *)
Record deletable s v (es : list extent_info) : Prop := {
  dl_link : link_used s v;
  dl_number : 0 <= ino (v_inode v) < 2 ^ 32 - 1;
  dl_packed : packed id (free_inode_bitmap s);
  dl_quiet : InodeIdsTheorems.quiet (free_inode_bitmap s);
  dl_used : used (free_inode_bitmap s) (ino (v_inode v)) = true;
  dl_file : holds_blocks v -> calm (fst (volume s)) /\ sum_blocks es = fork_blocks (i_fork (v_inode v)) /\
    exists lvx, ext_file_ok (v_inode v) (fst (volume s)) (snd (volume s)) lvx es
}.

(** The number of the hard link is free. *)
Definition link_back (m m' : id_map) v : Prop :=
  if hlink_id (v_attr v) =? INVALID_HLINK_ID then m' = m else given_back chunk_page m m' (hlink_id (v_attr v)).

(** Its numbers are free, and the blocks of a file as well. *)
Record gone s s' v (es : list extent_info) : Prop := {
  gn_link : link_back (hard_links s) (hard_links s') v;
  gn_number : given_back id (free_inode_bitmap s) (free_inode_bitmap s') (ino (v_inode v));
  gn_tree : fst (volume s') = fst (volume s);
  gn_blocks : given_up (in_use (snd (volume s))) (in_use (snd (volume s')))
    (fun ib p => holds_blocks v /\ nth_block es ib = Some p) 0
}.

Lemma file_ok_size i t a lvx es : ext_file_ok i t a lvx es -> ext_file_ok (set_i_size i 0) t a lvx es.
Proof using. intros []. by constructor. Qed.

Lemma wp_free_link {Y} s v (f : Z -> St (fs A) Y) Q : link_used s v ->
  (forall m, link_back (hard_links s) m v -> wp (f 0) (set_links m s) Q) ->
  wp (do ret1 <- (if negb (hlink_id (v_attr v) =? INVALID_HLINK_ID)
                  then code (in_links (free_hlink_data mounted (hlink_id (v_attr v)))) else ret 0); f ret1) s Q.
Proof using.
  unfold link_used, link_back. intros Hl Hf. destruct (Z.eqb_spec (hlink_id (v_attr v)) INVALID_HLINK_ID) as [E|E]; cbn [negb].
  - apply wp_bind, wp_ret. specialize (Hf (hard_links s) eq_refl). by destruct s.
  - destruct (Hl E) as (H0 & H1 & H2 & H3). apply wp_code, wp_zoom.
    pose proof (free_hlink_data_correct mounted (hard_links s) (hlink_id (v_attr v)) H1 H0) as W. unfold wp.
    destruct (free_hlink_data mounted _ _) as [[[]|e|] m]; [by apply Hf, W|by destruct W|].
    destruct W as [W|[W _]]; [congruence|done].
Qed.

Lemma wp_delete_inode s n v es k : icache s !! n = Some v -> n = ino (v_inode v) -> deletable s v es -> nesting s = S k ->
  wp (delete n) s (ok (fun r s' => r = 0 /\ gone s s' v es /\ s' = Fs (base.delete n (icache s)) (catalog_tree s) (tree_lock s) k
    (free_inode_bitmap s') (hard_links s') (hlink_pages s) (volume s') (files_count s) (ticks s))).
Proof using HN Hxmax Hxrec Hstale.
  intros Hv Hn [D1 D2 D3 D4 D5 D6] Hk. unfold delete_inode. apply (wp_inode_of n v); [done|].
  apply wp_free_link; [done|]. intros m Hlk. cbn [Z.eqb negb]. apply wp_modify. cbn [set_links icache].
  change (i_mode (set_i_size (v_inode v) 0)) with (i_mode (v_inode v)).
  assert (~ holds_blocks v -> wp (do err <- code (in_inums (emmcfs_free_inode_n mounted n)); do_ BUG_ON (negb (err =? 0)); stop 0)
    (set_icache (base.delete n (icache s)) (set_links m s)) (ok (fun r s' => r = 0 /\ gone s s' v es /\
      s' = Fs (base.delete n (icache s)) (catalog_tree s) (tree_lock s) k
        (free_inode_bitmap s') (hard_links s') (hlink_pages s) (volume s') (files_count s) (ticks s)))) as Hno.
  { intros Hnb. apply wp_code, wp_zoom. eapply wp_mono; [apply (wp_free_inode_n mounted); [done|cbn; lia]|]. cbn [set_icache set_links free_inode_bitmap].
    intros [[]|e|] m' W; simpl in W.
    - apply wp_BUG_ON; [done|]. eapply wp_stop; [done|]. split; [done|]. split; [|done]. constructor; cbn; [done|by subst n; apply W|done|].
      intros p. split; [intros Hp; split; [done|]; by intros (_ & _ & ? & _)|by intros [? _]].
    - by destruct W.
    - subst n. destruct W as [W|[W _]]; [congruence|done]. }
  assert (holds_blocks v -> forall f, wp (do s <- gets (fun s => s);
      let '(r, (i, vol, ids)) := emmcfs_fsm_free_runtime_fork N (x_max_record_len ext) log_pages_per_node mounted (x_beyond ext) (x_grow ext)
        (set_i_size (v_inode v) 0, volume s, free_inode_bitmap s) in
      do_ modify (fun s => set_inums ids (set_volume vol s));
      match r with
      | Ok err => if (fork_blocks (i_fork i) =? 0) || negb (err =? 0) then stop err else f i err
      | _ => bug
      end) (set_icache (base.delete n (icache s)) (set_links m s)) (ok (fun r s' => r = 0 /\ gone s s' v es /\
      s' = Fs (base.delete n (icache s)) (catalog_tree s) (tree_lock s) k
        (free_inode_bitmap s') (hard_links s') (hlink_pages s) (volume s') (files_count s) (ticks s)))) as Hyes.
  { intros Hb f. destruct (D6 Hb) as (Hc & Hsum & lvx & F). apply wp_gets. cbn [set_icache set_links volume free_inode_bitmap].
    apply file_ok_size in F.
    pose proof (wp_free_runtime_fork N (x_max_record_len ext) log_pages_per_node mounted (x_beyond ext) (x_grow ext) stale Hstale HN Hxmax Hxrec
      (set_i_size (v_inode v) 0) (fst (volume s)) (snd (volume s)) lvx es (free_inode_bitmap s) F Hc (proj2 D2) D3 D4 D5) as W.
    unfold wp in W. rewrite <- (surjective_pairing (volume s)) in W. destruct (emmcfs_fsm_free_runtime_fork _ _ _ _ _ _ _) as [r [[i vol] ids]].
    specialize (W (fun Hne => False_ind _ (Hne Hsum))). cbn [fst snd] in W. destruct r as [err|e|]; [|done|done]. destruct W as [-> W].
    apply wp_modify. destruct W as (t' & a' & m' & f' & E & _ & Ef & _ & Hgive & Hrest). simplify_eq.
    change (fork_blocks (i_fork (set_i_size (v_inode v) 0))) with (fork_blocks (i_fork (v_inode v))) in *.
    rewrite (proj2 (Z.eqb_eq _ _) Hsum) in Hrest. destruct Hrest as [-> Hback].
    cbn [set_fork i_fork]. rewrite Ef, Hsum, Z.sub_diag. cbn [Z.eqb orb]. eapply wp_stop; [done|]. split; [done|]. split; [|done].
    constructor; cbn; [done|done|done|]. intros p. rewrite (Hgive p). split; intros [? Hx]; (split; [done|]); intros (ib & ? & Hm); apply Hx.
    - exists ib. split; [done|apply Hm].
    - by exists ib. }
  destruct (i_mode (v_inode v)) eqn:Hmode; try (apply Hno; unfold holds_blocks; rewrite Hmode; by intros [?|?]);
    apply Hyes; unfold holds_blocks; rewrite Hmode; auto.
Qed.

(** ** The links that are left *)

(** The area of the hard links with the value of an inode. *)
Definition link_written v (pages : gmap Z (list Z)) : gmap Z (list Z) :=
  let '(p, k) := hlink_value_page (hlink_id (v_attr v)) in
  let page := default blank_page (pages !! p) in
  <[p := write_at (Z.to_nat k) (refill block_size_shift v (drop (Z.to_nat k) page)) page]> pages.

(** An inode with other names: it is one of a hard link. *)
Record still_linked s v : Prop := {
  sl_links : 1 < nlink v < 2 ^ 32;
  sl_ino : EMMCFS_1ST_FILE_INO <= ino (v_inode v);
  sl_hlink : hlink_id (v_attr v) <> INVALID_HLINK_ID;
  sl_quiet : InodeIdsTheorems.quiet (hard_links s)
}.

Lemma wp_write_link s n v : icache s !! n = Some v -> still_linked s v \/
    EMMCFS_1ST_FILE_INO <= ino (v_inode v) /\ hlink_id (v_attr v) <> INVALID_HLINK_ID /\ InodeIdsTheorems.quiet (hard_links s) ->
  tree_lock s = Unlocked ->
  wp (write_inode n) s (ok (fun r s' => r = 0 /\ exists m, same_ids (hard_links s) m /\
    s' = set_link_pages (link_written v (hlink_pages s)) (set_links m s))).
Proof using.
  intros Hv Hl Hlock.
  assert (EMMCFS_1ST_FILE_INO <= ino (v_inode v) /\ hlink_id (v_attr v) <> INVALID_HLINK_ID /\
    InodeIdsTheorems.quiet (hard_links s)) as (Hi & Hh & Hq) by (destruct Hl as [[]|]; done).
  unfold emmcfs_write_inode_to_bnode. apply (wp_inode_of n v); [done|]. rewrite (proj2 (Z.ltb_ge _ _)) by done.
  apply wp_w_lock; [done|]. rewrite (proj2 (Z.eqb_neq _ _)) by done. cbn [negb]. apply wp_code.
  unfold write_to_hlink, get_hlink_value_page. apply wp_bind, wp_bind, wp_zoom. cbn [set_lock hard_links].
  apply wp_kernel; [|by intros]. intros m1 S1. apply wp_ret. unfold or_bug. apply wp_bind, wp_try, wp_zoom.
  cbn [set_lock set_links hard_links]. assert (InodeIdsTheorems.quiet m1) as Hq1 by (by apply S1).
  apply wp_journal_page; [|by intros|by intros]. intros m2 S2. apply wp_ret.
  unfold hlink_value. apply wp_gets. unfold put_hlink_value, wp at 1, modify. cbn [fst snd].
  apply wp_w_unlock; [done|]. apply wp_ret. split; [done|]. exists m2. split; [by eapply same_ids_trans|].
  unfold link_written. destruct (hlink_value_page _). destruct s. cbn in *. by subst.
Qed.

Lemma wp_touch_ctime {Y} n v s (f : unit -> St (fs A) Y) Q : icache s !! n = Some v ->
  wp (f tt) (put_inode n (set_ctime (clock (ticks s)) v) (tick s)) Q -> wp (bind (touch_ctime clock n) f) s Q.
Proof using.
  intros Hv Hf. unfold touch_ctime. apply wp_bind, wp_current_time. unfold change.
  apply (wp_inode_of n v); [done|]. exact Hf.
Qed.

(** ** The entry *)

(** A name that may be removed, of the inode [n]; the directory does not lie in
    itself. *)
Record unlinkable s lv dir d name n v es : Prop := {
  ul_rest : at_rest s lv;
  ul_removable : removable N max_record_len (catalog_tree s) lv;
  ul_levels : (length lv <= levels)%nat;
  ul_dir : icache s !! dir = Some d;
  ul_num : 0 <= dir < 2 ^ 31;
  ul_name : name_ok fold name;
  ul_saved : saved fold (catalog_tree s) lv d;
  ul_parent : v_parent d <> dir;
  ul_inode : icache s !! n = Some v;
  ul_number : n = ino (v_inode v);
  ul_other : n <> dir;
  ul_links : nlink v = 1 /\ deletable s v es \/ still_linked s v
}.

Definition shrunk k d : vfs_inode := touched clock k (if size_of d =? 0 then d else set_size (size_of d - 1) d).
Definition fewer k v : vfs_inode := set_ctime (clock (S (S k))) (set_nlink (nlink v - 1) v).

(** The catalog without the name, and with the new value of the directory. *)
Definition entry_gone s s' lv dir d name : Prop := exists lv',
  at_rest s' lv' /\ account (catalog_tree s') lv' = account (catalog_tree s) lv /\ catalog (elements lv') =
    save_record fold block_size_shift (shrunk (ticks s) d) (base.delete (place_of fold dir name) (catalog (elements lv))).

(** The last name: the inode has gone with it. *)
Record removed s s' lv dir d name n v es : Prop := {
  rv_catalog : entry_gone s s' lv dir d name;
  rv_inodes : exists b, icache s' = base.delete n (<[dir := with_hint b (shrunk (ticks s) d)]> (icache s));
  rv_gone : gone s s' v es;
  rv_count : files_count s' = files_count s;
  rv_pages : hlink_pages s' = hlink_pages s;
  rv_nesting : nesting s' = nesting s
}.

(** One of several names: the inode has one link less, in memory and in the area
    of the hard links. *)
Record dropped s s' lv dir d name n v : Prop := {
  dr_catalog : entry_gone s s' lv dir d name;
  dr_inodes : exists b, icache s' = <[n := fewer (ticks s) v]> (<[dir := with_hint b (shrunk (ticks s) d)]> (icache s));
  dr_pages : hlink_pages s' = link_written (fewer (ticks s) v) (hlink_pages s);
  dr_links : same_ids (hard_links s) (hard_links s');
  dr_ids : free_inode_bitmap s' = free_inode_bitmap s;
  dr_volume : volume s' = volume s;
  dr_count : files_count s' = files_count s;
  dr_nesting : nesting s' = nesting s
}.

Lemma saved_shrunk t t' lv lv' dir d k name : saved fold t lv d -> cat_ok t lv -> cat_ok t' lv' ->
  account t' lv' = account t lv -> v_parent d <> dir ->
  catalog (elements lv') = base.delete (place_of fold dir name) (catalog (elements lv)) ->
  saved fold t' lv' (shrunk k d).
Proof using.
  intros Hs Ht Ht' Ha Hp E. unfold shrunk. destruct Hs as [Hlt|(Hh & dname & x & [B1 B2 B3 B4 B5 B6 B7 B8])].
  - left. by destruct (size_of d =? 0).
  - right. split.
    { apply (hint_lasts_step N max_record_len fold t lv); [done|done|done|]. by destruct (size_of d =? 0). }
    exists dname, x.
    assert (catalog (elements lv') !! place_of fold (v_parent d) dname = Some x) as Hx.
    { rewrite E, lookup_delete_ne; [done|]. unfold place_of. congruence. }
    by destruct (size_of d =? 0); constructor.
Qed.

Lemma wp_drop_entry {Y} s dir d n v (f : unit -> St (fs A) Y) Q : icache s !! dir = Some d -> icache s !! n = Some v -> n <> dir ->
  wp (f tt) (put_inode n (set_nlink (u32 (nlink v - 1)) v) (put_inode dir (shrunk (ticks s) d) (tick (tick s)))) Q ->
  wp (bind (drop_entry clock dir n) f) s Q.
Proof using.
  intros Hd Hv Hne Hf. apply wp_bind. unfold drop_entry. eapply wp_change; [exact Hd|].
  eapply wp_touch; [apply lookup_insert_eq|]. unfold change. eapply (wp_inode_of n v).
  { unfold put_inode. fields. rewrite !lookup_insert_ne by done. exact Hv. }
  unfold put_vfs, wp, modify. cbn [fst snd]. unfold put_inode, tick, set_icache, set_counts in *. cbn in *.
  by rewrite insert_insert_eq.
Qed.

(** What the steps up to the record of the directory leave. *)
Definition entry_dropped s s4 lv dir d name n v : Prop := exists lv4 b,
  at_rest s4 lv4 /\ account (catalog_tree s4) lv4 = account (catalog_tree s) lv /\
  catalog (elements lv4) =
    save_record fold block_size_shift (shrunk (ticks s) d) (base.delete (place_of fold dir name) (catalog (elements lv))) /\
  icache s4 = <[dir := with_hint b (shrunk (ticks s) d)]> (<[n := set_nlink (u32 (nlink v - 1)) v]> (icache s)) /\
  s4 = Fs (icache s4) (catalog_tree s4) Unlocked (S (nesting s)) (free_inode_bitmap s) (hard_links s) (hlink_pages s)
    (volume s) (files_count s) (S (S (ticks s))).

Lemma wp_unlink_end s s4 lv dir d name n v es : unlinkable s lv dir d name n v es ->
  entry_dropped s s4 lv dir d name n v ->
  wp (do v <- inode_of n;
      if negb (nlink v =? 0) then do_ touch_ctime clock n; do_ write_inode n; stop 0 else delete n) s4
    (ok (fun r s' => r = 0 /\ if nlink v =? 1 then removed s s' lv dir d name n v es else dropped s s' lv dir d name n v)).
Proof using HN Hxmax Hxrec Hstale.
  intros [_ _ _ Hd _ _ _ _ Hv Hn Hne Hlink] (lv4 & b & Hrest & Eacc & Ecat & Eic & Es4).
  set (v0 := set_nlink (u32 (nlink v - 1)) v) in *.
  assert (icache s4 !! n = Some v0) as Hv4 by (rewrite Eic, lookup_insert_ne by done; apply lookup_insert_eq).
  eapply (wp_inode_of n v0); [exact Hv4|]. change (nlink v0) with (u32 (nlink v - 1)).
  assert (free_inode_bitmap s4 = free_inode_bitmap s /\ volume s4 = volume s /\ nesting s4 = Datatypes.S (nesting s) /\
    hard_links s4 = hard_links s /\ hlink_pages s4 = hlink_pages s /\ files_count s4 = files_count s /\
    ticks s4 = S (S (ticks s))) as (E1 & E2 & E3 & E4 & E5 & E6 & E7) by (by rewrite Es4).
  destruct Hlink as [[Hlink Hdel]|Hlink].
  - rewrite Hlink, Z.eqb_refl. change (negb (u32 (1 - 1) =? 0)) with false. cbn iota. eapply wp_ok_mono.
    { apply (wp_delete_inode s4 n v0 es (nesting s)); [exact Hv4|exact Hn| |exact E3].
      destruct Hdel as [D1 D2 D3 D4 D5 D6]. unfold link_used in *. constructor; unfold link_used; rewrite ?E1, ?E2, ?E4; done. }
    intros r1 s5 (-> & [G0 G1 G2 G3] & Es5). split; [done|]. constructor.
    + exists lv4. split; [|by rewrite Es5]. rewrite Es5. destruct Hrest. by constructor.
    + exists b. rewrite Es5. cbn [icache]. rewrite Eic. by rewrite insert_insert_ne, delete_insert_eq by congruence.
    + constructor; [by rewrite <- E4|by rewrite <- E1|by rewrite <- E2|by rewrite <- E2].
    + by rewrite Es5.
    + by rewrite Es5.
    + by rewrite Es5.
  - pose proof Hlink as [Hl Hi Hh Hq]. rewrite (uwrap_small 32) by lia.
    rewrite !(proj2 (Z.eqb_neq _ _)) by lia. cbn [negb].
    eapply wp_touch_ctime; [exact Hv4|]. rewrite E7.
    assert (set_ctime (clock (S (S (ticks s)))) v0 = fewer (ticks s) v) as ->.
    { unfold v0, fewer. by rewrite (uwrap_small 32) by lia. }
    eapply wp_seq.
    { apply (wp_write_link _ n (fewer (ticks s) v)); [apply lookup_insert_eq| |fields; by rewrite Es4].
      right. split; [done|]. split; [done|]. fields. by rewrite E4. }
    intros r s5 [-> (m & Hm & ->)]. unfold put_inode, tick in Hm. cbn in Hm. rewrite E4 in Hm.
    eapply wp_stop; [cbn; exact E3|]. split; [done|]. constructor; cbn; try done.
    + exists lv4. split; [destruct Hrest; by constructor|done].
    + exists b. rewrite Eic. by rewrite insert_insert_ne, insert_insert_eq, insert_insert_ne by congruence.
    + by rewrite E5.
Qed.

Lemma wp_emmcfs_unlink s lv dir d name n v es : unlinkable s lv dir d name n v es ->
  wp (unlink dir name n) s (ok (fun r s' => match catalog (elements lv) !! place_of fold dir name with
    | Some _ => r = 0 /\ if nlink v =? 1 then removed s s' lv dir d name n v es else dropped s s' lv dir d name n v
    | None => r = - ENOENT /\ at_rest s' lv /\ others s s' /\ icache s' = icache s /\
        free_inode_bitmap s' = free_inode_bitmap s /\ files_count s' = files_count s
    end)).
Proof using HN Hmax Hbig Hxmax Hxrec Hstale.
  intros Hul. pose proof Hul as [[Ht Hc Hl] Hrm Hlv Hd Hdir Hname Hsaved Hpar Hv Hn Hne _].
  unfold emmcfs_unlink. apply (wp_unlink_key dir name); [done|apply Hname|]. intros t r S C Er.
  unfold start_transaction. apply wp_modify. cbv zeta. rewrite Er. apply wp_w_lock; [done|]. apply wp_code, wp_zoom. fields.
  assert (cat_ok t lv) as Ht1 by (by eapply tree_ok_sim; [symmetry|]).
  apply (wp_remove_name t lv dir name); try done.
  - destruct Hrm as [R1 R2 R3 R4 R5]. constructor; try done; [by rewrite (sim_num _ _ S)|by rewrite (sim_height _ _ S)].
  - intros Hnone t' S' C'. rewrite Hnone. cbn [Z.opp Z.eqb negb]. apply wp_w_unlock; [done|]. eapply wp_stop; [done|].
    split; [done|]. split; [|done]. constructor; [|done|done]. eapply tree_ok_sim; [|exact Ht]. symmetry. by rewrite <- S.
  - intros x Hx t' lv' C' T' Eacc Ecat. rewrite (account_sim _ _ _ S) in Eacc. rewrite Hx. cbn [Z.eqb negb].
    eapply wp_drop_entry; [exact Hd|exact Hv|done|]. apply wp_w_unlock; [done|]. fields.
    match goal with |- wp _ ?s1 _ => set (s3 := s1) end.
    assert (icache s3 !! dir = Some (shrunk (ticks s) d)) as Hd3.
    { unfold s3, put_inode. fields. by rewrite lookup_insert_ne, lookup_insert_eq by done. }
    eapply wp_seq; [apply (wp_save N max_record_len fold mounted beyond grow block_size_shift HN s3 lv' dir (shrunk (ticks s) d))|].
    { by constructor. }
    { exact Hd3. }
    { by apply (saved_shrunk (catalog_tree s) t' lv lv' dir d _ name Hsaved Ht T' Eacc Hpar Ecat). }
    intros r0 s4 [-> (lv4 & b & Hrest4 & Eacc4 & Ecat4 & Eic & Es4)].
    apply (wp_unlink_end s s4 lv dir d name n v es Hul). exists lv4, b. split; [exact Hrest4|].
    split; [by rewrite Eacc4|]. split; [by rewrite Ecat4, Ecat|]. split; [|by rewrite Es4].
    rewrite Eic. unfold s3, put_inode. fields. by rewrite insert_insert_ne, insert_insert_eq, insert_insert_ne by congruence.
Qed.

End unlink.

(** ** At work *)
#[local] Instance unlink_store : BlockAlloc (allocator (T := froot) (J := page_log)) :=
  fsm_block_alloc true 32 example_inode eq_refl page_log_ok.

Abbreviation example_unlink := (emmcfs_unlink 4096 479 0 emmcfs_cattree_cmpfn true (fun _ => false) Z.max id 5 example_extents_env 12 5
  (fun k => (1000 + Z.of_nat k, 0)) (replicate 12 7)).

Lemma link_0_used links : link_used (linked_fs links) (linked_20 links).
Proof. intros _. split; [cbn; lia|]. split; [apply example_one_link_packed|]. split; [constructor|by vm_compute]. Qed.

Lemma deletable_20 s v : v_inode v = file_20 -> link_used s v -> free_inode_bitmap s = ids_to_20 -> volume s = (bare_tree, block_store) ->
  deletable 4096 example_extents_env s v [Extent 4 2].
Proof.
  intros Ev Hl Ei Eb. constructor; rewrite ?Ev, ?Ei, ?Eb; [done|cbn; lia|apply ids_to_20_packed|constructor|by vm_compute|].
  intros _. split; [constructor|]. split; [done|]. eexists. by apply file_of_two.
Qed.

