(* ===== verification/NameiReaddir.v ===== *)
(** * The listing of a directory

    [emmcfs_readdir] gives the entries of a directory in the order of the tree,
    each one once, in pieces of any size. *)

From S2P Require Import Prelude Monad Data FsmBtree FsmAlloc Fsm Blocks BnodeBytes BnodeRepr BnodePool BnodePoolProofs.
From S2P Require Import Btree BtreeInv BtreeFind BtreeInsert BtreeSpec Exttree Fork InodeIds InodeIdsTheorems Truncate FsmTheorems.
From S2P Require Import Cattree CattreeProofs CattreeTheorems Vfs VfsProofs VfsExample Namei NameiLocks NameiTheorems.
Open Scope Z_scope.

(** ** What a call takes *)

(** The number of the inode and the type of the record that an entry stands for:
    they are in the record, or in the area of the hard links. *)
Definition target (pages : gmap Z (list Z)) (r : record) : Z * Z :=
  let value :=
    if rec_type (value_of r) =? EMMCFS_CATALOG_HLINK_RECORD then
      let place := hlink_value_page (val_hlink_id (value_of r)) in
      drop (Z.to_nat (snd place)) (default blank_page (pages !! fst place))
    else value_of r in
  (val_object_id value, rec_type value).

(** The kind of file that has records of a type, and how it is listed: devices,
    pipes and sockets as regular files. *)
Definition type_of_record (rt : Z) : option file_type :=
  List.find (fun ty => get_record_type_on_mode ty =? rt) [S_IFDIR; S_IFREG; S_IFLNK; S_IFIFO; S_IFSOCK; S_IFCHR; S_IFBLK].
Definition listed_as (ty : file_type) : dirent_type :=
  match ty with S_IFDIR => DT_DIR | S_IFLNK => DT_LNK | _ => DT_REG end.

Lemma listed_type rt ty : type_of_record rt = Some ty -> get_entry_type rt = Some (listed_as ty).
Proof. intros [_ E]%List.find_some. apply Z.eqb_eq in E as <-. by destruct ty. Qed.

Definition dirent_of (pages : gmap Z (list Z)) (pos : Z) (r : record) : dirent :=
  Dirent (name_bytes r) pos (fst (target pages r)) (listed_as (default S_IFREG (type_of_record (snd (target pages r))))).
Definition listable (pages : gmap Z (list Z)) (r : record) : Prop := is_Some (type_of_record (snd (target pages r))).

Section fill.
Context (pages : gmap Z (list Z)).
Abbreviation dirent_of := (dirent_of pages).

(** The buffer takes what it can of the records, and the rest is left. *)
Fixpoint fill (filldir : list dirent -> dirent -> bool) (pos : Z) (out : list dirent) (rs : list record) : list dirent * list record :=
  match rs with
  | [] => (out, [])
  | r :: rs' => if filldir out (dirent_of pos r) then fill filldir pos (out ++ [dirent_of pos r]) rs' else (out, rs)
  end.

Definition next_key (rs : list record) : option record := option_map copy_of_key (head rs).

Lemma fill_app filldir pos rs : forall out out' rest, fill filldir pos out rs = (out', rest) ->
  exists taken, rs = taken ++ rest /\ out' = out ++ map (dirent_of pos) taken.
Proof.
  induction rs as [|r rs IH]; intros out out' rest E; simpl in E.
  - injection E as <- <-. exists []. split; [done|]. by rewrite app_nil_r.
  - destruct (filldir out (dirent_of pos r)).
    + apply IH in E as (taken & -> & ->). exists (r :: taken). split; [done|]. by rewrite <- app_assoc.
    + injection E as <- <-. exists []. split; [done|]. by rewrite app_nil_r.
Qed.
End fill.

Lemma split_once {X} (c : X) l1 : forall l2 pre rest, l1 ++ c :: l2 = pre ++ c :: rest -> c ∉ l1 -> c ∉ l2 -> l2 = rest.
Proof.
  induction l1 as [|a l1 IH]; intros l2 [|b pre] rest E H1 H2; simpl in E; simplify_eq; try done.
  - exfalso. apply H2, elem_of_app. right; left.
  - exfalso. apply H1. left.
  - apply (IH l2 pre rest); [done| |done]. intros Hc. apply H1. by right.
Qed.

Section readdir.
Context (N max_record_len : Z) (fold : Z -> Z) (mounted : bool) (beyond : Z -> bool) (grow : Z -> Z -> Z).
Context (HN : node_size_ok N).
Context {A : Type}.
Abbreviation cmpfn := (cattree_cmp fold).
Abbreviation cat_ok := (tree_ok N max_record_len cmpfn (cat_key_ok fold)).
Abbreviation at_rest := (at_rest N max_record_len fold (A := A)).
Implicit Types (s : fs A).

(** ** What a listing changes: nothing but the answers that are used up *)
Definition ready s lv : Prop := at_rest s lv /\ InodeIdsTheorems.quiet (hard_links s).
Definition stays s s' : Prop := exists t m, s' = set_links m (set_catalog t s) /\ t ≈ catalog_tree s /\ calm t /\
  InodeIdsTheorems.quiet m.

Lemma stays_tree s t : t ≈ catalog_tree s -> calm t -> InodeIdsTheorems.quiet (hard_links s) -> stays s (set_catalog t s).
Proof using. intros S C Hq. exists t, (hard_links s). by destruct s. Qed.

Lemma stays_trans s1 s2 s3 : stays s1 s2 -> stays s2 s3 -> stays s1 s3.
Proof using.
  intros (t & m & -> & S & C & Q) (t' & m' & -> & S' & C' & Q'). exists t', m'.
  split; [by destruct s1|]. split; [by rewrite S'|done].
Qed.

Lemma stays_ready s s' lv : ready s lv -> stays s s' -> ready s' lv.
Proof using.
  intros [[H1 H2 H3] _] (t & m & -> & S & C & Q). split; [|done]. constructor; [by eapply tree_ok_sim; [symmetry|]|done|done].
Qed.

Lemma stays_pages s s' : stays s s' -> hlink_pages s' = hlink_pages s.
Proof using. by intros (t & m & -> & _). Qed.

Lemma wp_object_of {Y} s r (f : outcome (Z * Z) -> St (fs A) Y) Q : calm (catalog_tree s) -> InodeIdsTheorems.quiet (hard_links s) ->
  (forall s', stays s s' -> catalog_tree s' = catalog_tree s -> wp (f (Ok (target (hlink_pages s) r))) s' Q) ->
  wp (bind (try (object_of r)) f) s Q.
Proof using.
  intros Hc Hq Hf. unfold object_of, target in *.
  destruct (rec_type (value_of r) =? EMMCFS_CATALOG_HLINK_RECORD); cbn [negb].
  - unfold get_params_on_hlink_id, get_hlink_value_page. apply wp_try, wp_bind, wp_bind, wp_zoom, wp_kernel; [|by intros].
    intros m Hm. apply wp_ret. unfold hlink_value. apply wp_gets, wp_ret. apply Hf; [|done].
    exists (catalog_tree s), m. split; [by destruct s|]. split; [done|]. split; [done|by apply Hm].
  - apply wp_try, wp_ret. replace s with (set_catalog (catalog_tree s) s) by (by destruct s). apply Hf; [by apply stays_tree|by destruct s].
Qed.

(** ** The children of a directory in the order of the tree *)
Lemma children_end l dir q x z : sorted cmpfn l -> keys_ok (cat_key_ok fold) l -> l !! q = Some x -> parent_id x = dir ->
  l !! S q = Some z -> parent_id z <> dir -> children dir (drop (S q) l) = [].
Proof using.
  intros Hs Hk Hx Ex Hz Hne. apply filter_none_in. intros y Hy E. apply list_elem_of_lookup in Hy as [i Hi].
  rewrite lookup_drop in Hi.
  pose proof (Forall_lookup_1 _ _ _ _ Hk Hx) as Hkx. pose proof (Forall_lookup_1 _ _ _ _ Hk Hz) as Hkz.
  pose proof (Forall_lookup_1 _ _ _ _ Hk Hi) as Hky.
  assert (forall u v, cat_key_ok fold u -> cat_key_ok fold v -> lt cmpfn u v -> parent_id u <= parent_id v) as Hle.
  { intros u v Hu Hv H. apply (cattree_cmp_spec fold u v Hu Hv) in H. destruct H as [H|[H _]]; [change (parent_id u < parent_id v) in H|simpl in H]; lia. }
  pose proof (Hle _ _ Hkx Hkz (sorted_lookup cmpfn _ _ _ _ _ Hs Hx Hz ltac:(lia))) as H1.
  destruct i as [|i]; [rewrite Nat.add_0_r in Hi; congruence|].
  pose proof (Hle _ _ Hkz Hky (sorted_lookup cmpfn _ _ _ _ _ Hs Hz Hi ltac:(lia))) as H2. lia.
Qed.

Lemma children_here l dir q x : l !! q = Some x -> parent_id x = dir ->
  children dir (drop q l) = x :: children dir (drop (S q) l).
Proof using. intros Hx E. rewrite (drop_S l x q Hx). unfold children. by rewrite filter_cons_True. Qed.

Lemma name_in_entry r : cat_key_ok fold r ->
  take (Z.to_nat (Z.min (name_length r) (2 * EMMCFS_CAT_MAX_NAME))) (name_chars r) = name_bytes r.
Proof using.
  intros Hr. unfold name_bytes. do 2 f_equal. pose proof (ck_name _ _ Hr). unfold EMMCFS_UNICODE_STRING_MAX_LEN, EMMCFS_CAT_MAX_NAME in *. lia.
Qed.

Lemma wp_store_key {Y} s f key (k : option record -> St (fs A) Y) Q : calm (catalog_tree s) ->
  (forall t, t ≈ catalog_tree s -> calm t -> wp (k (Some (copy_of_key key))) (set_catalog t s) Q) ->
  wp (bind (store_key f key) k) s Q.
Proof using.
  intros Hc Hk. apply wp_bind. unfold store_key.
  assert (wp (do k <- try (in_cat kmalloc); match k with Ok _ => ret (Some (copy_of_key key)) | _ => ret None end) s
    (fun r s' => match r with Ok a => wp (k a) s' Q | Err e => Q (Err e) s' | Bug => Q Bug s' end)) as Hm.
  { apply wp_try_kmalloc; [done|]. intros t S C. apply wp_ret. by apply Hk. }
  destruct (private_data f) as [prev|]; [|exact Hm]. destruct (key_len prev <=? key_len key); [exact Hm|].
  apply wp_ret. replace s with (set_catalog (catalog_tree s) s) by (by destruct s). by apply Hk.
Qed.

Lemma wp_readdir_loop filldir turns dir : forall h pos q x f out s lv, cat_ok (catalog_tree s) lv -> calm (catalog_tree s) ->
  InodeIdsTheorems.quiet (hard_links s) -> placed lv (catalog_tree s) h pos q x -> parent_id x = dir ->
  Forall (listable (hlink_pages s)) (children dir (elements lv)) -> (length (children dir (drop q (elements lv))) <= turns)%nat ->
  wp (readdir_loop mounted beyond grow filldir turns dir h pos x f out) s (ok (fun r s' =>
    exists out' rest h', fill (hlink_pages s) filldir (f_pos f) out (children dir (drop q (elements lv))) = (out', rest) /\
      r = (0, out', DirFile (f_pos f) (next_key rest), h') /\ stays s s')).
Proof using HN.
  induction turns as [|turns IH]; intros h pos q x f out s lv Ht Hc Hquiet (Hq & Hat & Hpl) Hp Hall Hturns;
    rewrite (children_here _ _ _ _ Hq Hp) in *; [simpl in Hturns; lia|].
  destruct (elements_sorted _ _ _ _ _ _ Ht) as [Hs Hk]. pose proof (Forall_lookup_1 _ _ _ _ Hk Hq) as Hkx.
  assert (listable (hlink_pages s) x) as [ty Hty].
  { rewrite Forall_forall in Hall. apply Hall. apply list_elem_of_filter. split; [done|by eapply list_elem_of_lookup_2]. }
  cbn [readdir_loop]. rewrite (proj2 (Z.eqb_eq _ _) Hp). cbn [negb].
  apply wp_object_of; [done|done|]. intros s1 H1 Et1. pose proof (stays_pages _ _ H1) as Ep1.
  destruct (target (hlink_pages s) x) as [obj rt] eqn:Etg. cbn [snd] in Hty. rewrite (listed_type _ _ Hty), name_in_entry by done. cbn [fill].
  assert (dirent_of (hlink_pages s) (f_pos f) x = Dirent (name_bytes x) (f_pos f) obj (listed_as ty)) as <-
    by (unfold dirent_of; rewrite Etg; cbn [snd]; by rewrite Hty).
  assert (calm (catalog_tree s1) /\ InodeIdsTheorems.quiet (hard_links s1)) as [Hc1 Hq1].
  { rewrite Et1. split; [done|]. destruct H1 as (t & m & -> & _ & _ & ?). done. }
  destruct (filldir out (dirent_of (hlink_pages s) (f_pos f) x)) eqn:Hfill; cbn [negb].
  - destruct Hpl as (L & up & j & Elv & Hpl). destruct h as [id hrw].
    apply wp_try. apply wp_zoom. rewrite Et1. eapply wp_mono.
    { apply (wp_next_record N max_record_len cmpfn (cat_key_ok fold) mounted beyond grow (catalog_tree s) lv L up id pos q j hrw); done. }
    intros [[[h2 pos2] z]|e|] t W; [| |by destruct W].
    + destruct W as (S & C & Hz & j2 & Hpl2). specialize (C Hc).
      assert (cat_ok t lv) as Ht2 by (by eapply tree_ok_sim; [symmetry|]).
      assert (stays s (set_catalog t s1)) as H2 by (eapply stays_trans; [exact H1|]; apply stays_tree; [by rewrite Et1|done|done]).
      destruct (Z.eqb_spec (parent_id z) dir) as [E|E]; cbn [negb].
      * assert (placed lv t h2 pos2 (Datatypes.S q) z) as Hpl3.
        { split; [done|]. split; [|by exists L, up, j2]. eapply place_record; [exact Ht2|exact Elv|exact Hpl2|by subst lv]. }
        eapply wp_ok_mono.
        { apply (IH h2 pos2 (Datatypes.S q) z f _ (set_catalog t s1) lv); try done; cbn [set_catalog hlink_pages]; [by rewrite Ep1|simpl in Hturns; lia]. }
        cbn [set_catalog hlink_pages]. rewrite Ep1. intros r s' (out' & rest & h' & Ef & -> & H3). exists out', rest, h'.
        split; [exact Ef|]. split; [done|]. by eapply stays_trans.
      * apply wp_ret. rewrite (children_end (elements lv) dir q x z) by done. cbn [fill].
        exists (out ++ [dirent_of (hlink_pages s) (f_pos f) x]), [], h2. by split_and!.
    + destruct W as (S & W). destruct (W Hc) as (C & -> & Hlen). rewrite Z.eqb_refl. apply wp_ret.
      rewrite drop_ge by lia. cbn [fill]. exists (out ++ [dirent_of (hlink_pages s) (f_pos f) x]), [], (Handle id hrw).
      split; [done|]. split; [done|]. eapply stays_trans; [exact H1|]. apply stays_tree; [by rewrite Et1|done|done].
  - apply wp_store_key; [done|]. intros t S C. apply wp_ret. exists out, (x :: children dir (drop (Datatypes.S q) (elements lv))), h.
    split; [done|]. split; [done|]. eapply stays_trans; [exact H1|]. by apply stays_tree.
Qed.

(** ** The next record by its key *)
Lemma copy_same_key r : cat_key_ok fold r -> same_key (copy_of_key r) r.
Proof using.
  intros [H1 H2 _ _ _]. pose proof (name_length_bound r). unfold same_key, copy_of_key.
  assert (key_len (take (Z.to_nat (key_len r)) r) = key_len r) as E.
  { unfold key_len at 1. rewrite skipn_firstn_comm, take_take. unfold key_len at 2. do 3 f_equal. lia. }
  split; [done|]. unfold key_bytes. by rewrite E, take_take, Nat.min_id.
Qed.

Lemma floor_of_key l q x c : sorted cmpfn l -> keys_ok (cat_key_ok fold) l -> c ∈ l -> l !! q = Some x ->
  floor_pos cmpfn l (copy_of_key c) q -> x = c.
Proof using.
  intros Hs Hk Hc Hx [(x' & Hx' & Hle) Hhi]. assert (x' = x) as -> by congruence.
  apply list_elem_of_lookup in Hc as [i Hi].
  pose proof (Forall_lookup_1 _ _ _ _ Hk Hi) as Hkc. pose proof (Forall_lookup_1 _ _ _ _ Hk Hx) as Hkx.
  pose proof (copy_same_key c Hkc) as Hsame.
  assert (cat_key_ok fold (copy_of_key c)) as Hkk by (eapply (ko_key (comp_fn := cmpfn)); [by apply same_key_sym|done]).
  destruct (Nat.lt_trichotomy i q) as [Hlt|[->|Hgt]]; [|congruence|].
  - exfalso. pose proof (sorted_lookup cmpfn _ _ _ _ _ Hs Hi Hx Hlt) as H. unfold lt in H.
    apply (ko_sym (comp_fn := cmpfn) (key_ok := cat_key_ok fold)) in H; [|done|done].
    destruct Hle as [Hle|Hle]; [|lia]. unfold le in Hle.
    destruct (ko_same (comp_fn := cmpfn) (copy_of_key c) c x Hsame Hkk) as [_ E]. rewrite E in Hle. lia.
  - exfalso. specialize (Hhi i c Hgt Hi). unfold lt in Hhi.
    destruct (ko_same (comp_fn := cmpfn) (copy_of_key c) c c Hsame Hkk) as [E _]. rewrite E in Hhi.
    rewrite (ko_refl (comp_fn := cmpfn) (key_ok := cat_key_ok fold) c Hkc) in Hhi. lia.
Qed.

(** ** One call *)
Lemma wp_r_lock {Y} s (f : unit -> St (fs A) Y) Q : tree_lock s = Unlocked ->
  wp (f tt) (set_lock (ReadLocked 1) (nesting s) s) Q -> wp (bind mutex_r_lock f) s Q.
Proof using. intros El Hf. unfold wp, mutex_r_lock, lock_to, bind in *. by rewrite El. Qed.

Lemma wp_r_unlock {Y} s (f : unit -> St (fs A) Y) Q : tree_lock s = ReadLocked 1 ->
  wp (f tt) (set_lock Unlocked (nesting s) s) Q -> wp (bind mutex_r_unlock f) s Q.
Proof using. intros El Hf. unfold wp, mutex_r_unlock, unlock, bind in *. by rewrite El. Qed.

Lemma wp_put_dirent {Y} s h (f : unit -> St (fs A) Y) Q : wp (f tt) s Q -> wp (bind (in_cat (emmcfs_put_bnode h)) f) s Q.
Proof using.
  intros Hf. eapply (wp_in_cat _ _ _ (fun _ t => t = catalog_tree s)).
  - unfold emmcfs_put_bnode, __put_bnode. rewrite andb_false_r. by apply wp_ret.
  - intros [] t ->. by replace (set_catalog (catalog_tree s) s) with s by (by destruct s).
Qed.

(** The records that a call begins with: all of the directory, or those from the
    key in the file on. *)
Definition pending lv (dir : Z) (f : dir_file) (rs : list record) : Prop :=
  match private_data f with
  | None => rs = children dir (elements lv)
  | Some key => exists l c rs', children dir (elements lv) = l ++ c :: rs' /\ rs = c :: rs' /\ key = copy_of_key c
  end.

Abbreviation readdir_records := (readdir_records cmpfn mounted beyond grow (A := A)).

(** The place of the records that are pending. *)
Lemma pending_children l dir q c rs' pre : children dir l = pre ++ c :: rs' -> NoDup (map (key_of fold) l) ->
  l !! q = Some c -> children dir (drop q l) = c :: rs'.
Proof using.
  intros E Hnd Hq. assert (parent_id c = dir) as Hp.
  { assert (c ∈ children dir l) as Hc by (rewrite E; apply elem_of_app; right; left). by apply list_elem_of_filter in Hc as [? _]. }
  rewrite (children_here _ _ _ _ Hq Hp). f_equal.
  rewrite <- (take_drop_middle l q c Hq) in E, Hnd. unfold children in E. rewrite filter_app, filter_cons_True in E by done.
  rewrite map_app in Hnd. cbn [map] in Hnd. apply NoDup_app in Hnd as (_ & Hl & Hr). apply NoDup_cons in Hr as [Hr _].
  apply (split_once c _ _ _ _ E).
  - intros [_ Hc]%list_elem_of_filter. apply (Hl (key_of fold c)); [by apply list_elem_of_fmap_2|left].
  - intros [_ Hc]%list_elem_of_filter. apply Hr. by apply list_elem_of_fmap_2.
Qed.

(** What is listed, whatever else happens. *)
Definition listed lv s (dir : Z) (turns : nat) : Prop :=
  Forall (listable (hlink_pages s)) (children dir (elements lv)) /\ (length (children dir (elements lv)) <= turns)%nat.

Lemma wp_readdir_records filldir turns dir f out s lv rs : ready s lv -> 0 <= dir < 2 ^ 31 ->
  listed lv s dir turns -> pending lv dir f rs ->
  wp (readdir_records filldir turns dir f out) s (ok (fun r s' => stays s s' /\
      let '(out', rest) := fill (hlink_pages s) filldir (f_pos f) out rs in
      r = match rs with [] => (- ENOENT, out, f) | _ => (0, out', DirFile (f_pos f) (next_key rest)) end)).
Proof using HN.
  intros [[Ht Hc Hl] Hquiet] Hdir [Hall Hturns] Hpend. unfold Namei.readdir_records. apply wp_r_lock; [done|].
  destruct (elements_sorted _ _ _ _ _ _ Ht) as [Hs Hk].
  (* from a place on *)
  assert (forall h pos q x t, t ≈ catalog_tree s -> calm t -> placed lv t h pos q x -> parent_id x = dir ->
    children dir (drop q (elements lv)) = rs -> rs <> [] ->
    wp (do k <- try (in_cat (emmcfs_get_btree_record h pos));
        match k with
        | Bug => bug
        | Err e => do_ in_cat (emmcfs_put_bnode h); do_ mutex_r_unlock; ret (e, out, f)
        | Ok key =>
          do '(err, out, f, h) <- readdir_loop mounted beyond grow filldir turns dir h pos key f out;
          do_ in_cat (emmcfs_put_bnode h);
          do_ mutex_r_unlock;
          ret (err, out, f)
        end) (set_catalog t (set_lock (ReadLocked 1) (nesting s) s)) (ok (fun r s' => stays s s' /\
        let '(out', rest) := fill (hlink_pages s) filldir (f_pos f) out rs in
        r = match rs with [] => (- ENOENT, out, f) | _ => (0, out', DirFile (f_pos f) (next_key rest)) end))) as Hfrom.
  { intros h pos q x t S C Hpl Hp Hrs Hne. assert (cat_ok t lv) as Ht2 by (by eapply tree_ok_sim; [symmetry|]).
    pose proof Hpl as (Hq & Hat & Hplace).
    eapply (wp_try_ok _ _ _ (fun r s' => r = x /\ s' = set_catalog t (set_lock (ReadLocked 1) (nesting s) s))).
    { apply wp_zoom. eapply wp_mono; [by apply (wp_get_btree_record N max_record_len cmpfn (cat_key_ok fold) t lv h pos q x)|].
      intros [r|e|] t2 W; [|done|done]. by destruct W as [-> ->]. }
    intros r s' [-> ->]. eapply wp_seq; [eapply (wp_readdir_loop filldir turns dir h pos q x f out _ lv); try done|].
    { rewrite Hrs. etrans; [|exact Hturns]. rewrite <- Hrs. rewrite <- (take_drop q (elements lv)) at 2.
      unfold children. rewrite filter_app, length_app. lia. }
    intros r s' (out' & rest & h' & Ef & -> & (t' & m & -> & S' & C' & Q')). cbn [set_catalog set_lock hlink_pages] in Ef.
    rewrite Hrs in Ef. cbn iota beta.
    apply wp_put_dirent. apply wp_r_unlock; [done|]. apply wp_ret. split; [|rewrite Ef; by destruct rs].
    exists t', m. split; [destruct s; simpl in *; by subst|]. split; [by rewrite S'|done]. }
  apply wp_try. unfold pending in Hpend. destruct (private_data f) as [key|] eqn:Hf.
  - destruct Hpend as (l & c & rs' & El & -> & ->).
    assert (c ∈ elements lv /\ parent_id c = dir) as [Hin Hp].
    { assert (c ∈ children dir (elements lv)) as Hin by (rewrite El; apply elem_of_app; right; left). by apply list_elem_of_filter in Hin as [? ?]. }
    assert (cat_key_ok fold c) as Hkc by (unfold keys_ok in Hk; rewrite Forall_forall in Hk; by apply Hk).
    assert (cat_key_ok fold (copy_of_key c)) as Hkk by (eapply (ko_key (comp_fn := cmpfn)); [by apply same_key_sym, copy_same_key|done]).
    apply wp_zoom. eapply wp_mono; [by apply (wp_find N max_record_len cmpfn (cat_key_ok fold) mounted beyond grow)|].
    intros [[h pos]|e|] t W; [|by destruct W|by destruct W].
    destruct W as (S & C & q & x & Hq & Hat & Hfl & _ & Hpl). specialize (C Hc).
    assert (x = c) as -> by (by apply (floor_of_key (elements lv) q)).
    assert (placed lv t h pos q c) as Hplace.
    { split; [done|]. split; [|done]. unfold record_at in *. by rewrite (sim_nodes _ _ S). }
    apply (Hfrom h pos q c t); try done.
    apply (pending_children _ _ _ _ _ l El); [|done]. by apply (cat_nodup N max_record_len fold (catalog_tree s)).
  - subst rs. apply wp_zoom. eapply wp_mono; [by apply (wp_first_child N max_record_len fold mounted beyond grow HN (catalog_tree s) lv dir)|].
    intros [[h pos]|e|] t W; [| |done].
    + destruct W as (S & C & q & r & Hpl & Hp & Hbefore). specialize (C Hc). pose proof Hpl as (Hq & _).
      assert (children dir (drop q (elements lv)) = children dir (elements lv)) as E.
      { rewrite <- (take_drop q (elements lv)) at 2. unfold children in *. by rewrite filter_app, Hbefore. }
      apply (Hfrom h pos q r t); try done. rewrite <- E, (children_here _ _ _ _ Hq Hp). done.
    + destruct W as (S & W). destruct (W Hc) as (C & -> & E). rewrite E. apply wp_r_unlock; [done|]. apply wp_ret. split; [|done].
      exists t, (hard_links s). split; [destruct s; simpl in *; by subst|]. by split_and!.
Qed.

(** ** The whole listing *)
Abbreviation readdir := (emmcfs_readdir cmpfn mounted beyond grow (A := A)).

(** The calls of a reader, each with the buffer that its callback stands for;
    the error codes are dropped, as [getdents] does with entries at hand. *)
Fixpoint read_all (turns : nat) (bufs : list (list dirent -> dirent -> bool)) (dir parent : Z) (f : dir_file) : St (fs A) (list dirent) :=
  match bufs with
  | [] => ret []
  | filldir :: bufs =>
    do '(_, out, f) <- readdir filldir turns dir parent f;
    do rest <- read_all turns bufs dir parent f;
    ret (out ++ rest)
  end.

(** A buffer for three entries or more. *)
Definition takes_three (filldir : list dirent -> dirent -> bool) : Prop := forall out e, (length out < 3)%nat -> filldir out e = true.

(** The calls behind the first. *)
Lemma wp_read_rest turns dir parent lv bufs : 0 <= dir < 2 ^ 31 -> Forall takes_three bufs -> forall s rs pre,
  ready s lv -> listed lv s dir turns -> children dir (elements lv) = pre ++ rs -> (length rs <= length bufs)%nat ->
  wp (read_all turns bufs dir parent (DirFile 2 (next_key rs))) s (ok (fun r s' =>
    r = map (dirent_of (hlink_pages s) 2) rs /\ stays s s')).
Proof using HN.
  intros Hdir Hbufs. induction Hbufs as [|filldir bufs Hb _ IH]; intros s rs pre Hs Hall Hch Hlen.
  - destruct rs; [|simpl in Hlen; lia]. apply wp_ret. split; [done|]. replace s with (set_catalog (catalog_tree s) s) at 2 by (by destruct s).
    apply stays_tree; [done|apply Hs|apply Hs].
  - cbn [read_all]. destruct rs as [|c rs].
    + eapply (wp_seq _ _ _ (fun r s' => r = (0, [], DirFile 2 None) /\ s' = s)); [by apply wp_ret|]. intros r s' [-> ->].
      eapply wp_seq; [by apply (IH s [] pre); [| | |simpl; lia]|]. intros r s' (-> & Ht). by apply wp_ret.
    + eapply wp_seq.
      { apply (wp_readdir_records filldir turns dir (DirFile 2 (next_key (c :: rs))) [] s lv (c :: rs)); try done.
        exists pre, c, rs. by split_and!. }
      intros r s' (H1 & E). destruct (fill _ filldir _ [] (c :: rs)) as [out rest] eqn:Hfill. rewrite E. cbn [f_pos].
      pose proof (fill_app _ _ _ _ _ _ _ Hfill) as (taken & Etk & ->). cbn [f_pos] in *.
      assert (taken <> []) as Hne.
      { intros ->. cbn [fill] in Hfill. rewrite Hb in Hfill by (simpl; lia).
        apply fill_app in Hfill as (taken & _ & Ex). by destruct taken. }
      pose proof (stays_pages _ _ H1) as Ep. eapply wp_seq.
      { apply (IH s' rest (pre ++ taken)).
        - by eapply stays_ready.
        - unfold listed. by rewrite Ep.
        - by rewrite Hch, Etk, app_assoc.
        - apply (f_equal length) in Etk. rewrite length_app in Etk. destruct taken; [done|]. simpl in *. lia. }
      intros r0 s2 (-> & H2). apply wp_ret. split; [by rewrite Etk, map_app, Ep|]. by eapply stays_trans.
Qed.

(** C7: a listing of a directory gives "." and "..", and then each of its entries
    once, those of hard links among them, in the order of the tree, with its name
    and the number of its inode, whatever the sizes of the buffers are into which
    it is cut, as long as each takes three entries.  The number and the type
    come from the record of the entry, for a hard link from the area of the hard
    links.  The type is reported as [get_entry_type] does it: directories and
    symbolic links as such, and all else, devices, pipes and sockets too, as
    regular files.  The key that a call leaves in the file is found again by the
    next one. *)
Theorem emmcfs_readdir_complete turns dir parent lv bufs s : 0 <= dir < 2 ^ 31 -> ready s lv -> listed lv s dir turns ->
  Forall takes_three bufs -> (length (children dir (elements lv)) <= length bufs)%nat -> bufs <> [] ->
  exists s', read_all turns bufs dir parent (DirFile 0 None) s =
    (Ok (Dirent [46] 0 dir DT_DIR :: Dirent [46; 46] 1 parent DT_DIR ::
         map (dirent_of (hlink_pages s) 2) (children dir (elements lv))), s') /\
    stays s s'.
Proof using HN.
  intros Hdir Hs Hall Hbufs Hlen Hne.
  enough (wp (read_all turns bufs dir parent (DirFile 0 None)) s (ok (fun r s' =>
    r = Dirent [46] 0 dir DT_DIR :: Dirent [46; 46] 1 parent DT_DIR ::
      map (dirent_of (hlink_pages s) 2) (children dir (elements lv)) /\ stays s s'))) as W.
  { unfold wp in W. destruct (read_all _ _ _ _ _ s) as [[r|e|] s']; [|done|done]. destruct W as [-> W]. by exists s'. }
  destruct bufs as [|filldir bufs]; [done|]. apply Forall_cons in Hbufs as [Hb Hbufs]. cbn [read_all]. unfold emmcfs_readdir.
  cbn [f_pos Z.eqb private_data]. rewrite !Hb by (simpl; lia). cbn [negb app].
  eapply wp_seq.
  { apply (wp_readdir_records filldir turns dir (DirFile 2 None) _ s lv (children dir (elements lv))); done. }
  intros r s' (H1 & E). destruct (fill _ filldir _ _ _) as [out rest] eqn:Hfill. rewrite E. cbn [f_pos] in *.
  pose proof (fill_app _ _ _ _ _ _ _ Hfill) as (taken & Etk & Eout). pose proof (stays_pages _ _ H1) as Ep.
  assert (listed lv s' dir turns) as Hall' by (unfold listed; by rewrite Ep).
  assert (forall pre rs2, children dir (elements lv) = pre ++ rs2 -> (length rs2 <= length bufs)%nat ->
    wp (read_all turns bufs dir parent (DirFile 2 (next_key rs2))) s' (ok (fun r s2 =>
      r = map (dirent_of (hlink_pages s) 2) rs2 /\ stays s s2))) as Hrest.
  { intros pre rs2 E2 Hl. eapply wp_ok_mono; [apply (wp_read_rest turns dir parent lv bufs Hdir Hbufs s' rs2 pre); [by eapply stays_ready|done|done|done]|].
    rewrite Ep. intros r0 s2 [-> H2]. split; [done|]. by eapply stays_trans. }
  destruct (children dir (elements lv)) as [|c rs] eqn:Hch.
  - eapply wp_seq; [by apply (Hrest [] []); [|simpl; lia]|]. intros r0 s2 (-> & H2). by apply wp_ret.
  - assert (taken <> []) as Htk.
    { intros ->. cbn [fill] in Hfill. rewrite Hb in Hfill by (simpl; lia).
      apply fill_app in Hfill as (taken & _ & Ex). rewrite Eout in Ex. apply (f_equal length) in Ex. rewrite !length_app in Ex. simpl in Ex. lia. }
    eapply wp_seq.
    { apply (Hrest taken rest Etk). apply (f_equal length) in Etk. rewrite length_app in Etk. destruct taken; [done|]. simpl in *. lia. }
    intros r0 s2 (-> & H2). apply wp_ret. split; [|done]. by rewrite Etk, Eout, map_app.
Qed.
End readdir.

(** ** At work *)

(** Buffers for three entries: "a" comes with the first, "b", a name of the hard
    link 0, and "d" with the second. *)
Lemma emmcfs_readdir_complete_witness :
  exists s', read_all same true (fun _ => false) Z.max 5 (replicate 3 (fun out _ => (length out <? 3)%nat)) 1 1 (DirFile 0 None) (linked_fs 2) =
    (Ok [Dirent [46] 0 1 DT_DIR; Dirent [46; 46] 1 1 DT_DIR; Dirent [97] 2 18 DT_DIR; Dirent [98] 2 20 DT_REG; Dirent [100] 2 19 DT_DIR], s').
Proof.
  destruct (emmcfs_readdir_complete 4096 479 same true (fun _ => false) Z.max ltac:(unfold node_size_ok; lia)
    5 1 1 linked_levels (replicate 3 (fun out _ => (length out <? 3)%nat)) (linked_fs 2)) as (s' & E & _).
  - lia.
  - split; [apply linked_at_rest|constructor].
  - split; [|vm_compute; lia].
    repeat (apply Forall_cons; split; [vm_compute; eexists; reflexivity|]). apply Forall_nil; exact I.
  - apply Forall_replicate. intros out e Hl. by apply Nat.ltb_lt.
  - vm_compute. lia.
  - done.
  - exists s'. etrans; [exact E|]. reflexivity.
Defined.
