(* ===== verification/Super.v ===== *)
(** * The super blocks (super.c)

    A volume holds its super block and extended super block twice, behind the
    reserved area at its beginning and before the one at its end.  Modelled are
    their verification and repair at mount time, the values that are taken from
    them, and their writing.

    The page that holds both blocks is the list of its bytes; fields are read at
    their offsets in the packed structures of emmcfs_fs.h.  The kernel decides
    whether memory is there, whether a page lock is free, and how requests go. *)

From S2P Require Import Prelude Monad Data Snapshot Fork Cattree Vfs.
Open Scope Z_scope.

(** ** Places *)
Definition EMMCFS_RESERVED_AREA_LENGTH : Z := 1024.
Definition SB_SIZE : Z := 512.
Definition sizeof_exsb : Z := 2048.
Definition SB_SIZE_IN_SECTOR : Z := SB_SIZE / SECTOR_SIZE.
Definition ESB_SIZE_IN_SECTOR : Z := 5.
Definition RESERVED_SECTORS : Z := EMMCFS_RESERVED_AREA_LENGTH / SECTOR_SIZE.

(** "1eMMCFS" *)
Definition EMMCFS_SB_SIGNATURE : Z := 0x5346434D4D6531.
Definition EMMCFS_SB_VER_MAJOR : Z := 1.
Definition EMMCFS_SB_VER_MINOR : Z := 0.
Definition EMMCFS_FILE_NAME_LEN : Z := 255.

(** [EMMCFS_MOUNT_SNAPSHOT], ..., [set_option], [clear_option], [test_option] *)
Definition MOUNT_SNAPSHOT : Z := 0x1.
Definition MOUNT_CASE_INSENSITIVE : Z := 0x10.
Definition MOUNT_VERCHECK : Z := 0x100.
Definition MOUNT_BTREE_CHECK : Z := 0x1000.
Definition set_option (o options : Z) : Z := Z.lor options o.
Definition clear_option (o options : Z) : Z := Z.land options (Z.lnot o).
Definition test_option (o options : Z) : bool := negb (Z.land options o =? 0).

(** ** The blocks in a page *)

(** [struct emmcfs_super_block], and the fields that are read *)
Definition sb_of (p : page) : list Z := take 512 p.
Definition sb_signature (esb : list Z) : list Z := take 7 esb.
Definition sb_version (esb : list Z) : Z := field 1 7 esb.
Definition sb_log_block_size (esb : list Z) : Z := field 1 8 esb.
Definition sb_log_leb_size (esb : list Z) : Z := field 1 9 esb.
Definition sb_total_leb_count (esb : list Z) : Z := field 8 10 esb.
Definition sb_checksum (esb : list Z) : Z := field 4 508 esb.

(** [EMMCFS_RAw_EXSB], [struct emmcfs_extended_super_block] *)
Definition exsb_of (p : page) : list Z := take 2048 (drop 512 p).
Definition snapshot_extent (exsb : list Z) : extent_info := decode_extent (drop 134 exsb).
Definition exsb_mount_counter (exsb : list Z) : Z := field 4 754 exsb.
Definition exsb_checksum (exsb : list Z) : Z := field 4 2044 exsb.

(** [memcpy] of a block to another page *)
Definition copy_sb (from to : page) : page := take 512 from ++ drop 512 to.
Definition copy_exsb (from to : page) : page := write_at 512 (exsb_of from) to.

(** ** State *)

(** What is taken from the super block into [struct emmcfs_sb_info]. *)
Record geometry := Geometry {
  block_size : Z;
  block_size_shift : Z;
  log_sectors_per_block : Z;
  offset_msk_inblock : Z;
  sectors_per_volume : Z;
  log_blocks_in_leb : Z;
  btree_node_size_blks : Z;
  total_leb_count : Z;
  lebs_bm_log_blocks_block : Z;
  lebs_bm_bits_in_last_block : Z;
  lebs_bm_blocks_count : Z;
  volume_uuid : Z
}.

(** As [kzalloc] gives it. *)
Definition no_geometry : geometry := Geometry 0 0 0 0 0 0 0 0 0 0 0 0.

(** The device and the answers of the kernel to requests, allocations and
    [trylock_page]; the super block of the VFS ([s_blocksize_bits], [s_dirt],
    [MS_RDONLY]) and [struct emmcfs_sb_info]: geometry, options, flags, the two
    pages.  [m_sent] is the history of the device: the places and bytes of the
    requests to write, in the order in which they were sent. *)
Record mount := Mount {
  m_dev : device;
  m_io : list bio_ans;
  m_mem : oracle;
  m_trylock : oracle;
  s_blocksize_bits : Z;
  s_dirt : bool;
  read_only : bool;
  sb_info : geometry;
  mount_options : Z;
  exsb_dirty : bool;
  exsb_dirty_snapshot : bool;
  superblocks : page;
  superblocks_copy : page;
  m_sent : list (Z * list Z)
}.

Definition set_device d i (m : mount) : mount := Mount d i (m_mem m) (m_trylock m) (s_blocksize_bits m) (s_dirt m)
  (read_only m) (sb_info m) (mount_options m) (exsb_dirty m) (exsb_dirty_snapshot m) (superblocks m) (superblocks_copy m) (m_sent m).
Definition set_oracles mem try_ (m : mount) : mount := Mount (m_dev m) (m_io m) mem try_ (s_blocksize_bits m) (s_dirt m)
  (read_only m) (sb_info m) (mount_options m) (exsb_dirty m) (exsb_dirty_snapshot m) (superblocks m) (superblocks_copy m) (m_sent m).
Definition set_vfs bits dirt ro (m : mount) : mount := Mount (m_dev m) (m_io m) (m_mem m) (m_trylock m) bits dirt
  ro (sb_info m) (mount_options m) (exsb_dirty m) (exsb_dirty_snapshot m) (superblocks m) (superblocks_copy m) (m_sent m).
Definition set_sb_info g o (m : mount) : mount := Mount (m_dev m) (m_io m) (m_mem m) (m_trylock m) (s_blocksize_bits m)
  (s_dirt m) (read_only m) g o (exsb_dirty m) (exsb_dirty_snapshot m) (superblocks m) (superblocks_copy m) (m_sent m).
Definition set_dirty_flags b c (m : mount) : mount := Mount (m_dev m) (m_io m) (m_mem m) (m_trylock m) (s_blocksize_bits m)
  (s_dirt m) (read_only m) (sb_info m) (mount_options m) b c (superblocks m) (superblocks_copy m) (m_sent m).
Definition set_pages p q (m : mount) : mount := Mount (m_dev m) (m_io m) (m_mem m) (m_trylock m) (s_blocksize_bits m)
  (s_dirt m) (read_only m) (sb_info m) (mount_options m) (exsb_dirty m) (exsb_dirty_snapshot m) p q (m_sent m).
Definition set_sent w (m : mount) : mount := Mount (m_dev m) (m_io m) (m_mem m) (m_trylock m) (s_blocksize_bits m)
  (s_dirt m) (read_only m) (sb_info m) (mount_options m) (exsb_dirty m) (exsb_dirty_snapshot m) (superblocks m) (superblocks_copy m) w.

Section super.
(** [crc32], the size of the device ([bd_inode->i_size]), and whether the
    kernel accepts a block size. *)
Context (crc32 : Z -> list Z -> Z) (device_bytes : Z) (sb_set_blocksize : Z -> bool).
Abbreviation F := (St mount).

(** ** The kernel *)
Definition alloc_page : F bool := fun m =>
  let '(b, o) := alloc (m_mem m) in (Ok b, set_oracles o (m_trylock m) m).
Definition trylock_page : F bool := fun m =>
  let '(b, o) := alloc (m_trylock m) in (Ok b, set_oracles (m_mem m) o m).

(** [get_dev_sectors_count], [get_dev_blocks_count] *)
Definition get_dev_sectors_count : Z := Z.shiftr device_bytes SECTOR_SIZE_SHIFT.
Definition get_dev_blocks_count (m : mount) : Z := Z.shiftr device_bytes (s_blocksize_bits m).

Definition read_page (p : page) (sector count offset : Z) : F (Z * page) := fun m =>
  let '(ret, p, i) := emmcfs_read_page get_dev_sectors_count (m_dev m) false p sector count offset (m_io m) in
  (Ok (ret, p), set_device (m_dev m) i m).
Definition write_page (p : page) (sector count offset : Z) : F Z := fun m =>
  let '(ret, d, i) := emmcfs_write_page get_dev_sectors_count (m_dev m) p sector count offset (m_io m) in
  let request := (sector * SECTOR_SIZE, take (Z.to_nat (SECTOR_SIZE * count)) (drop (Z.to_nat offset) p)) in
  (Ok ret, set_device d i (if ret =? 0 then set_sent (m_sent m ++ [request]) m else m)).

(** The first sectors of the four blocks. *)
Definition sb_sector : Z := RESERVED_SECTORS.
Definition exsb_sector : Z := RESERVED_SECTORS + SB_SIZE_IN_SECTOR.
Definition sb_copy_sector : Z := u64 (get_dev_sectors_count - RESERVED_SECTORS - SB_SIZE_IN_SECTOR - ESB_SIZE_IN_SECTOR).
Definition exsb_copy_sector : Z := u64 (get_dev_sectors_count - RESERVED_SECTORS - ESB_SIZE_IN_SECTOR).

(** ** Verification *)
Definition emmcfs_verify_sb (esb : list Z) : Z :=
  if negb (bool_decide (sb_signature esb = le_split 7 EMMCFS_SB_SIGNATURE)) then - EINVAL
  else if negb (Z.land (sb_version esb) 15 =? EMMCFS_SB_VER_MAJOR) ||
          negb (Z.shiftr (sb_version esb) 4 =? EMMCFS_SB_VER_MINOR) then - EINVAL
  else if negb (sb_checksum esb =? u32 (crc32 0 (take 508 esb))) then - EINVAL
  else 0.

Definition emmcfs_verify_exsb (exsb : list Z) : Z :=
  if negb (exsb_checksum exsb =? u32 (crc32 0 (take 2044 exsb))) then - EINVAL else 0.

(** ** The values of the super block *)

(** [1 << n] as an [int]; from 32 on the C standard leaves it undefined. *)
Definition shift_one (n : Z) : F Z := if n <? 32 then ret (s32 (Z.shiftl 1 n)) else bug.

Definition set_block_geometry bs shift sectors (g : geometry) : geometry :=
  Geometry bs shift (u32 (shift - SECTOR_SIZE_SHIFT)) (Z.shiftr 0xFFFFFFFF (32 - shift)) sectors (log_blocks_in_leb g)
    (btree_node_size_blks g) (total_leb_count g) (lebs_bm_log_blocks_block g) (lebs_bm_bits_in_last_block g)
    (lebs_bm_blocks_count g) (volume_uuid g).
Definition set_leb_geometry k blks total (g : geometry) : geometry :=
  Geometry (block_size g) (block_size_shift g) (log_sectors_per_block g) (offset_msk_inblock g) (sectors_per_volume g)
    k blks total (lebs_bm_log_blocks_block g) (lebs_bm_bits_in_last_block g) (lebs_bm_blocks_count g) (volume_uuid g).
Definition set_lebs_bitmap a b c uuid (g : geometry) : geometry :=
  Geometry (block_size g) (block_size_shift g) (log_sectors_per_block g) (offset_msk_inblock g) (sectors_per_volume g)
    (log_blocks_in_leb g) (btree_node_size_blks g) (total_leb_count g) a b c uuid.
Definition change_geometry (f : geometry -> geometry) : F unit :=
  modify (fun m => set_sb_info (f (sb_info m)) (mount_options m) m).

Definition fill_runtime_superblock (esb : list Z) : F Z :=
  do bs <- shift_one (sb_log_block_size esb);
  if negb (Z.land (u64 bs) (Z.lnot (512 + 1024 + 2048 + 4096)) =? 0) then ret (- EINVAL)
  else
    do_ (if sb_set_blocksize bs then modify (fun m => set_vfs (sb_log_block_size esb) (s_dirt m) (read_only m) m) else ret tt);
    do_ change_geometry (set_block_geometry bs (sb_log_block_size esb) (field 8 188 esb));
    do leb <- shift_one (sb_log_leb_size esb);
    let bytes_in_leb := u32 leb in
    if (bytes_in_leb =? 0) || (bytes_in_leb <? bs) then ret (- EINVAL)
    else
      let log_blocks_in_leb := u32 (sb_log_leb_size esb - sb_log_block_size esb) in
      do_ change_geometry (set_leb_geometry log_blocks_in_leb (Z.shiftl 1 log_blocks_in_leb) (sb_total_leb_count esb));
      let total_block_count := u64 (Z.shiftl (sb_total_leb_count esb) log_blocks_in_leb) in
      do dev_blocks_count <- gets get_dev_blocks_count;
      if (total_block_count >? dev_blocks_count) || (total_block_count =? 0) then ret (- EINVAL)
      else
        do_ change_geometry (set_lebs_bitmap (field 4 72 esb) (field 4 80 esb) (field 4 76 esb)
              (Z.lxor (field 8 38 esb) (field 8 46 esb)));
        do_ (if field 1 196 esb =? 0 then ret tt
             else modify (fun m => set_sb_info (sb_info m) (set_option MOUNT_CASE_INSENSITIVE (mount_options m)) m));
        ret 0.

(** ** Reading *)

(** [emmcfs_volume_check]: the sectors from 0 on, and twice the same block. *)
Definition emmcfs_volume_check : F Z :=
  do ok <- alloc_page;
  if negb ok then ret (- ENOMEM)
  else
    do '(error, p) <- read_page zero_page 0 2 0;
    if negb (error =? 0) then ret error
    else
      let error := emmcfs_verify_sb (sb_of p) in
      if negb (error =? 0) then ret error else ret (emmcfs_verify_sb (sb_of p)).

(** [emmcfs_sb_read]; a page that could not be allocated is a null pointer, not
    an error pointer, and is locked. *)
Definition emmcfs_sb_read : F Z :=
  do ok <- alloc_page;
  do ok_copy <- alloc_page;
  do_ BUG_ON (negb ok);
  do '(error, p) <- read_page zero_page sb_sector (ESB_SIZE_IN_SECTOR + SB_SIZE_IN_SECTOR) 0;
  if negb (error =? 0) then ret error
  else
    do_ BUG_ON (negb ok_copy);
    do '(error, q) <- read_page zero_page sb_copy_sector (ESB_SIZE_IN_SECTOR + SB_SIZE_IN_SECTOR) 0;
    if negb (error =? 0) then ret error
    else
      let check_sb := emmcfs_verify_sb (sb_of p) in
      let check_sb_copy := emmcfs_verify_sb (sb_of q) in
      if negb (check_sb =? 0) && negb (check_sb_copy =? 0) then ret check_sb
      else
        do '(error, p, q) <-
          (if (check_sb =? 0) && negb (check_sb_copy =? 0) then
             let q := copy_sb p q in
             do error <- write_page q sb_copy_sector SB_SIZE_IN_SECTOR 0; ret (error, p, q)
           else if negb (check_sb =? 0) && (check_sb_copy =? 0) then
             let p := copy_sb q p in
             do error <- write_page p sb_sector SB_SIZE_IN_SECTOR 0; ret (error, p, q)
           else ret (0, p, q));
        if negb (error =? 0) then ret error
        else
          do error <- fill_runtime_superblock (sb_of p);
          if negb (error =? 0) then ret error
          else do_ modify (set_pages p q); ret 0.

(** [emmcfs_restore_exsb]: with the magic number of the journal in place the
    page is that of the copy. *)
Definition emmcfs_restore_exsb : F Z :=
  do ok <- alloc_page;
  if negb ok then ret (- ENOMEM)
  else
    do p <- gets superblocks;
    do q <- gets superblocks_copy;
    do m <- gets id;
    let sector := u64 (Z.shiftl (first_block (snapshot_extent (exsb_of p))) (PAGE_CACHE_SHIFT - SECTOR_SIZE_SHIFT)) in
    match emmcfs_read_pages get_dev_sectors_count (m_dev m) [zero_page] sector (m_io m) with
    | None => bug
    | Some (error, pages, i) =>
      do_ modify (set_device (m_dev m) i);
      if negb (error =? 0) then ret error
      else if negb (bool_decide (take 4 (concat pages) = le_split 4 EMMCFS_SNAPSHOT_MAGIC)) then ret 0
      else do_ modify (set_pages q q); ret 0
    end.

(** [emmcfs_extended_sb_read] *)
Definition emmcfs_extended_sb_read : F Z :=
  do p <- gets superblocks;
  do q <- gets superblocks_copy;
  let check_exsb := emmcfs_verify_exsb (exsb_of p) in
  let check_exsb_copy := emmcfs_verify_exsb (exsb_of q) in
  if negb (check_exsb =? 0) && negb (check_exsb_copy =? 0) then ret check_exsb
  else
    do error <-
      (if (check_exsb =? 0) && negb (check_exsb_copy =? 0) then
         do_ modify (set_pages p (copy_exsb p q));
         write_page p exsb_copy_sector ESB_SIZE_IN_SECTOR (SB_SIZE_IN_SECTOR * SECTOR_SIZE)
       else if negb (check_exsb =? 0) && (check_exsb_copy =? 0) then
         do_ modify (set_pages (copy_exsb q p) q);
         write_page q exsb_sector ESB_SIZE_IN_SECTOR (SB_SIZE_IN_SECTOR * SECTOR_SIZE)
       else ret 0);
    if negb (error =? 0) then ret error
    else
      do options <- gets mount_options;
      if test_option MOUNT_SNAPSHOT options then emmcfs_restore_exsb else ret 0.

(** ** Writing *)

(** The inodes of the catalog tree, the extents tree, the bitmap of the inode
    numbers and the hard links. *)
Record special_inodes := SpecialInodes {
  catalog_inode : inode;
  extents_inode : inode;
  inode_bitmap_inode : inode;
  hlinks_inode : inode
}.

(** The bytes [b] stored at [off] of the extended super block in its page. *)
Definition store (off : nat) (b : list Z) (p : page) : page := write_at (512 + off) b p.

Definition update_super_forks (is_ : special_inodes) : F unit :=
  modify (fun m =>
    let fork i := encode_fork (emmcfs_form_fork (block_size_shift (sb_info m)) i) in
    let p := store 242 (fork (catalog_inode is_)) (superblocks m) in
    let p := store 363 (fork (extents_inode is_)) p in
    let p := store 512 (fork (inode_bitmap_inode is_)) p in
    let p := store 633 (fork (hlinks_inode is_)) p in
    set_pages (store 2044 (le_split 4 (u32 (crc32 0 (take 2044 (exsb_of p))))) p) (superblocks_copy m) m).

Definition sync_to (is_ : special_inodes) (sector : Z) : F Z :=
  do_ update_super_forks is_;
  do locked <- trylock_page;
  if locked then
    do p <- gets superblocks; write_page p sector ESB_SIZE_IN_SECTOR (SB_SIZE_IN_SECTOR * SECTOR_SIZE)
  else ret 0.
Definition emmcfs_sync_first_super (is_ : special_inodes) : F Z := sync_to is_ exsb_sector.
Definition emmcfs_sync_second_super (is_ : special_inodes) : F Z := sync_to is_ exsb_copy_sector.

Definition emmcfs_sync_super (is_ : special_inodes) : F Z :=
  do options <- gets mount_options;
  do error <-
    (if test_option MOUNT_SNAPSHOT options then ret 0
     else
       do error <- emmcfs_sync_first_super is_;
       if negb (error =? 0) then ret error
       else
         do error <- emmcfs_sync_second_super is_;
         if negb (error =? 0) then ret error
         else do_ modify (fun m => set_dirty_flags false (exsb_dirty_snapshot m) m); ret 0);
  if negb (error =? 0) then ret error
  else do_ modify (fun m => set_vfs (s_blocksize_bits m) false (read_only m) m); ret 0.

Definition emmcfs_sync_fs (is_ : special_inodes) : F Z := do_ emmcfs_sync_super is_; ret 0.

Definition emmcfs_write_super (is_ : special_inodes) : F unit :=
  do ro <- gets read_only;
  if ro then modify (fun m => set_vfs (s_blocksize_bits m) false ro m)
  else do_ emmcfs_sync_fs is_; ret tt.

(** ** Statistics *)

(** [calc_special_files_size]: the blocks of the special files, and what of the
    volume does not belong to its body; [total_blocks_count] of the six forks
    and the length of the body. *)
Definition fork_total (off : nat) (exsb : list Z) : Z := field 4 (off + 9) exsb.
Definition calc_special_files_size (m : mount) : Z :=
  let exsb := exsb_of (superblocks m) in
  u64 (fork_total 242 exsb + fork_total 363 exsb + fork_total 633 exsb + fork_total 512 exsb + fork_total 0 exsb +
       fork_total 121 exsb + (Z.shiftl (total_leb_count (sb_info m)) (log_blocks_in_leb (sb_info m)) - field 4 508 exsb)).

Record kstatfs := Kstatfs {
  f_type : Z; f_bsize : Z; f_blocks : Z; f_bavail : Z; f_bfree : Z; f_files : Z; f_fsid : Z * Z; f_namelen : Z
}.

(** [emmcfs_statfs] with the three counters of [emmcfs_sb_info]. *)
Definition emmcfs_statfs (free_blocks_count files_count folders_count : Z) (m : mount) : kstatfs :=
  Kstatfs EMMCFS_SB_SIGNATURE (block_size (sb_info m))
    (u64 (Z.shiftl (total_leb_count (sb_info m)) (log_blocks_in_leb (sb_info m))))
    free_blocks_count free_blocks_count (u64 (files_count + folders_count))
    (Z.land (volume_uuid (sb_info m)) 0xFFFFFFFF, Z.land (Z.shiftr (volume_uuid (sb_info m)) 32) 0xFFFFFFFF)
    EMMCFS_FILE_NAME_LEN.
End super.
