(* ===== verification/SuperProofs.v ===== *)
(** * The super blocks: lemmas

    What the verification reads, what the repair writes, and that the pages in
    memory mirror the blocks on the device. *)

From S2P Require Import Prelude Monad Data Snapshot BnodeRepr Fork ForkProofs Cattree CattreeTheorems Vfs VfsProofs Super.
Open Scope Z_scope.

(** ** Bytes of pages *)
Abbreviation blen l := (Z.of_nat (length l)).

Lemma write_at_length off b (p : page) : (off + length b <= length p)%nat -> length (write_at off b p) = length p.
Proof. intros H. unfold write_at. rewrite !length_app, length_take, length_drop. lia. Qed.

Lemma take_write_at_before n off b (p : page) : (n <= off)%nat -> (off <= length p)%nat -> take n (write_at off b p) = take n p.
Proof.
  intros H1 H2. unfold write_at. rewrite take_app_le by (rewrite length_take; lia). rewrite take_take. f_equal. lia.
Qed.

Lemma drop_write_at_after n off b (p : page) : (off + length b <= n)%nat -> (off + length b <= length p)%nat ->
  drop n (write_at off b p) = drop n p.
Proof.
  intros H1 H2. unfold write_at. rewrite app_assoc.
  rewrite drop_app_ge by (rewrite length_app, length_take; lia). rewrite drop_drop. f_equal.
  rewrite length_app, length_take. lia.
Qed.

Lemma drop_write_at_mid off b (p : page) : (off <= length p)%nat ->
  drop off (write_at off b p) = b ++ drop (off + length b) p.
Proof. intros H. unfold write_at. apply drop_app_length'. rewrite length_take. lia. Qed.

Lemma slice_write_at off b (p : page) : (off <= length p)%nat -> take (length b) (drop off (write_at off b p)) = b.
Proof. intros H. rewrite drop_write_at_mid by done. by rewrite take_app_length. Qed.

Lemma slice_write_at_before k n off b (p : page) : (k + n <= off)%nat -> (off <= length p)%nat ->
  take n (drop k (write_at off b p)) = take n (drop k p).
Proof.
  intros H1 H2. rewrite !take_drop_commute. by rewrite take_write_at_before by lia.
Qed.

Lemma slice_write_at_after k n off b (p : page) : (off + length b <= k)%nat -> (off + length b <= length p)%nat ->
  take n (drop k (write_at off b p)) = take n (drop k p).
Proof. intros H1 H2. by rewrite drop_write_at_after. Qed.

Lemma length_exsb_of p : blen p = 4096 -> blen (exsb_of p) = 2048.
Proof. intros H. unfold exsb_of. rewrite length_take, length_drop. lia. Qed.

(** ** The blocks on the device *)
Definition sb_at (d : device) (sector : Z) : list Z := dread d (sector * SECTOR_SIZE) 512.
Definition exsb_at (d : device) (sector : Z) : list Z := dread d (sector * SECTOR_SIZE) 2048.

(** What a read of both blocks leaves in a fresh page. *)
Definition page_at (d : device) (sector : Z) : page := dread d (sector * SECTOR_SIZE) 3072 ++ replicate 1024 0.

Lemma length_page_at d sector : blen (page_at d sector) = 4096.
Proof.
  unfold page_at. rewrite length_app, length_replicate. pose proof (length_dread d (sector * SECTOR_SIZE) 3072). lia.
Qed.

Lemma page_at_split d sector : page_at d sector =
  sb_at d sector ++ exsb_at d (sector + 1) ++ dread d ((sector + 5) * SECTOR_SIZE) 512 ++ replicate 1024 0.
Proof.
  unfold page_at, sb_at, exsb_at. change 3072 with (512 + (2048 + 512)). rewrite !dread_app by lia.
  unfold SECTOR_SIZE. rewrite <- !app_assoc. repeat f_equal; lia.
Qed.

Lemma length_sb_at d sector : blen (sb_at d sector) = 512.
Proof. pose proof (length_dread d (sector * SECTOR_SIZE) 512). unfold sb_at. lia. Qed.
Lemma length_exsb_at d sector : blen (exsb_at d sector) = 2048.
Proof. pose proof (length_dread d (sector * SECTOR_SIZE) 2048). unfold exsb_at. lia. Qed.

Lemma sb_of_page_at d sector : sb_of (page_at d sector) = sb_at d sector.
Proof. rewrite page_at_split. unfold sb_of. apply take_app_length'. pose proof (length_sb_at d sector). lia. Qed.

Lemma exsb_of_page_at d sector : exsb_of (page_at d sector) = exsb_at d (sector + 1).
Proof.
  rewrite page_at_split. unfold exsb_of. pose proof (length_sb_at d sector). pose proof (length_exsb_at d (sector + 1)).
  rewrite drop_app_length' by lia. apply take_app_length'. lia.
Qed.

Lemma sb_of_copy p q : blen p = 4096 -> sb_of (copy_sb p q) = sb_of p.
Proof. intros H. unfold sb_of, copy_sb. apply take_app_length'. rewrite length_take. lia. Qed.

Lemma exsb_of_copy_sb p q : blen p = 4096 -> exsb_of (copy_sb p q) = exsb_of q.
Proof. intros H. unfold exsb_of, copy_sb. by rewrite drop_app_length' by (rewrite length_take; lia). Qed.

Lemma length_copy_sb p q : blen p = 4096 -> blen q = 4096 -> blen (copy_sb p q) = 4096.
Proof. intros Hp Hq. unfold copy_sb. rewrite length_app, length_take, length_drop. lia. Qed.

Lemma sb_of_copy_exsb p q : blen q = 4096 -> sb_of (copy_exsb p q) = sb_of q.
Proof. intros H. unfold sb_of, copy_exsb. apply take_write_at_before; lia. Qed.

Lemma exsb_of_copy p q : blen p = 4096 -> blen q = 4096 -> exsb_of (copy_exsb p q) = exsb_of p.
Proof.
  intros Hp Hq. unfold copy_exsb. unfold exsb_of at 1. replace 2048%nat with (length (exsb_of p)); [apply slice_write_at; lia|].
  pose proof (length_exsb_of p Hp). lia.
Qed.

Lemma length_copy_exsb p q : blen p = 4096 -> blen q = 4096 -> blen (copy_exsb p q) = 4096.
Proof. intros Hp Hq. unfold copy_exsb. pose proof (length_exsb_of p Hp). rewrite write_at_length; lia. Qed.

(** The fields of a block of bytes. *)
Definition bytes (l : list Z) : Prop := Forall (fun b => 0 <= b < 256) l.

Lemma le_combine_bound l : bytes l -> 0 <= le_combine l < 256 ^ Z.of_nat (length l).
Proof.
  induction 1 as [|b l Hb _ IH]; [done|]. cbn [le_combine length].
  rewrite Nat2Z.inj_succ, Z.pow_succ_r by lia. lia.
Qed.

Lemma field_bound n k l : bytes l -> 0 <= field n k l < 256 ^ Z.of_nat n.
Proof.
  intros H. unfold field. pose proof (le_combine_bound (take n (drop k l))) as W.
  assert (bytes (take n (drop k l))) as Hb by (by apply Forall_take, Forall_drop). specialize (W Hb).
  rewrite length_take in W. assert (256 ^ Z.of_nat (n `min` length (drop k l)) <= 256 ^ Z.of_nat n)
    by (apply Z.pow_le_mono_r; lia). lia.
Qed.

Lemma bytes_dread d a n : (forall x, 0 <= d x < 256) -> bytes (dread d a n).
Proof. intros H. apply Forall_map, Forall_forall. intros x _. apply H. Qed.

Lemma sb_at_ext d d' sector : (forall x, in_range (sector * 512) 512 x -> d x = d' x) -> sb_at d sector = sb_at d' sector.
Proof. apply dread_ext. Qed.
Lemma exsb_at_ext d d' sector : (forall x, in_range (sector * 512) 2048 x -> d x = d' x) -> exsb_at d sector = exsb_at d' sector.
Proof. apply dread_ext. Qed.

Lemma bytes_sb_at d sector : (forall x, 0 <= d x < 256) -> bytes (sb_at d sector).
Proof. apply bytes_dread. Qed.

(** The state in which nothing will be refused. *)
Record quiet (m : mount) : Prop := { q_io : m_io m = []; q_mem : plenty (m_mem m); q_lock : plenty (m_trylock m) }.

Section super.
Context (crc32 : Z -> list Z -> Z) (s_count : Z) (sb_set_blocksize : Z -> bool).
(** The device has room for the four blocks and the reserved areas, and its
    size in bytes is a number of the kernel. *)
Context (Hs : 16 <= s_count < 2 ^ 54).
Abbreviation device_bytes := (s_count * 512).
Abbreviation get_sectors := (get_dev_sectors_count device_bytes).
Implicit Types (m : mount) (d : device).

Lemma get_dev_sectors_count_eq : get_sectors = s_count.
Proof using.
  unfold get_dev_sectors_count, SECTOR_SIZE_SHIFT. rewrite Z.shiftr_div_pow2 by lia.
  change (2 ^ 9) with 512. by apply Z.div_mul.
Qed.

Lemma sb_copy_sector_eq : sb_copy_sector device_bytes = s_count - 8.
Proof using Hs.
  unfold sb_copy_sector. rewrite get_dev_sectors_count_eq. change RESERVED_SECTORS with 2.
  change SB_SIZE_IN_SECTOR with 1. unfold ESB_SIZE_IN_SECTOR. rewrite uwrap_small; lia.
Qed.

Lemma exsb_copy_sector_eq : exsb_copy_sector device_bytes = s_count - 7.
Proof using Hs.
  unfold exsb_copy_sector. rewrite get_dev_sectors_count_eq. change RESERVED_SECTORS with 2.
  unfold ESB_SIZE_IN_SECTOR. rewrite uwrap_small; lia.
Qed.

Lemma wp_alloc_page {B} (f : bool -> St mount B) m Q : plenty (m_mem m) ->
  (forall o, plenty o -> wp (f true) (set_oracles o (m_trylock m) m) Q) -> wp (bind alloc_page f) m Q.
Proof using.
  intros Hm H. destruct (plenty_alloc _ Hm) as (o & E & Ho). specialize (H o Ho).
  unfold wp, bind, alloc_page in *. by rewrite E.
Qed.

Lemma wp_trylock {B} (f : bool -> St mount B) m Q : plenty (m_trylock m) ->
  (forall o, plenty o -> wp (f true) (set_oracles (m_mem m) o m) Q) -> wp (bind trylock_page f) m Q.
Proof using.
  intros Hm H. destruct (plenty_alloc _ Hm) as (o & E & Ho). specialize (H o Ho).
  unfold wp, bind, trylock_page in *. by rewrite E.
Qed.

Lemma allocate_one sector io : 0 <= sector -> sector + 1 <= s_count -> io = [] ->
  allocate_new_bio s_count sector 1 1 io = (inr 1%nat, []).
Proof using.
  intros H1 H2 ->. unfold allocate_new_bio. rewrite !Z.gtb_ltb, !(proj2 (Z.ltb_ge _ _)) by lia. done.
Qed.

Lemma wp_read_page {B} (f : Z * page -> St mount B) sector m Q : m_io m = [] -> 0 <= sector -> sector + 6 <= s_count ->
  wp (f (0, page_at (m_dev m) sector)) m Q -> wp (bind (read_page device_bytes zero_page sector 6 0) f) m Q.
Proof using.
  intros Hio H1 H2 H. unfold wp, bind, read_page in *. rewrite get_dev_sectors_count_eq.
  unfold emmcfs_read_page. cbn [Z.gtb Z.compare]. rewrite allocate_one by (done || lia).
  change (6 >? SECTOR_PER_PAGE + 1) with false. cbv iota zeta.
  change (take (Z.to_nat 0) zero_page) with (@nil Z). change (SECTOR_SIZE * 6) with 3072.
  change (drop (Z.to_nat (0 + 3072)) zero_page) with (replicate 1024 0). cbn [app].
  replace (set_device (m_dev m) [] m) with m by (destruct m; simpl in *; by subst).
  exact H.
Qed.

(** The bytes that [write_page] sends. *)
Definition sent (p : page) (count offset : Z) : list Z := take (Z.to_nat (SECTOR_SIZE * count)) (drop (Z.to_nat offset) p).

Lemma wp_write_page sector count offset p m Q : m_io m = [] -> 0 <= sector -> sector + 1 <= s_count -> count <= 8 ->
  Q (Ok 0) (set_device (dwrite (m_dev m) (sector * SECTOR_SIZE) (sent p count offset)) []
    (set_sent (m_sent m ++ [(sector * SECTOR_SIZE, sent p count offset)]) m)) ->
  wp (write_page device_bytes p sector count offset) m Q.
Proof using.
  intros Hio H1 H2 Hc H. unfold wp, write_page. rewrite get_dev_sectors_count_eq.
  unfold emmcfs_write_page. change SECTOR_PER_PAGE with 8. rewrite Z.gtb_ltb, (proj2 (Z.ltb_ge _ _)) by lia.
  by rewrite allocate_one by (done || lia).
Qed.

Lemma sent_sb p : sent p 1 0 = sb_of p.
Proof using. done. Qed.

Lemma sent_exsb p : sent p 5 512 = exsb_of p ++ take 512 (drop 2560 p).
Proof using.
  unfold sent, exsb_of, SECTOR_SIZE. change (Z.to_nat (512 * 5)) with (2048 + 512)%nat. change (Z.to_nat 512) with 512%nat.
  rewrite <- (take_drop 2048 (take (2048 + 512) (drop 512 p))) at 1. rewrite take_take. f_equal.
  rewrite skipn_firstn_comm. f_equal. by rewrite drop_drop.
Qed.

(** *** The four blocks and what a write to one of them leaves alone *)
Lemma sb_at_dwrite d sector l : blen l = 512 -> sb_at (dwrite d (sector * SECTOR_SIZE) l) sector = l.
Proof using. intros H. unfold sb_at. rewrite <- H. apply dread_dwrite. Qed.

Lemma exsb_at_dwrite d sector l rest : blen l = 2048 ->
  exsb_at (dwrite d (sector * SECTOR_SIZE) (l ++ rest)) sector = l.
Proof using.
  intros H. unfold exsb_at.
  pose proof (dread_dwrite d (sector * SECTOR_SIZE) (l ++ rest)) as E.
  rewrite length_app, Nat2Z.inj_add, dread_app in E by lia. rewrite H in E.
  apply (f_equal (take 2048)) in E. rewrite !take_app_length' in E; [exact E|lia|].
  pose proof (length_dread (dwrite d (sector * SECTOR_SIZE) (l ++ rest)) (sector * SECTOR_SIZE) 2048). lia.
Qed.

Lemma dread_apart d sector (l : list Z) a n : (a + n <= sector * SECTOR_SIZE \/ sector * SECTOR_SIZE + Z.of_nat (length l) <= a) ->
  dread (dwrite d (sector * SECTOR_SIZE) l) a n = dread d a n.
Proof using. intros H. apply dread_dwrite_out. unfold in_range. intros x. lia. Qed.

Lemma sb_at_apart d sector (l : list Z) a : blen l = 512 -> a + 1 <= sector \/ sector + 1 <= a ->
  sb_at (dwrite d (sector * SECTOR_SIZE) l) a = sb_at d a.
Proof using. intros Hl H. apply dread_apart. unfold SECTOR_SIZE. lia. Qed.

Lemma exsb_at_apart d sector (l : list Z) a : blen l = 512 -> a + 4 <= sector \/ sector + 1 <= a ->
  exsb_at (dwrite d (sector * SECTOR_SIZE) l) a = exsb_at d a.
Proof using. intros Hl H. apply dread_apart. unfold SECTOR_SIZE. lia. Qed.

Lemma sb_at_apart_exsb d sector (l : list Z) a : blen l = 2560 -> a + 1 <= sector \/ sector + 5 <= a ->
  sb_at (dwrite d (sector * SECTOR_SIZE) l) a = sb_at d a.
Proof using. intros Hl H. apply dread_apart. unfold SECTOR_SIZE. lia. Qed.

Lemma exsb_at_apart_exsb d sector (l : list Z) a : blen l = 2560 -> a + 4 <= sector \/ sector + 5 <= a ->
  exsb_at (dwrite d (sector * SECTOR_SIZE) l) a = exsb_at d a.
Proof using. intros Hl H. apply dread_apart. unfold SECTOR_SIZE. lia. Qed.

Lemma length_sent_exsb (p : page) : blen p = 4096 -> blen (exsb_of p ++ take 512 (drop 2560 p)) = 2560.
Proof using. intros H. pose proof (length_exsb_of p H). rewrite length_app, length_take, length_drop. lia. Qed.
End super.
