(* ===== verification/SuperTheorems.v ===== *)
(** * The super blocks: theorems

    Which super blocks a mount accepts and the values it takes from them; the
    repair of a damaged block from its copy; an interrupted write of the
    extended super block; and the first mount after a crash with the journal. *)

From S2P Require Import Prelude Monad Data Snapshot BnodeRepr Fork ForkProofs Cattree CattreeTheorems Vfs VfsProofs Super SuperProofs.
Open Scope Z_scope.

#[local] Opaque page_at sb_at exsb_at copy_sb copy_exsb.

(** ** The values of the super block *)

(** A check of all the exponents that a 32-bit shift allows. *)
Lemma below_32 (P : Z -> bool) n : forallb P (seqZ 0 32) = true -> 0 <= n < 32 -> P n = true.
Proof. intros H Hn. rewrite forallb_forall in H. apply H, list_elem_of_In, elem_of_seqZ. lia. Qed.

Lemma block_size_mask n : 0 <= n < 32 ->
  (Z.land (u64 (s32 (Z.shiftl 1 n))) (Z.lnot (512 + 1024 + 2048 + 4096)) =? 0) = (9 <=? n) && (n <=? 12).
Proof. intros Hn. apply eqb_prop. revert n Hn. refine (fun n => below_32 (fun n => eqb _ _) n _). by vm_compute. Qed.

Lemma shift_one_u32 n : 0 <= n < 32 -> u32 (s32 (Z.shiftl 1 n)) = 2 ^ n.
Proof. intros Hn. apply Z.eqb_eq. revert n Hn. refine (fun n => below_32 (fun n => _ =? _) n _). by vm_compute. Qed.

Lemma shift_one_s32 n : 0 <= n < 31 -> s32 (Z.shiftl 1 n) = 2 ^ n.
Proof.
  intros Hn. apply Z.eqb_eq. assert (((31 <=? n) || (s32 (Z.shiftl 1 n) =? 2 ^ n)) = true) as H.
  { refine (below_32 (fun n => (31 <=? n) || (s32 (Z.shiftl 1 n) =? 2 ^ n)) n _ _); [by vm_compute|lia]. }
  destruct (Z.leb_spec 31 n); [lia|done].
Qed.

Lemma low_mask n : 9 <= n <= 12 -> Z.shiftr 0xFFFFFFFF (32 - n) = 2 ^ n - 1.
Proof.
  intros Hn. apply Z.eqb_eq. assert ((negb ((9 <=? n) && (n <=? 12)) || (Z.shiftr 0xFFFFFFFF (32 - n) =? 2 ^ n - 1)) = true) as H.
  { refine (below_32 (fun n => negb ((9 <=? n) && (n <=? 12)) || (Z.shiftr 0xFFFFFFFF (32 - n) =? 2 ^ n - 1)) n _ _); [by vm_compute|lia]. }
  destruct (Z.leb_spec 9 n), (Z.leb_spec n 12); lia.
Qed.

Section super.
Context (crc32 : Z -> list Z -> Z) (s_count : Z) (sb_set_blocksize : Z -> bool).
Context (Hs : 16 <= s_count < 2 ^ 54).
Abbreviation device_bytes := (s_count * 512).
Abbreviation fill := (fill_runtime_superblock device_bytes sb_set_blocksize).
Implicit Types (m : mount) (d : device) (esb : list Z).

(** The blocks of the volume, as the 64-bit product of the source. *)
Definition volume_blocks esb : Z :=
  u64 (sb_total_leb_count esb * 2 ^ (sb_log_leb_size esb - sb_log_block_size esb)).
(** What a mount makes of a super block; the VFS has [bits] for the size of its
    blocks, from before when the kernel refuses the size of the super block. *)
Definition judged_on (bits : Z) esb : outcome Z :=
  let lb := sb_log_block_size esb in
  let ll := sb_log_leb_size esb in
  if 32 <=? lb then Bug
  else if (lb <? 9) || (12 <? lb) then Ok (- EINVAL)
  else if 32 <=? ll then Bug
  else if ll <? lb then Ok (- EINVAL)
  else if (device_bytes / 2 ^ bits <? volume_blocks esb) || (volume_blocks esb =? 0) then Ok (- EINVAL)
  else Ok 0.

Definition bits_after esb m : Z :=
  if sb_set_blocksize (2 ^ sb_log_block_size esb) then sb_log_block_size esb else s_blocksize_bits m.
Definition judged esb : outcome Z := judged_on (sb_log_block_size esb) esb.

Definition geometry_of esb : geometry :=
  let lb := sb_log_block_size esb in
  let k := sb_log_leb_size esb - lb in
  Geometry (2 ^ lb) lb (lb - 9) (2 ^ lb - 1) (field 8 188 esb) k (2 ^ k) (sb_total_leb_count esb)
    (field 4 72 esb) (field 4 80 esb) (field 4 76 esb) (Z.lxor (field 8 38 esb) (field 8 46 esb)).

(** The numbers of an accepted super block agree with each other. *)
Lemma judged_geometry bits esb : bytes esb -> judged_on bits esb = Ok 0 ->
  let g := geometry_of esb in
  block_size g = 2 ^ block_size_shift g /\ 512 <= block_size g <= 4096 /\
  offset_msk_inblock g = block_size g - 1 /\ block_size g = 512 * 2 ^ log_sectors_per_block g /\
  btree_node_size_blks g = 2 ^ log_blocks_in_leb g /\ 0 < total_leb_count g /\
  (bits = sb_log_block_size esb -> total_leb_count g * btree_node_size_blks g < 2 ^ 64 ->
    total_leb_count g * btree_node_size_blks g * block_size g <= device_bytes).
Proof using Hs.
  intros Hb. unfold judged_on. pose proof (field_bound 8 10 esb Hb) as Htot. fold (sb_total_leb_count esb) in Htot.
  cbn [geometry_of block_size block_size_shift offset_msk_inblock log_sectors_per_block btree_node_size_blks log_blocks_in_leb total_leb_count].
  unfold volume_blocks. set (lb := sb_log_block_size esb). set (ll := sb_log_leb_size esb).
  set (n := sb_total_leb_count esb) in *.
  destruct (Z.leb_spec 32 lb) as [|H1]; [done|]. destruct (Z.ltb_spec lb 9) as [|H2]; [done|].
  destruct (Z.ltb_spec 12 lb) as [|H3]; [done|]. cbn [orb]. destruct (Z.leb_spec 32 ll) as [|H4]; [done|].
  destruct (Z.ltb_spec ll lb) as [|H5]; [done|]. destruct (_ || _) eqn:Hbad; [done|]. intros _.
  apply orb_false_iff in Hbad as [Hbig Hzero]. apply Z.ltb_ge in Hbig. apply Z.eqb_neq in Hzero.
  assert (2 ^ 9 <= 2 ^ lb <= 2 ^ 12) as Hlb by (split; apply Z.pow_le_mono_r; lia).
  assert (0 < 2 ^ (ll - lb)) as Hk by (apply Z.pow_pos_nonneg; lia).
  assert (2 ^ lb = 512 * 2 ^ (lb - 9)) as Hsec by (change 512 with (2 ^ 9); rewrite <- Z.pow_add_r by lia; f_equal; lia).
  assert (0 < n) as Hn.
  { destruct (Z.eq_dec n 0) as [E|E]; [|lia]. rewrite E in Hzero. by destruct Hzero. }
  split_and!; try done; try lia. intros -> Hfit. fold lb in Hbig. rewrite uwrap_small in Hbig by nia.
  pose proof (Z.mul_div_le device_bytes (2 ^ lb) ltac:(lia)). nia.
Qed.

Definition options_of esb (options : Z) : Z :=
  if field 1 196 esb =? 0 then options else set_option MOUNT_CASE_INSENSITIVE options.

(** The part of the state that the values go to. *)
Definition with_values g o bits m : mount := set_sb_info g o (set_vfs bits (s_dirt m) (read_only m) m).

Lemma values_stored bs shift sectors k blks total a b c uuid o bits m :
  set_sb_info (set_lebs_bitmap a b c uuid (set_leb_geometry k blks total (set_block_geometry bs shift sectors (sb_info m))))
    o (set_sb_info (set_leb_geometry k blks total (set_block_geometry bs shift sectors (sb_info m))) (mount_options m)
      (set_sb_info (set_block_geometry bs shift sectors (sb_info m)) (mount_options m) (set_vfs bits (s_dirt m) (read_only m) m))) =
  with_values (Geometry bs shift (u32 (shift - 9)) (Z.shiftr 0xFFFFFFFF (32 - shift)) sectors k blks total a b c uuid) o bits m.
Proof using. by destruct m. Qed.

Lemma wp_shift_one {B} n (f : Z -> St mount B) m (Q : outcome B -> mount -> Prop) :
  (32 <= n -> Q Bug m) -> (n < 32 -> wp (f (s32 (Z.shiftl 1 n))) m Q) -> wp (bind (shift_one n) f) m Q.
Proof using. intros H1 H2. unfold shift_one. destruct (Z.ltb_spec n 32); [by apply wp_bind, wp_ret, H2|by apply H1]. Qed.

Lemma wp_fill_any esb m : bytes esb -> 0 <= bits_after esb m ->
  wp (fill esb) m (fun r m' => r = judged_on (bits_after esb m) esb /\ (exists g o bits, m' = with_values g o bits m) /\
    (r = Ok 0 -> m' = with_values (geometry_of esb) (options_of esb (mount_options m)) (bits_after esb m) m)).
Proof using Hs.
  intros Hb Hbits. unfold fill_runtime_superblock, judged_on, bits_after in *.
  pose proof (field_bound 1 8 esb Hb) as Hlb. pose proof (field_bound 1 9 esb Hb) as Hll. pose proof (field_bound 8 10 esb Hb) as Htot.
  fold (sb_log_block_size esb) in Hlb. fold (sb_log_leb_size esb) in Hll. fold (sb_total_leb_count esb) in Htot.
  change (256 ^ Z.of_nat 1) with 256 in *. change (256 ^ Z.of_nat 8) with (2 ^ 64) in Htot.
  set (lb := sb_log_block_size esb) in *. set (ll := sb_log_leb_size esb) in *.
  set (bits := if sb_set_blocksize (2 ^ lb) then lb else s_blocksize_bits m) in *.
  assert (exists g o bits, m = with_values g o bits m) as Hself
    by (exists (sb_info m), (mount_options m), (s_blocksize_bits m); by destruct m).
  apply wp_shift_one; intros H32.
  { rewrite (proj2 (Z.leb_le 32 lb)) by done. done. }
  rewrite (proj2 (Z.leb_gt 32 lb)), block_size_mask by lia.
  destruct (Z.leb_spec 9 lb) as [H9|H9]; cbn [andb negb].
  2: { rewrite (proj2 (Z.ltb_lt lb 9)) by done. by apply wp_ret. }
  rewrite (proj2 (Z.ltb_ge lb 9)) by done.
  destruct (Z.leb_spec lb 12) as [H12|H12]; cbn [negb orb].
  2: { rewrite (proj2 (Z.ltb_lt 12 lb)) by done. by apply wp_ret. }
  rewrite (proj2 (Z.ltb_ge 12 lb)), shift_one_s32 by lia.
  apply (wp_seq _ _ _ (fun _ m' => m' = set_vfs bits (s_dirt m) (read_only m) m)).
  { unfold bits. destruct (sb_set_blocksize (2 ^ lb)); [done|]. by destruct m. }
  intros _ m0 ->. unfold change_geometry. apply wp_modify. apply wp_shift_one; intros Hll32.
  { rewrite (proj2 (Z.leb_le 32 ll)) by done. split; [done|]. split; [|done]. by do 3 eexists. }
  rewrite (proj2 (Z.leb_gt 32 ll)), shift_one_u32 by lia.
  assert (0 < 2 ^ ll) as Hpos by (apply Z.pow_pos_nonneg; lia).
  rewrite (proj2 (Z.eqb_neq (2 ^ ll) 0)) by lia. cbn [orb].
  destruct (Z.ltb_spec ll lb) as [Hle|Hle].
  { rewrite (proj2 (Z.ltb_lt (2 ^ ll) (2 ^ lb))) by (apply Z.pow_lt_mono_r; lia).
    apply wp_ret. split; [done|]. split; [|done]. by do 3 eexists. }
  rewrite (proj2 (Z.ltb_ge (2 ^ ll) (2 ^ lb))) by (apply Z.pow_le_mono_r; lia).
  apply wp_modify. rewrite (uwrap_small 32 (ll - lb)) by lia. rewrite !Z.shiftl_mul_pow2 by lia. fold (volume_blocks esb).
  apply wp_gets. unfold get_dev_blocks_count. cbn [s_blocksize_bits set_sb_info set_vfs].
  rewrite Z.shiftr_div_pow2 by lia. rewrite Z.gtb_ltb.
  destruct (_ || _) eqn:Hbad.
  { apply wp_ret. split; [done|]. split; [|done]. by do 3 eexists. }
  apply wp_modify. rewrite Z.mul_1_l.
  match goal with |- wp _ ?s _ => assert (s = with_values (geometry_of esb) (mount_options m) bits m) as -> end.
  { pose proof (values_stored (2 ^ lb) lb (field 8 188 esb) (ll - lb) (2 ^ (ll - lb)) (sb_total_leb_count esb)
      (field 4 72 esb) (field 4 80 esb) (field 4 76 esb) (Z.lxor (field 8 38 esb) (field 8 46 esb)) (mount_options m) bits m) as E.
    rewrite low_mask, uwrap_small in E by lia. exact E. }
  unfold options_of. destruct (field 1 196 esb =? 0).
  - apply wp_bind, wp_ret, wp_ret. split; [done|]. split; [by do 3 eexists|done].
  - apply wp_modify, wp_ret. split; [done|]. split; [|done]. by do 3 eexists.
Qed.

Context (Hset : forall bs, sb_set_blocksize bs = true).
Lemma wp_fill esb m : bytes esb ->
  wp (fill esb) m (fun r m' => r = judged esb /\ (exists g o bits, m' = with_values g o bits m) /\
    (r = Ok 0 -> m' = with_values (geometry_of esb) (options_of esb (mount_options m)) (sb_log_block_size esb) m)).
Proof using Hset Hs. 
  intros Hb. pose proof (wp_fill_any esb m Hb) as W. unfold bits_after in W. rewrite Hset in W. apply W.
  pose proof (field_bound 1 8 esb Hb). unfold sb_log_block_size. lia.
Qed.

(** ** Reading and repairing the super block *)
Abbreviation sb_read := (emmcfs_sb_read crc32 device_bytes sb_set_blocksize).
Abbreviation verify_sb := (emmcfs_verify_sb crc32).
Abbreviation verify_exsb := (emmcfs_verify_exsb crc32).
Definition sb_ok l : bool := verify_sb l =? 0.
Definition exsb_ok l : bool := verify_exsb l =? 0.

Lemma verify_sb_values l : verify_sb l = 0 \/ verify_sb l = - EINVAL.
Proof using. unfold emmcfs_verify_sb. repeat case_match; auto. Qed.

Lemma verify_exsb_values l : verify_exsb l = 0 \/ verify_exsb l = - EINVAL.
Proof using. unfold emmcfs_verify_exsb. repeat case_match; auto. Qed.

(** The four blocks of a device; the copies lie eight sectors before the end. *)
Definition main_sb d : list Z := sb_at d 2.
Definition copy_of_sb d : list Z := sb_at d (s_count - 8).
Definition main_exsb d : list Z := exsb_at d 3.
Definition copy_of_exsb d : list Z := exsb_at d (s_count - 7).

(** The device after the repair, and the super block that counts. *)
Definition repaired_sb d : device :=
  if sb_ok (main_sb d) then
    if sb_ok (copy_of_sb d) then d else dwrite d ((s_count - 8) * SECTOR_SIZE) (main_sb d)
  else dwrite d (2 * SECTOR_SIZE) (copy_of_sb d).
Definition chosen_sb d : list Z := if sb_ok (main_sb d) then main_sb d else copy_of_sb d.

(** The pages in memory hold the blocks of the device. *)
Record mirrors m : Prop := {
  mi_sb : sb_of (superblocks m) = main_sb (m_dev m);
  mi_exsb : exsb_of (superblocks m) = main_exsb (m_dev m);
  mi_copy : sb_of (superblocks_copy m) = copy_of_sb (m_dev m);
  mi_exsb_copy : exsb_of (superblocks_copy m) = copy_of_exsb (m_dev m);
  mi_length : blen (superblocks m) = 4096;
  mi_length_copy : blen (superblocks_copy m) = 4096
}.

(** The repair leaves two good super blocks and touches nothing else. *)
Lemma repaired_sb_spec d : sb_ok (main_sb d) || sb_ok (copy_of_sb d) = true ->
  sb_ok (main_sb (repaired_sb d)) = true /\ sb_ok (copy_of_sb (repaired_sb d)) = true /\
  main_sb (repaired_sb d) = chosen_sb d /\
  main_exsb (repaired_sb d) = main_exsb d /\ copy_of_exsb (repaired_sb d) = copy_of_exsb d /\
  forall x, ~ in_range (2 * 512) 512 x -> ~ in_range ((s_count - 8) * 512) 512 x -> repaired_sb d x = d x.
Proof using Hs.
  intros H. unfold repaired_sb, chosen_sb, main_exsb, copy_of_exsb.
  assert (blen (main_sb d) = 512) as L1 by apply length_sb_at.
  assert (blen (copy_of_sb d) = 512) as L2 by apply length_sb_at.
  destruct (sb_ok (main_sb d)) eqn:E1.
  - destruct (sb_ok (copy_of_sb d)) eqn:E2; [done|].
    rewrite !exsb_at_apart by lia. unfold main_sb, copy_of_sb. rewrite sb_at_apart, sb_at_dwrite by (done || lia).
    split_and!; try done. intros x H1 H2. apply dwrite_out. by rewrite length_sb_at.
  - simpl in H. rewrite !exsb_at_apart by lia. unfold main_sb, copy_of_sb. rewrite sb_at_dwrite by done.
    rewrite sb_at_apart by (done || lia). split_and!; try done. intros x H1 H2. apply dwrite_out. by rewrite length_sb_at.
Qed.

Lemma page_copy d : exsb_of (page_at d (s_count - 8)) = copy_of_exsb d.
Proof using. rewrite exsb_of_page_at. unfold copy_of_exsb. f_equal. lia. Qed.

Lemma page_main d : exsb_of (page_at d 2) = main_exsb d.
Proof using. apply exsb_of_page_at. Qed.

Lemma mirrors_pages m p q : sb_of p = main_sb (m_dev m) -> exsb_of p = main_exsb (m_dev m) ->
  sb_of q = copy_of_sb (m_dev m) -> exsb_of q = copy_of_exsb (m_dev m) -> blen p = 4096 -> blen q = 4096 ->
  mirrors (set_pages p q m).
Proof using. by constructor. Qed.

(** The middle part of [emmcfs_sb_read]. *)
Definition repair (p q : page) : St mount (Z * page * page) :=
  if sb_ok (sb_of p) && negb (sb_ok (sb_of q)) then
    do error <- write_page device_bytes (copy_sb p q) (s_count - 8) SB_SIZE_IN_SECTOR 0; ret (error, p, copy_sb p q)
  else if negb (sb_ok (sb_of p)) && sb_ok (sb_of q) then
    do error <- write_page device_bytes (copy_sb q p) 2 SB_SIZE_IN_SECTOR 0; ret (error, copy_sb q p, q)
  else ret (0, p, q).

Lemma wp_repair_sb d m : m_io m = [] -> m_dev m = d -> sb_ok (main_sb d) || sb_ok (copy_of_sb d) = true ->
  wp (repair (page_at d 2) (page_at d (s_count - 8))) m (ok (fun '(e, p, q) m' => e = 0 /\
    (exists w, m' = set_device (repaired_sb d) [] (set_sent w m)) /\ sb_of p = chosen_sb d /\ mirrors (set_pages p q m'))).
Proof using Hs.
  intros Hio Hd H. pose proof (repaired_sb_spec d H) as (_ & _ & Hmain & Hexsb & Hexsb' & _).
  unfold repair. rewrite !sb_of_page_at. fold (main_sb d) (copy_of_sb d). change SB_SIZE_IN_SECTOR with 1.
  pose proof (length_page_at d 2) as L1. pose proof (length_page_at d (s_count - 8)) as L2.
  unfold repaired_sb, chosen_sb in *. destruct (sb_ok (main_sb d)) eqn:E1; [destruct (sb_ok (copy_of_sb d)) eqn:E2|];
    [|idtac|simpl in H; rewrite H]; cbn [andb negb].
  - apply wp_ret. split; [done|]. split; [exists (m_sent m); destruct m; simpl in Hio, Hd; by rewrite Hio, Hd|].
    split; [apply sb_of_page_at|]. destruct m. simpl in Hd. rewrite <- Hd in *.
    apply mirrors_pages; [apply sb_of_page_at|apply page_main|apply sb_of_page_at|apply page_copy|exact L1|exact L2].
  - apply wp_bind_ok. apply (wp_write_page s_count); [done|lia|lia|done|].
    rewrite Hd, sent_sb, sb_of_copy, sb_of_page_at by exact L1. fold (main_sb d).
    apply wp_ret. split; [done|]. split; [by eexists|]. split; [apply sb_of_page_at|].
    apply mirrors_pages; cbn [m_dev set_device set_sent];
      [by rewrite Hmain, sb_of_page_at|by rewrite Hexsb, page_main| |by rewrite Hexsb', exsb_of_copy_sb, page_copy|
       exact L1|exact (length_copy_sb _ _ L1 L2)].
    rewrite sb_of_copy, sb_of_page_at by exact L1. symmetry. apply sb_at_dwrite, length_sb_at.
  - apply wp_bind_ok. apply (wp_write_page s_count); [done|lia|lia|done|].
    rewrite Hd, sent_sb, sb_of_copy, sb_of_page_at by exact L2. fold (copy_of_sb d).
    apply wp_ret. split; [done|]. split; [by eexists|]. split; [by rewrite sb_of_copy, sb_of_page_at by exact L2|].
    apply mirrors_pages; cbn [m_dev set_device set_sent];
      [rewrite Hmain, sb_of_copy by exact L2; apply sb_of_page_at|
      rewrite Hexsb, exsb_of_copy_sb by exact L2; apply page_main| |
      rewrite Hexsb'; apply page_copy|exact (length_copy_sb _ _ L2 L1)|exact L2].
    rewrite sb_of_page_at. symmetry. apply sb_at_apart; [apply length_sb_at|lia].
Qed.

Lemma wp_sb_read m : quiet m -> bytes (chosen_sb (m_dev m)) ->
  wp sb_read m (fun r m' =>
    if sb_ok (main_sb (m_dev m)) || sb_ok (copy_of_sb (m_dev m)) then
      r = judged (chosen_sb (m_dev m)) /\ m_dev m' = repaired_sb (m_dev m) /\ quiet m' /\
      (r = Ok 0 -> mirrors m' /\ sb_info m' = geometry_of (chosen_sb (m_dev m)) /\
        mount_options m' = options_of (chosen_sb (m_dev m)) (mount_options m))
    else r = Ok (- EINVAL) /\ m_dev m' = m_dev m).
Proof using Hs Hset.
  intros [Hio Hmem Hlock] Hb. unfold emmcfs_sb_read.
  apply wp_alloc_page; [done|]. intros o1 Ho1. apply wp_alloc_page; [done|]. intros o2 Ho2.
  apply wp_BUG_ON; [done|]. change (ESB_SIZE_IN_SECTOR + SB_SIZE_IN_SECTOR) with 6. change sb_sector with 2.
  rewrite (sb_copy_sector_eq _ Hs).
  apply (wp_read_page s_count); [done|lia|lia|]. cbn [Z.eqb negb].
  apply wp_BUG_ON; [done|]. apply (wp_read_page s_count); [done|lia|lia|]. cbn [Z.eqb negb].
  cbn [m_dev set_oracles]. set (d := m_dev m) in *.
  fold (sb_ok (sb_of (page_at d 2))) (sb_ok (sb_of (page_at d (s_count - 8)))).
  match goal with |- wp (if ?c then _ else _) _ _ => destruct c eqn:Hc end; rewrite !sb_of_page_at in Hc.
  { fold (main_sb d) (copy_of_sb d) in Hc. rewrite sb_of_page_at. fold (main_sb d).
    destruct (sb_ok (main_sb d)) eqn:E1; [done|]. destruct (sb_ok (copy_of_sb d)); [done|].
    cbn [orb]. apply wp_ret. split; [|done]. f_equal. destruct (verify_sb_values (main_sb d)) as [E|E]; [|done].
    unfold sb_ok in E1. by rewrite E in E1. }
  fold (main_sb d) (copy_of_sb d) in Hc.
  assert (sb_ok (main_sb d) || sb_ok (copy_of_sb d) = true) as Hor by (by destruct (sb_ok (main_sb d)), (sb_ok (copy_of_sb d))).
  rewrite Hor. eapply wp_seq; [by apply (wp_repair_sb d)|]. intros [[e p] q] m1 (-> & (w & ->) & Hp & Hm). cbn [Z.eqb negb].
  rewrite Hp.
  apply wp_bind. eapply wp_mono; [by apply wp_fill|].
  intros r m2 (Hr & (g & o & bits & Em) & Hok). cbv beta.
  assert (quiet m2) as Hq by (rewrite Em; by constructor).
  assert (m_dev m2 = repaired_sb d) as Hd by (by rewrite Em).
  destruct r as [r|e|]; [|by split_and!..].
  destruct (Z.eqb_spec r 0) as [->|Hne].
  - apply wp_modify, wp_ret. split; [done|]. split; [done|]. split; [by destruct Hq; constructor|]. intros _.
    specialize (Hok eq_refl). rewrite Hok. split; [|done].
    destruct Hm. by constructor.
  - apply wp_ret. split; [done|]. split; [done|]. split; [done|]. intros E. by injection E.
Qed.

(** ** Reading and repairing the extended super block *)
Abbreviation extended_sb_read := (emmcfs_extended_sb_read crc32 device_bytes).

Definition chosen_exsb d : list Z := if exsb_ok (main_exsb d) then main_exsb d else copy_of_exsb d.
Definition chosen_copy d : list Z := if exsb_ok (copy_of_exsb d) then copy_of_exsb d else main_exsb d.

(** Nothing is written outside the five sectors of either block. *)
Definition only_exsb d d' : Prop := forall x, ~ in_range (3 * 512) 2560 x -> ~ in_range ((s_count - 7) * 512) 2560 x -> d' x = d x.

(** The state after the repair. *)
Record repaired_exsb m m' : Prop := {
  re_state : exists d p q w, m' = set_pages p q (set_device d [] (set_sent w m));
  re_mirrors : mirrors m';
  re_main : main_exsb (m_dev m') = chosen_exsb (m_dev m);
  re_copy : copy_of_exsb (m_dev m') = chosen_copy (m_dev m);
  re_sb : main_sb (m_dev m') = main_sb (m_dev m);
  re_sb_copy : copy_of_sb (m_dev m') = copy_of_sb (m_dev m);
  re_only : only_exsb (m_dev m) (m_dev m')
}.

(** One block is written from the page [from] to [sector]. *)
Lemma wp_write_exsb from sector m Q : m_io m = [] -> 0 <= sector -> sector + 1 <= s_count -> blen from = 4096 ->
  (forall l, blen l = 2560 -> (exists rest, l = exsb_of from ++ rest) ->
    Q (Ok 0) (set_device (dwrite (m_dev m) (sector * SECTOR_SIZE) l) [] (set_sent (m_sent m ++ [(sector * SECTOR_SIZE, l)]) m))) ->
  wp (write_page device_bytes from sector ESB_SIZE_IN_SECTOR (SB_SIZE_IN_SECTOR * SECTOR_SIZE)) m Q.
Proof using.
  intros Hio H1 H2 Hl H. apply (wp_write_page s_count); [done|lia|lia|done|].
  change (SB_SIZE_IN_SECTOR * SECTOR_SIZE) with 512. change ESB_SIZE_IN_SECTOR with 5. rewrite sent_exsb.
  apply H; [by apply length_sent_exsb|by eexists].
Qed.

Definition repair_exsb (p q : page) : St mount Z :=
  if exsb_ok (exsb_of p) && negb (exsb_ok (exsb_of q)) then
    do_ modify (set_pages p (copy_exsb p q));
    write_page device_bytes p (s_count - 7) ESB_SIZE_IN_SECTOR (SB_SIZE_IN_SECTOR * SECTOR_SIZE)
  else if negb (exsb_ok (exsb_of p)) && exsb_ok (exsb_of q) then
    do_ modify (set_pages (copy_exsb q p) q);
    write_page device_bytes q 3 ESB_SIZE_IN_SECTOR (SB_SIZE_IN_SECTOR * SECTOR_SIZE)
  else ret 0.

Lemma wp_repair_exsb m : m_io m = [] -> mirrors m -> exsb_ok (main_exsb (m_dev m)) || exsb_ok (copy_of_exsb (m_dev m)) = true ->
  wp (repair_exsb (superblocks m) (superblocks_copy m)) m (ok (fun e m' => e = 0 /\ repaired_exsb m m')).
Proof using Hs.
  intros Hio Hm H. pose proof Hm as [M1 M2 M3 M4 L1 L2]. unfold repair_exsb. rewrite M2, M4.
  destruct (exsb_ok (main_exsb (m_dev m))) eqn:E1; [destruct (exsb_ok (copy_of_exsb (m_dev m))) eqn:E2|];
    [|idtac|simpl in H; rewrite H]; cbn [andb negb].
  - apply wp_ret. split; [done|]. constructor; unfold chosen_exsb, chosen_copy; rewrite ?E1, ?E2;
      [|exact Hm|reflexivity|reflexivity|reflexivity|reflexivity|intros x _ _; reflexivity].
    exists (m_dev m), (superblocks m), (superblocks_copy m), (m_sent m). destruct m; simpl in *; by subst.
  - apply wp_modify. apply wp_write_exsb; [done|lia|lia|done|]. intros l Hl (rest & El). cbn [m_dev set_pages]. split; [done|].
    assert (main_exsb (dwrite (m_dev m) ((s_count - 7) * SECTOR_SIZE) l) = main_exsb (m_dev m)) as D1
      by (apply exsb_at_apart_exsb; [done|lia]).
    assert (copy_of_exsb (dwrite (m_dev m) ((s_count - 7) * SECTOR_SIZE) l) = main_exsb (m_dev m)) as D2
      by (rewrite El, M2; apply exsb_at_dwrite, length_exsb_at).
    assert (main_sb (dwrite (m_dev m) ((s_count - 7) * SECTOR_SIZE) l) = main_sb (m_dev m)) as D3
      by (apply sb_at_apart_exsb; [done|lia]).
    assert (copy_of_sb (dwrite (m_dev m) ((s_count - 7) * SECTOR_SIZE) l) = copy_of_sb (m_dev m)) as D4
      by (apply sb_at_apart_exsb; [done|lia]).
    constructor; unfold chosen_exsb, chosen_copy; rewrite ?E1, ?E2; cbn [m_dev set_device set_sent set_pages];
      [do 4 eexists; reflexivity| |exact D1|exact D2|exact D3|exact D4|].
    + constructor; cbn [m_dev set_device set_sent set_pages superblocks superblocks_copy];
        [rewrite D3; exact M1|rewrite D1; exact M2|rewrite D4, sb_of_copy_exsb by exact L2; exact M3|
         rewrite D2, exsb_of_copy by (exact L1 || exact L2); exact M2|exact L1|exact (length_copy_exsb _ _ L1 L2)].
    + intros x _ Hx. apply dwrite_out. rewrite Hl. exact Hx.
  - apply wp_modify. apply wp_write_exsb; [done|lia|lia|done|]. intros l Hl (rest & El). cbn [m_dev set_pages]. split; [done|].
    assert (main_exsb (dwrite (m_dev m) (3 * SECTOR_SIZE) l) = copy_of_exsb (m_dev m)) as D1
      by (rewrite El, M4; apply exsb_at_dwrite, length_exsb_at).
    assert (copy_of_exsb (dwrite (m_dev m) (3 * SECTOR_SIZE) l) = copy_of_exsb (m_dev m)) as D2
      by (apply exsb_at_apart_exsb; [done|lia]).
    assert (main_sb (dwrite (m_dev m) (3 * SECTOR_SIZE) l) = main_sb (m_dev m)) as D3
      by (apply sb_at_apart_exsb; [done|lia]).
    assert (copy_of_sb (dwrite (m_dev m) (3 * SECTOR_SIZE) l) = copy_of_sb (m_dev m)) as D4
      by (apply sb_at_apart_exsb; [done|lia]).
    constructor; unfold chosen_exsb, chosen_copy; rewrite ?E1, ?H; cbn [m_dev set_device set_sent set_pages];
      [do 4 eexists; reflexivity| |exact D1|exact D2|exact D3|exact D4|].
    + constructor; cbn [m_dev set_device set_sent set_pages superblocks superblocks_copy];
        [rewrite D3, sb_of_copy_exsb by exact L1; exact M1|rewrite D1, exsb_of_copy by (exact L1 || exact L2); exact M4|
         rewrite D4; exact M3|rewrite D2; exact M4|exact (length_copy_exsb _ _ L2 L1)|exact L2].
    + intros x Hx _. apply dwrite_out. rewrite Hl. exact Hx.
Qed.

(** ** The journal at mount time *)

(** The first block of the journal, by the extended super block. *)
Definition journal_block (exsb : list Z) : Z := first_block (snapshot_extent exsb).
Definition journal_placed exsb : Prop := 0 <= journal_block exsb /\ journal_block exsb * 8 + 8 <= s_count.

(** Its head bears the magic number. *)
Definition journal_head d exsb : bool :=
  bool_decide (dread d (journal_block exsb * 4096) 4 = le_split 4 EMMCFS_SNAPSHOT_MAGIC).

(** Answers are used up, and nothing else changes. *)
Definition asked m m' : Prop := exists o, plenty o /\ m' = set_device (m_dev m) [] (set_oracles o (m_trylock m) m).

Lemma wp_restore_exsb m : m_io m = [] -> plenty (m_mem m) -> journal_placed (exsb_of (superblocks m)) ->
  wp (emmcfs_restore_exsb device_bytes) m (ok (fun e m' => e = 0 /\ exists m1, asked m m1 /\
    m' = if journal_head (m_dev m) (exsb_of (superblocks m)) then set_pages (superblocks_copy m) (superblocks_copy m) m1 else m1)).
Proof using Hs.
  intros Hio Hmem [J1 J2]. unfold emmcfs_restore_exsb. apply wp_alloc_page; [done|]. intros o Ho. cbn [negb].
  do 3 apply wp_gets. unfold id. cbn [superblocks superblocks_copy set_oracles m_dev m_io]. fold (journal_block (exsb_of (superblocks m))).
  set (b := journal_block _) in *. rewrite get_dev_sectors_count_eq, Hio, Z.shiftl_mul_pow2 by done.
  change (2 ^ (PAGE_CACHE_SHIFT - SECTOR_SIZE_SHIFT)) with 8. rewrite uwrap_small by lia.
  destruct (read_all s_count (m_dev m) [zero_page] (b * 8)) as (pages & E & _ & Econc); [unfold on_device; simpl length; lia|].
  rewrite E. apply wp_modify. cbn [Z.eqb negb].
  assert (take 4 (concat pages) = dread (m_dev m) (b * 4096) 4) as ->.
  { rewrite Econc. simpl length. change (PAGE_CACHE_SIZE * Z.of_nat 1) with (4 + 4092). rewrite dread_app by lia.
    rewrite take_app_length' by (apply Nat2Z.inj; rewrite length_dread; lia). f_equal. unfold SECTOR_SIZE. lia. }
  unfold journal_head. fold b.
  assert (asked m (set_device (m_dev m) [] (set_oracles o (m_trylock m) m))) as Hask by (by exists o).
  destruct (bool_decide _); cbn [negb]; [apply wp_modify|]; apply wp_ret; by (split; [done|]; eexists).
Qed.

(** Which extended super block a mount uses. *)
Definition journaling options : bool := test_option MOUNT_SNAPSHOT options.
Definition used_exsb options d d' : list Z :=
  if journaling options && journal_head d' (chosen_exsb d) then chosen_copy d else chosen_exsb d.

Lemma wp_extended_sb_read m : quiet m -> mirrors m -> (journaling (mount_options m) = true -> journal_placed (chosen_exsb (m_dev m))) ->
  wp extended_sb_read m (fun r m' =>
    if exsb_ok (main_exsb (m_dev m)) || exsb_ok (copy_of_exsb (m_dev m)) then
      r = Ok 0 /\ quiet m' /\ sb_info m' = sb_info m /\ mount_options m' = mount_options m /\
      main_exsb (m_dev m') = chosen_exsb (m_dev m) /\ copy_of_exsb (m_dev m') = chosen_copy (m_dev m) /\
      main_sb (m_dev m') = main_sb (m_dev m) /\ copy_of_sb (m_dev m') = copy_of_sb (m_dev m) /\
      only_exsb (m_dev m) (m_dev m') /\
      exsb_of (superblocks m') = used_exsb (mount_options m) (m_dev m) (m_dev m') /\
      blen (superblocks m') = 4096 /\ blen (superblocks_copy m') = 4096
    else r = Ok (- EINVAL) /\ m' = m).
Proof using Hs.
  intros Hq Hm Hj. pose proof Hm as [M1 M2 M3 M4 L1 L2]. unfold emmcfs_extended_sb_read. do 2 apply wp_gets. rewrite M2, M4.
  set (d := m_dev m) in *. fold (exsb_ok (main_exsb d)) (exsb_ok (copy_of_exsb d)).
  destruct (exsb_ok (main_exsb d) || exsb_ok (copy_of_exsb d)) eqn:Hor.
  2: { apply orb_false_iff in Hor as [E1 E2]. rewrite E1, E2. cbn [negb andb]. apply wp_ret. split; [|done]. f_equal.
    destruct (verify_exsb_values (main_exsb d)) as [E|E]; [|done]. unfold exsb_ok in E1. by rewrite E in E1. }
  match goal with |- wp (if ?c then _ else _) _ _ => replace c with false by (by destruct (exsb_ok (main_exsb d)), (exsb_ok (copy_of_exsb d))) end.
  rewrite (exsb_copy_sector_eq _ Hs). change exsb_sector with 3.
  pose proof (wp_repair_exsb m (q_io _ Hq) Hm Hor) as W. unfold repair_exsb in W. rewrite M2, M4 in W. fold d in W.
  eapply wp_seq; [exact W|]. clear W. intros e m1 [-> Hre]. cbn [Z.eqb negb].
  destruct (re_state _ _ Hre) as (d1 & p & q & w & Em). apply wp_gets.
  assert (mount_options m1 = mount_options m) as Eo by (by rewrite Em).
  assert (sb_info m1 = sb_info m) as Ei by (by rewrite Em).
  assert (quiet m1) as Hq1 by (rewrite Em; by destruct Hq).
  destruct Hre as [_ Hm1 Rm Rc Rs Rsc Ro]. pose proof Hm1 as [N1 N2 N3 N4 K1 K2].
  rewrite Eo. fold (journaling (mount_options m)). unfold used_exsb. fold d in Rm, Rc, Ro.
  destruct (journaling (mount_options m)) eqn:Ej.
  - apply wp_ok_all. eapply wp_ok_mono; [apply wp_restore_exsb; [apply Hq1|apply Hq1|]|].
    { rewrite N2, Rm. by apply Hj. }
    intros r m2 (-> & m3 & (o & Ho & ->) & E2). rewrite N2, Rm in E2. split; [done|].
    subst m2. cbn [andb]. destruct Hq1 as [_ _ Hl1].
    destruct (journal_head (m_dev m1) (chosen_exsb d)) eqn:Ejh;
      cbn [m_dev set_pages set_sent set_device set_oracles superblocks superblocks_copy sb_info mount_options]; rewrite Ejh.
    + rewrite N4, Rc. split_and!; first [assumption|reflexivity|by constructor].
    + rewrite N2, Rm. split_and!; first [assumption|reflexivity|by constructor].
  - apply wp_ret. cbn [andb]. rewrite N2, Rm. split_and!; first [assumption|reflexivity].
Qed.

Lemma chosen_ok d : exsb_ok (main_exsb d) || exsb_ok (copy_of_exsb d) = true ->
  exsb_ok (chosen_exsb d) = true /\ exsb_ok (chosen_copy d) = true.
Proof using.
  unfold chosen_exsb, chosen_copy. intros H. destruct (exsb_ok (main_exsb d)) eqn:E1, (exsb_ok (copy_of_exsb d)) eqn:E2;
    rewrite ?E1, ?E2; done.
Qed.

(** ** Claims *)

(** C31: [fill_runtime_superblock] accepts a super block exactly when its block
    size is one of the four, a logical erase block is no smaller, and the
    volume, as a 64-bit number of blocks, is not empty and no larger than the
    device in blocks of the size that the VFS has; shifts by 32 and more are
    undefined.  The size of the VFS is that of the super block, or the former
    one when [sb_set_blocksize] refuses it, which the source passes over.  Of an
    accepted super block the sizes, shifts and masks agree, and the volume lies
    on the device if its size was not refused and the product has not wrapped
    around. *)
Theorem fill_runtime_superblock_correct esb m : bytes esb -> 0 <= s_blocksize_bits m ->
  exists m', fill esb m = (judged_on (bits_after esb m) esb, m') /\ m_dev m' = m_dev m /\
    (judged_on (bits_after esb m) esb = Ok 0 ->
      let g := sb_info m' in
      g = geometry_of esb /\ s_blocksize_bits m' = bits_after esb m /\
      block_size g = 2 ^ block_size_shift g /\ 512 <= block_size g <= 4096 /\
      offset_msk_inblock g = block_size g - 1 /\ block_size g = 512 * 2 ^ log_sectors_per_block g /\
      btree_node_size_blks g = 2 ^ log_blocks_in_leb g /\ 0 < total_leb_count g /\
      (bits_after esb m = sb_log_block_size esb -> total_leb_count g * btree_node_size_blks g < 2 ^ 64 ->
        total_leb_count g * btree_node_size_blks g * block_size g <= device_bytes)).
Proof using Hs.
  intros Hb Hm. assert (0 <= bits_after esb m) as Hbits.
  { unfold bits_after. pose proof (field_bound 1 8 esb Hb). unfold sb_log_block_size. destruct (sb_set_blocksize _); lia. }
  pose proof (wp_fill_any esb m Hb Hbits) as W. unfold wp in W. destruct (fill esb m) as [r m'].
  cbn [fst snd] in W. destruct W as (-> & (g & o & bits & E) & Hok). exists m'. split; [done|]. split; [by rewrite E|].
  intros Hj. specialize (Hok Hj). rewrite Hok. split; [done|]. split; [done|]. by apply judged_geometry.
Qed.

(** C11: [emmcfs_sb_read] with one good super block out of two takes that one
    and repairs the other on the device; nothing else is written, and a second
    reading finds both good.  Without a good one the volume is refused and left
    as it is. *)
Theorem emmcfs_sb_read_correct m : quiet m -> bytes (chosen_sb (m_dev m)) ->
  let d := m_dev m in
  exists m', 
    if sb_ok (main_sb d) || sb_ok (copy_of_sb d) then
      let sb := if sb_ok (main_sb d) then main_sb d else copy_of_sb d in
      sb_read m = (judged sb, m') /\
      main_sb (m_dev m') = sb /\ sb_ok (main_sb (m_dev m')) = true /\ sb_ok (copy_of_sb (m_dev m')) = true /\
      (forall x, ~ in_range (2 * 512) 512 x -> ~ in_range ((s_count - 8) * 512) 512 x -> m_dev m' x = d x) /\
      (judged sb = Ok 0 -> mirrors m' /\ sb_info m' = geometry_of sb)
    else sb_read m = (Ok (- EINVAL), m') /\ m_dev m' = d.
Proof using Hs Hset.
  intros Hq Hb d. pose proof (wp_sb_read m Hq Hb) as W. unfold wp in W. destruct (sb_read m) as [r m'].
  cbn [fst snd] in W. exists m'. fold d in W. destruct (sb_ok (main_sb d) || sb_ok (copy_of_sb d)) eqn:Hor.
  - destruct (repaired_sb_spec d Hor) as (R1 & R2 & R3 & _ & _ & R6). destruct W as (-> & Hd & _ & W). rewrite Hd.
    fold (chosen_sb d). split; [done|]. split; [done|]. split; [done|]. split; [done|]. split; [done|].
    intros Hj. by destruct (W Hj) as (W1 & W2 & _).
  - by destruct W as [-> W].
Qed.

(** C12: [emmcfs_extended_sb_read] with one good extended super block out of two
    repairs the other one on the device.  The mounted volume uses the first
    one; with the journal, and its magic number in place, the copy. *)
Theorem emmcfs_extended_sb_read_correct m : quiet m -> mirrors m ->
  (journaling (mount_options m) = true -> journal_placed (chosen_exsb (m_dev m))) ->
  let d := m_dev m in
  exists m',
    if exsb_ok (main_exsb d) || exsb_ok (copy_of_exsb d) then
      extended_sb_read m = (Ok 0, m') /\ only_exsb d (m_dev m') /\
      main_exsb (m_dev m') = chosen_exsb d /\ copy_of_exsb (m_dev m') = chosen_copy d /\
      exsb_ok (main_exsb (m_dev m')) = true /\ exsb_ok (copy_of_exsb (m_dev m')) = true /\
      exsb_of (superblocks m') =
        (if journaling (mount_options m) && journal_head (m_dev m') (chosen_exsb d) then copy_of_exsb (m_dev m')
         else main_exsb (m_dev m'))
    else extended_sb_read m = (Ok (- EINVAL), m).
Proof using Hs.
  intros Hq Hm Hj d. pose proof (wp_extended_sb_read m Hq Hm Hj) as W. unfold wp in W. destruct (extended_sb_read m) as [r m'].
  cbn [fst snd] in W. exists m'. fold d in W. destruct (exsb_ok (main_exsb d) || exsb_ok (copy_of_exsb d)) eqn:Hor.
  - destruct W as (-> & _ & _ & _ & W1 & W2 & _ & _ & W3 & W4 & _). rewrite W1, W2. unfold used_exsb in W4. fold d in W4.
    destruct (chosen_ok d Hor). by split_and!.
  - by destruct W as [-> ->].
Qed.
End super.

(** ** At work: a volume of eight blocks *)
Definition byte_sum (seed : Z) (l : list Z) : Z := foldr Z.add (seed + 1) l.
Definition sealed (l : list Z) : list Z := l ++ le_split 4 (byte_sum 0 l).

(** Blocks and erase blocks of 4096 bytes; the journal begins in block 2. *)
Definition example_sb : list Z :=
  sealed (le_split 7 EMMCFS_SB_SIGNATURE ++ [1; 12; 12] ++ le_split 8 8 ++ replicate 490 0).
Definition example_exsb : list Z := sealed (replicate 134 0 ++ le_split 8 2 ++ replicate 1902 0).

(** A volume with the two blocks and their copies; an empty list is a block of
    zeros. *)
Definition volume_of (sb exsb sb_copy exsb_copy : list Z) : device := fun x =>
  let sector := x / 512 in
  if sector <? 2 then 0
  else if sector =? 2 then default 0 (sb !! Z.to_nat (x - 2 * 512))
  else if sector <? 8 then default 0 (exsb !! Z.to_nat (x - 3 * 512))
  else if sector <? 56 then 0
  else if sector =? 56 then default 0 (sb_copy !! Z.to_nat (x - 56 * 512))
  else if sector <? 62 then default 0 (exsb_copy !! Z.to_nat (x - 57 * 512))
  else 0.

(** The super block is damaged, and so is the copy of the extended one. *)
Definition damaged : device :=
  volume_of [] example_exsb example_sb [].
Definition to_mount (d : device) (options : Z) : mount :=
  Mount d [] [] [] 12 false false no_geometry options false false zero_page zero_page [].

Lemma to_mount_quiet d options : quiet (to_mount d options).
Proof. constructor; [done|apply plenty_nil|apply plenty_nil]. Qed.

Lemma example_bytes l : forallb (fun b => (0 <=? b) && (b <? 256)) l = true -> bytes l.
Proof. rewrite forallb_forall. intros H. apply Forall_forall. intros x Hx. apply list_elem_of_In, H in Hx. lia. Qed.

(** With the size of the blocks accepted, and with it refused while the VFS has
    blocks of 512 bytes: the check of the size lets a volume pass that is larger
    than the device. *)
Definition large_sb : list Z := sealed (le_split 7 EMMCFS_SB_SIGNATURE ++ [1; 12; 12] ++ le_split 8 60 ++ replicate 490 0).
Definition small_blocks : mount := set_vfs 9 false false (to_mount damaged 0).

Lemma fill_runtime_superblock_correct_witness :
  (exists m', fill_runtime_superblock (64 * 512) (fun _ => true) example_sb (to_mount damaged 0) = (Ok 0, m') /\
    block_size (sb_info m') = 4096 /\ total_leb_count (sb_info m') = 8) /\
  (exists m', fill_runtime_superblock (64 * 512) (fun _ => false) large_sb small_blocks = (Ok 0, m') /\
    block_size (sb_info m') = 4096 /\ s_blocksize_bits m' = 9 /\ 64 * 512 < total_leb_count (sb_info m') * block_size (sb_info m')).
Proof.
  split.
  - destruct (fill_runtime_superblock_correct 64 (fun _ => true) ltac:(lia) example_sb (to_mount damaged 0))
      as (m' & E & _ & H); [apply example_bytes; by vm_compute|done|].
    assert (judged_on 64 (bits_after (fun _ => true) example_sb (to_mount damaged 0)) example_sb = Ok 0) as Hj by (vm_compute; reflexivity).
    rewrite Hj in E. exists m'. split; [exact E|]. destruct (H Hj) as (-> & _). split; vm_compute; reflexivity.
  - destruct (fill_runtime_superblock_correct 64 (fun _ => false) ltac:(lia) large_sb small_blocks)
      as (m' & E & _ & H); [apply example_bytes; by vm_compute|done|].
    assert (judged_on 64 (bits_after (fun _ => false) large_sb small_blocks) large_sb = Ok 0) as Hj by (vm_compute; reflexivity).
    rewrite Hj in E. exists m'. split; [exact E|]. destruct (H Hj) as (-> & -> & _). repeat split; vm_compute; reflexivity.
Defined.

Abbreviation example_sb_read := (emmcfs_sb_read byte_sum (64 * 512) (fun _ => true)).
Abbreviation example_extended_sb_read := (emmcfs_extended_sb_read byte_sum (64 * 512)).

Lemma emmcfs_sb_read_correct_witness :
  exists m', example_sb_read (to_mount damaged 0) = (Ok 0, m') /\ main_sb (m_dev m') = example_sb /\ mirrors 64 m'.
Proof.
  destruct (emmcfs_sb_read_correct byte_sum 64 (fun _ => true) ltac:(lia) (fun _ => eq_refl) (to_mount damaged 0)
    (to_mount_quiet _ _) ltac:(apply example_bytes; by vm_compute)) as (m' & W).
  assert (sb_ok byte_sum (main_sb (m_dev (to_mount damaged 0))) = false) as E1 by (vm_compute; reflexivity).
  assert (sb_ok byte_sum (copy_of_sb 64 (m_dev (to_mount damaged 0))) = true) as E2 by (vm_compute; reflexivity).
  assert (copy_of_sb 64 (m_dev (to_mount damaged 0)) = example_sb) as E3 by (vm_compute; reflexivity).
  rewrite E1, E2, E3 in W. cbn [orb] in W. destruct W as (E & E4 & _ & _ & _ & W).
  assert (judged 64 example_sb = Ok 0) as Hj by (vm_compute; reflexivity). rewrite Hj in E.
  exists m'. split; [exact E|]. split; [exact E4|]. exact (proj1 (W Hj)).
Defined.

(** The pages as the reading of [damaged] leaves them. *)
Definition with_pages (d : device) (options : Z) : mount :=
  Mount d [] [] [] 12 false false no_geometry options false false (page_at d 2) (page_at d (64 - 8)) [].

Lemma with_pages_mirrors d options : mirrors 64 (with_pages d options).
Proof.
  apply (mirrors_pages 64 (to_mount d options));
    [apply sb_of_page_at|apply page_main|apply sb_of_page_at|apply page_copy|apply length_page_at|apply length_page_at].
Qed.

Lemma emmcfs_extended_sb_read_correct_witness :
  exists m', example_extended_sb_read (with_pages damaged 1) = (Ok 0, m') /\
    copy_of_exsb 64 (m_dev m') = example_exsb /\ exsb_of (superblocks m') = example_exsb.
Proof.
  destruct (emmcfs_extended_sb_read_correct byte_sum 64 ltac:(lia) (with_pages damaged 1)) as (m' & W).
  - constructor; [reflexivity|apply plenty_nil|apply plenty_nil].
  - apply with_pages_mirrors.
  - intros _. split; vm_compute; [discriminate|discriminate].
  - assert (exsb_ok byte_sum (main_exsb (m_dev (with_pages damaged 1))) = true) as E1 by (vm_compute; reflexivity).
    assert (chosen_exsb byte_sum 64 (m_dev (with_pages damaged 1)) = example_exsb) as E2 by (vm_compute; reflexivity).
    assert (chosen_copy byte_sum 64 (m_dev (with_pages damaged 1)) = example_exsb) as E3 by (vm_compute; reflexivity).
    rewrite E1, E2, E3 in W. cbn [orb] in W. destruct W as (E & _ & W1 & W2 & _ & _ & W3). rewrite W1, W2 in W3.
    exists m'. split; [exact E|]. split; [exact W2|]. rewrite W3. destruct (_ && _); reflexivity.
Defined.
