(* ===== verification/SuperSync.v ===== *)
(** * The super blocks: writing them

    What [update_super_forks] puts into the page, what the two writes leave on
    the device, and what the next mount finds when the writes are interrupted. *)

From S2P Require Import Prelude Monad Data Snapshot BnodeRepr Fork ForkProofs Cattree CattreeTheorems Vfs VfsProofs Super SuperProofs SuperTheorems.
Open Scope Z_scope.

#[local] Opaque page_at sb_at exsb_at copy_sb copy_exsb.

(** ** Stores into the extended super block *)
Section stores.
Implicit Types (p : page) (b : list Z).

(** The [n] bytes at [k] of the extended super block. *)
Definition part (k n : nat) p : list Z := take n (drop (512 + k) p).

Lemma length_store off b p : blen p = 4096 -> (512 + off + length b <= length p)%nat -> blen (store off b p) = 4096.
Proof. intros Hp H. unfold store. by rewrite write_at_length. Qed.

Lemma part_store off b p n : (512 + off <= length p)%nat -> n = length b -> part off n (store off b p) = b.
Proof. intros H ->. by apply slice_write_at. Qed.

Lemma part_store_before k n off b p : (k + n <= off)%nat -> (512 + off <= length p)%nat -> part k n (store off b p) = part k n p.
Proof. intros H1 H2. apply slice_write_at_before; lia. Qed.

Lemma part_store_after k n off b p : (off + length b <= k)%nat -> (512 + off + length b <= length p)%nat ->
  part k n (store off b p) = part k n p.
Proof. intros H1 H2. apply slice_write_at_after; lia. Qed.

Lemma sb_of_store off b p : (512 + off <= length p)%nat -> sb_of (store off b p) = sb_of p.
Proof. intros H. apply take_write_at_before; lia. Qed.

(** A store of what is there already. *)
Lemma store_same off b p : part off (length b) p = b -> (512 + off <= length p)%nat -> store off b p = p.
Proof.
  intros H Hl. unfold store, write_at, part in *. rewrite <- (take_drop (512 + off) p) at 3. f_equal.
  rewrite <- (take_drop (length b) (drop (512 + off) p)). rewrite H. by rewrite drop_drop.
Qed.

Lemma part_exsb k n p : (k + n <= 2048)%nat -> take n (drop k (exsb_of p)) = part k n p.
Proof.
  intros H. unfold exsb_of, part. rewrite take_drop_commute, take_take.
  replace ((k + n) `min` 2048)%nat with (k + n)%nat by lia. rewrite <- take_drop_commute. by rewrite drop_drop.
Qed.
Lemma take_exsb n p : (n <= 2048)%nat -> take n (exsb_of p) = part 0 n p.
Proof. intros H. rewrite <- (part_exsb 0) by lia. by rewrite drop_0. Qed.
End stores.

Section sync.
Context (crc32 : Z -> list Z -> Z) (s_count : Z) (sb_set_blocksize : Z -> bool).
Context (Hs : 16 <= s_count < 2 ^ 54) (Hset : forall bs, sb_set_blocksize bs = true).
Abbreviation device_bytes := (s_count * 512).
Abbreviation exsb_ok := (exsb_ok crc32).
Implicit Types (m : mount) (d : device) (p : page).

Definition shaped (is_ : special_inodes) : Prop :=
  fork_shape (i_fork (catalog_inode is_)) /\ fork_shape (i_fork (extents_inode is_)) /\
  fork_shape (i_fork (inode_bitmap_inode is_)) /\ fork_shape (i_fork (hlinks_inode is_)).
Context (is_ : special_inodes) (shift : Z) (Hshape : shaped is_).

Definition fork_bytes (i : inode) : list Z := encode_fork (emmcfs_form_fork shift i).

Lemma length_fork_bytes i : fork_shape (i_fork i) -> length (fork_bytes i) = 121%nat.
Proof using.
  intros H. pose proof (form_fork_length shift i H) as Hl. unfold fork_bytes, encode_fork.
  rewrite !length_app, !length_le_split, encode_extents_length, Hl. done.
Qed.

(** The page after [update_super_forks]: the forks, then the checksum. *)
Definition with_forks p : page :=
  store 633 (fork_bytes (hlinks_inode is_)) (store 512 (fork_bytes (inode_bitmap_inode is_))
    (store 363 (fork_bytes (extents_inode is_)) (store 242 (fork_bytes (catalog_inode is_)) p))).
Definition with_checksum p : page := store 2044 (le_split 4 (u32 (crc32 0 (take 2044 (exsb_of p))))) p.
Definition updated p : page := with_checksum (with_forks p).

Record forks_in p : Prop := {
  fi_catalog : part 242 121 p = fork_bytes (catalog_inode is_);
  fi_extents : part 363 121 p = fork_bytes (extents_inode is_);
  fi_bitmap : part 512 121 p = fork_bytes (inode_bitmap_inode is_);
  fi_hlinks : part 633 121 p = fork_bytes (hlinks_inode is_)
}.

(** The bytes of the extended super block that the mount never changes. *)
Definition untouched (k n : nat) : Prop :=
  (k + n <= 242 \/ 484 <= k /\ k + n <= 512 \/ 754 <= k /\ k + n <= 2044)%nat.

Lemma with_forks_spec p : blen p = 4096 ->
  blen (with_forks p) = 4096 /\ sb_of (with_forks p) = sb_of p /\ forks_in (with_forks p) /\
  forall k n, untouched k n -> part k n (with_forks p) = part k n p.
Proof using Hshape.
  intros Hp. destruct Hshape as (H1 & H2 & H3 & H4). unfold with_forks.
  apply length_fork_bytes in H1, H2, H3, H4.
  set (b1 := fork_bytes _) in *. set (b2 := fork_bytes (extents_inode is_)) in *.
  set (b3 := fork_bytes (inode_bitmap_inode is_)) in *. set (b4 := fork_bytes (hlinks_inode is_)) in *.
  assert (blen (store 242 b1 p) = 4096) as L1 by (apply length_store; lia). set (p1 := store 242 b1 p) in *.
  assert (blen (store 363 b2 p1) = 4096) as L2 by (apply length_store; lia). set (p2 := store 363 b2 p1) in *.
  assert (blen (store 512 b3 p2) = 4096) as L3 by (apply length_store; lia). set (p3 := store 512 b3 p2) in *.
  assert (blen (store 633 b4 p3) = 4096) as L4 by (apply length_store; lia).
  subst p3 p2 p1.
  split; [done|]. split; [|split].
  - rewrite !sb_of_store; [done|lia..].
  - constructor.
    + rewrite !part_store_before by lia. apply part_store; [lia|exact (eq_sym H1)].
    + rewrite !(part_store_before 363) by lia. apply part_store; [lia|exact (eq_sym H2)].
    + rewrite part_store_before by lia. apply part_store; [lia|exact (eq_sym H3)].
    + apply part_store; [lia|exact (eq_sym H4)].
  - intros k n [H|[H|H]].
    + by rewrite !part_store_before by lia.
    + rewrite 2!part_store_before by lia.
      by rewrite !part_store_after by lia.
    + by rewrite !part_store_after by lia.
Qed.

Lemma with_checksum_spec p : blen p = 4096 ->
  blen (with_checksum p) = 4096 /\ sb_of (with_checksum p) = sb_of p /\ exsb_ok (exsb_of (with_checksum p)) = true /\
  forall k n, (k + n <= 2044)%nat -> part k n (with_checksum p) = part k n p.
Proof using.
  intros Hp. unfold with_checksum. set (b := le_split 4 _).
  assert (length b = 4%nat) as Hb by apply length_le_split.
  assert (forall k n, (k + n <= 2044)%nat -> part k n (store 2044 b p) = part k n p) as Hout
    by (intros k n H; apply part_store_before; lia).
  split; [apply length_store; lia|]. split; [apply sb_of_store; lia|]. split; [|done].
  unfold SuperTheorems.exsb_ok, emmcfs_verify_exsb, exsb_checksum, field. rewrite part_exsb by lia.
  rewrite take_exsb, (Hout 0%nat 2044%nat) by lia. rewrite part_store by lia. unfold b.
  rewrite le_combine_split. change (256 ^ Z.of_nat 4) with (2 ^ 32).
  rewrite take_exsb by lia.
  unfold uwrap. by rewrite Z.mod_mod, Z.eqb_refl.
Qed.

Lemma updated_spec p : blen p = 4096 ->
  blen (updated p) = 4096 /\ sb_of (updated p) = sb_of p /\ exsb_ok (exsb_of (updated p)) = true /\ forks_in (updated p) /\
  (forall k n, untouched k n -> part k n (updated p) = part k n p).
Proof using Hshape.
  intros Hp. destruct (with_forks_spec p Hp) as (L & E & [F1 F2 F3 F4] & U).
  destruct (with_checksum_spec _ L) as (L' & E' & Hok & U'). unfold updated.
  split; [done|]. split; [by rewrite E'|]. split; [done|]. split.
  - constructor; rewrite U' by lia; done.
  - intros k n H. rewrite U' by (unfold untouched in H; lia). by apply U.
Qed.

(** A second update finds nothing to change. *)
Lemma with_checksum_twice p : blen p = 4096 -> with_checksum (with_checksum p) = with_checksum p.
Proof using.
  intros Hp. destruct (with_checksum_spec p Hp) as (L & _ & _ & U).
  assert (take 2044 (exsb_of (with_checksum p)) = take 2044 (exsb_of p)) as E by (rewrite !take_exsb by lia; apply U; lia).
  unfold with_checksum at 1. rewrite E. apply store_same; [|lia]. rewrite length_le_split.
  apply part_store; [lia|]. by rewrite length_le_split.
Qed.

Lemma with_forks_twice p : blen p = 4096 -> forks_in p -> with_forks p = p.
Proof using Hshape.
  intros Hp [F1 F2 F3 F4]. destruct Hshape as (H1 & H2 & H3 & H4). apply length_fork_bytes in H1, H2, H3, H4.
  unfold with_forks. rewrite (store_same 242); [|by rewrite H1|lia]. rewrite (store_same 363); [|by rewrite H2|lia].
  rewrite (store_same 512); [|by rewrite H3|lia]. apply store_same; [by rewrite H4|lia].
Qed.

Lemma updated_twice p : blen p = 4096 -> updated (updated p) = updated p.
Proof using Hshape.
  intros Hp. destruct (updated_spec p Hp) as (L & _ & _ & F & _). unfold updated at 1.
  rewrite with_forks_twice by done. apply with_checksum_twice. apply (with_forks_spec p Hp).
Qed.

(** ** The writes *)
Abbreviation sync_super := (emmcfs_sync_super crc32 device_bytes is_).
Abbreviation sb_ok := (sb_ok crc32).
Abbreviation sb_read := (emmcfs_sb_read crc32 device_bytes sb_set_blocksize).
Abbreviation extended_sb_read := (emmcfs_extended_sb_read crc32 device_bytes).

Lemma wp_update_super {B} (f : unit -> St mount B) m Q : block_size_shift (sb_info m) = shift ->
  wp (f tt) (set_pages (updated (superblocks m)) (superblocks_copy m) m) Q -> wp (bind (update_super_forks crc32 is_) f) m Q.
Proof using.
  intros Hshift H. assert (update_super_forks crc32 is_ m = (Ok tt, set_pages (updated (superblocks m)) (superblocks_copy m) m)) as E.
  { unfold update_super_forks, modify. rewrite Hshift. unfold updated, with_checksum, with_forks, fork_bytes. cbv zeta. reflexivity. }
  unfold wp, bind in *. by rewrite E.
Qed.

(** A write of the updated block, with what follows it in the page. *)
Definition carries (e l : list Z) : Prop := blen l = 2560 /\ exists rest, l = e ++ rest.

Lemma wp_sync_to sector m Q : quiet m -> blen (superblocks m) = 4096 -> block_size_shift (sb_info m) = shift ->
  0 <= sector -> sector + 1 <= s_count ->
  (forall l o, carries (exsb_of (updated (superblocks m))) l -> plenty o ->
    Q (Ok 0) (set_device (dwrite (m_dev m) (sector * SECTOR_SIZE) l) [] (set_sent (m_sent m ++ [(sector * SECTOR_SIZE, l)])
      (set_oracles (m_mem m) o (set_pages (updated (superblocks m)) (superblocks_copy m) m))))) ->
  wp (sync_to crc32 device_bytes is_ sector) m Q.
Proof using Hshape.
  intros Hq Hp Hshift H1 H2 H. unfold sync_to. apply wp_update_super; [done|].
  apply wp_trylock; [apply Hq|]. intros o Ho. apply wp_gets. cbn [superblocks set_oracles set_pages].
  apply wp_write_exsb; [apply Hq|lia|lia|apply updated_spec, Hp|].
  intros l Hl Hrest. exact (H l o (conj Hl Hrest) Ho).
Qed.

Lemma wp_sync_super m : quiet m -> blen (superblocks m) = 4096 -> block_size_shift (sb_info m) = shift ->
  journaling (mount_options m) = false ->
  wp sync_super m (ok (fun e m' => e = 0 /\ superblocks m' = updated (superblocks m) /\ s_dirt m' = false /\ exsb_dirty m' = false /\
    exists l1 l2, carries (exsb_of (updated (superblocks m))) l1 /\ carries (exsb_of (updated (superblocks m))) l2 /\
      m_dev m' = dwrite (dwrite (m_dev m) (3 * SECTOR_SIZE) l1) ((s_count - 7) * SECTOR_SIZE) l2 /\
      m_sent m' = m_sent m ++ [(3 * SECTOR_SIZE, l1); ((s_count - 7) * SECTOR_SIZE, l2)])).
Proof using Hs Hshape.
  intros Hq Hp Hshift Hj. unfold emmcfs_sync_super. apply wp_gets. fold (journaling (mount_options m)). rewrite Hj.
  apply wp_bind_ok, wp_bind_ok. unfold emmcfs_sync_first_super. change exsb_sector with 3.
  apply wp_sync_to; [done|done|done|lia|lia|].
  intros l1 o1 C1 Ho1. cbn [ok Z.eqb negb]. apply wp_bind_ok. unfold emmcfs_sync_second_super. rewrite (exsb_copy_sector_eq _ Hs).
  set (p1 := updated (superblocks m)) in *. destruct (updated_spec _ Hp) as (L1 & _). fold p1 in L1.
  apply wp_sync_to; [by destruct Hq|exact L1|done|lia|lia|].
  intros l2 o2 C2 Ho2. cbn [ok Z.eqb negb superblocks set_pages set_oracles set_device set_sent m_dev m_sent] in *.
  assert (updated p1 = p1) as E by (by apply updated_twice). rewrite E in *.
  apply wp_modify, wp_ret. cbn [ok Z.eqb negb]. apply wp_modify, wp_ret.
  split; [done|]. split; [reflexivity|]. split; [reflexivity|]. split; [reflexivity|]. exists l1, l2. split; [exact C1|]. split; [exact C2|]. split; [reflexivity|].
  cbn [m_sent set_vfs set_dirty_flags set_device set_sent]. by rewrite <- app_assoc.
Qed.

(** ** The next mount *)

(** The two readings of [emmcfs_fill_super]. *)
Definition mount_reads : St mount Z :=
  do error <- sb_read; if negb (error =? 0) then ret error else extended_sb_read.

Lemma journaling_options esb o : journaling (options_of esb o) = journaling o.
Proof using.
  unfold options_of, journaling, test_option, set_option. destruct (field 1 196 esb =? 0); [done|].
  rewrite Z.land_lor_distr_l. change (Z.land MOUNT_CASE_INSENSITIVE MOUNT_SNAPSHOT) with 0. by rewrite Z.lor_0_r.
Qed.

(** The sectors of the four blocks. *)
Definition super_area (x : Z) : Prop := in_range (2 * 512) 3072 x \/ in_range ((s_count - 8) * 512) 3072 x.

(** One of the super blocks is good, and its values are accepted. *)
Definition mountable d : Prop := sb_ok (main_sb d) || sb_ok (copy_of_sb s_count d) = true /\
  bytes (chosen_sb crc32 s_count d) /\ judged s_count (chosen_sb crc32 s_count d) = Ok 0.

Lemma wp_mount_reads m : quiet m -> let d := m_dev m in mountable d ->
  exsb_ok (main_exsb d) || exsb_ok (copy_of_exsb s_count d) = true ->
  (journaling (mount_options m) = true -> journal_placed s_count (chosen_exsb crc32 s_count d)) ->
  wp mount_reads m (ok (fun e m' => e = 0 /\
    main_exsb (m_dev m') = chosen_exsb crc32 s_count d /\ copy_of_exsb s_count (m_dev m') = chosen_copy crc32 s_count d /\
    main_sb (m_dev m') = chosen_sb crc32 s_count d /\ sb_ok (copy_of_sb s_count (m_dev m')) = true /\
    blen (superblocks m') = 4096 /\ (forall x, ~ super_area x -> m_dev m' x = d x) /\
    exsb_of (superblocks m') =
      if journaling (mount_options m) && journal_head (m_dev m') (chosen_exsb crc32 s_count d) then chosen_copy crc32 s_count d
      else chosen_exsb crc32 s_count d)).
Proof using Hs Hset.
  intros Hq d (Hsb & Hb & Hj) Hexsb Hplaced. unfold mount_reads.
  pose proof (repaired_sb_spec crc32 s_count Hs d Hsb) as (_ & R2 & R1 & R3 & R4 & R5).
  eapply (wp_seq _ _ _ (fun e m1 => e = 0 /\ m_dev m1 = repaired_sb crc32 s_count d /\ quiet m1 /\ mirrors s_count m1 /\
    journaling (mount_options m1) = journaling (mount_options m))).
  { eapply wp_mono; [by apply (wp_sb_read crc32 s_count sb_set_blocksize Hs Hset)|]. fold d. rewrite Hsb, Hj.
    intros r m1 (-> & H1 & H2 & H3). destruct (H3 eq_refl) as (H4 & _ & H5). split; [done|]. split; [done|]. split; [done|].
    split; [done|]. by rewrite H5, journaling_options. }
  intros e m1 (-> & Hd & Hq1 & Hm1 & Hj1). cbn [Z.eqb negb].
  assert (chosen_exsb crc32 s_count (m_dev m1) = chosen_exsb crc32 s_count d) as Ec
    by (unfold chosen_exsb; by rewrite Hd, R3, R4).
  assert (chosen_copy crc32 s_count (m_dev m1) = chosen_copy crc32 s_count d) as Ecc
    by (unfold chosen_copy; by rewrite Hd, R3, R4).
  eapply wp_mono; [apply (wp_extended_sb_read crc32 s_count Hs m1 Hq1 Hm1); by rewrite Hj1, Ec|].
  rewrite Hd, R3, R4, Hexsb, <- Hd, Ec, Ecc. unfold used_exsb. rewrite Hj1, Ec, Ecc.
  intros r m2 (-> & _ & _ & _ & W1 & W2 & W3 & W4 & W7 & W5 & W6 & _). split; [done|]. split; [exact W1|]. split; [exact W2|].
  rewrite W3, W4. rewrite Hd at 1 2. split; [exact R1|]. split; [exact R2|]. split; [exact W6|]. split; [|exact W5].
  intros x Hx. unfold super_area, in_range in Hx. rewrite W7, Hd by (unfold in_range; lia). apply R5; unfold in_range; lia.
Qed.

(** ** Claims *)

(** What is on the device when the power fails during the first write, or
    during the second one: the block being written holds anything. *)
Definition first_torn d dc : Prop := forall x, ~ in_range (3 * 512) 2560 x -> dc x = d x.
Definition second_torn d d' dc : Prop :=
  (forall x, in_range (3 * 512) 2560 x -> dc x = d' x) /\
  (forall x, ~ in_range (3 * 512) 2560 x -> ~ in_range ((s_count - 7) * 512) 2560 x -> dc x = d x).

Lemma torn_blocks d d' dc : first_torn d dc \/ second_torn d d' dc ->
  main_sb dc = main_sb d /\ copy_of_sb s_count dc = copy_of_sb s_count d /\
  (first_torn d dc -> copy_of_exsb s_count dc = copy_of_exsb s_count d) /\
  (second_torn d d' dc -> main_exsb dc = main_exsb d').
Proof using Hs.
  intros H. unfold first_torn, second_torn, in_range in *. split_and!.
  - apply sb_at_ext. unfold in_range. intros x Hx. destruct H as [H|[_ H]]; apply H; lia.
  - apply sb_at_ext. unfold in_range. intros x Hx. destruct H as [H|[_ H]]; apply H; lia.
  - intros H1. apply exsb_at_ext. unfold in_range. intros x Hx. apply H1. lia.
  - intros [H1 _]. apply exsb_at_ext. unfold in_range. intros x Hx. apply H1. lia.
Qed.

(** The main block after both writes. *)
Lemma main_exsb_written d e l1 l2 : blen e = 2048 -> carries e l1 -> carries e l2 ->
  main_exsb (dwrite (dwrite d (3 * SECTOR_SIZE) l1) ((s_count - 7) * SECTOR_SIZE) l2) = e.
Proof using Hs.
  intros He [_ (r1 & ->)] [L2 _]. unfold main_exsb. rewrite exsb_at_apart_exsb by (done || lia). by apply exsb_at_dwrite.
Qed.

(** The mount after a failure in either write. *)
Lemma recovers m m' l1 l2 dc m0 : blen (superblocks m) = 4096 -> superblocks m' = updated (superblocks m) ->
  carries (exsb_of (updated (superblocks m))) l1 -> carries (exsb_of (updated (superblocks m))) l2 ->
  let d := m_dev m in
  m_dev m' = dwrite (dwrite d (3 * SECTOR_SIZE) l1) ((s_count - 7) * SECTOR_SIZE) l2 ->
  mountable d -> exsb_ok (copy_of_exsb s_count d) = true ->
  first_torn d dc \/ second_torn d (m_dev m') dc ->
  quiet m0 -> m_dev m0 = dc -> journaling (mount_options m0) = false ->
  exists m2, mount_reads m0 = (Ok 0, m2) /\
    exsb_ok (main_exsb (m_dev m2)) = true /\ exsb_ok (copy_of_exsb s_count (m_dev m2)) = true /\
    (first_torn d dc -> exsb_of (superblocks m2) = if exsb_ok (main_exsb dc) then main_exsb dc else copy_of_exsb s_count d) /\
    (second_torn d (m_dev m') dc -> exsb_of (superblocks m2) = exsb_of (superblocks m')).
Proof using Hs Hset Hshape.
  intros Hp Ep C1 C2 d Ed Hmount Hcopy Htorn Hq0 Hd0 Hj0.
  destruct (updated_spec _ Hp) as (L & _ & Hok & _). rewrite <- Ep in L, Hok, C1, C2.
  assert (main_exsb (m_dev m') = exsb_of (superblocks m')) as Emain by (rewrite Ed; apply main_exsb_written; [by apply length_exsb_of|done|done]).
  destruct (torn_blocks _ _ _ Htorn) as (T1 & T2 & T3 & T4).
  assert (exsb_ok (main_exsb dc) || exsb_ok (copy_of_exsb s_count dc) = true) as Hor.
  { apply orb_true_iff. destruct Htorn as [H|H]; [right; by rewrite (T3 H)|left; by rewrite (T4 H), Emain]. }
  destruct (chosen_ok crc32 s_count dc Hor) as [K1 K2].
  pose proof (wp_mount_reads m0 Hq0) as W. rewrite Hd0 in W. unfold mountable, chosen_sb in W, Hmount. rewrite T1, T2 in W.
  specialize (W Hmount Hor). rewrite Hj0 in W. specialize (W ltac:(done)). unfold wp in W.
  destruct (mount_reads m0) as [[r|e|] m2]; [|destruct W|destruct W]. cbn [fst snd ok] in W. destruct W as (-> & W1 & W2 & _ & _ & _ & _ & W3). cbn [andb] in W3.
  exists m2. split; [done|]. rewrite W1, W2. split; [done|]. split; [done|]. rewrite W3. unfold chosen_exsb.
  split; [intros H; by rewrite (T3 H)|]. intros H. by rewrite (T4 H), Emain, Hok.
Qed.

(** The device after some of its requests, and what is on it when the power fails
    during the next one: the place of that request holds anything. *)
Definition after d (requests : list (Z * list Z)) : device := foldl (fun d w => dwrite d (fst w) (snd w)) d requests.
Definition torn d (done_ : list (Z * list Z)) (w : Z * list Z) dc : Prop :=
  forall x, ~ in_range (fst w) (blen (snd w)) x -> dc x = after d done_ x.

Lemma torn_either d l1 l2 done_ w rest dc : blen l1 = 2560 -> blen l2 = 2560 ->
  [(3 * SECTOR_SIZE, l1); ((s_count - 7) * SECTOR_SIZE, l2)] = done_ ++ w :: rest -> torn d done_ w dc ->
  done_ = [] /\ first_torn d dc \/ done_ <> [] /\ second_torn d (dwrite (dwrite d (3 * SECTOR_SIZE) l1) ((s_count - 7) * SECTOR_SIZE) l2) dc.
Proof using Hs.
  intros L1 L2 E H. destruct done_ as [|w1 done_]; injection E as E1 E; subst.
  - left. split; [done|]. intros x Hx. apply H. cbn [fst snd]. by rewrite L1.
  - right. split; [done|]. destruct done_ as [|? done_]; [|by destruct done_]. injection E as E1 E; subst.
    unfold torn in H. cbn [fst snd after foldl] in H. rewrite L2 in H. split.
    + intros x Hx. rewrite H by (unfold in_range, SECTOR_SIZE in *; lia). symmetry. apply dwrite_out.
      unfold in_range, SECTOR_SIZE in *. lia.
    + intros x H1 H2. rewrite H by exact H2. apply dwrite_out. unfold SECTOR_SIZE. by rewrite L1.
Qed.

(** C8: the extended super block survives an interrupted write.  Without the
    journal [emmcfs_sync_super] sends two requests.  Whenever the power fails
    during one of them, so that its place holds anything, the next mount
    succeeds and leaves two good extended super blocks on the device.  During
    the first request it uses the copy as it was before, or, if what is in the
    first place bears a right checksum all the same, that; once the first
    request is through it is the new one. *)
Theorem interrupted_sync_recovers m : quiet m -> blen (superblocks m) = 4096 -> block_size_shift (sb_info m) = shift ->
  journaling (mount_options m) = false ->
  let d := m_dev m in
  mountable d -> exsb_ok (copy_of_exsb s_count d) = true ->
  exists m' requests, sync_super m = (Ok 0, m') /\ m_sent m' = m_sent m ++ requests /\ length requests = 2%nat /\
    m_dev m' = after d requests /\
  forall done_ w rest dc m0, requests = done_ ++ w :: rest -> torn d done_ w dc ->
    quiet m0 -> m_dev m0 = dc -> journaling (mount_options m0) = false ->
    exists m2, mount_reads m0 = (Ok 0, m2) /\
      exsb_ok (main_exsb (m_dev m2)) = true /\ exsb_ok (copy_of_exsb s_count (m_dev m2)) = true /\
      exsb_of (superblocks m2) =
        match done_ with
        | [] => if exsb_ok (main_exsb dc) then main_exsb dc else copy_of_exsb s_count d
        | _ => exsb_of (superblocks m')
        end.
Proof using Hs Hset Hshape.
  intros Hq Hp Hshift Hj d Hmount Hcopy.
  pose proof (wp_sync_super m Hq Hp Hshift Hj) as W. unfold wp in W. destruct (sync_super m) as [[r|e|] m']; [|done|done].
  cbn [fst snd ok] in W. destruct W as (-> & Ep & _ & _ & l1 & l2 & C1 & C2 & Ed & El).
  exists m', [(3 * SECTOR_SIZE, l1); ((s_count - 7) * SECTOR_SIZE, l2)]. split; [done|]. split; [done|]. split; [done|]. split; [done|].
  intros done_ w rest dc m0 Esplit Htorn Hq0 Hd0 Hj0. apply (torn_either _ _ _ _ _ _ _ (proj1 C1) (proj1 C2) Esplit) in Htorn.
  fold d in Ed. rewrite <- Ed in Htorn.
  destruct (recovers m m' l1 l2 dc m0) as (m2 & E & G1 & G2 & G3 & G4); try done; [by destruct Htorn as [[_ H]|[_ H]]; [left|right]|].
  exists m2. split; [done|]. split; [done|]. split; [done|].
  destruct Htorn as [[-> H]|[Hne H]]; [by apply G3|]. destruct done_; [done|]. by apply G4.
Qed.

(** C32: the forks survive a mount, on a volume without the journal:
    [emmcfs_sync_super] writes them, and the next mount finds the forks of the
    four special files as [emmcfs_form_fork] makes them, and the rest of the
    extended super block as it was. *)
Theorem sync_mount_roundtrip m m0 : quiet m -> blen (superblocks m) = 4096 -> block_size_shift (sb_info m) = shift ->
  journaling (mount_options m) = false ->
  mountable (m_dev m) -> quiet m0 -> m_dev m0 = m_dev (snd (sync_super m)) -> journaling (mount_options m0) = false ->
  exists m2, fst (sync_super m) = Ok 0 /\ mount_reads m0 = (Ok 0, m2) /\
    (forall off i, (off, i) ∈ [(242%nat, catalog_inode is_); (363%nat, extents_inode is_); (512%nat, inode_bitmap_inode is_);
        (633%nat, hlinks_inode is_)] -> 0 <= i_rdev i < 2 ^ 32 -> Forall extent_fits (fork_extents (i_fork i)) ->
      decode_fork (drop off (exsb_of (superblocks m2))) = emmcfs_form_fork shift i) /\
    (forall k n, untouched k n -> part k n (superblocks m2) = part k n (superblocks m)).
Proof using Hs Hset Hshape.
  intros Hq Hp Hshift Hj Hmount Hq0 Hd0 Hj0.
  pose proof (wp_sync_super m Hq Hp Hshift Hj) as W. unfold wp in W. destruct (sync_super m) as [[r|e|] m']; [|done|done].
  cbn [fst snd ok] in W. destruct W as (-> & Ep & _ & _ & l1 & l2 & C1 & C2 & Ed & _). cbn [fst snd] in *.
  destruct (updated_spec _ Hp) as (L & _ & Hok & Hforks & Hrest). rewrite <- Ep in L, Hok, C1, C2, Hforks, Hrest.
  assert (main_exsb (m_dev m') = exsb_of (superblocks m')) as Emain by (rewrite Ed; apply main_exsb_written; [by apply length_exsb_of|done|done]).
  assert (second_torn (m_dev m) (m_dev m') (m_dev m0)) as Htorn.
  { rewrite Hd0. split; [done|]. intros x H1 H2. rewrite Ed. rewrite !dwrite_out; [done|..]; unfold SECTOR_SIZE.
    - by rewrite (proj1 C1).
    - by rewrite (proj1 C2). }
  destruct (torn_blocks _ _ _ (or_intror Htorn)) as (T1 & T2 & _ & T4). specialize (T4 Htorn).
  pose proof (wp_mount_reads m0 Hq0) as W. unfold mountable, chosen_sb in W, Hmount. rewrite T1, T2 in W.
  specialize (W Hmount). rewrite T4, Emain, Hok, Hj0 in W. specialize (W eq_refl ltac:(done)). unfold wp in W.
  destruct (mount_reads m0) as [[r|e|] m2]; [|destruct W|destruct W]. cbn [fst snd ok] in W. destruct W as (-> & _ & _ & _ & _ & L2 & _ & W3). cbn [andb] in W3.
  exists m2. split; [done|]. split; [done|].
  assert (exsb_of (superblocks m2) = exsb_of (superblocks m')) as E by (rewrite W3; unfold chosen_exsb; by rewrite T4, Emain, Hok).
  assert (forall k n, (k + n <= 2048)%nat -> part k n (superblocks m2) = part k n (superblocks m')) as Eparts
    by (intros k n H; by rewrite <- !part_exsb, E by done).
  split; [|intros k n H; rewrite Eparts by (unfold untouched in H; lia); by apply Hrest].
  intros off i Hin Hr He. rewrite E. destruct Hforks as [F1 F2 F3 F4]. destruct Hshape as (H1 & H2 & H3 & H4).
  assert (take 121 (drop off (exsb_of (superblocks m'))) = fork_bytes i /\ fork_shape (i_fork i)) as [Ef Hsh].
  { rewrite !elem_of_cons, elem_of_nil in Hin. destruct Hin as [[= -> ->]|[[= -> ->]|[[= -> ->]|[[= -> ->]|[]]]]];
      (rewrite part_exsb by lia; by split). }
  rewrite <- (take_drop 121 (drop off _)), Ef.
  destruct (form_fork_fits shift i Hr He) as (G1 & G2 & G3 & G4). apply decode_encode_fork; [done|done|done|by apply form_fork_length|done].
Qed.

(** The journal lies between the blocks. *)
Definition journal_between (exsb : list Z) : Prop := 1 <= journal_block exsb /\ journal_block exsb * 8 + 8 <= s_count - 8.

Lemma journal_head_same d d' exsb : journal_between exsb -> (forall x, ~ super_area x -> d' x = d x) ->
  journal_head d' exsb = journal_head d exsb.
Proof using.
  intros [J1 J2] H. unfold journal_head. replace (dread d' (journal_block exsb * 4096) 4) with (dread d (journal_block exsb * 4096) 4); [done|].
  apply dread_ext. intros x Hx. symmetry. apply H. unfold super_area, in_range in *. lia.
Qed.

(** A rolled-back extended super block comes back.  After a crash with the
    journal committed the mount uses the copy, from before the transaction, but
    leaves the first block as the transaction wrote it; a later mount, once
    the restoration has cleared the head of the journal, uses that one with the
    metadata of the copy. *)
Theorem rolled_back_super_returns m : quiet m -> let d := m_dev m in
  mountable d -> sb_ok (main_sb d) = true -> exsb_ok (main_exsb d) = true -> exsb_ok (copy_of_exsb s_count d) = true ->
  journaling (mount_options m) = true -> journal_between (main_exsb d) -> journal_head d (main_exsb d) = true ->
  exists m2, mount_reads m = (Ok 0, m2) /\ exsb_of (superblocks m2) = copy_of_exsb s_count d /\
    forall m3, quiet m3 -> journaling (mount_options m3) = true ->
      (forall x, super_area x -> m_dev m3 x = m_dev m2 x) -> journal_head (m_dev m3) (main_exsb d) = false ->
      exists m4, mount_reads m3 = (Ok 0, m4) /\ exsb_of (superblocks m4) = main_exsb d.
Proof using Hs Hset.
  intros Hq d Hmount Hsb Hmain Hcopy Hj Hbetween Hhead.
  assert (chosen_exsb crc32 s_count d = main_exsb d) as Ec by (unfold chosen_exsb; by rewrite Hmain).
  assert (chosen_copy crc32 s_count d = copy_of_exsb s_count d) as Ecc by (unfold chosen_copy; by rewrite Hcopy).
  assert (journal_placed s_count (main_exsb d)) as Hplaced by (unfold journal_between, journal_placed in *; lia).
  assert (chosen_sb crc32 s_count d = main_sb d) as Esb by (unfold chosen_sb; by rewrite Hsb).
  pose proof (wp_mount_reads m Hq Hmount) as W. fold d in W. rewrite Ec, Ecc, Esb, Hmain, Hj in W.
  specialize (W eq_refl (fun _ => Hplaced)). unfold wp in W.
  destruct (mount_reads m) as [[r|e|] m2]; [|destruct W|destruct W]. cbn [fst snd ok] in W. destruct W as (-> & W1 & W2 & W3 & _ & _ & W5 & W6).
  rewrite (journal_head_same d _ _ Hbetween W5), Hhead in W6. exists m2. split; [done|]. split; [exact W6|].
  intros m3 Hq3 Hj3 Hsame Hno.
  assert (main_exsb (m_dev m3) = main_exsb d) as E1.
  { rewrite <- W1. apply exsb_at_ext. unfold in_range. intros x Hx. apply Hsame. unfold super_area, in_range. lia. }
  assert (main_sb (m_dev m3) = main_sb d) as E2.
  { rewrite <- W3. apply sb_at_ext. unfold in_range. intros x Hx. apply Hsame. unfold super_area, in_range. lia. }
  assert (chosen_exsb crc32 s_count (m_dev m3) = main_exsb d) as Ec3 by (unfold chosen_exsb; by rewrite E1, Hmain).
  assert (mountable (m_dev m3)) as Hmount3.
  { unfold mountable, chosen_sb in *. rewrite E2, Hsb in *. exact Hmount. }
  pose proof (wp_mount_reads m3 Hq3 Hmount3) as W. rewrite Ec3, E1, Hmain, Hj3 in W.
  specialize (W eq_refl (fun _ => Hplaced)). unfold wp in W.
  destruct (mount_reads m3) as [[r|e|] m4]; [|destruct W|destruct W]. cbn [fst snd ok] in W. destruct W as (-> & _ & _ & _ & _ & _ & W7 & W8).
  rewrite (journal_head_same _ _ _ Hbetween W7), Hno in W8. exists m4. split; [reflexivity|exact W8].
Qed.
End sync.

(** ** At work *)

(** A special file without extents. *)
Definition plain_inode (n : Z) : inode := Inode n S_IFREG 0 0 0 0 (ForkInfo 0 0 0 (replicate 9 (Extent 0 0)) 0).
Definition plain_inodes : special_inodes := SpecialInodes (plain_inode 2) (plain_inode 3) (plain_inode 6) (plain_inode 7).

Lemma plain_inodes_shaped : shaped plain_inodes.
Proof. repeat split; simpl; unfold EMMCFS_EXTENTS_COUNT_IN_FORK; lia. Qed.

(** A volume with its four blocks in order; [first] is the first extended one. *)
Definition sound_with (first : list Z) : device :=
  volume_of example_sb first example_sb example_exsb.
Definition sound : device := sound_with example_exsb.

(** Mounted without the journal. *)
Definition mounted_volume : mount :=
  Mount sound [] [] [] 12 false false (geometry_of example_sb) 0 true false (page_at sound 2) (page_at sound 56) [].

Lemma mounted_volume_quiet : quiet mounted_volume.
Proof. constructor; [reflexivity|apply plenty_nil|apply plenty_nil]. Qed.

Lemma sound_mountable : mountable byte_sum 64 sound.
Proof.
  assert (chosen_sb byte_sum 64 sound = example_sb) as E by (vm_compute; reflexivity).
  unfold mountable. rewrite E. split; [vm_compute; reflexivity|]. split; [apply example_bytes; vm_compute; reflexivity|vm_compute; reflexivity].
Qed.

Abbreviation example_sync := (emmcfs_sync_super byte_sum (64 * 512) plain_inodes).
Abbreviation example_reads := (mount_reads byte_sum 64 (fun _ => true)).

(** The power fails when the first block holds zeros. *)
Definition zeroed : device := dwrite sound (3 * 512) (replicate 2560 0).

Lemma interrupted_sync_recovers_witness :
  exists m2, example_reads (to_mount zeroed 0) = (Ok 0, m2) /\ exsb_of (superblocks m2) = example_exsb.
Proof.
  assert (copy_of_exsb 64 sound = example_exsb) as E1 by (vm_compute; reflexivity).
  assert (exsb_ok byte_sum (main_exsb zeroed) = false) as E2 by (vm_compute; reflexivity).
  assert (exsb_ok byte_sum example_exsb = true) as E3 by (vm_compute; reflexivity).
  destruct (interrupted_sync_recovers byte_sum 64 (fun _ => true) ltac:(lia) (fun _ => eq_refl) plain_inodes 12 plain_inodes_shaped
    mounted_volume mounted_volume_quiet (length_page_at _ _) eq_refl eq_refl sound_mountable) as (m' & requests & Em & Es & _ & _ & W).
  { cbn [m_dev mounted_volume]. rewrite E1. exact E3. }
  assert (forall s, s = snd (example_sync mounted_volume) -> map (fun w => (fst w, blen (snd w))) (m_sent s) = [(1536, 2560); (29184, 2560)]) as Esent
    by (intros s ->; vm_compute; reflexivity).
  specialize (Esent m'). rewrite Em in Esent. specialize (Esent eq_refl). rewrite Es in Esent. cbn [m_sent mounted_volume app] in Esent.
  destruct requests as [|w rest]; [discriminate|]. injection Esent as Ew1 Ew2 _.
  destruct (W [] w rest zeroed (to_mount zeroed 0) eq_refl) as (m2 & E & _ & _ & H).
  - intros x Hx. apply dwrite_out. rewrite length_replicate. rewrite Ew1, Ew2 in Hx. exact Hx.
  - apply to_mount_quiet.
  - reflexivity.
  - reflexivity.
  - exists m2. split; [exact E|]. rewrite H, E2. exact E1.
Defined.

Lemma sync_mount_roundtrip_witness :
  exists d m2, d = m_dev (snd (example_sync mounted_volume)) /\ example_reads (to_mount d 0) = (Ok 0, m2) /\
    decode_fork (drop 242 (exsb_of (superblocks m2))) = emmcfs_form_fork 12 (plain_inode 2).
Proof.
  assert (forall d, d = m_dev (snd (example_sync mounted_volume)) -> exists m2, example_reads (to_mount d 0) = (Ok 0, m2) /\
    decode_fork (drop 242 (exsb_of (superblocks m2))) = emmcfs_form_fork 12 (plain_inode 2)) as W.
  { intros d Hd.
    destruct (sync_mount_roundtrip byte_sum 64 (fun _ => true) ltac:(lia) (fun _ => eq_refl) plain_inodes 12 plain_inodes_shaped
      mounted_volume (to_mount d 0) mounted_volume_quiet (length_page_at _ _) eq_refl eq_refl
      sound_mountable (to_mount_quiet _ _) Hd eq_refl) as (m2 & _ & E & H & _).
    exists m2. split; [exact E|]. apply (H 242%nat (plain_inode 2)); [apply list_elem_of_here|split; vm_compute; done|].
    apply Forall_replicate. split; vm_compute; done. }
  destruct (W _ eq_refl) as (m2 & W2). exists (m_dev (snd (example_sync mounted_volume))), m2. split; [reflexivity|exact W2].
Defined.

(** The first extended super block of a transaction that was rolled back: one
    reserved byte differs.  The journal has its magic number in block 2. *)
Definition later_exsb : list Z := sealed (replicate 134 0 ++ le_split 8 2 ++ replicate 1901 0 ++ [5]).
Definition crashed : device := dwrite (sound_with later_exsb) (2 * 4096) (le_split 4 EMMCFS_SNAPSHOT_MAGIC).

Lemma rolled_back_super_returns_witness :
  exists m2, example_reads (to_mount crashed 1) = (Ok 0, m2) /\ exsb_of (superblocks m2) = example_exsb /\
    exists m4, example_reads (to_mount (dwrite (m_dev m2) (2 * 4096) (replicate 4 0)) 1) = (Ok 0, m4) /\
      exsb_of (superblocks m4) = later_exsb.
Proof.
  assert (chosen_sb byte_sum 64 crashed = example_sb) as E by (vm_compute; reflexivity).
  assert (main_exsb crashed = later_exsb) as E1 by (vm_compute; reflexivity).
  assert (copy_of_exsb 64 crashed = example_exsb) as E2 by (vm_compute; reflexivity).
  destruct (rolled_back_super_returns byte_sum 64 (fun _ => true) ltac:(lia) (fun _ => eq_refl) (to_mount crashed 1) (to_mount_quiet _ _))
    as (m2 & Em & H1 & H2); cbn [m_dev to_mount].
  - unfold mountable. rewrite E. split; [vm_compute; reflexivity|]. split; [apply example_bytes; vm_compute; reflexivity|vm_compute; reflexivity].
  - vm_compute. reflexivity.
  - rewrite E1. vm_compute. reflexivity.
  - rewrite E2. vm_compute. reflexivity.
  - reflexivity.
  - rewrite E1. split; vm_compute; discriminate.
  - rewrite E1. vm_compute. reflexivity.
  - cbn [m_dev to_mount] in H1, H2. rewrite E2 in H1. rewrite E1 in H2. exists m2. split; [exact Em|]. split; [exact H1|].
    apply (H2 (to_mount (dwrite (m_dev m2) (2 * 4096) (replicate 4 0)) 1) (to_mount_quiet _ _) eq_refl).
    + intros x Hx. apply dwrite_out. unfold super_area, in_range in *. rewrite length_replicate. lia.
    + unfold journal_head. change (journal_block later_exsb) with 2. cbn [m_dev to_mount].
      assert (dread (dwrite (m_dev m2) (2 * 4096) (replicate 4 0)) (2 * 4096) 4 = replicate 4 0) as ->
        by apply (dread_dwrite _ _ (replicate 4 0)). vm_compute. reflexivity.
Defined.
