(* ===== verification/Options.v ===== *)
(** * The mount options (options.c)

    [emmcfs_parse_options] cuts the text at the commas and applies one option
    after the other.  The recognition of an option is the kernel's
    [match_token]: it gives the token of the first pattern of the table that
    matches, and stores what a [%] stands for into [args]; [match_int] reads a
    number from there. *)

From stdpp Require Import strings.
From S2P Require Import Prelude Monad Data Snapshot Super.
Open Scope Z_scope.

(** ** Data *)
Inductive token := option_nojournal | option_novercheck | option_btreecheck | option_readonly | option_count | option_error.

#[export] Instance token_eq_dec : EqDecision token.
Proof. solve_decision. Defined.

(** [sbi->mount_options], [MS_RDONLY] and [sbi->bugon_count] *)
Record settings := Settings { options : Z; rdonly : bool; bugon_count : Z }.

Definition change_options (f : Z -> Z) (s : settings) : settings := Settings (f (options s)) (rdonly s) (bugon_count s).
Definition set_readonly (s : settings) : settings := Settings (options s) true (bugon_count s).
Definition set_bugon_count n (s : settings) : settings := Settings (options s) (rdonly s) n.

(** The pieces that the calls of [strsep] with "," give. *)
Definition comma : Ascii.ascii := Ascii.ascii_of_nat 44.
Fixpoint strsep_all (s : string) : list string :=
  match s with
  | EmptyString => [EmptyString]
  | String c s =>
    let pieces := strsep_all s in
    if decide (c = comma) then EmptyString :: pieces
    else match pieces with
         | [] => [String c EmptyString]
         | p :: pieces => String c p :: pieces
         end
  end.

Section options.
(** [match_token] with the table [tokens], and [match_int]: the arguments that a
    pattern stores, and the number they hold. *)
Context {args : Type} (match_token : string -> token * option args) (match_int : args -> option Z).
Abbreviation F := (St settings).

(** The case of [option_count], into which that of [option_readonly] falls. *)
Definition read_count (a : args) : F unit :=
  match match_int a with
  | None => bug
  | Some n => modify (set_bugon_count (s32 n))
  end.

(** The loop; [a] is what [args] holds. *)
Fixpoint parse_pieces (a : args) (pieces : list string) : F Z :=
  match pieces with
  | [] => ret 0
  | EmptyString :: pieces => parse_pieces a pieces
  | p :: pieces =>
    let '(t, stored) := match_token p in
    let a := default a stored in
    match t with
    | option_nojournal => do_ modify (change_options (clear_option MOUNT_SNAPSHOT)); parse_pieces a pieces
    | option_novercheck => do_ modify (change_options (clear_option MOUNT_VERCHECK)); parse_pieces a pieces
    | option_btreecheck => do_ modify (change_options (set_option MOUNT_BTREE_CHECK)); parse_pieces a pieces
    | option_readonly => do_ modify set_readonly; do_ read_count a; parse_pieces a pieces
    | option_count => do_ read_count a; parse_pieces a pieces
    | option_error => ret (- EINVAL)
    end
  end.

(** [emmcfs_parse_options]; [a] is the content of the fresh array [args]. *)
Definition emmcfs_parse_options (a : args) (input : option string) : F Z :=
  do_ modify (change_options (set_option MOUNT_SNAPSHOT));
  do_ modify (change_options (set_option MOUNT_VERCHECK));
  match input with
  | None => ret 0
  | Some input => parse_pieces a (strsep_all input)
  end.

(** ** What the options mean *)

(** The token of a piece that is not empty. *)
Definition tokens_of (pieces : list string) : list token :=
  map (fun p => fst (match_token p)) (filter (fun p => p <> EmptyString) pieces).

(** The options that take effect: those before the first unknown one. *)
Fixpoint applied (ts : list token) : list token :=
  match ts with
  | [] | option_error :: _ => []
  | t :: ts => t :: applied ts
  end.

Definition reads_number (t : token) : bool := match t with option_readonly | option_count => true | _ => false end.

Definition has (t : token) (ts : list token) : bool := bool_decide (t ∈ ts).

Lemma has_cons t u ts : has t (u :: ts) = bool_decide (t = u) || has t ts.
Proof using. unfold has. rewrite <- bool_decide_or. by apply bool_decide_ext, elem_of_cons. Qed.

Definition step_option (t : token) (o : Z) : Z :=
  match t with
  | option_nojournal => clear_option MOUNT_SNAPSHOT o
  | option_novercheck => clear_option MOUNT_VERCHECK o
  | option_btreecheck => set_option MOUNT_BTREE_CHECK o
  | _ => o
  end.

(** What the loop leaves for the options [ts]. *)
Definition parsed (ts : list token) (s : settings) (r : outcome Z * settings) : Prop :=
  match r with
  | (Ok e, s') => e = (if has option_error ts then - EINVAL else 0) /\
      options s' = foldl (fun o t => step_option t o) (options s) (applied ts) /\
      rdonly s' = rdonly s || has option_readonly (applied ts) /\
      (existsb reads_number (applied ts) = false -> bugon_count s' = bugon_count s)
  | (Err _, _) => False
  | (Bug, _) => existsb reads_number (applied ts) = true
  end.

Lemma parsed_cons t ts s s1 r : t <> option_error -> options s1 = step_option t (options s) ->
  rdonly s1 = rdonly s || bool_decide (option_readonly = t) -> (reads_number t = false -> bugon_count s1 = bugon_count s) ->
  parsed ts s1 r -> parsed (t :: ts) s r.
Proof using.
  intros Ht Eo Er Eb H. assert (applied (t :: ts) = t :: applied ts) as Ea by (by destruct t).
  unfold parsed in *. destruct r as [[e|e|] s']; [|done|].
  - destruct H as (-> & H1 & H2 & H3). rewrite Ea. cbn [foldl existsb]. rewrite !has_cons, <- Eo, H1, H2, Er.
    rewrite (bool_decide_eq_false_2 (option_error = t)) by done. split; [done|]. split; [done|].
    split; [by rewrite orb_assoc|]. intros [E1 E2]%orb_false_iff. rewrite H3, Eb by done. done.
  - rewrite Ea. cbn [existsb]. rewrite H. apply orb_true_r.
Qed.

Lemma parse_pieces_parsed a pieces s : parsed (tokens_of pieces) s (parse_pieces a pieces s).
Proof using.
  revert a s. unfold tokens_of. induction pieces as [|p pieces IH]; intros a s.
  { split_and!; try done. by rewrite orb_false_r. }
  destruct p as [|c p].
  - rewrite filter_cons_False by (intros H; by apply H). apply IH.
  - rewrite filter_cons_True by done. cbn [map parse_pieces]. destruct (match_token (String c p)) as [t stored]. cbn [fst].
    destruct t; unfold bind, modify, read_count;
      try (eapply parsed_cons; [..|apply IH]; cbn; rewrite ?orb_false_r; done).
    + destruct (match_int (default a stored)) as [n|]; [|done].
      eapply parsed_cons; [..|apply IH]; cbn; rewrite ?orb_true_r; done.
    + destruct (match_int (default a stored)) as [n|]; [|done].
      eapply parsed_cons; [..|apply IH]; cbn; rewrite ?orb_false_r; done.
    + split; [by rewrite has_cons|]. split_and!; try done. by rewrite orb_false_r.
Qed.

(** A flag of the options, as a bit. *)
Lemma test_option_testbit k o : 0 <= k -> test_option (2 ^ k) o = Z.testbit o k.
Proof using.
  intros Hk. unfold test_option. destruct (Z.testbit o k) eqn:E.
  - rewrite (proj2 (Z.eqb_neq _ 0)); [done|]. intros H. apply (f_equal (fun x => Z.testbit x k)) in H.
    rewrite Z.land_spec, E, Z.pow2_bits_true, Z.testbit_0_l in H by lia. done.
  - rewrite (proj2 (Z.eqb_eq _ 0)); [done|]. apply Z.bits_inj'. intros n Hn. rewrite Z.land_spec, Z.testbit_0_l.
    destruct (Z.eq_dec n k) as [->|Hne]; [by rewrite E|]. rewrite Z.pow2_bits_false by lia. apply andb_false_r.
Qed.

Lemma step_option_bit k t o : 0 <= k -> Z.testbit (step_option t o) k =
  match t with
  | option_nojournal => Z.testbit o k && negb (k =? 0)
  | option_novercheck => Z.testbit o k && negb (k =? 8)
  | option_btreecheck => Z.testbit o k || (k =? 12)
  | _ => Z.testbit o k
  end.
Proof using.
  intros Hk. unfold step_option, clear_option, set_option. destruct t; try done.
  - rewrite Z.land_spec, Z.lnot_spec by done. change MOUNT_SNAPSHOT with (2 ^ 0). by rewrite Z.pow2_bits_eqb, Z.eqb_sym by lia.
  - rewrite Z.land_spec, Z.lnot_spec by done. change MOUNT_VERCHECK with (2 ^ 8). by rewrite Z.pow2_bits_eqb, Z.eqb_sym by lia.
  - rewrite Z.lor_spec. change MOUNT_BTREE_CHECK with (2 ^ 12). by rewrite Z.pow2_bits_eqb, Z.eqb_sym by lia.
Qed.

Lemma options_bits ts o :
  let o' := foldl (fun o t => step_option t o) o ts in
  Z.testbit o' 0 = Z.testbit o 0 && negb (has option_nojournal ts) /\
  Z.testbit o' 8 = Z.testbit o 8 && negb (has option_novercheck ts) /\
  Z.testbit o' 12 = Z.testbit o 12 || has option_btreecheck ts.
Proof using.
  revert o. induction ts as [|t ts IH]; intros o; cbn [foldl].
  - by rewrite !andb_true_r, orb_false_r.
  - destruct (IH (step_option t o)) as (-> & -> & ->). rewrite !step_option_bit by lia. rewrite !has_cons.
    destruct t; cbn [Z.eqb negb orb]; rewrite ?andb_true_r, ?orb_false_r, ?andb_false_r, ?orb_true_r; by split_and!.
Qed.

(** C34: what [emmcfs_parse_options] makes of a text.  When it returns, it has
    accepted the text exactly when every piece that is not empty is known, and
    answers [-EINVAL] to the others; the options before the first unknown piece
    have taken effect, in any order: the journal and the check of versions are
    on unless one of them switches them off, the check of the catalog if one
    asks for it or it was asked for before, the volume is read-only if one says
    so, and the counter stays unless one of them reads a number.  It stops the
    kernel only when one of them ("count=", or "ro") reads a number. *)
Theorem emmcfs_parse_options_correct a input s :
  let ts := tokens_of (strsep_all input) in
  match emmcfs_parse_options a (Some input) s with
  | (Ok e, s') => e = (if has option_error ts then - EINVAL else 0) /\
      test_option MOUNT_SNAPSHOT (options s') = negb (has option_nojournal (applied ts)) /\
      test_option MOUNT_VERCHECK (options s') = negb (has option_novercheck (applied ts)) /\
      test_option MOUNT_BTREE_CHECK (options s') = test_option MOUNT_BTREE_CHECK (options s) || has option_btreecheck (applied ts) /\
      rdonly s' = rdonly s || has option_readonly (applied ts) /\
      (existsb reads_number (applied ts) = false -> bugon_count s' = bugon_count s)
  | (Err _, _) => False
  | (Bug, _) => existsb reads_number (applied ts) = true
  end.
Proof using.
  intros ts. unfold emmcfs_parse_options, bind, modify.
  match goal with |- context [parse_pieces a _ ?s0] => pose proof (parse_pieces_parsed a (strsep_all input) s0) as H end.
  fold ts in H. destruct (parse_pieces _ _ _) as [[e|e|] s']; [|exact H|exact H]. destruct H as (-> & -> & H2 & H3).
  split; [done|]. cbn [options change_options].
  change MOUNT_SNAPSHOT with (2 ^ 0) in *. change MOUNT_VERCHECK with (2 ^ 8) in *. change MOUNT_BTREE_CHECK with (2 ^ 12) in *.
  rewrite !test_option_testbit by lia.
  destruct (options_bits (applied ts) (set_option (2 ^ 8) (set_option (2 ^ 0) (options s)))) as (-> & -> & ->).
  unfold set_option. rewrite !Z.lor_spec, !Z.pow2_bits_eqb by lia. cbn [Z.eqb]. rewrite ?orb_true_r, ?orb_false_r. by split_and!.
Qed.

(** "ro" runs on into the case of "count": a mount with "ro" alone stops the
    kernel unless the memory of [args] happens to hold a number. *)
Theorem ro_reads_a_number a input s : strsep_all input = ["ro"%string] -> match_token "ro" = (option_readonly, None) ->
  match_int a = None -> fst (emmcfs_parse_options a (Some input) s) = Bug.
Proof using.
  intros Hin Hm Ha. unfold emmcfs_parse_options. rewrite Hin. cbn [parse_pieces]. rewrite Hm. cbn [default].
  unfold read_count. by rewrite Ha.
Qed.
End options.

(** ** At work: the table of the source *)
Definition token_of_text (p : string) : token * option (option Z) :=
  if decide (p = "nojournal"%string) then (option_nojournal, None)
  else if decide (p = "novercheck"%string) then (option_novercheck, None)
  else if decide (p = "btreecheck"%string) then (option_btreecheck, None)
  else if decide (p = "ro"%string) then (option_readonly, None)
  else if decide (p = "count=7"%string) then (option_count, Some (Some 7))
  else (option_error, None).

Lemma emmcfs_parse_options_correct_witness :
  (exists s', emmcfs_parse_options token_of_text id None (Some "btreecheck,,nojournal"%string) (Settings 0 false 0) = (Ok 0, s') /\
    test_option MOUNT_SNAPSHOT (options s') = false /\ test_option MOUNT_VERCHECK (options s') = true) /\
  (exists s', emmcfs_parse_options token_of_text id None (Some "nojournal,verbose,novercheck"%string) (Settings 0 false 0) = (Ok (- EINVAL), s') /\
    test_option MOUNT_SNAPSHOT (options s') = false /\ test_option MOUNT_VERCHECK (options s') = true).
Proof.
  pose proof (fun text => emmcfs_parse_options_correct token_of_text id None text (Settings 0 false 0)) as W. split.
  - specialize (W "btreecheck,,nojournal"%string). destruct (emmcfs_parse_options _ _ _ _ _) as [[e|e|] s']; [|done|done].
    destruct W as (-> & W1 & W2 & _). exists s'. split; [reflexivity|]. split; [exact W1|exact W2].
  - specialize (W "nojournal,verbose,novercheck"%string). destruct (emmcfs_parse_options _ _ _ _ _) as [[e|e|] s']; [|done|done].
    destruct W as (-> & W1 & W2 & _). exists s'. split; [reflexivity|]. split; [exact W1|exact W2].
Defined.

Lemma ro_reads_a_number_witness : fst (emmcfs_parse_options token_of_text id None (Some "ro"%string) (Settings 0 false 0)) = Bug.
Proof. apply (ro_reads_a_number token_of_text id None "ro" (Settings 0 false 0)); reflexivity. Defined.
