(* ===== verification/Mount.v ===== *)
(** * Mount and unmount (super.c, snapshot.c)

    [emmcfs_fill_super] builds the mounted volume step by step and, when a step
    fails, takes down what was built by jumping into a chain of labels;
    [emmcfs_put_super] takes all of it down.  The reading of the super blocks and
    the options run as in [Super] and [Options].  Of the other steps the result is
    given ([answer]) and what they leave behind is counted: a resource is an
    object in memory or a reference to an inode.  The configuration is the one
    without [CONFIG_EMMCFS_PROC_INFO]. *)

From stdpp Require Import strings.
From S2P Require Import Prelude Monad Data Snapshot BnodeBytes Fork Cattree Vfs Super Options.
Open Scope Z_scope.

(** ** Sizes *)

(** [emmcfs_build_snapshot_manager]: the pages of the head, the pages for copies,
    and the limit of a transaction, for a journal of [len] blocks. *)
Definition PAGES_PER_HEAD_HISTORY : Z := 1.
Definition head_pages (len shift : Z) : Z :=
  Z.shiftr (u32 (u32 (Z.shiftr len (PAGE_CACHE_SHIFT - shift) * sizeof_transaction) + sizeof_descriptor +
    (Z.shiftl 1 PAGE_CACHE_SHIFT - 1))) PAGE_CACHE_SHIFT.
Definition copy_pages (len shift : Z) : Z :=
  u32 (Z.shiftr (u32 (Z.shiftl len shift)) PAGE_CACHE_SHIFT - head_pages len shift - PAGES_PER_HEAD_HISTORY).
Definition first_limit (len shift max_cattree_height : Z) : Z :=
  u32 (copy_pages len shift - head_pages len shift - 4 * max_cattree_height - 6).

(** [count_max_cattree_height]: the loop, the nodes that fit on the volume, and
    the records of an index node; [pages] is [pages_per_node]. *)
Definition sizeof_index_value : Z := 4.
Definition index_records (node_size_bytes : Z) : Z :=
  (node_size_bytes - sizeof_descr - 4 - sizeof_off) / (sizeof_cattree_key + sizeof_index_value + sizeof_off).
Fixpoint count_levels (fuel : nat) (min_rec_num nodes height : Z) : option Z :=
  match fuel with
  | O => None
  | S fuel => if nodes >? 1 then count_levels fuel min_rec_num (nodes / min_rec_num) (height + 1) else Some height
  end.
Definition count_max_cattree_height (device_bytes pages : Z) : option Z :=
  if 64 <=? PAGE_CACHE_SHIFT + pages then None
  else count_levels 32 (index_records (Z.shiftl pages PAGE_CACHE_SHIFT)) (s32 (Z.shiftr device_bytes (PAGE_CACHE_SHIFT + pages))) 1.

(** [set_up_max_snapshot_height] *)
Definition limit_of_height (len shift btree_height : Z) : Z :=
  u32 (copy_pages len shift - head_pages len shift - 8 * btree_height - 6).

(** ** Resources *)
Inductive tree_kind := ExtentsTree | CatalogTree.
Inductive resource :=
  | Sbi | SuperPages | SnapshotManager | FsmManagement
  | TreeMemory (t : tree_kind) | TreeInode (t : tree_kind)
  | FreeInodeBitmap | RootInode | RootDentry | HlinksInode.

#[export] Instance tree_kind_eq_dec : EqDecision tree_kind.
Proof. solve_decision. Defined.
#[export] Instance resource_eq_dec : EqDecision resource.
Proof. solve_decision. Defined.

(** The calls whose results are given. *)
Inductive call :=
  | KzallocSbi | SnapshotPresent | KzallocSnapshot | KmallocLock | RestoreSnapshot | FsmBuild
  | KzallocTree (t : tree_kind) | IgetTree (t : tree_kind) | FillBtree (t : tree_kind)
  | IgetBitmap | ProcessOrphans | IgetRoot | MakeRoot | IgetHlinks | VerifyTree.

#[export] Instance call_eq_dec : EqDecision call.
Proof. solve_decision. Defined.

(** The volume, [bugon_count], what is held, the last taken first, and a resource
    that was given back without being held; [pages_per_node] of the catalog, the
    limit of a transaction, and [IS_MOUNT_FINISHED]. *)
Record boot := Boot {
  vol : mount;
  bugon : Z;
  held : list resource;
  wrong : option resource;
  cat_pages : Z;
  transaction_limit : Z;
  mount_finished : bool
}.

Definition set_vol v (s : boot) : boot := Boot v (bugon s) (held s) (wrong s) (cat_pages s) (transaction_limit s) (mount_finished s).
Definition set_held h (s : boot) : boot := Boot (vol s) (bugon s) h (wrong s) (cat_pages s) (transaction_limit s) (mount_finished s).
Definition set_wrong r (s : boot) : boot := Boot (vol s) (bugon s) (held s) (Some r) (cat_pages s) (transaction_limit s) (mount_finished s).
Definition set_numbers p l (s : boot) : boot := Boot (vol s) (bugon s) (held s) (wrong s) p l (mount_finished s).
Definition set_finished (s : boot) : boot := Boot (vol s) (bugon s) (held s) (wrong s) (cat_pages s) (transaction_limit s) true.

(** The options are a part of the volume. *)
Definition settings_of (s : boot) : settings := Settings (mount_options (vol s)) (read_only (vol s)) (bugon s).
Definition set_settings (o : settings) (s : boot) : boot :=
  Boot (set_sb_info (sb_info (vol s)) (options o) (set_vfs (s_blocksize_bits (vol s)) (s_dirt (vol s)) (rdonly o) (vol s)))
    (bugon_count o) (held s) (wrong s) (cat_pages s) (transaction_limit s) (mount_finished s).

Abbreviation FB := (St boot).
Definition in_vol {X} (x : St mount X) : FB X := zoom vol set_vol x.
Definition in_settings {X} (x : St settings X) : FB X := zoom settings_of set_settings x.

Definition hold (r : resource) : FB unit := modify (fun s => set_held (r :: held s) s).

(** A pointer that is followed, or an object that is freed; and [iput] of a
    pointer that may be null. *)
Definition release (r : resource) : FB unit := fun s =>
  if decide (r ∈ held s) then (Ok tt, set_held (filter (fun q => q <> r) (held s)) s) else (Bug, set_wrong r s).
Definition put (r : resource) : FB unit := modify (fun s => set_held (filter (fun q => q <> r) (held s)) s).

Section mount.
Context (crc32 : Z -> list Z -> Z) (device_bytes : Z) (sb_set_blocksize : Z -> bool).
Context {args : Type} (match_token : string -> token * option args) (match_int : args -> option Z) (args0 : args).
(** The results of the calls: 0, or an error code. *)
Context (answer : call -> Z).

(** ** Construction *)

(** [emmcfs_build_snapshot_manager]; a failed restoration leaves the manager. *)
Definition emmcfs_build_snapshot_manager : FB Z :=
  do ro <- gets (fun s => read_only (vol s));
  if ro && negb (answer SnapshotPresent =? 0) then ret (- EINVAL)
  else if negb (answer KzallocSnapshot =? 0) then ret (- ENOMEM)
  else if negb (answer KmallocLock =? 0) then ret (- ENOMEM)
  else
    do_ modify (fun s =>
      set_numbers (cat_pages s) (first_limit (block_count (snapshot_extent (exsb_of (superblocks (vol s)))))
        (block_size_shift (sb_info (vol s))) 5) s);
    do_ hold SnapshotManager;
    ret (answer RestoreSnapshot).

(** [fill_btree]: the sizes of the nodes; what it reads is given. *)
Definition fill_btree (t : tree_kind) : FB Z :=
  do g <- gets (fun s => sb_info (vol s));
  let log_pages := u32 (log_blocks_in_leb g + block_size_shift g - PAGE_CACHE_SHIFT) in
  do_ BUG_ON (32 <=? log_pages);
  do_ (match t with
       | CatalogTree => modify (fun s => set_numbers (s32 (Z.shiftl 1 log_pages)) (transaction_limit s) s)
       | ExtentsTree => ret tt
       end);
  ret (answer (FillBtree t)).

(** [emmcfs_fill_ext_tree], [emmcfs_fill_cat_tree]; after a failed [fill_btree]
    the memory of the tree is not freed. *)
Definition fill_tree (t : tree_kind) : FB Z :=
  if negb (answer (KzallocTree t) =? 0) then ret (- ENOMEM)
  else
    do_ hold (TreeMemory t);
    if negb (answer (IgetTree t) =? 0) then do_ release (TreeMemory t); ret (answer (IgetTree t))
    else
      do_ hold (TreeInode t);
      do error <- fill_btree t;
      if negb (error =? 0) then do_ release (TreeInode t); ret error else ret 0.

Definition take_step (c : call) (r : resource) : FB Z :=
  if answer c =? 0 then do_ hold r; ret 0 else ret (answer c).

(** ** Destruction *)
Definition emmcfs_put_btree (t : tree_kind) : FB unit := do_ release (TreeMemory t); release (TreeInode t).
Definition destroy_free_inode_bitmap : FB unit := put FreeInodeBitmap.
Definition emmcfs_destroy_hlinks_area : FB unit := put HlinksInode.
Definition destroy_super : FB unit := put SuperPages.

(** The labels of [emmcfs_fill_super]; [root] says that the variable is not
    null. *)
Definition not_emmcfs_volume : FB unit := release Sbi.
Definition emmcfs_parse_options_error : FB unit := do_ destroy_super; not_emmcfs_volume.
Definition emmcfs_build_snapshot_manager_error : FB unit := emmcfs_parse_options_error.
Definition emmcfs_fsm_create_error : FB unit := do_ release SnapshotManager; emmcfs_build_snapshot_manager_error.
Definition emmcfs_fill_ext_tree_error : FB unit := do_ release FsmManagement; emmcfs_fsm_create_error.
Definition emmcfs_fill_cat_tree_error : FB unit := do_ emmcfs_put_btree ExtentsTree; emmcfs_fill_ext_tree_error.
Definition build_free_inode_bitmap_error : FB unit := do_ emmcfs_put_btree CatalogTree; emmcfs_fill_cat_tree_error.
Definition process_orphan_inodes_error : FB unit := do_ destroy_free_inode_bitmap; build_free_inode_bitmap_error.
Definition d_alloc_root_err (root : bool) : FB unit :=
  do_ (if root then release RootInode else ret tt); process_orphan_inodes_error.
Definition emmcfs_hlinks_area_err : FB unit := do_ release RootDentry; d_alloc_root_err false.

(** [if (ret) goto label;] *)
Definition or_goto (x : FB Z) (label : FB unit) (rest : FB Z) : FB Z :=
  do error <- x; if negb (error =? 0) then do_ label; ret error else rest.

(** ** [emmcfs_fill_super] *)

(** The limit of a transaction with the height of the catalog; a shift by 64 and
    more is undefined. *)
Definition set_up_max_snapshot_height : FB unit :=
  do s <- gets id;
  match count_max_cattree_height device_bytes (cat_pages s) with
  | None => bug
  | Some height =>
    modify (set_numbers (cat_pages s) (limit_of_height (block_count (snapshot_extent (exsb_of (superblocks (vol s)))))
      (block_size_shift (sb_info (vol s))) (height + 1)))
  end.

(** One more mount, and the flags that ask for the super block to be written. *)
Definition count_mount (m : mount) : mount :=
  let p := store 754 (le_split 4 (u32 (exsb_mount_counter (exsb_of (superblocks m)) + 1))) (superblocks m) in
  let m := set_pages p (superblocks_copy m) m in
  if test_option MOUNT_SNAPSHOT (mount_options m) then set_dirty_flags (exsb_dirty m) true m
  else set_vfs (s_blocksize_bits m) true (read_only m) (set_dirty_flags true (exsb_dirty_snapshot m) m).

(** The last part, from the root directory on. *)
Definition fill_root : FB Z :=
  or_goto (take_step IgetRoot RootInode) process_orphan_inodes_error
  (do_ release RootInode;
   or_goto (if answer MakeRoot =? 0 then do_ hold RootDentry; ret 0 else ret (- EINVAL)) (d_alloc_root_err true)
   (or_goto (take_step IgetHlinks HlinksInode) emmcfs_hlinks_area_err
    (do_ set_up_max_snapshot_height;
     do v <- gets vol;
     or_goto (ret (if test_option MOUNT_BTREE_CHECK (mount_options v) then answer VerifyTree else 0)) emmcfs_hlinks_area_err
     (do_ (if read_only v then ret tt else modify (fun s => set_vol (count_mount (vol s)) s));
      do_ modify set_finished;
      ret 0)))).

(** The trees and the bitmap of the inode numbers. *)
Definition fill_trees : FB Z :=
  or_goto (fill_tree ExtentsTree) emmcfs_fill_ext_tree_error
  (or_goto (fill_tree CatalogTree) emmcfs_fill_cat_tree_error
   (do ro <- gets (fun s => read_only (vol s));
    if ro then fill_root
    else
      or_goto (take_step IgetBitmap FreeInodeBitmap) build_free_inode_bitmap_error
      (or_goto (ret (answer ProcessOrphans)) process_orphan_inodes_error fill_root))).

(** The journal and the free-space manager. *)
Definition fill_managers : FB Z :=
  or_goto emmcfs_build_snapshot_manager emmcfs_build_snapshot_manager_error
  (do ro <- gets (fun s => read_only (vol s));
   or_goto (if ro then ret 0 else take_step FsmBuild FsmManagement) emmcfs_fsm_create_error fill_trees).

(** [emmcfs_sb_read] keeps its pages when it succeeds. *)
Definition read_super_block : FB Z :=
  do error <- in_vol (emmcfs_sb_read crc32 device_bytes sb_set_blocksize);
  if error =? 0 then do_ hold SuperPages; ret 0 else ret error.

Definition emmcfs_fill_super (data : option string) : FB Z :=
  if negb (answer KzallocSbi =? 0) then ret (- ENOMEM)
  else
    do_ hold Sbi;
    or_goto (do error <- in_settings (emmcfs_parse_options match_token match_int args0 data);
             ret (if error =? 0 then 0 else - EINVAL)) emmcfs_parse_options_error
    (or_goto (in_vol (emmcfs_volume_check crc32 device_bytes)) not_emmcfs_volume
     (or_goto read_super_block emmcfs_parse_options_error
      (or_goto (in_vol (emmcfs_extended_sb_read crc32 device_bytes)) emmcfs_parse_options_error
       fill_managers))).

(** ** [emmcfs_put_super]

    The root of the dentries is dropped by the kernel before. *)
Definition drop_root : FB unit := put RootDentry.

Definition emmcfs_put_super (is_ : special_inodes) : FB unit :=
  do_ emmcfs_put_btree CatalogTree;
  do_ emmcfs_put_btree ExtentsTree;
  do v <- gets vol;
  do_ (if read_only v then ret tt
       else do_ destroy_free_inode_bitmap; do_ release SnapshotManager; release FsmManagement);
  do_ emmcfs_destroy_hlinks_area;
  do v <- gets vol;
  do_ (if s_dirt v || exsb_dirty v then in_vol (emmcfs_write_super crc32 device_bytes is_) else ret tt);
  do_ destroy_super;
  release Sbi.
End mount.
