(* ===== verification/MountTheorems.v ===== *)
(** * Mount and unmount: theorems

    A failed mount gives back what it had taken, except on the paths where the
    source goes wrong; an unmount gives back what the mount has left. *)

From stdpp Require Import strings.
From S2P Require Import Prelude Monad Data Snapshot BnodeBytes Fork Cattree Vfs Super SuperTheorems SuperSync Options Mount.
Open Scope Z_scope.

(** ** Computations that do not touch [MS_RDONLY] and answer with a code *)
Section steady.
Context {S : Type} (ro : S -> bool).

Definition steady {X} (x : St S X) : Prop := forall s, ro (snd (x s)) = ro s /\ forall e, fst (x s) <> Err e.

Lemma steady_ret {X} (a : X) : steady (ret a).
Proof using. by intros s. Qed.
Lemma steady_bug {X} : steady (@bug S X).
Proof using. by intros s. Qed.
Lemma steady_gets {X} (f : S -> X) : steady (gets f).
Proof using. by intros s. Qed.
Lemma steady_modify f : (forall s, ro (f s) = ro s) -> steady (modify f).
Proof using. intros H s. by split; [apply H|]. Qed.
Lemma steady_BUG_ON c : steady (@BUG_ON S c).
Proof using. by destruct c. Qed.
Lemma steady_bind {X Y} (x : St S X) (f : X -> St S Y) : steady x -> (forall a, steady (f a)) -> steady (bind x f).
Proof using.
  intros Hx Hf s. destruct (Hx s) as [H1 H2]. unfold bind. destruct (x s) as [[a|e|] s']; cbn [fst snd] in *.
  - destruct (Hf a s') as [H3 H4]. by rewrite H3.
  - by destruct (H2 e).
  - by split.
Qed.
End steady.

Create HintDb steady.
#[local] Hint Resolve steady_ret steady_bug steady_gets steady_BUG_ON : steady.

(** Steps through a computation. *)
Ltac steady :=
  repeat first
    [ progress (auto with steady)
    | apply steady_bind; [|intros ?]
    | apply steady_modify; by intros []
    | case_match ].

Section readers.
Context (crc32 : Z -> list Z -> Z) (device_bytes : Z) (sb_set_blocksize : Z -> bool).
Abbreviation quietly := (steady (X := _) read_only).

Lemma alloc_page_steady : quietly alloc_page.
Proof using. intros m. unfold alloc_page. by destruct (alloc (m_mem m)). Qed.
Lemma trylock_steady : quietly trylock_page.
Proof using. intros m. unfold trylock_page. by destruct (alloc (m_trylock m)). Qed.
Lemma read_page_steady p a n o : quietly (read_page device_bytes p a n o).
Proof using. intros m. unfold read_page. by destruct (emmcfs_read_page _ _ _ _ _ _ _ _) as [[r q] i]. Qed.
Lemma write_page_steady p a n o : quietly (write_page device_bytes p a n o).
Proof using. intros m. unfold write_page. destruct (emmcfs_write_page _ _ _ _ _ _ _) as [[r q] i]. cbn. by destruct (r =? 0). Qed.
#[local] Hint Resolve alloc_page_steady trylock_steady read_page_steady write_page_steady : steady.

Lemma volume_check_steady : quietly (emmcfs_volume_check crc32 device_bytes).
Proof using. unfold emmcfs_volume_check. steady. Qed.

Lemma fill_steady esb : quietly (fill_runtime_superblock device_bytes sb_set_blocksize esb).
Proof using. unfold fill_runtime_superblock, shift_one, change_geometry. steady. Qed.
#[local] Hint Resolve fill_steady : steady.

Lemma sb_read_steady : quietly (emmcfs_sb_read crc32 device_bytes sb_set_blocksize).
Proof using. unfold emmcfs_sb_read. steady. Qed.

Lemma restore_exsb_steady : quietly (emmcfs_restore_exsb device_bytes).
Proof using. unfold emmcfs_restore_exsb. steady. Qed.
#[local] Hint Resolve restore_exsb_steady : steady.

Lemma extended_sb_read_steady : quietly (emmcfs_extended_sb_read crc32 device_bytes).
Proof using. unfold emmcfs_extended_sb_read. steady. Qed.

Lemma sync_fs_steady is_ : quietly (emmcfs_sync_fs crc32 device_bytes is_).
Proof using.
  unfold emmcfs_sync_fs, emmcfs_sync_super, emmcfs_sync_first_super, emmcfs_sync_second_super, sync_to, update_super_forks.
  steady.
Qed.
#[local] Hint Resolve sync_fs_steady : steady.

Lemma write_super_steady is_ : quietly (emmcfs_write_super crc32 device_bytes is_).
Proof using.
  intros m. unfold emmcfs_write_super. unfold bind at 1 3, gets. destruct (read_only m) eqn:E; [by split|].
  rewrite <- E. apply (steady_bind read_only (emmcfs_sync_fs crc32 device_bytes is_)); [apply sync_fs_steady|].
  intros a. apply steady_ret.
Qed.
End readers.

(** ** Steps of a mount *)
Section mount.
Context (crc32 : Z -> list Z -> Z) (device_bytes : Z) (sb_set_blocksize : Z -> bool).
Context {args : Type} (match_token : string -> token * option args) (match_int : args -> option Z) (args0 : args).
Context (answer : call -> Z).
Implicit Types (s : boot) (L : list resource).

Abbreviation is_ro := (fun s : boot => read_only (vol s)).

Lemma in_vol_steady {X} (x : St mount X) : steady read_only x -> steady is_ro (in_vol x).
Proof using.
  intros H s. unfold in_vol, zoom. destruct (H (vol s)) as [H1 H2]. by destruct (x (vol s)) as [r m].
Qed.

Lemma hold_steady r : steady is_ro (hold r).
Proof using. by intros s. Qed.
Lemma put_steady r : steady is_ro (put r).
Proof using. by intros s. Qed.
Lemma release_steady r : steady is_ro (release r).
Proof using. intros s. unfold release. by destruct (decide _). Qed.
#[local] Hint Resolve hold_steady put_steady release_steady : steady.

Lemma or_goto_steady x label rest : steady is_ro x -> steady is_ro label -> steady is_ro rest -> steady is_ro (or_goto x label rest).
Proof using. intros H1 H2 H3. unfold or_goto. apply steady_bind; [done|]. intros e. destruct (negb (e =? 0)); [|done]. steady. Qed.

Lemma put_btree_steady t : steady is_ro (emmcfs_put_btree t).
Proof using. unfold emmcfs_put_btree. steady. Qed.
#[local] Hint Resolve put_btree_steady : steady.

Lemma labels_steady :
  steady is_ro not_emmcfs_volume /\ steady is_ro emmcfs_parse_options_error /\ steady is_ro emmcfs_fsm_create_error /\
  steady is_ro emmcfs_fill_ext_tree_error /\ steady is_ro emmcfs_fill_cat_tree_error /\ steady is_ro build_free_inode_bitmap_error /\
  steady is_ro process_orphan_inodes_error /\ (forall b, steady is_ro (d_alloc_root_err b)) /\ steady is_ro emmcfs_hlinks_area_err.
Proof using.
  unfold emmcfs_hlinks_area_err, d_alloc_root_err, process_orphan_inodes_error, build_free_inode_bitmap_error,
    emmcfs_fill_cat_tree_error, emmcfs_fill_ext_tree_error, emmcfs_fsm_create_error, emmcfs_build_snapshot_manager_error,
    emmcfs_parse_options_error, not_emmcfs_volume, destroy_super, destroy_free_inode_bitmap.
  split_and!; intros; steady.
Qed.

(** ** What is held *)

(** After a mount; the last taken first. *)
Definition mounted_resources (ro : bool) : list resource :=
  [HlinksInode; RootDentry] ++ (if ro then [] else [FreeInodeBitmap]) ++
  [TreeInode CatalogTree; TreeMemory CatalogTree; TreeInode ExtentsTree; TreeMemory ExtentsTree] ++
  (if ro then [] else [FsmManagement]) ++ [SnapshotManager; SuperPages; Sbi].

(** The step [x] turns the resources [L] into [L'], or with an error, where
    [tidy] holds, into [E]. *)
Definition turns (tidy : Prop) ro L L' E (x : FB Z) : Prop := forall s, held s = L -> wrong s = None -> read_only (vol s) = ro ->
  wp x s (fun r s' => read_only (vol s') = ro /\ wrong s' = None /\
    match r with Ok e => if e =? 0 then held s' = L' else tidy -> held s' = E | Err _ => False | Bug => True end).

(** The cleaning from a label on. *)
Definition clears L (x : FB unit) : Prop := forall s, held s = L -> wrong s = None ->
  wp x s (ok (fun _ s' => held s' = [] /\ wrong s' = None)).

(** A part of the mount: success leaves everything in place; an error, or a
    stop of the kernel, leaves nothing wrong where [tidy] holds. *)
Definition unwinds (tidy : Prop) ro L (x : FB Z) : Prop := forall s, held s = L -> wrong s = None -> read_only (vol s) = ro ->
  wp x s (fun r s' => read_only (vol s') = ro /\ (tidy -> wrong s' = None) /\
    match r with Ok e => if e =? 0 then held s' = mounted_resources ro else tidy -> held s' = [] | Err _ => False | Bug => True end).

Lemma unwinds_or_goto (tidy : Prop) ro L L' E x label rest : turns tidy ro L L' E x -> steady is_ro label -> (tidy -> clears E label) ->
  unwinds tidy ro L' rest -> unwinds tidy ro L (or_goto x label rest).
Proof using.
  intros Hx Hlabel Hclear Hrest s H1 H2 H3. unfold or_goto. apply wp_bind. eapply wp_mono; [by apply Hx|].
  intros r s1 (R1 & R2 & R3). destruct r as [e|e|]; [|done|done]. destruct (Z.eqb_spec e 0) as [->|Hne]; cbn [negb].
  - by apply Hrest.
  - destruct (Hlabel s1) as [K1 K2]. apply wp_bind. unfold wp.
    assert (tidy -> ok (fun _ s' => held s' = [] /\ wrong s' = None) (fst (label s1)) (snd (label s1))) as Hc
      by (intros T; by apply (Hclear T s1 (R3 T))).
    destruct (fst (label s1)) as [u|e'|]; [|by destruct (K2 e')|].
    + cbn [ret fst snd]. rewrite K1, (proj2 (Z.eqb_neq e 0) Hne). split; [done|].
      split; intros T; apply (Hc T).
    + rewrite K1. split; [done|]. split; [|done]. intros T. by destruct (Hc T).
Qed.

Lemma dropped r L : r ∉ L -> filter (fun q => q <> r) (r :: L) = L.
Proof using.
  intros Hn. rewrite filter_cons_False by (intros K; by apply K). induction L as [|q L IH]; [done|].
  rewrite filter_cons_True by (intros ->; apply Hn; left). f_equal. apply IH. intros H. apply Hn. by right.
Qed.

(** *** Cleaning *)
Lemma clears_release r L L' x : r ∈ L -> filter (fun q => q <> r) L = L' -> clears L' x -> clears L (do_ release r; x).
Proof using.
  intros H1 H2 Hx s E W. subst L. apply wp_bind. unfold wp, release. rewrite decide_True by done. cbn [fst snd].
  apply Hx; [exact H2|exact W].
Qed.

Lemma clears_put r L L' x : filter (fun q => q <> r) L = L' -> clears L' x -> clears L (do_ put r; x).
Proof using. intros H Hx s E W. subst L. apply wp_modify, Hx; [exact H|exact W]. Qed.

Lemma clears_assoc L (x y z : FB unit) : clears L (do_ x; do_ y; z) -> clears L (do_ (do_ x; y); z).
Proof using.
  intros H s E W. specialize (H s E W). unfold wp, bind in *. by destruct (x s) as [[a|e|] s1].
Qed.

Lemma clears_last : clears [Sbi] not_emmcfs_volume.
Proof using.
  intros s E W. unfold not_emmcfs_volume, wp, release. rewrite E. rewrite decide_True by left. cbn [ok fst snd]. by split.
Qed.

Ltac member := apply (bool_decide_unpack _); vm_compute; exact I.
Ltac clean := first
  [ eapply clears_release; [member|vm_compute; reflexivity|]
  | eapply clears_put; [vm_compute; reflexivity|]
  | apply clears_assoc ].

Definition pages_held : list resource := [SuperPages; Sbi].
Definition snapshot_held : list resource := SnapshotManager :: pages_held.
Definition fsm_held : list resource := FsmManagement :: snapshot_held.
Definition trees_held (held : list resource) : list resource :=
  TreeInode CatalogTree :: TreeMemory CatalogTree :: TreeInode ExtentsTree :: TreeMemory ExtentsTree :: held.

Lemma clears_options L : L = [Sbi] \/ L = pages_held -> clears L emmcfs_parse_options_error.
Proof using. unfold emmcfs_parse_options_error, destroy_super. intros [->| ->]; clean; apply clears_last. Qed.

Lemma clears_fsm_create : clears snapshot_held emmcfs_fsm_create_error.
Proof using. unfold emmcfs_fsm_create_error. clean. apply clears_options. by right. Qed.

Lemma clears_fill_ext : clears fsm_held emmcfs_fill_ext_tree_error.
Proof using. unfold emmcfs_fill_ext_tree_error. clean. apply clears_fsm_create. Qed.

Lemma clears_fill_cat : clears (TreeInode ExtentsTree :: TreeMemory ExtentsTree :: fsm_held) emmcfs_fill_cat_tree_error.
Proof using. unfold emmcfs_fill_cat_tree_error, emmcfs_put_btree. do 3 clean. apply clears_fill_ext. Qed.

Lemma clears_bitmap : clears (trees_held fsm_held) build_free_inode_bitmap_error.
Proof using. unfold build_free_inode_bitmap_error, emmcfs_put_btree. do 3 clean. apply clears_fill_cat. Qed.

Lemma clears_orphan : clears (FreeInodeBitmap :: trees_held fsm_held) process_orphan_inodes_error.
Proof using. unfold process_orphan_inodes_error, destroy_free_inode_bitmap. clean. apply clears_bitmap. Qed.

Lemma clears_hlinks : clears (RootDentry :: FreeInodeBitmap :: trees_held fsm_held) emmcfs_hlinks_area_err.
Proof using.
  unfold emmcfs_hlinks_area_err, d_alloc_root_err. clean. intros s E W. apply wp_bind, wp_ret. by apply clears_orphan.
Qed.

(** *** Building *)
Lemma turns_take_step tidy ro L c r : turns tidy ro L (r :: L) L (take_step answer c r).
Proof using.
  intros s H1 H2 H3. unfold take_step. destruct (Z.eqb_spec (answer c) 0) as [E|E].
  - apply wp_modify, wp_ret. cbn. by rewrite H1.
  - apply wp_ret. split; [done|]. split; [done|]. by rewrite (proj2 (Z.eqb_neq _ 0) E).
Qed.

Lemma turns_ret (tidy : Prop) ro L e : turns tidy ro L L L (ret e).
Proof using. intros s H1 H2 H3. apply wp_ret. split; [done|]. split; [done|]. by destruct (e =? 0). Qed.

Lemma turns_refuse (tidy : Prop) ro L L' e : e <> 0 -> turns tidy ro L L' L (ret e).
Proof using. intros E s H1 H2 H3. apply wp_ret. split; [done|]. split; [done|]. by rewrite (proj2 (Z.eqb_neq _ 0) E). Qed.

Lemma turns_in_vol (tidy : Prop) ro L x : steady read_only x -> turns tidy ro L L L (in_vol x).
Proof using.
  intros Hx s H1 H2 H3. destruct (in_vol_steady x Hx s) as [K1 K2]. unfold wp. rewrite K1. split; [done|].
  unfold in_vol, zoom in *. destruct (x (vol s)) as [[e|e|] v]; cbn [fst snd set_vol held wrong] in *.
  - split; [done|]. by destruct (e =? 0).
  - by destruct (K2 e).
  - by split.
Qed.

(** Where the source cleans up after itself: read-write, and none of the four
    steps fails whose failure it treats wrongly. *)
Definition tidy (ro : bool) : Prop := ro = false /\ answer RestoreSnapshot = 0 /\ answer (FillBtree ExtentsTree) = 0 /\
  answer (FillBtree CatalogTree) = 0 /\ answer MakeRoot = 0 /\ answer VerifyTree = 0.

Lemma turns_fill_tree ro L t : TreeMemory t ∉ L ->
  turns (tidy ro) ro L (TreeInode t :: TreeMemory t :: L) L (fill_tree answer t).
Proof using.
  intros Hn s H1 H2 H3. unfold fill_tree. destruct (Z.eqb_spec (answer (KzallocTree t)) 0) as [E1|E1]; cbn [negb].
  2: { apply wp_ret. split; [done|]. split; [done|]. intros _. exact H1. }
  apply wp_modify. destruct (Z.eqb_spec (answer (IgetTree t)) 0) as [E2|E2]; cbn [negb].
  2: { apply wp_bind. unfold wp, release. rewrite decide_True by (cbn; left). cbn [fst snd ret].
    split; [done|]. split; [done|]. rewrite (proj2 (Z.eqb_neq _ 0) E2). intros _. cbn [set_held held].
    rewrite H1. by apply dropped. }
  apply wp_modify. unfold fill_btree. apply wp_bind, wp_gets. apply wp_bind.
  unfold BUG_ON. match goal with |- wp (if ?c then _ else _) _ _ => destruct c; [done|] end.
  apply wp_ret. apply wp_bind.
  eapply (wp_mono _ _ (fun r s' => r = Ok tt /\ held s' = TreeInode t :: TreeMemory t :: L /\ wrong s' = None /\ read_only (vol s') = ro)).
  { destruct t; [apply wp_ret|]; cbn; by rewrite H1. }
  intros r s1 (-> & K1 & K2 & K3). apply wp_ret. destruct (Z.eqb_spec (answer (FillBtree t)) 0) as [E3|E3]; cbn [negb].
  - apply wp_ret. by cbn.
  - apply wp_bind. unfold wp, release. rewrite decide_True by (rewrite K1; left). cbn [fst snd ret].
    split; [done|]. split; [done|]. rewrite (proj2 (Z.eqb_neq _ 0) E3). intros (_ & _ & T1 & T2 & _). by destruct t.
Qed.

Lemma turns_snapshot ro L : turns (tidy ro) ro L (SnapshotManager :: L) L (emmcfs_build_snapshot_manager answer).
Proof using.
  intros s H1 H2 H3. unfold emmcfs_build_snapshot_manager. apply wp_gets.
  match goal with |- wp (if ?c then _ else _) _ _ => destruct c; [by apply (turns_refuse (tidy ro) ro L)|] end.
  match goal with |- wp (if ?c then _ else _) _ _ => destruct c; [by apply (turns_refuse (tidy ro) ro L)|] end.
  match goal with |- wp (if ?c then _ else _) _ _ => destruct c; [by apply (turns_refuse (tidy ro) ro L)|] end.
  apply wp_modify, wp_modify, wp_ret. cbn. rewrite H1. split; [done|]. split; [done|].
  destruct (Z.eqb_spec (answer RestoreSnapshot) 0) as [E|E]; [done|]. intros (_ & T & _). done.
Qed.

Lemma turns_super_block (tidy : Prop) ro L : turns tidy ro L (SuperPages :: L) L (read_super_block crc32 device_bytes sb_set_blocksize).
Proof using.
  intros s H1 H2 H3. unfold read_super_block. apply wp_bind.
  eapply wp_mono; [by apply (turns_in_vol tidy ro L), H3; [apply sb_read_steady|..]|].
  intros r s1 (K1 & K2 & K3). destruct r as [e|e|]; [|done|done]. destruct (Z.eqb_spec e 0) as [->|E].
  - apply wp_modify, wp_ret. cbn. by rewrite K3.
  - apply wp_ret. split; [done|]. split; [done|]. by rewrite (proj2 (Z.eqb_neq e 0) E).
Qed.

(** ** The mount, from its end *)

(** A step that changes nothing of what is held. *)
Lemma unwinds_keep {X} (tidy : Prop) (ro : bool) L (x : FB X) (f : X -> FB Z) :
  (forall s, wp x s (fun r s' => held s' = held s /\ wrong s' = wrong s /\ read_only (vol s') = read_only (vol s) /\
    match r with Ok a => unwinds tidy ro L (f a) | Err _ => False | Bug => True end)) ->
  unwinds tidy ro L (bind x f).
Proof using.
  intros Hx s H1 H2 H3. apply wp_bind. eapply wp_mono; [apply Hx|]. intros r s' (K1 & K2 & K3 & K4).
  destruct r as [a|e|]; [|done|].
  - apply K4; congruence.
  - split; [congruence|]. split; [|done]. congruence.
Qed.

Lemma unwinds_release (tidy : Prop) ro L L' r x : r ∈ L -> filter (fun q => q <> r) L = L' -> unwinds tidy ro L' x ->
  unwinds tidy ro L (do_ release r; x).
Proof using.
  intros Hin <- H s H1 H2 H3. apply wp_bind. unfold wp, release. rewrite H1, decide_True by done. cbn [fst snd].
  by apply H.
Qed.

Lemma turns_given (tidy : Prop) ro L E e : (tidy -> e = 0) -> turns tidy ro L L E (ret e).
Proof using.
  intros Ht s H1 H2 H3. apply wp_ret. split; [done|]. split; [done|]. destruct (Z.eqb_spec e 0) as [->|Hne]; [done|].
  intros T. by destruct Hne; apply Ht.
Qed.

Definition before_root (ro : bool) : list resource :=
  (if ro then [] else [FreeInodeBitmap]) ++ trees_held ((if ro then [] else [FsmManagement]) ++ snapshot_held).

Lemma turns_make_root ro L : turns (tidy ro) ro L (RootDentry :: L) (RootInode :: L)
  (if answer MakeRoot =? 0 then do_ hold RootDentry; ret 0 else ret (- EINVAL)).
Proof using.
  intros s H1 H2 H3. destruct (Z.eqb_spec (answer MakeRoot) 0) as [E|E].
  - apply wp_modify, wp_ret. cbn. by rewrite H1.
  - apply wp_ret. split; [done|]. split; [done|]. by intros (_ & _ & _ & _ & T & _).
Qed.

Lemma unwinds_end ro m : m = mounted_resources ro ->
  unwinds (tidy ro) ro m
    (do_ set_up_max_snapshot_height device_bytes;
     do v <- gets vol;
     or_goto (ret (if test_option MOUNT_BTREE_CHECK (mount_options v) then answer VerifyTree else 0)) emmcfs_hlinks_area_err
     (do_ (if read_only v then ret tt else modify (fun s => set_vol (count_mount (vol s)) s));
      do_ modify set_finished;
      ret 0)).
Proof using.
  intros ->. pose proof labels_steady as (_ & _ & _ & _ & _ & _ & _ & _ & S9). apply unwinds_keep. intros s.
  apply (wp_mono _ _ (fun r s' => held s' = held s /\ wrong s' = wrong s /\ read_only (vol s') = read_only (vol s) /\ forall e, r <> Err e)).
  { unfold set_up_max_snapshot_height. apply wp_gets. cbn [id]. by destruct (count_max_cattree_height _ _). }
  intros r s1 (K1 & K2 & K3 & K4). split_and!; [done..|]. destruct r as [u|e|]; [|by destruct (K4 e)|done].
  clear s K1 K2 K3. apply unwinds_keep. intros s. split_and!; [done..|].
  eapply unwinds_or_goto with (E := RootDentry :: before_root ro);
    [apply turns_given; intros (_ & _ & _ & _ & _ & T); by case_match|done|intros (-> & _); apply clears_hlinks|].
  intros s2 H1 H2 H3. apply wp_bind.
  apply (wp_mono _ _ (fun r s' => r = Ok tt /\ held s' = held s2 /\ wrong s' = wrong s2 /\ read_only (vol s') = read_only (vol s2))).
  { destruct (read_only (vol s)); [done|]. unfold wp, modify. cbn [fst snd]. split_and!; [done..|].
    unfold count_mount. by case_match. }
  intros r s3 (-> & K1 & K2 & K3). apply wp_modify, wp_ret. cbn -[mounted_resources]. split_and!; [|intros _|]; congruence.
Qed.

Lemma unwinds_fill_root ro : unwinds (tidy ro) ro (before_root ro) (fill_root device_bytes answer).
Proof using.
  pose proof labels_steady as (_ & _ & _ & _ & _ & _ & S7 & S8 & S9).
  unfold fill_root. eapply unwinds_or_goto; [apply turns_take_step|done|intros (-> & _); apply clears_orphan|].
  eapply (unwinds_release _ _ _ (before_root ro)); [left|by apply dropped; destruct ro; member|].
  eapply unwinds_or_goto; [apply turns_make_root|done| |].
  { intros (-> & _). unfold d_alloc_root_err. clean. apply clears_orphan. }
  eapply unwinds_or_goto; [apply turns_take_step|done|intros (-> & _); apply clears_hlinks|].
  apply unwinds_end. by destruct ro.
Qed.

Lemma unwinds_fill_trees ro :
  unwinds (tidy ro) ro ((if ro then [] else [FsmManagement]) ++ snapshot_held) (fill_trees device_bytes answer).
Proof using.
  pose proof labels_steady as (_ & _ & _ & S4 & S5 & S6 & S7 & S8 & S9). unfold fill_trees.
  eapply unwinds_or_goto; [apply turns_fill_tree; destruct ro; member|done|intros (-> & _); apply clears_fill_ext|].
  eapply unwinds_or_goto; [apply turns_fill_tree; destruct ro; member|done|intros (-> & _); apply clears_fill_cat|].
  intros s H1 H2 H3. apply wp_gets. rewrite H3. destruct ro.
  - by apply (unwinds_fill_root true).
  - revert s H1 H2 H3. eapply (unwinds_or_goto _ false _ (before_root false)); [apply turns_take_step|done|intros _; apply clears_bitmap|].
    eapply unwinds_or_goto; [apply (turns_ret _ false)|done|intros _; apply clears_orphan|]. apply unwinds_fill_root.
Qed.

Lemma unwinds_fill_managers ro : unwinds (tidy ro) ro pages_held (fill_managers device_bytes answer).
Proof using.
  pose proof labels_steady as (_ & S2 & S3 & _). unfold fill_managers.
  eapply unwinds_or_goto; [apply turns_snapshot|done|intros _; apply clears_options; by right|].
  intros s H1 H2 H3. apply wp_gets. rewrite H3. revert s H1 H2 H3.
  eapply (unwinds_or_goto _ ro _ ((if ro then [] else [FsmManagement]) ++ snapshot_held) snapshot_held).
  - destruct ro; [apply turns_given; by intros _|apply turns_take_step].
  - done.
  - intros _. apply clears_fsm_create.
  - apply unwinds_fill_trees.
Qed.

Lemma unwinds_read_super ro : unwinds (tidy ro) ro [Sbi]
  (or_goto (in_vol (emmcfs_volume_check crc32 device_bytes)) not_emmcfs_volume
   (or_goto (read_super_block crc32 device_bytes sb_set_blocksize) emmcfs_parse_options_error
    (or_goto (in_vol (emmcfs_extended_sb_read crc32 device_bytes)) emmcfs_parse_options_error
     (fill_managers device_bytes answer)))).
Proof using.
  pose proof labels_steady as (S1 & S2 & _).
  eapply unwinds_or_goto; [apply turns_in_vol, volume_check_steady|done|intros _; apply clears_last|].
  eapply unwinds_or_goto; [apply turns_super_block|done|intros _; apply clears_options; by left|].
  eapply unwinds_or_goto; [apply turns_in_vol, extended_sb_read_steady|done|intros _; apply clears_options; by right|].
  apply unwinds_fill_managers.
Qed.

Lemma parse_pieces_never_err a pieces o e : fst (parse_pieces match_token match_int a pieces o) <> Err e.
Proof using.
  revert a o. induction pieces as [|[|c p] pieces IH]; intros a o; cbn [parse_pieces]; [done|apply IH|].
  destruct (match_token _) as [[] b]; unfold bind, modify, read_count; try apply IH; try done.
  all: destruct (match_int _); [apply IH|done].
Qed.

Lemma parse_never_err data o e : fst (emmcfs_parse_options match_token match_int args0 data o) <> Err e.
Proof using. unfold emmcfs_parse_options, bind, modify. destruct data; [apply parse_pieces_never_err|done]. Qed.

(** The flag [MS_RDONLY] after the options have been read. *)
Definition ro_after (data : option string) (s : boot) : bool :=
  rdonly (snd (emmcfs_parse_options match_token match_int args0 data (settings_of s))).

(** C13: a mount that succeeds holds exactly the pages of the super block, the
    snapshot manager, both trees, the inode of the hard links and the root, and,
    unless it is read-only, the free-space management and the bitmap of the inode
    numbers.  A mount that fails at any other step than the five whose failure is
    treated wrongly, and not read-only, has given back everything once, in an
    order in which nothing is used after it was given back.  Where the kernel
    stops, the same order holds up to there; what is held then is not
    claimed. *)
Theorem fill_super_unwinds data s : held s = [] -> wrong s = None ->
  wp (emmcfs_fill_super crc32 device_bytes sb_set_blocksize match_token match_int args0 answer data) s (fun r s' =>
    (tidy (ro_after data s) -> wrong s' = None) /\
    match r with
    | Ok e => if e =? 0 then held s' = mounted_resources (ro_after data s) else tidy (ro_after data s) -> held s' = []
    | Err _ => False
    | Bug => True
    end).
Proof using.
  intros H1 H2. unfold emmcfs_fill_super. destruct (answer KzallocSbi =? 0); cbn [negb]; [|by apply wp_ret; split; intros _].
  apply wp_modify. unfold or_goto at 1. apply wp_bind, wp_bind. unfold wp at 1, in_settings, zoom.
  change (settings_of (set_held _ s)) with (settings_of s). unfold ro_after.
  pose proof (parse_never_err data (settings_of s)) as Hp.
  destruct (emmcfs_parse_options _ _ _ _ _) as [[e|e|] o]; [|by destruct (Hp e)|by split].
  cbn [fst snd] in *. apply wp_ret. destruct (Z.eqb_spec e 0) as [->|E].
  - eapply wp_mono; [apply (unwinds_read_super (rdonly o)); [cbn; by rewrite H1|done|done]|]. by intros r s' (_ & K).
  - apply wp_bind. eapply wp_mono; [apply (clears_options [Sbi]); [by left|cbn; by rewrite H1|done]|].
    intros r s' K. destruct r; [|done|done]. destruct K as [K1 K2]. apply wp_ret. by split; intros _.
Qed.

(** ** Unmounting *)

(** A step that gives back what is held. *)
Definition drops L L' (x : FB unit) : Prop := forall s, held s = L -> wp x s (fun r s' =>
  r = Ok tt /\ s' = set_held L' s).

Lemma drops_release r L L' : r ∈ L -> filter (fun q => q <> r) L = L' -> drops L L' (release r).
Proof using. intros H <- s <-. unfold wp, release. by rewrite decide_True. Qed.

Lemma drops_put r L L' : filter (fun q => q <> r) L = L' -> drops L L' (put r).
Proof using. by intros <- s <-. Qed.

Lemma drops_bind L L1 L2 x y : drops L L1 x -> drops L1 L2 y -> drops L L2 (do_ x; y).
Proof using.
  intros Hx Hy s H. apply wp_bind. eapply wp_mono; [by apply Hx|]. intros r s1 (-> & ->).
  eapply wp_mono; [by apply Hy|]. intros r s2 (-> & ->). by destruct s.
Qed.

Lemma drops_btree t L L1 L2 : TreeMemory t ∈ L -> filter (fun q => q <> TreeMemory t) L = L1 -> TreeInode t ∈ L1 ->
  filter (fun q => q <> TreeInode t) L1 = L2 -> drops L L2 (emmcfs_put_btree t).
Proof using. intros. eapply drops_bind; by apply drops_release. Qed.

Lemma wp_drops {X} L L' x (f : unit -> FB X) s Q : held s = L -> drops L L' x -> wp (f tt) (set_held L' s) Q -> wp (bind x f) s Q.
Proof using. intros H Hx Hf. apply wp_bind. eapply wp_mono; [by apply Hx|]. by intros r s' (-> & ->). Qed.

Lemma drops_ret L : drops L L (ret tt).
Proof using. by intros [] <-. Qed.

Ltac drop := first
  [ eapply drops_btree; [member|vm_compute; reflexivity|member|vm_compute; reflexivity]
  | eapply drops_release; [member|vm_compute; reflexivity]
  | eapply drops_put; vm_compute; reflexivity
  | apply drops_ret
  | eapply drops_bind ].

Lemma put_super_last is_ s L L' : held s = L -> filter (fun q => q <> SuperPages) L = L' -> Sbi ∈ L' ->
  wrong s = None ->
  wp (do v <- gets vol;
      do_ (if s_dirt v || exsb_dirty v then in_vol (emmcfs_write_super crc32 device_bytes is_) else ret tt);
      do_ destroy_super;
      release Sbi) s (fun r s' => wrong s' = None /\ match r with Ok _ => held s' = filter (fun q => q <> Sbi) L' | Err _ => False | Bug => True end).
Proof using.
  intros H1 H2 H3 W. apply wp_gets. apply wp_bind.
  apply (wp_mono _ _ (fun r s' => held s' = held s /\ wrong s' = None /\ forall e, r <> Err e)).
  { destruct (_ || _); [|by apply wp_ret]. destruct (write_super_steady crc32 device_bytes is_ (vol s)) as [_ K].
    unfold wp, in_vol, zoom. destruct (emmcfs_write_super _ _ _ (vol s)) as [[]]; cbn in *; split_and!; try done. }
  intros r s1 (K1 & K2 & K3). destruct r as [u|e|]; [|by destruct (K3 e)|done].
  eapply (wp_drops L L' destroy_super); [rewrite K1; exact H1|by apply drops_put|].
  eapply wp_mono; [by apply (drops_release Sbi L')|]. by intros r s2 (-> & ->).
Qed.

(** C14: an unmount after the root has been dropped gives back everything the
    mount has left, nothing twice and nothing after its release; on a read-only
    mount the snapshot manager stays in memory. *)
Theorem put_super_releases is_ s : held s = mounted_resources (read_only (vol s)) -> wrong s = None ->
  wp (do_ drop_root; emmcfs_put_super crc32 device_bytes is_) s (fun r s' => wrong s' = None /\
    match r with Ok _ => held s' = if read_only (vol s) then [SnapshotManager] else [] | Err _ => False | Bug => True end).
Proof using.
  intros H1 H2. unfold emmcfs_put_super, emmcfs_destroy_hlinks_area, destroy_free_inode_bitmap, drop_root.
  destruct (read_only (vol s)) eqn:E.
  all: do 3 (eapply wp_drops; [eassumption || reflexivity|repeat drop|]).
  all: apply wp_gets; cbn [set_held vol]; rewrite E.
  all: do 2 (eapply wp_drops; [reflexivity|repeat drop|]).
  all: eapply wp_mono; [eapply put_super_last; [reflexivity|vm_compute; reflexivity|member|exact H2]|].
  all: intros r s' (K1 & K2); by split.
Qed.
End mount.

(** ** The height of the catalog *)

(** The fewest divisions after which at most one node is left. *)
Definition fewest_levels (b n k : Z) : Prop := 0 <= k /\ n / b ^ k <= 1 /\ forall j, 0 <= j < k -> 1 < n / b ^ j.

Lemma count_levels_spec b : 2 <= b -> forall fuel n h, n < 2 ^ Z.of_nat fuel ->
  exists k, count_levels (S fuel) b n h = Some (h + k) /\ fewest_levels b n k.
Proof.
  intros Hb. induction fuel as [|fuel IH]; intros n h Hn; cbn [count_levels]; destruct (Z.gtb_spec n 1) as [H|H].
  2, 4: exists 0; rewrite Z.add_0_r; split; [done|]; split; [lia|]; split; [by rewrite Z.pow_0_r, Z.div_1_r|lia].
  - change (2 ^ Z.of_nat 0) with 1 in Hn. lia.
  - destruct (IH (n / b) (h + 1)) as (k & E & K1 & K2 & K3).
    { apply Z.div_lt_upper_bound; [lia|]. rewrite Nat2Z.inj_succ, Z.pow_succ_r in Hn by lia. nia. }
    change (count_levels (S fuel) b (n / b) (h + 1) = Some (h + 1 + k)) in E. exists (1 + k). cbn [count_levels] in E.
    split; [by rewrite E, Z.add_assoc|]. split; [lia|]. split.
    + rewrite Z.pow_add_r, Z.pow_1_r, <- Z.div_div by lia. exact K2.
    + intros j Hj. destruct (decide (j = 0)) as [->|Hj0]; [by rewrite Z.pow_0_r, Z.div_1_r|].
      replace j with (1 + (j - 1)) by lia. rewrite Z.pow_add_r, Z.pow_1_r, <- Z.div_div by lia. apply K3. lia.
Qed.

(** C33: the loop that counts the levels of the catalog ends on every volume and
    for every number of pages of a node that the shift allows: at least two records
    fit into an index node, the 31 bits of the number of nodes are then used up
    before the fuel, and the height is one more than the fewest divisions by the
    records of a node after which one node is left. *)
Theorem count_max_cattree_height_terminates device_bytes pages : 1 <= pages < 64 - PAGE_CACHE_SHIFT ->
  exists k, count_max_cattree_height device_bytes pages = Some (1 + k) /\
    2 <= index_records (Z.shiftl pages PAGE_CACHE_SHIFT) /\
    fewest_levels (index_records (Z.shiftl pages PAGE_CACHE_SHIFT)) (s32 (Z.shiftr device_bytes (PAGE_CACHE_SHIFT + pages))) k.
Proof.
  unfold PAGE_CACHE_SHIFT. intros Hp. unfold count_max_cattree_height. destruct (Z.leb_spec 64 (PAGE_CACHE_SHIFT + pages)) as [H|_].
  { unfold PAGE_CACHE_SHIFT in H. lia. }
  assert (2 <= index_records (Z.shiftl pages 12)) as Hb.
  { unfold index_records. rewrite Z.shiftl_mul_pow2 by lia. apply Z.div_le_lower_bound.
    - by vm_compute.
    - unfold sizeof_descr, sizeof_off, sizeof_index_value. change sizeof_cattree_key with 281. lia. }
  destruct (count_levels_spec _ Hb 31 (s32 (Z.shiftr device_bytes (12 + pages))) 1) as (k & E & K).
  - change (2 ^ Z.of_nat 31) with 2147483648. unfold swrap. pose proof (Z.mod_pos_bound (Z.shiftr device_bytes (12 + pages) + 2 ^ (32 - 1)) (2 ^ 32)). lia.
  - exists k. split; [exact E|]. by split.
Qed.

Lemma count_max_cattree_height_terminates_witness : count_max_cattree_height (2 ^ 31) 4 = Some 4 /\
  2 <= index_records (Z.shiftl 4 PAGE_CACHE_SHIFT).
Proof.
  destruct (count_max_cattree_height_terminates (2 ^ 31) 4) as (k & E & H & _); [by vm_compute|]. split; [|exact H].
  vm_compute. reflexivity.
Defined.

(** ** At work *)

(** A volume that passes the check of the sectors 0 and 1 too. *)
Definition bootable : device := fun x =>
  if x <? 512 then default 0 (example_sb !! Z.to_nat x) else sound x.
Definition boot_of (m : mount) : boot := Boot m 0 [] None 0 0 false.
Definition example_mount (answer : call -> Z) (data : string) (s : boot) : outcome Z * boot :=
  emmcfs_fill_super byte_sum (64 * 512) (fun _ => true) token_of_text id None answer (Some data) s.

(** Every call succeeds but one, which answers [- EIO]. *)
Definition all_but (c : call) (c' : call) : Z := if decide (c = c') then - EIO else 0.
Definition fresh (ro : bool) : boot := boot_of (set_vfs 12 false ro (to_mount bootable 0)).

(** The super blocks have been read, and the catalog is to be checked. *)
Definition read_so_far (ro : bool) : boot := set_held pages_held (boot_of
  (Mount (fun _ => 0) [] [] [] 12 false ro (geometry_of example_sb) MOUNT_BTREE_CHECK false false (replicate 4096 0) [] [])).

Lemma fill_super_unwinds_witness :
  held (snd (example_mount (fun _ => 0) "" (fresh false))) = mounted_resources false /\
  held (snd (example_mount (all_but ProcessOrphans) "" (fresh false))) = [].
Proof.
  assert (forall s answer e, held s = [] -> wrong s = None -> ro_after token_of_text id None (Some ""%string) s = false ->
    fst (example_mount answer "" s) = Ok e -> tidy answer false ->
    held (snd (example_mount answer "" s)) = if e =? 0 then mounted_resources false else []) as W.
  { intros s answer e H1 H2 Hro He T.
    pose proof (fill_super_unwinds byte_sum (64 * 512) (fun _ => true) token_of_text id None answer (Some ""%string) s H1 H2) as [_ H].
    unfold example_mount in *. rewrite He, Hro in H. by destruct (e =? 0); auto. }
  split.
  - apply (W (fresh false) (fun _ => 0) 0); [reflexivity|reflexivity|reflexivity|vm_compute; reflexivity|by vm_compute].
  - apply (W (fresh false) (all_but ProcessOrphans) (- EIO)); [reflexivity|reflexivity|reflexivity|vm_compute; reflexivity|by vm_compute].
Defined.

(** The steps whose failure is treated wrongly, from the super block on.  A
    failed restoration of the journal leaves its manager in memory, a failed
    [fill_btree] the memory of its tree, and a failed check of the catalog the
    inode of the hard links; a failed [d_make_root] gives the root inode back
    twice; a read-only mount whose extents tree fails releases the free-space
    management it has not built. *)
Theorem failed_mount_keeps :
  let failed c ro := let '(r, s) := fill_managers (64 * 512) (all_but c) (read_so_far ro) in (r, held s, wrong s) in
  failed RestoreSnapshot false = (Ok (- EIO), [SnapshotManager], None) /\
  failed (FillBtree ExtentsTree) false = (Ok (- EIO), [TreeMemory ExtentsTree], None) /\
  failed (FillBtree CatalogTree) false = (Ok (- EIO), [TreeMemory CatalogTree], None) /\
  failed VerifyTree false = (Ok (- EIO), [HlinksInode], None) /\
  (let '(r, _, w) := failed MakeRoot false in (r, w)) = (Bug, Some RootInode) /\
  (let '(r, _, w) := failed (IgetTree ExtentsTree) true in (r, w)) = (Bug, Some FsmManagement).
Proof. split_and!; vm_compute; reflexivity. Qed.

Lemma put_super_releases_witness :
  let s := set_held (mounted_resources false) (read_so_far false) in
  held (snd (bind drop_root (fun _ => emmcfs_put_super byte_sum (64 * 512) plain_inodes) s)) = [].
Proof.
  assert (forall s, s = set_held (mounted_resources false) (read_so_far false) ->
    fst (bind drop_root (fun _ => emmcfs_put_super byte_sum (64 * 512) plain_inodes) s) = Ok tt ->
    held (snd (bind drop_root (fun _ => emmcfs_put_super byte_sum (64 * 512) plain_inodes) s)) = []) as W.
  { intros s Hs E. destruct (put_super_releases byte_sum (64 * 512) plain_inodes s) as [_ H]; [by subst|by subst|].
    rewrite E in H. subst s. exact H. }
  apply (W _ eq_refl). vm_compute. reflexivity.
Defined.
