(* ===== verification/Writeback.v ===== *)
(** * Writing the pages of a file (data.c, inode.c)

    [emmcfs_mpage_writepages] gathers the pages that lie one after the other on
    the device into one request; a page it cannot handle goes to [writepage].
    The metadata of a volume with the journal are written this way between the
    commit of the journal and its clearing ([update_metadata]).

    A request refers to its pages; their bytes are taken when it is sent.  The
    walk over the dirty pages ([write_cache_pages]), the write of one page
    ([block_write_full_page]) and the translation of blocks ([get_block]) are
    arguments; so are the kernel's answers to the allocation, filling and sending
    of a request, successes past the end of a list. *)

From S2P Require Import Prelude Monad Data FsmBtree Fsm Fork Vfs Super.
Open Scope Z_scope.

Definition AOP_WRITEPAGE_ACTIVATE : Z := 0x80000.

(** ** Data *)

(** [struct buffer_head] of a block of a page *)
Record buffer := Buffer {
  bu_locked : bool;
  bu_mapped : bool;
  bu_dirty : bool;
  bu_uptodate : bool;
  bu_boundary : bool;
  bu_blocknr : Z
}.

(** A page in the cache; it may have no buffers. *)
Record cached := Cached {
  c_data : page;
  c_buffers : option (list buffer);
  c_uptodate : bool;
  c_dirty : bool;
  c_writeback : bool;
  c_locked : bool
}.

Definition set_buffers b (c : cached) : cached := Cached (c_data c) b (c_uptodate c) (c_dirty c) (c_writeback c) (c_locked c).
Definition set_data l (c : cached) : cached := Cached l (c_buffers c) (c_uptodate c) (c_dirty c) (c_writeback c) (c_locked c).
Definition set_flags d w l (c : cached) : cached := Cached (c_data c) (c_buffers c) (c_uptodate c) d w l.

(** What [get_block] fills in. *)
Record block_map := BlockMap { bm_new : bool; bm_boundary : bool; bm_blocknr : Z }.

(** [struct bio]: the first sector, and the pages with their lengths. *)
Record bio := Bio { bi_sector : Z; bi_vecs : list (Z * Z) }.

(** What the scan of a page finds: the blocks, the number of those to be
    written, and the boundary. *)
Inductive scan := Confused | Mapped (blocks : list Z) (first_unmapped : nat) (boundary : bool) (boundary_block : Z).

(** The file, its pages in the cache, the device and the buffers of the device
    itself (dirty, and the bytes), and the error flags of the mapping. *)
Record mapping {T : Type} := Mapping {
  m_file : T;
  m_pages : gmap Z cached;
  m_disk : device;
  m_buffers : gmap Z (bool * list Z);
  m_error : bool
}.
#[global] Arguments mapping : clear implicits.

(** [struct emmcfs_mpage_data], and the answers of the kernel to [bio_alloc],
    [bio_add_page] and [submit_bio]. *)
Record mpage_data {T : Type} := MpageData {
  mp_mapping : mapping T;
  mp_bio : option bio;
  last_block_in_bio : Z;
  mp_mem : list bool;
  mp_room : list bool;
  mp_sent : list bool
}.
#[global] Arguments mpage_data : clear implicits.

Section mapping.
Context {T : Type}.
Implicit Types (m : mapping T) (s : mpage_data T).

Definition set_file f m : mapping T := Mapping _ f (m_pages m) (m_disk m) (m_buffers m) (m_error m).
Definition set_cache p m : mapping T := Mapping _ (m_file m) p (m_disk m) (m_buffers m) (m_error m).
Definition set_disk d b m : mapping T := Mapping _ (m_file m) (m_pages m) d b (m_error m).
Definition set_error e m : mapping T := Mapping _ (m_file m) (m_pages m) (m_disk m) (m_buffers m) e.
Definition set_page i c m : mapping T := set_cache (<[i := c]> (m_pages m)) m.

Definition set_mapping m s : mpage_data T := MpageData _ m (mp_bio s) (last_block_in_bio s) (mp_mem s) (mp_room s) (mp_sent s).
Definition set_bio b s : mpage_data T := MpageData _ (mp_mapping s) b (last_block_in_bio s) (mp_mem s) (mp_room s) (mp_sent s).
Definition set_last b s : mpage_data T := MpageData _ (mp_mapping s) (mp_bio s) b (mp_mem s) (mp_room s) (mp_sent s).
Definition set_answers a b c s : mpage_data T := MpageData _ (mp_mapping s) (mp_bio s) (last_block_in_bio s) a b c.

Definition page_of (i : Z) : St (mapping T) cached := fun m =>
  match m_pages m !! i with Some c => (Ok c, m) | None => (Bug, m) end.
Definition change_page (i : Z) (f : cached -> cached) : St (mapping T) unit :=
  do c <- page_of i; modify (set_page i (f c)).
End mapping.

(** ** Pages to requests *)
Section writeback.
Context {T : Type} (i_size blkbits nr_vecs : Z) (memalloc : bool).
(** [get_block] with [create] set, and [a_ops->writepage]. *)
Context (get_block : Z -> St T block_map) (writepage : Z -> St (mapping T) Z).
Abbreviation V := (St (mapping T)).
Abbreviation F := (St (mpage_data T)).

Definition blocks_per_page : nat := Z.to_nat (Z.shiftr PAGE_CACHE_SIZE blkbits).
Definition in_mapping {X} (x : V X) : F X := zoom mp_mapping set_mapping x.

(** The buffer of the device for a block is forgotten. *)
Definition unmap_underlying_metadata (b : Z) : V unit :=
  modify (fun m => set_disk (m_disk m) (alter (fun x => (false, snd x)) b (m_buffers m)) m).

(** [emmcfs_write_boundary_block]: the block behind the boundary, if it is
    dirty. *)
Definition emmcfs_write_boundary_block (bblock : Z) : V unit :=
  modify (fun m =>
    match m_buffers m !! u64 (bblock + 1) with
    | Some (true, l) =>
      set_disk (dwrite (m_disk m) (Z.shiftl (u64 (bblock + 1)) blkbits) l) (<[u64 (bblock + 1) := (false, l)]> (m_buffers m)) m
    | _ => m
    end).

(** *** The blocks of a page *)
Definition follows (blocks : list Z) (b : Z) : bool :=
  match last blocks with Some x => b =? u64 (x + 1) | None => true end.

(** A page with buffers; [first] is the place of the first one without a
    block. *)
Fixpoint check_buffers (bufs : list buffer) (blocks : list Z) (first : option nat) (boundary : bool) (bb : Z) : outcome scan :=
  match bufs with
  | [] => Ok (if decide (first = Some O) then Confused else Mapped blocks (default blocks_per_page first) boundary bb)
  | b :: bufs =>
    if bu_locked b then Bug
    else if negb (bu_mapped b) then
      if bu_dirty b then Ok Confused
      else check_buffers bufs blocks (match first with None => Some (length blocks) | _ => first end) boundary bb
    else if bool_decide (is_Some first) then Ok Confused
    else if negb (bu_dirty b) || negb (bu_uptodate b) then Ok Confused
    else if negb (follows blocks (bu_blocknr b)) then Ok Confused
    else check_buffers bufs (blocks ++ [bu_blocknr b]) first (bu_boundary b) (if bu_boundary b then bu_blocknr b else bb)
  end.

(** A page without buffers; [n] blocks are left, [block_in_file] is the next. *)
Fixpoint map_blocks (n : nat) (block_in_file : Z) (blocks : list Z) (boundary : bool) (bb : Z) : V scan :=
  match n with
  | O => ret (Mapped blocks (length blocks) boundary bb)
  | S n =>
    do r <- try (zoom m_file set_file (get_block block_in_file));
    match r with
    | Bug => bug
    | Err _ => ret Confused
    | Ok map_bh =>
      do_ (if bm_new map_bh then unmap_underlying_metadata (bm_blocknr map_bh) else ret tt);
      let bb := if bm_boundary map_bh then bm_blocknr map_bh else bb in
      if negb (follows blocks (bm_blocknr map_bh)) then ret Confused
      else
        let blocks := blocks ++ [bm_blocknr map_bh] in
        if block_in_file =? u64 (Z.shiftr (i_size - 1) blkbits) then ret (Mapped blocks (length blocks) (bm_boundary map_bh) bb)
        else map_blocks n (u64 (block_in_file + 1)) blocks (bm_boundary map_bh) bb
    end
  end.

Definition map_page (i : Z) : V scan :=
  do c <- page_of i;
  match c_buffers c with
  | Some bufs => fun m => (check_buffers bufs [] None false 0, m)
  | None =>
    do_ BUG_ON (negb (c_uptodate c));
    map_blocks blocks_per_page (u64 (Z.shiftl i (PAGE_CACHE_SHIFT - blkbits))) [] false 0
  end.

(** The label [page_is_mapped]: the bytes behind the end of the file are zeros. *)
Definition page_is_mapped (i : Z) (r : scan) : V scan :=
  match r with
  | Confused => ret Confused
  | Mapped _ _ _ _ =>
    let end_index := Z.shiftr i_size PAGE_CACHE_SHIFT in
    if i >=? end_index then
      let offset := Z.land i_size (PAGE_CACHE_SIZE - 1) in
      if (i >? end_index) || (offset =? 0) then ret Confused
      else
        do_ change_page i (fun c => set_data (take (Z.to_nat offset) (c_data c) ++ replicate (Z.to_nat (PAGE_CACHE_SIZE - offset)) 0) c);
        ret r
    else ret r
  end.

(** *** Requests *)

(** The bytes of a request, and the device after it.  All its pages have been
    written. *)
Definition vec_bytes (m : mapping T) (v : Z * Z) : list Z :=
  match m_pages m !! fst v with Some c => take (Z.to_nat (snd v)) (c_data c) | None => [] end.
Definition end_writeback (c : cached) : cached := set_flags (c_dirty c) false (c_locked c) c.
Definition complete (b : bio) (m : mapping T) : mapping T :=
  set_cache (foldr (fun v p => alter end_writeback (fst v) p) (m_pages m) (bi_vecs b))
    (set_disk (dwrite (m_disk m) (bi_sector b * SECTOR_SIZE) (concat (map (vec_bytes m) (bi_vecs b)))) (m_buffers m) m).

(** [emmcfs_mpage_bio_submit]: a request without pages, and a write that fails,
    stop the kernel in [end_io_write]. *)
Definition emmcfs_mpage_bio_submit (b : bio) : F (option bio) :=
  do_ BUG_ON (bool_decide (bi_vecs b = []));
  do s <- gets id;
  do_ modify (set_answers (mp_mem s) (mp_room s) (tail (mp_sent s)));
  do_ BUG_ON (negb (default true (head (mp_sent s))));
  do_ in_mapping (modify (complete b));
  ret None.

Definition bio_alloc : F bool := fun s =>
  (Ok (default true (head (mp_mem s))), set_answers (tail (mp_mem s)) (mp_room s) (mp_sent s) s).

(** A task that frees memory tries again with fewer pages. *)
Fixpoint alloc_fewer (fuel : nat) (n : Z) : F bool :=
  match fuel with
  | O => ret false
  | S fuel => if n / 2 =? 0 then ret false else do ok <- bio_alloc; if ok then ret true else alloc_fewer fuel (n / 2)
  end.

Definition emmcfs_mpage_alloc (first_sector : Z) : F (option bio) :=
  do ok <- bio_alloc;
  do ok <- (if negb ok && memalloc then alloc_fewer (Z.to_nat nr_vecs) nr_vecs else ret ok);
  ret (if ok then Some (Bio first_sector []) else None).

(** The label [alloc_new]; [room] are the answers of [bio_add_page]. *)
Fixpoint alloc_new (room : list bool) (first_sector : Z) (v : Z * Z) (b : option bio) : F (option bio) :=
  do b <- (match b with Some _ => ret b | None => emmcfs_mpage_alloc first_sector end);
  match b with
  | None => ret None
  | Some b =>
    do_ modify (fun s => set_answers (mp_mem s) (tail room) (mp_sent s) s);
    match room with
    | false :: room => do b <- emmcfs_mpage_bio_submit b; alloc_new room first_sector v b
    | _ => ret (Some (Bio (bi_sector b) (bi_vecs b ++ [v])))
    end
  end.

(** *** One page *)
Definition clean_buffers (n : nat) (c : cached) : cached :=
  set_buffers (match c_buffers c with
    | Some l => Some (map (fun b => Buffer (bu_locked b) (bu_mapped b) false (bu_uptodate b) (bu_boundary b) (bu_blocknr b)) (take n l) ++ drop n l)
    | None => None end) c.

(** The label [confused]; [use_writepage] is set. *)
Definition confused (i : Z) (b : option bio) : F Z :=
  do_ (match b with Some b => emmcfs_mpage_bio_submit b | None => ret None end);
  do ret_ <- in_mapping (writepage i);
  do_ in_mapping (modify (fun m => set_error (m_error m || negb (ret_ =? 0)) m));
  do_ modify (set_bio None);
  ret ret_.

Definition emmcfs_mpage_writepage (i : Z) : F Z :=
  do b <- gets mp_bio;
  do r <- in_mapping (bind (map_page i) (page_is_mapped i));
  match r with
  | Confused => confused i b
  | Mapped blocks first_unmapped boundary boundary_block =>
    let block0 := default 0 (head blocks) in
    do last_block <- gets last_block_in_bio;
    do b <- (match b with
             | Some b => if last_block =? u64 (block0 - 1) then ret (Some b) else emmcfs_mpage_bio_submit b
             | None => ret None
             end);
    do room <- gets mp_room;
    do b <- alloc_new room (u64 (Z.shiftl block0 (blkbits - 9))) (i, Z.shiftl (Z.of_nat first_unmapped) blkbits) b;
    match b with
    | None => confused i None
    | Some b =>
      do_ in_mapping (change_page i (clean_buffers first_unmapped));
      do c <- in_mapping (page_of i);
      do_ BUG_ON (c_writeback c);
      do_ in_mapping (change_page i (fun c => set_flags (c_dirty c) true false c));
      if boundary || negb (first_unmapped =? blocks_per_page)%nat then
        do b <- emmcfs_mpage_bio_submit b;
        do_ (if boundary_block =? 0 then ret tt else in_mapping (emmcfs_write_boundary_block boundary_block));
        do_ modify (set_bio b);
        ret 0
      else
        do_ modify (set_last (default 0 (last blocks)));
        do_ modify (set_bio (Some b));
        ret 0
    end
  end.

(** [emmcfs_mpage_writepages] *)
Definition emmcfs_mpage_writepages (write_cache_pages : (Z -> F Z) -> F Z) : F Z :=
  do_ modify (set_bio None);
  do_ modify (set_last 0);
  do ret_ <- write_cache_pages emmcfs_mpage_writepage;
  do b <- gets mp_bio;
  do_ (match b with Some b => emmcfs_mpage_bio_submit b | None => ret None end);
  ret ret_.
End writeback.

(** ** The metadata *)

(** A special file with its pages, and the error flags of its mapping. *)
Record special {T : Type} := Special { sp_file : T; sp_pages : gmap Z cached; sp_error : bool }.
#[global] Arguments special : clear implicits.

(** The special files that are open, the device, [transaction_lock] held for
    writing, the flags of the journal, and the answers of the kernel. *)
Record metadata {T : Type} := Metadata {
  md_special : gmap Z (special T);
  md_disk : device;
  md_buffers : gmap Z (bool * list Z);
  md_locked : bool;
  md_flags : Z;
  md_mem : list bool;
  md_room : list bool;
  md_sent : list bool
}.
#[global] Arguments metadata : clear implicits.

Section special.
Context {T : Type}.
Implicit Types (md : metadata T) (s : mpage_data T).

Definition set_locked b flags md : metadata T :=
  Metadata _ (md_special md) (md_disk md) (md_buffers md) b flags (md_mem md) (md_room md) (md_sent md).
Definition mapping_data (sp : special T) md : mpage_data T :=
  MpageData _ (Mapping _ (sp_file sp) (sp_pages sp) (md_disk md) (md_buffers md) (sp_error sp)) None 0 (md_mem md) (md_room md) (md_sent md).
Definition put_mapping_data (n : Z) s md : metadata T :=
  let m := mp_mapping s in
  Metadata _ (<[n := Special _ (m_file m) (m_pages m) (m_error m)]> (md_special md)) (m_disk m) (m_buffers m)
    (md_locked md) (md_flags md) (mp_mem s) (mp_room s) (mp_sent s).

Context (blkbits nr_vecs : Z) (memalloc : bool) (mount_options : Z).
(** Of each inode: its size, its [get_block], the walk of the kernel over its
    dirty pages, and [block_write_full_page]. *)
Context (i_size : Z -> Z) (get_block : Z -> Z -> St T block_map)
  (write_cache_pages : Z -> (Z -> St (mpage_data T) Z) -> St (mpage_data T) Z)
  (block_write_full_page : Z -> Z -> St (mapping T) Z).
(** The operations of the journal, and the kernel's [mpage_writepages]. *)
Context (commit_snapshot clear_snapshot : St (metadata T) Z) (mpage_writepages : Z -> St (metadata T) Z).
Abbreviation G := (St (metadata T)).

(** [emmcfs_writepage]: with the journal a page of the metadata stays dirty. *)
Definition emmcfs_writepage (n i : Z) : St (mapping T) Z :=
  if (n >=? EMMCFS_1ST_FILE_INO) || negb (test_option MOUNT_SNAPSHOT mount_options) then block_write_full_page n i
  else
    do_ change_page i (fun c => set_flags true (c_writeback c) (c_locked c) c);
    ret AOP_WRITEPAGE_ACTIVATE.

Definition is_special (n : Z) : bool :=
  (n =? EMMCFS_CAT_TREE_INO) || (n =? EMMCFS_LEB_BITMAP_INO) || (n =? EMMCFS_EXTENTS_TREE_INO) ||
  (n =? EMMCFS_FREE_INODE_BITMAP_INO) || (n =? EMMCFS_HARDLINKS_AREA_INO).

Definition emmcfs_write_special_file (n : Z) : G Z :=
  if negb (is_special n) then ret (- EINVAL)
  else
    do md <- gets id;
    match md_special md !! n with
    | None => ret (- EINVAL)
    | Some sp => fun md =>
      let '(r, s) := emmcfs_mpage_writepages (i_size n) blkbits nr_vecs memalloc (get_block n) (emmcfs_writepage n) (write_cache_pages n)
        (mapping_data sp md) in
      (r, put_mapping_data n s md)
    end.

Definition then_go (x : G Z) (rest : G Z) : G Z := do error <- x; if negb (error =? 0) then ret error else rest.

Definition emmcfs_sync_metadata : G Z :=
  then_go (emmcfs_write_special_file EMMCFS_CAT_TREE_INO)
  (then_go (emmcfs_write_special_file EMMCFS_LEB_BITMAP_INO)
  (then_go (emmcfs_write_special_file EMMCFS_EXTENTS_TREE_INO)
  (then_go (emmcfs_write_special_file EMMCFS_FREE_INODE_BITMAP_INO)
  (then_go (emmcfs_write_special_file EMMCFS_HARDLINKS_AREA_INO)
  (ret 0))))).

(** [update_metadata]; the result of clearing the journal is dropped. *)
Definition update_metadata : G Z :=
  do_ modify (fun md => set_locked true 1 md);
  do error <- commit_snapshot;
  if negb (error =? 0) then do_ modify (set_locked false 0); ret error
  else
    do error <- emmcfs_sync_metadata;
    if negb (error =? 0) then do_ modify (set_locked false 0); ret error
    else
      do_ clear_snapshot;
      do_ modify (set_locked false 0);
      ret 0.

(** [emmcfs_writepages]; [true] when [nr_to_write] has been set to 0. *)
Definition emmcfs_writepages (n : Z) : G (Z * bool) :=
  let write := do err <- mpage_writepages n; ret (err, false) in
  if (n >=? EMMCFS_1ST_FILE_INO) || negb (test_option MOUNT_SNAPSHOT mount_options) then write
  else
    do md <- gets id;
    if negb (bool_decide (is_Some (md_special md !! EMMCFS_CAT_TREE_INO))) then write
    else
      do error <- update_metadata;
      if negb (error =? 0) then write else ret (0, true).
End special.
