(* ===== verification/WritebackProofs.v ===== *)
(** * Writing the pages of a file: lemmas

    The pending request as a delay: what a computation does to other pages
    commutes with sending it, and a page that joins it is written as if alone. *)

From S2P Require Import Prelude Monad Data FsmBtree Fsm Fork Vfs Super Writeback.
Open Scope Z_scope.

(** ** Mappings with the same device *)
Section same.
Context {T : Type}.
Implicit Types (m : mapping T).

Definition same_mapping m m' : Prop := m_file m = m_file m' /\ m_pages m = m_pages m' /\ (forall x, m_disk m x = m_disk m' x) /\
  m_buffers m = m_buffers m' /\ m_error m = m_error m'.

#[export] Instance same_mapping_equiv : Equivalence same_mapping.
Proof.
  split.
  - by intros m.
  - intros m m' (?&?&?&?&?). by split_and!.
  - intros m1 m2 m3 (?&?&E&?&?) (?&?&E'&?&?). split_and!; congruence.
Qed.

#[export] Instance set_page_proper i c : Proper (same_mapping ==> same_mapping) (set_page i c).
Proof. intros m m' (?&E&?&?&?). split_and!; try done. cbn. by rewrite E. Qed.

#[export] Instance set_error_proper e : Proper (same_mapping ==> same_mapping) (set_error e).
Proof. intros m m' (?&E&?&?&?). by split_and!. Qed.

Lemma dwrite_same (d d' : device) a l x : (forall y, d y = d' y) -> dwrite d a l x = dwrite d' a l x.
Proof. intros E. unfold dwrite. by case_match. Qed.

#[export] Instance complete_proper b : Proper (same_mapping ==> same_mapping) (complete b).
Proof.
  intros m m' (?&E&Ed&?&?). split_and!; try done; cbn; [by rewrite E|]. intros x.
  assert (map (vec_bytes m) (bi_vecs b) = map (vec_bytes m') (bi_vecs b)) as ->.
  { apply map_ext. intros v. unfold vec_bytes. by rewrite E. }
  by apply dwrite_same.
Qed.
End same.
Infix "≃" := same_mapping (at level 70).

(** ** Computations on other pages than those of a request *)
Section local.
Context {T : Type}.
Implicit Types (m : mapping T).

Definition pages_in (b : bio) : list Z := map fst (bi_vecs b).

(** [x] does not see whether the request has been sent. *)
Definition commutes {X} (b : bio) (x : St (mapping T) X) : Prop := forall m,
  x (complete b m) = (fst (x m), complete b (snd (x m))).

Lemma commutes_ret {X} b (a : X) : commutes b (ret a).
Proof. done. Qed.
Lemma commutes_bug {X} b : commutes b (@bug _ X).
Proof. done. Qed.
Lemma commutes_pure {X} b (r : outcome X) : commutes b (fun m => (r, m)).
Proof. done. Qed.
Lemma commutes_BUG_ON b c : commutes b (BUG_ON c).
Proof. by destruct c. Qed.
Lemma commutes_bind {X Y} b (x : St _ X) (f : X -> St _ Y) : commutes b x -> (forall a, commutes b (f a)) -> commutes b (bind x f).
Proof.
  intros Hx Hf m. unfold bind. rewrite Hx. destruct (x m) as [[a|e|] m1]; cbn [fst snd]; [apply Hf|done|done].
Qed.
Lemma commutes_file {X} b (x : St T X) : commutes b (zoom m_file set_file x).
Proof. intros m. unfold zoom. cbn [complete m_file set_cache set_disk]. by destruct (x (m_file m)). Qed.
Lemma commutes_try {X} b (x : St _ X) : commutes b x -> commutes b (try x).
Proof. intros H m. unfold try. rewrite H. by destruct (x m) as [[a|e|] m1]. Qed.
Lemma commutes_unmap b n : commutes b (unmap_underlying_metadata n).
Proof. by intros m. Qed.

Lemma lookup_complete b m i : i ∉ pages_in b -> m_pages (complete b m) !! i = m_pages m !! i.
Proof.
  cbn. unfold pages_in. induction (bi_vecs b) as [|v l IH]; cbn [foldr map]; [done|]. rewrite not_elem_of_cons. intros [H1 H2].
  rewrite lookup_alter_ne by done. by apply IH.
Qed.

Lemma complete_set_page b i c m : i ∉ pages_in b -> complete b (set_page i c m) = set_page i c (complete b m).
Proof.
  intros H. unfold complete, set_page, set_cache, set_disk. cbn. f_equal.
  - revert H. unfold pages_in. induction (bi_vecs b) as [|v l IH]; cbn [foldr map]; [done|]. rewrite not_elem_of_cons. intros [H1 H2].
    by rewrite IH, alter_insert_ne by done.
  - f_equal. f_equal. revert H. unfold pages_in. induction (bi_vecs b) as [|v l IH]; cbn [map]; [done|].
    rewrite not_elem_of_cons. intros [H1 H2]. rewrite IH by done. f_equal. unfold vec_bytes. cbn. by rewrite lookup_insert_ne.
Qed.

Lemma commutes_page_of b i : i ∉ pages_in b -> commutes b (page_of i).
Proof. intros H m. unfold page_of. rewrite lookup_complete by done. by destruct (m_pages m !! i). Qed.

Lemma commutes_change_page b i f : i ∉ pages_in b -> commutes b (change_page i f).
Proof.
  intros H. apply commutes_bind; [by apply commutes_page_of|]. intros c m. unfold modify. cbn [fst snd].
  by rewrite complete_set_page.
Qed.
End local.

(** ** The scan of a page *)
Section scan.
Context {T : Type} (i_size blkbits : Z) (get_block : Z -> St T block_map).
Context (Hbits : 9 <= blkbits <= 12).
Abbreviation bpp := (blocks_per_page blkbits).
Abbreviation look := (map_page i_size blkbits get_block).
Abbreviation finish := (page_is_mapped (T := T) i_size).
Implicit Types (m : mapping T).

(** Numbers of blocks whose addresses in bytes fit 64 bits. *)
Definition block_ok (b : Z) : Prop := 0 <= b < 2 ^ 48.

(** The kernel gives blocks of the device; a page has a buffer per block. *)
Definition places_ok : Prop := forall ib t, match fst (get_block ib t) with Ok x => block_ok (bm_blocknr x) | _ => True end.
Definition page_ok (c : cached) : Prop := Z.of_nat (length (c_data c)) = 4096 /\
  match c_buffers c with Some l => length l = bpp /\ Forall (fun b => block_ok (bu_blocknr b)) l | None => True end.
Definition pages_fit m : Prop := forall i c, m_pages m !! i = Some c -> page_ok c.

Lemma bpp_size : Z.of_nat bpp * 2 ^ blkbits = 4096 /\ (0 < bpp <= 8)%nat.
Proof using Hbits.
  assert (blkbits = 9 \/ blkbits = 10 \/ blkbits = 11 \/ blkbits = 12) as [-> | [-> | [-> | ->]]] by lia;
    (split; [reflexivity|vm_compute; lia]).
Qed.

(** [n] blocks one after the other. *)
Definition scan_ok (r : scan) : Prop :=
  match r with
  | Confused => True
  | Mapped blocks n _ _ => exists b0, block_ok b0 /\ blocks = seqZ b0 (Z.of_nat n) /\ (0 < n <= bpp)%nat
  end.

Definition run_of (blocks : list Z) : Prop := blocks = [] \/ exists b0, block_ok b0 /\ blocks = seqZ b0 (Z.of_nat (length blocks)).

Lemma last_seqZ b0 n : 0 < n -> last (seqZ b0 n) = Some (b0 + n - 1).
Proof using. intros Hn. rewrite last_lookup, length_seqZ, lookup_seqZ_lt by lia. f_equal. lia. Qed.

Lemma run_snoc blocks b : (length blocks < bpp)%nat -> run_of blocks -> block_ok b -> follows blocks b = true ->
  exists b0, block_ok b0 /\ blocks ++ [b] = seqZ b0 (Z.of_nat (S (length blocks))).
Proof using Hbits.
  intros Hlen Hrun Hb Hf. destruct (decide (blocks = [])) as [->|Hne]; [by exists b|]. destruct Hrun as [?|(b0 & Hb0 & E)]; [done|].
  exists b0. split; [done|]. assert (0 < Z.of_nat (length blocks)) by (destruct blocks; [done|simpl; lia]).
  rewrite Nat2Z.inj_succ, <- Z.add_1_r, seqZ_app, <- E by lia. f_equal. change [b] with (seqZ b 1). f_equal.
  unfold follows in Hf. rewrite E, last_seqZ in Hf by lia. apply Z.eqb_eq in Hf. rewrite uwrap_small in Hf; [lia|].
  unfold block_ok in *. pose proof bpp_size. lia.
Qed.

(** The pages that the scan changes, and how. *)
Lemma check_buffers_ok bufs blocks first bnd bb r : 
  Forall (fun b => block_ok (bu_blocknr b)) bufs ->
  run_of blocks -> match first with Some k => k = length blocks /\ (length blocks + length bufs <= bpp)%nat | None => (length blocks + length bufs = bpp)%nat end ->
  check_buffers blkbits bufs blocks first bnd bb = Ok r -> scan_ok r.
Proof using Hbits.
  revert blocks first bnd bb. induction bufs as [|b bufs IH]; intros blocks first bnd bb Hb Hrun Hf; cbn [check_buffers length] in *.
  - case_decide as Hd; intros [=<-]; [done|]. unfold scan_ok. pose proof bpp_size. destruct first as [k|]; cbn [default from_option]; unfold id.
    + destruct Hf as [-> Hf]. destruct Hrun as [->|(b0 & H1 & H2)]; [done|]. exists b0. split; [done|]. split; [done|].
      assert (length blocks <> 0%nat) by (intros E; apply Hd; by rewrite E). lia.
    + destruct Hrun as [->|(b0 & H1 & H2)]; [cbn in Hf; lia|]. exists b0. split; [done|]. rewrite Nat.add_0_r in Hf. rewrite <- Hf. split; [done|lia].
  - inversion_clear Hb as [|? ? Hb1 Hb2]. destruct (bu_locked b); [done|]. destruct (bu_mapped b); cbn [negb].
    + destruct first as [k|]; [by intros [=<-]|]. cbn. destruct (_ || _); [by intros [=<-]|].
      destruct (follows blocks (bu_blocknr b)) eqn:Ef; cbn [negb]; [|by intros [=<-]].
      destruct (run_snoc blocks (bu_blocknr b)) as (b0 & H1 & H2); [lia|done..|].
      apply IH; [done| |rewrite length_app; cbn; lia]. right. exists b0. split; [done|]. rewrite length_app. cbn [length].
      by rewrite Nat.add_1_r.
    + destruct (bu_dirty b); [by intros [=<-]|]. apply IH; [done|done|]. destruct first as [k|].
      * destruct Hf. split; [done|lia].
      * split; [done|lia].
Qed.

Lemma map_blocks_ok n ib blocks bnd bb m : places_ok -> run_of blocks -> (length blocks + n = bpp)%nat ->
  wp (map_blocks i_size blkbits get_block n ib blocks bnd bb) m (fun r m' => m_pages m' = m_pages m /\ (forall e, r <> Err e) /\ forall x, r = Ok x -> scan_ok x).
Proof using Hbits.
  intros Hp. revert ib blocks bnd bb m. induction n as [|n IH]; intros ib blocks bnd bb m Hrun Hlen; cbn [map_blocks].
  - apply wp_ret. split; [done|]. split; [done|]. intros x [=<-]. pose proof bpp_size. destruct Hrun as [->|(b0 & H1 & H2)]; [cbn in Hlen; lia|].
    exists b0. split; [done|]. split; [done|lia].
  - apply wp_try, wp_zoom. unfold wp at 1. pose proof (Hp ib (m_file m)) as Hb. destruct (get_block ib (m_file m)) as [[x|e|] t]; cbn [fst snd] in *.
    + apply wp_bind. apply (wp_mono _ _ (fun r m' => r = Ok tt /\ m_pages m' = m_pages m)).
      { by destruct (bm_new x). }
      intros r m1 (-> & Hm1). destruct (follows blocks (bm_blocknr x)) eqn:Ef; cbn [negb]; [|by apply wp_ret; split_and!; [| |intros ? [=<-]]].
      destruct (run_snoc blocks (bm_blocknr x)) as (b0 & H1 & H2); [lia|done..|].
      destruct (_ =? _).
      * apply wp_ret. split; [done|]. split; [done|]. intros y [=<-]. exists b0. rewrite length_app, Nat.add_1_r. split; [done|]. split; [done|lia].
      * eapply wp_mono; [apply IH|].
        -- right. exists b0. split; [done|]. by rewrite length_app, Nat.add_1_r.
        -- rewrite length_app. cbn. lia.
        -- intros r m2 (H3 & H4). split; [congruence|exact H4].
    + apply wp_ret. split; [done|]. split; [done|]. by intros y [=<-].
    + done.
Qed.

(** What the scan leaves of the pages: only the bytes of its own page may
    change. *)
Definition changed_data i m m' : Prop := forall j,
  match m_pages m !! j, m_pages m' !! j with
  | Some c, Some c' => c' = c \/ j = i /\ exists l, length l = length (c_data c) /\ c' = set_data l c
  | None, None => True
  | _, _ => False
  end.

Lemma changed_data_refl i m m' : m_pages m' = m_pages m -> changed_data i m m'.
Proof using. intros E j. rewrite E. destruct (m_pages m !! j); auto. Qed.

Lemma check_buffers_never_err bufs blocks first bnd bb e : check_buffers blkbits bufs blocks first bnd bb <> Err e.
Proof using.
  revert blocks first bnd bb. induction bufs as [|b bufs IH]; intros; cbn [check_buffers]; [done|]. repeat (case_match; try done).
Qed.

Lemma scan_page_ok i m : places_ok -> pages_fit m -> wp (bind (look i) (finish i)) m (fun r m' => changed_data i m m' /\ (forall e, r <> Err e) /\
  forall x, r = Ok x -> scan_ok x /\ is_Some (m_pages m !! i)).
Proof using Hbits.
  intros Hp Hfit. apply wp_bind. unfold map_page. apply wp_bind. unfold wp at 1, page_of.
  destruct (m_pages m !! i) as [c|] eqn:Ei; cbn [fst snd]; [|by split_and!; [apply changed_data_refl|..]].
  pose proof (Hfit i c Ei) as [Hlen Hbufs].
  apply (wp_mono _ _ (fun r m' => m_pages m' = m_pages m /\ (forall e, r <> Err e) /\ forall x, r = Ok x -> scan_ok x)).
  { destruct (c_buffers c) as [bufs|].
    - unfold wp. cbn [fst snd]. split; [done|]. split; [apply check_buffers_never_err|]. destruct Hbufs as [Hl Hb]. intros x. eapply check_buffers_ok; [done|by left|exact Hl].
    - apply wp_bind. unfold wp at 1. destruct (c_uptodate c); cbn [negb BUG_ON ret bug fst snd]; [|by split_and!].
      apply map_blocks_ok; [done|by left|done]. }
  intros r m1 (E1 & He & Hr). destruct r as [x|e|]; [|by destruct (He e)|by split_and!; [apply changed_data_refl|..]].
  specialize (Hr x eq_refl). unfold page_is_mapped. destruct x as [|blocks n bnd bb].
  { apply wp_ret. split; [by apply changed_data_refl|]. split; [done|]. intros y [=<-]. by split. }
  destruct (_ >=? _); [|apply wp_ret; split; [by apply changed_data_refl|]; split; [done|]; intros y [=<-]; by split].
  destruct (_ || _) eqn:Eo; [apply wp_ret; split; [by apply changed_data_refl|]; split; [done|]; intros y [=<-]; by split|].
  apply orb_false_iff in Eo as [_ Eo]. apply Z.eqb_neq in Eo.
  apply wp_bind. unfold change_page. apply wp_bind. unfold wp at 1, page_of. rewrite E1, Ei. cbn [fst snd modify].
  unfold wp at 1. cbn [fst snd]. apply wp_ret. split; [|split; [done|]; intros y [=<-]; by split].
  intros j. cbn. rewrite E1. destruct (decide (i = j)) as [<-|Hj].
  - rewrite Ei, lookup_insert_eq. right. split; [done|]. eexists. split; [|done].
    rewrite length_app, length_take, length_replicate. unfold PAGE_CACHE_SIZE in *.
    pose proof (Z.land_ones i_size 12 ltac:(lia)) as El. change (Z.ones 12) with (4096 - 1) in El. rewrite El in *.
    pose proof (Z.mod_pos_bound i_size (2 ^ 12) ltac:(lia)). lia.
  - rewrite lookup_insert_ne by done. destruct (m_pages m !! j); auto.
Qed.

Lemma commutes_scan b i : i ∉ pages_in b -> commutes b (bind (look i) (finish i)).
Proof using.
  intros Hi. apply commutes_bind.
  - unfold map_page. apply commutes_bind; [by apply commutes_page_of|]. intros c. destruct (c_buffers c); [apply commutes_pure|].
    apply commutes_bind; [apply commutes_BUG_ON|]. intros _.
    generalize (u64 (Z.shiftl i (PAGE_CACHE_SHIFT - blkbits))), (@nil Z), false, 0. induction bpp as [|n IH]; intros ib blocks bnd bb; [apply commutes_ret|].
    cbn [map_blocks]. apply commutes_bind; [apply commutes_try, commutes_file|]. intros [x|e|]; [|apply commutes_ret|apply commutes_bug].
    apply commutes_bind; [destruct (bm_new x); [apply commutes_unmap|apply commutes_ret]|]. intros _.
    destruct (negb _); [apply commutes_ret|]. destruct (_ =? _); [apply commutes_ret|apply IH].
  - intros [|blocks n bnd bb]; [apply commutes_ret|]. unfold page_is_mapped. destruct (_ >=? _); [|apply commutes_ret].
    destruct (_ || _); [apply commutes_ret|]. apply commutes_bind; [by apply commutes_change_page|]. intros _. apply commutes_ret.
Qed.
End scan.

(** ** Requests *)
Section requests.
Context {T : Type} (nr_vecs : Z) (memalloc : bool).
Implicit Types (m : mapping T) (s : mpage_data T) (b : bio).

Definition flush (b : option bio) m : mapping T := match b with Some b => complete b m | None => m end.

(** The answers about memory are used up from the front; what only [out]
    changes. *)
Definition keeps s s' : Prop := mp_mem s' ⊆ mp_mem s /\ mp_bio s' = mp_bio s /\ last_block_in_bio s' = last_block_in_bio s.

Lemma keeps_trans s1 s2 s3 : keeps s1 s2 -> keeps s2 s3 -> keeps s1 s3.
Proof using. intros (?&?&?) (?&?&?). split_and!; [set_solver|congruence..]. Qed.

(** A computation that ends, or stops the kernel. *)
Definition ends {X} (x : St (mpage_data T) X) s (Q : X -> mpage_data T -> Prop) : Prop :=
  wp x s (fun r s' => match r with Ok a => Q a s' | Err _ => False | Bug => True end).

Lemma ends_bind {X Y} (x : St (mpage_data T) X) (f : X -> St (mpage_data T) Y) s P Q :
  ends x s P -> (forall a s', P a s' -> ends (f a) s' Q) -> ends (bind x f) s Q.
Proof using. intros Hx Hf. unfold ends in *. apply wp_bind. eapply wp_mono; [exact Hx|]. intros [a|e|] s' H; [by apply Hf|done|done]. Qed.

Lemma ends_mono {X} (x : St (mpage_data T) X) s (P Q : X -> mpage_data T -> Prop) : ends x s P -> (forall a s', P a s' -> Q a s') -> ends x s Q.
Proof using. intros Hx H. unfold ends in *. eapply wp_mono; [exact Hx|]. intros [a|e|] s' HP; [by apply H|done|done]. Qed.

Lemma ends_ret {X} (a : X) s (Q : X -> mpage_data T -> Prop) : Q a s -> ends (ret a) s Q.
Proof using. done. Qed.
Lemma ends_gets {X Y} (g : mpage_data T -> X) (f : X -> St (mpage_data T) Y) s Q : ends (f (g s)) s Q -> ends (bind (gets g) f) s Q.
Proof using. done. Qed.
Lemma ends_modify {Y} g (f : unit -> St (mpage_data T) Y) s Q : ends (f tt) (g s) Q -> ends (bind (modify g) f) s Q.
Proof using. done. Qed.
Lemma ends_BUG_ON {Y} c (f : unit -> St (mpage_data T) Y) s Q : (c = false -> ends (f tt) s Q) -> ends (bind (BUG_ON c) f) s Q.
Proof using. destruct c; [done|]. intros H. by apply H. Qed.
Lemma ends_in_mapping {X Y} (x : St (mapping T) X) (f : X -> St (mpage_data T) Y) s P Q :
  wp x (mp_mapping s) (fun r m => match r with Ok a => P a m | Err _ => False | Bug => True end) ->
  (forall a m, P a m -> ends (f a) (set_mapping m s) Q) -> ends (bind (in_mapping x) f) s Q.
Proof using.
  intros Hx Hf. apply wp_bind, wp_zoom. eapply wp_mono; [exact Hx|]. intros [a|e|] m H; [by apply Hf|done|done].
Qed.

Lemma submit_ends b s : ends (emmcfs_mpage_bio_submit b) s (fun r s' =>
  r = None /\ bi_vecs b <> [] /\ keeps s s' /\ mp_mapping s' = complete b (mp_mapping s)).
Proof using.
  unfold emmcfs_mpage_bio_submit. apply ends_BUG_ON. intros H. apply bool_decide_eq_false in H. apply ends_gets. cbn [id].
  apply ends_modify, ends_BUG_ON. intros _. apply ends_modify, ends_ret. by split_and!.
Qed.

Lemma bio_alloc_ends s : ends bio_alloc s (fun r s' => keeps s s' /\ mp_mapping s' = mp_mapping s /\ (r = false -> false ∈ mp_mem s)).
Proof using.
  unfold ends, wp, bio_alloc. cbn. destruct (mp_mem s) as [|x l] eqn:E; cbn; (split; [split; [cbn; rewrite E; set_solver|done]|]); (split; [done|]).
  - done.
  - intros ->. left.
Qed.

Lemma alloc_fewer_ends fuel n s : ends (alloc_fewer fuel n) s (fun r s' => keeps s s' /\ mp_mapping s' = mp_mapping s).
Proof using.
  revert n s. induction fuel as [|fuel IH]; intros n s; cbn [alloc_fewer]; [by apply ends_ret|].
  destruct (_ =? _); [by apply ends_ret|]. eapply ends_bind; [apply bio_alloc_ends|]. intros [] s' (K & E & _); [by apply ends_ret|].
  eapply ends_mono; [apply IH|]. intros a s2 (K2 & E2). split; [by eapply keeps_trans|congruence].
Qed.

Lemma mpage_alloc_ends sec s : ends (emmcfs_mpage_alloc nr_vecs memalloc sec) s (fun r s' => keeps s s' /\ mp_mapping s' = mp_mapping s /\
  match r with Some b => b = Bio sec [] | None => false ∈ mp_mem s end).
Proof using.
  unfold emmcfs_mpage_alloc. eapply ends_bind; [apply bio_alloc_ends|]. intros ok s1 (K1 & E1 & H1).
  eapply (ends_bind _ _ _ (fun ok' s' => keeps s s' /\ mp_mapping s' = mp_mapping s /\ (ok' = false -> false ∈ mp_mem s))).
  - destruct ok; cbn [negb andb]; [by apply ends_ret|]. destruct memalloc; [|by apply ends_ret].
    eapply ends_mono; [apply alloc_fewer_ends|]. intros a s2 (K2 & E2).
    split; [by eapply keeps_trans|]. split; [congruence|auto].
  - intros ok' s2 (K2 & E2 & H2). apply ends_ret. split; [done|]. split; [done|]. destruct ok'; auto.
Qed.

(** A new request, for the page alone; the page is taken, or the kernel stops. *)
Lemma alloc_first_ends room sec v s : ends (alloc_new nr_vecs memalloc room sec v None) s (fun r s' => keeps s s' /\
  mp_mapping s' = mp_mapping s /\ match r with Some b' => b' = Bio sec [v] | None => false ∈ mp_mem s end).
Proof using.
  assert (forall room', ends (do b <- emmcfs_mpage_alloc nr_vecs memalloc sec;
    match b with
    | None => ret None
    | Some b =>
      do_ modify (fun s => set_answers (mp_mem s) (tail room) (mp_sent s) s);
      match room with
      | false :: room => do b <- emmcfs_mpage_bio_submit b; alloc_new nr_vecs memalloc room' sec v b
      | _ => ret (Some (Bio (bi_sector b) (bi_vecs b ++ [v])))
      end
    end) s (fun r s' => keeps s s' /\
    mp_mapping s' = mp_mapping s /\ match r with Some b' => b' = Bio sec [v] | None => false ∈ mp_mem s end)) as H.
  { intros room'. eapply ends_bind; [apply mpage_alloc_ends|]. intros [b|] s1 (K1 & E1 & H1); [|by apply ends_ret].
    subst b. apply ends_modify. destruct room as [|[] room]; try (apply ends_ret; by split_and!). done. }
  destruct room as [|x room]; [apply (H [])|apply (H room)].
Qed.

(** The request that the page joins, or none for want of memory. *)
Lemma alloc_new_ends room sec v (b : option bio) s : match b with Some b => bi_vecs b <> [] | None => True end ->
  ends (alloc_new nr_vecs memalloc room sec v b) s (fun r s' => keeps s s' /\
    match r with
    | None => mp_mapping s' = flush b (mp_mapping s) /\ false ∈ mp_mem s
    | Some b' => exists sec0 vs, b' = Bio sec0 (vs ++ [v]) /\
        (b = Some (Bio sec0 vs) /\ mp_mapping s' = mp_mapping s \/ vs = [] /\ sec0 = sec /\ mp_mapping s' = flush b (mp_mapping s))
    end).
Proof using.
  intros Hb. destruct b as [b|].
  - destruct room as [|[] room]; cbn [alloc_new].
    1, 2: apply (ends_bind _ _ _ (fun r s' => r = Some b /\ s' = s)); [done|]; intros r s1 [-> ->]; apply ends_modify, ends_ret;
      split; [done|]; exists (bi_sector b), (bi_vecs b); split; [done|]; left; split; [by destruct b|done].
    apply (ends_bind _ _ _ (fun r s' => r = Some b /\ s' = s)); [done|]. intros r s1 [-> ->]. apply ends_modify.
    eapply ends_bind; [apply submit_ends|]. intros r s1 (-> & _ & K1 & E1).
    eapply ends_mono; [apply alloc_first_ends|]. intros [b'|] s2; intros (K2 & E2 & H2); (split; [by eapply keeps_trans|]).
    + exists sec, []. split; [done|]. right. split; [done|]. split; [done|]. by rewrite E2, E1.
    + split; [by rewrite E2, E1|]. destruct K1 as [K1 _]. by apply K1.
  - eapply ends_mono; [apply alloc_first_ends|]. intros [b'|] s2; intros (K2 & E2 & H2); (split; [done|]).
    + exists sec, []. split; [done|]. by right.
    + by split.
Qed.
End requests.

(** ** A page that joins a request *)
Section join.
Context {T : Type}.
Implicit Types (m : mapping T) (vs : list (Z * Z)).

Lemma alter_all_apart i vs (p : gmap Z cached) : i ∉ map fst vs ->
  foldr (fun v p => alter end_writeback (fst v) p) (alter end_writeback i p) vs =
  alter end_writeback i (foldr (fun v p => alter end_writeback (fst v) p) p vs).
Proof.
  induction vs as [|w vs IH]; cbn [foldr map]; [done|]. rewrite not_elem_of_cons. intros [H1 H2].
  rewrite IH by done. by apply alter_alter_ne.
Qed.

Lemma complete_join a a' vs v m : fst v ∉ map fst vs ->
  a' * SECTOR_SIZE = a * SECTOR_SIZE + Z.of_nat (length (concat (map (vec_bytes m) vs))) ->
  complete (Bio a (vs ++ [v])) m ≃ complete (Bio a' [v]) (complete (Bio a vs) m).
Proof.
  intros Hv Ha. assert (vec_bytes (complete (Bio a vs) m) v = vec_bytes m v) as Ev by (unfold vec_bytes; by rewrite lookup_complete).
  split_and!; try done.
  - cbn. rewrite foldr_app. cbn. by apply alter_all_apart.
  - intros x. unfold complete at 2. cbn [bi_vecs bi_sector map concat m_disk set_cache set_disk]. rewrite app_nil_r, Ev, Ha. cbn.
    rewrite map_app, concat_app. cbn. rewrite app_nil_r. symmetry. apply dwrite_app.
Qed.

Lemma complete_empty a m : complete (Bio a []) m ≃ m.
Proof.
  split_and!; try done. intros x. cbn. unfold dwrite. cbn. rewrite Z.add_0_r.
  destruct (Z.leb_spec (a * SECTOR_SIZE) x), (Z.ltb_spec x (a * SECTOR_SIZE)); simpl; try done; lia.
Qed.

Lemma length_full_vecs vs m : Forall (fun v => snd v = 4096 /\ exists c, m_pages m !! fst v = Some c /\ Z.of_nat (length (c_data c)) = 4096) vs ->
  Z.of_nat (length (concat (map (vec_bytes m) vs))) = 4096 * Z.of_nat (length vs).
Proof.
  induction 1 as [|v vs (E & c & Hc & Hl) _ IH]; [done|]. cbn [map concat length]. rewrite length_app, Nat2Z.inj_add, IH.
  unfold vec_bytes. rewrite Hc, E, length_take. lia.
Qed.
End join.
