(* ===== verification/WritebackTheorems.v ===== *)
(** * Writing the pages of a file: theorems

    The batches of [emmcfs_mpage_writepages] write what a page at a time would
    write; the metadata of a volume with the journal. *)

From S2P Require Import Prelude Monad Data FsmBtree Fsm Fork Vfs Super Writeback WritebackProofs.
Open Scope Z_scope.

(** ** A page at a time *)
Section reference.
Context {T : Type} (i_size blkbits : Z) (get_block : Z -> St T block_map) (writepage : Z -> St (mapping T) Z).
Abbreviation bpp := (blocks_per_page blkbits).
Implicit Types (m : mapping T).

(** The blocks of the page [i] are on the device, clean, and the page is free
    again. *)
Definition write_alone (i : Z) (blocks : list Z) (n : nat) (boundary : bool) (bb : Z) m : mapping T :=
  let sector := u64 (Z.shiftl (default 0 (head blocks)) (blkbits - 9)) in
  let m := set_disk (dwrite (m_disk m) (sector * SECTOR_SIZE) (vec_bytes m (i, Z.shiftl (Z.of_nat n) blkbits))) (m_buffers m) m in
  let m := set_cache (alter (fun c => set_flags (c_dirty c) false false (clean_buffers n c)) i (m_pages m)) m in
  if (boundary || negb (n =? bpp)%nat) && negb (bb =? 0) then snd (emmcfs_write_boundary_block blkbits bb m) else m.

Definition scan_page (i : Z) : St (mapping T) scan := bind (map_page i_size blkbits get_block i) (page_is_mapped i_size i).

(** One page: its blocks are written directly, or [writepage] does it, which
    happens to pages that the scan gives up and, when there is no memory, to
    others. *)
Inductive one_page (no_memory : Prop) (i : Z) : Z -> mapping T -> mapping T -> Prop :=
  | page_direct m m0 m1 m2 blocks n boundary bb :
      m ≃ m0 -> scan_page i m0 = (Ok (Mapped blocks n boundary bb), m1) -> write_alone i blocks n boundary bb m1 ≃ m2 ->
      one_page no_memory i 0 m m2
  | page_passed m m0 m1 m2 r e :
      m ≃ m0 -> scan_page i m0 = (Ok r, m1) -> r = Confused \/ no_memory -> writepage i m1 = (Ok e, m2) ->
      one_page no_memory i e m (set_error (m_error m2 || negb (e =? 0)) m2).

(** The walk of the kernel takes a dirty page, clean and locked; a page that
    comes back with [AOP_WRITEPAGE_ACTIVATE] is unlocked, any other code but 0
    ends the walk. *)
Definition take_page (c : cached) : cached := set_flags false (c_writeback c) true c.
Definition unlock_page (c : cached) : cached := set_flags (c_dirty c) (c_writeback c) false c.
Definition alter_page (f : cached -> cached) (i : Z) m : mapping T := set_cache (alter f i (m_pages m)) m.

Inductive one_by_one (no_memory : Prop) : list Z -> Z -> mapping T -> mapping T -> Prop :=
  | walk_end m : one_by_one no_memory [] 0 m m
  | walk_written i l r m m1 m2 : one_page no_memory i 0 (alter_page take_page i m) m1 -> one_by_one no_memory l r m1 m2 ->
      one_by_one no_memory (i :: l) r m m2
  | walk_activated i l r m m1 m2 : one_page no_memory i AOP_WRITEPAGE_ACTIVATE (alter_page take_page i m) m1 ->
      one_by_one no_memory l r (alter_page unlock_page i m1) m2 -> one_by_one no_memory (i :: l) r m m2
  | walk_error i l e m m1 : one_page no_memory i e (alter_page take_page i m) m1 -> e <> 0 -> e <> AOP_WRITEPAGE_ACTIVATE ->
      one_by_one no_memory (i :: l) e m m1.

(** The same of a walk whose pages go into requests: what [write_cache_pages] is
    documented to do with the dirty pages [l]. *)
Fixpoint hand_over (write : Z -> St (mpage_data T) Z) (l : list Z) : St (mpage_data T) Z :=
  match l with
  | [] => ret 0
  | i :: l =>
    do_ in_mapping (modify (alter_page take_page i));
    do e <- write i;
    if e =? AOP_WRITEPAGE_ACTIVATE then do_ in_mapping (modify (alter_page unlock_page i)); hand_over write l
    else if e =? 0 then hand_over write l
    else ret e
  end.
End reference.

#[export] Instance boundary_proper {T} blkbits bb :
  Proper (same_mapping (T := T) ==> same_mapping) (fun m => snd (emmcfs_write_boundary_block blkbits bb m)).
Proof.
  intros m m' (E1 & E2 & E3 & E4 & E5). unfold emmcfs_write_boundary_block, modify. cbn [snd]. rewrite E4.
  destruct (m_buffers m' !! _) as [[[] l]|]; split_and!; try done. intros x. cbn. by apply dwrite_same.
Qed.

(** ** Walks that do not stop the kernel *)
Section runs.
Context {T : Type} (i_size blkbits nr_vecs : Z) (memalloc : bool).
Context (get_block : Z -> St T block_map) (writepage : Z -> St (mapping T) Z).
Implicit Types (m : mapping T) (s : mpage_data T) (l : list Z).

(** A page that may be written: not under writeback, its buffers unlocked, and
    without buffers read from the device. *)
Definition ready (c : cached) : Prop := c_writeback c = false /\
  match c_buffers c with Some bufs => Forall (fun b => bu_locked b = false) bufs | None => c_uptodate c = true end.
Definition waiting l m : Prop := forall i, i ∈ l -> exists c, m_pages m !! i = Some c /\ ready c.

(** Requests are filled and sent; there may be no memory. *)
Definition undisturbed l s : Prop := false ∉ mp_room s /\ false ∉ mp_sent s /\ waiting l (mp_mapping s).
(** [get_block] and [writepage] do not stop the kernel, and leave other pages
    ready. *)
Definition never_stops : Prop := (forall ib t, fst (get_block ib t) <> Bug) /\
  forall i l m, i ∉ l -> waiting (i :: l) m -> wp (writepage i) m (ok (fun _ m' => waiting l m')).

Lemma waiting_alter f i l m : (forall c, ready c -> ready (f c)) -> waiting l m -> waiting l (alter_page f i m).
Proof using.
  intros Hf H j Hj. destruct (H j Hj) as (c & Hc & Hr). cbn. destruct (decide (i = j)) as [<-|Hne].
  - exists (f c). rewrite lookup_alter_eq, Hc. auto.
  - exists c. by rewrite lookup_alter_ne.
Qed.

Lemma ready_end_writeback c : ready c -> ready (end_writeback c).
Proof using. by intros [_ H]. Qed.

Lemma waiting_complete b l m : waiting l m -> waiting l (complete b m).
Proof using.
  intros H. change (waiting l (set_cache (foldr (fun v p => alter end_writeback (fst v) p) (m_pages m) (bi_vecs b)) m)).
  induction (bi_vecs b) as [|v vs IH]; cbn [foldr]; [exact H|]. exact (waiting_alter end_writeback (fst v) l _ ready_end_writeback IH).
Qed.

Lemma waiting_incl l l' m : l' ⊆ l -> waiting l m -> waiting l' m.
Proof using. intros Hl H i Hi. by apply H, Hl. Qed.

Lemma change_page_runs i f l m : i ∈ l -> waiting l m -> wp (change_page i f) m (ok (fun _ m' => exists c,
  m_pages m !! i = Some c /\ ready c /\ m' = set_page i (f c) m)).
Proof using.
  intros Hi H. destruct (H i Hi) as (c & Hc & Hr). unfold wp, change_page, bind, page_of. rewrite Hc. by exists c.
Qed.

Lemma waiting_set_page i c l m : (i ∈ l -> ready c) -> waiting l m -> waiting l (set_page i c m).
Proof using.
  intros Hc H j Hj. cbn. destruct (decide (i = j)) as [<-|Hne]; [exists c; rewrite lookup_insert_eq; auto|].
  rewrite lookup_insert_ne by done. by apply H.
Qed.

Lemma submit_runs b l s : bi_vecs b <> [] -> undisturbed l s ->
  wp (emmcfs_mpage_bio_submit b) s (ok (fun r s' => r = None /\ undisturbed l s' /\ mp_bio s' = mp_bio s)).
Proof using.
  intros Hb (H1 & H2 & H3). unfold emmcfs_mpage_bio_submit. rewrite bool_decide_eq_false_2 by done. cbn [BUG_ON].
  unfold wp, bind, gets, modify, in_mapping, zoom. cbn. destruct (mp_sent s) as [|[] l'] eqn:E; cbn.
  - split; [done|]. split; [|done]. split_and!; [done|apply not_elem_of_nil|]. by apply waiting_complete.
  - apply not_elem_of_cons in H2 as [_ H2]. split; [done|]. split; [|done]. split_and!; [done|exact H2|]. by apply waiting_complete.
  - apply not_elem_of_cons in H2 as [H2 _]. done.
Qed.

Lemma bio_alloc_runs l s : undisturbed l s -> wp bio_alloc s (ok (fun _ s' => undisturbed l s' /\ mp_room s' = mp_room s)).
Proof using. by intros H. Qed.

Lemma alloc_fewer_runs fuel n l s : undisturbed l s -> wp (alloc_fewer fuel n) s (ok (fun _ s' => undisturbed l s' /\ mp_room s' = mp_room s)).
Proof using.
  revert n s. induction fuel as [|fuel IH]; intros n s H; cbn [alloc_fewer]; [by apply wp_ret|].
  destruct (_ =? _); [by apply wp_ret|]. eapply wp_seq; [by apply bio_alloc_runs|]. intros [] s1 [H1 E1]; [by apply wp_ret|].
  rewrite <- E1. by apply IH.
Qed.

Lemma mpage_alloc_runs sec l s : undisturbed l s ->
  wp (emmcfs_mpage_alloc nr_vecs memalloc sec) s (ok (fun _ s' => undisturbed l s' /\ mp_room s' = mp_room s)).
Proof using.
  intros H. unfold emmcfs_mpage_alloc. eapply wp_seq; [by apply bio_alloc_runs|]. intros ok1 s1 [H1 E1].
  eapply (wp_seq _ _ _ (fun _ s' => undisturbed l s' /\ mp_room s' = mp_room s)); [|intros ok2 s2 H2; by apply wp_ret].
  destruct (_ && _); [|by apply wp_ret]. rewrite <- E1. by apply alloc_fewer_runs.
Qed.

Definition filled_in (b : option bio) : Prop := match b with Some b => bi_vecs b <> [] | None => True end.

Lemma alloc_new_runs room sec v (b : option bio) l s : false ∉ room -> filled_in b -> undisturbed l s ->
  wp (alloc_new nr_vecs memalloc room sec v b) s (ok (fun r s' => undisturbed l s' /\ filled_in r)).
Proof using.
  intros Hroom Hb H. destruct room as [|r room]; cbn [alloc_new];
    (apply (wp_seq _ _ _ (fun _ s' => undisturbed l s' /\ mp_room s' = mp_room s)); [destruct b; [by apply wp_ret|by apply mpage_alloc_runs]|]);
    intros [b1|] s1 [(H1 & H2 & H3) _]; (try (apply wp_ret; by split_and!)); apply wp_modify.
  - apply wp_ret. split; [split_and!; [apply not_elem_of_nil|done..]|]. by destruct (bi_vecs b1).
  - destruct r; [|exfalso; apply Hroom; left]. apply wp_ret. split; [split_and!; [by apply not_elem_of_cons in Hroom as [_ ?]|done..]|]. by destruct (bi_vecs b1).
Qed.

(** The scan. *)
Lemma check_buffers_runs bufs blocks first bnd bb : Forall (fun b => bu_locked b = false) bufs ->
  exists r, check_buffers blkbits bufs blocks first bnd bb = Ok r.
Proof using.
  intros H. revert blocks first bnd bb. induction H as [|b bufs Hb H IH]; intros; cbn [check_buffers]; [by eexists|].
  rewrite Hb. repeat (case_match; try (by eexists)); apply IH.
Qed.

Lemma map_blocks_runs n ib blocks bnd bb m : never_stops ->
  wp (map_blocks i_size blkbits get_block n ib blocks bnd bb) m (ok (fun _ m' => m_pages m' = m_pages m)).
Proof using.
  intros [Hb _]. revert ib blocks bnd bb m. induction n as [|n IH]; intros; cbn [map_blocks]; [by apply wp_ret|].
  apply wp_try, wp_zoom. unfold wp at 1. pose proof (Hb ib (m_file m)) as Hx. destruct (get_block ib (m_file m)) as [[x|e|] t]; cbn [fst snd] in *; [|by apply wp_ret|done].
  apply (wp_seq _ _ _ (fun _ m' => m_pages m' = m_pages m)); [by destruct (bm_new x)|]. intros _ m1 E1.
  destruct (negb _); [by apply wp_ret|]. destruct (_ =? _); [by apply wp_ret|]. rewrite <- E1. apply IH.
Qed.

Lemma scan_runs i l m : never_stops -> i ∈ l -> waiting l m ->
  wp (scan_page i_size blkbits get_block i) m (ok (fun _ m' => waiting l m')).
Proof using.
  intros Hns Hi H. unfold scan_page, map_page. destruct (H i Hi) as (c & Hc & Hw & Hr).
  apply (wp_seq _ _ _ (fun _ m' => waiting l m')).
  - apply (wp_seq _ _ _ (fun c' m' => c' = c /\ m' = m)); [unfold wp, page_of; by rewrite Hc|]. intros c' m' [-> ->].
    destruct (c_buffers c) as [bufs|].
    + unfold wp. cbn. by destruct (check_buffers_runs bufs [] None false 0 Hr) as (r & ->).
    + apply wp_BUG_ON; [by rewrite Hr|]. eapply wp_ok_mono; [by apply map_blocks_runs|]. intros r m1 E j Hj. rewrite E. by apply H.
  - intros [|blocks n bnd bb] m1 H1; [by apply wp_ret|]. unfold page_is_mapped. destruct (_ >=? _); [|by apply wp_ret].
    destruct (_ || _); [by apply wp_ret|]. eapply wp_seq; [by apply (change_page_runs i _ l)|]. intros u m2 (c2 & _ & [? ?] & ->).
    apply wp_ret. by apply waiting_set_page.
Qed.

(** One page, and the walk. *)
Lemma confused_runs i (b : option bio) l s : never_stops -> i ∉ l -> filled_in b -> undisturbed (i :: l) s ->
  wp (confused writepage i b) s (ok (fun _ s' => undisturbed l s' /\ filled_in (mp_bio s'))).
Proof using.
  intros [_ Hns] Hi Hb H. unfold confused. apply (wp_seq _ _ _ (fun _ s' => undisturbed (i :: l) s')).
  { destruct b as [b|]; [|by apply wp_ret]. eapply wp_ok_mono; [by apply submit_runs|]. by intros r s1 (_ & ? & _). }
  intros _ s1 (H1 & H2 & H3). apply wp_bind, wp_zoom. eapply wp_mono; [by apply (Hns i l)|].
  intros [e| |] m2 H4; [|done|done]. by split_and!.
Qed.

Lemma mpage_writepage_runs i l s : never_stops -> i ∉ l -> filled_in (mp_bio s) -> undisturbed (i :: l) s ->
  wp (emmcfs_mpage_writepage i_size blkbits nr_vecs memalloc get_block writepage i) s
    (ok (fun _ s' => undisturbed l s' /\ filled_in (mp_bio s'))).
Proof using.
  intros Hns Hi Hb (H1 & H2 & H3). unfold emmcfs_mpage_writepage. apply wp_gets.
  apply wp_bind, wp_zoom. eapply wp_mono; [apply (scan_runs i (i :: l)); [done|left|done]|].
  intros [r| |] m1 Hm1; [|done|done]. set (s1 := set_mapping m1 s).
  assert (undisturbed (i :: l) s1) as Hs1 by (by split_and!). clearbody s1.
  destruct r as [|blocks n bnd bb]; [by apply confused_runs|]. apply wp_gets. cbv zeta.
  apply (wp_seq _ _ _ (fun b s' => undisturbed (i :: l) s' /\ filled_in b)).
  { destruct (mp_bio s) as [b|]; [|by apply wp_ret]. destruct (_ =? _); [by apply wp_ret|].
    eapply wp_ok_mono; [by apply submit_runs|]. by intros r s2 (-> & ? & _). }
  intros b s2 [Hs2 Hb2]. apply wp_gets.
  eapply wp_seq; [apply alloc_new_runs; [by destruct Hs2|exact Hb2|exact Hs2]|].
  intros [b3|] s3 [Hs3 Hb3]; [|by apply confused_runs].
  destruct Hs3 as (H4 & H5 & H6).
  apply wp_bind, wp_zoom. eapply wp_mono; [apply (change_page_runs i _ (i :: l)); [left|done]|].
  intros [| |] m4; [|done|done]. intros (c & Hc & [Hw Hr] & ->).
  assert (waiting l (set_page i (clean_buffers n c) (mp_mapping s3))) as H7.
  { apply waiting_set_page; [done|]. eapply waiting_incl; [|exact H6]. intros j Hj. by right. }
  apply wp_bind, wp_zoom. unfold wp at 1, page_of. cbn [m_pages set_page set_cache set_mapping mp_mapping]. rewrite lookup_insert_eq. cbn [fst snd].
  apply wp_BUG_ON; [done|]. apply wp_bind, wp_zoom. unfold wp at 1, change_page, bind, page_of.
  cbn [m_pages set_page set_cache set_mapping mp_mapping]. rewrite lookup_insert_eq. cbn [fst snd modify].
  assert (forall c', waiting l (set_page i c' (set_page i (clean_buffers n c) (mp_mapping s3)))) as H8.
  { intros c'. by apply waiting_set_page. }
  destruct (_ || _).
  - eapply wp_seq; [apply (submit_runs _ l); [exact Hb3|split_and!; [done..|apply H8]]|]. intros r s5 (-> & (H9 & H10 & H11) & _).
    apply (wp_seq _ _ _ (fun _ s' => undisturbed l s')).
    { destruct (_ =? _); [by apply wp_ret|]. unfold wp, in_mapping, zoom, emmcfs_write_boundary_block, modify. cbn.
      split_and!; [done..|]. intros j Hj. cbn. by destruct (m_buffers _ !! _) as [[[] ?]|]; apply H11. }
    intros _ s6 H12. cbn. by split.
  - cbn. split; [|exact Hb3]. split_and!; [done..|apply H8].
Qed.

Lemma hand_over_runs l s : never_stops -> NoDup l -> filled_in (mp_bio s) -> undisturbed l s ->
  wp (hand_over (emmcfs_mpage_writepage i_size blkbits nr_vecs memalloc get_block writepage) l) s
    (ok (fun _ s' => undisturbed [] s' /\ filled_in (mp_bio s'))).
Proof using.
  intros Hns Hnd. revert s. induction Hnd as [|i l Hi Hnd IH]; intros s Hb (H1 & H2 & H3); cbn [hand_over]; [by apply wp_ret|].
  apply wp_modify. eapply wp_seq.
  { apply (mpage_writepage_runs i l); [done|done|exact Hb|]. split_and!; [done..|]. by apply waiting_alter. }
  intros e s2 [(H4 & H5 & H6) Hb2]. destruct (_ =? _); [|destruct (_ =? _)].
  - apply wp_modify. apply IH; [exact Hb2|]. split_and!; [done..|]. by apply waiting_alter.
  - by apply IH.
  - apply wp_ret. split; [split_and!; [done..|]|done]. intros j Hj. by apply elem_of_nil in Hj.
Qed.

Lemma writepages_runs (write_cache_pages : (Z -> St (mpage_data T) Z) -> St (mpage_data T) Z) l s :
  (forall write s, write_cache_pages write s = hand_over write l s) -> NoDup l -> never_stops -> undisturbed l s ->
  wp (emmcfs_mpage_writepages i_size blkbits nr_vecs memalloc get_block writepage write_cache_pages) s
    (ok (fun _ s' => undisturbed [] s')).
Proof using.
  intros Hw Hnd Hns H. unfold emmcfs_mpage_writepages. apply wp_modify, wp_modify. eapply wp_seq.
  { unfold wp. rewrite Hw. by apply hand_over_runs. }
  intros r s1 [H1 Hb]. apply wp_gets. apply (wp_seq _ _ _ (fun _ s' => undisturbed [] s')); [|intros _ s2 H2; by apply wp_ret].
  destruct (mp_bio s1) as [b|]; [|by apply wp_ret]. eapply wp_ok_mono; [by apply submit_runs|]. by intros r' s2 (_ & ? & _).
Qed.
End runs.

(** ** Batches *)
Section batches.
Context {T : Type} (i_size blkbits nr_vecs : Z) (memalloc : bool).
Context (get_block : Z -> St T block_map) (writepage : Z -> St (mapping T) Z).
Context (Hbits : 9 <= blkbits <= 12).
(** The blocks that [get_block] gives have addresses; [writepage] answers with
    a code and leaves pages as they are made. *)
Context (Hplaces : places_ok get_block).
Context (Hpasses : forall i m, pages_fit blkbits m -> wp (writepage i) m (fun r m' => match r with Ok _ => pages_fit blkbits m' | Err _ => False | Bug => True end)).
Abbreviation bpp := (blocks_per_page blkbits).
Abbreviation scan_page := (scan_page i_size blkbits get_block).
Abbreviation one_page := (one_page i_size blkbits get_block writepage).
Abbreviation mpage_writepage := (emmcfs_mpage_writepage i_size blkbits nr_vecs memalloc get_block writepage).
Abbreviation pages_fit := (pages_fit blkbits).
Implicit Types (m : mapping T) (s : mpage_data T).

Definition full m (v : Z * Z) : Prop := snd v = 4096 /\ exists c, m_pages m !! fst v = Some c /\ Z.of_nat (length (c_data c)) = 4096.

(** The pending request: whole pages, one after the other up to the last
    block. *)
Record queue_ok (b : bio) (last_block : Z) m : Prop := {
  q_some : bi_vecs b <> [];
  q_full : Forall (full m) (bi_vecs b);
  q_place : exists b0, 0 <= b0 /\ bi_sector b = u64 (Z.shiftl b0 (blkbits - 9)) /\
    last_block = b0 + Z.of_nat bpp * Z.of_nat (length (bi_vecs b)) - 1 /\ last_block < 2 ^ 48 + 8
}.

(** [m] is the state once the pending request has been sent. *)
Record sim (seen : list Z) s m : Prop := {
  sm_flush : m ≃ flush (mp_bio s) (mp_mapping s);
  sm_fit : pages_fit (mp_mapping s);
  sm_queue : match mp_bio s with Some b => queue_ok b (last_block_in_bio s) (mp_mapping s) /\ pages_in b ⊆ seen | None => True end
}.

Lemma pages_fit_complete b m : pages_fit m -> pages_fit (complete b m).
Proof using.
  intros H j. cbn. generalize (bi_vecs b). intros vs. induction vs as [|v vs IH]; intros c; cbn [foldr]; [apply H|].
  rewrite lookup_alter_Some. intros [(_ & c' & Hc & ->)|[_ Hc]]; [|by apply IH]. by destruct (IH c' Hc).
Qed.

Lemma pages_fit_flush b m : pages_fit m -> pages_fit (flush b m).
Proof using. destruct b; [apply pages_fit_complete|done]. Qed.

Lemma pages_fit_scan i m m' : changed_data i m m' -> pages_fit m -> pages_fit m'.
Proof using.
  intros Hch H j c' Hc'. specialize (Hch j). rewrite Hc' in Hch. destruct (m_pages m !! j) as [c|] eqn:Hc; [|done].
  destruct (H j c Hc) as [H1 H2]. destruct Hch as [->|(_ & l & Hl & ->)]; [done|]. split; [cbn; lia|done].
Qed.

Lemma full_scan i m m' vs : changed_data i m m' -> Forall (full m) vs -> Forall (full m') vs.
Proof using.
  intros Hch H. apply (Forall_impl _ _ _ H). intros v (E & c & Hc & Hl). split; [done|]. specialize (Hch (fst v)). rewrite Hc in Hch.
  destruct (m_pages m' !! fst v) as [c'|] eqn:Hc'; [|done]. destruct Hch as [->|(_ & l & Hl' & ->)]; [by exists c|].
  eexists. split; [done|]. cbn. lia.
Qed.

(** The page goes to [writepage]; a pending request is sent before. *)
Lemma confused_ends i (b : option bio) s : pages_fit (mp_mapping s) ->
  ends (confused writepage i b) s (fun e s' => exists m2, writepage i (flush b (mp_mapping s)) = (Ok e, m2) /\ pages_fit m2 /\
    mp_mapping s' = set_error (m_error m2 || negb (e =? 0)) m2 /\ mp_bio s' = None /\ mp_mem s' ⊆ mp_mem s).
Proof using Hpasses.
  intros Hfit. unfold confused.
  apply (ends_bind _ _ _ (fun _ s' => mp_mapping s' = flush b (mp_mapping s) /\ mp_mem s' ⊆ mp_mem s)).
  { destruct b as [b|]; [|by apply ends_ret]. eapply ends_mono; [apply submit_ends|]. intros r s1 (_ & _ & (K & _) & E). by split. }
  intros _ s1 (E1 & K1). apply (ends_in_mapping _ _ _ (fun e m2 => writepage i (flush b (mp_mapping s)) = (Ok e, m2) /\ pages_fit m2)).
  { rewrite E1. pose proof (Hpasses i (flush b (mp_mapping s)) (pages_fit_flush b _ Hfit)) as W. unfold wp in *.
    destruct (writepage i _) as [[e|e|] m2]; [by split|done|done]. }
  intros e m2 (E2 & F2). apply ends_modify, ends_modify, ends_ret. exists m2. by split_and!.
Qed.

(** The page in a request that is about to be sent. *)
Definition queued (n : nat) (c : cached) : cached := set_flags (c_dirty c) true false (clean_buffers n c).

(** A page that joins a request is written as if alone; [mf] is the state in
    which the rest of the request has been sent. *)
Lemma join_alone sec0 vs i blocks n m mf c : complete (Bio sec0 vs) m ≃ mf -> i ∉ map fst vs -> m_pages m !! i = Some c ->
  u64 (Z.shiftl (default 0 (head blocks)) (blkbits - 9)) * SECTOR_SIZE = sec0 * SECTOR_SIZE + 4096 * Z.of_nat (length vs) ->
  Forall (full m) vs ->
  complete (Bio sec0 (vs ++ [(i, Z.shiftl (Z.of_nat n) blkbits)])) (set_page i (queued n c) m) ≃
    write_alone blkbits i blocks n false 0 mf.
Proof using.
  intros Hmf Hi Hc Hsec Hfull. set (v := (i, Z.shiftl (Z.of_nat n) blkbits)).
  rewrite (complete_join _ (u64 (Z.shiftl (default 0 (head blocks)) (blkbits - 9)))); [|done|].
  2: { rewrite Hsec, length_full_vecs; [done|]. apply Forall_forall. intros w Hw. rewrite Forall_forall in Hfull.
       destruct (Hfull w Hw) as (E & c' & Hc' & Hl). split; [done|]. exists c'. cbn. rewrite lookup_insert_ne; [done|].
       intros ->. apply Hi. by apply list_elem_of_fmap_2. }
  rewrite complete_set_page by done. rewrite Hmf.
  assert (m_pages mf !! i = Some c) as Hcf.
  { destruct Hmf as (_ & <- & _). by rewrite lookup_complete. }
  unfold write_alone. rewrite andb_false_r. split_and!; try done.
  - cbn. apply map_eq. intros j. destruct (decide (i = j)) as [<-|Hj].
    + by rewrite !lookup_alter_eq, lookup_insert_eq, Hcf.
    + by rewrite !lookup_alter_ne, lookup_insert_ne by done.
  - intros x. cbn. rewrite app_nil_r. f_equal. unfold vec_bytes. cbn. by rewrite lookup_insert_eq, Hcf.
Qed.

Lemma set_page_twice i c c' m : set_page i c (set_page i c' m) = set_page i c m.
Proof using. unfold set_page, set_cache. cbn. by rewrite insert_insert_eq. Qed.

(** The buffers are marked and the page is put under writeback. *)
Lemma queue_page {Y} i n s c (f : unit -> St (mpage_data T) Y) Q : m_pages (mp_mapping s) !! i = Some c ->
  ends (f tt) (set_mapping (set_page i (queued n c) (mp_mapping s)) s) Q ->
  ends (do_ in_mapping (change_page i (clean_buffers n));
        do c <- in_mapping (page_of i);
        do_ BUG_ON (c_writeback c);
        do x <- in_mapping (change_page i (fun c => set_flags (c_dirty c) true false c));
        f x) s Q.
Proof using.
  intros Hc Hf.
  assert (forall g s1 c1, m_pages (mp_mapping s1) !! i = Some c1 ->
    in_mapping (change_page i g) s1 = (Ok tt, set_mapping (set_page i (g c1) (mp_mapping s1)) s1)) as Hch.
  { intros g s1 c1 H1. unfold in_mapping, zoom, change_page, bind, page_of. by rewrite H1. }
  apply (ends_bind _ _ _ (fun _ s' => s' = set_mapping (set_page i (clean_buffers n c) (mp_mapping s)) s)).
  { unfold ends, wp. by rewrite (Hch _ _ c). }
  intros _ s1 ->. set (c1 := clean_buffers n c).
  apply (ends_bind _ _ _ (fun x s' => x = c1 /\ s' = set_mapping (set_page i c1 (mp_mapping s)) s)).
  { unfold ends, wp, in_mapping, zoom, page_of. cbn. by rewrite lookup_insert_eq. }
  intros x s1 [-> ->]. apply ends_BUG_ON. intros _.
  apply (ends_bind _ _ _ (fun _ s' => s' = set_mapping (set_page i (queued n c) (mp_mapping s)) s)).
  { unfold ends, wp. rewrite (Hch _ _ c1) by (cbn; apply lookup_insert_eq). cbn [fst snd]. cbn [set_mapping mp_mapping].
    rewrite set_page_twice. done. }
  intros [] s1 ->. exact Hf.
Qed.

(** The request that the page joins: what precedes the page in it, and where the
    page comes to lie. *)
Lemma choose_request i n b0 (b : option bio) s : scan_ok blkbits (Mapped (seqZ b0 (Z.of_nat n)) n false 0) -> block_ok b0 ->
  match b with Some b => queue_ok b (last_block_in_bio s) (mp_mapping s) | None => True end ->
  ends (do last_block <- gets last_block_in_bio;
        do b <- (match b with
                 | Some b => if last_block =? u64 (b0 - 1) then ret (Some b) else emmcfs_mpage_bio_submit b
                 | None => ret None
                 end);
        do room <- gets mp_room;
        alloc_new nr_vecs memalloc room (u64 (Z.shiftl b0 (blkbits - 9))) (i, Z.shiftl (Z.of_nat n) blkbits) b) s
    (fun r s' => mp_mem s' ⊆ mp_mem s /\ match r with
      | None => mp_mapping s' = flush b (mp_mapping s) /\ false ∈ mp_mem s
      | Some b' => exists sec0 vs, b' = Bio sec0 (vs ++ [(i, Z.shiftl (Z.of_nat n) blkbits)]) /\
          complete (Bio sec0 vs) (mp_mapping s') ≃ flush b (mp_mapping s) /\
          (mp_mapping s' = mp_mapping s \/ mp_mapping s' = flush b (mp_mapping s)) /\
          (vs = [] \/ exists b1, b = Some b1 /\ vs = bi_vecs b1) /\ Forall (full (mp_mapping s')) vs /\
          exists b1, 0 <= b1 /\ sec0 = u64 (Z.shiftl b1 (blkbits - 9)) /\ b0 = b1 + Z.of_nat bpp * Z.of_nat (length vs)
      end).
Proof using Hbits Hpasses Hplaces.
  intros Hscan Hb0 Hq. apply ends_gets.
  set (m1 := mp_mapping s).
  apply (ends_bind _ _ _ (fun b' s' => keeps s s' /\
    (b' = b /\ mp_mapping s' = m1 /\ (b <> None -> last_block_in_bio s = b0 - 1) \/ b' = None /\ mp_mapping s' = flush b m1))).
  { destruct b as [b|]; [|apply ends_ret; split; [done|]; by left].
    destruct (Z.eqb_spec (last_block_in_bio s) (u64 (b0 - 1))) as [E|E].
    - apply ends_ret. split; [done|]. left. split; [done|]. split; [done|]. intros _. destruct Hq as [_ _ (b1 & H1 & _ & H2 & H3)].
      unfold block_ok in Hb0. destruct (decide (b0 = 0)) as [->|]; [|rewrite uwrap_small in E by lia; lia].
      exfalso. change (u64 (0 - 1)) with (2 ^ 64 - 1) in E. lia.
    - eapply ends_mono; [apply submit_ends|]. intros r s' (-> & _ & K & E1). split; [done|]. by right. }
  intros b' s2 (K2 & Hb'). apply ends_gets.
  assert (mp_mem s2 ⊆ mp_mem s) as Hmem by (by destruct K2).
  assert (flush b' (mp_mapping s2) = flush b m1) as Hfl by (destruct Hb' as [(-> & -> & _)|(-> & ->)]; done).
  eapply ends_mono; [apply alloc_new_ends|].
  { destruct Hb' as [(-> & _)|(-> & _)]; [|done]. destruct b; [by destruct Hq|done]. }
  intros r s3 (K3 & H3). assert (mp_mem s3 ⊆ mp_mem s) as Hmem3 by (destruct K3; set_solver). split; [done|].
  destruct r as [b3|]; [|destruct H3 as [H3 H4]; split; [by rewrite H3|set_solver]].
  destruct H3 as (sec0 & vs & -> & H3). exists sec0, vs. split; [done|].
  destruct H3 as [[E3 Em3]|(-> & -> & Em3)].
  - destruct Hb' as [(-> & Em2 & Hlast)|(-> & _)]; [|done]. subst b. destruct Hq as [Q1 Q2 (b1 & Q3 & Q4 & Q5 & Q6)]. cbn [bi_vecs bi_sector] in *.
    rewrite Em3, Em2. split; [done|]. split; [by left|]. split; [right; by eexists|]. split; [done|]. exists b1. split; [done|].
    split; [done|]. specialize (Hlast ltac:(done)). lia.
  - rewrite Em3, Hfl. split; [apply complete_empty|]. split; [by right|]. split; [by left|]. split; [done|].
    exists b0. unfold block_ok in Hb0. cbn [length]. split; [lia|]. split; [done|lia].
Qed.

Lemma sector_of b0 : block_ok b0 -> u64 (Z.shiftl b0 (blkbits - 9)) = b0 * 2 ^ (blkbits - 9).
Proof using All.
  intros [H1 H2]. rewrite Z.shiftl_mul_pow2 by lia. apply uwrap_small.
  assert (1 <= 2 ^ (blkbits - 9) <= 2 ^ 3) by (split; [apply (Z.pow_le_mono_r 2 0)|apply Z.pow_le_mono_r]; lia). nia.
Qed.

Lemma sectors_per_page : Z.of_nat bpp * 2 ^ (blkbits - 9) = 8.
Proof using All.
  assert (blkbits = 9 \/ blkbits = 10 \/ blkbits = 11 \/ blkbits = 12) as [-> | [-> | [-> | ->]]] by lia; reflexivity.
Qed.

Lemma queued_fit i n c m : pages_fit m -> m_pages m !! i = Some c -> pages_fit (set_page i (queued n c) m).
Proof using All.
  intros H Hc j c'. cbn. destruct (decide (i = j)) as [<-|Hj]; [|rewrite lookup_insert_ne by done; apply H].
  rewrite lookup_insert_eq. intros [=<-]. destruct (H i c Hc) as [H1 H2]. split; [exact H1|]. cbn.
  destruct (c_buffers c) as [l|]; [|done]. destruct H2 as [H2 H3]. split.
  - rewrite length_app, length_map, <- length_app, take_drop. exact H2.
  - apply Forall_app. split; [|by apply Forall_drop]. apply Forall_forall. intros b Hb. apply list_elem_of_fmap in Hb as (b' & -> & Hb).
    cbn. rewrite Forall_forall in H3. apply H3. by apply elem_of_take in Hb as (k & Hk & _); eapply list_elem_of_lookup_2.
Qed.

Lemma write_alone_split i blocks n bnd bb m : write_alone blkbits i blocks n bnd bb m =
  let m := write_alone blkbits i blocks n false 0 m in
  if (bnd || negb (n =? bpp)%nat) && negb (bb =? 0) then snd (emmcfs_write_boundary_block blkbits bb m) else m.
Proof using. unfold write_alone. by rewrite andb_false_r. Qed.

Lemma ends_regroup {X Y Z1 W U} (x : St (mpage_data T) X) (f : X -> St (mpage_data T) Y) (g : St (mpage_data T) Z1)
    (h : Y -> Z1 -> St (mpage_data T) W) (k : W -> St (mpage_data T) U) s Q :
  ends (bind (bind x (fun a => bind (f a) (fun b => bind g (h b)))) k) s Q ->
  ends (bind x (fun a => bind (f a) (fun b => bind g (fun c => bind (h b c) k)))) s Q.
Proof using.
  unfold ends, wp, bind. destruct (x s) as [[a|e|] s1]; [|done|done]. destruct (f a s1) as [[b|e|] s2]; [|done|done].
  by destruct (g s2) as [[c|e|] s3].
Qed.

Lemma one_page_sim seen i s m : i ∉ seen -> sim seen s m ->
  ends (mpage_writepage i) s (fun e s' => exists m', one_page (false ∈ mp_mem s) i e m m' /\ sim (i :: seen) s' m' /\ mp_mem s' ⊆ mp_mem s).
Proof using Hbits Hpasses Hplaces.
  intros Hi [Hfl Hfit Hq]. unfold emmcfs_mpage_writepage. apply ends_gets.
  assert (match mp_bio s with Some b => i ∉ pages_in b | None => True end) as Hni.
  { destruct (mp_bio s) as [b|]; [|done]. destruct Hq as [_ Hsub]. intros H. by apply Hi, Hsub. }
  set (m0 := flush (mp_bio s) (mp_mapping s)).
  apply (ends_in_mapping _ _ _ (fun r m1 => scan_page i m0 = (Ok r, flush (mp_bio s) m1) /\ changed_data i (mp_mapping s) m1 /\
    scan_ok blkbits r /\ is_Some (m_pages (mp_mapping s) !! i))).
  { pose proof (scan_page_ok i_size blkbits get_block Hbits i (mp_mapping s) Hplaces Hfit) as W. unfold wp in *. destruct W as (W1 & W2 & W3).
    assert (scan_page i m0 = (fst (scan_page i (mp_mapping s)), flush (mp_bio s) (snd (scan_page i (mp_mapping s))))) as Hcom.
    { unfold m0. destruct (mp_bio s) as [b|]; [exact (commutes_scan i_size blkbits get_block b i Hni (mp_mapping s))|]. apply surjective_pairing. }
    change (bind (map_page i_size blkbits get_block i) (page_is_mapped i_size i)) with (scan_page i) in *.
    destruct (scan_page i (mp_mapping s)) as [[r|e|] m1]; cbn [fst snd] in *; [|by destruct (W2 e)|done].
    destruct (W3 r eq_refl). by split_and!. }
  intros r m1 (Hscan & Hch & Hok & [c0 Hc0]).
  assert (pages_fit m1) as Hfit1 by (by eapply pages_fit_scan).
  assert (forall b' e s', mp_mem s' ⊆ mp_mem s -> flush b' (mp_mapping s') = flush (mp_bio s) m1 -> pages_fit (mp_mapping s') ->
    e = Confused \/ false ∈ mp_mem s -> r = e \/ false ∈ mp_mem s ->
    ends (confused writepage i b') s' (fun e s' => exists m', one_page (false ∈ mp_mem s) i e m m' /\ sim (i :: seen) s' m' /\ mp_mem s' ⊆ mp_mem s)) as Hpass.
  { intros b' e s' Hm E F He Hr. eapply ends_mono; [by apply confused_ends|]. intros code s2 (m2 & W & F2 & E2 & E3 & Hm2).
    rewrite E in W. exists (set_error (m_error m2 || negb (code =? 0)) m2). split; [|split; [|set_solver]].
    - eapply page_passed; [exact Hfl|exact Hscan| |exact W]. destruct Hr as [->|]; [done|by right].
    - constructor; rewrite ?E3; [by rewrite E2|by rewrite E2|done]. }
  destruct r as [|blocks n bnd bb]; [by apply (Hpass _ Confused); [set_solver|..]; auto|].
  destruct Hok as (b0 & Hb0 & -> & Hn). 
  assert (default 0 (head (seqZ b0 (Z.of_nat n))) = b0) as Ehead by (rewrite seqZ_cons by lia; done). cbv zeta. rewrite Ehead.
  apply ends_regroup. eapply ends_bind.
  { apply (choose_request i n b0 (mp_bio s) (set_mapping m1 s)); [by exists b0|done|]. destruct (mp_bio s) as [b|]; [|done].
    destruct Hq as [[Q1 Q2 Q3] _]. constructor; [done| |done]. by eapply full_scan. }
  cbn [set_mapping mp_mapping mp_mem]. intros b' s3 (Hm3 & H3). destruct b' as [b'|].
  2: { destruct H3 as [H3 Hmem]. apply (Hpass None Confused); [done|done| |by left|by right]. rewrite H3. by apply pages_fit_flush. }
  destruct H3 as (sec0 & vs & -> & Hsent & Hmap & Hvs & Hfull & b1 & Hb1 & Hsec & Hplace).
  assert (i ∉ map fst vs) as Hivs.
  { destruct Hvs as [->|(b & Eb & ->)]; [apply not_elem_of_nil|]. rewrite Eb in Hni. exact Hni. }
  assert (pages_fit (mp_mapping s3)) as Hfit3 by (destruct Hmap as [->| ->]; [done|by apply pages_fit_flush]).
  assert (exists c, m_pages (mp_mapping s3) !! i = Some c) as [c Hc].
  { assert (exists c, m_pages m1 !! i = Some c) as [c Hc].
    { specialize (Hch i). rewrite Hc0 in Hch. destruct (m_pages m1 !! i) as [c|]; [by exists c|done]. }
    exists c. destruct Hmap as [->| ->]; [done|]. destruct (mp_bio s) as [b|]; [|done]. cbn [flush]. by rewrite lookup_complete. }
  eapply queue_page; [exact Hc|].
  set (v := (i, Z.shiftl (Z.of_nat n) blkbits)). set (s4 := set_mapping _ s3).
  assert (Hjoin : complete (Bio sec0 (vs ++ [v])) (mp_mapping s4) ≃ write_alone blkbits i (seqZ b0 (Z.of_nat n)) n false 0 (flush (mp_bio s) m1)).
  { apply join_alone; try done. rewrite Ehead, Hsec. 
    pose proof sectors_per_page. assert (block_ok b1) by (unfold block_ok in *; nia). rewrite !sector_of by done. unfold SECTOR_SIZE. nia. }
  assert (pages_fit (mp_mapping s4)) as Hfit4 by (by apply queued_fit).
  assert (mp_mem s4 ⊆ mp_mem s) as Hmem4 by done.
  destruct (bnd || negb (n =? bpp)%nat) eqn:Epart.
  - eapply ends_bind; [apply submit_ends|]. intros r s5 (-> & _ & (K5 & _) & E5).
    apply (ends_bind _ _ _ (fun _ s' => mp_mem s' ⊆ mp_mem s5 /\ pages_fit (mp_mapping s') /\
      mp_mapping s' ≃ write_alone blkbits i (seqZ b0 (Z.of_nat n)) n bnd bb (flush (mp_bio s) m1))).
    { rewrite write_alone_split, Epart. cbv zeta. cbn [andb]. assert (pages_fit (mp_mapping s5)) as Hfit5 by (rewrite E5; by apply pages_fit_complete).
      destruct (bb =? 0); cbn [negb].
      - apply ends_ret. split; [done|]. split; [done|]. by rewrite E5.
      - set (g := fun m => snd (emmcfs_write_boundary_block blkbits bb m)).
        change (in_mapping (emmcfs_write_boundary_block blkbits bb)) with (in_mapping (modify g)).
        split; [done|]. cbn [fst snd]. split.
        + intros j c'. unfold in_mapping, zoom, modify. cbn [set_mapping mp_mapping snd]. unfold g, emmcfs_write_boundary_block, modify. cbn [snd].
          destruct (m_buffers _ !! _) as [[[] l]|]; apply Hfit5.
        + change (g (mp_mapping s5) ≃ g (write_alone blkbits i (seqZ b0 (Z.of_nat n)) n false 0 (flush (mp_bio s) m1))).
          apply boundary_proper. by rewrite E5. }
    intros _ s6 (K6 & F6 & E6). apply ends_modify, ends_ret.
    exists (mp_mapping s6). split; [|split; [|set_solver]].
    + eapply page_direct; [exact Hfl|exact Hscan|by symmetry].
    + by constructor.
  - apply ends_modify, ends_modify, ends_ret. exists (flush (Some (Bio sec0 (vs ++ [v]))) (mp_mapping s4)). split; [|split; [|set_solver]].
    + eapply page_direct; [exact Hfl|exact Hscan|]. rewrite write_alone_split, Epart. by symmetry.
    + apply orb_false_iff in Epart as [-> Epart]. apply negb_false_iff, Nat.eqb_eq in Epart. subst n.
      constructor; [done|done|]. cbn [mp_bio set_bio set_last last_block_in_bio mp_mapping]. split.
      * constructor; cbn [bi_vecs bi_sector].
        -- by destruct vs.
        -- pose proof (bpp_size blkbits Hbits) as [Eb _]. apply Forall_app. split.
           ++ apply Forall_forall. intros w Hw. rewrite Forall_forall in Hfull. destruct (Hfull w Hw) as (E & c' & Hc' & Hl). split; [done|].
              exists c'. cbn. rewrite lookup_insert_ne; [done|]. intros ->. apply Hivs. by apply list_elem_of_fmap_2.
           ++ apply Forall_singleton. split; [cbn; rewrite Z.shiftl_mul_pow2 by lia; exact Eb|].
              exists (queued bpp c). cbn. rewrite lookup_insert_eq. split; [done|]. by destruct (Hfit3 i c Hc).
        -- exists b1. rewrite last_seqZ by lia. cbn [default from_option]. unfold id. rewrite length_app. cbn [length].
           pose proof (bpp_size blkbits Hbits) as [_ Eb]. unfold block_ok in Hb0. split_and!; [done|done| |]; lia.
      * unfold pages_in. cbn [bi_vecs]. rewrite map_app. cbn [map v fst]. intros j Hj. apply elem_of_app in Hj as [Hj|Hj].
        -- right. destruct Hvs as [->|(b & Eb & ->)]; [by apply not_elem_of_nil in Hj|]. rewrite Eb in Hq. by apply Hq.
        -- apply list_elem_of_singleton in Hj as ->. left.
Qed.

(** *** The walk *)
Lemma one_page_mono (P Q : Prop) (HPQ : P -> Q) i e m m' : one_page P i e m m' -> one_page Q i e m m'.
Proof using.
  destruct 1; [by eapply page_direct|]. eapply page_passed; try done. destruct H1; [by left|right; auto].
Qed.

Lemma one_by_one_mono (P Q : Prop) (HPQ : P -> Q) l r m m' :
  one_by_one i_size blkbits get_block writepage P l r m m' -> one_by_one i_size blkbits get_block writepage Q l r m m'.
Proof using.
  induction 1; [constructor|eapply walk_written|eapply walk_activated|eapply walk_error]; try done; by eapply one_page_mono.
Qed.

Abbreviation one_by_one := (one_by_one i_size blkbits get_block writepage).

(** Changes of the flags of a page do not depend on the pending request. *)
Lemma complete_alter_page f i b m : (forall c, c_data (f c) = c_data c) -> (forall c, f (end_writeback c) = end_writeback (f c)) ->
  complete b (alter_page f i m) = alter_page f i (complete b m).
Proof using.
  intros Hd Hc. unfold complete, alter_page, set_cache, set_disk. cbn. f_equal.
  - induction (bi_vecs b) as [|v vs IH]; cbn [foldr]; [done|]. rewrite IH. destruct (decide (i = fst v)) as [->|Hj].
    + rewrite !alter_alter_eq. apply alter_ext. intros c _. cbn. by rewrite Hc.
    + by rewrite alter_alter_ne by done.
  - f_equal. f_equal. apply map_ext. intros v. unfold vec_bytes. cbn. destruct (decide (i = fst v)) as [->|Hj].
    + rewrite lookup_alter_eq. destruct (m_pages m !! fst v); [|done]. cbn. by rewrite Hd.
    + by rewrite lookup_alter_ne.
Qed.

Lemma alter_page_proper f i m m' : m ≃ m' -> alter_page f i m ≃ alter_page f i m'.
Proof using. intros (?&E&?&?&?). split_and!; try done. cbn. by rewrite E. Qed.

Definition flags_only (f : cached -> cached) : Prop := forall c, c_data (f c) = c_data c /\ c_buffers (f c) = c_buffers c /\
  f (end_writeback c) = end_writeback (f c).

Lemma sim_alter f i seen s m : flags_only f -> sim seen s m ->
  sim seen (set_mapping (alter_page f i (mp_mapping s)) s) (alter_page f i m).
Proof using.
  intros Hf [H1 H2 H3]. constructor; cbn [set_mapping mp_mapping mp_bio last_block_in_bio].
  - rewrite (alter_page_proper f i _ _ H1). destruct (mp_bio s) as [b|]; cbn [flush]; [|done].
    rewrite complete_alter_page; [done|intros c; apply Hf..].
  - intros j c'. cbn. rewrite lookup_alter_Some. intros [(_ & c & Hc & ->)|[_ Hc]]; [|by eapply H2].
    destruct (H2 j c Hc) as [F1 F2]. destruct (Hf c) as (E1 & E2 & _). split; [by rewrite E1|by rewrite E2].
  - destruct (mp_bio s) as [b|]; [|done]. destruct H3 as [[Q1 Q2 Q3] Hsub]. split; [|done]. constructor; [done| |done].
    apply (Forall_impl _ _ _ Q2). intros v (E & c & Hc & Hl). split; [done|]. cbn. destruct (decide (i = fst v)) as [->|Hj].
    + exists (f c). rewrite lookup_alter_eq, Hc. split; [done|]. destruct (Hf c) as (-> & _). done.
    + exists c. by rewrite lookup_alter_ne.
Qed.

Lemma walk_sim seen l s m (no_memory : Prop) : NoDup l -> (forall i, i ∈ l -> i ∉ seen) -> sim seen s m -> (false ∈ mp_mem s -> no_memory) ->
  ends (hand_over mpage_writepage l) s (fun r s' => exists m' seen', one_by_one no_memory l r m m' /\ sim seen' s' m').
Proof using All.
  revert seen s m. induction l as [|i l IH]; intros seen s m Hnd Hseen Hsim Hmem; cbn [hand_over].
  { apply ends_ret. exists m, seen. split; [constructor|done]. }
  inversion_clear Hnd as [|? ? Hil Hnd'].
  apply (ends_bind _ _ _ (fun _ s1 => s1 = set_mapping (alter_page take_page i (mp_mapping s)) s)); [done|].
  intros _ s1 ->. eapply ends_bind.
  { apply (one_page_sim seen i _ (alter_page take_page i m)); [apply Hseen; left|]. by apply sim_alter. }
  cbn [set_mapping mp_mem]. intros e s2 (m2 & Hone & Hsim2 & Hmem2). apply (one_page_mono _ no_memory Hmem) in Hone.
  assert (forall j, j ∈ l -> j ∉ i :: seen) as Hseen2.
  { intros j Hj. rewrite not_elem_of_cons. split; [by intros ->|]. apply Hseen. by right. }
  destruct (Z.eqb_spec e AOP_WRITEPAGE_ACTIVATE) as [->|He1]; [|destruct (Z.eqb_spec e 0) as [->|He0]].
  - apply (ends_bind _ _ _ (fun _ s1 => s1 = set_mapping (alter_page unlock_page i (mp_mapping s2)) s2)); [done|].
    intros _ s3 ->. eapply ends_mono.
    { apply (IH (i :: seen) _ (alter_page unlock_page i m2)); [done|done|by apply sim_alter|cbn; set_solver]. }
    intros r s4 (m4 & seen4 & W & Hsim4). exists m4, seen4. split; [by eapply walk_activated|done].
  - eapply ends_mono; [apply (IH (i :: seen) s2 m2); [done|done|done|set_solver]|].
    intros r s4 (m4 & seen4 & W & Hsim4). exists m4, seen4. split; [by eapply walk_written|done].
  - apply ends_ret. exists m2, (i :: seen). split; [by apply walk_error|done].
Qed.

Lemma writepages_ends (write_cache_pages : (Z -> St (mpage_data T) Z) -> St (mpage_data T) Z) l s :
  (forall write s, write_cache_pages write s = hand_over write l s) -> NoDup l -> pages_fit (mp_mapping s) ->
  ends (emmcfs_mpage_writepages i_size blkbits nr_vecs memalloc get_block writepage write_cache_pages) s (fun r s' =>
    (exists m', one_by_one (false ∈ mp_mem s) l r (mp_mapping s) m' /\ m' ≃ mp_mapping s') /\ pages_fit (mp_mapping s')).
Proof using All.
  intros Hw Hnd Hfit. unfold emmcfs_mpage_writepages. apply ends_modify, ends_modify.
  set (s0 := set_last 0 (set_bio None s)).
  apply (ends_bind _ _ _ (fun r s' => exists m' seen', one_by_one (false ∈ mp_mem s) l r (mp_mapping s) m' /\ sim seen' s' m')).
  { unfold ends, wp. rewrite Hw. apply (walk_sim [] l s0 (mp_mapping s)); [done|set_solver| |done]. by constructor. }
  intros r s1 (m1 & seen & Hrun & [Hfl Hf1 Hq]). apply ends_gets.
  apply (ends_bind _ _ _ (fun _ s' => m1 ≃ mp_mapping s' /\ pages_fit (mp_mapping s'))).
  { destruct (mp_bio s1) as [b|]; [|by apply ends_ret]. eapply ends_mono; [apply submit_ends|].
    intros _ s2 (_ & _ & _ & E). rewrite E. split; [done|by apply pages_fit_complete]. }
  intros _ s2 [E F]. apply ends_ret. split; [by exists m1|done].
Qed.

(** C9: the batches of [emmcfs_mpage_writepages] write what a page at a time
    would write.  Whatever the kernel answers to the allocation, filling and
    sending of requests, a walk over distinct pages ends (or stops the kernel)
    with the device, the pages and their flags, the file and the result that some
    walk gives in which every page is written at its own block before the next
    is looked at; and a page goes to [writepage] only when the scan of its
    blocks gives it up or a request could not be allocated.  No page is left in a
    request.  When the pages are ready and the requests are filled and sent, the
    walk does not stop the kernel. *)
Theorem mpage_writepages_refines (write_cache_pages : (Z -> St (mpage_data T) Z) -> St (mpage_data T) Z) l s :
  (forall write s, write_cache_pages write s = hand_over write l s) -> NoDup l -> pages_fit (mp_mapping s) ->
  match emmcfs_mpage_writepages i_size blkbits nr_vecs memalloc get_block writepage write_cache_pages s with
  | (Ok r, s') => exists m', one_by_one (false ∈ mp_mem s) l r (mp_mapping s) m' /\ m' ≃ mp_mapping s'
  | (Err _, _) => False
  | (Bug, _) => ~ (never_stops get_block writepage /\ undisturbed l s)
  end.
Proof using All.
  intros Hw Hnd Hfit. pose proof (writepages_ends write_cache_pages l s Hw Hnd Hfit) as W.
  pose proof (writepages_runs i_size blkbits nr_vecs memalloc get_block writepage write_cache_pages l s Hw Hnd) as R. unfold ends, wp in *.
  destruct (emmcfs_mpage_writepages _ _ _ _ _ _ _ s) as [[r|e|] s']; [exact (proj1 W)|exact W|]. intros [H1 H2]. by apply R.
Qed.
End batches.

(** ** The metadata between the commit of the journal and its clearing *)
Section metadata.
Context {T : Type} (blkbits nr_vecs : Z) (memalloc : bool) (mount_options : Z).
Context (i_size : Z -> Z) (get_block : Z -> Z -> St T block_map)
  (write_cache_pages : Z -> (Z -> St (mpage_data T) Z) -> St (mpage_data T) Z)
  (block_write_full_page : Z -> Z -> St (mapping T) Z).
Context (commit_snapshot clear_snapshot : St (metadata T) Z).
(** The pages that the walk over each file takes. *)
Context (dirty : Z -> list Z).
Context (Hbits : 9 <= blkbits <= 12) (Hjournal : test_option MOUNT_SNAPSHOT mount_options = true).
Context (Hplaces : forall n, places_ok (get_block n)).
Context (Hwalk : forall n write s, write_cache_pages n write s = hand_over write (dirty n) s) (Hnodup : forall n, NoDup (dirty n)).
(** The journal answers with codes and leaves the pages alone. *)
Context (Hcommit : forall md, match commit_snapshot md with (Ok _, md') => md_special md' = md_special md | (Err _, _) => False | (Bug, _) => True end).
Context (Hclear : forall md, match clear_snapshot md with (Err _, _) => False | _ => True end).
Abbreviation writepage := (emmcfs_writepage mount_options block_write_full_page).
Abbreviation write_special_file := (emmcfs_write_special_file blkbits nr_vecs memalloc mount_options i_size get_block write_cache_pages
  block_write_full_page).
Abbreviation sync_metadata := (emmcfs_sync_metadata blkbits nr_vecs memalloc mount_options i_size get_block write_cache_pages
  block_write_full_page).
Abbreviation update := (update_metadata blkbits nr_vecs memalloc mount_options i_size get_block write_cache_pages
  block_write_full_page commit_snapshot clear_snapshot).
Implicit Types (md : metadata T).

Definition mapping_of (sp : special T) md : mapping T := mp_mapping (mapping_data sp md).
Definition all_fit md : Prop := forall n sp, md_special md !! n = Some sp -> pages_fit blkbits (mapping_of sp md).

(** The pages of the file [n] have been written, one at a time, with the result
    [r]; nothing else of the metadata has changed. *)
Definition file_written (n r : Z) md md' : Prop := exists sp sp' m',
  md_special md !! n = Some sp /\ md_special md' = <[n := sp']> (md_special md) /\
  one_by_one (i_size n) blkbits (get_block n) (writepage n) (false ∈ md_mem md) (dirty n) r (mapping_of sp md) m' /\
  m' ≃ mapping_of sp' md' /\ all_fit md'.

Inductive files_written : list Z -> metadata T -> metadata T -> Prop :=
  | written_none md : files_written [] md md
  | written_next n l md md1 md2 : file_written n 0 md md1 -> files_written l md1 md2 -> files_written (n :: l) md md2.

Definition special_files : list Z :=
  [EMMCFS_CAT_TREE_INO; EMMCFS_LEB_BITMAP_INO; EMMCFS_EXTENTS_TREE_INO; EMMCFS_FREE_INODE_BITMAP_INO; EMMCFS_HARDLINKS_AREA_INO].

Lemma journal_writepage n i m : n < EMMCFS_1ST_FILE_INO -> pages_fit blkbits m ->
  wp (writepage n i) m (fun r m' => match r with Ok _ => pages_fit blkbits m' | Err _ => False | Bug => True end).
Proof using Hjournal.
  intros Hn Hfit. unfold emmcfs_writepage. rewrite Hjournal. destruct (Z.geb_spec n EMMCFS_1ST_FILE_INO) as [?|_]; [lia|]. cbn [negb orb].
  unfold change_page. apply wp_bind, wp_bind. unfold wp at 1, page_of. destruct (m_pages m !! i) as [c|] eqn:Hc; cbn [fst snd]; [|done].
  unfold wp at 1, modify. cbn [fst snd]. apply wp_ret. intros j c'. cbn. destruct (decide (i = j)) as [<-|Hj].
  - rewrite lookup_insert_eq. intros [=<-]. by destruct (Hfit i c Hc).
  - rewrite lookup_insert_ne by done. apply Hfit.
Qed.

Lemma special_below n : n ∈ special_files -> n < EMMCFS_1ST_FILE_INO /\ is_special n = true.
Proof using.
  unfold special_files. rewrite !elem_of_cons, elem_of_nil. intros [-> |[-> |[-> |[-> |[-> |[]]]]]]; by vm_compute.
Qed.

Lemma write_special_ends n md : n ∈ special_files -> all_fit md ->
  wp (write_special_file n) md (fun r md' => md_locked md' = md_locked md /\ md_flags md' = md_flags md /\ match r with
    | Ok r => r = - EINVAL /\ md' = md \/ file_written n r md md'
    | Err _ => False
    | Bug => True
    end).
Proof using Hbits Hjournal Hplaces Hwalk Hnodup.
  intros Hn Hfit. destruct (special_below n Hn) as [Hlt Hsp]. unfold emmcfs_write_special_file. rewrite Hsp. cbn [negb].
  apply wp_gets. cbn [id]. destruct (md_special md !! n) as [sp|] eqn:Esp; [|apply wp_ret; split_and!; [done..|by left]].
  pose proof (writepages_ends (i_size n) blkbits nr_vecs memalloc (get_block n) (writepage n) Hbits (Hplaces n)
    (fun i m Hm => journal_writepage n i m Hlt Hm) (write_cache_pages n) (dirty n) (mapping_data sp md) (Hwalk n) (Hnodup n) (Hfit n sp Esp)) as W.
  unfold ends, wp in *. destruct (emmcfs_mpage_writepages _ _ _ _ _ _ _ _) as [r s]. cbn [fst snd] in *.
  split; [done|]. split; [done|]. destruct r as [r|e|]; [|done|done]. right. destruct W as [(m' & Hrun & E) F].
  exists sp, (Special _ (m_file (mp_mapping s)) (m_pages (mp_mapping s)) (m_error (mp_mapping s))), m'.
  split; [done|]. split; [done|]. split; [done|]. split.
  - destruct E as (?&?&?&?&?). by split_and!.
  - intros n' sp'. cbn. destruct (decide (n = n')) as [<-|Hne].
    + rewrite lookup_insert_eq. intros [=<-]. exact F.
    + rewrite lookup_insert_ne by done. apply Hfit.
Qed.

(** The files in their order, up to the first that cannot be written. *)
Lemma write_files_ends l md : l ⊆ special_files -> all_fit md ->
  wp (foldr (fun n rest => then_go (write_special_file n) rest) (ret 0) l) md (fun r md' => match r with
    | Ok r => (r = 0 -> files_written l md md') /\ (r <> 0 -> exists done_ n rest md1, l = done_ ++ n :: rest /\ files_written done_ md md1 /\
        (r = - EINVAL /\ md' = md1 \/ file_written n r md1 md'))
    | Err _ => False
    | Bug => True
    end).
Proof using All.
  revert md. induction l as [|n l IH]; intros md Hl Hfit; cbn [foldr].
  { apply wp_ret. split; [constructor|done]. }
  unfold then_go at 1. apply wp_bind. eapply wp_mono; [apply write_special_ends; [apply Hl; left|done]|].
  intros [r|e|] md1 (_ & _ & H); [|done|done]. destruct (Z.eqb_spec r 0) as [->|Hr]; cbn [negb].
  - destruct H as [[H _]|H]; [done|]. eapply wp_mono; [apply IH; [set_solver|by destruct H as (? & ? & ? & _ & _ & _ & _ & ?)]|].
    intros [r|e|] md2; [|done|done]. intros [H1 H2]. split.
    + intros Hr. econstructor; [exact H|by apply H1].
    + intros Hr. destruct (H2 Hr) as (d & n' & rest & md3 & -> & H3 & H4). exists (n :: d), n', rest, md3. split; [done|].
      split; [by econstructor|exact H4].
  - apply wp_ret. split; [done|]. intros _. exists [], n, l, md. split; [done|]. split; [constructor|exact H].
Qed.

(** *** A run that does not stop the kernel *)
Definition ready_files (l : list Z) md : Prop := false ∉ md_room md /\ false ∉ md_sent md /\
  forall n sp, n ∈ l -> md_special md !! n = Some sp -> waiting (dirty n) (mapping_of sp md).

(** Neither [get_block] nor the journal stops the kernel, and committing leaves
    the pages ready. *)
Definition journal_runs : Prop := (forall n ib t, fst (get_block n ib t) <> Bug) /\
  (forall md, ready_files special_files md -> wp commit_snapshot md (ok (fun _ md' => ready_files special_files md'))) /\
  (forall md, fst (clear_snapshot md) <> Bug).

Lemma writepage_never_stops n : (forall ib t, fst (get_block n ib t) <> Bug) -> n < EMMCFS_1ST_FILE_INO -> never_stops (get_block n) (writepage n).
Proof using Hjournal.
  intros Hb Hn. split; [done|]. intros i l m Hi Hm. unfold emmcfs_writepage. rewrite Hjournal.
  destruct (Z.geb_spec n EMMCFS_1ST_FILE_INO) as [?|_]; [lia|]. cbn [negb orb].
  eapply wp_seq; [apply (change_page_runs i _ (i :: l)); [left|done]|]. intros u m1 (c & _ & _ & ->). apply wp_ret.
  apply waiting_set_page; [done|]. eapply waiting_incl; [|exact Hm]. intros j Hj. by right.
Qed.

Lemma write_special_runs n l md : (forall ib t, fst (get_block n ib t) <> Bug) -> n ∈ special_files -> n ∉ l -> ready_files (n :: l) md ->
  wp (write_special_file n) md (ok (fun _ md' => ready_files l md')).
Proof using Hjournal Hnodup Hwalk.
  intros Hb Hn Hl (H1 & H2 & H3). destruct (special_below n Hn) as [Hlt Hsp]. unfold emmcfs_write_special_file. rewrite Hsp. cbn [negb].
  apply wp_gets. cbn [id]. destruct (md_special md !! n) as [sp|] eqn:Esp.
  - pose proof (writepages_runs (i_size n) blkbits nr_vecs memalloc (get_block n) (writepage n) (write_cache_pages n) (dirty n) (mapping_data sp md)
      (Hwalk n) (Hnodup n) (writepage_never_stops n Hb Hlt)) as W. unfold wp in *.
    destruct (emmcfs_mpage_writepages _ _ _ _ _ _ _ _) as [r s]. cbn [fst snd] in *.
    assert (undisturbed (dirty n) (mapping_data sp md)) as Hu by (split_and!; [done|done|apply (H3 n sp); [left|done]]).
    specialize (W Hu). destruct r as [r|e|]; [|done|done]. destruct W as (W1 & W2 & _). split_and!; [done|done|].
    intros n' sp' Hn'. cbn. rewrite lookup_insert_ne by (intros ->; done). intros E. apply (H3 n' sp'); [by right|done].
  - apply wp_ret. split_and!; [done|done|]. intros n' sp' Hn'. apply H3. by right.
Qed.

Lemma write_files_runs l md : (forall n ib t, fst (get_block n ib t) <> Bug) -> l ⊆ special_files -> NoDup l -> ready_files l md ->
  wp (foldr (fun n rest => then_go (write_special_file n) rest) (ret 0) l) md (ok (fun _ _ => True)).
Proof using Hjournal Hnodup Hwalk.
  intros Hb Hl Hnd. revert md Hl. induction Hnd as [|n l Hn Hnd IH]; intros md Hl H; cbn [foldr]; [by apply wp_ret|].
  unfold then_go at 1. eapply wp_seq; [apply (write_special_runs n l); [apply Hb|apply Hl; left|done|done]|].
  intros e md1 H1. destruct (negb _); [by apply wp_ret|]. apply IH; [|done]. intros x Hx. apply Hl. by right.
Qed.

Lemma special_nodup : NoDup special_files.
Proof using. apply (bool_decide_unpack _). vm_compute. exact I. Qed.

Lemma update_runs md : journal_runs -> ready_files special_files md -> wp (update) md (ok (fun _ _ => True)).
Proof using Hclear Hjournal Hnodup Hwalk.
  intros (Hb & Hc & Hx) H. unfold update_metadata. apply wp_modify. eapply wp_seq; [by apply Hc|]. intros c md0 H0.
  destruct (negb _); [done|]. eapply wp_seq.
  { change sync_metadata with (foldr (fun n rest => then_go (write_special_file n) rest) (ret 0) special_files).
    apply write_files_runs; [done|done|apply special_nodup|exact H0]. }
  intros e md1 _. destruct (negb _); [done|]. pose proof (Hx md1) as Hx1. pose proof (Hclear md1) as Hx2. unfold wp, bind at 1.
  by destruct (clear_snapshot md1) as [[x|x|] md2].
Qed.

Lemma update_ends md : all_fit md ->
  match update md with
  | (Ok e, md') => md_locked md' = false /\ md_flags md' = 0 /\
      exists c md0, commit_snapshot (set_locked true 1 md) = (Ok c, md0) /\
        if c =? 0 then
          if e =? 0 then exists md1 x md2, files_written special_files md0 md1 /\ clear_snapshot md1 = (Ok x, md2) /\ md' = set_locked false 0 md2
          else exists done_ n rest md1 md2, special_files = done_ ++ n :: rest /\ files_written done_ md0 md1 /\
            (e = - EINVAL /\ md2 = md1 \/ file_written n e md1 md2) /\ md' = set_locked false 0 md2
        else e = c /\ md' = set_locked false 0 md0
  | (Err _, _) => False
  | (Bug, _) => True
  end.
Proof using All.
  intros Hfit. unfold update_metadata, bind at 1, modify at 1. set (mdl := set_locked true 1 md).
  pose proof (Hcommit mdl) as Hc. unfold bind at 1. destruct (commit_snapshot mdl) as [[c|e|] md0] eqn:Ec; [|done|done].
  destruct (c =? 0) eqn:Ec0; cbn [negb]; [|split; [done|]; split; [done|]; exists c, md0; by rewrite Ec0].
  assert (all_fit md0) as Hfit0 by (intros n sp; rewrite Hc; apply Hfit).
  pose proof (write_files_ends special_files md0 (fun x H => H) Hfit0) as W. unfold wp in W.
  change (foldr _ _ special_files) with sync_metadata in W. unfold bind at 1. destruct (sync_metadata md0) as [[e|e|] md1]; cbn [fst snd] in W; [|done|done].
  destruct W as [W1 W2]. destruct (Z.eqb_spec e 0) as [->|He]; cbn [negb].
  - pose proof (Hclear md1) as Hx. unfold bind at 1. destruct (clear_snapshot md1) as [[x|e|] md2] eqn:Ex; [|done|done].
    split; [done|]. split; [done|]. exists c, md0. split; [done|]. rewrite Ec0. exists md1, x, md2. by split; [apply W1|].
  - split; [done|]. split; [done|]. exists c, md0. split; [done|]. rewrite Ec0, (proj2 (Z.eqb_neq e 0) He).
    destruct (W2 He) as (d & n & rest & md2 & E1 & E2 & E3). exists d, n, rest, md2, md1. by split_and!.
Qed.

End metadata.

(** ** At work: blocks of 4096 bytes *)

(** The block [k] of a file of the example is the block 1000 + k of the
    device. *)
Definition plain_block (ib : Z) : St unit block_map := ret (BlockMap false false (1000 + ib mod 1000)).

Lemma plain_places : places_ok plain_block.
Proof. intros ib t. cbn. unfold block_ok. pose proof (Z.mod_pos_bound ib 1000). lia. Qed.

Definition filled (x : Z) : cached := Cached (replicate 4096 x) None true true false false.

Lemma filled_fit blkbits x : page_ok blkbits (filled x).
Proof. split; [|done]. cbn [c_data filled]. by rewrite length_replicate. Qed.

(** Four pages, of which the last lies apart and is partly behind the end of the
    file. *)
Definition four_pages : gmap Z cached := {[0 := filled 7; 1 := filled 8; 2 := filled 9; 5 := filled 3]}.

Lemma four_pages_fit i c : four_pages !! i = Some c -> page_ok 12 c.
Proof.
  unfold four_pages. rewrite !lookup_insert_Some, lookup_singleton_Some.
  intros [[_ <-]|[_ [[_ <-]|[_ [[_ <-]|[_ [_ <-]]]]]]]; apply filled_fit.
Qed.

Definition example_data (room : list bool) : mpage_data unit :=
  MpageData _ (Mapping _ tt four_pages (fun _ => 0) ∅ false) None 0 [] room [].
Definition never_called (i : Z) : St (mapping unit) Z := bug.
Abbreviation example_writepages := (emmcfs_mpage_writepages (5 * 4096 + 100) 12 64 false plain_block never_called
  (fun write => hand_over write [0; 1; 2; 5])).

(** The second page is refused by the first request. *)
Lemma mpage_writepages_refines_witness : exists s' m', example_writepages (example_data [true; false; true]) = (Ok 0, s') /\
  one_by_one (5 * 4096 + 100) 12 plain_block never_called False [0; 1; 2; 5] 0 (Mapping _ tt four_pages (fun _ => 0) ∅ false) m' /\
  map (m_disk m') [1000 * 4096; 1001 * 4096 + 4095; 1002 * 4096; 1005 * 4096 + 99; 1005 * 4096 + 100; 1003 * 4096] = [7; 8; 9; 3; 0; 0].
Proof.
  assert (forall s, s = example_data [true; false; true] -> fst (example_writepages s) = Ok 0 ->
    map (m_disk (mp_mapping (snd (example_writepages s))))
      [1000 * 4096; 1001 * 4096 + 4095; 1002 * 4096; 1005 * 4096 + 99; 1005 * 4096 + 100; 1003 * 4096] = [7; 8; 9; 3; 0; 0] ->
    exists s' m', example_writepages s = (Ok 0, s') /\
      one_by_one (5 * 4096 + 100) 12 plain_block never_called (false ∈ mp_mem s) [0; 1; 2; 5] 0 (mp_mapping s) m' /\
      map (m_disk m') [1000 * 4096; 1001 * 4096 + 4095; 1002 * 4096; 1005 * 4096 + 99; 1005 * 4096 + 100; 1003 * 4096] = [7; 8; 9; 3; 0; 0])
    as W.
  { intros s Hs E1 E2.
    pose proof (mpage_writepages_refines (5 * 4096 + 100) 12 64 false plain_block never_called ltac:(lia) plain_places (fun _ _ _ => I)
      (fun write => hand_over write [0; 1; 2; 5]) [0; 1; 2; 5] s (fun _ _ => eq_refl)) as W.
    destruct (example_writepages s) as [r s'] eqn:Es. cbn [fst snd] in *. subst r.
    destruct W as (m' & Hrun & E).
    - apply (bool_decide_unpack _). vm_compute. exact I.
    - subst s. exact four_pages_fit.
    - exists s', m'. split; [done|]. split; [done|]. destruct E as (_ & _ & Ed & _). rewrite <- E2. apply map_ext. exact Ed. }
  destruct (W _ eq_refl) as (s' & m' & W1 & W2 & W3); [vm_compute; reflexivity|vm_compute; reflexivity|].
  exists s', m'. split; [exact W1|]. split; [|exact W3]. eapply one_by_one_mono; [|exact W2]. intros H. by apply not_elem_of_nil in H.
Defined.

(** The metadata of the example: a dirty page of the catalog; the journal is
    committed when the first byte of the device is 1. *)
Definition mark (x : Z) : St (metadata unit) Z := fun md =>
  (Ok 0, Metadata _ (md_special md) (dwrite (md_disk md) 0 [x]) (md_buffers md) (md_locked md) (md_flags md) (md_mem md) (md_room md) (md_sent md)).
Definition empty_file : special unit := Special _ tt ∅ false.
Definition catalog_file : special unit := Special _ tt {[0 := filled 7]} false.
Definition example_metadata (mem : list bool) : metadata unit :=
  Metadata _ {[2 := catalog_file; 3 := empty_file; 4 := empty_file; 6 := empty_file; 7 := empty_file]} (fun _ => 0) ∅ false 0 mem [] [].
Definition example_dirty (n : Z) : list Z := if n =? EMMCFS_CAT_TREE_INO then [0] else [].
Definition example_walk (n : Z) (write : Z -> St (mpage_data unit) Z) : St (mpage_data unit) Z := hand_over write (example_dirty n).
Abbreviation example_update := (update_metadata 12 64 false MOUNT_SNAPSHOT (fun _ => 4096) (fun _ => plain_block) example_walk
  (fun _ _ => bug) (mark 1) (mark 0)).

Lemma example_files_fit mem : all_fit 12 (example_metadata mem).
Proof.
  intros n sp. cbn [example_metadata md_special]. rewrite !lookup_insert_Some, lookup_singleton_Some.
  intros [[_ <-]|[_ [[_ <-]|[_ [[_ <-]|[_ [[_ <-]|[_ [_ <-]]]]]]]]]; intros i c; cbn.
  1: rewrite lookup_singleton_Some; intros [_ <-]; apply filled_fit.
  all: by rewrite lookup_empty.
Qed.

Lemma example_dirty_nodup n : NoDup (example_dirty n).
Proof. unfold example_dirty. destruct (n =? _); [apply NoDup_singleton|apply NoDup_nil_2]. Qed.


(** When the request for a page of the metadata cannot be allocated, the page
    goes to [emmcfs_writepage], which puts it off with
    [AOP_WRITEPAGE_ACTIVATE]; the walk does not count that as an error, so
    [update_metadata] clears the journal and reports success although the page
    has not been written. *)
Theorem unwritten_page_clears_journal :
  let dirty md := match md_special md !! EMMCFS_CAT_TREE_INO with
    | Some sp => match sp_pages sp !! 0 with Some c => c_dirty c | None => false end
    | None => false
    end in
  let run mem := let '(r, md) := example_update (example_metadata mem) in
    (r, dirty md, md_disk md 0, md_disk md (1000 * 4096)) in
  run [false] = (Ok 0, true, 0, 0) /\ run [] = (Ok 0, false, 0, 7).
Proof. split; vm_compute; reflexivity. Qed.
